(* ===== verification/_CoqProject ===== *)
-Q . S2P
Prelude.v
Codes.v
Types.v
Errno.v
Fault.v
Links.v
Pool.v
ReadyQueue.v
ReadyQueueSteps.v
Readiness.v
Exclusive.v
FdTable.v
Worklists.v
Quiet.v
Timeout.v
Iocp.v
WakeSteps.v
Provider.v
PollKeys.v
AfdOps.v
Groups.v
Pipe.v
Targets.v
Levels.v
Keeps.v
Registration.v
Completion.v
Accounting.v
Control.v
Wait.v
Lifecycle.v
Api.v
PortAccounting.v
ApiSteps.v
WaitResults.v
EpfdTable.v
Resources.v
Creation.v
PosixTypes.v
PosixPort.v
PosixNodes.v
PosixCtl.v
PosixWait.v
PosixApi.v
PosixKernel.v
PosixRefine.v
PosixTimeouts.v
PosixExpand.v
PosixSteps.v
PosixLife.v
NgxTypes.v
Nginx.v
NgxEdge.v
NgxLedger.v
NgxRearm.v
NgxOps.v
NgxWorker.v
NgxDemo.v
NgxLife.v
NgxDeliver.v
NgxSweep.v
NgxLevel.v
NgxPort.v
