(* ===== verification/Prelude.v ===== *)
(** * wepoll-ex: a verification of the library, its POSIX backend and its nginx module

    wepoll-ex gives Windows programs the interface of Linux [epoll].  A port
    ([ep_port_t]) holds registrations ([ep_sock_t]) of sockets, pipes and
    waitable objects.  Sockets are watched with AFD poll requests whose results
    arrive as completion packets; a packet's handler qualifies the readiness it
    reports and queues a ready node; a waiting thread dequeues packets, drains
    the nodes into the caller's array, and arms what was drained again.  Public
    descriptors name ports through reference-counted records.

    On Linux the same extended interface is a layer over the native epoll, and an
    nginx event module is a client of the interface.

    This library translates the three programs, function by function, into
    executable definitions and proves what makes each part correct.

    ** The state and the language

    [Prelude]: record update, a state monad [M] in which [None] is undefined
    behaviour (a NULL or dangling pointer is used, an assertion fails, or a loop
    runs out of fuel), typed heaps ([rd], [wr], [st], [del]), total-correctness
    reasoning [wp].  [Codes]: numeric constants.  [Types]: the structures of
    [src/wepoll_ex_internal.h], [src/wepoll_ex_pool.c], [src/wepoll_ex_fault.c] and
    [src/wepoll_ex_api.c] as records, one heap per structure, and the process
    state [world].  [Links]: the theory of the intrusive lists.

    The platform is the environment: every call of the operating system, of the
    allocator or of the clock is [os request], answered by [w_os w calls request]
    where [calls] are the calls made so far, latest first ([w_trace] records them).
    A theorem that does not restrict [w_os] holds for every behaviour of the
    platform; the few restrictions (a lock is acquired when asked for, a file that
    was opened has a handle, a duplicate gets a number no open handle has, a clock
    reaches a deadline) are hypotheses, and each such theorem has a witness
    with a concrete platform.  Machine integers are [Z] with their wrap-around written out
    ([u8], [u32], [u64], [i32]).

    A critical section of the code is one definition; that a mutex is held is not
    part of the state.  What happens between critical sections is explicit where a claim
    depends on it: [Wait] and [Lifecycle] run an arbitrary computation [others]
    of other threads at each unlocked point, and [ReadyQueueSteps], [WakeSteps]
    and [ApiSteps] are step relations of interleaved atomic steps.

    ** The components

    - [Errno] ([src/wepoll_ex_errno.c]): error translation and the error record;
      round trip of errno and Winsock codes, save/restore brackets.
    - [Fault] ([src/wepoll_ex_fault.c]): fault injection.
    - [Pool], [ReadyQueue], [ReadyQueueSteps] ([src/wepoll_ex_pool.c]): the buffer
      pool refines a stack with an exact account; the multi-producer queue is FIFO
      in every interleaving and never writes through a returned node.
    - [Readiness] ([src/wepoll_ex_afd.c], [src/wepoll_ex_port.c]): masks; exactly
      the AFD conditions that can produce a wanted event are polled.
    - [Exclusive]: EPOLLEXCLUSIVE claims; no readiness class of a socket is ever
      owned twice.
    - [FdTable]: the open-addressing table is a finite map.
    - [Worklists]: the live, re-arm and one-shot lists with flags and counters.
    - [Timeout], [Iocp], [WakeSteps]: timeouts never shorten a wait, posts and
      wake-ups; a wake-up is never lost.
    - [Provider], [PollKeys], [AfdOps], [Groups] ([src/wepoll_ex_afd.c] and the
      AFD groups of [src/wepoll_ex_port.c]): provider lookup, endpoint identity,
      distinct poll targets, submission and cancellation without handle leaks.
    - [Pipe], [Targets], [Levels]: sampling of pipes, classification of
      descriptors, current socket levels.
    - [Registration], [Completion] ([src/wepoll_ex_port.c], 2654-4272): the life of
      a registration and the whole completion handler.
    - [Control] (4889-5944): ADD, MOD, DEL, shutdown, re-arming, with rollback.
    - [Wait] (4544-4577, 5950-6689): dispatch, drain and the wait loop.
    - [Lifecycle] ([src/wepoll_ex_global.c]; 2032-2104, 4278-4883): creation, close,
      drain, quarantine, destruction, statistics.
    - [Api] ([src/wepoll_ex_api.c]): the table of descriptors, references and all
      exported functions.

    [Quiet] and [Keeps] are the frame reasoning the components share: quiet
    effects, actions within a frame, and what every run of an action keeps.

    ** The POSIX backend ([src/wepoll_ex_posix.c])

    [Linux] ([PosixTypes]) is the interface of the system calls and library
    functions it uses, over an abstract kernel; [LinuxLaws] ([PosixLife]) is what
    a proof may rely on; [PosixKernel] is an executable kernel that satisfies both.
    [Env] is what surrounds a thread: the steps of the others wherever it holds no
    lock, and the rounds of the loops that wait for something outside.

    - [PosixPort] (35-764): the registry, references, retirement, creation, the
      control operation.  [PosixWait] (766-1064): timeouts, signal masks and the
      extended wait.  [PosixApi] (1066-1532): the exported functions.
    - [PosixNodes], [PosixCtl], [PosixRefine]: the two hash indexes of a port's
      registrations, and that the control operation implements an abstract set of
      registrations.
    - [PosixTimeouts]: a long wait is split into calls that add up to the timeout.
    - [PosixExpand]: records are expanded in place, back to front, without
      overwriting one that is still to be read.
    - [PosixSteps]: the interleavings of references, closes and cancellations; a
      port is freed once, never while it is referenced, and not forgotten.
    - [PosixLife]: creation is all or nothing, release frees exactly the port.

    ** The nginx event module ([nginx/ngx_wepoll_module.c])

    [EventPort] and [Nginx] ([NgxTypes]) are the interfaces to the library and to
    nginx; the module is proved against their laws [PortLaws] ([NgxEdge]) and
    [NginxLaws] ([NgxWorker]).  What nginx and its handlers may do is a step relation
    that includes the module's own operations, with nginx's side of the contract: a
    registered connection is closed or reused only after [del_conn], and a connection
    whose [add_conn] failed is removed, unless it is in the set [g_lost], an arbitrary
    set of connections whose failed [add_conn] may be left as it is.  Claims about the
    calls the module makes into the port are stated over a port that records them
    ([NgxLedger]), whatever that port does.  [NgxDemo] has executable instances of all of them; [NgxPort] has the model of
    the Windows library as an [EventPort].

    - [Nginx]: the module's functions, both modes, and its life.
    - [NgxEdge], [NgxRearm], [NgxOps], [NgxWorker], [NgxDeliver]: the bookkeeping of
      edge mode holds in every state a worker reaches; no round is stuck.
    - [NgxSweep]: no wait starts with a drained event left disarmed.
    - [NgxLevel]: the last request the port accepted for a connection is what its
      active events need.
    - [NgxLife]: initialisation and shutdown, failures included, leave no block and
      no open port, and every variable at its initial value.
    - [NgxPort]: module and library agree on the classes a record disarms.

    ** Properties across components

    - [Accounting], [PortAccounting]: in every schedule of control operations,
      waits, closes, callbacks and kernel output, [pending_poll_count] is exactly the
      number of registrations with a request in flight; when the drain before
      destruction succeeds, the kernel holds no request of the port.
    - [WaitResults]: the result of a wait is the number of records stored and never
      exceeds the caller's array, also when batches are coalesced.
    - [Resources], [Creation]: creating a port is all or nothing, in the heaps and
      in the handles, arrays and mutexes obtained from the platform.
    - [EpfdTable]: the descriptors are a finite map to port records, each record
      counts its names, and numbers are found and reused correctly.
    - [ApiSteps]: however operations and closes interleave, a port is destroyed
      once, never while it is referenced, and not forgotten.

    ** Bounds and fuel

    Loops over intrusive lists carry the number of objects of their heap as fuel
    ([walk_fuel], [key_fuel], [drain_fuel], [epfd_fuel], ...); the invariants say that
    a list has no repetition, so the fuel is enough, and the theorems that state a
    result prove it.  [epfd_allocate_id_locked] tries one number more than there
    are entries instead of [INT_MAX]: [allocate_id_fresh] shows that one of them is
    free.  [base_loop] runs the 32 rounds of the code.  [callback_idle_loop] models
    the spin on a callback of another thread by one look, since the model runs
    whole callbacks between critical sections.  [snapshot_loop] makes at most two
    rounds because a second snapshot is never outdated.  The fuel of the wait loop
    and of the drain is a parameter: they end when the platform's clock or packets
    end them; theorems hold for every fuel.  The same holds of the fuels of [Env];
    [PosixTimeouts] says how much [chunk_fuel] a timeout needs.  The loops of the
    nginx module are structural: over the records of a wait and the pending count.

    ** Not modelled

    - The builds other than the default one: strict and synchronized socket
      lifetime, the large AFD index; the fault-free build is the model with an empty
      fault mask.
    - Benchmarks, examples and tests, which exercise the library and hold none of
      its logic; the tables that register the nginx module and its directives.
    - Memory ordering: atomics are sequentially consistent.
    - Thread start and end ([CreateThread] only answers; the body of the reaper
      thread is [ep_port_reaper_thread]), module pinning beyond its answers, and the
      contents of OVERLAPPED and other structures owned by the platform.
    - Version strings. *)

From stdpp Require Export base gmap list fin_maps.
From Stdlib Require Export ZArith Lia.

Declare Scope ep_scope.
Delimit Scope ep_scope with ep.
#[global] Open Scope Z_scope.

(** ** Record update *)

(** [Setter f] is the functional update of the field [f]. *)
Class Setter {R T : Type} (f : R -> T) := set : (T -> T) -> R -> R.
Arguments set {R T} f {_} _ _ : simpl never.
#[global] Hint Mode Setter - - ! : typeclass_instances.

(** [Eta R] rebuilds a record from its projections; setters are derived
    from it by abstracting one projection. *)
Class Eta (R : Type) := eta : R -> R.

Ltac derive_setter :=
  match goal with
  | |- @Setter ?R ?T ?f =>
    exact (fun (u : T -> T) (r : R) =>
      ltac:(let e := eval hnf in (eta r) in
            match eval pattern (f r) in e with
            | ?F _ => let e' := eval cbv beta in (F (u (f r))) in exact e'
            end))
  end.

Notation "r <| f := v |>" := (set f (fun _ => v) r)
  (at level 1, left associativity, f at level 0, v at level 200,
   format "r  <| f  :=  v |>") : ep_scope.
Notation "r <| f ::= u |>" := (set f u r)
  (at level 1, left associativity, f at level 0, u at level 200,
   format "r  <| f  ::=  u |>") : ep_scope.
#[global] Open Scope ep_scope.

(** Evaluate a projection of an updated record, without unfolding the
    record itself. *)
Ltac is_field f := let _ := constr:(_ : Setter f) in idtac.
Ltac sget1 :=
  match goal with
  | |- context [?f (set ?f ?u ?r)] => change (f (set f u r)) with (u (f r)); cbv beta
  | |- context [?f (set ?g ?u ?r)] => is_field f; change (f (set g u r)) with (f r)
  end.
Ltac sget := repeat sget1.
Ltac sget1_in H :=
  match type of H with
  | context [?f (set ?f ?u ?r)] => change (f (set f u r)) with (u (f r)) in H; cbv beta in H
  | context [?f (set ?g ?u ?r)] => is_field f; change (f (set g u r)) with (f r) in H
  end.
Ltac sget_in H := repeat sget1_in H.

(** ** A state monad with undefined behaviour *)

(** [None] stands for C undefined behaviour: a null or dangling pointer is
    dereferenced, an [assert] fails, or a loop exhausts its fuel. *)
Definition M (S A : Type) : Type := S -> option (A * S).

Section Monad.
Context {S : Type}.

Definition ret {A} (a : A) : M S A := fun w => Some (a, w).
Definition bind {A B} (m : M S A) (k : A -> M S B) : M S B :=
  fun w => match m w with Some (a, w') => k a w' | None => None end.
Definition stuck {A} : M S A := fun _ => None.
Definition assertM (b : bool) : M S unit :=
  fun w => if b then Some (tt, w) else None.
Definition get {T} (f : S -> T) : M S T := fun w => Some (f w, w).
Definition put {T} (f : S -> T) `{!Setter f} (v : T) : M S unit :=
  fun w => Some (tt, w <| f := v |>).
End Monad.

(** The state after running [m], for evaluating examples. *)
Definition exec {S A} (m : M S A) (w : S) : S :=
  match m w with Some (_, w') => w' | None => w end.
Definition result {S A} (m : M S A) (w : S) : option A := fst <$> m w.
Lemma run_exec {S A} (m : M S A) w a : result m w = Some a -> m w = Some (a, exec m w).
Proof. unfold result, exec. destruct (m w) as [[b w']|]; [|done]. by intros [= ->]. Qed.

Notation "x <- m ;; k" := (bind m (fun x => k))
  (at level 100, m at next level, k at level 200, right associativity) : ep_scope.
Notation "m ;; k" := (bind m (fun _ => k))
  (at level 100, k at level 200, right associativity) : ep_scope.

(** Pointers: [None] is NULL. *)
Abbreviation addr := positive.
Abbreviation ptr := (option positive).
Abbreviation NULL := (@None positive).

Section Heap.
Context {S R : Type} (H : S -> gmap addr R) `{!Setter H}.

(** [rd H p f] is [p->f]; [wr H p f v] is [p->f = v]. *)
Definition rd {T} (p : ptr) (f : R -> T) : M S T := fun w =>
  match p with
  | Some a => match H w !! a with Some r => Some (f r, w) | None => None end
  | None => None
  end.
Definition wr {T} (p : ptr) (f : R -> T) `{!Setter f} (v : T) : M S unit := fun w =>
  match p with
  | Some a =>
    match H w !! a with
    | Some r => Some (tt, w <| H := <[a := r <| f := v |>]> (H w) |>)
    | None => None
    end
  | None => None
  end.
(** [st H p r] overwrites the whole object ([memset], structure copy). *)
Definition st (p : ptr) (r : R) : M S unit := fun w =>
  match p with
  | Some a =>
    match H w !! a with
    | Some _ => Some (tt, w <| H := <[a := r]> (H w) |>)
    | None => None
    end
  | None => None
  end.
(** [del H p] is [free(p)]: freeing NULL is a no-op, a dangling free is
    undefined. *)
Definition del (p : ptr) : M S unit := fun w =>
  match p with
  | Some a =>
    match H w !! a with
    | Some _ => Some (tt, w <| H := delete a (H w) |>)
    | None => None
    end
  | None => Some (tt, w)
  end.
End Heap.

(** ** Symbolic execution *)

Section MonadLemmas.
Context {S : Type}.

Lemma bind_some {A B} (m : M S A) (k : A -> M S B) w a w' :
  m w = Some (a, w') -> bind m k w = k a w'.
Proof. unfold bind. by intros ->. Qed.

Lemma bind_inv {A B} (m : M S A) (k : A -> M S B) w b w'' :
  bind m k w = Some (b, w'') ->
  exists a w', m w = Some (a, w') /\ k a w' = Some (b, w'').
Proof. unfold bind. destruct (m w) as [[a w']|]; [eauto|done]. Qed.

Lemma bind_ret {A B} (a : A) (k : A -> M S B) w : bind (ret a) k w = k a w.
Proof. done. Qed.

Lemma bind_assoc {A B C} (m : M S A) (k : A -> M S B) (k' : B -> M S C) w :
  bind (bind m k) k' w = bind m (fun x => bind (k x) k') w.
Proof. unfold bind. by destruct (m w) as [[]|]. Qed.

Context {R : Type} (H : S -> gmap addr R) `{!Setter H}.

Lemma rd_some {T} a r (f : R -> T) w :
  H w !! a = Some r -> rd H (Some a) f w = Some (f r, w).
Proof. unfold rd. by intros ->. Qed.

Lemma wr_some {T} a r (f : R -> T) `{!Setter f} v w :
  H w !! a = Some r ->
  wr H (Some a) f v w = Some (tt, w <| H := <[a := r <| f := v |>]> (H w) |>).
Proof. unfold wr. by intros ->. Qed.

Lemma st_some a r r' w :
  H w !! a = Some r -> st H (Some a) r' w = Some (tt, w <| H := <[a := r']> (H w) |>).
Proof. unfold st. by intros ->. Qed.

Lemma del_some a r w :
  H w !! a = Some r -> del H (Some a) w = Some (tt, w <| H := delete a (H w) |>).
Proof. unfold del. by intros ->. Qed.
End MonadLemmas.

(** ** C [switch] *)

(** Arms are tried in order; the labels of an arm share its result. *)
Fixpoint switch {A} (x : Z) (arms : list (list Z * A)) (default : A) : A :=
  match arms with
  | [] => default
  | (labels, r) :: arms' =>
    if existsb (Z.eqb x) labels then r else switch x arms' default
  end.

Lemma switch_in {A} x (arms : list (list Z * A)) d :
  switch x arms d = d \/ exists labels r,
    (labels, r) ∈ arms /\ x ∈ labels /\ switch x arms d = r.
Proof.
  induction arms as [|[labels r] arms IH]; simpl; [by left|].
  destruct (existsb (Z.eqb x) labels) eqn:E.
  - right. exists labels, r. split_and!; [by left| |done].
    apply existsb_exists in E as (y & Hy & ->%Z.eqb_eq). by apply list_elem_of_In.
  - destruct IH as [?|(l' & r' & ? & ? & ?)]; [by left|right].
    exists l', r'. split_and!; [by right|done|done].
Qed.

(** Every result of a switch satisfies a property its reachable arms satisfy. *)
Lemma switch_Forall {A} (P : A -> Prop) x arms d :
  P d -> Forall (fun arm => x ∈ arm.1 -> P arm.2) arms -> P (switch x arms d).
Proof.
  intros Hd Hall. destruct (switch_in x arms d) as [->|(l & r & Hin & Hx & ->)]; [done|].
  rewrite Forall_forall in Hall. by apply (Hall (l, r) Hin).
Qed.

(** A value that does not take the default is one of the labels. *)
Lemma switch_label {A} x (arms : list (list Z * A)) d :
  switch x arms d <> d -> x ∈ concat arms.*1.
Proof.
  intros Hne. destruct (switch_in x arms d) as [?|(l & r & Hin & Hx & _)]; [done|].
  apply list_elem_of_In, in_concat. exists l. split; [|by apply list_elem_of_In].
  apply list_elem_of_In, (list_elem_of_fmap_2 fst arms (l, r)), Hin.
Qed.

(** ** Inversion and execution of monadic code *)

Section Inversions.
Context {S : Type}.

Lemma ret_inv {A} (a b : A) (w w' : S) : ret a w = Some (b, w') -> b = a /\ w' = w.
Proof. unfold ret. intros. by simplify_eq. Qed.
Lemma get_inv {T} (f : S -> T) v w w' : get f w = Some (v, w') -> v = f w /\ w' = w.
Proof. unfold get. intros. by simplify_eq. Qed.
Lemma put_inv {T} (f : S -> T) `{!Setter f} v u w w' :
  put f v w = Some (u, w') -> w' = w <| f := v |>.
Proof. unfold put. intros. by simplify_eq. Qed.
Lemma assertM_inv (b : bool) u (w w' : S) :
  assertM b w = Some (u, w') -> b = true /\ w' = w.
Proof. unfold assertM. destruct b; intros; by simplify_eq. Qed.

Context {R : Type} (H : S -> gmap addr R) `{!Setter H}.
Lemma rd_inv {T} p (f : R -> T) v w w' :
  rd H p f w = Some (v, w') ->
  exists a r, p = Some a /\ H w !! a = Some r /\ v = f r /\ w' = w.
Proof.
  unfold rd. destruct p as [a|]; [|done]. destruct (H w !! a) as [r|] eqn:E; [|done].
  intros; simplify_eq. by exists a, r.
Qed.
Lemma wr_inv {T} p (f : R -> T) `{!Setter f} v u w w' :
  wr H p f v w = Some (u, w') ->
  exists a r, p = Some a /\ H w !! a = Some r /\
    w' = w <| H := <[a := r <| f := v |>]> (H w) |>.
Proof.
  unfold wr. destruct p as [a|]; [|done]. destruct (H w !! a) as [r|] eqn:E; [|done].
  intros; simplify_eq. by exists a, r.
Qed.
End Inversions.

(** Invert every hypothesis that says a computation returned. *)
Ltac minv_step :=
  match goal with
  | H : bind _ _ _ = Some _ |- _ =>
    let x := fresh "x" in let w := fresh "w" in let H1 := fresh H in
    apply bind_inv in H as (x & w & H1 & H); cbv beta in H
  | H : ret _ _ = Some _ |- _ =>
    let H1 := fresh "Hr" in apply ret_inv in H as [H1 ->]; first [subst | simplify_eq | idtac]
  | H : get _ _ = Some _ |- _ => apply get_inv in H as [-> ->]
  | H : put _ _ _ = Some _ |- _ => apply put_inv in H as ->
  | H : assertM _ _ = Some _ |- _ => apply assertM_inv in H as [H ->]
  | H : rd _ ?p _ _ = Some _ |- _ =>
    apply rd_inv in H as (? & ? & ? & H & -> & ->); try subst p
  | H : wr _ ?p _ _ _ = Some _ |- _ =>
    apply wr_inv in H as (? & ? & ? & H & ->); try subst p
  | H : stuck _ = Some _ |- _ => discriminate H
  | H : (if ?b then _ else _) _ = Some _ |- _ => destruct b eqn:?
  | H : match ?o with Some _ => _ | None => _ end _ = Some _ |- _ => destruct o eqn:?
  end.
Ltac minv := repeat minv_step.

(** Run the first action of the goal's computation. *)
Ltac mlookup :=
  sget; first [ eassumption
              | eapply lookup_insert_eq
              | rewrite ?lookup_insert_ne by congruence; first [eassumption | eapply lookup_insert_eq] ].
Ltac mstep :=
  first
    [ rewrite bind_assoc
    | rewrite bind_ret
    | erewrite bind_some by
        first [ reflexivity
              | eapply rd_some; mlookup
              | eapply wr_some; mlookup
              | eapply st_some; mlookup
              | eapply del_some; mlookup ] ]; cbv beta.

(** ** Postconditions *)

(** [wp m Q w]: run from [w], [m] returns, and its result and final state
    satisfy [Q] (total correctness). *)
Definition wp {S A} (m : M S A) (Q : A -> S -> Prop) (w : S) : Prop :=
  exists a w', m w = Some (a, w') /\ Q a w'.

Section WpLemmas.
Context {S : Type}.

Lemma wp_bind {A B} (m : M S A) (k : A -> M S B) Q w :
  wp m (fun a => wp (k a) Q) w -> wp (bind m k) Q w.
Proof.
  intros (a & w1 & Hm & b & w2 & Hk & HQ). exists b, w2. split; [|done].
  by erewrite bind_some.
Qed.

Lemma wp_mono {A} (m : M S A) (P Q : A -> S -> Prop) w :
  wp m P w -> (forall a w', P a w' -> Q a w') -> wp m Q w.
Proof. intros (a & w' & Hm & HP) HPQ. exists a, w'. eauto. Qed.

Lemma wp_seq {A B} (m : M S A) (k : A -> M S B) P Q w :
  wp m P w -> (forall a w', P a w' -> wp (k a) Q w') -> wp (bind m k) Q w.
Proof. intros Hm Hk. apply wp_bind. by eapply wp_mono. Qed.

Lemma wp_ret {A} (a : A) (Q : A -> S -> Prop) w : Q a w -> wp (ret a) Q w.
Proof. intros HQ. by exists a, w. Qed.

Lemma wp_run {A} (m : M S A) a w w' (Q : A -> S -> Prop) :
  m w = Some (a, w') -> Q a w' -> wp m Q w.
Proof. intros Hm HQ. by exists a, w'. Qed.

Lemma wp_get {T} (f : S -> T) (Q : T -> S -> Prop) w : Q (f w) w -> wp (get f) Q w.
Proof. intros HQ. by exists (f w), w. Qed.
Lemma wp_put {T} (f : S -> T) `{!Setter f} v (Q : unit -> S -> Prop) w :
  Q tt (w <| f := v |>) -> wp (put f v) Q w.
Proof. intros HQ. by eexists _, _. Qed.
Lemma wp_assert (b : bool) (Q : unit -> S -> Prop) w :
  b = true -> Q tt w -> wp (assertM b) Q w.
Proof. intros -> HQ. by eexists _, _. Qed.

Context {R : Type} (H : S -> gmap addr R) `{!Setter H}.
Lemma wp_rd {T} a r (f : R -> T) (Q : T -> S -> Prop) w :
  H w !! a = Some r -> Q (f r) w -> wp (rd H (Some a) f) Q w.
Proof. intros Ha HQ. exists (f r), w. split; [|done]. by apply rd_some. Qed.
Lemma wp_wr {T} a r (f : R -> T) `{!Setter f} v (Q : unit -> S -> Prop) w :
  H w !! a = Some r -> Q tt (w <| H := <[a := r <| f := v |>]> (H w) |>) ->
  wp (wr H (Some a) f v) Q w.
Proof. intros Ha HQ. eexists _, _. split; [by apply wr_some|done]. Qed.
End WpLemmas.

(** Equality of two updated states: compare them field by field. *)
Ltac weq :=
  unfold set; cbn -[Z.add Z.sub Z.mul Z.lor Z.land Z.ldiff insert delete lookup];
  rewrite ?insert_insert_eq; reflexivity.

(** Only the last update of a field, or of a heap cell, counts. *)
Ltac scollapse :=
  repeat (match goal with
          | |- context [set ?H (fun _ => ?v) (set ?H ?u ?w)] =>
            change (set H (fun _ => v) (set H u w)) with (set H (fun _ => v) w)
          end);
  rewrite ?insert_insert_eq.
