(* ===== verification/Codes.v ===== *)
(** * Numeric codes

    Event masks of [include/wepoll_ex.h], AFD masks and readiness classes of
    [src/wepoll_ex_internal.h] and [src/wepoll_ex_port.c], and the platform's
    error numbers that the sources name.  Masks are [Z]; the errno values are
    those of the Microsoft C runtime and the Win32/Winsock codes those of
    [winerror.h], which the Windows build of the library is compiled against. *)
From S2P Require Import Prelude.

(** ** Machine integers *)

Definition UINT32_MAX : Z := 2 ^ 32 - 1.
Definition UINT64_MAX : Z := 2 ^ 64 - 1.
Definition SIZE_MAX : Z := UINT64_MAX.
Definition INT_MAX : Z := 2 ^ 31 - 1.

(** Conversion to an unsigned type of [w] bits. *)
Definition wrap (w x : Z) : Z := x mod 2 ^ w.
Abbreviation u8 := (wrap 8).
Abbreviation u32 := (wrap 32).
Abbreviation u64 := (wrap 64).

Lemma u64_small x : 0 <= x < 2 ^ 64 -> u64 x = x.
Proof. apply Z.mod_small. Qed.

(** [(x & m) != 0]. *)
Definition has (x m : Z) : bool := negb (Z.land x m =? 0).

(** ** Event bits ([include/wepoll_ex.h]) *)

Definition EPOLLIN : Z := Z.shiftl 1 0.
Definition EPOLLPRI : Z := Z.shiftl 1 1.
Definition EPOLLOUT : Z := Z.shiftl 1 2.
Definition EPOLLERR : Z := Z.shiftl 1 3.
Definition EPOLLHUP : Z := Z.shiftl 1 4.
Definition EPOLLRDNORM : Z := Z.shiftl 1 6.
Definition EPOLLRDBAND : Z := Z.shiftl 1 7.
Definition EPOLLWRNORM : Z := Z.shiftl 1 8.
Definition EPOLLWRBAND : Z := Z.shiftl 1 9.
Definition EPOLLMSG : Z := Z.shiftl 1 10.
Definition EPOLLRDHUP : Z := Z.shiftl 1 13.
Definition EPOLLEXCLUSIVE : Z := Z.shiftl 1 28.
Definition EPOLLWAKEUP : Z := Z.shiftl 1 29.
Definition EPOLLONESHOT : Z := Z.shiftl 1 30.
Definition EPOLLET : Z := Z.shiftl 1 31.

Definition WEPOLL_FLAG_ONESHOT_FIRED : Z := Z.shiftl 1 0.
Definition WEPOLL_FLAG_ET_DELIVERED : Z := Z.shiftl 1 1.
Definition WEPOLL_FLAG_EDGE_ARMED : Z := Z.shiftl 1 2.
Definition WEPOLL_FLAG_WAKE_EVENT : Z := Z.shiftl 1 3.

(** ** AFD poll bits ([src/wepoll_ex_internal.h]) *)

Definition AFD_POLL_RECEIVE : Z := 1.
Definition AFD_POLL_RECEIVE_EXPEDITED : Z := 2.
Definition AFD_POLL_SEND : Z := 4.
Definition AFD_POLL_DISCONNECT : Z := 8.
Definition AFD_POLL_ABORT : Z := 16.
Definition AFD_POLL_LOCAL_CLOSE : Z := 32.
Definition AFD_POLL_ACCEPT : Z := 128.
Definition AFD_POLL_CONNECT_FAIL : Z := 256.
Definition AFD_POLL_ALL_EVENTS : Z :=
  Z.lor AFD_POLL_RECEIVE (Z.lor AFD_POLL_RECEIVE_EXPEDITED
    (Z.lor AFD_POLL_SEND (Z.lor AFD_POLL_DISCONNECT
      (Z.lor AFD_POLL_ABORT (Z.lor AFD_POLL_LOCAL_CLOSE
        (Z.lor AFD_POLL_ACCEPT AFD_POLL_CONNECT_FAIL)))))).

(** Operations, flags and limits of the public interface.
    [INT_MAX / sizeof(struct epoll_event)], packed to 12 bytes on x64; the
    extended record's limit is the same there. *)
Definition EPOLL_CTL_ADD : Z := 1.
Definition EPOLL_CTL_DEL : Z := 2.
Definition EPOLL_CTL_MOD : Z := 3.
Definition EPOLL_CLOEXEC : Z := 0x80000.
Definition WEPOLL_EX_CREATE_EXPLICIT_REARM : Z := 0x01000000.
Definition WEPOLL_EPOLL_MAX_EVENTS : Z := (2 ^ 31 - 1) / 12.
Definition WEPOLL_EPOLL_EX_MAX_EVENTS : Z := Z.min ((2 ^ 64 - 1) / 40) WEPOLL_EPOLL_MAX_EVENTS.

Definition WEPOLL_INITIAL_FDS : Z := 256.
Definition WEPOLL_AFD_POOL_SIZE : Z := 64.
Definition WEPOLL_AFD_GROUP_SIZE : Z := 128.

(** ** errno values (Microsoft C runtime, [errno.h]) *)

Definition EPERM : Z := 1.
Definition ENOENT : Z := 2.
Definition EIO : Z := 5.
Definition EBADF : Z := 9.
Definition EAGAIN : Z := 11.
Definition ENOMEM : Z := 12.
Definition EACCES : Z := 13.
Definition EFAULT : Z := 14.
Definition EBUSY : Z := 16.
Definition EEXIST : Z := 17.
Definition EINVAL : Z := 22.
Definition EMFILE : Z := 24.
Definition ENOSPC : Z := 28.
Definition EPIPE : Z := 32.
Definition ENAMETOOLONG : Z := 38.
Definition ENOSYS : Z := 40.
Definition ENOTEMPTY : Z := 41.
Definition EADDRINUSE : Z := 100.
Definition EADDRNOTAVAIL : Z := 101.
Definition EAFNOSUPPORT : Z := 102.
Definition EALREADY : Z := 103.
Definition ECANCELED : Z := 105.
Definition ECONNABORTED : Z := 106.
Definition ECONNREFUSED : Z := 107.
Definition ECONNRESET : Z := 108.
Definition EDESTADDRREQ : Z := 109.
Definition EHOSTUNREACH : Z := 110.
Definition EINPROGRESS : Z := 112.
Definition EISCONN : Z := 113.
Definition ELOOP : Z := 114.
Definition EMSGSIZE : Z := 115.
Definition ENETDOWN : Z := 116.
Definition ENETRESET : Z := 117.
Definition ENETUNREACH : Z := 118.
Definition ENOBUFS : Z := 119.
Definition ENOPROTOOPT : Z := 123.
Definition ENOTCONN : Z := 126.
Definition ENOTSOCK : Z := 128.
Definition ENOTSUP : Z := 129.
Definition EOPNOTSUPP : Z := 130.
Definition EOVERFLOW : Z := 132.
Definition EPROTONOSUPPORT : Z := 135.
Definition EPROTOTYPE : Z := 136.
Definition ETIMEDOUT : Z := 138.

(** Fallbacks of [src/wepoll_ex_errno.c] for names MinGW does not define. *)

Definition ESOCKTNOSUPPORT : Z := EOPNOTSUPP.
Definition EPFNOSUPPORT : Z := EAFNOSUPPORT.
Definition ETOOMANYREFS : Z := EAGAIN.
Definition EHOSTDOWN : Z := EHOSTUNREACH.
Definition EUSERS : Z := EAGAIN.
Definition EDQUOT : Z := ENOSPC.
Definition ESTALE : Z := EINVAL.
Definition EREMOTE : Z := EINVAL.

(** ** Win32 and Winsock error codes ([winerror.h]) *)

Definition ERROR_SUCCESS : Z := 0.
Definition ERROR_INVALID_FUNCTION : Z := 1.
Definition ERROR_FILE_NOT_FOUND : Z := 2.
Definition ERROR_PATH_NOT_FOUND : Z := 3.
Definition ERROR_TOO_MANY_OPEN_FILES : Z := 4.
Definition ERROR_ACCESS_DENIED : Z := 5.
Definition ERROR_INVALID_HANDLE : Z := 6.
Definition ERROR_NOT_ENOUGH_MEMORY : Z := 8.
Definition ERROR_INVALID_DATA : Z := 13.
Definition ERROR_OUTOFMEMORY : Z := 14.
Definition ERROR_NOT_READY : Z := 21.
Definition ERROR_GEN_FAILURE : Z := 31.
Definition ERROR_SHARING_VIOLATION : Z := 32.
Definition ERROR_NOT_SUPPORTED : Z := 50.
Definition ERROR_FILE_EXISTS : Z := 80.
Definition ERROR_INVALID_PARAMETER : Z := 87.
Definition ERROR_BROKEN_PIPE : Z := 109.
Definition ERROR_CALL_NOT_IMPLEMENTED : Z := 120.
Definition ERROR_SEM_TIMEOUT : Z := 121.
Definition ERROR_BUSY : Z := 170.
Definition ERROR_ALREADY_EXISTS : Z := 183.
Definition ERROR_NO_DATA : Z := 232.
Definition ERROR_PIPE_NOT_CONNECTED : Z := 233.
Definition WAIT_TIMEOUT : Z := 258.
Definition ERROR_INVALID_ADDRESS : Z := 487.
Definition ERROR_ABANDONED_WAIT_0 : Z := 735.
Definition ERROR_OPERATION_ABORTED : Z := 995.
Definition ERROR_IO_PENDING : Z := 997.
Definition ERROR_NOT_FOUND : Z := 1168.
Definition ERROR_CANCELLED : Z := 1223.
Definition ERROR_NO_SYSTEM_RESOURCES : Z := 1450.
Definition ERROR_TIMEOUT : Z := 1460.

Definition WSAEBADF : Z := 10009.
Definition WSAEACCES : Z := 10013.
Definition WSAEFAULT : Z := 10014.
Definition WSAEINVAL : Z := 10022.
Definition WSAEMFILE : Z := 10024.
Definition WSAEWOULDBLOCK : Z := 10035.
Definition WSAEINPROGRESS : Z := 10036.
Definition WSAEALREADY : Z := 10037.
Definition WSAENOTSOCK : Z := 10038.
Definition WSAEDESTADDRREQ : Z := 10039.
Definition WSAEMSGSIZE : Z := 10040.
Definition WSAEPROTOTYPE : Z := 10041.
Definition WSAENOPROTOOPT : Z := 10042.
Definition WSAEPROTONOSUPPORT : Z := 10043.
Definition WSAESOCKTNOSUPPORT : Z := 10044.
Definition WSAEOPNOTSUPP : Z := 10045.
Definition WSAEPFNOSUPPORT : Z := 10046.
Definition WSAEAFNOSUPPORT : Z := 10047.
Definition WSAEADDRINUSE : Z := 10048.
Definition WSAEADDRNOTAVAIL : Z := 10049.
Definition WSAENETDOWN : Z := 10050.
Definition WSAENETUNREACH : Z := 10051.
Definition WSAENETRESET : Z := 10052.
Definition WSAECONNABORTED : Z := 10053.
Definition WSAECONNRESET : Z := 10054.
Definition WSAENOBUFS : Z := 10055.
Definition WSAEISCONN : Z := 10056.
Definition WSAENOTCONN : Z := 10057.
Definition WSAESHUTDOWN : Z := 10058.
Definition WSAETOOMANYREFS : Z := 10059.
Definition WSAETIMEDOUT : Z := 10060.
Definition WSAECONNREFUSED : Z := 10061.
Definition WSAELOOP : Z := 10062.
Definition WSAENAMETOOLONG : Z := 10063.
Definition WSAEHOSTDOWN : Z := 10064.
Definition WSAEHOSTUNREACH : Z := 10065.
Definition WSAENOTEMPTY : Z := 10066.
Definition WSAEUSERS : Z := 10068.
Definition WSAEDQUOT : Z := 10069.
Definition WSAESTALE : Z := 10070.
Definition WSAEREMOTE : Z := 10071.

(** ** NTSTATUS (a signed 32-bit value) *)

Definition STATUS_SUCCESS : Z := 0.
Definition STATUS_PENDING : Z := 259.
Definition STATUS_CANCELLED : Z := 3221225760 - 2 ^ 32.
Definition STATUS_NOT_FOUND : Z := 3221226021 - 2 ^ 32.

(** ** Sockets and provider control codes *)

Definition INVALID_SOCKET : Z := 2 ^ 64 - 1.
Definition SOCKET_ERROR : Z := -1.
Definition SIO_BASE_HANDLE : Z := 0x48000022.
Definition SIO_BSP_HANDLE : Z := 0x4800001B.
Definition SIO_BSP_HANDLE_SELECT : Z := 0x4800001C.
Definition SIO_BSP_HANDLE_POLL : Z := 0x4800001D.
Definition SIO_QUERY_WFP_ALE_ENDPOINT_HANDLE : Z := 0x580000CD.
Definition SO_TYPE : Z := 0x1008.
Definition SO_ACCEPTCONN : Z := 2.
Definition SO_PROTOCOL_INFOW : Z := 0x2005.

(** ** Pipe and datagram errors *)

Definition ERROR_BAD_COMMAND : Z := 22.
Definition ERROR_BAD_PIPE : Z := 230.
Definition ERROR_MORE_DATA : Z := 234.
Definition ERROR_PIPE_LISTENING : Z := 536.
Definition ERROR_IO_INCOMPLETE : Z := 996.
