(* ===== verification/Types.v ===== *)
(** * Data model

    The structures of [src/wepoll_ex_internal.h], [src/wepoll_ex_pool.c],
    [src/wepoll_ex_fault.c] and [include/wepoll_ex.h] as records, and the
    process state [world] the operations run on.

    Objects live in one heap per C type.  A structure embedded in another one
    (the two pools, the ready queue and the first AFD group of a port) is a
    heap object of its own and the containing record holds its address, so that
    the code's [&port->field] is that address.  The mutexes are not fields: the
    operations of the model are the critical sections.  Fields that only ever
    hold 0 or 1 are [bool]; HANDLE, SOCKET and opaque user pointers are [Z]
    with NULL as 0. *)
From S2P Require Import Prelude Codes.

(** ** Enumerations *)

Inductive ep_sock_state :=
  EP_SOCK_INVALID | EP_SOCK_REGISTERED | EP_SOCK_POLLING | EP_SOCK_READY
| EP_SOCK_DELETED.
#[export] Instance ep_sock_state_eq : EqDecision ep_sock_state.
Proof. solve_decision. Defined.

Inductive ep_poll_status := EP_POLL_IDLE | EP_POLL_PENDING | EP_POLL_CANCELLED.
#[export] Instance ep_poll_status_eq : EqDecision ep_poll_status.
Proof. solve_decision. Defined.

Inductive ep_socket_identity_state :=
  EP_SOCKET_ID_UNAVAILABLE | EP_SOCKET_ID_TRANSITIONAL | EP_SOCKET_ID_STABLE.
#[export] Instance ep_socket_identity_state_eq : EqDecision ep_socket_identity_state.
Proof. solve_decision. Defined.

Inductive ep_reg_kind := EP_REG_SOCKET | EP_REG_WAITABLE | EP_REG_PIPE.
#[export] Instance ep_reg_kind_eq : EqDecision ep_reg_kind.
Proof. solve_decision. Defined.

Inductive ep_socket_protocol :=
  EP_SOCKET_PROTOCOL_UNKNOWN | EP_SOCKET_PROTOCOL_UDP | EP_SOCKET_PROTOCOL_TCP.
#[export] Instance ep_socket_protocol_eq : EqDecision ep_socket_protocol.
Proof. solve_decision. Defined.

Inductive ep_socket_async_read_capability :=
  EP_SOCKET_ASYNC_READ_UNKNOWN | EP_SOCKET_ASYNC_READ_SAFE
| EP_SOCKET_ASYNC_READ_UNSAFE.
#[export] Instance ep_socket_async_read_capability_eq :
  EqDecision ep_socket_async_read_capability.
Proof. solve_decision. Defined.

Inductive ep_waitable_semantics :=
  EP_WAITABLE_NONE | EP_WAITABLE_PERSISTENT | EP_WAITABLE_TERMINAL
| EP_WAITABLE_CONSUMPTIVE | EP_WAITABLE_ET_UNSUPPORTED.
#[export] Instance ep_waitable_semantics_eq : EqDecision ep_waitable_semantics.
Proof. solve_decision. Defined.

(** A bit set: [EP_PIPE_ACCESS_NONE = 0], [READ = 1], [WRITE = 2]. *)
Definition EP_PIPE_ACCESS_READ : Z := 1.
Definition EP_PIPE_ACCESS_WRITE : Z := 2.

Definition EP_LOCAL_SHUTDOWN_READ : Z := Z.shiftl 1 0.
Definition EP_LOCAL_SHUTDOWN_WRITE : Z := Z.shiftl 1 1.

(** Fault points, in the order of [enum ep_fault_point]. *)
Inductive ep_fault_point :=
  EP_FAULT_POOL_INIT_ALLOC | EP_FAULT_POOL_GROW | EP_FAULT_AFD_OPEN
| EP_FAULT_AFD_GROUP_ALLOC | EP_FAULT_AFD_SUBMIT | EP_FAULT_AFD_CANCEL
| EP_FAULT_AFD_KEY_RESERVATION | EP_FAULT_AFD_KEY_FORCE_COLLISION
| EP_FAULT_AFD_KEY_COLLISION_GROW | EP_FAULT_ENDPOINT_IDENTITY
| EP_FAULT_ENDPOINT_UNAVAILABLE | EP_FAULT_PROVIDER_BASE
| EP_FAULT_READY_NODE_ALLOC | EP_FAULT_IOCP_CREATE | EP_FAULT_IOCP_POST
| EP_FAULT_AUX_POST | EP_FAULT_IOCP_DEQUEUE | EP_FAULT_AUX_DISARM
| EP_FAULT_TIMEOUT_INIT | EP_FAULT_TIMEOUT_ARM | EP_FAULT_TIMEOUT_POST.
#[export] Instance ep_fault_point_eq : EqDecision ep_fault_point.
Proof. solve_decision. Defined.

(** ** Error information ([wepoll_ex_error_info]) *)

Record wepoll_ex_error_info := mk_error_info {
  ei_version : Z;
  ei_struct_size : Z;
  ei_portable_error : Z;
  ei_native_domain : Z;
  ei_native_code : Z;
  ei_winsock_error : Z;
  ei_flags : Z;
  ei_reserved : Z
}.
#[export] Instance eta_wepoll_ex_error_info : Eta wepoll_ex_error_info := fun r =>
  mk_error_info (ei_version r) (ei_struct_size r) (ei_portable_error r)
    (ei_native_domain r) (ei_native_code r) (ei_winsock_error r) (ei_flags r)
    (ei_reserved r).
#[export] Instance set_ei_version : Setter ei_version := ltac:(derive_setter).
#[export] Instance set_ei_struct_size : Setter ei_struct_size := ltac:(derive_setter).
#[export] Instance set_ei_portable_error : Setter ei_portable_error := ltac:(derive_setter).
#[export] Instance set_ei_native_domain : Setter ei_native_domain := ltac:(derive_setter).
#[export] Instance set_ei_native_code : Setter ei_native_code := ltac:(derive_setter).
#[export] Instance set_ei_winsock_error : Setter ei_winsock_error := ltac:(derive_setter).
#[export] Instance set_ei_flags : Setter ei_flags := ltac:(derive_setter).
#[export] Instance set_ei_reserved : Setter ei_reserved := ltac:(derive_setter).

(** ** Fault slots ([ep_fault_slot_t]) *)

Record ep_fault_slot := mk_fault_slot {
  fs_fail_at : Z;
  fs_hits : Z;
  fs_error : Z
}.
#[export] Instance eta_ep_fault_slot : Eta ep_fault_slot := fun r =>
  mk_fault_slot (fs_fail_at r) (fs_hits r) (fs_error r).
#[export] Instance set_fs_fail_at : Setter fs_fail_at := ltac:(derive_setter).
#[export] Instance set_fs_hits : Setter fs_hits := ltac:(derive_setter).
#[export] Instance set_fs_error : Setter fs_error := ltac:(derive_setter).

(** ** AFD buffer pool and its entries ([ep_afd_pool_t], [ep_pool_entry_t]) *)

Record ep_pool_entry := mk_pool_entry {
  e_next : ptr;
  e_all_next : ptr;
  e_owner : ptr;
  e_magic : Z;
  e_in_pool : bool
}.
#[export] Instance eta_ep_pool_entry : Eta ep_pool_entry := fun r =>
  mk_pool_entry (e_next r) (e_all_next r) (e_owner r) (e_magic r)
    (e_in_pool r).
#[export] Instance set_e_next : Setter e_next := ltac:(derive_setter).
#[export] Instance set_e_all_next : Setter e_all_next := ltac:(derive_setter).
#[export] Instance set_e_owner : Setter e_owner := ltac:(derive_setter).
#[export] Instance set_e_magic : Setter e_magic := ltac:(derive_setter).
#[export] Instance set_e_in_pool : Setter e_in_pool := ltac:(derive_setter).

Record ep_afd_pool := mk_afd_pool {
  pool_stack : ptr;
  pool_all_entries : ptr;
  pool_buf_size : Z;
  pool_capacity : Z;
  pool_allocated : Z;
  pool_in_use : Z;
  pool_peak : Z;
  pool_initialized : bool
}.
#[export] Instance eta_ep_afd_pool : Eta ep_afd_pool := fun r =>
  mk_afd_pool (pool_stack r) (pool_all_entries r) (pool_buf_size r)
    (pool_capacity r) (pool_allocated r) (pool_in_use r) (pool_peak r)
    (pool_initialized r).
#[export] Instance set_pool_stack : Setter pool_stack := ltac:(derive_setter).
#[export] Instance set_pool_all_entries : Setter pool_all_entries := ltac:(derive_setter).
#[export] Instance set_pool_buf_size : Setter pool_buf_size := ltac:(derive_setter).
#[export] Instance set_pool_capacity : Setter pool_capacity := ltac:(derive_setter).
#[export] Instance set_pool_allocated : Setter pool_allocated := ltac:(derive_setter).
#[export] Instance set_pool_in_use : Setter pool_in_use := ltac:(derive_setter).
#[export] Instance set_pool_peak : Setter pool_peak := ltac:(derive_setter).
#[export] Instance set_pool_initialized : Setter pool_initialized := ltac:(derive_setter).

(** ** Ready queue ([ep_ready_node_t], [ep_ready_queue_t]) *)

Record ep_ready_node := mk_ready_node {
  n_next : ptr;
  n_data : Z;
  n_user_ctx : Z;
  n_fd : Z;
  n_sock_generation : Z;
  n_events : Z;
  n_flags : Z;
  n_timestamp : Z
}.
#[export] Instance eta_ep_ready_node : Eta ep_ready_node := fun r =>
  mk_ready_node (n_next r) (n_data r) (n_user_ctx r) (n_fd r)
    (n_sock_generation r) (n_events r) (n_flags r) (n_timestamp r).
#[export] Instance set_n_next : Setter n_next := ltac:(derive_setter).
#[export] Instance set_n_data : Setter n_data := ltac:(derive_setter).
#[export] Instance set_n_user_ctx : Setter n_user_ctx := ltac:(derive_setter).
#[export] Instance set_n_fd : Setter n_fd := ltac:(derive_setter).
#[export] Instance set_n_sock_generation : Setter n_sock_generation := ltac:(derive_setter).
#[export] Instance set_n_events : Setter n_events := ltac:(derive_setter).
#[export] Instance set_n_flags : Setter n_flags := ltac:(derive_setter).
#[export] Instance set_n_timestamp : Setter n_timestamp := ltac:(derive_setter).

Record ep_ready_queue := mk_ready_queue {
  q_head : ptr;
  q_tail : ptr;
  q_stub : ptr;
  q_queued : Z;
  q_initialized : bool
}.
#[export] Instance eta_ep_ready_queue : Eta ep_ready_queue := fun r =>
  mk_ready_queue (q_head r) (q_tail r) (q_stub r) (q_queued r)
    (q_initialized r).
#[export] Instance set_q_head : Setter q_head := ltac:(derive_setter).
#[export] Instance set_q_tail : Setter q_tail := ltac:(derive_setter).
#[export] Instance set_q_stub : Setter q_stub := ltac:(derive_setter).
#[export] Instance set_q_queued : Setter q_queued := ltac:(derive_setter).
#[export] Instance set_q_initialized : Setter q_initialized := ltac:(derive_setter).

(** ** AFD poll buffers ([AFD_POLL_INFO], its one handle entry inlined) *)

Record afd_poll_info := mk_poll_info {
  ai_Timeout : Z;
  ai_NumberOfHandles : Z;
  ai_Exclusive : bool;
  ai_Handle : Z;
  ai_Events : Z;
  ai_Status : Z
}.
#[export] Instance eta_afd_poll_info : Eta afd_poll_info := fun r =>
  mk_poll_info (ai_Timeout r) (ai_NumberOfHandles r) (ai_Exclusive r)
    (ai_Handle r) (ai_Events r) (ai_Status r).
#[export] Instance set_ai_Timeout : Setter ai_Timeout := ltac:(derive_setter).
#[export] Instance set_ai_NumberOfHandles : Setter ai_NumberOfHandles := ltac:(derive_setter).
#[export] Instance set_ai_Exclusive : Setter ai_Exclusive := ltac:(derive_setter).
#[export] Instance set_ai_Handle : Setter ai_Handle := ltac:(derive_setter).
#[export] Instance set_ai_Events : Setter ai_Events := ltac:(derive_setter).
#[export] Instance set_ai_Status : Setter ai_Status := ltac:(derive_setter).

(** ** AFD groups ([ep_afd_group_t]) *)

Record ep_afd_group := mk_afd_group {
  g_afd : Z;
  g_socket_count : Z;
  g_next : ptr;
  g_prev : ptr;
  g_available_next : ptr;
  g_available_prev : ptr
}.
#[export] Instance eta_ep_afd_group : Eta ep_afd_group := fun r =>
  mk_afd_group (g_afd r) (g_socket_count r) (g_next r) (g_prev r)
    (g_available_next r) (g_available_prev r).
#[export] Instance set_g_afd : Setter g_afd := ltac:(derive_setter).
#[export] Instance set_g_socket_count : Setter g_socket_count := ltac:(derive_setter).
#[export] Instance set_g_next : Setter g_next := ltac:(derive_setter).
#[export] Instance set_g_prev : Setter g_prev := ltac:(derive_setter).
#[export] Instance set_g_available_next : Setter g_available_next := ltac:(derive_setter).
#[export] Instance set_g_available_prev : Setter g_available_prev := ltac:(derive_setter).

(** A zeroed AFD group ([calloc]). *)
Definition zero_group : ep_afd_group :=
  mk_afd_group 0 0 NULL NULL NULL NULL.

(** ** Registrations ([struct ep_sock]) *)

Record ep_sock := mk_sock {
  s_next : ptr;
  s_prev : ptr;
  s_fd : Z;
  s_base_socket : Z;
  s_kind : ep_reg_kind;
  s_waitable_semantics : ep_waitable_semantics;
  s_pipe_access : Z;
  s_pipe_synchronous_io : bool;
  s_socket_protocol : ep_socket_protocol;
  s_udp_afd_qualifier_eligible : bool;
  s_async_read_capability : ep_socket_async_read_capability;
  s_udp_readless_receive_parked : bool;
  s_local_shutdown : Z;
  s_endpoint_id : Z;
  s_endpoint_id_state : ep_socket_identity_state;
  s_identity_checked_epoch : Z;
  s_identity_checked_result : Z;
  s_base_socket_identity : Z;
  s_base_socket_cached : bool;
  s_user_events : Z;
  s_user_flags : Z;
  s_user_data : Z;
  s_user_ctx : Z;
  s_state : ep_sock_state;
  s_pending_events : Z;
  s_submitted_afd_events : Z;
  s_submitted_wait_epoch : Z;
  s_observed_events : Z;
  s_explicit_disarmed_classes : Z;
  s_poll_status : ep_poll_status;
  s_delete_pending : bool;
  s_ready_queued : bool;
  s_callback_active : bool;
  s_completion_posted : bool;
  s_waitable_notification_owned : bool;
  s_oneshot_fired : bool;
  s_needs_rearm : bool;
  s_pipe_terminal_delivered : bool;
  s_et_holdoff : bool;
  s_afd_poll_target : Z;
  s_afd_poll_key_reservation : Z;
  s_afd_poll_key_next : ptr;
  s_afd_poll_key_owned : bool;
  s_exclusive_next : ptr;
  s_exclusive_prev : ptr;
  s_exclusive_claim_base : Z;
  s_exclusive_claim_classes : Z;
  s_rearm_next : ptr;
  s_rearm_prev : ptr;
  s_oneshot_next : ptr;
  s_oneshot_prev : ptr;
  s_iosb_status : Z;  (* io_status_block.Status *)
  s_iosb_information : Z;  (* io_status_block.Information *)
  s_generation : Z;
  s_afd_info : ptr;
  s_afd_group : ptr;
  s_wait_registration : Z;
  s_port : ptr
}.
#[export] Instance eta_ep_sock : Eta ep_sock := fun r =>
  mk_sock (s_next r) (s_prev r) (s_fd r) (s_base_socket r) (s_kind r)
    (s_waitable_semantics r) (s_pipe_access r) (s_pipe_synchronous_io r)
    (s_socket_protocol r) (s_udp_afd_qualifier_eligible r)
    (s_async_read_capability r) (s_udp_readless_receive_parked r)
    (s_local_shutdown r) (s_endpoint_id r) (s_endpoint_id_state r)
    (s_identity_checked_epoch r) (s_identity_checked_result r)
    (s_base_socket_identity r) (s_base_socket_cached r) (s_user_events r)
    (s_user_flags r) (s_user_data r) (s_user_ctx r) (s_state r)
    (s_pending_events r) (s_submitted_afd_events r) (s_submitted_wait_epoch r)
    (s_observed_events r) (s_explicit_disarmed_classes r) (s_poll_status r)
    (s_delete_pending r) (s_ready_queued r) (s_callback_active r)
    (s_completion_posted r) (s_waitable_notification_owned r)
    (s_oneshot_fired r) (s_needs_rearm r) (s_pipe_terminal_delivered r)
    (s_et_holdoff r) (s_afd_poll_target r) (s_afd_poll_key_reservation r)
    (s_afd_poll_key_next r) (s_afd_poll_key_owned r) (s_exclusive_next r)
    (s_exclusive_prev r) (s_exclusive_claim_base r)
    (s_exclusive_claim_classes r) (s_rearm_next r) (s_rearm_prev r)
    (s_oneshot_next r) (s_oneshot_prev r) (s_iosb_status r)
    (s_iosb_information r) (s_generation r) (s_afd_info r) (s_afd_group r)
    (s_wait_registration r) (s_port r).
#[export] Instance set_s_next : Setter s_next := ltac:(derive_setter).
#[export] Instance set_s_prev : Setter s_prev := ltac:(derive_setter).
#[export] Instance set_s_fd : Setter s_fd := ltac:(derive_setter).
#[export] Instance set_s_base_socket : Setter s_base_socket := ltac:(derive_setter).
#[export] Instance set_s_kind : Setter s_kind := ltac:(derive_setter).
#[export] Instance set_s_waitable_semantics : Setter s_waitable_semantics := ltac:(derive_setter).
#[export] Instance set_s_pipe_access : Setter s_pipe_access := ltac:(derive_setter).
#[export] Instance set_s_pipe_synchronous_io : Setter s_pipe_synchronous_io := ltac:(derive_setter).
#[export] Instance set_s_socket_protocol : Setter s_socket_protocol := ltac:(derive_setter).
#[export] Instance set_s_udp_afd_qualifier_eligible : Setter s_udp_afd_qualifier_eligible := ltac:(derive_setter).
#[export] Instance set_s_async_read_capability : Setter s_async_read_capability := ltac:(derive_setter).
#[export] Instance set_s_udp_readless_receive_parked : Setter s_udp_readless_receive_parked := ltac:(derive_setter).
#[export] Instance set_s_local_shutdown : Setter s_local_shutdown := ltac:(derive_setter).
#[export] Instance set_s_endpoint_id : Setter s_endpoint_id := ltac:(derive_setter).
#[export] Instance set_s_endpoint_id_state : Setter s_endpoint_id_state := ltac:(derive_setter).
#[export] Instance set_s_identity_checked_epoch : Setter s_identity_checked_epoch := ltac:(derive_setter).
#[export] Instance set_s_identity_checked_result : Setter s_identity_checked_result := ltac:(derive_setter).
#[export] Instance set_s_base_socket_identity : Setter s_base_socket_identity := ltac:(derive_setter).
#[export] Instance set_s_base_socket_cached : Setter s_base_socket_cached := ltac:(derive_setter).
#[export] Instance set_s_user_events : Setter s_user_events := ltac:(derive_setter).
#[export] Instance set_s_user_flags : Setter s_user_flags := ltac:(derive_setter).
#[export] Instance set_s_user_data : Setter s_user_data := ltac:(derive_setter).
#[export] Instance set_s_user_ctx : Setter s_user_ctx := ltac:(derive_setter).
#[export] Instance set_s_state : Setter s_state := ltac:(derive_setter).
#[export] Instance set_s_pending_events : Setter s_pending_events := ltac:(derive_setter).
#[export] Instance set_s_submitted_afd_events : Setter s_submitted_afd_events := ltac:(derive_setter).
#[export] Instance set_s_submitted_wait_epoch : Setter s_submitted_wait_epoch := ltac:(derive_setter).
#[export] Instance set_s_observed_events : Setter s_observed_events := ltac:(derive_setter).
#[export] Instance set_s_explicit_disarmed_classes : Setter s_explicit_disarmed_classes := ltac:(derive_setter).
#[export] Instance set_s_poll_status : Setter s_poll_status := ltac:(derive_setter).
#[export] Instance set_s_delete_pending : Setter s_delete_pending := ltac:(derive_setter).
#[export] Instance set_s_ready_queued : Setter s_ready_queued := ltac:(derive_setter).
#[export] Instance set_s_callback_active : Setter s_callback_active := ltac:(derive_setter).
#[export] Instance set_s_completion_posted : Setter s_completion_posted := ltac:(derive_setter).
#[export] Instance set_s_waitable_notification_owned : Setter s_waitable_notification_owned := ltac:(derive_setter).
#[export] Instance set_s_oneshot_fired : Setter s_oneshot_fired := ltac:(derive_setter).
#[export] Instance set_s_needs_rearm : Setter s_needs_rearm := ltac:(derive_setter).
#[export] Instance set_s_pipe_terminal_delivered : Setter s_pipe_terminal_delivered := ltac:(derive_setter).
#[export] Instance set_s_et_holdoff : Setter s_et_holdoff := ltac:(derive_setter).
#[export] Instance set_s_afd_poll_target : Setter s_afd_poll_target := ltac:(derive_setter).
#[export] Instance set_s_afd_poll_key_reservation : Setter s_afd_poll_key_reservation := ltac:(derive_setter).
#[export] Instance set_s_afd_poll_key_next : Setter s_afd_poll_key_next := ltac:(derive_setter).
#[export] Instance set_s_afd_poll_key_owned : Setter s_afd_poll_key_owned := ltac:(derive_setter).
#[export] Instance set_s_exclusive_next : Setter s_exclusive_next := ltac:(derive_setter).
#[export] Instance set_s_exclusive_prev : Setter s_exclusive_prev := ltac:(derive_setter).
#[export] Instance set_s_exclusive_claim_base : Setter s_exclusive_claim_base := ltac:(derive_setter).
#[export] Instance set_s_exclusive_claim_classes : Setter s_exclusive_claim_classes := ltac:(derive_setter).
#[export] Instance set_s_rearm_next : Setter s_rearm_next := ltac:(derive_setter).
#[export] Instance set_s_rearm_prev : Setter s_rearm_prev := ltac:(derive_setter).
#[export] Instance set_s_oneshot_next : Setter s_oneshot_next := ltac:(derive_setter).
#[export] Instance set_s_oneshot_prev : Setter s_oneshot_prev := ltac:(derive_setter).
#[export] Instance set_s_iosb_status : Setter s_iosb_status := ltac:(derive_setter).
#[export] Instance set_s_iosb_information : Setter s_iosb_information := ltac:(derive_setter).
#[export] Instance set_s_generation : Setter s_generation := ltac:(derive_setter).
#[export] Instance set_s_afd_info : Setter s_afd_info := ltac:(derive_setter).
#[export] Instance set_s_afd_group : Setter s_afd_group := ltac:(derive_setter).
#[export] Instance set_s_wait_registration : Setter s_wait_registration := ltac:(derive_setter).
#[export] Instance set_s_port : Setter s_port := ltac:(derive_setter).

(** A zeroed registration ([calloc]). *)
Definition zero_sock : ep_sock :=
  mk_sock NULL NULL 0 0 EP_REG_SOCKET EP_WAITABLE_NONE 0 false
    EP_SOCKET_PROTOCOL_UNKNOWN false EP_SOCKET_ASYNC_READ_UNKNOWN false 0 0
    EP_SOCKET_ID_UNAVAILABLE 0 0 0 false 0 0 0 0 EP_SOCK_INVALID 0 0 0 0 0
    EP_POLL_IDLE false false false false false false false false false 0 0
    NULL false NULL NULL 0 0 NULL NULL NULL NULL 0 0 0 NULL NULL 0 NULL.

(** ** Ports ([struct ep_port]) *)

Record ep_port := mk_port {
  p_iocp : Z;
  p_iocp_post_handle : Z;
  p_afd_group : ptr;  (* address of the embedded first group *)
  p_afd_available : ptr;
  p_udp_probe_event : Z;
  p_udp_probe_read : bool;  (* the probe hook is installed *)
  p_fd_table : (list ptr);  (* fd_table_size is its length *)
  p_fd_table_block : Z;  (* address of the table, 0 for NULL *)
  p_fd_table_count : Z;
  p_sock_list_head : ptr;
  p_ready_queue : ptr;  (* address of the embedded queue *)
  p_afd_info_pool : ptr;  (* addresses of the embedded pools *)
  p_ready_node_pool : ptr;
  p_iocp_batch_size : Z;
  p_iocp_entries : Z;  (* address of the array, 0 for NULL *)
  p_create_timer : bool;  (* create_waitable_timer_ex_w is resolved *)
  p_query_precise : bool;  (* query_unbiased_interrupt_time_precise is resolved *)
  p_precise_timeout_timer : Z;
  p_precise_timeout_wait : Z;
  p_precise_timeout_generation : Z;
  p_precise_timeout_active_generation : Z;
  p_precise_timeout_armed : bool;
  p_precise_timeout_post_failures : Z;
  p_precise_timeout_capability : Z;
  p_close_on_exec : bool;
  p_explicit_rearm : bool;
  p_waiter_active : bool;
  p_active_wait_epoch : Z;
  p_next_wait_epoch : Z;
  p_waiter_coalescing : bool;
  p_wake_pending : Z;
  p_wake_event : (Z * Z);  (* events, data *)
  p_wake_requests : Z;
  p_wake_coalesced : Z;
  p_wake_returns : Z;
  p_closing : bool;
  p_iocp_closed : bool;
  p_iocp_post_error : Z;
  p_iocp_post_failures : Z;
  p_pending_poll_count : Z;
  p_rearm_head : ptr;
  p_rearm_tail : ptr;
  p_oneshot_head : ptr;
  p_oneshot_tail : ptr;
  p_needs_rearm_count : Z;
  p_oneshot_fired_count : Z;
  p_rearm_work_visits : Z;
  p_oneshot_probe_visits : Z;
  p_stale_events_dropped : Z;
  p_identity_failures : Z;
  p_asynchronous_errors : Z;
  p_zero_timeout_budget_hits : Z;
  p_tcp_current_level_probes : Z;
  p_tcp_current_level_fallbacks : Z;
  p_async_error : Z;
  p_close_drain_timeout_ms : Z;
  p_quarantine_drain_timeout_ms : Z;
  p_next_sock_generation : Z;
  p_qpc_frequency : Z;
  p_generation : Z
}.
#[export] Instance eta_ep_port : Eta ep_port := fun r =>
  mk_port (p_iocp r) (p_iocp_post_handle r) (p_afd_group r)
    (p_afd_available r) (p_udp_probe_event r) (p_udp_probe_read r)
    (p_fd_table r) (p_fd_table_block r) (p_fd_table_count r) (p_sock_list_head r) (p_ready_queue r)
    (p_afd_info_pool r) (p_ready_node_pool r) (p_iocp_batch_size r) (p_iocp_entries r)
    (p_create_timer r) (p_query_precise r) (p_precise_timeout_timer r)
    (p_precise_timeout_wait r) (p_precise_timeout_generation r)
    (p_precise_timeout_active_generation r) (p_precise_timeout_armed r)
    (p_precise_timeout_post_failures r) (p_precise_timeout_capability r)
    (p_close_on_exec r) (p_explicit_rearm r) (p_waiter_active r)
    (p_active_wait_epoch r) (p_next_wait_epoch r) (p_waiter_coalescing r)
    (p_wake_pending r) (p_wake_event r) (p_wake_requests r)
    (p_wake_coalesced r) (p_wake_returns r) (p_closing r) (p_iocp_closed r)
    (p_iocp_post_error r) (p_iocp_post_failures r) (p_pending_poll_count r)
    (p_rearm_head r) (p_rearm_tail r) (p_oneshot_head r) (p_oneshot_tail r)
    (p_needs_rearm_count r) (p_oneshot_fired_count r) (p_rearm_work_visits r)
    (p_oneshot_probe_visits r) (p_stale_events_dropped r)
    (p_identity_failures r) (p_asynchronous_errors r)
    (p_zero_timeout_budget_hits r) (p_tcp_current_level_probes r)
    (p_tcp_current_level_fallbacks r) (p_async_error r)
    (p_close_drain_timeout_ms r) (p_quarantine_drain_timeout_ms r)
    (p_next_sock_generation r) (p_qpc_frequency r) (p_generation r).
#[export] Instance set_p_iocp : Setter p_iocp := ltac:(derive_setter).
#[export] Instance set_p_iocp_post_handle : Setter p_iocp_post_handle := ltac:(derive_setter).
#[export] Instance set_p_afd_group : Setter p_afd_group := ltac:(derive_setter).
#[export] Instance set_p_afd_available : Setter p_afd_available := ltac:(derive_setter).
#[export] Instance set_p_udp_probe_event : Setter p_udp_probe_event := ltac:(derive_setter).
#[export] Instance set_p_udp_probe_read : Setter p_udp_probe_read := ltac:(derive_setter).
#[export] Instance set_p_fd_table : Setter p_fd_table := ltac:(derive_setter).
#[export] Instance set_p_fd_table_block : Setter p_fd_table_block := ltac:(derive_setter).
#[export] Instance set_p_fd_table_count : Setter p_fd_table_count := ltac:(derive_setter).
#[export] Instance set_p_sock_list_head : Setter p_sock_list_head := ltac:(derive_setter).
#[export] Instance set_p_ready_queue : Setter p_ready_queue := ltac:(derive_setter).
#[export] Instance set_p_afd_info_pool : Setter p_afd_info_pool := ltac:(derive_setter).
#[export] Instance set_p_ready_node_pool : Setter p_ready_node_pool := ltac:(derive_setter).
#[export] Instance set_p_iocp_batch_size : Setter p_iocp_batch_size := ltac:(derive_setter).
#[export] Instance set_p_iocp_entries : Setter p_iocp_entries := ltac:(derive_setter).
#[export] Instance set_p_create_timer : Setter p_create_timer := ltac:(derive_setter).
#[export] Instance set_p_query_precise : Setter p_query_precise := ltac:(derive_setter).
#[export] Instance set_p_precise_timeout_timer : Setter p_precise_timeout_timer := ltac:(derive_setter).
#[export] Instance set_p_precise_timeout_wait : Setter p_precise_timeout_wait := ltac:(derive_setter).
#[export] Instance set_p_precise_timeout_generation : Setter p_precise_timeout_generation := ltac:(derive_setter).
#[export] Instance set_p_precise_timeout_active_generation : Setter p_precise_timeout_active_generation := ltac:(derive_setter).
#[export] Instance set_p_precise_timeout_armed : Setter p_precise_timeout_armed := ltac:(derive_setter).
#[export] Instance set_p_precise_timeout_post_failures : Setter p_precise_timeout_post_failures := ltac:(derive_setter).
#[export] Instance set_p_precise_timeout_capability : Setter p_precise_timeout_capability := ltac:(derive_setter).
#[export] Instance set_p_close_on_exec : Setter p_close_on_exec := ltac:(derive_setter).
#[export] Instance set_p_explicit_rearm : Setter p_explicit_rearm := ltac:(derive_setter).
#[export] Instance set_p_waiter_active : Setter p_waiter_active := ltac:(derive_setter).
#[export] Instance set_p_active_wait_epoch : Setter p_active_wait_epoch := ltac:(derive_setter).
#[export] Instance set_p_next_wait_epoch : Setter p_next_wait_epoch := ltac:(derive_setter).
#[export] Instance set_p_waiter_coalescing : Setter p_waiter_coalescing := ltac:(derive_setter).
#[export] Instance set_p_wake_pending : Setter p_wake_pending := ltac:(derive_setter).
#[export] Instance set_p_wake_event : Setter p_wake_event := ltac:(derive_setter).
#[export] Instance set_p_wake_requests : Setter p_wake_requests := ltac:(derive_setter).
#[export] Instance set_p_wake_coalesced : Setter p_wake_coalesced := ltac:(derive_setter).
#[export] Instance set_p_wake_returns : Setter p_wake_returns := ltac:(derive_setter).
#[export] Instance set_p_closing : Setter p_closing := ltac:(derive_setter).
#[export] Instance set_p_iocp_closed : Setter p_iocp_closed := ltac:(derive_setter).
#[export] Instance set_p_iocp_post_error : Setter p_iocp_post_error := ltac:(derive_setter).
#[export] Instance set_p_iocp_post_failures : Setter p_iocp_post_failures := ltac:(derive_setter).
#[export] Instance set_p_pending_poll_count : Setter p_pending_poll_count := ltac:(derive_setter).
#[export] Instance set_p_rearm_head : Setter p_rearm_head := ltac:(derive_setter).
#[export] Instance set_p_rearm_tail : Setter p_rearm_tail := ltac:(derive_setter).
#[export] Instance set_p_oneshot_head : Setter p_oneshot_head := ltac:(derive_setter).
#[export] Instance set_p_oneshot_tail : Setter p_oneshot_tail := ltac:(derive_setter).
#[export] Instance set_p_needs_rearm_count : Setter p_needs_rearm_count := ltac:(derive_setter).
#[export] Instance set_p_oneshot_fired_count : Setter p_oneshot_fired_count := ltac:(derive_setter).
#[export] Instance set_p_rearm_work_visits : Setter p_rearm_work_visits := ltac:(derive_setter).
#[export] Instance set_p_oneshot_probe_visits : Setter p_oneshot_probe_visits := ltac:(derive_setter).
#[export] Instance set_p_stale_events_dropped : Setter p_stale_events_dropped := ltac:(derive_setter).
#[export] Instance set_p_identity_failures : Setter p_identity_failures := ltac:(derive_setter).
#[export] Instance set_p_asynchronous_errors : Setter p_asynchronous_errors := ltac:(derive_setter).
#[export] Instance set_p_zero_timeout_budget_hits : Setter p_zero_timeout_budget_hits := ltac:(derive_setter).
#[export] Instance set_p_tcp_current_level_probes : Setter p_tcp_current_level_probes := ltac:(derive_setter).
#[export] Instance set_p_tcp_current_level_fallbacks : Setter p_tcp_current_level_fallbacks := ltac:(derive_setter).
#[export] Instance set_p_async_error : Setter p_async_error := ltac:(derive_setter).
#[export] Instance set_p_close_drain_timeout_ms : Setter p_close_drain_timeout_ms := ltac:(derive_setter).
#[export] Instance set_p_quarantine_drain_timeout_ms : Setter p_quarantine_drain_timeout_ms := ltac:(derive_setter).
#[export] Instance set_p_next_sock_generation : Setter p_next_sock_generation := ltac:(derive_setter).
#[export] Instance set_p_qpc_frequency : Setter p_qpc_frequency := ltac:(derive_setter).
#[export] Instance set_p_generation : Setter p_generation := ltac:(derive_setter).

(** A zeroed port ([calloc]). *)
Definition zero_port : ep_port :=
  mk_port 0 0 NULL NULL 0 false [] 0 0 NULL NULL NULL NULL 0 0 false false 0 0 0 0
    false 0 0 false false false 0 0 false 0 (0, 0) 0 0 0 false false 0 0 0
    NULL NULL NULL NULL 0 0 0 0 0 0 0 0 0 0 0 0 0 0 0 0.

(** ** Public descriptors ([epfd_shared_t], [epfd_entry_t] and the counters of [wepoll_ex_api.c]) *)

Record epfd_shared := mk_shared {
  sh_port : ptr;
  sh_refs : Z;
  sh_aliases : Z;
  sh_closing : bool;
  sh_detached : bool;
  sh_refs_drained_event : Z
}.
#[export] Instance eta_epfd_shared : Eta epfd_shared := fun r =>
  mk_shared (sh_port r) (sh_refs r) (sh_aliases r) (sh_closing r)
    (sh_detached r) (sh_refs_drained_event r).
#[export] Instance set_sh_port : Setter sh_port := ltac:(derive_setter).
#[export] Instance set_sh_refs : Setter sh_refs := ltac:(derive_setter).
#[export] Instance set_sh_aliases : Setter sh_aliases := ltac:(derive_setter).
#[export] Instance set_sh_closing : Setter sh_closing := ltac:(derive_setter).
#[export] Instance set_sh_detached : Setter sh_detached := ltac:(derive_setter).
#[export] Instance set_sh_refs_drained_event : Setter sh_refs_drained_event := ltac:(derive_setter).

Record epfd_entry := mk_epfd {
  f_fd : Z;
  f_shared : ptr;
  f_next : ptr
}.
#[export] Instance eta_epfd_entry : Eta epfd_entry := fun r =>
  mk_epfd (f_fd r) (f_shared r) (f_next r).
#[export] Instance set_f_fd : Setter f_fd := ltac:(derive_setter).
#[export] Instance set_f_shared : Setter f_shared := ltac:(derive_setter).
#[export] Instance set_f_next : Setter f_next := ltac:(derive_setter).

Record api_state := mk_api {
  a_epfds : (gmap addr epfd_entry);
  a_shareds : (gmap addr epfd_shared);
  a_epfd_buckets : (list ptr);  (* g_epfd_buckets *)
  a_next_fd : Z;  (* g_next_fd *)
  a_close_timeout_ms : Z;  (* g_api_close_timeout_ms *)
  a_close_timeouts : Z;  (* g_api_close_timeout_count *)
  a_deferred_destroys : Z;  (* g_api_deferred_destroy_count *)
  a_init_done : bool;  (* g_init_once has run *)
  a_wsa_initialized : bool  (* g_ntdll.wsa_initialized *)
}.
#[export] Instance eta_api_state : Eta api_state := fun r =>
  mk_api (a_epfds r) (a_shareds r) (a_epfd_buckets r) (a_next_fd r)
    (a_close_timeout_ms r) (a_close_timeouts r) (a_deferred_destroys r)
    (a_init_done r) (a_wsa_initialized r).
#[export] Instance set_a_epfds : Setter a_epfds := ltac:(derive_setter).
#[export] Instance set_a_shareds : Setter a_shareds := ltac:(derive_setter).
#[export] Instance set_a_epfd_buckets : Setter a_epfd_buckets := ltac:(derive_setter).
#[export] Instance set_a_next_fd : Setter a_next_fd := ltac:(derive_setter).
#[export] Instance set_a_close_timeout_ms : Setter a_close_timeout_ms := ltac:(derive_setter).
#[export] Instance set_a_close_timeouts : Setter a_close_timeouts := ltac:(derive_setter).
#[export] Instance set_a_deferred_destroys : Setter a_deferred_destroys := ltac:(derive_setter).
#[export] Instance set_a_init_done : Setter a_init_done := ltac:(derive_setter).
#[export] Instance set_a_wsa_initialized : Setter a_wsa_initialized := ltac:(derive_setter).

(** ** The operating system

    Calls into the platform are requests; the environment answers each with an
    integer.  The answers are arbitrary (they are a field of the world), so a
    theorem about an operation holds whatever the platform does, and the trace
    records the calls made, latest first. *)

(** The OVERLAPPED argument of a completion packet: none, the timeout sentinel
    of the port, or the status block embedded in a registration. *)
Inductive overlapped := OvNull | OvTimeout | OvSock (sock : addr).
#[export] Instance overlapped_eq : EqDecision overlapped.
Proof. solve_decision. Defined.

(** A call with several outputs is a request per output: the first one is the
    call itself, the others read what it stored. *)
(** The mutexes of a port. *)
Inductive port_lock := FD_TABLE_LOCK | WAIT_LOCK | WAKE_LOCK | IOCP_POST_LOCK.
#[export] Instance port_lock_eq : EqDecision port_lock.
Proof. solve_decision. Defined.

Inductive os_request :=
| Malloc (size : Z)                     (* answer: address, or <= 0 for NULL *)
| CallocArray (count size : Z)          (* answer: address, or <= 0 for NULL *)
| FreeArray (block : Z)
| PortLockInit (lock : port_lock)       (* answer: 0 or an errno *)
| PortLockDestroy (lock : port_lock)
| PthreadMutexInit                      (* answer: 0 or an errno *)
| PthreadMutexLock                      (* answer: 0 or an errno *)
| PthreadMutexTrylock                   (* answer: 0 or an errno *)
| RtlNtStatusToDosError (status : Z)
| GetLastError
| SetLastError (error : Z)
| WSAGetLastError
| WSASetLastError (error : Z)
| PostQueuedCompletionStatus (handle key : Z) (ov : overlapped)
| CloseHandle (handle : Z)
| QueryPerformanceCounter               (* answer: counter, or < 0 on failure *)
| QueryPerformanceFrequency
| GetTickCount64
| QueryUnbiasedInterruptTimePrecise
| Sleep (ms : Z)
| CreateWaitableTimerExW                (* answer: handle, or 0 *)
| CreateThreadpoolWait                  (* answer: object, or 0 *)
| CloseThreadpoolWait (wait : Z)
| SetWaitableTimer (timer due : Z)
| CancelWaitableTimer (timer : Z)
| SetThreadpoolWait (wait timer : Z)
| WaitForThreadpoolWaitCallbacks (wait : Z)
| NtCreateFile                          (* answer: handle, or 0 on failure *)
| NtCreateFileStatus
| CreateIoCompletionPort (handle iocp : Z)
| SetFileCompletionNotificationModes (handle : Z)
| DuplicateHandle (handle : Z)          (* answer: BOOL *)
| DuplicatedHandle                      (* the duplicate *)
| CreateEventW                          (* answer: handle, or 0 *)
| WSAIoctl (socket code : Z)            (* answer: 0 or SOCKET_ERROR *)
| WSAIoctlResult
| WSAIoctlBytes
| Getsockopt (socket option : Z)        (* answer: 0 or SOCKET_ERROR *)
| GetsockoptValue (field : Z)
| GetsockoptLength
| Getpeername (socket : Z)
| Select (socket set : Z)               (* 0 read, 1 write, 2 except; answer: count *)
| SelectIsSet                           (* FD_ISSET afterwards *)
| WSAPoll (socket : Z)                  (* answer: count or SOCKET_ERROR *)
| WSAPollRevents
| GetFileType (handle : Z)
| NtQueryObject (handle class : Z)      (* answer: NTSTATUS *)
| NtQueryObjectValue                    (* the access mask, or the index of the type name *)
| NtQueryEvent (handle : Z)             (* answer: NTSTATUS *)
| NtQueryEventType
| NtQueryInformationFile (handle class : Z)
| QueryFileStatus                       (* the status block, then the fields *)
| QueryFileInformation
| QueryFileValue (field : Z)
| PeekNamedPipe (handle : Z)            (* answer: BOOL *)
| PeekAvailable
| WriteFile (handle : Z)                (* a zero-length write; answer: BOOL *)
| ResetEvent (handle : Z)
| DeviceIoControl (handle : Z)          (* the one-byte peek; answer: BOOL *)
| CancelIoEx (handle : Z)
| GetOverlappedResult (handle : Z)
| NtDeviceIoControlFile (afd : Z) (sock : addr) (target events : Z)
| NtCancelIoFileEx (afd : Z) (sock : addr)
| AfdInfoNumberOfHandles (sock : addr)  (* the kernel's output buffer *)
| AfdInfoEvents (sock : addr)
| AfdInfoStatus (sock : addr)
| WaitForSingleObject (handle ms : Z)
| RegisterWaitForSingleObject (handle : Z) (sock : addr)
| RegisteredWait
| UnregisterWaitEx (wait : Z)
| CreateTimerQueueTimer (sock : addr) (ms : Z)
| CreatedTimer
| DeleteTimerQueueTimer (timer : Z)
| ShutdownSocket (socket how : Z)       (* shutdown(); answer: 0 or SOCKET_ERROR *)
| Closesocket (socket : Z)              (* answer: 0 or SOCKET_ERROR *)
| GetQueuedCompletionStatusEx (iocp ms : Z)  (* answer: BOOL *)
| DequeuedCount                         (* ulNumEntriesRemoved *)
| DequeuedOverlapped (i : Z)            (* 0 NULL, 1 the timeout sentinel, else a registration *)
| DequeuedKey (i : Z)
| IoStatus (sock : addr)                (* the status the kernel stored for an AFD request *)
| CreateThread                          (* answer: handle, or 0 *)
| GetModuleHandleExW (pin : bool)       (* answer: BOOL *)
| ModuleHandle
| GetModuleHandleW (name : Z)           (* 0 the process, 1 ntdll, 2 kernel32, 3 kernelbase *)
| GetProcAddress (module name : Z)      (* answer: entry point, or 0 *)
| FreeLibrary (module : Z)
| SetEvent (handle : Z)
| WSAStartup                            (* answer: 0 or an error *)
| WSACleanup.
#[export] Instance os_request_eq : EqDecision os_request.
Proof. solve_decision. Defined.

Record world := mk_world {
  w_os : (list os_request -> os_request -> Z);  (* the answer to a call, given the calls before it *)
  w_trace : (list os_request);  (* the calls made, latest first *)
  w_errno : Z;  (* the calling thread's errno *)
  w_last_error : wepoll_ex_error_info;  (* g_last_error_info *)
  w_fault_mask : Z;  (* g_fault_mask *)
  w_fault_slots : (Z -> ep_fault_slot);  (* g_fault_slots, by point *)
  w_rtl_resolved : bool;  (* p_RtlNtStatusToDosError != NULL *)
  w_pools : (gmap addr ep_afd_pool);
  w_entries : (gmap addr ep_pool_entry);
  w_queues : (gmap addr ep_ready_queue);
  w_nodes : (gmap addr ep_ready_node);
  w_groups : (gmap addr ep_afd_group);
  w_socks : (gmap addr ep_sock);
  w_ports : (gmap addr ep_port);
  w_exclusive : (list ptr);  (* g_exclusive_claim_buckets *)
  w_poll_keys : (list ptr);  (* g_afd_poll_key_buckets *)
  w_afd_infos : (gmap addr afd_poll_info);  (* the poll buffers written so far *)
  w_ntdll_initialized : bool;  (* the g_ntdll entry points are resolved *)
  w_nt_query_event : bool;  (* g_ntdll.NtQueryEvent != NULL *)
  w_nt_query_information_file : bool;  (* g_ntdll.NtQueryInformationFile != NULL *)
  w_quarantined_ports : Z;  (* g_quarantined_ports *)
  w_active_quarantines : Z;  (* g_active_quarantines *)
  w_reaped_ports : Z;  (* g_reaped_ports *)
  w_irrecoverable_ports : Z;  (* g_irrecoverable_ports *)
  w_api : api_state  (* the state of wepoll_ex_api.c and wepoll_ex_global.c *)
}.
#[export] Instance eta_world : Eta world := fun r =>
  mk_world (w_os r) (w_trace r) (w_errno r) (w_last_error r) (w_fault_mask r)
    (w_fault_slots r) (w_rtl_resolved r) (w_pools r) (w_entries r)
    (w_queues r) (w_nodes r) (w_groups r) (w_socks r) (w_ports r)
    (w_exclusive r) (w_poll_keys r) (w_afd_infos r) (w_ntdll_initialized r)
    (w_nt_query_event r) (w_nt_query_information_file r)
    (w_quarantined_ports r) (w_active_quarantines r) (w_reaped_ports r)
    (w_irrecoverable_ports r) (w_api r).
#[export] Instance set_w_os : Setter w_os := ltac:(derive_setter).
#[export] Instance set_w_trace : Setter w_trace := ltac:(derive_setter).
#[export] Instance set_w_errno : Setter w_errno := ltac:(derive_setter).
#[export] Instance set_w_last_error : Setter w_last_error := ltac:(derive_setter).
#[export] Instance set_w_fault_mask : Setter w_fault_mask := ltac:(derive_setter).
#[export] Instance set_w_fault_slots : Setter w_fault_slots := ltac:(derive_setter).
#[export] Instance set_w_rtl_resolved : Setter w_rtl_resolved := ltac:(derive_setter).
#[export] Instance set_w_pools : Setter w_pools := ltac:(derive_setter).
#[export] Instance set_w_entries : Setter w_entries := ltac:(derive_setter).
#[export] Instance set_w_queues : Setter w_queues := ltac:(derive_setter).
#[export] Instance set_w_nodes : Setter w_nodes := ltac:(derive_setter).
#[export] Instance set_w_groups : Setter w_groups := ltac:(derive_setter).
#[export] Instance set_w_socks : Setter w_socks := ltac:(derive_setter).
#[export] Instance set_w_ports : Setter w_ports := ltac:(derive_setter).
#[export] Instance set_w_exclusive : Setter w_exclusive := ltac:(derive_setter).
#[export] Instance set_w_poll_keys : Setter w_poll_keys := ltac:(derive_setter).
#[export] Instance set_w_afd_infos : Setter w_afd_infos := ltac:(derive_setter).
#[export] Instance set_w_ntdll_initialized : Setter w_ntdll_initialized := ltac:(derive_setter).
#[export] Instance set_w_nt_query_event : Setter w_nt_query_event := ltac:(derive_setter).
#[export] Instance set_w_nt_query_information_file : Setter w_nt_query_information_file := ltac:(derive_setter).
#[export] Instance set_w_quarantined_ports : Setter w_quarantined_ports := ltac:(derive_setter).
#[export] Instance set_w_active_quarantines : Setter w_active_quarantines := ltac:(derive_setter).
#[export] Instance set_w_reaped_ports : Setter w_reaped_ports := ltac:(derive_setter).
#[export] Instance set_w_irrecoverable_ports : Setter w_irrecoverable_ports := ltac:(derive_setter).
#[export] Instance set_w_api : Setter w_api := ltac:(derive_setter).

Definition w_epfds (w : world) : gmap addr epfd_entry := a_epfds (w_api w).
#[export] Instance set_w_epfds : Setter w_epfds := fun u w => w <| w_api ::= set a_epfds u |>.
Definition w_shareds (w : world) : gmap addr epfd_shared := a_shareds (w_api w).
#[export] Instance set_w_shareds : Setter w_shareds := fun u w => w <| w_api ::= set a_shareds u |>.

Abbreviation MW := (M world).

(** A call into the platform. *)
Definition os (r : os_request) : MW Z := fun w =>
  Some (w_os w (w_trace w) r, w <| w_trace ::= cons r |>).

(** [malloc]/[calloc] of an object of heap [H]: the environment proposes an
    address; NULL unless that is a 64-bit address that is unallocated. *)
Definition alloc {R} (H : world -> gmap addr R) `{!Setter H} (size : Z) (r : R)
    : MW ptr :=
  a <- os (Malloc size) ;;
  fun w =>
    if (a <=? 0) || (UINT64_MAX <? a) then Some (NULL, w)
    else match H w !! Z.to_pos a with
         | Some _ => Some (NULL, w)
         | None => Some (Some (Z.to_pos a), w <| H := <[Z.to_pos a := r]> (H w) |>)
         end.

(** An allocation either returns NULL and changes nothing, or returns an
    address that was free and now holds the object. *)
Lemma alloc_cases {R} (H : world -> gmap addr R) `{!Setter H} size r w :
  (forall u, H (set w_trace u w) = H w) ->
  exists tr,
    alloc H size r w = Some (NULL, w <| w_trace := tr |>) \/
    exists a, H w !! a = None /\
      alloc H size r w =
        Some (Some a, w <| w_trace := tr |> <| H := <[a := r]> (H w) |>).
Proof.
  intros HH. unfold alloc, os, bind. eexists.
  case_match; [by left|]. rewrite HH. case_match; [by left|]. right. by eexists.
Qed.

(** A process that has allocated nothing and in which every platform call
    answers 0. *)
Definition no_error_info : wepoll_ex_error_info := mk_error_info 0 0 0 0 0 0 0 0.
Definition empty_world : world :=
  mk_world (fun _ _ => 0) [] 0 no_error_info 0
    (fun _ => mk_fault_slot 0 0 0) true
    ∅ ∅ ∅ ∅ ∅ ∅ ∅ (replicate 128 NULL) (replicate 256 NULL) ∅ true true true 0 0 0 0
    (mk_api ∅ ∅ (replicate 64 NULL) 1 5000 0 0 true true).
