(* ===== verification/Errno.v ===== *)
(** * Error channel

    [src/wepoll_ex_errno.c] and [ep_ntstatus_to_winerr] of
    [src/wepoll_ex_global.c]: the translation of Win32, Winsock and NTSTATUS
    codes to errno (the [_WIN32] branches), and the per-thread error record
    behind [wepoll_ex_get_last_error_info].  The theorems show that the
    translation never turns a failure into success, on which codes it inverts
    the errno-to-Winsock direction, and that the error record always agrees
    with errno and survives a save/restore bracket. *)
From S2P Require Import Prelude Codes Types.

Definition WEPOLL_EX_ERROR_INFO_VERSION : Z := 1.
Definition WEPOLL_EX_NATIVE_ERROR_WIN32 : Z := 1.
Definition WEPOLL_EX_NATIVE_ERROR_WINSOCK : Z := 2.
Definition WEPOLL_EX_NATIVE_ERROR_NTSTATUS : Z := 3.
Definition WEPOLL_EX_ERROR_NATIVE_EXACT : Z := Z.shiftl 1 0.
Definition WEPOLL_EX_ERROR_WINSOCK_EQUIVALENT : Z := Z.shiftl 1 1.
(** [sizeof(wepoll_ex_error_info)]: eight 32-bit members. *)
Definition sizeof_error_info : Z := 32.

Definition ep_errno_to_winsock (error : Z) : Z :=
  switch error [
    ([EAGAIN], WSAEWOULDBLOCK);
    ([EACCES], WSAEACCES);
    ([EAFNOSUPPORT], WSAEAFNOSUPPORT);
    ([EALREADY], WSAEALREADY);
    ([EBADF], WSAEBADF);
    ([ECONNABORTED], WSAECONNABORTED);
    ([ECONNREFUSED], WSAECONNREFUSED);
    ([ECONNRESET], WSAECONNRESET);
    ([EDESTADDRREQ], WSAEDESTADDRREQ);
    ([EFAULT], WSAEFAULT);
    ([EHOSTUNREACH], WSAEHOSTUNREACH);
    ([EINPROGRESS], WSAEINPROGRESS);
    ([EINVAL], WSAEINVAL);
    ([EISCONN], WSAEISCONN);
    ([EMFILE], WSAEMFILE);
    ([EMSGSIZE], WSAEMSGSIZE);
    ([ENETDOWN], WSAENETDOWN);
    ([ENETRESET], WSAENETRESET);
    ([ENETUNREACH], WSAENETUNREACH);
    ([ENOBUFS; ENOMEM], WSAENOBUFS);
    ([ENOPROTOOPT], WSAENOPROTOOPT);
    ([ENOTCONN], WSAENOTCONN);
    ([ENOTSOCK], WSAENOTSOCK);
    ([EOPNOTSUPP], WSAEOPNOTSUPP);
    ([EPROTONOSUPPORT], WSAEPROTONOSUPPORT);
    ([EPROTOTYPE], WSAEPROTOTYPE);
    ([ETIMEDOUT], WSAETIMEDOUT)
  ] 0.

Definition ep_winerr_to_errno (wsaerr : Z) : Z :=
  switch wsaerr [
    ([0], 0);
    ([ERROR_FILE_NOT_FOUND; ERROR_PATH_NOT_FOUND; ERROR_NOT_FOUND], ENOENT);
    ([ERROR_TOO_MANY_OPEN_FILES], EMFILE);
    ([ERROR_ACCESS_DENIED], EACCES);
    ([ERROR_INVALID_HANDLE; ERROR_ABANDONED_WAIT_0], EBADF);
    ([ERROR_NOT_ENOUGH_MEMORY; ERROR_OUTOFMEMORY; ERROR_NO_SYSTEM_RESOURCES], ENOMEM);
    ([ERROR_INVALID_DATA; ERROR_INVALID_PARAMETER], EINVAL);
    ([ERROR_INVALID_ADDRESS], EFAULT);
    ([ERROR_NOT_READY; ERROR_IO_PENDING], EAGAIN);
    ([ERROR_BUSY; ERROR_SHARING_VIOLATION], EBUSY);
    ([ERROR_FILE_EXISTS; ERROR_ALREADY_EXISTS], EEXIST);
    ([ERROR_BROKEN_PIPE; ERROR_NO_DATA], EPIPE);
    ([ERROR_PIPE_NOT_CONNECTED], ENOTCONN);
    ([ERROR_OPERATION_ABORTED; ERROR_CANCELLED], ECANCELED);
    ([ERROR_SEM_TIMEOUT; ERROR_TIMEOUT; WAIT_TIMEOUT], ETIMEDOUT);
    ([ERROR_NOT_SUPPORTED; ERROR_CALL_NOT_IMPLEMENTED], ENOTSUP);
    ([ERROR_INVALID_FUNCTION], ENOSYS);
    ([ERROR_GEN_FAILURE], EIO);
    ([WSAEWOULDBLOCK], EAGAIN);
    ([WSAEINPROGRESS], EAGAIN);
    ([WSAEALREADY], EAGAIN);
    ([WSAEINVAL], EINVAL);
    ([WSAEBADF], EBADF);
    ([WSAEACCES], EACCES);
    ([WSAEFAULT], EFAULT);
    ([WSAEMFILE], EMFILE);
    ([WSAENOBUFS], ENOBUFS);
    ([WSAENOTSOCK], ENOTSOCK);
    ([WSAEDESTADDRREQ], EDESTADDRREQ);
    ([WSAEMSGSIZE], EMSGSIZE);
    ([WSAEPROTOTYPE], EPROTOTYPE);
    ([WSAENOPROTOOPT], ENOPROTOOPT);
    ([WSAEPROTONOSUPPORT], EPROTONOSUPPORT);
    ([WSAESOCKTNOSUPPORT], ESOCKTNOSUPPORT);
    ([WSAEOPNOTSUPP], EOPNOTSUPP);
    ([WSAEPFNOSUPPORT], EPFNOSUPPORT);
    ([WSAEAFNOSUPPORT], EAFNOSUPPORT);
    ([WSAEADDRINUSE], EADDRINUSE);
    ([WSAEADDRNOTAVAIL], EADDRNOTAVAIL);
    ([WSAENETDOWN], ENETDOWN);
    ([WSAENETUNREACH], ENETUNREACH);
    ([WSAENETRESET], ENETRESET);
    ([WSAECONNABORTED], ECONNABORTED);
    ([WSAECONNRESET], ECONNRESET);
    ([WSAENOTCONN], ENOTCONN);
    ([WSAESHUTDOWN], EPIPE);
    ([WSAETOOMANYREFS], ETOOMANYREFS);
    ([WSAETIMEDOUT], ETIMEDOUT);
    ([WSAECONNREFUSED], ECONNREFUSED);
    ([WSAELOOP], ELOOP);
    ([WSAENAMETOOLONG], ENAMETOOLONG);
    ([WSAEHOSTDOWN], EHOSTDOWN);
    ([WSAEHOSTUNREACH], EHOSTUNREACH);
    ([WSAENOTEMPTY], ENOTEMPTY);
    ([WSAEUSERS], EUSERS);
    ([WSAEDQUOT], EDQUOT);
    ([WSAESTALE], ESTALE);
    ([WSAEREMOTE], EREMOTE)
  ] EINVAL.

(** Conversion of an unsigned 32-bit value to [int32_t]. *)
Definition i32 (x : Z) : Z := let y := u32 x in if y <? 2 ^ 31 then y else y - 2 ^ 32.

Definition ep_error_info_from_errno (error : Z) : wepoll_ex_error_info :=
  let info := mk_error_info WEPOLL_EX_ERROR_INFO_VERSION sizeof_error_info error
                0 0 0 0 0 in
  let winsock_error := ep_errno_to_winsock error in
  if winsock_error =? 0 then info
  else info <| ei_winsock_error := winsock_error |>
            <| ei_flags ::= fun fl => Z.lor fl WEPOLL_EX_ERROR_WINSOCK_EQUIVALENT |>.

Definition ep_set_errno (error : Z) : MW unit :=
  put w_errno error ;;
  put w_last_error (ep_error_info_from_errno error).

Definition ep_last_err : MW Z := get w_errno.

(** Update of the calling thread's [g_last_error_info]. *)
Definition upd_last_error (u : wepoll_ex_error_info -> wepoll_ex_error_info) : MW unit :=
  i <- get w_last_error ;; put w_last_error (u i).

Definition ep_set_native_error (portable_error native_domain native_code : Z) : MW unit :=
  ep_set_errno portable_error ;;
  upd_last_error (fun i => i
    <| ei_native_domain := native_domain |>
    <| ei_native_code := native_code |>
    <| ei_flags ::= fun fl => Z.lor fl WEPOLL_EX_ERROR_NATIVE_EXACT |>).

Definition ep_set_win32_error (error : Z) : MW unit :=
  let portable_error := ep_winerr_to_errno error in
  ep_set_native_error portable_error WEPOLL_EX_NATIVE_ERROR_WIN32 (u32 error).

Definition ep_set_winsock_error (error : Z) : MW unit :=
  let portable_error := ep_winerr_to_errno error in
  ep_set_native_error portable_error WEPOLL_EX_NATIVE_ERROR_WINSOCK (u32 error) ;;
  upd_last_error (fun i => i
    <| ei_winsock_error := i32 error |>
    <| ei_flags ::= fun fl => Z.lor fl WEPOLL_EX_ERROR_WINSOCK_EQUIVALENT |>).

Definition ep_ntstatus_to_winerr (status : Z) : MW Z :=
  resolved <- get w_rtl_resolved ;;
  if negb resolved then ret (u32 status)
  else r <- os (RtlNtStatusToDosError status) ;; ret (u32 r).

Definition ep_status_to_errno (s : Z) : MW Z :=
  wsaerr <- ep_ntstatus_to_winerr s ;;
  ret (ep_winerr_to_errno wsaerr).

Definition ep_set_ntstatus_error (status : Z) : MW unit :=
  portable_error <- ep_status_to_errno status ;;
  ep_set_native_error portable_error WEPOLL_EX_NATIVE_ERROR_NTSTATUS (u32 status).

Definition ep_get_last_error_info : MW wepoll_ex_error_info :=
  i <- get w_last_error ;;
  e <- get w_errno ;;
  ret (if negb (ei_version i =? WEPOLL_EX_ERROR_INFO_VERSION)
       then ep_error_info_from_errno e else i).

Definition ep_restore_last_error_info (error_info : wepoll_ex_error_info) : MW unit :=
  put w_last_error error_info ;;
  put w_errno (ei_portable_error error_info).

(** ** Properties *)

(** The error record describes the thread's errno: what
    [wepoll_ex_get_last_error_info] hands out has the errno the failed call
    left behind. *)
Definition error_channel_ok (w : world) : Prop :=
  ei_version (w_last_error w) = WEPOLL_EX_ERROR_INFO_VERSION /\
  ei_struct_size (w_last_error w) = sizeof_error_info /\
  ei_portable_error (w_last_error w) = w_errno w.

Lemma winerr_to_errno_nonneg e : 0 <= ep_winerr_to_errno e.
Proof.
  apply (switch_Forall (fun r => 0 <= r)); [by vm_compute|].
  repeat constructor; by vm_compute.
Qed.

(** A Win32 or Winsock code translates to errno 0 exactly when it is 0,
    and otherwise to a positive errno: a failure code is never reported as
    success and every code, known or unknown, has a translation. *)
Theorem winerr_to_errno_success_iff e :
  (ep_winerr_to_errno e = 0 <-> e = 0) /\ 0 <= ep_winerr_to_errno e.
Proof.
  split; [|apply winerr_to_errno_nonneg]. split; [|by intros ->].
  apply (switch_Forall (fun r => r = 0 -> e = 0)); [by vm_compute|].
  repeat constructor; try (intros _ H; by vm_compute in H).
  by intros ->%list_elem_of_singleton.
Qed.

(** Translating an errno to its Winsock equivalent and back returns the
    errno, except for the four names whose Winsock code the reverse table
    sends elsewhere (EALREADY and EINPROGRESS to EAGAIN, ENOMEM to ENOBUFS,
    EISCONN to EINVAL): the round trip holds exactly outside that list. *)
Theorem errno_winsock_roundtrip e :
  ep_errno_to_winsock e <> 0 ->
  (ep_winerr_to_errno (ep_errno_to_winsock e) = e <->
   e ∉ [EALREADY; EINPROGRESS; ENOMEM; EISCONN]).
Proof.
  intros He. pose proof (switch_label e _ 0 He) as Hin. cbn in Hin.
  repeat (apply elem_of_cons in Hin as [->|Hin]; [by apply (bool_decide_unpack _); vm_compute|]).
  by apply elem_of_nil in Hin.
Qed.

Lemma errno_winsock_roundtrip_witness :
  ep_winerr_to_errno (ep_errno_to_winsock ECONNRESET) = ECONNRESET <->
  ECONNRESET ∉ [EALREADY; EINPROGRESS; ENOMEM; EISCONN].
Proof. apply (errno_winsock_roundtrip ECONNRESET). by vm_compute. Defined.

Lemma error_info_from_errno_fields e :
  let i := ep_error_info_from_errno e in
  ei_version i = WEPOLL_EX_ERROR_INFO_VERSION /\
  ei_struct_size i = sizeof_error_info /\ ei_portable_error i = e /\
  (ei_flags i = 0 \/ ei_flags i = WEPOLL_EX_ERROR_WINSOCK_EQUIVALENT).
Proof.
  unfold ep_error_info_from_errno. case_match; sget; split_and!; auto.
Qed.

Lemma ep_set_errno_ok e w :
  ep_set_errno e w =
    Some (tt, w <| w_errno := e |> <| w_last_error := ep_error_info_from_errno e |>).
Proof. done. Qed.

Lemma set_winsock_error_run e w :
  ep_set_winsock_error e w =
    let p := ep_winerr_to_errno e in
    let i := ep_error_info_from_errno p in
    Some (tt, w <| w_errno := p |> <| w_last_error := i
      <| ei_native_domain := WEPOLL_EX_NATIVE_ERROR_WINSOCK |>
      <| ei_native_code := u32 e |> <| ei_winsock_error := i32 e |>
      <| ei_flags := Z.lor (Z.lor (ei_flags i) WEPOLL_EX_ERROR_NATIVE_EXACT)
                       WEPOLL_EX_ERROR_WINSOCK_EQUIVALENT |> |>).
Proof. reflexivity. Qed.

Lemma get_last_error_info_run w :
  ei_version (w_last_error w) = WEPOLL_EX_ERROR_INFO_VERSION ->
  ep_get_last_error_info w = Some (w_last_error w, w).
Proof. unfold ep_get_last_error_info, bind, get, ret. by intros ->. Qed.

(** After a Winsock failure is recorded, errno holds its translation and
    the error record hands out the exact native code, its domain, the Winsock
    code and both flags, whatever the channel held before. *)
Theorem set_winsock_error_recorded e w :
  exists w' i,
    ep_set_winsock_error e w = Some (tt, w') /\
    ep_get_last_error_info w' = Some (i, w') /\
    w_errno w' = ep_winerr_to_errno e /\ error_channel_ok w' /\
    ei_native_domain i = WEPOLL_EX_NATIVE_ERROR_WINSOCK /\
    ei_native_code i = u32 e /\ ei_winsock_error i = i32 e /\
    ei_flags i = Z.lor WEPOLL_EX_ERROR_NATIVE_EXACT WEPOLL_EX_ERROR_WINSOCK_EQUIVALENT /\
    w_trace w' = w_trace w /\ w_socks w' = w_socks w /\ w_ports w' = w_ports w.
Proof.
  rewrite set_winsock_error_run. cbv zeta.
  destruct (error_info_from_errno_fields (ep_winerr_to_errno e)) as (Hv & Hs & Hp & Hf).
  generalize dependent (ep_error_info_from_errno (ep_winerr_to_errno e)).
  generalize (ep_winerr_to_errno e). intros p i Hv Hs Hp Hf.
  eexists _, _. split; [reflexivity|]. split; [apply get_last_error_info_run; by sget|].
  unfold error_channel_ok. sget. split_and!; try done.
  by destruct Hf as [-> | ->].
Qed.

(** C24: a save/restore bracket around any computation puts back both errno
    and the error record of the moment of the save, so a best-effort cleanup
    cannot replace the error the caller is about to report. *)
Theorem error_bracket_restores {A} (m : MW A) w w' :
  error_channel_ok w ->
  (i <- ep_get_last_error_info ;; m ;; ep_restore_last_error_info i) w = Some (tt, w') ->
  w_errno w' = w_errno w /\ w_last_error w' = w_last_error w /\ error_channel_ok w'.
Proof.
  intros (Hv & Hs & Hp) Hrun.
  unfold ep_get_last_error_info, bind, get, ret in Hrun. rewrite Hv in Hrun. simpl in Hrun.
  destruct (m w) as [[a w1]|]; [|done].
  unfold ep_restore_last_error_info, bind, put in Hrun. simplify_eq.
  unfold error_channel_ok. sget. by split_and!.
Qed.

Definition enomem_world : world := exec (ep_set_errno ENOMEM) empty_world.

Lemma error_bracket_restores_witness :
  w_errno (exec (i <- ep_get_last_error_info ;; ep_set_winsock_error WSAENOTSOCK ;;
                 ep_restore_last_error_info i) enomem_world) = ENOMEM.
Proof.
  refine (proj1 (error_bracket_restores (ep_set_winsock_error WSAENOTSOCK) enomem_world _ _ _)).
  - by vm_compute.
  - reflexivity.
Defined.
