(* ===== verification/Fault.v ===== *)
(** * Deterministic fault injection

    [src/wepoll_ex_fault.c], the build with [WEPOLL_EX_ENABLE_FAULT_INJECTION].
    The ordinary build replaces [ep_fault_hit] by the constant 0; the model of
    that build is a world whose fault mask is 0, in which every check answers 0
    and changes nothing.  A configured point fails on exactly its Nth hit. *)
From S2P Require Import Prelude Codes Types Errno.

Definition EP_FAULT_POINT_COUNT : Z := 21.

(** The enumerators' values. *)
Definition fault_index (p : ep_fault_point) : Z :=
  match p with
  | EP_FAULT_POOL_INIT_ALLOC => 0 | EP_FAULT_POOL_GROW => 1
  | EP_FAULT_AFD_OPEN => 2 | EP_FAULT_AFD_GROUP_ALLOC => 3
  | EP_FAULT_AFD_SUBMIT => 4 | EP_FAULT_AFD_CANCEL => 5
  | EP_FAULT_AFD_KEY_RESERVATION => 6 | EP_FAULT_AFD_KEY_FORCE_COLLISION => 7
  | EP_FAULT_AFD_KEY_COLLISION_GROW => 8 | EP_FAULT_ENDPOINT_IDENTITY => 9
  | EP_FAULT_ENDPOINT_UNAVAILABLE => 10 | EP_FAULT_PROVIDER_BASE => 11
  | EP_FAULT_READY_NODE_ALLOC => 12 | EP_FAULT_IOCP_CREATE => 13
  | EP_FAULT_IOCP_POST => 14 | EP_FAULT_AUX_POST => 15
  | EP_FAULT_IOCP_DEQUEUE => 16 | EP_FAULT_AUX_DISARM => 17
  | EP_FAULT_TIMEOUT_INIT => 18 | EP_FAULT_TIMEOUT_ARM => 19
  | EP_FAULT_TIMEOUT_POST => 20
  end.
Coercion fault_index : ep_fault_point >-> Z.

Definition ep_fault_point_valid (point : Z) : bool :=
  (0 <=? point) && (point <? EP_FAULT_POINT_COUNT).

(** [g_fault_slots[point]]: the accesses below are guarded by
    [ep_fault_point_valid], so the index is within the array. *)
Definition fault_slot (point : Z) : MW ep_fault_slot :=
  slots <- get w_fault_slots ;; ret (slots point).
Definition put_fault_slot (point : Z) (s : ep_fault_slot) : MW unit :=
  slots <- get w_fault_slots ;;
  put w_fault_slots (fun i => if i =? point then s else slots i).

Definition ep_fault_configure (point fail_at error : Z) : MW Z :=
  if negb (ep_fault_point_valid point) || (fail_at =? 0) || (error <=? 0)
  then ep_set_errno EINVAL ;; ret (-1)
  else
    let bit := Z.shiftl 1 point in
    mask <- get w_fault_mask ;;
    put w_fault_mask (Z.ldiff mask bit) ;;
    put_fault_slot point (mk_fault_slot fail_at 0 error) ;;
    mask <- get w_fault_mask ;;
    put w_fault_mask (Z.lor mask bit) ;;
    ret 0.

Definition ep_fault_reset : MW unit :=
  put w_fault_mask 0 ;;
  l <- get w_fault_slots ;;
  put w_fault_slots (fun i => if ep_fault_point_valid i then mk_fault_slot 0 0 0 else l i).

(** The common prefix of the two checks: count the hit and return its
    ordinal with the slot, or [None] when the point is invalid or disabled. *)
Definition fault_count_hit (point : Z) : MW (option (Z * ep_fault_slot)) :=
  if negb (ep_fault_point_valid point) then ret None else
  let bit := Z.shiftl 1 point in
  mask <- get w_fault_mask ;;
  if Z.land mask bit =? 0 then ret None else
  slot <- fault_slot point ;;
  put_fault_slot point (slot <| fs_hits := u64 (fs_hits slot + 1) |>) ;;
  ret (Some (u64 (fs_hits slot + 1), slot)).

Definition ep_fault_hit (point : Z) : MW Z :=
  h <- fault_count_hit point ;;
  match h with
  | None => ret 0
  | Some (ordinal, slot) =>
    if negb (ordinal =? fs_fail_at slot) then ret 0
    else ep_set_errno (fs_error slot) ;; ret (-1)
  end.

Definition ep_fault_hit_through (point : Z) : MW Z :=
  h <- fault_count_hit point ;;
  match h with
  | None => ret 0
  | Some (ordinal, slot) =>
    if fs_fail_at slot <? ordinal then ret 0
    else ep_set_errno (fs_error slot) ;; ret (-1)
  end.

Definition ep_fault_hits (point : Z) : MW Z :=
  if negb (ep_fault_point_valid point) then ep_set_errno EINVAL ;; ret 0
  else slot <- fault_slot point ;; ret (fs_hits slot).

(** ** Properties *)

Definition fault_free (w : world) : Prop := w_fault_mask w = 0.

(** In a build without injection every check passes and has no effect. *)
Lemma fault_hit_free point w : fault_free w -> ep_fault_hit point w = Some (0, w).
Proof.
  intros Hm. unfold ep_fault_hit, fault_count_hit, bind, get, ret.
  destruct (ep_fault_point_valid point); simpl; [|done]. by rewrite Hm, Z.land_0_l.
Qed.

(** A check always returns, answers 0 or -1, and can change only the error
    channel and the hit counters. *)
Lemma fault_hit_frame point w :
  exists r e i sl,
    ep_fault_hit point w =
      Some (r, w <| w_errno := e |> <| w_last_error := i |> <| w_fault_slots := sl |>) /\
    (r = 0 \/ r = -1).
Proof.
  unfold ep_fault_hit, fault_count_hit, fault_slot, put_fault_slot.
  destruct (ep_fault_point_valid point); cbn [negb]; repeat mstep; [case_match|];
    repeat mstep; try case_match; repeat mstep.
  all: first
    [ exists 0, (w_errno w), (w_last_error w), (w_fault_slots w); split; [by destruct w|by left]
    | exists 0, (w_errno w), (w_last_error w); eexists; split; [reflexivity|by left]
    | exists (-1); do 3 eexists; split; [reflexivity|by right] ].
Qed.

(** [n] consecutive checks of one point, their answers in order. *)
Fixpoint fault_hit_n (point : Z) (n : nat) : MW (list Z) :=
  match n with
  | O => ret []
  | S n => r <- ep_fault_hit point ;; rs <- fault_hit_n point n ;; ret (r :: rs)
  end.

(** The answers a point configured to fail on hit [N] gives from hit [k+1] on. *)
Definition fault_answers (k N : Z) (n : nat) : list Z :=
  (fun i => if k + Z.of_nat i + 1 =? N then -1 else 0) <$> seq 0 n.

Lemma fault_answers_S k N n :
  fault_answers k N (S n) =
    (if k + 1 =? N then -1 else 0) :: fault_answers (k + 1) N n.
Proof.
  unfold fault_answers. simpl. f_equal; [by rewrite Z.add_0_r|].
  rewrite <- seq_shift, <- list_fmap_compose. apply list_fmap_ext.
  intros _ i _. simpl. by replace (k + Z.of_nat (S i) + 1) with (k + 1 + Z.of_nat i + 1) by lia.
Qed.

Definition fault_armed (point N err k : Z) (w : world) : Prop :=
  ep_fault_point_valid point = true /\ Z.testbit (w_fault_mask w) point = true /\
  w_fault_slots w point = mk_fault_slot N k err.

Lemma fault_mask_bit m point :
  0 <= point -> (Z.land m (Z.shiftl 1 point) =? 0) = negb (Z.testbit m point).
Proof.
  intros Hp. destruct (Z.testbit m point) eqn:E; simpl.
  - apply Z.eqb_neq. intros H0. assert (Z.testbit (Z.land m (Z.shiftl 1 point)) point = false)
      as Hf by (rewrite H0; apply Z.testbit_0_l).
    rewrite Z.land_spec, E, Z.shiftl_spec, Z.sub_diag in Hf by lia. done.
  - apply Z.eqb_eq, Z.bits_inj'. intros i Hi.
    rewrite Z.land_spec, Z.shiftl_spec, Z.testbit_0_l by lia.
    destruct (decide (i = point)) as [->|Hne]; [by rewrite E|].
    apply andb_false_intro2.
    destruct (decide (i < point)); [by rewrite Z.testbit_neg_r by lia|].
    apply (Z.bits_above_log2 1); [lia|]. simpl. lia.
Qed.

Lemma fault_hit_armed point N err k w :
  fault_armed point N err k w -> 0 <= k < 2 ^ 64 - 1 ->
  exists w', ep_fault_hit point w = Some (if k + 1 =? N then -1 else 0, w') /\
    fault_armed point N err (k + 1) w' /\
    (k + 1 = N -> w_errno w' = err) /\ (k + 1 <> N -> w_errno w' = w_errno w).
Proof.
  intros (Hv & Hb & Hs) Hk.
  assert (0 <= point) by (unfold ep_fault_point_valid in Hv; lia).
  unfold ep_fault_hit, fault_count_hit, fault_slot, put_fault_slot.
  rewrite Hv. cbn [negb]. repeat mstep.
  rewrite fault_mask_bit, Hb by done. cbn [negb]. repeat mstep. rewrite Hs.
  change (fs_hits (mk_fault_slot N k err)) with k.
  change (fs_fail_at (mk_fault_slot N k err)) with N.
  change (fs_error (mk_fault_slot N k err)) with err.
  replace (u64 (k + 1)) with (k + 1) by (unfold wrap; rewrite Z.mod_small; lia).
  destruct (Z.eqb_spec (k + 1) N) as [HN|HN]; cbn [negb]; eexists; (split; [reflexivity|]);
    unfold fault_armed; sget; rewrite Z.eqb_refl; by split_and!.
Qed.

Lemma fault_hit_n_answers point N err n : forall k w,
  fault_armed point N err k w -> 0 <= k -> k + Z.of_nat n < 2 ^ 64 ->
  result (fault_hit_n point n) w = Some (fault_answers k N n).
Proof.
  induction n as [|n IH]; intros k w Ha Hk Hn; [done|].
  destruct (fault_hit_armed point N err k w Ha) as (w1 & E1 & Ha1 & _); [lia|].
  specialize (IH (k + 1) w1 Ha1 ltac:(lia) ltac:(lia)).
  unfold result in *. simpl. unfold bind. rewrite E1.
  destruct (fault_hit_n point n w1) as [[rs w2]|]; simpl in *; [|done].
  rewrite fault_answers_S. by simplify_eq.
Qed.

(** Configuring a valid point with ordinal [fail_at] and then checking it
    [n] times answers -1 on exactly the [fail_at]-th check and 0 on every
    other one (for fewer than 2^64 checks, the width of the counter). *)
Theorem fault_configured_fails_once point fail_at error n w w' :
  ep_fault_configure point fail_at error w = Some (0, w') ->
  Z.of_nat n < 2 ^ 64 ->
  result (fault_hit_n point n) w' = Some (fault_answers 0 fail_at n).
Proof.
  intros Hcfg Hn. apply (fault_hit_n_answers _ _ error); [|lia|lia].
  unfold ep_fault_configure in Hcfg.
  destruct (ep_fault_point_valid point) eqn:Hv; [|done].
  destruct (fail_at =? 0); [done|]. destruct (error <=? 0); [done|].
  cbn [negb orb] in Hcfg. unfold put_fault_slot in Hcfg. minv.
  assert (Hp : 0 <= point) by (unfold ep_fault_point_valid in Hv; lia).
  unfold fault_armed. sget. rewrite Z.eqb_refl. split_and!; [done| |done].
  by rewrite Z.lor_spec, (Z.shiftl_spec 1 point point), Z.sub_diag, orb_true_r by lia.
Qed.

Definition demo_fault_world : world :=
  exec (ep_fault_configure EP_FAULT_POOL_GROW 2 ENOMEM) empty_world.

Lemma fault_configured_fails_once_witness :
  result (fault_hit_n EP_FAULT_POOL_GROW 4) demo_fault_world = Some [0; -1; 0; 0].
Proof.
  refine (fault_configured_fails_once EP_FAULT_POOL_GROW 2 ENOMEM 4 empty_world _ _ _);
    [reflexivity | lia].
Defined.
