(* ===== verification/Links.v ===== *)
(** * Intrusive lists

    The theory of the linked lists the program threads through its structures:
    singly linked chains (the pool's free list and its list of all entries) and
    doubly linked lists (live sockets, re-arm and one-shot work lists, claim
    buckets, AFD groups).  A link field of a heap is seen as a partial function
    from addresses to pointers, so one theory serves every list: each operation
    of the code is shown to update that function at one or two addresses. *)
From S2P Require Import Prelude.

(** The link function of field [f] in heap [h]. *)
Definition link {R} (f : R -> ptr) (h : gmap addr R) : addr -> option ptr :=
  fun a => f <$> h !! a.

Section Chain.
Context (nx : addr -> option ptr).

(** [chain nx p l]: following [nx] from [p] visits exactly [l] and ends in
    NULL. *)
Fixpoint chain (p : ptr) (l : list addr) : Prop :=
  match l with
  | [] => p = NULL
  | a :: l' => p = Some a /\ exists q, nx a = Some q /\ chain q l'
  end.

Lemma chain_nil_inv l : chain NULL l -> l = [].
Proof. destruct l; [done|]. by intros [? _]. Qed.

Lemma chain_Some_inv a l :
  chain (Some a) l -> exists q l', l = a :: l' /\ nx a = Some q /\ chain q l'.
Proof. destruct l as [|b l']; [done|]. intros [[= ->] (q & ? & ?)]. eauto. Qed.

Lemma chain_det p l l' : chain p l -> chain p l' -> l = l'.
Proof.
  revert p l'. induction l as [|a l IH]; intros p l'; simpl.
  - intros ->. intros ?%chain_nil_inv. done.
  - intros [-> (q & Hq & Hl)] (q' & l2 & -> & Hq' & Hl2)%chain_Some_inv.
    simplify_eq. f_equal. by eapply IH.
Qed.

Lemma chain_defined p l a : chain p l -> a ∈ l -> is_Some (nx a).
Proof.
  revert p. induction l as [|b l IH]; intros p; simpl; [by intros _ ?%elem_of_nil|].
  intros [_ (q & Hq & Hl)] [->|Hin]%elem_of_cons; [by eexists|by eapply IH].
Qed.
End Chain.

Lemma chain_ext nx nx' p l :
  (forall a, a ∈ l -> nx' a = nx a) -> chain nx p l -> chain nx' p l.
Proof.
  revert p. induction l as [|b l IH]; intros p Hext; simpl; [done|].
  intros [-> (q & Hq & Hl)]. split; [done|]. exists q.
  split; [rewrite Hext; [done|by left]|]. apply IH; [|done]. intros; apply Hext. by right.
Qed.

(** Updating one object leaves the other objects' links alone. *)
Lemma link_insert_ne {R} (f : R -> ptr) h a b r :
  a <> b -> link f (<[a := r]> h) b = link f h b.
Proof. intros. unfold link. by rewrite lookup_insert_ne. Qed.
Lemma link_insert_eq {R} (f : R -> ptr) h a r : link f (<[a := r]> h) a = Some (f r).
Proof. unfold link. by rewrite lookup_insert_eq. Qed.
Lemma link_delete_ne {R} (f : R -> ptr) (h : gmap addr R) a b :
  a <> b -> link f (delete a h) b = link f h b.
Proof. intros. unfold link. by rewrite lookup_delete_ne. Qed.
(** Updating another field leaves every link alone. *)
Lemma link_insert_same {R} (f : R -> ptr) h a r r' b :
  h !! a = Some r -> f r' = f r -> link f (<[a := r']> h) b = link f h b.
Proof.
  intros Ha Hf. destruct (decide (a = b)) as [<-|]; [|by apply link_insert_ne].
  rewrite link_insert_eq, Hf. unfold link. by rewrite Ha.
Qed.

(** ** Doubly linked lists *)

(** In list [l], each node's next link is its successor's address and its
    previous link its predecessor's; NULL at the ends. *)
Definition linked (nx pv : addr -> option ptr) (l : list addr) : Prop :=
  NoDup l /\
  forall i a, l !! i = Some a ->
    nx a = Some (l !! S i) /\
    pv a = Some (match i with O => NULL | S j => l !! j end).

Section Linked.
Context {nx pv nx' pv' : addr -> option ptr}.

Lemma linked_nil : linked nx pv [].
Proof. split; [by constructor|]. intros i a. by rewrite lookup_nil. Qed.

Lemma linked_middle l1 a l2 :
  linked nx pv (l1 ++ a :: l2) ->
  nx a = Some (head l2) /\ pv a = Some (last l1) /\ a ∉ l1 /\ a ∉ l2.
Proof.
  intros [Hnd Hl]. destruct (Hl (length l1) a) as [Hn Hp]; [by apply list_lookup_middle|].
  apply NoDup_app in Hnd as (_ & Hd & [Hn2 _]%NoDup_cons).
  rewrite Hn, Hp. split_and!.
  - f_equal. rewrite lookup_app_r by lia.
    replace (S (length l1) - length l1)%nat with 1%nat by lia. by destruct l2.
  - f_equal. destruct l1 as [|b l1] using rev_ind; [done|].
    rewrite last_snoc, length_app. simpl. rewrite Nat.add_1_r, <- app_assoc.
    by apply list_lookup_middle.
  - intros Hin. apply (Hd a Hin). by left.
  - done.
Qed.

Lemma linked_ext l :
  (forall a, a ∈ l -> nx' a = nx a /\ pv' a = pv a) -> linked nx pv l -> linked nx' pv' l.
Proof.
  intros Hext [Hnd Hl]. split; [done|]. intros i a Hi.
  destruct (Hext a) as [-> ->]; [by eapply list_elem_of_lookup_2|]. by apply Hl.
Qed.

Lemma linked_cons b l :
  linked nx pv l -> b ∉ l ->
  nx' b = Some (head l) -> pv' b = Some NULL ->
  (forall x, x ∈ l -> nx' x = nx x /\
     pv' x = if decide (Some x = head l) then Some (Some b) else pv x) ->
  linked nx' pv' (b :: l).
Proof.
  intros [Hnd Hl] Hb Hnb Hpb Hx. split; [by apply NoDup_cons|].
  intros [|i] a Hi; simpl in *; simplify_eq.
  - split; [|done]. rewrite Hnb. by destruct l.
  - destruct (Hl i a Hi) as [Hn Hp].
    destruct (Hx a) as [-> ->]; [by eapply list_elem_of_lookup_2|]. split; [done|].
    case_decide as Hh; destruct i as [|j]; simpl in *; try done.
    + exfalso. destruct l as [|c l]; [done|]. simpl in Hh. simplify_eq. simpl in Hi.
      apply NoDup_cons in Hnd as [Hc _]. apply Hc. by eapply list_elem_of_lookup_2.
    + by destruct l.
Qed.

Lemma linked_snoc b l :
  linked nx pv l -> b ∉ l ->
  nx' b = Some NULL -> pv' b = Some (last l) ->
  (forall x, x ∈ l -> pv' x = pv x /\
     nx' x = if decide (Some x = last l) then Some (Some b) else nx x) ->
  linked nx' pv' (l ++ [b]).
Proof.
  intros [Hnd Hl] Hb Hnb Hpb Hx. split.
  { apply NoDup_app. split_and!; [done| |apply NoDup_singleton].
    intros c Hc ->%list_elem_of_singleton. done. }
  intros i a Hi. rewrite last_lookup in Hpb.
  destruct (decide (i < length l)%nat) as [Hlt|Hge].
  - rewrite lookup_app_l in Hi by done. destruct (Hl i a Hi) as [Hn Hp].
    destruct (Hx a) as [Hpx Hnx]; [by eapply list_elem_of_lookup_2|].
    rewrite Hpx, Hnx. split.
    + case_decide as Hd; rewrite last_lookup in Hd.
      * assert (i = pred (length l)) as -> by (eapply NoDup_lookup; eauto).
        rewrite lookup_app_r by lia.
        by replace (S (pred (length l)) - length l)%nat with 0%nat by lia.
      * rewrite Hn. f_equal. rewrite lookup_app_l; [done|].
        destruct (decide (S i = length l)); [|lia]. exfalso. apply Hd.
        by replace (pred (length l)) with i by lia.
    + rewrite Hp. destruct i; [done|]. by rewrite lookup_app_l by lia.
  - apply lookup_app_Some in Hi as [Hi|[_ Hi]]; [apply lookup_lt_Some in Hi; lia|].
    apply list_lookup_singleton_Some in Hi as [Hi ->].
    assert (i = length l) as -> by lia. rewrite Hnb, Hpb. split; f_equal.
    + symmetry. apply lookup_ge_None. rewrite length_app. simpl. lia.
    + destruct (length l) eqn:E; simpl; [by destruct l|]. by rewrite lookup_app_l by lia.
Qed.

(** Unlinking [a]: its predecessor's next link and its successor's previous
    link skip it. *)
Lemma linked_remove l1 a l2 :
  linked nx pv (l1 ++ a :: l2) ->
  (forall x, x ∈ l1 ++ l2 ->
     nx' x = (if decide (Some x = last l1) then Some (head l2) else nx x) /\
     pv' x = (if decide (Some x = head l2) then Some (last l1) else pv x)) ->
  linked nx' pv' (l1 ++ l2).
Proof.
  intros [Hnd Hl] Hx.
  assert (Hnd' : NoDup (l1 ++ l2)) by (rewrite NoDup_app, NoDup_cons in *; set_solver).
  split; [done|]. intros i b Hi.
  destruct (Hx b) as [-> ->]; [by eapply list_elem_of_lookup_2|].
  rewrite last_lookup, head_lookup. destruct (decide (i < length l1)%nat) as [Hlt|Hge].
  - rewrite lookup_app_l in Hi by done.
    destruct (Hl i b) as [Hn Hp]; [by rewrite lookup_app_l|].
    split.
    + case_decide as Hd.
      * assert (i = pred (length l1)) as ->.
        { apply (NoDup_lookup l1 _ _ b); [by apply NoDup_app in Hnd' as [? _]|done|done]. }
        rewrite lookup_app_r by lia.
        by replace (S (pred (length l1)) - length l1)%nat with 0%nat by lia.
      * rewrite Hn. assert (S i <> length l1).
        { intros E. apply Hd. rewrite <- E. done. }
        by rewrite !lookup_app_l by lia.
    + case_decide as Hd.
      * exfalso. apply NoDup_app in Hnd' as (_ & Hdis & _).
        apply (Hdis b); eapply list_elem_of_lookup_2; eauto.
      * rewrite Hp. destruct i as [|j]; [done|]. by rewrite !lookup_app_l by lia.
  - rewrite lookup_app_r in Hi by lia.
    destruct (Hl (S i) b) as [Hn Hp].
    { rewrite lookup_app_r by lia.
      by replace (S i - length l1)%nat with (S (i - length l1)) by lia. }
    split.
    + case_decide as Hd.
      * exfalso. apply NoDup_app in Hnd' as (_ & Hdis & _).
        apply (Hdis b); eapply list_elem_of_lookup_2; eauto.
      * rewrite Hn. rewrite !lookup_app_r by lia.
        by replace (S (S i) - length l1)%nat with (S (S i - length l1)) by lia.
    + case_decide as Hd.
      * assert (i - length l1 = 0)%nat as E.
        { apply (NoDup_lookup l2 _ _ b); [by apply NoDup_app in Hnd' as (_ & _ & ?)|done|done]. }
        destruct i as [|j].
        { destruct l1; [done|simpl in Hge; lia]. }
        rewrite lookup_app_l by lia. f_equal. f_equal. lia.
      * rewrite Hp. destruct i as [|j]; [exfalso; apply Hd; by rewrite Nat.sub_0_l in Hi|].
        assert (S j <> length l1).
        { intros E. apply Hd. by rewrite E, Nat.sub_diag in Hi. }
        rewrite !lookup_app_r by lia.
        by replace (S j - length l1)%nat with (S (j - length l1)) by lia.
Qed.
End Linked.

(** Moving the head to the tail. *)
Lemma linked_rotate {nx pv nx' pv' : addr -> option ptr} a l :
  l <> [] ->
  linked nx pv (a :: l) ->
  nx' a = Some NULL -> pv' a = Some (last l) ->
  (forall x, x ∈ l ->
     nx' x = (if decide (Some x = last l) then Some (Some a) else nx x) /\
     pv' x = (if decide (Some x = head l) then Some NULL else pv x)) ->
  linked nx' pv' (l ++ [a]).
Proof.
  intros Hne Hl Hna Hpa Hx.
  destruct (linked_middle [] a l Hl) as (_ & _ & _ & Hal).
  pose (pv1 := fun x => if decide (Some x = head l) then Some NULL else pv x).
  apply (@linked_snoc nx pv1 nx' pv'); [|done|done|done|].
  - destruct Hl as [[_ Hnd]%NoDup_cons Hl]. split; [done|]. intros i x Hi.
    destruct (Hl (S i) x Hi) as [-> Hp]. split; [done|]. unfold pv1.
    destruct i as [|j]; simpl in *.
    + rewrite decide_True; [done|]. by destruct l.
    + rewrite decide_False; [done|]. intros E. destruct l as [|c l]; [done|].
      simpl in *. simplify_eq. apply NoDup_cons in Hnd as [Hc _]. apply Hc.
      by eapply list_elem_of_lookup_2.
  - intros x Hin. destruct (Hx x Hin) as [-> ->]. done.
Qed.

(** A chain without repetitions is no longer than its heap. *)
Lemma chain_length {R} (f : R -> ptr) (h : gmap addr R) p l :
  NoDup l -> chain (link f h) p l -> (length l <= size h)%nat.
Proof.
  intros Hnd Hc.
  rewrite <- (size_list_to_set (C := gset addr) l Hnd), <- size_dom.
  apply subseteq_size. intros a Ha%elem_of_list_to_set.
  destruct (chain_defined _ _ _ a Hc Ha) as [q Hq].
  apply elem_of_dom. unfold link in Hq. destruct (h !! a); [by eexists|done].
Qed.

Lemma chain_head nx p l : chain nx p l -> p = head l.
Proof. destruct l; [done|]. by intros [-> _]. Qed.

(** The link of the last node of a prefix is the node that follows. *)
Lemma chain_app_next nx p l0 l z :
  chain nx p (l0 ++ l) -> last l0 = Some z -> nx z = Some (head l).
Proof.
  revert p. induction l0 as [|a l0 IH]; intros p Hc Hz; [done|].
  destruct Hc as [_ (q & Hq & Hc)]. destruct l0 as [|b l0].
  - simpl in Hz, Hc. simplify_eq. by rewrite <- (chain_head _ _ _ Hc).
  - by apply (IH q).
Qed.

Lemma chain_app_suffix nx p l0 l : chain nx p (l0 ++ l) -> chain nx (head l) l.
Proof.
  revert p. induction l0 as [|a l0 IH]; intros p Hc.
  - simpl in Hc. by rewrite <- (chain_head _ _ _ Hc).
  - destruct Hc as [_ (q & _ & Hc)]. by apply (IH q).
Qed.

(** Removing a node by redirecting the link before it. *)
Lemma chain_remove nx nx' p l1 a l2 :
  NoDup (l1 ++ a :: l2) -> chain nx p (l1 ++ a :: l2) ->
  (forall z, last l1 = Some z -> nx' z = Some (head l2)) ->
  (forall x, x ∈ l1 ++ l2 -> last l1 <> Some x -> nx' x = nx x) ->
  chain nx' (head (l1 ++ l2)) (l1 ++ l2).
Proof.
  revert p. induction l1 as [|b l1 IH]; intros p Hnd Hc Hz Hx.
  - simpl in *. destruct Hc as [_ (q & _ & Hc)]. rewrite <- (chain_head _ _ _ Hc).
    eapply chain_ext; [|exact Hc]. intros x Hin. by apply Hx.
  - simpl in *. destruct Hc as [-> (q & Hq & Hc)]. apply NoDup_cons in Hnd as [Hb Hnd].
    split; [done|]. destruct l1 as [|c l1].
    + exists (head l2). split; [by apply Hz|]. destruct Hc as [_ (q' & _ & Hc)].
      rewrite <- (chain_head _ _ _ Hc). eapply chain_ext; [|exact Hc]. intros x Hin.
      apply Hx; [by right|]. simpl. intros [= ->]. apply Hb. by right.
    + exists q. split.
      * rewrite Hx; [done|by left|]. intros E. apply Hb.
        apply (last_Some_elem_of (c :: l1)) in E. apply elem_of_app. by left.
      * rewrite (chain_head _ _ _ Hc). apply (IH q); [done|done|done|].
        intros x Hin. apply Hx. by right.
Qed.

(** Appending a node to a chain by writing the last node's link. *)
Lemma chain_snoc nx nx' p l z b :
  NoDup l -> chain nx p l -> last l = Some z ->
  nx' b = Some NULL -> nx' z = Some (Some b) ->
  (forall x, x ∈ l -> x <> z -> nx' x = nx x) ->
  chain nx' p (l ++ [b]).
Proof.
  revert p. induction l as [|a l IH]; intros p Hnd Hc Hz Hb Hzb Hx; [done|].
  destruct Hc as [-> (q & Hq & Hc)]. apply NoDup_cons in Hnd as [Ha Hnd].
  split; [done|]. destruct l as [|c l].
  - simpl in Hz. simplify_eq. exists (Some b). split; [done|]. split; [done|]. by exists NULL.
  - assert (Hzl : last (c :: l) = Some z) by done.
    exists q. split.
    + rewrite Hx; [done|by left|]. intros ->. apply Ha. by apply last_Some_elem_of.
    + apply IH; try done. intros x Hin. apply Hx. by right.
Qed.

Lemma chain_last_end nx p l z :
  chain nx p l -> last l = Some z -> nx z = Some NULL.
Proof.
  revert p. induction l as [|a l IH]; intros p Hc Hz; [done|].
  destruct Hc as [-> (q & Hq & Hc)]. destruct l as [|c l]; [|by eapply IH].
  simpl in *. by simplify_eq.
Qed.

(** ** Heap operations of doubly linked lists *)

(** [if (p != NULL) *p = u( *p )]. *)
Definition upd {R} (h : gmap addr R) (p : ptr) (u : R -> R) : gmap addr R :=
  match p with Some a => alter u a h | None => h end.

Lemma upd_lookup {R} (h : gmap addr R) p u x :
  upd h p u !! x = if decide (p = Some x) then u <$> h !! x else h !! x.
Proof.
  destruct p as [a|]; simpl; [|done]. case_decide as E.
  - simplify_eq. apply lookup_alter_eq.
  - apply lookup_alter_ne. congruence.
Qed.

Lemma upd_insert {R} (h : gmap addr R) a r u :
  h !! a = Some r -> upd h (Some a) u = <[a := u r]> h.
Proof.
  intros Ha. apply map_eq. intros x. rewrite upd_lookup.
  destruct (decide (x = a)) as [->|Hne].
  - by rewrite decide_True, Ha, lookup_insert_eq.
  - rewrite decide_False, lookup_insert_ne by congruence. done.
Qed.

(** The two link fields of a record are independent. *)
Class DLL {R : Type} (nx pv : R -> ptr) `{!Setter nx, !Setter pv} := {
  dll_nx_nx r v : nx (r <| nx := v |>) = v;
  dll_nx_pv r v : nx (r <| pv := v |>) = nx r;
  dll_pv_pv r v : pv (r <| pv := v |>) = v;
  dll_pv_nx r v : pv (r <| nx := v |>) = pv r
}.

(** [l] is threaded through [nx] and [pv] in heap [h]. *)
Definition dlist {R} (nx pv : R -> ptr) (h : gmap addr R) (l : list addr) : Prop :=
  linked (link nx h) (link pv h) l.

Section Dlist.
Context {R : Type} {nx pv : R -> ptr} `{HD : DLL R nx pv}.
Implicit Types h : gmap addr R.

Lemma dlist_nodup h l : dlist nx pv h l -> NoDup l.
Proof. by intros [? _]. Qed.

Lemma dlist_in_heap h l a : dlist nx pv h l -> a ∈ l -> is_Some (h !! a).
Proof.
  intros [_ Hl] [i Hi]%list_elem_of_lookup_1. destruct (Hl i a Hi) as [Hn _].
  unfold link in Hn. destruct (h !! a); [by eexists|done].
Qed.

Lemma dlist_split h l1 a l2 r :
  dlist nx pv h (l1 ++ a :: l2) -> h !! a = Some r ->
  nx r = head l2 /\ pv r = last l1 /\ a ∉ l1 /\ a ∉ l2.
Proof.
  intros Hl Ha. destruct (linked_middle l1 a l2 Hl) as (Hn & Hp & ? & ?).
  unfold link in *. rewrite Ha in *. simpl in *. by simplify_eq.
Qed.

Lemma link_upd_nx_nx h p v x :
  link nx (upd h p (set nx (fun _ => v))) x =
  if decide (p = Some x) then (fun _ => v) <$> h !! x else link nx h x.
Proof.
  unfold link. rewrite upd_lookup. case_decide; [|done].
  destruct (h !! x); simpl; [by rewrite dll_nx_nx|done].
Qed.
Lemma link_upd_pv_pv h p v x :
  link pv (upd h p (set pv (fun _ => v))) x =
  if decide (p = Some x) then (fun _ => v) <$> h !! x else link pv h x.
Proof.
  unfold link. rewrite upd_lookup. case_decide; [|done].
  destruct (h !! x); simpl; [by rewrite dll_pv_pv|done].
Qed.
Lemma link_upd_nx_pv h p v x : link nx (upd h p (set pv (fun _ => v))) x = link nx h x.
Proof.
  unfold link. rewrite upd_lookup. case_decide; [|done].
  destruct (h !! x); simpl; [by rewrite dll_nx_pv|done].
Qed.
Lemma link_upd_pv_nx h p v x : link pv (upd h p (set nx (fun _ => v))) x = link pv h x.
Proof.
  unfold link. rewrite upd_lookup. case_decide; [|done].
  destruct (h !! x); simpl; [by rewrite dll_pv_nx|done].
Qed.

(** Objects outside the list may change. *)
Lemma dlist_ext h h' l :
  (forall a, a ∈ l -> link nx h' a = link nx h a /\ link pv h' a = link pv h a) ->
  dlist nx pv h l -> dlist nx pv h' l.
Proof. apply linked_ext. Qed.

Lemma dlist_insert_ne h l b r : b ∉ l -> dlist nx pv h l -> dlist nx pv (<[b := r]> h) l.
Proof.
  intros Hb. apply dlist_ext. intros a Ha. rewrite !link_insert_ne; [done|..]; by intros ->.
Qed.

(** An update of other fields keeps the list. *)
Lemma dlist_insert_same h l b r r' :
  h !! b = Some r -> nx r' = nx r -> pv r' = pv r ->
  dlist nx pv h l -> dlist nx pv (<[b := r']> h) l.
Proof.
  intros Hb Hn Hp. apply dlist_ext. intros a Ha. by rewrite !(link_insert_same _ _ _ r).
Qed.

(** The heap after [a] between [l1] and [l2] is bypassed. *)
Definition unlink_heap h (l1 l2 : list addr) : gmap addr R :=
  upd (upd h (last l1) (set nx (fun _ => head l2))) (head l2) (set pv (fun _ => last l1)).

Lemma unlink_heap_nx h l1 l2 x :
  link nx (unlink_heap h l1 l2) x =
  if decide (last l1 = Some x) then (fun _ => head l2) <$> h !! x else link nx h x.
Proof. unfold unlink_heap. by rewrite link_upd_nx_pv, link_upd_nx_nx. Qed.
Lemma unlink_heap_pv h l1 l2 x :
  link pv (unlink_heap h l1 l2) x =
  if decide (head l2 = Some x) then (fun _ => last l1) <$> h !! x else link pv h x.
Proof.
  unfold unlink_heap. rewrite link_upd_pv_pv, link_upd_pv_nx, upd_lookup.
  repeat case_decide; try done. by destruct (h !! x).
Qed.

Lemma dlist_unlink h l1 a l2 :
  dlist nx pv h (l1 ++ a :: l2) -> dlist nx pv (unlink_heap h l1 l2) (l1 ++ l2).
Proof.
  intros Hl. eapply linked_remove; [exact Hl|]. intros x Hx.
  destruct (dlist_in_heap h (l1 ++ a :: l2) x Hl) as [r Hr]; [set_solver|].
  rewrite unlink_heap_nx, unlink_heap_pv, Hr. simpl.
  split; repeat case_decide; congruence.
Qed.

Lemma dlist_unlink_other h l1 l2 l :
  (forall x, x ∈ l -> x ∉ l1 /\ x ∉ l2) -> dlist nx pv h l ->
  dlist nx pv (unlink_heap h l1 l2) l.
Proof.
  intros Hx. apply dlist_ext. intros x [H1 H2]%Hx. rewrite unlink_heap_nx, unlink_heap_pv.
  rewrite !decide_False; [done|..]; intros E; [by apply H2, head_Some_elem_of|].
  by apply H1, last_Some_elem_of.
Qed.

(** The heap after [b], holding [r], is put in front of or behind [l]. *)
Definition push_heap h (b : addr) r (l : list addr) : gmap addr R :=
  upd (<[b := r]> h) (head l) (set pv (fun _ => Some b)).
Definition append_heap h (b : addr) r (l : list addr) : gmap addr R :=
  upd (<[b := r]> h) (last l) (set nx (fun _ => Some b)).

Lemma dlist_push h l b r :
  dlist nx pv h l -> b ∉ l -> nx r = head l -> pv r = NULL ->
  dlist nx pv (push_heap h b r l) (b :: l).
Proof.
  intros Hl Hb Hn Hp. unfold push_heap. eapply linked_cons; [exact Hl|done|..].
  - rewrite link_upd_nx_pv, link_insert_eq. by rewrite Hn.
  - rewrite link_upd_pv_pv, decide_False, link_insert_eq; [by rewrite Hp|].
    intros E. by apply Hb, head_Some_elem_of.
  - intros x Hx. assert (b <> x) by (by intros ->). rewrite link_upd_nx_pv, link_upd_pv_pv.
    rewrite !link_insert_ne, lookup_insert_ne by done. split; [done|].
    destruct (dlist_in_heap h l x Hl Hx) as [r' Hr]. rewrite Hr.
    repeat case_decide; simpl; congruence.
Qed.

Lemma dlist_append h l b r :
  dlist nx pv h l -> b ∉ l -> nx r = NULL -> pv r = last l ->
  dlist nx pv (append_heap h b r l) (l ++ [b]).
Proof.
  intros Hl Hb Hn Hp. unfold append_heap. eapply linked_snoc; [exact Hl|done|..].
  - rewrite link_upd_nx_nx, decide_False, link_insert_eq; [by rewrite Hn|].
    intros E. by apply Hb, last_Some_elem_of.
  - rewrite link_upd_pv_nx, link_insert_eq. by rewrite Hp.
  - intros x Hx. assert (b <> x) by (by intros ->). rewrite link_upd_nx_nx, link_upd_pv_nx.
    rewrite !link_insert_ne, lookup_insert_ne by done. split; [done|].
    destruct (dlist_in_heap h l x Hl Hx) as [r' Hr]. rewrite Hr.
    repeat case_decide; simpl; congruence.
Qed.

Lemma dlist_push_other h l b r l' :
  b ∉ l' -> (forall x, x ∈ l' -> x ∉ l) -> dlist nx pv h l' ->
  dlist nx pv (push_heap h b r l) l'.
Proof.
  intros Hb Hx. apply dlist_ext. intros x Hin. assert (b <> x) by (by intros ->).
  unfold push_heap. rewrite link_upd_nx_pv, link_upd_pv_pv, !link_insert_ne by done.
  rewrite decide_False; [done|]. intros E. by apply (Hx x Hin), head_Some_elem_of.
Qed.
End Dlist.
Arguments unlink_heap {R} nx pv {_ _} h l1 l2.
Arguments push_heap {R} pv {_} h b r l.
Arguments append_heap {R} nx {_} h b r l.

(** A write through a pointer that may be NULL, as a heap update. *)
Lemma wr_opt {S R T} (H : S -> gmap addr R) `{!Setter H} (f : R -> T) `{!Setter f} p v w :
  (forall a, p = Some a -> is_Some (H w !! a)) -> w <| H := H w |> = w ->
  (match p with Some _ => wr H p f v | None => ret tt end) w =
  Some (tt, w <| H := upd (H w) p (set f (fun _ => v)) |>).
Proof.
  intros Hp Hw. destruct p as [a|]; [|unfold ret; simpl; by rewrite Hw].
  destruct (Hp a eq_refl) as [r Hr]. rewrite (wr_some H a r) by done. by rewrite (upd_insert _ _ r).
Qed.

Lemma dlist_length {R} {nx pv : R -> ptr} (h : gmap addr R) l :
  dlist nx pv h l -> (length l <= size h)%nat.
Proof.
  intros Hl. rewrite <- (size_list_to_set (C := gset addr) l (dlist_nodup _ _ Hl)), <- size_dom.
  apply subseteq_size. intros a Ha%elem_of_list_to_set. apply elem_of_dom.
  by eapply dlist_in_heap.
Qed.

(** ** Forgetting fields *)

(** An update of forgotten fields is invisible after [e]. *)
Lemma fmap_insert_same {R T} (e : R -> T) (h : gmap addr R) a r r' :
  h !! a = Some r -> e r' = e r -> e <$> <[a := r']> h = e <$> h.
Proof. intros Ha E. rewrite fmap_insert, E. apply insert_id. by rewrite lookup_fmap, Ha. Qed.

Lemma fmap_upd_same {R T} (e : R -> T) (h : gmap addr R) p u :
  (forall r, e (u r) = e r) -> e <$> upd h p u = e <$> h.
Proof.
  intros Hu. apply map_eq. intros x. rewrite !lookup_fmap, upd_lookup.
  case_decide; [|done]. destruct (h !! x); simpl; [by rewrite Hu|done].
Qed.

(** What is not forgotten is unchanged. *)
Lemma fmap_same_lookup {R T} (e : R -> T) (h h' : gmap addr R) a r :
  e <$> h' = e <$> h -> h !! a = Some r -> exists r', h' !! a = Some r' /\ e r' = e r.
Proof.
  intros E Ha. apply (f_equal (.!! a)) in E. rewrite !lookup_fmap, Ha in E. simpl in E.
  destruct (h' !! a) as [r'|]; [|done]. simpl in E. exists r'. split; [done|congruence].
Qed.

Lemma wr_upd {S R T} (H : S -> gmap addr R) `{!Setter H} (f : R -> T) `{!Setter f} a v w :
  is_Some (H w !! a) ->
  wr H (Some a) f v w = Some (tt, w <| H := upd (H w) (Some a) (set f (fun _ => v)) |>).
Proof. intros [r Hr]. rewrite (wr_some H a r) by done. by rewrite (upd_insert _ _ r). Qed.

Lemma upd_is_Some {R} (h : gmap addr R) p u x : is_Some (h !! x) -> is_Some (upd h p u !! x).
Proof. intros [r Hr]. rewrite upd_lookup, Hr. case_decide; by eexists. Qed.

(** ** Removing one node from a list *)

Lemma filter_ne_notin (a : addr) (l : list addr) : a ∉ l -> filter (fun x => x <> a) l = l.
Proof.
  induction l as [|b l IH]; [done|]. rewrite not_elem_of_cons. intros [Hn Hl].
  rewrite filter_cons_True by congruence. by rewrite IH.
Qed.

Lemma filter_ne_split (a : addr) l1 l2 :
  a ∉ l1 -> a ∉ l2 -> filter (fun x => x <> a) (l1 ++ a :: l2) = l1 ++ l2.
Proof.
  intros. rewrite filter_app, filter_cons_False by auto. by rewrite !filter_ne_notin.
Qed.

(** Links that are not forgotten are unchanged. *)
Lemma link_forget {R} (e : R -> R) (f : R -> ptr) (h h' : gmap addr R) x :
  e <$> h' = e <$> h -> (forall r, f (e r) = f r) -> link f h' x = link f h x.
Proof.
  intros E Hf. apply (f_equal (fun m => m !! x)) in E. rewrite !lookup_fmap in E. unfold link.
  destruct (h' !! x) as [r'|], (h !! x) as [r|]; try done. simpl in *. injection E as E.
  f_equal. by rewrite <- (Hf r'), E, Hf.
Qed.
Lemma dlist_forget {R} {nx pv : R -> ptr} (e : R -> R) (h h' : gmap addr R) l :
  e <$> h' = e <$> h -> (forall r, nx (e r) = nx r) -> (forall r, pv (e r) = pv r) ->
  dlist nx pv h l -> dlist nx pv h' l.
Proof.
  intros E Hn Hp Hl. unfold dlist in *. eapply linked_ext; [|exact Hl].
  intros a _. split; by eapply link_forget.
Qed.

(** [b] enters a list behind its first element. *)
Lemma linked_insert_second {nx pv nx' pv' : addr -> option ptr} a b l :
  linked nx pv (a :: l) -> b ∉ a :: l ->
  nx' a = Some (Some b) -> pv' a = pv a -> nx' b = Some (head l) -> pv' b = Some (Some a) ->
  (forall x, x ∈ l -> nx' x = nx x /\
     pv' x = if decide (Some x = head l) then Some (Some b) else pv x) ->
  linked nx' pv' (a :: b :: l).
Proof.
  intros [Hnd Hl] Hb Hna Hpa Hnb Hpb Hx. apply NoDup_cons in Hnd as [Ha Hnd].
  apply not_elem_of_cons in Hb as [Hba Hb]. split.
  { apply NoDup_cons. split; [|by apply NoDup_cons]. intros [?|?]%elem_of_cons; done. }
  assert (Hinj : forall i j x, l !! i = Some x -> l !! j = Some x -> i = j)
    by (intros; by eapply NoDup_lookup).
  intros [|[|i]] x Hi; cbn [lookup list_lookup] in Hi; simplify_eq.
  - rewrite Hpa. destruct (Hl 0%nat x eq_refl) as [_ Hp]. done.
  - rewrite Hnb, Hpb. split; [|done]. by destruct l.
  - destruct (Hx x) as [-> ->]; [by eapply list_elem_of_lookup_2|].
    destruct (Hl (S i) x Hi) as [Hn Hp]. split; [exact Hn|]. destruct i as [|i].
    + rewrite decide_True; [done|]. by destruct l.
    + rewrite decide_False; [exact Hp|]. destruct l as [|y l]; [done|]. simpl. intros [= ->].
      by specialize (Hinj 0%nat (S i) y eq_refl Hi).
Qed.
