(* ===== verification/Pool.v ===== *)
(** * AFD buffer pool

    The mutex-protected LIFO pool of [src/wepoll_ex_pool.c]: entries carry an
    owner, a magic number and an [in_pool] flag; the free entries form a chain
    through [next], all entries one through [all_next].  The buffer handed to a
    client is the entry's [data] member, so client and entry addresses differ
    by the header.

    The abstract specification is [pool_rep]: a stack of free entries and a
    list of entries in clients' hands.  [take] and [give] refine push and pop
    on it; initialisation builds it and leaks nothing when it fails; a second
    return of a buffer is refused; destruction is refused while buffers are
    outstanding and otherwise frees every entry. *)
From S2P Require Import Prelude Codes Types Errno Fault Links.

(** [offsetof(ep_pool_entry_t, data)] on x86-64: three pointers, the 64-bit
    magic, the [int] padded to the 16-byte alignment of [max_align_t], and
    [max_align_t] itself (32 bytes). *)
Definition pool_header : positive := 80.
Definition header_size : Z := Zpos pool_header.

Definition EP_POOL_ENTRY_MAGIC : Z := 0x4550504f4f4c4558.

Definition ep_pool_entry_buf (entry : addr) : addr := (entry + pool_header)%positive.
Definition ep_pool_buf_entry (buf : addr) : addr := (buf - pool_header)%positive.

Definition ep_pool_entry_alloc (p : ptr) (in_pool : bool) : MW ptr :=
  buf_size <- rd w_pools p pool_buf_size ;;
  if SIZE_MAX - header_size <? buf_size then ep_set_errno ENOMEM ;; ret NULL else
  f <- ep_fault_hit (if in_pool then EP_FAULT_POOL_INIT_ALLOC else EP_FAULT_POOL_GROW) ;;
  if negb (f =? 0) then ret NULL else
  entry <- alloc w_entries (header_size + buf_size)
             (mk_pool_entry NULL NULL p EP_POOL_ENTRY_MAGIC in_pool) ;;
  match entry with
  | None => ep_set_errno ENOMEM ;; ret NULL
  | Some _ => ret entry
  end.

(** The loop is run with fuel one more than the number of live entries: each
    iteration frees one. *)
Fixpoint pool_entries_free_loop (fuel : nat) (entry : ptr) : MW unit :=
  match fuel with
  | O => stuck
  | S fuel =>
    match entry with
    | None => ret tt
    | Some _ =>
      next <- rd w_entries entry e_all_next ;;
      wr w_entries entry e_magic 0 ;;
      wr w_entries entry e_owner NULL ;;
      del w_entries entry ;;
      pool_entries_free_loop fuel next
    end
  end.
Definition ep_pool_entries_free (entry : ptr) : MW unit := fun w =>
  pool_entries_free_loop (S (size (w_entries w))) entry w.

(** The body of the reservation loop: [true] when the entry was added. *)
Definition pool_init_step (p : ptr) : MW bool :=
  entry <- ep_pool_entry_alloc p true ;;
  match entry with
  | None =>
    all <- rd w_pools p pool_all_entries ;;
    ep_pool_entries_free all ;;
    wr w_pools p pool_stack NULL ;;
    wr w_pools p pool_all_entries NULL ;;
    wr w_pools p pool_allocated 0 ;;
    wr w_pools p pool_initialized false ;;
    ret false
  | Some _ =>
    stack <- rd w_pools p pool_stack ;;
    wr w_entries entry e_next stack ;;
    wr w_pools p pool_stack entry ;;
    all <- rd w_pools p pool_all_entries ;;
    wr w_entries entry e_all_next all ;;
    wr w_pools p pool_all_entries entry ;;
    allocated <- rd w_pools p pool_allocated ;;
    wr w_pools p pool_allocated (u64 (allocated + 1)) ;;
    ret true
  end.

Fixpoint pool_init_loop (p : ptr) (capacity : nat) : MW Z :=
  match capacity with
  | O => ret 0
  | S n => ok <- pool_init_step p ;;
           if ok then pool_init_loop p n else ret (-1)
  end.

(** The pool structure after [memset(p, 0, sizeof( *p))]. *)
Definition zero_pool : ep_afd_pool := mk_afd_pool NULL NULL 0 0 0 0 0 false.

Definition ep_afd_pool_init (p : ptr) (buf_size capacity : Z) : MW Z :=
  if bool_decide (p = NULL) || (buf_size =? 0) || (capacity =? 0)
  then ep_set_errno EINVAL ;; ret (-1)
  else
    st w_pools p zero_pool ;;
    rc <- os PthreadMutexInit ;;
    if negb (rc =? 0) then ep_set_errno rc ;; ret (-1) else
    wr w_pools p pool_buf_size buf_size ;;
    wr w_pools p pool_capacity capacity ;;
    wr w_pools p pool_in_use 0 ;;
    wr w_pools p pool_peak 0 ;;
    wr w_pools p pool_initialized true ;;
    pool_init_loop p (Z.to_nat capacity).

Definition ep_afd_pool_destroy (p : ptr) : MW unit :=
  match p with
  | None => ret tt
  | Some _ =>
    initialized <- rd w_pools p pool_initialized ;;
    if negb initialized then ret tt else
    rc <- os PthreadMutexLock ;;
    if negb (rc =? 0) then ep_set_errno rc else
    in_use <- rd w_pools p pool_in_use ;;
    if negb (in_use =? 0) then ep_set_errno EBUSY else
    entries <- rd w_pools p pool_all_entries ;;
    wr w_pools p pool_stack NULL ;;
    wr w_pools p pool_all_entries NULL ;;
    wr w_pools p pool_allocated 0 ;;
    wr w_pools p pool_initialized false ;;
    ep_pool_entries_free entries
  end.

(** The accounting common to both ways of obtaining an entry. *)
Definition pool_account_take (p : ptr) (entry : addr) : MW ptr :=
  wr w_entries (Some entry) e_next NULL ;;
  wr w_entries (Some entry) e_in_pool false ;;
  in_use <- rd w_pools p pool_in_use ;;
  let now := u64 (in_use + 1) in
  wr w_pools p pool_in_use now ;;
  peak <- rd w_pools p pool_peak ;;
  (if peak <? now then wr w_pools p pool_peak now else ret tt) ;;
  ret (Some (ep_pool_entry_buf entry)).

Definition ep_afd_pool_take (p : ptr) : MW ptr :=
  match p with
  | None => ep_set_errno EFAULT ;; ret NULL
  | Some _ =>
    initialized <- rd w_pools p pool_initialized ;;
    if negb initialized then ep_set_errno EFAULT ;; ret NULL else
    rc <- os PthreadMutexLock ;;
    if negb (rc =? 0) then ep_set_errno rc ;; ret NULL else
    initialized <- rd w_pools p pool_initialized ;;
    if negb initialized then ep_set_errno EFAULT ;; ret NULL else
    stack <- rd w_pools p pool_stack ;;
    match stack with
    | Some entry =>
      next <- rd w_entries (Some entry) e_next ;;
      wr w_pools p pool_stack next ;;
      pool_account_take p entry
    | None =>
      fresh <- ep_pool_entry_alloc p false ;;
      match fresh with
      | None => ret NULL
      | Some entry =>
        all <- rd w_pools p pool_all_entries ;;
        wr w_entries (Some entry) e_all_next all ;;
        wr w_pools p pool_all_entries (Some entry) ;;
        allocated <- rd w_pools p pool_allocated ;;
        wr w_pools p pool_allocated (u64 (allocated + 1)) ;;
        pool_account_take p entry
      end
    end
  end.

Definition ep_afd_pool_give (p buf : ptr) : MW unit :=
  match p, buf with
  | Some pa, Some b =>
    let entry := Some (ep_pool_buf_entry b) in
    magic <- rd w_entries entry e_magic ;;
    owner <- rd w_entries entry e_owner ;;
    initialized <- rd w_pools p pool_initialized ;;
    if negb (magic =? EP_POOL_ENTRY_MAGIC) || negb (bool_decide (owner = p)) ||
       negb initialized
    then ep_set_errno EINVAL else
    rc <- os PthreadMutexLock ;;
    if negb (rc =? 0) then ep_set_errno rc else
    initialized <- rd w_pools p pool_initialized ;;
    in_pool <- rd w_entries entry e_in_pool ;;
    if negb initialized || in_pool then ep_set_errno EINVAL else
    in_use <- rd w_pools p pool_in_use ;;
    wr w_entries entry e_in_pool true ;;
    stack <- rd w_pools p pool_stack ;;
    wr w_entries entry e_next stack ;;
    wr w_pools p pool_stack entry ;;
    if 0 <? in_use then wr w_pools p pool_in_use (in_use - 1)
    else ep_set_errno EINVAL
  | _, _ => ret tt
  end.

(** ** Invariant *)

(** Entry [e] is a live entry of pool [p] whose [in_pool] flag is [b]. *)
Definition pool_entry_is (p : addr) (b : bool) (h : gmap addr ep_pool_entry) (e : addr) : Prop :=
  exists en, h !! e = Some en /\ e_owner en = Some p /\
    e_magic en = EP_POOL_ENTRY_MAGIC /\ e_in_pool en = b.

(** Pool [p] with record [r] over the entry heap [h]: [free] are the entries
    on the stack, top first, [out] those in clients' hands, [all] every entry
    the pool ever allocated. *)
Record pool_inv (p : addr) (r : ep_afd_pool) (h : gmap addr ep_pool_entry)
    (all free out : list addr) : Prop := {
  pi_stack : chain (link e_next h) (pool_stack r) free;
  pi_all : chain (link e_all_next h) (pool_all_entries r) all;
  pi_perm : all ≡ₚ free ++ out;
  pi_nodup : NoDup all;
  pi_free : Forall (pool_entry_is p true h) free;
  pi_out : Forall (pool_entry_is p false h) out;
  pi_owned : forall e en, h !! e = Some en -> e_owner en = Some p -> e ∈ all;
  pi_allocated : pool_allocated r = Z.of_nat (length all);
  pi_in_use : pool_in_use r = Z.of_nat (length out);
  pi_peak : pool_in_use r <= pool_peak r;
}.

(** The abstract pool: an initialised pool with free stack [free] and
    outstanding entries [out]. *)
Definition pool_rep (w : world) (p : addr) (free out : list addr) : Prop :=
  exists r all, w_pools w !! p = Some r /\ pool_initialized r = true /\
    pool_inv p r (w_entries w) all free out.

Lemma pool_buf_entry_buf e : ep_pool_buf_entry (ep_pool_entry_buf e) = e.
Proof. unfold ep_pool_buf_entry, ep_pool_entry_buf. lia. Qed.

Lemma pool_entry_is_ne p b h e a en :
  a <> e -> pool_entry_is p b h e -> pool_entry_is p b (<[a := en]> h) e.
Proof. intros Hne (x & Hx & ?). exists x. by rewrite lookup_insert_ne. Qed.

Lemma Forall_entry_insert p b h a en l :
  a ∉ l -> Forall (pool_entry_is p b h) l -> Forall (pool_entry_is p b (<[a := en]> h)) l.
Proof.
  intros Ha. rewrite !Forall_forall. intros H x Hx. apply pool_entry_is_ne; [|by apply H].
  intros ->. done.
Qed.

Lemma chain_insert_ne f h a en q l :
  a ∉ l -> chain (link f h) q l -> chain (link f (<[a := en : ep_pool_entry]> h)) q l.
Proof.
  intros Ha. apply chain_ext. intros x Hx. apply link_insert_ne. intros ->. done.
Qed.

(** Popping the stack: the entry moves to the clients. *)
Lemma pool_inv_pop p r h all e free out en :
  pool_inv p r h all (e :: free) out -> h !! e = Some en ->
  pool_inv p
    (r <| pool_stack := e_next en |> <| pool_in_use := pool_in_use r + 1 |>
       <| pool_peak := Z.max (pool_peak r) (pool_in_use r + 1) |>)
    (<[e := en <| e_next := NULL |> <| e_in_pool := false |>]> h) all free (e :: out).
Proof.
  intros [Hst Hall Hperm Hnd Hfree Hout Hown Halloc Huse Hpeak] He.
  assert (Hnd' : NoDup (e :: free ++ out)) by (by rewrite <- Hperm).
  apply NoDup_cons in Hnd' as [[Hef Heo]%not_elem_of_app _].
  apply Forall_cons in Hfree as [(x & Hx & Ho & Hm & _) Hfree]. assert (x = en) as -> by congruence.
  destruct Hst as [_ (q & Hq & Hst)].
  assert (q = e_next en) as -> by (unfold link in Hq; rewrite He in Hq; by simplify_eq/=).
  split; sget.
  - by apply chain_insert_ne.
  - eapply chain_ext; [|exact Hall]. intros a _. eapply link_insert_same; [exact He|done].
  - rewrite Hperm. apply Permutation_middle.
  - done.
  - by apply Forall_entry_insert.
  - apply Forall_cons. split; [|by apply Forall_entry_insert].
    eexists. split; [apply lookup_insert_eq|]. sget. done.
  - intros a an [(<- & <-)|(? & Ha)]%lookup_insert_Some; sget; intros; eauto.
  - done.
  - rewrite Huse. simpl. lia.
  - lia.
Qed.

(** Pushing a buffer back. *)
Lemma pool_inv_push p r h all free o1 e o2 en :
  pool_inv p r h all free (o1 ++ e :: o2) -> h !! e = Some en ->
  pool_inv p (r <| pool_stack := Some e |> <| pool_in_use := pool_in_use r - 1 |>)
    (<[e := en <| e_in_pool := true |> <| e_next := pool_stack r |>]> h)
    all (e :: free) (o1 ++ o2).
Proof.
  intros [Hst Hall Hperm Hnd Hfree Hout Hown Halloc Huse Hpeak] He.
  assert (Hperm' : all ≡ₚ e :: free ++ o1 ++ o2).
  { rewrite Hperm. by rewrite <- !Permutation_middle. }
  assert (Hnd' : NoDup (e :: free ++ o1 ++ o2)) by (by rewrite <- Hperm').
  apply NoDup_cons in Hnd' as [Hn _].
  apply not_elem_of_app in Hn as [Hef [Ho1 Ho2]%not_elem_of_app].
  apply Forall_app in Hout as [Hout1 [(x & Hx & Ho & Hm & _) Hout2]%Forall_cons].
  assert (x = en) as -> by congruence.
  split; sget.
  - split; [done|]. exists (pool_stack r). split; [by rewrite link_insert_eq|].
    by apply chain_insert_ne.
  - eapply chain_ext; [|exact Hall]. intros a _. eapply link_insert_same; [exact He|done].
  - done.
  - done.
  - apply Forall_cons. split; [|by apply Forall_entry_insert].
    eexists. split; [apply lookup_insert_eq|]. sget. done.
  - apply Forall_app. split; by apply Forall_entry_insert.
  - intros a an [(<- & <-)|(? & Ha)]%lookup_insert_Some; sget; intros; eauto.
  - done.
  - rewrite Huse, !length_app. simpl. lia.
  - lia.
Qed.

(** A fresh entry, linked into [all_entries] and handed out. *)
Lemma pool_inv_fresh p r h all out e :
  pool_inv p r h all [] out -> h !! e = None ->
  pool_inv p
    (r <| pool_all_entries := Some e |> <| pool_allocated := pool_allocated r + 1 |>
       <| pool_in_use := pool_in_use r + 1 |>
       <| pool_peak := Z.max (pool_peak r) (pool_in_use r + 1) |>)
    (<[e := mk_pool_entry NULL (pool_all_entries r) (Some p) EP_POOL_ENTRY_MAGIC false]> h)
    (e :: all) [] (e :: out).
Proof.
  intros [Hst Hall Hperm Hnd Hfree Hout Hown Halloc Huse Hpeak] He.
  assert (Hea : e ∉ all).
  { intros Hin. destruct (chain_defined _ _ _ e Hall Hin) as [q Hq].
    unfold link in Hq. by rewrite He in Hq. }
  simpl in Hperm. assert (Heo : e ∉ out) by (by rewrite <- Hperm).
  split; sget.
  - done.
  - split; [done|]. exists (pool_all_entries r). split; [by rewrite link_insert_eq|].
    by apply chain_insert_ne.
  - simpl. by rewrite Hperm.
  - by apply NoDup_cons.
  - done.
  - apply Forall_cons. split; [|by apply Forall_entry_insert].
    eexists. split; [apply lookup_insert_eq|]. done.
  - intros a an [(<- & <-)|(? & Ha)]%lookup_insert_Some; intros; [by left|right; eauto].
  - rewrite Halloc. simpl. lia.
  - rewrite Huse. simpl. lia.
  - lia.
Qed.

(** ** Operations *)

Lemma account_take_run p e r en w :
  w_pools w !! p = Some r -> w_entries w !! e = Some en ->
  0 <= pool_in_use r < 2 ^ 64 - 1 ->
  pool_account_take (Some p) e w = Some (Some (ep_pool_entry_buf e),
    w <| w_entries := <[e := en <| e_next := NULL |> <| e_in_pool := false |>]> (w_entries w) |>
      <| w_pools := <[p := r <| pool_in_use := pool_in_use r + 1 |>
           <| pool_peak := Z.max (pool_peak r) (pool_in_use r + 1) |>]> (w_pools w) |>).
Proof.
  intros Hr He Hu. unfold pool_account_take. repeat mstep.
  sget. rewrite u64_small by lia.
  destruct (Z.ltb_spec (pool_peak r) (pool_in_use r + 1)); repeat mstep; sget.
  - rewrite Z.max_r by lia. do 2 f_equal. weq.
  - rewrite Z.max_l by lia. do 2 f_equal. weq.
Qed.

(** What pool operations may touch: the error channel, the fault counters,
    the call trace and the pool heaps; not the sockets, ports, queues, groups or
    indexes. *)
Definition pool_frame (w w' : world) : Prop :=
  w' = w <| w_errno := w_errno w' |> <| w_last_error := w_last_error w' |>
         <| w_fault_slots := w_fault_slots w' |> <| w_trace := w_trace w' |>
         <| w_entries := w_entries w' |> <| w_pools := w_pools w' |>.

Lemma pool_frame_refl w : pool_frame w w.
Proof. by destruct w. Qed.
Lemma pool_frame_trans w1 w2 w3 : pool_frame w1 w2 -> pool_frame w2 w3 -> pool_frame w1 w3.
Proof. unfold pool_frame. destruct w1, w2, w3. intros -> ->. done. Qed.
#[export] Instance pool_frame_preorder : PreOrder pool_frame.
Proof. split; [intros w; apply pool_frame_refl|intros ???; apply pool_frame_trans]. Qed.

(** Close the frame goal of an explicitly updated world. *)
Ltac pframe := sget; try split_and!; first [done | unfold pool_frame; match goal with w : world |- _ => by destruct w end].

(** Allocation of an entry: NULL with no heap change, or a fresh address. *)
Lemma entry_alloc_run p in_pool r w :
  w_pools w !! p = Some r ->
  exists res w', ep_pool_entry_alloc (Some p) in_pool w = Some (res, w') /\
    pool_frame w w' /\ w_pools w' = w_pools w /\
    match res with
    | None => w_entries w' = w_entries w
    | Some e => w_entries w !! e = None /\
        w_entries w' = <[e := mk_pool_entry NULL NULL (Some p) EP_POOL_ENTRY_MAGIC in_pool]>
                         (w_entries w)
    end.
Proof.
  intros Hr. unfold ep_pool_entry_alloc. repeat mstep.
  case_match; [repeat mstep; eexists _, _; split; [reflexivity|by pframe]|].
  destruct (fault_hit_frame (if in_pool then EP_FAULT_POOL_INIT_ALLOC else EP_FAULT_POOL_GROW) w)
    as (f & e & i & sl & Hf & Hf01).
  erewrite bind_some by exact Hf. cbv beta.
  destruct (f =? 0); cbn [negb]; [|eexists _, _; split; [reflexivity|by pframe]].
  set (w1 := w <| w_errno := e |> <| w_last_error := i |> <| w_fault_slots := sl |>).
  edestruct (alloc_cases w_entries (header_size + pool_buf_size r)
    (mk_pool_entry NULL NULL (Some p) EP_POOL_ENTRY_MAGIC in_pool) w1) as [tr Ha]; [done|].
  destruct Ha as [Ha|(a & Hna & Ha)]; erewrite bind_some by exact Ha; cbv beta; subst w1.
  - repeat mstep. eexists _, _. split; [reflexivity|by pframe].
  - eexists _, _. split; [reflexivity|]. by pframe.
Qed.

Lemma pool_frame_entries w w' h : pool_frame w w' -> pool_frame w (w' <| w_entries := h |>).
Proof. intros H. etrans; [exact H|]. unfold pool_frame. by destruct w'. Qed.
Lemma pool_frame_pools w w' ps : pool_frame w w' -> pool_frame w (w' <| w_pools := ps |>).
Proof. intros H. etrans; [exact H|]. unfold pool_frame. by destruct w'. Qed.
Lemma pool_frame_trace w w' u : pool_frame w w' -> pool_frame w (w' <| w_trace ::= u |>).
Proof. intros H. etrans; [exact H|]. unfold pool_frame. by destruct w'. Qed.
Create HintDb pool.
#[export] Hint Resolve pool_frame_entries pool_frame_pools pool_frame_trace pool_frame_refl : pool.

(** The two ways of obtaining an entry, from the state in which the lock is
    held. *)
Lemma pool_take_pop w p r all e free out :
  w_pools w !! p = Some r -> pool_initialized r = true ->
  pool_inv p r (w_entries w) all (e :: free) out ->
  Z.of_nat (length (e :: free ++ out)) < 2 ^ 64 ->
  exists w',
    (next <- rd w_entries (Some e) e_next ;;
     wr w_pools (Some p) pool_stack next ;; pool_account_take (Some p) e) w =
      Some (Some (ep_pool_entry_buf e), w') /\
    pool_frame w w' /\ pool_rep w' p free (e :: out).
Proof.
  intros Hr Hi Hinv Hlen. simpl in Hlen. rewrite length_app in Hlen.
  pose proof (pi_in_use _ _ _ _ _ _ Hinv) as Huse.
  pose proof (pi_free _ _ _ _ _ _ Hinv) as [(en & He & _) _]%Forall_cons.
  repeat mstep. eexists.
  split; [eapply account_take_run; [mlookup|mlookup|sget; lia]|]. sget. split; [by pframe|].
  eexists _, all. split; [sget; apply lookup_insert_eq|]. split; [done|]. sget.
  by apply pool_inv_pop.
Qed.

Lemma pool_take_fresh w p r all out :
  w_pools w !! p = Some r -> pool_initialized r = true ->
  pool_inv p r (w_entries w) all [] out -> Z.of_nat (length out) < 2 ^ 64 - 1 ->
  exists res w',
    (fresh <- ep_pool_entry_alloc (Some p) false ;;
     match fresh with
     | None => ret NULL
     | Some entry =>
       all <- rd w_pools (Some p) pool_all_entries ;;
       wr w_entries (Some entry) e_all_next all ;;
       wr w_pools (Some p) pool_all_entries (Some entry) ;;
       allocated <- rd w_pools (Some p) pool_allocated ;;
       wr w_pools (Some p) pool_allocated (u64 (allocated + 1)) ;;
       pool_account_take (Some p) entry
     end) w = Some (res, w') /\ pool_frame w w' /\
    match res with
    | None => pool_rep w' p [] out
    | Some b => exists e, b = ep_pool_entry_buf e /\ w_entries w !! e = None /\
                pool_rep w' p [] (e :: out)
    end.
Proof.
  intros Hr Hi Hinv Hlen.
  pose proof (pi_in_use _ _ _ _ _ _ Hinv) as Huse.
  pose proof (pi_allocated _ _ _ _ _ _ Hinv) as Hal.
  rewrite (pi_perm _ _ _ _ _ _ Hinv) in Hal. simpl in Hal.
  destruct (entry_alloc_run p false r w Hr) as (res & w2 & Hrun & Hfr & Hps & Hres).
  erewrite bind_some by exact Hrun. cbv beta. destruct res as [e|].
  - destruct Hres as [Hne Hh]. rewrite <- Hps in Hr.
    assert (He2 : w_entries w2 !! e = Some (mk_pool_entry NULL NULL (Some p) EP_POOL_ENTRY_MAGIC false))
      by (rewrite Hh; apply lookup_insert_eq).
    repeat mstep. sget. rewrite u64_small by lia.
    eexists _, _. split; [eapply account_take_run; [mlookup|mlookup|sget; lia]|]. sget.
    split; [by auto 10 with pool|]. exists e. split_and!; [done|done|].
    eexists _, (e :: all). split; [sget; apply lookup_insert_eq|]. split; [done|]. sget.
    rewrite Hh, !insert_insert_eq. by apply pool_inv_fresh.
  - eexists _, w2. split; [reflexivity|]. split; [done|]. exists r, all.
    by rewrite Hps, Hres.
Qed.

(** C23: taking a buffer from a pool whose free stack is [free] and whose
    outstanding buffers are [out] always returns.  A returned buffer is never
    one that a client already holds: it is the top of the stack, or, when the
    stack is empty, an entry allocated at an address that was unused.  NULL
    leaves the pool as it was.  In every case only the pool heaps, the call
    trace and the error channel change. *)
Theorem pool_take_refines w p free out :
  pool_rep w p free out -> Z.of_nat (length (free ++ out)) < 2 ^ 64 - 1 ->
  exists res w', ep_afd_pool_take (Some p) w = Some (res, w') /\ pool_frame w w' /\
    match res with
    | None => pool_rep w' p free out
    | Some b => exists e, b = ep_pool_entry_buf e /\ e ∉ out /\
        ((exists free', free = e :: free' /\ pool_rep w' p free' (e :: out)) \/
         (free = [] /\ w_entries w !! e = None /\ pool_rep w' p [] (e :: out)))
    end.
Proof.
  intros (r & all & Hr & Hi & Hinv) Hlen.
  unfold ep_afd_pool_take. repeat mstep. rewrite Hi. cbn [negb].
  unfold os at 1. repeat mstep. generalize (w_os w (w_trace w) PthreadMutexLock). intros rc.
  destruct (rc =? 0); cbn [negb];
    [|repeat mstep; eexists _, _; split; [reflexivity|]; split; [by pframe|by exists r, all]].
  repeat mstep. rewrite Hi. cbn [negb]. repeat mstep.
  pose proof (pi_stack _ _ _ _ _ _ Hinv) as Hst.
  set (w1 := w <| w_trace ::= cons PthreadMutexLock |>).
  assert (Hf1 : pool_frame w w1) by (unfold w1; by pframe).
  destruct free as [|e free].
  - simpl in Hst. rewrite Hst.
    destruct (pool_take_fresh w1 p r all out) as (res & w' & Hrun & Hfr & Hres); [done..|].
    exists res, w'. split; [exact Hrun|]. split; [etrans; [exact Hf1|exact Hfr]|].
    destruct res as [b|]; [|done]. destruct Hres as (e & -> & Hne & Hrep). exists e.
    split_and!; [done| |by right]. intros Hin.
    pose proof (pi_out _ _ _ _ _ _ Hinv) as Ho. rewrite Forall_forall in Ho.
    destruct (Ho e Hin) as (en & He & _). change (w_entries w1) with (w_entries w) in Hne. congruence.
  - destruct Hst as [Hst _]. rewrite Hst.
    destruct (pool_take_pop w1 p r all e free out) as (w' & Hrun & Hfr & Hrep); [done..|simpl in *; lia|].
    exists (Some (ep_pool_entry_buf e)), w'. split; [exact Hrun|]. split; [etrans; [exact Hf1|exact Hfr]|].
    exists e. split_and!; [done| |left; by exists free].
    pose proof (pi_nodup _ _ _ _ _ _ Hinv) as Hnd. rewrite (pi_perm _ _ _ _ _ _ Hinv) in Hnd.
    apply NoDup_app in Hnd as (_ & Hd & _). apply Hd. by left.
Qed.

(** Returning an outstanding buffer pushes its entry on the free stack and
    takes it off the outstanding ones; when the lock cannot be taken the pool
    is unchanged and errno is the lock's error. *)
Theorem pool_give_refines w p free out e :
  pool_rep w p free out -> e ∈ out ->
  exists w', ep_afd_pool_give (Some p) (Some (ep_pool_entry_buf e)) w = Some (tt, w') /\
    pool_frame w w' /\
    let rc := w_os w (w_trace w) PthreadMutexLock in
    if decide (rc = 0)
    then exists o1 o2, out = o1 ++ e :: o2 /\ pool_rep w' p (e :: free) (o1 ++ o2)
    else pool_rep w' p free out /\ w_errno w' = rc.
Proof.
  intros (r & all & Hr & Hi & Hinv) (o1 & o2 & ->)%list_elem_of_split.
  pose proof (pi_in_use _ _ _ _ _ _ Hinv) as Huse.
  pose proof (pi_out _ _ _ _ _ _ Hinv) as [_ [(en & He & Ho & Hm & Hp) _]%Forall_cons]%Forall_app.
  unfold ep_afd_pool_give. rewrite pool_buf_entry_buf. repeat mstep.
  rewrite Hm, Ho, Hi, Z.eqb_refl, bool_decide_true by done. cbn [negb orb].
  unfold os at 1. repeat mstep. cbv zeta.
  generalize (w_os w (w_trace w) PthreadMutexLock). intros rc.
  destruct (Z.eqb_spec rc 0) as [Hrc|Hrc]; cbn [negb].
  - repeat mstep. rewrite Hi, Hp. cbn [negb orb]. repeat mstep.
    destruct (Z.ltb_spec 0 (pool_in_use r)) as [Hpos|Hpos];
      [|rewrite length_app in Huse; simpl in Huse; lia].
    eexists. split; [eapply wr_some; mlookup|]. sget. split; [by auto 10 with pool|].
    rewrite decide_True by done. exists o1, o2. split; [done|].
    eexists _, all. split; [sget; apply lookup_insert_eq|]. split; [done|]. sget.
    rewrite insert_insert_eq. by apply pool_inv_push.
  - eexists. split; [reflexivity|]. split; [by pframe|]. rewrite decide_False by done.
    split; [by exists r, all|done].
Qed.

(** Returning a buffer that is already in the pool is refused: errno is
    set and neither the pools nor their entries change, so the accounting
    cannot underflow and no buffer is handed out twice. *)
Theorem pool_double_give_refused w p free out e :
  pool_rep w p free out -> e ∈ free ->
  exists w', ep_afd_pool_give (Some p) (Some (ep_pool_entry_buf e)) w = Some (tt, w') /\
    w_pools w' = w_pools w /\ w_entries w' = w_entries w /\
    let rc := w_os w (w_trace w) PthreadMutexLock in
    w_errno w' = if decide (rc = 0) then EINVAL else rc.
Proof.
  intros (r & all & Hr & Hi & Hinv) Hin.
  pose proof (pi_free _ _ _ _ _ _ Hinv) as Hf. rewrite Forall_forall in Hf.
  destruct (Hf e Hin) as (en & He & Ho & Hm & Hp).
  unfold ep_afd_pool_give. rewrite pool_buf_entry_buf. repeat mstep.
  rewrite Hm, Ho, Hi, Z.eqb_refl, bool_decide_true by done. cbn [negb orb].
  unfold os at 1. repeat mstep. cbv zeta.
  generalize (w_os w (w_trace w) PthreadMutexLock). intros rc.
  destruct (Z.eqb_spec rc 0) as [Hrc|Hrc]; cbn [negb].
  - repeat mstep. rewrite Hi, Hp. cbn [negb orb]. eexists. split; [reflexivity|]. sget.
    by rewrite decide_True.
  - eexists. split; [reflexivity|]. sget. by rewrite decide_False.
Qed.

(** Freeing a chain of entries removes exactly its members. *)
Lemma entries_free_loop_run l : forall fuel q w,
  NoDup l -> chain (link e_all_next (w_entries w)) q l -> (length l < fuel)%nat ->
  exists h, pool_entries_free_loop fuel q w = Some (tt, w <| w_entries := h |>) /\
    forall e, h !! e = if decide (e ∈ l) then None else w_entries w !! e.
Proof.
  induction l as [|a l IH]; intros fuel q w Hnd Hc Hfuel; destruct fuel as [|fuel];
    cbn [length] in Hfuel; try lia; cbn [pool_entries_free_loop chain] in *.
  - subst q. exists (w_entries w). split; [by destruct w|]. intros e.
    rewrite decide_False; [done|]. apply not_elem_of_nil.
  - destruct Hc as [-> (n & Hn & Hc)]. apply NoDup_cons in Hnd as [Ha Hnd].
    unfold link in Hn. destruct (w_entries w !! a) as [en|] eqn:He; simplify_eq/=.
    repeat mstep. sget.
    match goal with |- context [pool_entries_free_loop _ _ ?w1] => set (w2 := w1) end.
    assert (Hw2 : w_entries w2 = delete a (w_entries w)).
    { unfold w2. sget. by rewrite !delete_insert_eq. }
    destruct (IH fuel (e_all_next en) w2) as (h & Hrun & Hh); [done| |lia|].
    { rewrite Hw2. eapply chain_ext; [|exact Hc]. intros b Hb. apply link_delete_ne. by intros ->. }
    exists h. split; [rewrite Hrun; unfold w2; do 2 f_equal; weq|].
    intros e. rewrite Hh, Hw2. destruct (decide (e = a)) as [->|Hne].
    + rewrite (decide_True (P := a ∈ a :: l)) by (by left).
      case_decide; [done|]. apply lookup_delete_eq.
    + rewrite lookup_delete_ne by done. repeat case_decide; set_solver.
Qed.

(** Reserving one more entry during initialisation. *)
Lemma pool_inv_reserve p r h l e :
  pool_inv p r h l l [] -> h !! e = None ->
  pool_inv p
    (r <| pool_stack := Some e |> <| pool_all_entries := Some e |>
       <| pool_allocated := pool_allocated r + 1 |>)
    (<[e := mk_pool_entry (pool_stack r) (pool_all_entries r) (Some p) EP_POOL_ENTRY_MAGIC true]> h)
    (e :: l) (e :: l) [].
Proof.
  intros [Hst Hall Hperm Hnd Hfree Hout Hown Halloc Huse Hpeak] He.
  assert (Hel : e ∉ l).
  { intros Hin. destruct (chain_defined _ _ _ e Hall Hin) as [q Hq].
    unfold link in Hq. by rewrite He in Hq. }
  split; sget; try done.
  - split; [done|]. eexists. split; [by rewrite link_insert_eq|]. by apply chain_insert_ne.
  - split; [done|]. eexists. split; [by rewrite link_insert_eq|]. by apply chain_insert_ne.
  - by rewrite app_nil_r.
  - by apply NoDup_cons.
  - apply Forall_cons. split; [|by apply Forall_entry_insert].
    eexists. split; [apply lookup_insert_eq|]. done.
  - intros a an [(<- & <-)|(? & Ha)]%lookup_insert_Some; intros; [by left|right; eauto].
  - rewrite Halloc. simpl. lia.
Qed.

(** [h] is [h0] with exactly the entries [l] added. *)
Definition grown (h0 h : gmap addr ep_pool_entry) (l : list addr) : Prop :=
  forall e, (e ∈ l -> h0 !! e = None) /\ (e ∉ l -> h !! e = h0 !! e).

(** The pool under construction: [l] reserved so far over the heap [h0]. *)
Definition reserving (h0 : gmap addr ep_pool_entry) (p : addr) (l : list addr) (w : world) : Prop :=
  exists r, w_pools w !! p = Some r /\ pool_initialized r = true /\
    pool_inv p r (w_entries w) l l [] /\ grown h0 (w_entries w) l.

Lemma entries_free_grown h0 p r l w :
  pool_inv p r (w_entries w) l l [] -> grown h0 (w_entries w) l ->
  ep_pool_entries_free (pool_all_entries r) w = Some (tt, w <| w_entries := h0 |>).
Proof.
  intros Hinv Hg. unfold ep_pool_entries_free.
  destruct (entries_free_loop_run l (S (size (w_entries w))) (pool_all_entries r) w)
    as (h & -> & Hh); [apply (pi_nodup _ _ _ _ _ _ Hinv)|apply (pi_all _ _ _ _ _ _ Hinv)| |].
  { apply Nat.lt_succ_r. eapply chain_length; apply Hinv. }
  enough (h = h0) as -> by done. apply map_eq. intros e. rewrite Hh.
  destruct (Hg e) as [Hin Hout]. case_decide; [by rewrite Hin|by apply Hout].
Qed.

Lemma pool_init_step_run h0 p l w :
  reserving h0 p l w -> Z.of_nat (length l) < 2 ^ 64 - 1 ->
  exists b w', pool_init_step (Some p) w = Some (b, w') /\ pool_frame w w' /\
    if b : bool then exists e, reserving h0 p (e :: l) w'
    else w_entries w' = h0 /\ exists r', w_pools w' !! p = Some r' /\ pool_initialized r' = false.
Proof.
  intros (r & Hr & Hi & Hinv & Hg) Hlen.
  pose proof (pi_allocated _ _ _ _ _ _ Hinv) as Hal.
  destruct (entry_alloc_run p true r w Hr) as (res & w2 & Hrun & Hfr & Hps & Hres).
  unfold pool_init_step. erewrite bind_some by exact Hrun. cbv beta. rewrite <- Hps in Hr.
  destruct res as [e|].
  - destruct Hres as [Hne Hh].
    assert (He2 : w_entries w2 !! e = Some (mk_pool_entry NULL NULL (Some p) EP_POOL_ENTRY_MAGIC true))
      by (rewrite Hh; apply lookup_insert_eq).
    repeat mstep. sget. rewrite u64_small by lia. eexists _, _. split; [reflexivity|].
    split; [by auto 10 with pool|]. exists e. eexists. sget. split; [apply lookup_insert_eq|].
    split; [done|]. rewrite Hh, !insert_insert_eq.
    split; [by apply pool_inv_reserve|].
    intros a. destruct (Hg a) as [Ha1 Ha2]. split.
    + intros [->|Hin]%elem_of_cons; [|by apply Ha1].
      destruct (decide (e ∈ l)); [by apply Ha1|]. destruct (Hg e) as [_ Hge]. by rewrite <- Hge.
    + intros [Hae Hal']%not_elem_of_cons. by rewrite lookup_insert_ne, Ha2.
  - assert (Hinv2 : pool_inv p r (w_entries w2) l l []) by (by rewrite Hres).
    assert (Hg2 : grown h0 (w_entries w2) l) by (by rewrite Hres).
    repeat mstep. erewrite bind_some by (eapply entries_free_grown; eassumption). cbv beta.
    repeat mstep. eexists _, _. split; [reflexivity|]. split; [by auto 10 with pool|].
    sget. split; [done|]. eexists. split; [apply lookup_insert_eq|done].
Qed.

Lemma pool_init_loop_run h0 p n : forall l w,
  reserving h0 p l w -> Z.of_nat (length l + n) < 2 ^ 64 ->
  exists z w', pool_init_loop (Some p) n w = Some (z, w') /\ pool_frame w w' /\
    ((z = 0 /\ exists l', reserving h0 p l' w' /\ length l' = (length l + n)%nat) \/
     (z = -1 /\ w_entries w' = h0 /\
      exists r', w_pools w' !! p = Some r' /\ pool_initialized r' = false)).
Proof.
  induction n as [|n IH]; intros l w Hres Hlen; cbn [pool_init_loop].
  - exists 0, w. split; [done|]. split; [apply pool_frame_refl|]. left. split; [done|].
    exists l. split; [done|lia].
  - destruct (pool_init_step_run h0 p l w Hres) as (b & w1 & Hrun & Hf1 & Hb); [lia|].
    erewrite bind_some by exact Hrun. cbv beta. destruct b.
    + destruct Hb as [e He]. destruct (IH (e :: l) w1 He) as (z & w' & Hrun' & Hf2 & Hz).
      { simpl length. lia. }
      exists z, w'. split; [exact Hrun'|]. split; [by etrans|].
      destruct Hz as [(-> & l' & ? & Hl')|?]; [left|by right].
      split; [done|]. exists l'. split; [done|]. rewrite Hl'. simpl. lia.
    + exists (-1), w1. split; [done|]. split; [done|]. right. by split.
Qed.

(** Initialising a pool either reserves exactly [capacity] entries, all of
    them free, or fails with -1 having released every entry it allocated: the
    entry heap is then what it was before the call. *)
Theorem pool_init_all_or_nothing w p r0 buf_size capacity :
  w_pools w !! p = Some r0 ->
  (forall e en, w_entries w !! e = Some en -> e_owner en <> Some p) ->
  0 < buf_size -> 0 < capacity < 2 ^ 64 ->
  exists z w', ep_afd_pool_init (Some p) buf_size capacity w = Some (z, w') /\
    pool_frame w w' /\
    ((z = 0 /\ exists free, pool_rep w' p free [] /\ Z.of_nat (length free) = capacity /\
        grown (w_entries w) (w_entries w') free) \/
     (z = -1 /\ w_entries w' = w_entries w /\
      exists r', w_pools w' !! p = Some r' /\ pool_initialized r' = false)).
Proof.
  intros Hr0 Hown Hb Hc. unfold ep_afd_pool_init.
  rewrite bool_decide_false by done.
  rewrite (proj2 (Z.eqb_neq buf_size 0)), (proj2 (Z.eqb_neq capacity 0)) by lia. cbn [orb].
  unfold os at 1. repeat mstep. sget.
  generalize (w_os w (w_trace w) PthreadMutexInit). intros rc.
  destruct (rc =? 0); cbn [negb].
  - repeat mstep. sget.
    match goal with |- context [pool_init_loop _ _ ?w1] => set (w2 := w1) end.
    destruct (pool_init_loop_run (w_entries w) p (Z.to_nat capacity) [] w2)
      as (z & w' & Hrun & Hfr & Hz).
    { eexists. split; [unfold w2; sget; apply lookup_insert_eq|]. split; [done|]. split.
      - split; sget; try done; [constructor|]. intros e en He Ho. by destruct (Hown e en He).
      - intros e. split; [by intros ?%elem_of_nil|done]. }
    { simpl length. lia. }
    exists z, w'. split; [exact Hrun|]. split.
    { etrans; [|exact Hfr]. unfold w2. by pframe. }
    destruct Hz as [(-> & l' & (r & ? & ? & ? & Hg) & Hl)|?]; [left|by right].
    split; [done|]. exists l'. split; [by exists r, l'|]. split; [simpl in Hl; lia|exact Hg].
  - repeat mstep. eexists _, _. split; [reflexivity|]. split; [by pframe|]. right.
    sget. split_and!; [done..|]. eexists. split; [apply lookup_insert_eq|done].
Qed.

(** Destroying a pool with buffers outstanding is refused with EBUSY and
    changes nothing; with none outstanding it frees exactly the entries of
    this pool, leaves every other entry in place and marks the pool
    uninitialised. *)
Theorem pool_destroy_outcome w p free out :
  pool_rep w p free out ->
  exists w', ep_afd_pool_destroy (Some p) w = Some (tt, w') /\ pool_frame w w' /\
    let rc := w_os w (w_trace w) PthreadMutexLock in
    if decide (rc = 0 /\ out = [])
    then (forall e en, w_entries w' !! e = Some en <->
            w_entries w !! e = Some en /\ e_owner en <> Some p) /\
         exists r', w_pools w' !! p = Some r' /\ pool_initialized r' = false
    else w_pools w' = w_pools w /\ w_entries w' = w_entries w /\
         w_errno w' = if decide (rc = 0) then EBUSY else rc.
Proof.
  intros (r & all & Hr & Hi & Hinv).
  pose proof (pi_in_use _ _ _ _ _ _ Hinv) as Huse.
  unfold ep_afd_pool_destroy. repeat mstep. rewrite Hi. cbn [negb].
  unfold os at 1. repeat mstep. cbv zeta.
  generalize (w_os w (w_trace w) PthreadMutexLock). intros rc.
  destruct (Z.eqb_spec rc 0) as [Hrc|Hrc]; cbn [negb].
  2: { eexists. split; [reflexivity|]. split; [by pframe|].
       rewrite decide_False by tauto. sget. by rewrite decide_False. }
  repeat mstep. destruct out as [|o out].
  - change (pool_in_use r = 0) in Huse. rewrite Huse. cbn [Z.eqb negb]. repeat mstep.
    unfold ep_pool_entries_free. cbv beta.
    match goal with |- context [pool_entries_free_loop _ _ ?w1] => set (w2 := w1) end.
    destruct (entries_free_loop_run all (S (size (w_entries w2))) (pool_all_entries r) w2)
      as (h & Hrun & Hh); [apply Hinv|apply Hinv| |].
    { apply Nat.lt_succ_r. eapply (chain_length e_all_next); apply Hinv. }
    exists (w2 <| w_entries := h |>). split; [exact Hrun|].
    split; [unfold w2; by auto 10 with pool|]. rewrite decide_True by done. split.
    + intros e en. sget. rewrite Hh. change (w_entries w2) with (w_entries w). case_decide as Hin.
      * split; [done|]. intros [He Ho]. exfalso. apply Ho.
        rewrite (pi_perm _ _ _ _ _ _ Hinv), app_nil_r in Hin.
        pose proof (pi_free _ _ _ _ _ _ Hinv) as Hf. rewrite Forall_forall in Hf.
        destruct (Hf e Hin) as (x & Hx & Hox & _). congruence.
      * split; [|by intros []]. intros He. split; [done|]. intros Ho.
        by apply Hin, (pi_owned _ _ _ _ _ _ Hinv e en).
    + eexists. unfold w2. sget. split; [apply lookup_insert_eq|done].
  - replace (pool_in_use r =? 0) with false by (symmetry; apply Z.eqb_neq; simpl in Huse; lia).
    cbn [negb]. eexists. split; [reflexivity|]. split; [by pframe|].
    rewrite decide_False by (intros [_ ?]; done). sget. by rewrite decide_True.
Qed.

(** ** Witnesses *)

(** A pool at address 1 with a free entry 200 and an outstanding entry 100. *)
Definition demo_pool_world : world :=
  empty_world
    <| w_pools := {[1%positive := mk_afd_pool (Some 200%positive) (Some 200%positive) 64 2 2 1 1 true]} |>
    <| w_entries :=
         {[200%positive := mk_pool_entry NULL (Some 100%positive) (Some 1%positive) EP_POOL_ENTRY_MAGIC true;
           100%positive := mk_pool_entry NULL NULL (Some 1%positive) EP_POOL_ENTRY_MAGIC false]} |>.

Lemma demo_pool_rep : pool_rep demo_pool_world 1 [200%positive] [100%positive].
Proof.
  eexists _, [200%positive; 100%positive]. split; [reflexivity|]. split; [reflexivity|].
  split; try done.
  - repeat (split; [reflexivity|]; eexists; split; [reflexivity|]). done.
  - repeat (split; [reflexivity|]; eexists; split; [reflexivity|]). done.
  - repeat constructor; set_solver.
  - repeat constructor. by eexists.
  - repeat constructor. by eexists.
  - intros e en He _. unfold demo_pool_world in He. sget_in He.
    apply lookup_insert_Some in He as [[<- _]|[_ [<- _]%lookup_singleton_Some]]; set_solver.
Qed.

Lemma pool_take_refines_witness :
  exists w', ep_afd_pool_take (Some 1%positive) demo_pool_world =
      Some (Some (ep_pool_entry_buf 200), w') /\
    pool_rep w' 1 [] [200%positive; 100%positive].
Proof.
  destruct (pool_take_refines demo_pool_world 1 [200%positive] [100%positive])
    as (res & w' & Hrun & _ & Hres); [apply demo_pool_rep|simpl; lia|].
  destruct res as [b|]; [|by vm_compute in Hrun].
  destruct Hres as (e & -> & _ & [(free' & [= <- <-] & Hrep)|(? & _)]); [|done].
  by exists w'.
Defined.

Lemma pool_give_refines_witness :
  exists w', ep_afd_pool_give (Some 1%positive) (Some (ep_pool_entry_buf 100)) demo_pool_world =
      Some (tt, w') /\ pool_rep w' 1 [100%positive; 200%positive] [].
Proof.
  destruct (pool_give_refines demo_pool_world 1 [200%positive] [100%positive] 100)
    as (w' & Hrun & _ & Hres); [apply demo_pool_rep|by left|].
  exists w'. split; [done|]. simpl in Hres.
  destruct Hres as (o1 & o2 & Heq & Hrep).
  destruct o1 as [|? [|]], o2; simplify_eq/=. done.
Defined.

Lemma pool_double_give_refused_witness :
  exists w', ep_afd_pool_give (Some 1%positive) (Some (ep_pool_entry_buf 200)) demo_pool_world =
      Some (tt, w') /\ w_pools w' = w_pools demo_pool_world.
Proof.
  destruct (pool_double_give_refused demo_pool_world 1 [200%positive] [100%positive] 200)
    as (w' & Hrun & Hp & _); [apply demo_pool_rep|by left|]. by exists w'.
Defined.

(** An environment whose allocator hands out increasing addresses. *)
Definition bump_os (tr : list os_request) (r : os_request) : Z :=
  match r with Malloc _ => 1000 * (Z.of_nat (length tr) + 1) | _ => 0 end.
Definition demo_init_world : world :=
  empty_world <| w_os := bump_os |> <| w_pools := {[1%positive := zero_pool]} |>.

Lemma pool_init_all_or_nothing_witness :
  exists w' free, ep_afd_pool_init (Some 1%positive) 64 3 demo_init_world = Some (0, w') /\
    pool_rep w' 1 free [] /\ Z.of_nat (length free) = 3.
Proof.
  destruct (pool_init_all_or_nothing demo_init_world 1 zero_pool 64 3)
    as (z & w' & Hrun & _ & Hres); [reflexivity|done|lia|lia|].
  destruct Hres as [(-> & free & Hrep & Hlen & _)|(-> & _)].
  - exists w', free. split; [exact Hrun|]. split; [exact Hrep|exact Hlen].
  - exfalso. vm_compute in Hrun. discriminate Hrun.
Defined.

Lemma pool_destroy_outcome_witness :
  exists w', ep_afd_pool_destroy (Some 1%positive) demo_pool_world = Some (tt, w') /\
    w_errno w' = EBUSY.
Proof.
  destruct (pool_destroy_outcome demo_pool_world 1 [200%positive] [100%positive])
    as (w' & Hrun & _ & Hres); [apply demo_pool_rep|].
  exists w'. split; [done|]. cbv zeta in Hres. rewrite decide_False in Hres by (by intros []).
  by destruct Hres as (_ & _ & ->).
Defined.
