(* ===== verification/ReadyQueue.v ===== *)
(** * Ready queue, sequential view

    The intrusive single-consumer queue of [src/wepoll_ex_pool.c] run without
    interference: [queue_rep] relates the node heap, the head, tail and stub
    pointers and the counter to the list of queued nodes; push appends, pop
    removes the first, drain returns the first [maxevents] as a chain.  The
    interleavings of producers with the consumer are in [ReadyQueueSteps.v]. *)
From S2P Require Import Prelude Codes Types Errno Fault Links Pool.

Definition EPOLL_FD_INVALID : Z := UINT64_MAX.

Definition ep_ready_link (q : ptr) (node : ptr) (account : bool) : MW unit :=
  wr w_nodes node n_next NULL ;;
  (if account then
     queued <- rd w_queues q q_queued ;;
     wr w_queues q q_queued (u64 (queued + 1))
   else ret tt) ;;
  prev <- rd w_queues q q_head ;;
  wr w_queues q q_head node ;;
  wr w_nodes prev n_next node.

(** The compare-exchange loop decrements the counter unless it is 0. *)
Definition ep_ready_account_pop (q : ptr) : MW unit :=
  queued <- rd w_queues q q_queued ;;
  if 0 <? queued then wr w_queues q q_queued (queued - 1) else ret tt.

(** The common tail of the two successful exits. *)
Definition ready_advance (q : ptr) (tail next : ptr) : MW ptr :=
  wr w_queues q q_tail next ;;
  wr w_nodes tail n_next NULL ;;
  ep_ready_account_pop q ;;
  ret tail.

(** From the point where [tail] is not the stub and [next] is its link. *)
Definition ready_pop_from (q : ptr) (tail next : ptr) : MW ptr :=
  match next with
  | Some _ => ready_advance q tail next
  | None =>
    head <- rd w_queues q q_head ;;
    if negb (bool_decide (tail = head)) then ret NULL else
    stub <- rd w_queues q q_stub ;;
    ep_ready_link q stub false ;;
    next <- rd w_nodes tail n_next ;;
    match next with
    | None => ret NULL
    | Some _ => ready_advance q tail next
    end
  end.

Definition ep_ready_pop_one (q : ptr) : MW ptr :=
  tail <- rd w_queues q q_tail ;;
  next <- rd w_nodes tail n_next ;;
  stub <- rd w_queues q q_stub ;;
  if bool_decide (tail = stub) then
    match next with
    | None => ret NULL
    | Some _ =>
      wr w_queues q q_tail next ;;
      next' <- rd w_nodes next n_next ;;
      ready_pop_from q next next'
    end
  else ready_pop_from q tail next.

Definition zero_node : ep_ready_node := mk_ready_node NULL 0 0 0 0 0 0 0.
Definition sizeof_ready_node : Z := 56.

Definition ep_ready_init (q : ptr) : MW unit :=
  match q with
  | None => ret tt
  | Some _ =>
    st w_queues q (mk_ready_queue NULL NULL NULL 0 false) ;;
    stub <- alloc w_nodes sizeof_ready_node zero_node ;;
    wr w_queues q q_stub stub ;;
    match stub with
    | None => ep_set_errno ENOMEM
    | Some _ =>
      wr w_nodes stub n_next NULL ;;
      wr w_queues q q_head stub ;;
      wr w_queues q q_tail stub ;;
      wr w_queues q q_queued 0 ;;
      wr w_queues q q_initialized true
    end
  end.

Definition ep_ready_destroy (q : ptr) : MW unit :=
  match q with
  | None => ret tt
  | Some _ =>
    initialized <- rd w_queues q q_initialized ;;
    if negb initialized then ret tt else
    queued <- rd w_queues q q_queued ;;
    if negb (queued =? 0) then ep_set_errno EBUSY else
    wr w_queues q q_initialized false ;;
    wr w_queues q q_head NULL ;;
    wr w_queues q q_tail NULL ;;
    wr w_queues q q_queued 0 ;;
    stub <- rd w_queues q q_stub ;;
    del w_nodes stub ;;
    wr w_queues q q_stub NULL
  end.

Definition ep_ready_push (q node : ptr) : MW unit :=
  match q, node with
  | Some _, Some _ =>
    initialized <- rd w_queues q q_initialized ;;
    if negb initialized then ret tt else ep_ready_link q node true
  | _, _ => ret tt
  end.

Fixpoint ready_drain_loop (q : ptr) (n : nat) (out_head out_tail : ptr) : MW ptr :=
  match n with
  | O => ret out_head
  | S n =>
    node <- ep_ready_pop_one q ;;
    match node with
    | None => ret out_head
    | Some _ =>
      match out_tail with
      | None => ready_drain_loop q n node node
      | Some _ => wr w_nodes out_tail n_next node ;; ready_drain_loop q n out_head node
      end
    end
  end.

Definition ep_ready_drain (q : ptr) (maxevents : Z) : MW ptr :=
  match q with
  | None => ret NULL
  | Some _ =>
    if maxevents <=? 0 then ret NULL else
    initialized <- rd w_queues q q_initialized ;;
    if negb initialized then ret NULL else
    ready_drain_loop q (Z.to_nat maxevents) NULL NULL
  end.

(** Node storage comes from the port's pool; the buffer is then a node. *)
Definition ep_ready_node_alloc (port : ptr) : MW ptr :=
  match port with
  | None => ep_set_errno EFAULT ;; ret NULL
  | Some _ =>
    pool <- rd w_ports port p_ready_node_pool ;;
    buf <- ep_afd_pool_take pool ;;
    match buf with
    | None => ret NULL
    | Some n =>
      nodes <- get w_nodes ;;
      put w_nodes (<[n := mk_ready_node NULL 0 0 EPOLL_FD_INVALID 0 0 0 0]> nodes) ;;
      ret (Some n)
    end
  end.

Definition ep_ready_node_free (port n : ptr) : MW unit :=
  match port, n with
  | Some _, Some _ =>
    pool <- rd w_ports port p_ready_node_pool ;;
    ep_afd_pool_give pool n
  | _, _ => ret tt
  end.

(** ** Representation *)

(** The nodes from the tail on are [L], all links published; [items] are
    those that are not the stub. *)
Record queue_inv (r : ep_ready_queue) (h : gmap addr ep_ready_node)
    (stub : addr) (L items : list addr) : Prop := {
  qi_stub : q_stub r = Some stub;
  qi_stub_live : is_Some (h !! stub);
  qi_init : q_initialized r = true;
  qi_chain : chain (link n_next h) (q_tail r) L;
  qi_head : q_head r = last L;
  qi_nonempty : L <> [];
  qi_nodup : NoDup L;
  qi_items : items = filter (fun a => a <> stub) L;
  qi_queued : q_queued r = Z.of_nat (length items);
}.

Definition queue_rep (w : world) (q stub : addr) (items : list addr) : Prop :=
  exists r L, w_queues w !! q = Some r /\ queue_inv r (w_nodes w) stub L items.

(** Appending a node: the state after the link. *)
Lemma queue_inv_link r h stub L items node nr z zr :
  queue_inv r h stub L items -> node ∉ L -> h !! node = Some nr ->
  last L = Some z -> h !! z = Some zr ->
  let h' := <[z := zr <| n_next := Some node |>]> (<[node := nr <| n_next := NULL |>]> h) in
  forall r', q_stub r' = q_stub r -> q_initialized r' = q_initialized r ->
    q_tail r' = q_tail r -> q_head r' = Some node ->
    q_queued r' = q_queued r + (if decide (node = stub) then 0 else 1) ->
    queue_inv r' h' stub (L ++ [node])
      (items ++ if decide (node = stub) then [] else [node]).
Proof.
  intros [Hstub Hlive Hinit Hch Hhd Hne Hnd Hit Hq] Hnl Hn Hz Hzr h' r' E1 E2 E3 E4 E5.
  assert (Hzn : z <> node) by (intros ->; apply Hnl; by apply last_Some_elem_of).
  split.
  - by rewrite E1.
  - unfold h'. destruct (decide (z = stub)) as [->|]; [by rewrite lookup_insert_eq|].
    rewrite lookup_insert_ne by done.
    destruct (decide (node = stub)) as [->|]; [by rewrite lookup_insert_eq|].
    by rewrite lookup_insert_ne.
  - by rewrite E2.
  - rewrite E3. eapply chain_snoc; try done.
    + unfold h'. by rewrite link_insert_ne, link_insert_eq.
    + unfold h'. by rewrite link_insert_eq.
    + intros x Hx Hxz. unfold h'. rewrite !link_insert_ne; [done|by intros ->|done].
  - by rewrite E4, last_snoc.
  - by destruct L.
  - apply NoDup_app. split_and!; [done|by intros x Hx ->%list_elem_of_singleton|apply NoDup_singleton].
  - rewrite filter_app, Hit. f_equal. rewrite filter_cons, filter_nil.
    by repeat case_decide.
  - rewrite E5, Hq, length_app. case_decide; simpl; lia.
Qed.

Lemma queue_last_live r h stub L items :
  queue_inv r h stub L items -> exists z zr, last L = Some z /\ h !! z = Some zr /\ n_next zr = NULL.
Proof.
  intros [_ _ _ Hch _ Hne _ _ _]. destruct (last L) as [z|] eqn:Hz; [|by apply last_None in Hz].
  pose proof (chain_last_end _ _ _ _ Hch Hz) as Hl. unfold link in Hl.
  destruct (h !! z) as [zr|] eqn:E; simplify_eq/=. by exists z, zr.
Qed.

(** What queue operations touch. *)
Definition queue_frame (w w' : world) : Prop :=
  w' = w <| w_nodes := w_nodes w' |> <| w_queues := w_queues w' |>.
#[export] Instance queue_frame_preorder : PreOrder queue_frame.
Proof.
  split; [intros w; by destruct w|]. unfold queue_frame.
  intros [] [] [] -> ->. done.
Qed.
Lemma queue_frame_nodes w w' h : queue_frame w w' -> queue_frame w (w' <| w_nodes := h |>).
Proof. intros H. etrans; [exact H|]. by destruct w'. Qed.
Lemma queue_frame_queues w w' h : queue_frame w w' -> queue_frame w (w' <| w_queues := h |>).
Proof. intros H. etrans; [exact H|]. by destruct w'. Qed.
Lemma queue_frame_refl w : queue_frame w w.
Proof. reflexivity. Qed.
Create HintDb queue.
#[export] Hint Resolve queue_frame_nodes queue_frame_queues queue_frame_refl : queue.

(** Nodes outside the queue keep their contents. *)
Definition nodes_same_outside (L : list addr) (h h' : gmap addr ep_ready_node) : Prop :=
  forall a, a ∉ L -> h' !! a = h !! a.

Lemma queue_not_in r h stub L items a :
  queue_inv r h stub L items -> a ∉ items -> a <> stub -> a ∉ L.
Proof.
  intros Hinv Ha Has Hin. apply Ha. rewrite (qi_items _ _ _ _ _ Hinv).
  by apply list_elem_of_filter.
Qed.

(** Pushing a node that is not queued appends it: the queue holds the
    same nodes in the same order followed by the new one, and the counter is
    their number. *)
Theorem ready_push_appends w q stub items node :
  queue_rep w q stub items -> is_Some (w_nodes w !! node) ->
  node ∉ items -> node <> stub -> Z.of_nat (length items) < 2 ^ 64 - 1 ->
  exists w', ep_ready_push (Some q) (Some node) w = Some (tt, w') /\
    queue_frame w w' /\ queue_rep w' q stub (items ++ [node]).
Proof.
  intros (r & L & Hr & Hinv) [nr Hn] Hni Hns Hlen.
  pose proof (queue_not_in _ _ _ _ _ _ Hinv Hni Hns) as HnL.
  destruct (queue_last_live _ _ _ _ _ Hinv) as (z & zr & Hz & Hzr & _).
  pose proof (qi_queued _ _ _ _ _ Hinv) as Hq.
  assert (Hzn : z <> node) by (intros ->; apply HnL; by apply last_Some_elem_of).
  unfold ep_ready_push. repeat mstep. rewrite (qi_init _ _ _ _ _ Hinv). cbn [negb].
  unfold ep_ready_link. repeat mstep. sget.
  rewrite (qi_head _ _ _ _ _ Hinv), Hz, u64_small by lia.
  eexists. split; [eapply wr_some; mlookup|]. sget. split; [by auto 10 with queue|].
  eexists _, (L ++ [node]). split; [sget; apply lookup_insert_eq|]. sget.
  replace (items ++ [node]) with (items ++ if decide (node = stub) then [] else [node])
    by (by rewrite decide_False).
  apply (queue_inv_link r _ _ _ _ _ nr z zr Hinv HnL Hn Hz Hzr); try done; sget.
  by rewrite decide_False.
Qed.

(** Removing the first node once its successor is published. *)
Lemma ready_advance_run w q r stub a b L items :
  w_queues w !! q = Some r -> queue_inv r (w_nodes w) stub (a :: b :: L) items -> a <> stub ->
  exists w' items', items = a :: items' /\
    ready_advance (Some q) (Some a) (Some b) w = Some (Some a, w') /\
    queue_frame w w' /\ queue_rep w' q stub items' /\
    (forall x, x <> a -> w_nodes w' !! x = w_nodes w !! x) /\
    link n_next (w_nodes w') a = Some NULL.
Proof.
  intros Hr Hinv Has. pose proof Hinv as [Hstub Hlive Hinit Hch Hhd Hne Hnd Hit Hq].
  destruct Hch as [Ht (n & Hn & Hch)]. pose proof Hch as [-> _].
  unfold link in Hn. destruct (w_nodes w !! a) as [ar|] eqn:Ha; simplify_eq/=.
  rewrite filter_cons, decide_True in Hq by done. simpl in Hq.
  eexists _, (filter (fun x => x <> stub) (b :: L)).
  split; [by rewrite filter_cons, decide_True|].
  unfold ready_advance, ep_ready_account_pop. repeat mstep. sget.
  destruct (Z.ltb_spec 0 (q_queued r)); [|lia]. repeat mstep. split; [reflexivity|].
  split; [by auto 10 with queue|]. apply NoDup_cons in Hnd as [Hab Hnd]. split_and!.
  - eexists _, (b :: L). split; [sget; apply lookup_insert_eq|]. split; sget; try done.
    + destruct (decide (a = stub)) as [|]; [done|]. by rewrite lookup_insert_ne.
    + eapply chain_ext; [|exact Hch]. intros x Hx. apply link_insert_ne. by intros ->.
    + lia.
  - sget. intros x Hx. by rewrite lookup_insert_ne.
  - sget. by rewrite link_insert_eq.
Qed.

Lemma ready_pop_from_run w q r stub a L items :
  w_queues w !! q = Some r -> queue_inv r (w_nodes w) stub (a :: L) items -> a <> stub ->
  exists w' items', items = a :: items' /\
    ready_pop_from (Some q) (Some a) (head L) w = Some (Some a, w') /\
    queue_frame w w' /\ queue_rep w' q stub items' /\
    (forall x, x ∉ a :: L -> x <> stub -> w_nodes w' !! x = w_nodes w !! x) /\
    link n_next (w_nodes w') a = Some NULL.
Proof.
  intros Hr Hinv Has. destruct L as [|b L]; unfold ready_pop_from; cbn [head].
  - destruct (queue_last_live _ _ _ _ _ Hinv) as (z & zr & Hz & Hzr & Hzn). simpl in Hz. simplify_eq.
    repeat mstep. rewrite (qi_head _ _ _ _ _ Hinv). simpl last.
    rewrite bool_decide_true by done. cbn [negb]. repeat mstep.
    rewrite (qi_stub _ _ _ _ _ Hinv).
    destruct (qi_stub_live _ _ _ _ _ Hinv) as [sr Hsr].
    unfold ep_ready_link. repeat mstep. sget. rewrite (qi_head _ _ _ _ _ Hinv). simpl last.
    repeat mstep. sget. cbv iota.
    match goal with |- context [ready_advance _ _ _ ?w1] => set (w2 := w1) end.
    assert (Hinv2 : queue_inv (r <| q_head := Some stub |>) (w_nodes w2) stub ([z] ++ [stub])
              (items ++ if decide (stub = stub) then [] else [stub])).
    { unfold w2. sget. eapply (queue_inv_link r (w_nodes w)); try done; [set_solver|].
      sget. rewrite decide_True by done. lia. }
    rewrite decide_True, app_nil_r in Hinv2 by done.
    destruct (ready_advance_run w2 q (r <| q_head := Some stub |>) stub z stub [] items)
      as (w' & items' & -> & Hrun & Hf & Hrep & Hsame & Hl);
      [unfold w2; sget; apply lookup_insert_eq|done|done|].
    exists w', items'. split; [done|]. split; [exact Hrun|].
    split; [etrans; [|exact Hf]; unfold w2; by auto 10 with queue|]. split_and!; [done| |done].
    intros x Hx Hxs. rewrite Hsame by set_solver. unfold w2. sget.
    rewrite !lookup_insert_ne; [done|by intros ->|set_solver].
  - destruct (ready_advance_run w q r stub a b L items Hr Hinv Has)
      as (w' & items' & -> & Hrun & Hf & Hrep & Hsame & Hl).
    exists w', items'. split_and!; try done. intros x Hx _. apply Hsame. set_solver.
Qed.

(** One pop: nothing when the queue is empty, else the first node, detached. *)
Lemma ready_pop_one_run w q stub items :
  queue_rep w q stub items ->
  exists res w', ep_ready_pop_one (Some q) w = Some (res, w') /\ queue_frame w w' /\
    (forall x, x ∉ items -> x <> stub -> w_nodes w' !! x = w_nodes w !! x) /\
    match items with
    | [] => res = NULL /\ queue_rep w' q stub []
    | a :: items' => res = Some a /\ queue_rep w' q stub items' /\ a <> stub /\ a ∉ items' /\
                     link n_next (w_nodes w') a = Some NULL
    end.
Proof.
  intros (r & L & Hr & Hinv). pose proof Hinv as [Hstub Hlive Hinit Hch Hhd Hne Hnd Hit Hq].
  destruct L as [|a L]; [done|]. destruct Hch as [Ht (n & Hn & Hch)].
  unfold link in Hn. destruct (w_nodes w !! a) as [ar|] eqn:Ha; simplify_eq/=.
  assert (Hn : n_next ar = head L) by (destruct L; [done|by destruct Hch]).
  unfold ep_ready_pop_one. repeat mstep. rewrite Ht. repeat mstep. rewrite Hstub, Hn.
  assert (Hpop : forall r1 w1 b L1, w_queues w1 !! q = Some r1 ->
    queue_inv r1 (w_nodes w1) stub (b :: L1) (filter (fun x => x <> stub) (a :: L)) -> b <> stub ->
    (forall x, x ∈ b :: L1 -> x ∈ a :: L) -> queue_frame w w1 -> w_nodes w1 = w_nodes w ->
    exists res w', ready_pop_from (Some q) (Some b) (head L1) w1 = Some (res, w') /\ queue_frame w w' /\
    (forall x, x ∉ filter (fun x => x <> stub) (a :: L) -> x <> stub -> w_nodes w' !! x = w_nodes w !! x) /\
    match filter (fun x => x <> stub) (a :: L) with
    | [] => res = NULL /\ queue_rep w' q stub []
    | a :: items' => res = Some a /\ queue_rep w' q stub items' /\ a <> stub /\ a ∉ items' /\
                     link n_next (w_nodes w') a = Some NULL
    end).
  { intros r1 w1 b L1 Hr1 Hinv1 Hb Hsub Hf1 Hsame1.
    destruct (ready_pop_from_run w1 q r1 stub b L1 _ Hr1 Hinv1 Hb)
      as (w' & items' & Heq & Hrun & Hf & Hrep & Hsame & Hl).
    exists (Some b), w'. split; [exact Hrun|]. split; [by etrans|].
    pose proof (NoDup_filter (fun x => x <> stub) _ Hnd) as Hndf. rewrite Heq in Hndf |- *.
    apply NoDup_cons in Hndf as [Hbi _]. split; [|done].
    intros x Hx Hxs. rewrite Hsame, Hsame1; [done| |done]. intros Hin.
    apply (queue_not_in _ _ _ _ _ x Hinv1); [by rewrite Heq|done|done]. }
  case_bool_decide as Hts.
  - simplify_eq. destruct L as [|b L]; simpl head.
    + exists NULL, w. split; [done|]. split; [reflexivity|]. split; [done|].
      rewrite filter_cons, decide_False by (by intros []). rewrite filter_nil. split; [done|].
      exists r, [stub]. split; [done|].
      rewrite filter_cons, decide_False, filter_nil in Hinv by (by intros []). done.
    + repeat mstep. destruct Hch as [Hb (n & Hnb & Hch)].
      apply NoDup_cons in Hnd as [Hab Hnd]. unfold link in Hnb.
      destruct (w_nodes w !! b) as [br|] eqn:Hbr; simplify_eq/=. repeat mstep.
      replace (n_next br) with (head L) by (destruct L; [by rewrite Hch|by destruct Hch as [-> _]]).
      eapply Hpop; [sget; apply lookup_insert_eq| |set_solver|set_solver|by auto with queue|done].
      rewrite filter_cons, decide_False by (by intros []).
      split; sget; try done.
      { split; [done|]. exists (n_next br). split; [by unfold link; rewrite Hbr|done]. }
      by rewrite filter_cons, decide_False in Hq by (by intros []).
  - eapply Hpop; [done|done|by intros ->|done|reflexivity|done].
Qed.

(** Writing a node outside the queue does not disturb it. *)
Lemma queue_rep_write w q stub items z zr :
  queue_rep w q stub items -> z ∉ items -> z <> stub ->
  queue_rep (w <| w_nodes := <[z := zr]> (w_nodes w) |>) q stub items.
Proof.
  intros (r & L & Hr & Hinv) Hz Hzs. exists r, L. split; [done|].
  pose proof (queue_not_in _ _ _ _ _ _ Hinv Hz Hzs) as HzL.
  destruct Hinv as [Hstub [sr Hsr] Hinit Hch Hhd Hne Hnd Hit Hq].
  split; try done; sget.
  - by rewrite lookup_insert_ne.
  - eapply chain_ext; [|exact Hch]. intros x Hx. apply link_insert_ne. by intros ->.
Qed.

(** The nodes handed out so far: a chain from [hd] to [tl], apart from the
    queue. *)
Definition drained (w : world) (stub : addr) (items o : list addr) (hd tl : ptr) : Prop :=
  chain (link n_next (w_nodes w)) hd o /\ tl = last o /\ NoDup o /\
  Forall (fun x => x ∉ items /\ x <> stub) o.

Lemma ready_drain_loop_run q stub n : forall w items o hd tl,
  queue_rep w q stub items -> drained w stub items o hd tl ->
  exists hd' w', ready_drain_loop (Some q) n hd tl w = Some (hd', w') /\ queue_frame w w' /\
    chain (link n_next (w_nodes w')) hd' (o ++ take n items) /\
    queue_rep w' q stub (drop n items).
Proof.
  induction n as [|n IH]; intros w items o hd tl Hrep (Hch & Htl & Hnd & Hout); cbn [ready_drain_loop].
  { exists hd, w. rewrite take_0, app_nil_r, drop_0. split_and!; try done. }
  destruct (ready_pop_one_run w q stub items Hrep) as (res & w1 & Hrun & Hf & Hsame & Hres).
  erewrite bind_some by exact Hrun. cbv beta.
  assert (Hch1 : chain (link n_next (w_nodes w1)) hd o).
  { eapply chain_ext; [|exact Hch]. intros x Hx. rewrite Forall_forall in Hout.
    destruct (Hout x Hx). unfold link. by rewrite Hsame. }
  destruct items as [|a items].
  - destruct Hres as [-> Hrep1]. exists hd, w1. rewrite take_nil, app_nil_r, drop_nil. done.
  - destruct Hres as (-> & Hrep1 & Has & Hai & Hla).
    assert (Hao : a ∉ o).
    { intros Hin. rewrite Forall_forall in Hout. destruct (Hout a Hin) as [H _]. apply H. by left. }
    assert (Hout1 : Forall (fun x => x ∉ items /\ x <> stub) (o ++ [a])).
    { apply Forall_app. split; [|by repeat constructor].
      eapply Forall_impl; [exact Hout|]. set_solver. }
    assert (Hnd1 : NoDup (o ++ [a])).
    { apply NoDup_app. split_and!; [done|by intros x Hx ->%list_elem_of_singleton|apply NoDup_singleton]. }
    simpl. rewrite (cons_middle a o), app_assoc. destruct (last o) as [z|] eqn:Hz; subst tl.
    + assert (Hzo : z ∈ o) by (by apply last_Some_elem_of).
      destruct (chain_defined _ _ _ z Hch1 Hzo) as [zn Hzn]. unfold link in Hzn.
      destruct (w_nodes w1 !! z) as [zr|] eqn:Hzr; simplify_eq/=.
      repeat mstep.
      rewrite Forall_forall in Hout. destruct (Hout z Hzo) as [Hzi Hzs].
      destruct (IH (w1 <| w_nodes := <[z := zr <| n_next := Some a |>]> (w_nodes w1) |>)
                  items (o ++ [a]) hd (Some a)) as (hd' & w' & Hrun' & Hf' & Hch' & Hrep').
      * apply queue_rep_write; [done|set_solver|done].
      * split_and!; [|by rewrite last_snoc|done|done]. sget.
        eapply (chain_snoc _ _ _ _ z); [done|exact Hch1|done| |by rewrite link_insert_eq|].
        -- rewrite link_insert_ne; [done|]. by intros ->.
        -- intros x Hx Hxz. by rewrite link_insert_ne.
      * exists hd', w'. split; [exact Hrun'|]. split; [|done].
        etrans; [exact Hf|]. etrans; [|exact Hf']. by auto with queue.
    + apply last_None in Hz. subst o. destruct (IH w1 items ([] ++ [a]) (Some a) (Some a))
        as (hd' & w' & Hrun' & Hf' & Hch' & Hrep'); [done| |].
      { split_and!; [|done..]. split; [done|]. by exists NULL. }
      exists hd', w'. split; [exact Hrun'|]. split; [by etrans|]. done.
Qed.

(** C22: draining returns the oldest [maxevents] queued nodes (all of them if
    there are fewer), linked in order of arrival, and leaves the rest queued in
    order: nothing is lost, duplicated or reordered, and the stub is never
    handed out. *)
Theorem ready_drain_fifo w q stub items maxevents :
  queue_rep w q stub items ->
  exists hd w', ep_ready_drain (Some q) maxevents w = Some (hd, w') /\ queue_frame w w' /\
    chain (link n_next (w_nodes w')) hd (take (Z.to_nat maxevents) items) /\
    queue_rep w' q stub (drop (Z.to_nat maxevents) items).
Proof.
  intros Hrep. unfold ep_ready_drain. destruct (Z.leb_spec maxevents 0).
  - exists NULL, w. replace (Z.to_nat maxevents) with 0%nat by lia.
    rewrite take_0, drop_0. by split_and!.
  - pose proof Hrep as (r & L & Hr & Hinv). repeat mstep.
    rewrite (qi_init _ _ _ _ _ Hinv). cbn [negb].
    apply (ready_drain_loop_run q stub (Z.to_nat maxevents) w items [] NULL NULL Hrep).
    split_and!; [done|done|constructor|constructor].
Qed.

(** A queue is empty after initialisation, unless its stub cannot be
    allocated, and then it stays uninitialised with errno ENOMEM, so that every
    later push and drain is a no-op. *)
Theorem ready_init_outcome w q r0 :
  w_queues w !! q = Some r0 ->
  exists w', ep_ready_init (Some q) w = Some (tt, w') /\
    ((exists stub, w_nodes w !! stub = None /\ queue_rep w' q stub []) \/
     (w_errno w' = ENOMEM /\ w_nodes w' = w_nodes w /\
      forall node n, ep_ready_push (Some q) node w' = Some (tt, w') /\
                     ep_ready_drain (Some q) n w' = Some (NULL, w'))).
Proof.
  intros Hr0. unfold ep_ready_init. repeat mstep.
  edestruct (alloc_cases w_nodes sizeof_ready_node zero_node) as [tr [Ha|(a & Hna & Ha)]];
    [|erewrite bind_some by exact Ha|erewrite bind_some by exact Ha]; [done| |]; cbv beta.
  - repeat mstep. eexists. split; [reflexivity|]. right. split; [done|]. split; [done|].
    intros node n. split.
    + destruct node; [|done]. unfold ep_ready_push. by repeat mstep.
    + unfold ep_ready_drain. case_match; [done|]. by repeat mstep.
  - repeat mstep. eexists. split; [eapply wr_some; mlookup|]. left. exists a. split; [done|].
    eexists _, [a]. split; [sget; apply lookup_insert_eq|]. sget.
    split; try done; sget.
    + by rewrite lookup_insert_eq.
    + split; [done|]. exists NULL. split; [by rewrite link_insert_eq|done].
    + apply NoDup_singleton.
    + by rewrite filter_cons, decide_False, filter_nil by (by intros []).
Qed.

(** ** Witnesses *)

(** A queue at address 1 with stub 10 holding nodes 20 and 21; node 22 is not
    queued. *)
Definition demo_queue_world : world :=
  empty_world
    <| w_queues := {[1%positive := mk_ready_queue (Some 21%positive) (Some 10%positive)
                                     (Some 10%positive) 2 true]} |>
    <| w_nodes := {[10%positive := zero_node <| n_next := Some 20%positive |>;
                    20%positive := zero_node <| n_next := Some 21%positive |>;
                    21%positive := zero_node; 22%positive := zero_node]} |>.

Lemma demo_queue_rep : queue_rep demo_queue_world 1 10 [20%positive; 21%positive].
Proof.
  eexists _, [10%positive; 20%positive; 21%positive]. split; [reflexivity|].
  split; try done.
  - repeat (split; [reflexivity|]; eexists; split; [reflexivity|]). done.
  - repeat constructor; set_solver.
Qed.

Lemma ready_push_appends_witness :
  exists w', ep_ready_push (Some 1%positive) (Some 22%positive) demo_queue_world = Some (tt, w') /\
    queue_rep w' 1 10 [20%positive; 21%positive; 22%positive].
Proof.
  destruct (ready_push_appends demo_queue_world 1 10 [20%positive; 21%positive] 22)
    as (w' & Hrun & _ & Hrep); [apply demo_queue_rep|by eexists|set_solver|done|simpl; lia|].
  exists w'. split; [exact Hrun|exact Hrep].
Defined.

Lemma ready_drain_fifo_witness :
  exists hd w', ep_ready_drain (Some 1%positive) 1 demo_queue_world = Some (hd, w') /\
    chain (link n_next (w_nodes w')) hd [20%positive] /\ queue_rep w' 1 10 [21%positive].
Proof.
  destruct (ready_drain_fifo demo_queue_world 1 10 [20%positive; 21%positive] 1)
    as (hd & w' & Hrun & _ & Hch & Hrep); [apply demo_queue_rep|].
  exists hd, w'. split; [exact Hrun|]. split; [exact Hch|exact Hrep].
Defined.

Lemma ready_init_outcome_witness :
  exists w', ep_ready_init (Some 1%positive) demo_queue_world = Some (tt, w') /\ w_errno w' = ENOMEM.
Proof.
  destruct (ready_init_outcome demo_queue_world 1
    (mk_ready_queue (Some 21%positive) (Some 10%positive) (Some 10%positive) 2 true))
    as (w' & Hrun & Hres); [reflexivity|].
  exists w'. split; [exact Hrun|]. destruct Hres as [(stub & Hs & Hq)|[Herr _]]; [|exact Herr].
  exfalso. destruct Hq as (r & L & Hr & Hinv). pose proof (qi_init _ _ _ _ _ Hinv) as Hi.
  vm_compute in Hrun. injection Hrun as <-. vm_compute in Hr. injection Hr as <-. discriminate Hi.
Defined.
