(* ===== verification/ReadyQueueSteps.v ===== *)
(** * Ready queue, interleaved

    The atomic steps of [ep_ready_link] and [ep_ready_pop_one]
    ([src/wepoll_ex_pool.c]) for any number of producers and the single
    consumer, interleaved arbitrarily; each constructor of [qstep] is one atomic
    access of the code (memory is sequentially consistent).  The configuration
    carries two ghost histories: the nodes in the order their producers
    exchanged the head, and the nodes in the order the consumer returned them.
    By rule induction the second is always a prefix of the first, no producer
    still writes through a node the consumer has returned, and the counter is
    exact once every producer is done. *)
From S2P Require Import Prelude Codes.

(** Program points of a producer in [ep_ready_link(q, node, 1)]. *)
Inductive ppc :=
| PStart (node : addr)           (* before node->next = NULL *)
| PCount (node : addr)           (* before the fetch_add on queued *)
| PXchg (node : addr)            (* before the exchange of head *)
| PPublish (node prev : addr)    (* before prev->next = node *)
| PDone.

(** Program points of the consumer in [ep_ready_pop_one]. *)
Inductive cpc :=
| CIdle                          (* outside the function *)
| CLoad (t : addr)               (* skipped the stub; before the reload of t->next *)
| CHave (t : addr) (n : ptr)     (* holds tail t and its loaded link n *)
| CStubClear (t : addr)          (* t is the head: before stub->next = NULL *)
| CStubXchg (t : addr)           (* before the exchange of head with stub *)
| CStubPublish (t prev : addr)   (* before prev->next = stub *)
| CRecheck (t : addr)            (* before the last load of t->next *)
| CClear (t : addr)              (* tail advanced; before t->next = NULL *)
| CAccount (t : addr).           (* before the decrement and the return of t *)

Record qcfg := mk_qcfg {
  c_next : gmap addr ptr;
  c_head : addr;
  c_tail : addr;
  c_stub : addr;
  c_queued : Z;
  c_prods : list ppc;
  c_cons : cpc;
  c_in : list addr;
  c_out : list addr
}.
#[export] Instance eta_qcfg : Eta qcfg := fun r =>
  mk_qcfg (c_next r) (c_head r) (c_tail r) (c_stub r) (c_queued r) (c_prods r)
    (c_cons r) (c_in r) (c_out r).
#[export] Instance set_c_next : Setter c_next := ltac:(derive_setter).
#[export] Instance set_c_head : Setter c_head := ltac:(derive_setter).
#[export] Instance set_c_tail : Setter c_tail := ltac:(derive_setter).
#[export] Instance set_c_queued : Setter c_queued := ltac:(derive_setter).
#[export] Instance set_c_stub : Setter c_stub := ltac:(derive_setter).
#[export] Instance set_c_prods : Setter c_prods := ltac:(derive_setter).
#[export] Instance set_c_cons : Setter c_cons := ltac:(derive_setter).
#[export] Instance set_c_in : Setter c_in := ltac:(derive_setter).
#[export] Instance set_c_out : Setter c_out := ltac:(derive_setter).

(** The node a producer is pushing. *)
Definition active_node (p : ppc) : option addr :=
  match p with
  | PStart n | PCount n | PXchg n | PPublish n _ => Some n
  | PDone => None
  end.

(** Exchanged but not yet returned nodes. *)
Definition c_items (c : qcfg) : list addr := drop (length (c_out c)) (c_in c).

Inductive qstep : qcfg -> qcfg -> Prop :=
(* A caller that owns [node] enters ep_ready_push. *)
| step_enter c node :
    is_Some (c_next c !! node) -> node <> c_stub c -> node ∉ c_items c ->
    node ∉ omap active_node (c_prods c) ->
    qstep c (c <| c_prods := c_prods c ++ [PStart node] |>)
| step_clear c i node :
    c_prods c !! i = Some (PStart node) ->
    qstep c (c <| c_next := <[node := NULL]> (c_next c) |>
               <| c_prods := <[i := PCount node]> (c_prods c) |>)
| step_count c i node :
    c_prods c !! i = Some (PCount node) ->
    qstep c (c <| c_queued := u64 (c_queued c + 1) |>
               <| c_prods := <[i := PXchg node]> (c_prods c) |>)
| step_xchg c i node :
    c_prods c !! i = Some (PXchg node) ->
    qstep c (c <| c_head := node |> <| c_in := c_in c ++ [node] |>
               <| c_prods := <[i := PPublish node (c_head c)]> (c_prods c) |>)
| step_publish c i node prev :
    c_prods c !! i = Some (PPublish node prev) ->
    qstep c (c <| c_next := <[prev := Some node]> (c_next c) |>
               <| c_prods := <[i := PDone]> (c_prods c) |>)
(* The consumer. *)
| step_pop_empty c :
    c_cons c = CIdle -> c_tail c = c_stub c ->
    c_next c !! c_tail c = Some NULL ->
    qstep c c
| step_pop_skip c n :
    c_cons c = CIdle -> c_tail c = c_stub c ->
    c_next c !! c_tail c = Some (Some n) ->
    qstep c (c <| c_tail := n |> <| c_cons := CLoad n |>)
| step_pop_load c n :
    c_cons c = CIdle -> c_tail c <> c_stub c ->
    c_next c !! c_tail c = Some n ->
    qstep c (c <| c_cons := CHave (c_tail c) n |>)
| step_reload c t n :
    c_cons c = CLoad t -> c_next c !! t = Some n ->
    qstep c (c <| c_cons := CHave t n |>)
| step_advance c t n :
    c_cons c = CHave t (Some n) ->
    qstep c (c <| c_tail := n |> <| c_cons := CClear t |>)
| step_unpublished c t :
    c_cons c = CHave t NULL -> t <> c_head c ->
    qstep c (c <| c_cons := CIdle |>)
| step_last c t :
    c_cons c = CHave t NULL -> t = c_head c ->
    qstep c (c <| c_cons := CStubClear t |>)
| step_stub_clear c t :
    c_cons c = CStubClear t ->
    qstep c (c <| c_next := <[c_stub c := NULL]> (c_next c) |> <| c_cons := CStubXchg t |>)
| step_stub_xchg c t :
    c_cons c = CStubXchg t ->
    qstep c (c <| c_head := c_stub c |> <| c_cons := CStubPublish t (c_head c) |>)
| step_stub_publish c t prev :
    c_cons c = CStubPublish t prev ->
    qstep c (c <| c_next := <[prev := Some (c_stub c)]> (c_next c) |> <| c_cons := CRecheck t |>)
| step_recheck_none c t :
    c_cons c = CRecheck t -> c_next c !! t = Some NULL ->
    qstep c (c <| c_cons := CIdle |>)
| step_recheck_some c t n :
    c_cons c = CRecheck t -> c_next c !! t = Some (Some n) ->
    qstep c (c <| c_cons := CHave t (Some n) |>)
| step_detach c t :
    c_cons c = CClear t ->
    qstep c (c <| c_next := <[t := NULL]> (c_next c) |> <| c_cons := CAccount t |>)
| step_return c t :
    c_cons c = CAccount t ->
    qstep c (c <| c_queued := if 0 <? c_queued c then c_queued c - 1 else c_queued c |>
               <| c_cons := CIdle |> <| c_out := c_out c ++ [t] |>).

(** An initialised queue, as [ep_ready_init] leaves it, over node storage
    [nx]. *)
Definition q_initial (c : qcfg) : Prop :=
  c_head c = c_stub c /\ c_tail c = c_stub c /\ c_next c !! c_stub c = Some NULL /\
  c_queued c = 0 /\ Z.of_nat (size (c_next c)) <= UINT64_MAX /\ c_prods c = [] /\ c_cons c = CIdle /\ c_in c = [] /\ c_out c = [].

Definition reachable (c : qcfg) : Prop := exists c0, q_initial c0 /\ rtc qstep c0 c.

(** ** Segments *)

(** The nodes [L] from tail [t] to head [h] in exchange order.  A node links to
    its successor, or does not yet and the successor's producer is pending;
    [P x y] says that the write [x->next = y] is still to come. *)
Record segs (nx : gmap addr ptr) (P : addr -> addr -> Prop) (h t : addr) (L : list addr) : Prop := {
  sg_tail : head L = Some t;
  sg_head : last L = Some h;
  sg_nodup : NoDup L;
  sg_link : forall i x, L !! i = Some x ->
    match L !! S i with
    | None => nx !! x = Some NULL
    | Some y => nx !! x = Some (Some y) \/ (nx !! x = Some NULL /\ P x y)
    end;
  sg_pend : forall x y, P x y ->
    exists i, L !! i = Some x /\ L !! S i = Some y /\ nx !! x = Some NULL
}.

Section Segs.
Context {nx : gmap addr ptr} {P : addr -> addr -> Prop} {h t : addr} {L : list addr}.

Lemma segs_ext nx' (P' : addr -> addr -> Prop) :
  segs nx P h t L -> (forall x, x ∈ L -> nx' !! x = nx !! x) ->
  (forall x y, P' x y <-> P x y) -> segs nx' P' h t L.
Proof.
  intros [Ht Hh Hnd Hl Hp] Hx HP. split; try done.
  - intros i x Hi. rewrite Hx by (by eapply list_elem_of_lookup_2).
    specialize (Hl i x Hi). destruct (L !! S i); [|done]. rewrite HP. done.
  - intros x y (i & ? & ? & ?)%HP%Hp. exists i.
    rewrite Hx by (by eapply list_elem_of_lookup_2). done.
Qed.

Lemma segs_in_dom x : segs nx P h t L -> x ∈ L -> is_Some (nx !! x).
Proof.
  intros [_ _ _ Hl _] [i Hi]%list_elem_of_lookup_1. specialize (Hl i x Hi).
  destruct (L !! S i); naive_solver.
Qed.

Lemma segs_snoc n (P' : addr -> addr -> Prop) :
  segs nx P h t L -> n ∉ L -> nx !! n = Some NULL ->
  (forall x y, P' x y <-> P x y \/ (x = h /\ y = n)) ->
  segs nx P' n t (L ++ [n]).
Proof.
  intros [Ht Hh Hnd Hl Hp] Hn Hnx HP. split.
  - destruct L; [done|]. done.
  - by rewrite last_snoc.
  - apply NoDup_app. split_and!; [done|set_solver|apply NoDup_singleton].
  - intros i x Hi. destruct (decide (i < length L)%nat) as [Hlt|Hge].
    + rewrite lookup_app_l in Hi by done. specialize (Hl i x Hi).
      destruct (L !! S i) as [y|] eqn:E.
      * rewrite lookup_app_l by (by eapply lookup_lt_Some). rewrite E, HP. naive_solver.
      * apply lookup_ge_None in E. rewrite lookup_app_r by done.
        replace (S i - length L)%nat with 0%nat by lia. simpl. right. split; [done|].
        rewrite HP. right. split; [|done]. rewrite last_lookup in Hh.
        replace (pred (length L)) with i in Hh by lia. congruence.
    + rewrite lookup_app_r in Hi by lia. apply list_lookup_singleton_Some in Hi as [Hi <-].
      replace ((L ++ [n]) !! S i) with (@None addr); [done|]. symmetry.
      apply lookup_ge_None. rewrite length_app. simpl. lia.
  - intros x y [(i & Hi & Hs & Hx)%Hp|[-> ->]]%HP.
    + exists i. rewrite !lookup_app_l by (by eapply lookup_lt_Some). done.
    + rewrite last_lookup in Hh. exists (pred (length L)).
      assert (L <> []) by (by intros ->). assert (length L <> 0%nat) by (by destruct L).
      rewrite lookup_app_l by lia. split; [done|]. rewrite lookup_app_r by lia.
      replace (S (pred (length L)) - length L)%nat with 0%nat by lia. split; [done|].
      specialize (Hl _ _ Hh). replace (L !! S (pred (length L))) with (@None addr) in Hl; [done|].
      symmetry. apply lookup_ge_None. lia.
Qed.

Lemma segs_publish x y (P' : addr -> addr -> Prop) :
  segs nx P h t L -> P x y ->
  (forall a b, P' a b <-> P a b /\ b <> y) ->
  segs (<[x := Some y]> nx) P' h t L.
Proof.
  intros [Ht Hh Hnd Hl Hp] Hxy HP. destruct (Hp x y Hxy) as (k & Hk & Hsk & Hxk).
  split; try done.
  - intros i a Hi. destruct (decide (a = x)) as [->|Hne].
    + assert (i = k) as -> by (by eapply NoDup_lookup). rewrite Hsk.
      left. by rewrite lookup_insert_eq.
    + rewrite lookup_insert_ne by done. specialize (Hl i a Hi).
      destruct (L !! S i) as [b|] eqn:E; [|done]. destruct Hl as [?|[? ?]]; [by left|].
      right. split; [done|]. apply HP. split; [done|]. intros ->.
      assert (S i = S k) as [= ->] by (by eapply NoDup_lookup). naive_solver.
  - intros a b [(i & Hi & Hs & Ha)%Hp Hb]%HP. exists i. split_and!; [done|done|].
    rewrite lookup_insert_ne; [done|]. intros <-.
    assert (i = k) as -> by (by eapply NoDup_lookup). naive_solver.
Qed.

(** A written link of the tail lets the tail advance. *)
Lemma segs_drop n :
  segs nx P h t L -> nx !! t = Some (Some n) ->
  exists L', L = t :: n :: L' /\ segs nx P h n (n :: L').
Proof.
  intros [Ht Hh Hnd Hl Hp] Hn. destruct L as [|t' L0]; [done|]. simpl in Ht. simplify_eq.
  pose proof (Hl 0%nat t eq_refl) as H0. simpl in H0.
  destruct L0 as [|n' L']; simpl in H0; [congruence|].
  assert (n' = n) as -> by naive_solver. exists L'. split; [done|].
  apply NoDup_cons in Hnd as [Hnt Hnd]. split; try done.
  - intros i x Hi. apply (Hl (S i) x Hi).
  - intros x y ([|i] & Hi & Hs & Hx)%Hp; simpl in *; [|by exists i]. simplify_eq.
Qed.

Lemma segs_single : segs nx P h t L -> t = h -> L = [t].
Proof.
  intros [Ht Hh Hnd _ _] ->. destruct L as [|a [|b L']]; simpl in Ht; simplify_eq; [done|].
  exfalso. apply NoDup_cons in Hnd as [Hn _]. apply Hn.
  apply last_Some_elem_of. done.
Qed.
End Segs.

(** ** Invariant *)

(** [y] was exchanged behind [x] but [x]'s link is not yet written. *)
Definition pend (c : qcfg) (x y : addr) : Prop :=
  PPublish y x ∈ c_prods c \/ (y = c_stub c /\ exists t, c_cons c = CStubPublish t x).

(** Not yet exchanged nodes, those whose link is cleared, and those already
    counted. *)
Definition private_node (p : ppc) : option addr :=
  match p with PStart n | PCount n | PXchg n => Some n | _ => None end.
Definition cleared_node (p : ppc) : option addr :=
  match p with PCount n | PXchg n => Some n | _ => None end.
Definition counted_node (p : ppc) : option addr :=
  match p with PXchg n => Some n | _ => None end.

(** The node the consumer has unlinked and not yet returned. *)
Definition unlinked (k : cpc) : list addr :=
  match k with CClear t | CAccount t => [t] | _ => [] end.

(** What the consumer's program point guarantees about the live nodes [L]. *)
Definition cons_ok (c : qcfg) (L : list addr) : Prop :=
  match c_cons c with
  | CIdle => True
  | CLoad t | CHave t None | CRecheck t | CStubPublish t _ => c_tail c = t /\ t <> c_stub c
  | CHave t (Some n) => c_tail c = t /\ t <> c_stub c /\ c_next c !! t = Some (Some n)
  | CStubClear t => c_tail c = t /\ t <> c_stub c /\ c_stub c ∉ L
  | CStubXchg t => c_tail c = t /\ t <> c_stub c /\ c_stub c ∉ L /\ c_next c !! c_stub c = Some NULL
  | CClear t | CAccount t => t ∉ L /\ t <> c_stub c /\ is_Some (c_next c !! t)
  end.

Definition real (c : qcfg) (L : list addr) : list addr := filter (fun a => a <> c_stub c) L.

Record live (c : qcfg) (L : list addr) : Prop := {
  lv_segs : segs (c_next c) (pend c) (c_head c) (c_tail c) L;
  lv_active : NoDup (omap active_node (c_prods c));
  lv_private : forall n, n ∈ omap private_node (c_prods c) ->
    n ∉ L /\ n <> c_stub c /\ n ∉ unlinked (c_cons c) /\ is_Some (c_next c !! n);
  lv_cleared : forall n, n ∈ omap cleared_node (c_prods c) -> c_next c !! n = Some NULL;
  lv_publish : forall y x, PPublish y x ∈ c_prods c -> y <> c_stub c;
  lv_stub : is_Some (c_next c !! c_stub c);
  lv_cons : cons_ok c L;
  lv_hist : c_in c = c_out c ++ unlinked (c_cons c) ++ real c L;
  lv_size : Z.of_nat (size (c_next c)) <= UINT64_MAX;
  lv_count : c_queued c = Z.of_nat (length (unlinked (c_cons c)) + length (real c L)
               + length (omap counted_node (c_prods c)))
}.

(** ** Producers *)

Lemma prods_split {A} (l : list A) i p :
  l !! i = Some p ->
  exists l1 l2, l = l1 ++ p :: l2 /\ forall q, <[i := q]> l = l1 ++ q :: l2.
Proof.
  intros Hi. exists (take i l), (drop (S i) l). split; [by rewrite take_drop_middle|].
  intros q. by rewrite insert_take_drop by (by eapply lookup_lt_Some).
Qed.

Lemma omap_active {f : ppc -> option addr} (l : list ppc) n :
  (forall p m, f p = Some m -> active_node p = Some m) ->
  n ∈ omap f l -> n ∈ omap active_node l.
Proof. rewrite !list_elem_of_omap. naive_solver. Qed.

Lemma publish_active (l : list ppc) y x : PPublish y x ∈ l -> y ∈ omap active_node l.
Proof. intros. apply list_elem_of_omap. by exists (PPublish y x). Qed.

(** The consumer's guarantee survives the steps of producers. *)
Lemma cons_ok_step c c' L L' :
  c_cons c' = c_cons c -> c_tail c' = c_tail c -> c_stub c' = c_stub c ->
  (forall x, is_Some (c_next c !! x) -> is_Some (c_next c' !! x)) ->
  (forall n, c_next c !! c_tail c = Some (Some n) -> c_next c' !! c_tail c = Some (Some n)) ->
  (c_stub c ∉ L -> c_next c !! c_stub c = Some NULL -> c_next c' !! c_stub c = Some NULL) ->
  (forall x, x = c_stub c \/ x ∈ unlinked (c_cons c) -> x ∉ L -> x ∉ L') ->
  cons_ok c L -> cons_ok c' L'.
Proof.
  intros Ek Et Es Hd Htl Hstub HL. unfold cons_ok. rewrite Ek, Et, Es.
  destruct (c_cons c) as [|t|t [n|]|t|t|t p|t|t|t]; 
    simpl in *; intros Hk; destruct_and?; split_and?; subst; try done; eauto;
    apply HL; eauto using list_elem_of_singleton; right; by apply list_elem_of_singleton.
Qed.

Lemma insert_dom_mono (m : gmap addr ptr) a v x :
  is_Some (m !! x) -> is_Some (<[a := v]> m !! x).
Proof. rewrite lookup_insert_is_Some'. by right. Qed.

Lemma size_insert_same (m : gmap addr ptr) a v :
  is_Some (m !! a) -> size (<[a := v]> m) = size m.
Proof. intros [u Hu]. by rewrite map_size_insert, Hu. Qed.

(** Split the producers at the one that steps. *)
Ltac producer :=
  match goal with
  | H : c_prods _ !! _ = Some _ |- _ =>
    let l1 := fresh "l1" in let l2 := fresh "l2" in
    let E := fresh "Eprods" in let Ei := fresh "Eins" in
    apply prods_split in H as (l1 & l2 & E & Ei); rewrite Ei; clear Ei
  end.

(** Reduce the views of the producers at the split. *)
Ltac views :=
  repeat match goal with
  | H : context [omap _ (_ ++ _)] |- _ => rewrite omap_app in H; simpl in H
  | |- context [omap _ (_ ++ _)] => rewrite omap_app; simpl
  end.

(** The node of the stepping producer belongs to no other producer. *)
Lemma active_mid (l1 : list ppc) p l2 n :
  NoDup (omap active_node (l1 ++ p :: l2)) -> active_node p = Some n ->
  n ∉ omap active_node l1 /\ n ∉ omap active_node l2.
Proof.
  rewrite omap_app. intros Hnd Hp. simpl in Hnd. rewrite Hp in Hnd.
  apply NoDup_app in Hnd as (_ & Hd & [Hn _]%NoDup_cons). set_solver.
Qed.

Lemma live_enter c L node :
  live c L -> is_Some (c_next c !! node) -> node <> c_stub c -> node ∉ c_items c ->
  node ∉ omap active_node (c_prods c) ->
  live (c <| c_prods := c_prods c ++ [PStart node] |>) L.
Proof.
  intros [Hs Ha Hp Hc Hpub Hst Hk Hh Hz Hn] Hd Hns Hni Hna.
  assert (Hitems : c_items c = unlinked (c_cons c) ++ real c L).
  { unfold c_items. by rewrite Hh, drop_app_length. }
  rewrite Hitems in Hni. unfold real in Hni.
  assert (node ∉ L /\ node ∉ unlinked (c_cons c)) as [HnL Hnu].
  { rewrite elem_of_app, list_elem_of_filter in Hni. tauto. }
  split; sget; try done.
  - eapply segs_ext; [done|done|]. intros x y. unfold pend. sget. set_solver.
  - views. apply NoDup_app. split_and!; [done|set_solver|apply NoDup_singleton].
  - intros n. views. rewrite elem_of_app. intros [?|Heq%list_elem_of_singleton]; [by apply Hp|by subst].
  - intros n. views. rewrite app_nil_r. apply Hc.
  - intros y x. rewrite elem_of_app. intros [?|?%list_elem_of_singleton]; [by eapply Hpub|done].
  - views. rewrite app_nil_r. done.
Qed.

Lemma live_clear c L i node :
  live c L -> c_prods c !! i = Some (PStart node) ->
  live (c <| c_next := <[node := NULL]> (c_next c) |>
          <| c_prods := <[i := PCount node]> (c_prods c) |>) L.
Proof.
  intros [Hs Ha Hp Hc Hpub Hst Hk Hh Hz Hn] Hi. producer.
  assert (Hnode : node ∈ omap private_node (c_prods c)) by (rewrite Eprods; views; set_solver).
  destruct (Hp node Hnode) as (HnL & Hns & Hnu & Hd).
  split; sget; rewrite ?lookup_insert_ne by done; try done.
  - eapply segs_ext; [done| |].
    + intros x Hx. rewrite lookup_insert_ne; [done|]. by intros ->.
    + intros x y. unfold pend. sget. rewrite Eprods. set_solver.
  - rewrite Eprods in Ha. views. done.
  - intros n Hin. destruct (Hp n) as (? & ? & ? & ?); [rewrite Eprods; views; done|].
    split_and!; try done. destruct (decide (n = node)) as [->|];
      [by rewrite lookup_insert_eq|by rewrite lookup_insert_ne].
  - intros n Hin. destruct (decide (n = node)) as [->|]; [by rewrite lookup_insert_eq|].
    rewrite lookup_insert_ne by done. apply Hc. rewrite Eprods. views. set_solver.
  - intros y x Hin. apply (Hpub y x). rewrite Eprods. set_solver.
  - eapply cons_ok_step; [..|exact Hk]; sget; try done.
    + intros; by apply insert_dom_mono.
    + intros n Hnx. rewrite lookup_insert_ne; [done|]. intros ->. apply HnL.
      apply head_Some_elem_of, (sg_tail _ _ _ _ _ Hs).
    + intros. by rewrite lookup_insert_ne.
  - by rewrite size_insert_same.
  - rewrite Eprods in Hn. views. done.
Qed.

Lemma NoDup_omap_sub {A} (f g : A -> option addr) (l : list A) :
  (forall p m, f p = Some m -> g p = Some m) -> NoDup (omap g l) -> NoDup (omap f l).
Proof.
  intros Hfg. induction l as [|p l IH]; simpl; [done|].
  destruct (f p) as [m|] eqn:E; [rewrite (Hfg _ _ E)|].
  - intros [Hn Hnd]%NoDup_cons. apply NoDup_cons. split; [|by apply IH].
    intros (q & Hq & Hfq)%list_elem_of_omap. apply Hn, list_elem_of_omap. eauto.
  - destruct (g p); [intros [_ ?]%NoDup_cons|]; by apply IH.
Qed.

Lemma nodup_in_dom (m : gmap addr ptr) l :
  NoDup l -> (forall x, x ∈ l -> is_Some (m !! x)) -> (length l <= size m)%nat.
Proof.
  intros Hnd Hd. rewrite <- (size_list_to_set (C := gset addr) l Hnd), <- size_dom.
  apply subseteq_size. intros a Ha%elem_of_list_to_set. by apply elem_of_dom, Hd.
Qed.

(** A node that is not yet counted is one more node of the storage. *)
Lemma live_room c L l1 l2 node :
  live c L -> c_prods c = l1 ++ PCount node :: l2 -> c_queued c + 1 <= UINT64_MAX.
Proof.
  intros [Hs Ha Hp Hc Hpub Hst Hk Hh Hz Hn] E.
  assert (Hpn : forall n, n ∈ node :: omap counted_node (c_prods c) ->
                          n ∈ omap private_node (c_prods c)).
  { intros n. rewrite elem_of_cons, !list_elem_of_omap. intros [->|(p & Hin & Hf)].
    - exists (PCount node). rewrite E. set_solver.
    - exists p. split; [done|]. by destruct p. }
  assert (Hl : (length (node :: unlinked (c_cons c) ++ real c L ++
                          omap counted_node (c_prods c)) <= size (c_next c))%nat).
  { apply nodup_in_dom.
    - assert (Hreal : forall x, x ∈ real c L -> x ∈ L)
        by (intros x [_ ?]%list_elem_of_filter; done).
      apply NoDup_cons. split.
      { destruct (Hp node) as (? & ? & ? & ?); [apply Hpn; by left|].
        destruct (active_mid l1 (PCount node) l2 node) as [Ho1 Ho2]; [by rewrite <- E|done|].
        rewrite !elem_of_app, E. views. rewrite elem_of_app.
        intros [?|[?|[?|?]]]; [done|by auto| |];
          [apply Ho1|apply Ho2]; (eapply omap_active; [|done]); intros []; naive_solver. }
      rewrite !NoDup_app. split_and!.
      + destruct (c_cons c); simpl; first [apply NoDup_singleton|constructor].
      + intros x Hx. assert (x ∉ L).
        { revert Hk Hx. unfold cons_ok. destruct (c_cons c); simpl; set_solver. }
        rewrite elem_of_app. intros [?|?]; [by auto|].
        destruct (Hp x) as (? & ? & ? & ?); [apply Hpn; by right|done].
      + apply NoDup_filter, (sg_nodup _ _ _ _ _ Hs).
      + intros x Hx%Hreal Hy. destruct (Hp x) as (? & ? & ? & ?); [apply Hpn; by right|done].
      + eapply NoDup_omap_sub; [|exact Ha]. intros []; naive_solver.
    - intros x [->|Hx]%elem_of_cons; [apply Hp, Hpn; by left|].
      apply elem_of_app in Hx as [Hx|[[_ Hx]%list_elem_of_filter|Hx]%elem_of_app].
      + revert Hk Hx. unfold cons_ok. destruct (c_cons c); simpl; set_solver.
      + by eapply segs_in_dom.
      + apply Hp, Hpn. by right. }
  simpl in Hl. rewrite !length_app in Hl. lia.
Qed.

Lemma live_count c L i node :
  live c L -> c_prods c !! i = Some (PCount node) ->
  live (c <| c_queued := u64 (c_queued c + 1) |>
          <| c_prods := <[i := PXchg node]> (c_prods c) |>) L.
Proof.
  intros Hlive Hi. producer. pose proof (live_room _ _ _ _ _ Hlive Eprods) as Hroom.
  destruct Hlive as [Hs Ha Hp Hc Hpub Hst Hk Hh Hz Hn]. rewrite Eprods in *. views.
  split; sget; views; try done.
  - eapply segs_ext; [done|done|]. intros x y. unfold pend. sget. rewrite Eprods. set_solver.
  - intros y x Hin. apply (Hpub y x). set_solver.
  - unfold real in *. sget. rewrite u64_small by (unfold UINT64_MAX in Hroom; lia). rewrite Hn. rewrite !length_app. simpl. lia.
Qed.

Lemma live_xchg c L i node :
  live c L -> c_prods c !! i = Some (PXchg node) ->
  live (c <| c_head := node |> <| c_in := c_in c ++ [node] |>
          <| c_prods := <[i := PPublish node (c_head c)]> (c_prods c) |>) (L ++ [node]).
Proof.
  intros [Hs Ha Hp Hc Hpub Hst Hk Hh Hz Hn] Hi. producer.
  destruct (Hp node) as (HnL & Hns & Hnu & Hd); [rewrite Eprods; views; set_solver|].
  destruct (active_mid l1 (PXchg node) l2 node) as [Ho1 Ho2]; [by rewrite <- Eprods|done|].
  split; sget; try done.
  - eapply segs_snoc; [exact Hs|done| |].
    + apply Hc. rewrite Eprods. views. set_solver.
    + intros x y. unfold pend. sget. rewrite Eprods.
      rewrite !elem_of_app, !elem_of_cons. naive_solver.
  - rewrite Eprods in Ha. views. done.
  - intros n. views. intros Hin.
    destruct (Hp n) as (? & ? & ? & ?); [rewrite Eprods; views; set_solver|].
    split_and!; try done. rewrite not_elem_of_app, list_elem_of_singleton. split; [done|].
    intros ->. apply elem_of_app in Hin as [?|?]; [apply Ho1|apply Ho2];
      (eapply omap_active; [|done]); intros []; naive_solver.
  - intros n. views. intros Hin. apply Hc. rewrite Eprods. views. set_solver.
  - intros y x. rewrite elem_of_app, elem_of_cons. intros [?|[[= -> ->]|?]]; [|done|];
      apply (Hpub y x); rewrite Eprods; set_solver.
  - eapply cons_ok_step; [..|exact Hk]; sget; try done. set_solver.
  - rewrite Hh. unfold real. sget. rewrite filter_app, filter_cons_True, filter_nil by done.
    by rewrite !app_assoc.
  - rewrite Hn, Eprods. views. unfold real. sget.
    rewrite filter_app, filter_cons_True, filter_nil by done. rewrite !length_app. simpl. lia.
Qed.

Lemma live_publish c L i node prev :
  live c L -> c_prods c !! i = Some (PPublish node prev) ->
  live (c <| c_next := <[prev := Some node]> (c_next c) |>
          <| c_prods := <[i := PDone]> (c_prods c) |>) L.
Proof.
  intros [Hs Ha Hp Hc Hpub Hst Hk Hh Hz Hn] Hi. producer.
  destruct (active_mid l1 (PPublish node prev) l2 node) as [Ho1 Ho2]; [by rewrite <- Eprods|done|].
  assert (Hpend : pend c prev node) by (left; rewrite Eprods; set_solver).
  destruct (sg_pend _ _ _ _ _ Hs _ _ Hpend) as (k & Hk1 & Hk2 & Hprev).
  apply list_elem_of_lookup_2 in Hk1.
  assert (Hns : node <> c_stub c) by (apply (Hpub node prev); rewrite Eprods; set_solver).
  split; sget; try done.
  - eapply segs_publish; [done|done|]. intros x y. unfold pend. sget. rewrite Eprods.
    rewrite !elem_of_app, !elem_of_cons. split.
    + intros [[?|[?|?]]|[-> ?]]; try done; (split; [by auto|]); try done;
        intros ->; [by eapply Ho1, publish_active|by eapply Ho2, publish_active].
    + intros [[[?|[?|?]]|?] Hne]; try naive_solver.
  - rewrite Eprods in Ha. views. apply NoDup_app in Ha as (? & Hd & [? ?]%NoDup_cons).
    apply NoDup_app. set_solver.
  - intros n. views. intros Hin.
    destruct (Hp n) as (? & ? & ? & ?); [rewrite Eprods; views; done|].
    split_and!; try done. by apply insert_dom_mono.
  - intros n. views. intros Hin.
    destruct (Hp n) as (? & ? & ? & ?).
    { rewrite Eprods. views. rewrite elem_of_app, !list_elem_of_omap in *.
      destruct Hin as [(p & ? & ?)|(p & ? & ?)]; [left|right]; exists p; by destruct p. }
    rewrite lookup_insert_ne by set_solver. apply Hc. rewrite Eprods. views. done.
  - intros y x Hin. apply (Hpub y x). rewrite Eprods. set_solver.
  - by apply insert_dom_mono.
  - eapply cons_ok_step; [..|exact Hk]; sget; try done.
    + intros; by apply insert_dom_mono.
    + intros n Hnx. rewrite lookup_insert_ne; [done|]. congruence.
    + intros Hnl. rewrite lookup_insert_ne; [done|]. by intros ->.
  - rewrite size_insert_same; by eauto.
  - rewrite Hn, Eprods. views. done.
Qed.

(** ** The consumer *)

Definition publishing (k : cpc) : Prop := exists t x, k = CStubPublish t x.

(** A step that moves only the consumer's program point. *)
Lemma live_goto c L k :
  live c L -> ~ publishing (c_cons c) -> ~ publishing k ->
  unlinked k = unlinked (c_cons c) -> cons_ok (c <| c_cons := k |>) L ->
  live (c <| c_cons := k |>) L.
Proof.
  intros [Hs Ha Hp Hc Hpub Hst _ Hh Hz Hn] H1 H2 E Hk.
  split; sget; rewrite ?E; try done.
  eapply segs_ext; [done|done|]. intros x y. unfold pend, publishing in *. sget.
  split; intros [?|(? & t & ?)]; try (by left); exfalso; eauto.
Qed.

(** The tail moves past the stub or past the node it unlinks. *)
Lemma live_advance c L n k :
  live c L -> ~ publishing (c_cons c) -> ~ publishing k ->
  c_next c !! c_tail c = Some (Some n) -> unlinked (c_cons c) = [] ->
  unlinked k = (if decide (c_tail c = c_stub c) then [] else [c_tail c]) ->
  (forall L', L = c_tail c :: n :: L' -> c_tail c ∉ n :: L' ->
     cons_ok (c <| c_tail := n |> <| c_cons := k |>) (n :: L')) ->
  exists L', live (c <| c_tail := n |> <| c_cons := k |>) L'.
Proof.
  intros [Hs Ha Hp Hc Hpub Hst _ Hh Hz Hn] H1 H2 Hnx E Ek Hk.
  destruct (segs_drop n Hs Hnx) as (L' & -> & Hs'). exists (n :: L').
  pose proof (sg_nodup _ _ _ _ _ Hs) as [Hnt _]%NoDup_cons.
  assert (Hreal : unlinked (c_cons c) ++ real c (c_tail c :: n :: L') =
                  unlinked k ++ real c (n :: L')).
  { rewrite E, Ek. unfold real. rewrite filter_cons. simpl. repeat case_decide; naive_solver. }
  split; sget; try done.
  - eapply segs_ext; [done|done|]. intros x y. unfold pend, publishing in *. sget.
    split; intros [?|(? & t & ?)]; try (by left); exfalso; eauto.
  - intros m Hm. destruct (Hp m Hm) as (HmL & ? & ? & ?). split_and!; try done.
    + set_solver.
    + rewrite Ek. case_decide; set_solver.
  - by apply Hk.
  - rewrite Hh. f_equal. exact Hreal.
  - rewrite Hn. apply (f_equal length) in Hreal. rewrite !length_app in Hreal.
    unfold real in *. sget. lia.
Qed.

Lemma live_stub_clear c L t :
  live c L -> c_cons c = CStubClear t ->
  live (c <| c_next := <[c_stub c := NULL]> (c_next c) |> <| c_cons := CStubXchg t |>) L.
Proof.
  intros [Hs Ha Hp Hc Hpub Hst Hk Hh Hz Hn] Ek. unfold cons_ok in Hk. rewrite Ek in *.
  destruct Hk as (Ht & Hts & HsL). split; sget; try done.
  - eapply segs_ext; [done| |].
    + intros x Hx. rewrite lookup_insert_ne; [done|]. congruence.
    + intros x y. unfold pend. sget. rewrite Ek. naive_solver.
  - intros m Hm. destruct (Hp m Hm) as (? & ? & ? & ?). split_and!; try done.
    by apply insert_dom_mono.
  - intros m Hm. destruct (decide (m = c_stub c)) as [->|]; [by rewrite lookup_insert_eq|].
    rewrite lookup_insert_ne by done. by apply Hc.
  - by apply insert_dom_mono.
  - unfold cons_ok. sget. by rewrite lookup_insert_eq.
  - by rewrite size_insert_same.
Qed.

Lemma live_stub_xchg c L t :
  live c L -> c_cons c = CStubXchg t ->
  live (c <| c_head := c_stub c |> <| c_cons := CStubPublish t (c_head c) |>) (L ++ [c_stub c]).
Proof.
  intros [Hs Ha Hp Hc Hpub Hst Hk Hh Hz Hn] Ek. unfold cons_ok in Hk. rewrite Ek in *.
  destruct Hk as (Ht & Hts & HsL & Hnull).
  assert (Hreal : real c (L ++ [c_stub c]) = real c L).
  { unfold real. rewrite filter_app, filter_cons_False, filter_nil by auto. apply app_nil_r. }
  split; sget; try done.
  - eapply segs_snoc; [exact Hs|done|done|]. intros x y. unfold pend. sget. rewrite Ek.
    naive_solver.
  - intros m Hm. destruct (Hp m Hm) as (? & ? & ? & ?). split_and!; try done. set_solver.
  - rewrite Hh. simpl. f_equal. symmetry. exact Hreal.
  - rewrite Hn, <- Hreal. reflexivity.
Qed.

Lemma live_stub_publish c L t prev :
  live c L -> c_cons c = CStubPublish t prev ->
  live (c <| c_next := <[prev := Some (c_stub c)]> (c_next c) |> <| c_cons := CRecheck t |>) L.
Proof.
  intros [Hs Ha Hp Hc Hpub Hst Hk Hh Hz Hn] Ek.
  assert (Hpend : pend c prev (c_stub c)) by (right; eauto).
  destruct (sg_pend _ _ _ _ _ Hs _ _ Hpend) as (i & Hi1 & Hi2 & Hprev).
  apply list_elem_of_lookup_2 in Hi1. unfold cons_ok in Hk. rewrite Ek in *.
  split; sget; try done.
  - eapply segs_publish; [done|done|]. intros x y. unfold pend. sget. rewrite Ek. split.
    + intros [Hin|(_ & ? & ?)]; [|done]. split; [by left|]. by eapply Hpub.
    + intros [[?|(-> & _)] ?]; [by left|done].
  - intros m Hm. destruct (Hp m Hm) as (? & ? & ? & ?). split_and!; try done.
    by apply insert_dom_mono.
  - intros m Hm. rewrite lookup_insert_ne; [by apply Hc|]. intros ->.
    destruct (Hp m) as (? & _); [|done]. rewrite list_elem_of_omap in *.
    destruct Hm as (p & ? & ?). exists p. by destruct p.
  - by apply insert_dom_mono.
  - rewrite size_insert_same; by eauto.
Qed.

Lemma live_detach c L t :
  live c L -> c_cons c = CClear t ->
  live (c <| c_next := <[t := NULL]> (c_next c) |> <| c_cons := CAccount t |>) L.
Proof.
  intros [Hs Ha Hp Hc Hpub Hst Hk Hh Hz Hn] Ek. unfold cons_ok in Hk. rewrite Ek in *.
  destruct Hk as (HtL & Hts & Hd). split; sget; try done.
  - eapply segs_ext; [done| |].
    + intros x Hx. rewrite lookup_insert_ne; [done|]. congruence.
    + intros x y. unfold pend. sget. rewrite Ek. naive_solver.
  - intros m Hm. destruct (Hp m Hm) as (? & ? & ? & ?). split_and!; try done.
    by apply insert_dom_mono.
  - intros m Hm. destruct (decide (m = t)) as [->|]; [by rewrite lookup_insert_eq|].
    rewrite lookup_insert_ne by done. by apply Hc.
  - by apply insert_dom_mono.
  - unfold cons_ok. sget. split_and!; [done|done|]. by apply insert_dom_mono.
  - by rewrite size_insert_same.
Qed.

Lemma live_return c L t :
  live c L -> c_cons c = CAccount t ->
  live (c <| c_queued := if 0 <? c_queued c then c_queued c - 1 else c_queued c |>
          <| c_cons := CIdle |> <| c_out := c_out c ++ [t] |>) L.
Proof.
  intros [Hs Ha Hp Hc Hpub Hst Hk Hh Hz Hn] Ek. unfold cons_ok in Hk. rewrite Ek in *.
  simpl in *. split; sget; try done.
  - eapply segs_ext; [done|done|]. intros x y. unfold pend. sget. rewrite Ek. naive_solver.
  - intros m Hm. destruct (Hp m Hm) as (? & ? & ? & ?). split_and!; try done. set_solver.
  - rewrite Hh, <- app_assoc. done.
  - destruct (Z.ltb_spec 0 (c_queued c)); unfold real in *; sget; simpl; lia.
Qed.

Lemma live_step c c' L : live c L -> qstep c c' -> exists L', live c' L'.
Proof.
  intros Hl Hstep. pose proof (lv_cons _ _ Hl) as Hk. unfold cons_ok in Hk.
  assert (Hgo : forall k, ~ publishing (c_cons c) -> ~ publishing k ->
    unlinked k = unlinked (c_cons c) -> cons_ok (c <| c_cons := k |>) L ->
    exists L', live (c <| c_cons := k |>) L') by (intros; exists L; by apply live_goto).
  destruct Hstep; try match goal with E : c_cons _ = _ |- _ => rewrite E in Hk, Hgo end;
    destruct_and?.
  - exists L. by apply live_enter.
  - exists L. by apply live_clear.
  - exists L. by apply live_count.
  - eexists. by apply live_xchg.
  - exists L. by apply live_publish.
  - by exists L.
  - eapply live_advance; eauto; try (by intros (? & ? & ?)); try (by rewrite H).
    + by rewrite H; intros (? & ? & ?).
    + by rewrite decide_True.
    + intros L' -> Hni. unfold cons_ok. sget. split; [done|]. rewrite <- H0. set_solver.
  - apply Hgo; [by intros (? & ? & ?)|by intros (? & ? & ?)|done|]. unfold cons_ok. sget. by destruct n.
  - apply Hgo; [by intros (? & ? & ?)|by intros (? & ? & ?)|done|]. unfold cons_ok. sget. destruct n; by subst.
  - subst t. eapply live_advance; eauto; try (by intros (? & ? & ?)); try (by rewrite H).
    + by rewrite H; intros (? & ? & ?).
    + by rewrite decide_False.
    + intros L' -> Hni. unfold cons_ok. sget. split_and!; [done|done|]. by eauto.
  - apply Hgo; [by intros (? & ? & ?)|by intros (? & ? & ?)|done|done].
  - apply Hgo; [by intros (? & ? & ?)|by intros (? & ? & ?)|done|]. unfold cons_ok. sget. split_and!; [done|done|].
    assert (L = [c_tail c]) as ->.
    { eapply segs_single; [exact (lv_segs _ _ Hl)|congruence]. }
    rewrite list_elem_of_singleton. congruence.
  - exists L. by apply live_stub_clear.
  - eexists. by apply live_stub_xchg.
  - exists L. by apply live_stub_publish.
  - apply Hgo; [by intros (? & ? & ?)|by intros (? & ? & ?)|done|done].
  - apply Hgo; [by intros (? & ? & ?)|by intros (? & ? & ?)|done|]. unfold cons_ok. sget. by split_and!.
  - exists L. by apply live_detach.
  - exists L. by apply live_return.
Qed.

Lemma live_reachable c : reachable c -> exists L, live c L.
Proof.
  intros (c0 & Hi & Hsteps).
  assert (H0 : exists L, live c0 L).
  { destruct Hi as (Hh & Ht & Hs & Hq & Hz & Hp & Hk & Hin & Hout). exists [c_stub c0].
    split; rewrite ?Hp, ?Hk, ?Hin, ?Hout; simpl; try done; try constructor; try set_solver.
    - by rewrite Ht.
    - by rewrite Hh.
    - apply NoDup_singleton.
    - intros i x [-> <-]%list_lookup_singleton_Some. exact Hs.
    - intros x y [?|(_ & ? & ?)]; [rewrite Hp in *; set_solver|congruence].
    - unfold cons_ok. by rewrite Hk.
    - unfold real. by rewrite filter_cons_False, filter_nil by auto.
    - unfold real. rewrite filter_cons_False, filter_nil by auto. done. }
  clear Hi. induction Hsteps as [|c0 c1 c2 Hstep _ IH]; [done|].
  destruct H0 as [L HL]. apply IH. by eapply live_step.
Qed.

(** ** Properties of every interleaving *)

(** C20: In every reachable interleaving of any number of producers with the
    consumer, the nodes returned so far are a prefix of the nodes in the order
    their producers exchanged the head: nothing is lost, duplicated or
    reordered. *)
Theorem mpsc_fifo c : reachable c -> c_out c `prefix_of` c_in c.
Proof.
  intros [L HL]%live_reachable. eexists. exact (lv_hist _ _ HL).
Qed.

(** C21: A producer that still has to write its predecessor's link never writes
    into a node the consumer has already unlinked or returned: the predecessor
    is still between the tail and the head, so returned storage may be
    reused. *)
Theorem mpsc_publish_target_live c y x :
  reachable c -> PPublish y x ∈ c_prods c ->
  (x = c_stub c \/ x ∈ c_items c) /\ x ∉ unlinked (c_cons c) /\
  x ∉ omap private_node (c_prods c).
Proof.
  intros [L HL]%live_reachable Hp. pose proof (lv_segs _ _ HL) as Hs.
  destruct (sg_pend _ _ _ _ _ Hs x y) as (i & Hi & _); [by left|].
  apply list_elem_of_lookup_2 in Hi. split_and!.
  - destruct (decide (x = c_stub c)) as [|Hne]; [by left|right]. unfold c_items.
    rewrite (lv_hist _ _ HL), drop_app_length. apply elem_of_app. right.
    by apply list_elem_of_filter.
  - intros Hu. pose proof (lv_cons _ _ HL) as Hk. revert Hk Hu. unfold cons_ok.
    destruct (c_cons c); simpl; set_solver.
  - intros Hpr. by destruct (lv_private _ _ HL x Hpr) as (? & _).
Qed.

(** Once no producer and no pop is in progress, the counter equals the
    number of pushed and not yet returned nodes, and the guard of the decrement
    has never been needed. *)
Theorem mpsc_count_exact c :
  reachable c -> (forall p, p ∈ c_prods c -> p = PDone) -> c_cons c = CIdle ->
  c_queued c = Z.of_nat (length (c_in c) - length (c_out c)).
Proof.
  intros [L HL]%live_reachable Hp Hk. rewrite (lv_count _ _ HL), (lv_hist _ _ HL), Hk. simpl.
  assert (omap counted_node (c_prods c) = []) as ->.
  { destruct (omap counted_node (c_prods c)) as [|n l] eqn:E; [done|].
    assert (Hn : n ∈ omap counted_node (c_prods c)) by (rewrite E; by left).
    apply list_elem_of_omap in Hn as (p & ->%Hp & ?). done. }
  rewrite length_app. simpl. lia.
Qed.

(** ** An interleaving of two producers and the consumer *)

Definition ex_initial : qcfg :=
  mk_qcfg {[ 1%positive := NULL; 2%positive := NULL; 3%positive := NULL ]}
    1 1 1 0 [] CIdle [] [].

(** Both producers have exchanged the head; the second has published its link
    to the first, which has not published yet. *)
Definition ex_pending : qcfg :=
  mk_qcfg {[ 1%positive := NULL; 2%positive := Some 3%positive; 3%positive := NULL ]}
    3 1 1 2 [PPublish 2 1; PDone] CIdle [2; 3]%positive [].

(** Then the first publishes and the consumer pops one node. *)
Definition ex_popped : qcfg :=
  mk_qcfg {[ 1%positive := Some 2%positive; 2%positive := NULL; 3%positive := NULL ]}
    3 3 1 1 [PDone; PDone] CIdle [2; 3]%positive [2]%positive.

Tactic Notation "qrun" uconstr(rule) :=
  eapply rtc_l; [eapply rule;
    first [reflexivity | by eexists | discriminate
          | apply (bool_decide_unpack _); vm_compute; exact I]|].

Lemma ex_pending_reachable : reachable ex_pending.
Proof.
  exists ex_initial. split; [by repeat split|].
  qrun (step_enter _ 2). qrun (step_enter _ 3).
  qrun (step_clear _ 0). qrun (step_count _ 0). qrun (step_xchg _ 0).
  qrun (step_clear _ 1). qrun (step_count _ 1). qrun (step_xchg _ 1).
  qrun (step_publish _ 1). apply rtc_refl.
Defined.

Lemma ex_popped_reachable : reachable ex_popped.
Proof.
  destruct ex_pending_reachable as (c0 & Hi & Hr). exists c0. split; [done|].
  etrans; [exact Hr|].
  qrun (step_publish _ 0). qrun (step_pop_skip). qrun (step_reload). qrun (step_advance).
  qrun (step_detach). qrun (step_return). apply rtc_refl.
Defined.

Lemma mpsc_fifo_witness : reachable ex_popped /\ c_out ex_popped `prefix_of` c_in ex_popped.
Proof. split; [exact ex_popped_reachable|]. apply mpsc_fifo, ex_popped_reachable. Defined.

Lemma mpsc_publish_target_live_witness :
  reachable ex_pending /\ 1%positive ∉ unlinked (c_cons ex_pending).
Proof.
  split; [exact ex_pending_reachable|].
  refine (proj1 (proj2 (mpsc_publish_target_live ex_pending 2 1 ex_pending_reachable _))).
  left.
Defined.

Lemma mpsc_count_exact_witness : reachable ex_popped /\ c_queued ex_popped = 1.
Proof.
  split; [exact ex_popped_reachable|].
  refine (mpsc_count_exact ex_popped ex_popped_reachable _ eq_refl).
  intros p Hp. repeat (apply elem_of_cons in Hp as [->|Hp]; [done|]). by apply elem_of_nil in Hp.
Defined.
