(* ===== verification/Readiness.v ===== *)
(** * Readiness masks

    The pure layer between epoll and AFD: translation of interest and of
    results ([src/wepoll_ex_afd.c]), readiness classes, the class filter and
    the AFD interest of a registration ([src/wepoll_ex_port.c]), local
    half-close levels and the classification of a provider.  The theorems say
    that the submitted AFD mask is exactly the set of AFD conditions that can
    produce an event the caller will see, that the class filter removes the
    denied classes and nothing else, and that a disarmed class is not polled. *)
From S2P Require Import Prelude Codes Types Errno.

Definition bor : Z -> Z -> Z := Z.lor.
Infix "|||" := bor (at level 50, left associativity) : ep_scope.
#[global] Arguments bor /.

(** ** Readiness classes *)

Definition EP_READINESS_CLASS_READ : Z := 1.
Definition EP_READINESS_CLASS_WRITE : Z := 2.
Definition EP_READINESS_CLASS_TERMINAL : Z := 4.

Definition READ_EVENTS : Z := EPOLLIN ||| EPOLLRDNORM ||| EPOLLRDHUP ||| EPOLLPRI.
Definition WRITE_EVENTS : Z := EPOLLOUT ||| EPOLLWRNORM.
Definition TERMINAL_EVENTS : Z := EPOLLERR ||| EPOLLHUP.

(** [if (c) x |= m]. *)
Definition orwhen (c : bool) (m x : Z) : Z := if c then Z.lor x m else x.
(** [if (c) x &= ~m]. *)
Definition clearwhen (c : bool) (m x : Z) : Z := if c then Z.ldiff x m else x.

Definition ep_readiness_classes (delivered : Z) : Z :=
  orwhen (has delivered TERMINAL_EVENTS) EP_READINESS_CLASS_TERMINAL
    (orwhen (has delivered WRITE_EVENTS) EP_READINESS_CLASS_WRITE
      (orwhen (has delivered READ_EVENTS) EP_READINESS_CLASS_READ 0)).

Definition ep_readiness_class_afd_events (readiness_class : Z) : Z :=
  switch readiness_class
    [ ([EP_READINESS_CLASS_READ],
       AFD_POLL_RECEIVE ||| AFD_POLL_RECEIVE_EXPEDITED ||| AFD_POLL_ACCEPT |||
       AFD_POLL_DISCONNECT);
      ([EP_READINESS_CLASS_WRITE], AFD_POLL_SEND);
      ([EP_READINESS_CLASS_TERMINAL],
       AFD_POLL_ABORT ||| AFD_POLL_CONNECT_FAIL ||| AFD_POLL_LOCAL_CLOSE) ] 0.

Definition ep_readiness_filter_classes (delivered denied_classes : Z) : Z :=
  clearwhen (has denied_classes EP_READINESS_CLASS_TERMINAL) TERMINAL_EVENTS
    (clearwhen (has denied_classes EP_READINESS_CLASS_WRITE) WRITE_EVENTS
      (clearwhen (has denied_classes EP_READINESS_CLASS_READ) READ_EVENTS delivered)).

(** [for (bit = READ; bit <= TERMINAL; bit <<= 1)]: three iterations. *)
Definition class_bits : list Z :=
  [EP_READINESS_CLASS_READ; EP_READINESS_CLASS_WRITE; EP_READINESS_CLASS_TERMINAL].

Definition ep_readiness_classes_afd_events (classes : Z) : Z :=
  foldl (fun afd_events bit =>
           orwhen (has classes bit) (ep_readiness_class_afd_events bit) afd_events)
    0 class_bits.

Definition ep_explicit_delivery_classes (delivered : Z) : Z :=
  let classes := ep_readiness_classes delivered in
  orwhen (has classes EP_READINESS_CLASS_TERMINAL)
    (EP_READINESS_CLASS_READ ||| EP_READINESS_CLASS_WRITE) classes.

Definition ep_exclusive_quiescent_classes (submitted_afd_events : Z) : Z :=
  foldl (fun classes bit =>
           let class_events :=
             clearwhen (bit =? EP_READINESS_CLASS_READ) AFD_POLL_RECEIVE_EXPEDITED
               (ep_readiness_class_afd_events bit) in
           orwhen (Z.ldiff class_events submitted_afd_events =? 0) bit classes)
    0 class_bits.

(** ** Translation between epoll and AFD *)

Definition ep_afd_to_epoll_events (afd_events afd_status : Z)
    (socket_protocol : ep_socket_protocol) : Z :=
  orwhen (has afd_events AFD_POLL_LOCAL_CLOSE) EPOLLHUP
  (orwhen (has afd_events AFD_POLL_CONNECT_FAIL)
     (EPOLLIN ||| EPOLLOUT ||| EPOLLERR ||| EPOLLHUP ||| EPOLLRDNORM ||| EPOLLWRNORM |||
      EPOLLRDHUP)
  (orwhen (has afd_events AFD_POLL_ABORT)
     (orwhen (negb (bool_decide (socket_protocol = EP_SOCKET_PROTOCOL_UDP))) EPOLLHUP EPOLLERR)
  (orwhen (has afd_events AFD_POLL_DISCONNECT) (EPOLLIN ||| EPOLLRDNORM ||| EPOLLRDHUP)
  (orwhen (has afd_events AFD_POLL_SEND) (EPOLLOUT ||| EPOLLWRNORM)
  (orwhen (has afd_events AFD_POLL_RECEIVE_EXPEDITED) EPOLLPRI
  (orwhen (has afd_events (AFD_POLL_RECEIVE ||| AFD_POLL_ACCEPT)) (EPOLLIN ||| EPOLLRDNORM)
  (orwhen (afd_status <? 0) EPOLLERR 0))))))).

Definition ep_epoll_to_afd_events (epoll_events : Z) : Z :=
  let afd := AFD_POLL_ABORT ||| AFD_POLL_CONNECT_FAIL ||| AFD_POLL_LOCAL_CLOSE in
  let afd :=
    if has epoll_events (EPOLLIN ||| EPOLLRDNORM) then
      afd ||| (AFD_POLL_RECEIVE ||| AFD_POLL_ACCEPT ||| AFD_POLL_DISCONNECT)
    else orwhen (has epoll_events EPOLLRDHUP) AFD_POLL_DISCONNECT afd in
  orwhen (has epoll_events (EPOLLOUT ||| EPOLLWRNORM)) AFD_POLL_SEND
    (orwhen (has epoll_events EPOLLPRI) AFD_POLL_RECEIVE_EXPEDITED afd).

(** ** A registration's AFD interest *)

Definition ep_sock_explicit_rearm_enabled (sock : ptr) : MW bool :=
  port <- rd w_socks sock s_port ;;
  explicit_rearm <- rd w_ports port p_explicit_rearm ;;
  kind <- rd w_socks sock s_kind ;;
  user_flags <- rd w_socks sock s_user_flags ;;
  ret (explicit_rearm && bool_decide (kind = EP_REG_SOCKET) && has user_flags EPOLLET).

Definition ep_sock_afd_events_for_state_locked (sock : ptr) (user_events : Z)
    (udp_readless_receive_parked : bool) (explicit_disarmed_classes : Z) : MW Z :=
  let afd_events := ep_epoll_to_afd_events user_events in
  protocol <- rd w_socks sock s_socket_protocol ;;
  eligible <- rd w_socks sock s_udp_afd_qualifier_eligible ;;
  capability <- rd w_socks sock s_async_read_capability ;;
  port <- rd w_socks sock s_port ;;
  probe_event <- rd w_ports port p_udp_probe_event ;;
  probe_read <- rd w_ports port p_udp_probe_read ;;
  identity <- rd w_socks sock s_endpoint_id_state ;;
  let afd_events :=
    orwhen (bool_decide (protocol = EP_SOCKET_PROTOCOL_UDP) && eligible &&
            bool_decide (capability = EP_SOCKET_ASYNC_READ_SAFE) &&
            negb (probe_event =? 0) && probe_read &&
            negb (has user_events (EPOLLIN ||| EPOLLRDNORM)) &&
            negb udp_readless_receive_parked) AFD_POLL_RECEIVE afd_events in
  let afd_events :=
    if bool_decide (identity = EP_SOCKET_ID_TRANSITIONAL) then AFD_POLL_ALL_EVENTS
    else afd_events in
  ret (Z.ldiff afd_events (ep_readiness_classes_afd_events explicit_disarmed_classes)).

Definition ep_sock_afd_events_locked (sock : ptr) (user_events : Z) : MW Z :=
  parked <- rd w_socks sock s_udp_readless_receive_parked ;;
  explicit <- ep_sock_explicit_rearm_enabled sock ;;
  disarmed <- rd w_socks sock s_explicit_disarmed_classes ;;
  ep_sock_afd_events_for_state_locked sock user_events parked
    (if explicit then disarmed else 0).

(** ** Local half-close *)

Definition SD_RECEIVE : Z := 0.
Definition SD_SEND : Z := 1.
Definition SD_BOTH : Z := 2.

(** [Some mask], or [None] when the call fails with -1. *)
Definition ep_local_shutdown_mask (how : Z) : MW (option Z) :=
  switch how
    [ ([SD_RECEIVE], ret (Some EP_LOCAL_SHUTDOWN_READ));
      ([SD_SEND], ret (Some EP_LOCAL_SHUTDOWN_WRITE));
      ([SD_BOTH], ret (Some (EP_LOCAL_SHUTDOWN_READ ||| EP_LOCAL_SHUTDOWN_WRITE))) ]
    (ep_set_winsock_error WSAEINVAL ;; ret None).

Definition merge_local_shutdown (s : ep_sock) (level : Z) : Z :=
  if negb (bool_decide (s_kind s = EP_REG_SOCKET)) ||
     negb (bool_decide (s_socket_protocol s = EP_SOCKET_PROTOCOL_TCP)) then level
  else
    orwhen (s_local_shutdown s =? EP_LOCAL_SHUTDOWN_READ ||| EP_LOCAL_SHUTDOWN_WRITE) EPOLLHUP
      (orwhen (has (s_local_shutdown s) EP_LOCAL_SHUTDOWN_READ)
         (Z.land (s_user_events s) (EPOLLIN ||| EPOLLRDNORM ||| EPOLLRDHUP)) level).

Definition ep_sock_merge_local_shutdown_locked (sock : ptr) (level : Z) : MW Z :=
  s <- rd w_socks sock (fun s => s) ;; ret (merge_local_shutdown s level).

(** ** Provider classification *)

Record protocol_info := mk_protocol_info {
  iAddressFamily : Z;
  iSocketType : Z;
  iProtocol : Z;
  iProtocolMaxOffset : Z;
  ChainLen : Z
}.
Definition AF_INET : Z := 2.
Definition AF_INET6 : Z := 23.
Definition SOCK_STREAM : Z := 1.
Definition SOCK_DGRAM : Z := 2.
Definition IPPROTO_TCP : Z := 6.
Definition IPPROTO_UDP : Z := 17.
Definition BASE_PROTOCOL : Z := 1.
Definition sizeof_protocol_info : Z := 628.

Definition ep_socket_protocol_from_info (info : option protocol_info) (length : Z)
    : ep_socket_protocol :=
  match info with
  | None => EP_SOCKET_PROTOCOL_UNKNOWN
  | Some i =>
    if length <? sizeof_protocol_info then EP_SOCKET_PROTOCOL_UNKNOWN
    else if ((iAddressFamily i =? AF_INET) || (iAddressFamily i =? AF_INET6)) &&
            (iSocketType i =? SOCK_DGRAM) && (iProtocol i =? IPPROTO_UDP) &&
            (iProtocolMaxOffset i =? 0) then EP_SOCKET_PROTOCOL_UDP
    else if ((iAddressFamily i =? AF_INET) || (iAddressFamily i =? AF_INET6)) &&
            (iSocketType i =? SOCK_STREAM) && (iProtocol i =? IPPROTO_TCP) &&
            (iProtocolMaxOffset i =? 0) then EP_SOCKET_PROTOCOL_TCP
    else EP_SOCKET_PROTOCOL_UNKNOWN
  end.

Definition ep_socket_udp_afd_qualifier_from_info (info : option protocol_info) (length : Z)
    : bool :=
  bool_decide (ep_socket_protocol_from_info info length = EP_SOCKET_PROTOCOL_UDP) &&
  match info with
  | None => false
  | Some i => (sizeof_protocol_info <=? length) && (ChainLen i =? BASE_PROTOCOL)
  end.

(** ** Masks as sets of bits *)

Lemma has_lor x a b : has x (Z.lor a b) = has x a || has x b.
Proof.
  unfold has. rewrite Z.land_lor_distr_r.
  destruct (Z.eqb_spec (Z.lor (Z.land x a) (Z.land x b)) 0) as [[Ha Hb]%Z.lor_eq_0_iff|Hne].
  - by rewrite Ha, Hb.
  - destruct (Z.eqb_spec (Z.land x a) 0) as [Ha|]; [|done].
    destruct (Z.eqb_spec (Z.land x b) 0) as [Hb|]; [|done]. by rewrite Ha, Hb in Hne.
Qed.

Lemma has_pow2 x n : 0 <= n -> has x (Z.shiftl 1 n) = Z.testbit x n.
Proof.
  intros Hn. unfold has. rewrite Z.shiftl_1_l.
  destruct (Z.eqb_spec (Z.land x (2 ^ n)) 0) as [E|Hne]; simpl.
  - apply (f_equal (fun y => Z.testbit y n)) in E.
    rewrite Z.land_spec, Z.pow2_bits_true, Z.bits_0, andb_true_r in E by done. done.
  - apply eq_sym, not_false_is_true. intros Hb. apply Hne, Z.bits_inj_iff. intros k.
    rewrite Z.land_spec, Z.bits_0. destruct (decide (k = n)) as [->|].
    + by rewrite Hb.
    + by rewrite Z.pow2_bits_false, andb_false_r.
Qed.

(** [has] of a mask built from named bits is a disjunction of bit tests. *)
Lemma has_bits x :
  (has x EPOLLIN = Z.testbit x 0) /\ (has x EPOLLPRI = Z.testbit x 1) /\
  (has x EPOLLOUT = Z.testbit x 2) /\ (has x EPOLLERR = Z.testbit x 3) /\
  (has x EPOLLHUP = Z.testbit x 4) /\ (has x EPOLLRDNORM = Z.testbit x 6) /\
  (has x EPOLLWRNORM = Z.testbit x 8) /\ (has x EPOLLRDHUP = Z.testbit x 13) /\
  (has x EP_READINESS_CLASS_READ = Z.testbit x 0) /\
  (has x EP_READINESS_CLASS_WRITE = Z.testbit x 1) /\
  (has x EP_READINESS_CLASS_TERMINAL = Z.testbit x 2).
Proof.
  split_and!;
    match goal with |- _ = Z.testbit x ?n => exact (has_pow2 x n ltac:(done)) end.
Qed.

Ltac has_bits_in x :=
  let H := fresh in
  pose proof (has_bits x) as H;
  destruct H as (Hbit0 & Hbit1 & Hbit2 & Hbit3 & Hbit4 & Hbit5 & Hbit6 & Hbit7 & Hbit8 & Hbit9 & Hbit10);
  rewrite ?Hbit0, ?Hbit1, ?Hbit2, ?Hbit3, ?Hbit4, ?Hbit5, ?Hbit6, ?Hbit7, ?Hbit8, ?Hbit9, ?Hbit10;
  clear Hbit0 Hbit1 Hbit2 Hbit3 Hbit4 Hbit5 Hbit6 Hbit7 Hbit8 Hbit9 Hbit10.
(** Turn every test of [x] against a named mask into tests of single bits. *)
Ltac bits x :=
  unfold READ_EVENTS, WRITE_EVENTS, TERMINAL_EVENTS, bor; rewrite ?(has_lor x); has_bits_in x.
(** Case split on the tested bits, then compute. *)
Ltac split_bits x :=
  repeat match goal with
  | |- context [Z.testbit x ?n] => destruct (Z.testbit x n) eqn:?
  end.

Lemma has_comm x m : has x m = has m x.
Proof. unfold has. by rewrite Z.land_comm. Qed.

Lemma has_0 x : has x 0 = false.
Proof. unfold has. by rewrite Z.land_0_r. Qed.

(** The conditions AFD can report. *)
Definition afd_bits : list Z :=
  [AFD_POLL_RECEIVE; AFD_POLL_RECEIVE_EXPEDITED; AFD_POLL_SEND; AFD_POLL_DISCONNECT;
   AFD_POLL_ABORT; AFD_POLL_LOCAL_CLOSE; AFD_POLL_ACCEPT; AFD_POLL_CONNECT_FAIL].

(** What each condition is reported as; aborts also carry EPOLLHUP unless the
    socket is a datagram socket. *)
Lemma afd_reported protocol :
  (forall e, e = AFD_POLL_RECEIVE \/ e = AFD_POLL_ACCEPT ->
     ep_afd_to_epoll_events e 0 protocol = EPOLLIN ||| EPOLLRDNORM) /\
  ep_afd_to_epoll_events AFD_POLL_RECEIVE_EXPEDITED 0 protocol = EPOLLPRI /\
  ep_afd_to_epoll_events AFD_POLL_SEND 0 protocol = EPOLLOUT ||| EPOLLWRNORM /\
  ep_afd_to_epoll_events AFD_POLL_DISCONNECT 0 protocol = EPOLLIN ||| EPOLLRDNORM ||| EPOLLRDHUP /\
  (forall e, e = AFD_POLL_ABORT \/ e = AFD_POLL_CONNECT_FAIL \/ e = AFD_POLL_LOCAL_CLOSE ->
     has (ep_afd_to_epoll_events e 0 protocol) TERMINAL_EVENTS = true).
Proof. destruct protocol; split_and!; try reflexivity; naive_solver. Qed.

(** C30: an AFD condition is polled for exactly when, reported on its own, it
    yields an event the caller will see: one of the requested ones, or EPOLLERR
    or EPOLLHUP, which are always delivered.  No wanted condition is missed and
    none is polled for in vain. *)
Theorem afd_interest_exact user_events e protocol :
  e ∈ afd_bits ->
  has (ep_epoll_to_afd_events user_events) e =
  has (ep_afd_to_epoll_events e 0 protocol) (user_events ||| TERMINAL_EVENTS).
Proof.
  intros He. destruct (afd_reported protocol) as (Hin & Hpri & Hout & Hdis & Hterm).
  unfold bor at 1. rewrite has_lor, (has_comm _ user_events).
  unfold ep_epoll_to_afd_events, afd_bits in *.
  repeat (apply elem_of_cons in He as [->|He]; [
    first [rewrite Hpri | rewrite Hout | rewrite Hdis | rewrite Hin by auto
          | rewrite Hterm, orb_true_r by auto];
    bits user_events; split_bits user_events; reflexivity|]).
  by apply elem_of_nil in He.
Qed.

Lemma afd_interest_exact_witness :
  has (ep_epoll_to_afd_events (EPOLLIN ||| EPOLLET)) AFD_POLL_DISCONNECT = true /\
  AFD_POLL_DISCONNECT ∈ afd_bits.
Proof.
  assert (He : AFD_POLL_DISCONNECT ∈ afd_bits) by (apply list_elem_of_In; simpl; auto).
  split; [|done].
  rewrite (afd_interest_exact _ _ EP_SOCKET_PROTOCOL_TCP He). reflexivity.
Defined.

Lemma clearwhen_bit c m x k :
  0 <= k -> Z.testbit (clearwhen c m x) k = Z.testbit x k && negb (c && Z.testbit m k).
Proof. intros. destruct c; simpl; [apply Z.ldiff_spec|by rewrite andb_true_r]. Qed.

Lemma orwhen_bit c m x k : Z.testbit (orwhen c m x) k = Z.testbit x k || (c && Z.testbit m k).
Proof. destruct c; simpl; [apply Z.lor_spec|by rewrite orb_false_r]. Qed.

Lemma filter_bit d c k :
  0 <= k ->
  Z.testbit (ep_readiness_filter_classes d c) k =
  Z.testbit d k && negb (Z.testbit c 0 && Z.testbit READ_EVENTS k)
    && negb (Z.testbit c 1 && Z.testbit WRITE_EVENTS k)
    && negb (Z.testbit c 2 && Z.testbit TERMINAL_EVENTS k).
Proof.
  intros. unfold ep_readiness_filter_classes. rewrite !clearwhen_bit by done.
  has_bits_in c. done.
Qed.

Lemma class_bit d k :
  0 <= k ->
  Z.testbit (ep_readiness_classes d) k =
  ((k =? 0) && has d READ_EVENTS) || ((k =? 1) && has d WRITE_EVENTS)
    || ((k =? 2) && has d TERMINAL_EVENTS).
Proof.
  intros Hk. unfold ep_readiness_classes. rewrite !orwhen_bit, Z.bits_0. simpl.
  change EP_READINESS_CLASS_READ with (2 ^ 0). change EP_READINESS_CLASS_WRITE with (2 ^ 1).
  change EP_READINESS_CLASS_TERMINAL with (2 ^ 2). rewrite !Z.pow2_bits_eqb by done.
  rewrite !(Z.eqb_sym k), !(andb_comm (_ =? _)). done.
Qed.

Lemma filter_has d c :
  has (ep_readiness_filter_classes d c) READ_EVENTS = has d READ_EVENTS && negb (Z.testbit c 0) /\
  has (ep_readiness_filter_classes d c) WRITE_EVENTS = has d WRITE_EVENTS && negb (Z.testbit c 1) /\
  has (ep_readiness_filter_classes d c) TERMINAL_EVENTS =
    has d TERMINAL_EVENTS && negb (Z.testbit c 2).
Proof.
  split_and!; bits (ep_readiness_filter_classes d c); bits d; rewrite !filter_bit by done;
    split_bits c; split_bits d; reflexivity.
Qed.

(** Filtering a snapshot by denied classes leaves a snapshot whose classes
    are exactly the old ones without the denied ones; of the snapshot's bits,
    exactly those that belong to a denied class are gone. *)
Theorem filter_classes_exact delivered denied :
  ep_readiness_classes (ep_readiness_filter_classes delivered denied) =
    Z.ldiff (ep_readiness_classes delivered) denied /\
  (forall k, 0 <= k ->
     Z.testbit (ep_readiness_filter_classes delivered denied) k =
     Z.testbit delivered k && negb (has denied (ep_readiness_classes (Z.shiftl 1 k)))).
Proof.
  destruct (filter_has delivered denied) as (Hr & Hw & Ht). split.
  - apply Z.bits_inj'. intros k Hk. rewrite Z.ldiff_spec, !class_bit by done.
    rewrite Hr, Hw, Ht.
    destruct (Z.eqb_spec k 0) as [->|]; [simpl; by rewrite !orb_false_r|].
    destruct (Z.eqb_spec k 1) as [->|]; [simpl; by rewrite !orb_false_r|].
    destruct (Z.eqb_spec k 2) as [->|]; done.
  - intros k Hk. rewrite filter_bit, <- !andb_assoc by done. f_equal.
    unfold ep_readiness_classes. rewrite !(has_comm (Z.shiftl 1 k)), !has_pow2 by done.
    destruct (Z.testbit READ_EVENTS k), (Z.testbit WRITE_EVENTS k),
      (Z.testbit TERMINAL_EVENTS k); unfold orwhen; rewrite ?has_lor, has_0; has_bits_in denied;
      split_bits denied; reflexivity.
Qed.

(** ** A registration's AFD interest *)

Lemma afd_events_for_state_run sock s port p user_events parked disarmed w :
  w_socks w !! sock = Some s -> s_port s = Some port -> w_ports w !! port = Some p ->
  exists full,
    ep_sock_afd_events_for_state_locked (Some sock) user_events parked disarmed w =
      Some (Z.ldiff full (ep_readiness_classes_afd_events disarmed), w) /\
    Z.ldiff full AFD_POLL_ALL_EVENTS = 0 /\
    Z.ldiff (ep_epoll_to_afd_events user_events) full = 0.
Proof.
  intros Hs Hp Hport. unfold ep_sock_afd_events_for_state_locked. repeat mstep. rewrite Hp.
  repeat mstep. eexists. split; [reflexivity|].
  generalize (bool_decide (s_socket_protocol s = EP_SOCKET_PROTOCOL_UDP) &&
    s_udp_afd_qualifier_eligible s &&
    bool_decide (s_async_read_capability s = EP_SOCKET_ASYNC_READ_SAFE) &&
    negb (p_udp_probe_event p =? 0) && p_udp_probe_read p &&
    negb (has user_events (EPOLLIN ||| EPOLLRDNORM)) && negb parked). intros b.
  generalize (bool_decide (s_endpoint_id_state s = EP_SOCKET_ID_TRANSITIONAL)). intros t.
  unfold ep_epoll_to_afd_events. bits user_events. split_bits user_events;
    destruct b, t; done.
Qed.

(** C31: the interest submitted for a registration contains no AFD condition of
    a disarmed class, keeps every wanted condition of the classes that are
    armed, and is empty once a terminal event has been delivered in
    explicit-rearm mode, so the registration is idle until it is rearmed. *)
Theorem disarmed_classes_not_polled sock s port p user_events parked disarmed w :
  w_socks w !! sock = Some s -> s_port s = Some port -> w_ports w !! port = Some p ->
  exists m,
    ep_sock_afd_events_for_state_locked (Some sock) user_events parked disarmed w = Some (m, w) /\
    Z.land m (ep_readiness_classes_afd_events disarmed) = 0 /\
    Z.ldiff (Z.ldiff (ep_epoll_to_afd_events user_events)
               (ep_readiness_classes_afd_events disarmed)) m = 0 /\
    (forall delivered, has delivered TERMINAL_EVENTS = true ->
       disarmed = ep_explicit_delivery_classes delivered -> m = 0).
Proof.
  intros Hs Hp Hport.
  destruct (afd_events_for_state_run sock s port p user_events parked disarmed w)
    as (full & Hrun & Hall & Hsub); [done..|].
  eexists. split; [exact Hrun|].
  set (X := ep_readiness_classes_afd_events disarmed). split_and!.
  - apply Z.bits_inj'. intros k Hk. rewrite Z.land_spec, Z.ldiff_spec, Z.bits_0.
    destruct (Z.testbit full k), (Z.testbit X k); done.
  - apply Z.bits_inj'. intros k Hk. rewrite !Z.ldiff_spec, Z.bits_0.
    apply (f_equal (fun y => Z.testbit y k)) in Hsub. rewrite Z.ldiff_spec, Z.bits_0 in Hsub.
    destruct (Z.testbit (ep_epoll_to_afd_events user_events) k), (Z.testbit full k),
      (Z.testbit X k); done.
  - intros d Hd E. replace X with AFD_POLL_ALL_EVENTS; [done|]. unfold X. rewrite E.
    unfold ep_explicit_delivery_classes, ep_readiness_classes. rewrite Hd.
    by destruct (has d READ_EVENTS), (has d WRITE_EVENTS).
Qed.

(** Two registrations of one explicit-rearm port. *)
Definition demo_port : ep_port := zero_port <| p_explicit_rearm := true |>.
Definition demo_sock : ep_sock :=
  zero_sock <| s_port := Some 1%positive |> <| s_base_socket := 40 |>
    <| s_socket_protocol := EP_SOCKET_PROTOCOL_TCP |>
    <| s_user_events := EPOLLIN ||| EPOLLOUT |> <| s_user_flags := EPOLLET |>.
Definition demo_reg_world : world :=
  empty_world <| w_ports := {[ 1%positive := demo_port ]} |>
    <| w_socks := {[ 10%positive := demo_sock; 11%positive := demo_sock ]} |>.

Lemma disarmed_classes_not_polled_witness :
  exists m,
    ep_sock_afd_events_for_state_locked (Some 10%positive) (EPOLLIN ||| EPOLLOUT) false
      EP_READINESS_CLASS_READ demo_reg_world = Some (m, demo_reg_world) /\
    Z.land m (ep_readiness_classes_afd_events EP_READINESS_CLASS_READ) = 0.
Proof.
  destruct (disarmed_classes_not_polled 10 demo_sock 1 demo_port (EPOLLIN ||| EPOLLOUT) false
              EP_READINESS_CLASS_READ demo_reg_world) as (m & Hrun & Hm & _);
    [reflexivity|reflexivity|reflexivity|]. by exists m.
Defined.

(** the classes a pending request proves quiescent are exactly those whose
    conditions the request polls for: the terminal class always, the write
    class when writability was requested, the read class when readability was
    (asking only for RDHUP or PRI proves nothing about it). *)
Theorem quiescent_classes_of_interest user_events :
  ep_exclusive_quiescent_classes (ep_epoll_to_afd_events user_events) =
  orwhen (has user_events (EPOLLIN ||| EPOLLRDNORM)) EP_READINESS_CLASS_READ
    (orwhen (has user_events WRITE_EVENTS) EP_READINESS_CLASS_WRITE
       EP_READINESS_CLASS_TERMINAL).
Proof.
  unfold ep_epoll_to_afd_events. bits user_events. split_bits user_events; reflexivity.
Qed.
