(* ===== verification/Exclusive.v ===== *)
(** * EPOLLEXCLUSIVE claims

    The process-wide index of [src/wepoll_ex_port.c] that hands each readiness
    class of a provider socket to at most one exclusive registration: 128 hash
    buckets of doubly linked registrations, every operation under one lock.
    [excl_inv] ties the buckets to the registrations; [claims] is the abstract
    state, the map from registrations to what they own.  Each operation is
    shown to implement an operation on that map, and the map never gives a
    class of one socket to two registrations. *)
From S2P Require Import Prelude Codes Types Errno Links Readiness.

Definition EP_EXCLUSIVE_CLAIM_BUCKETS : Z := 128.

Definition ep_exclusive_bucket (base : Z) : Z :=
  let value := Z.lxor base (Z.shiftr base 17) in
  let value := u64 (value * 0x9e3779b97f4a7c15) in
  value mod EP_EXCLUSIVE_CLAIM_BUCKETS.

(** [g_exclusive_claim_buckets[bucket]]. *)
Definition get_bucket (bucket : Z) : MW ptr := fun w =>
  match w_exclusive w !! Z.to_nat bucket with Some p => Some (p, w) | None => None end.
Definition set_bucket (bucket : Z) (p : ptr) : MW unit := fun w =>
  match w_exclusive w !! Z.to_nat bucket with
  | Some _ => Some (tt, w <| w_exclusive := <[Z.to_nat bucket := p]> (w_exclusive w) |>)
  | None => None
  end.

Definition ep_exclusive_unlink_locked (sock : ptr) : MW unit :=
  classes <- rd w_socks sock s_exclusive_claim_classes ;;
  next <- rd w_socks sock s_exclusive_next ;;
  prev <- rd w_socks sock s_exclusive_prev ;;
  if classes =? 0 then
    assertM (bool_decide (next = NULL)) ;;
    assertM (bool_decide (prev = NULL))
  else
    base <- rd w_socks sock s_exclusive_claim_base ;;
    let bucket := ep_exclusive_bucket base in
    match prev with
    | Some _ => wr w_socks prev s_exclusive_next next
    | None =>
      head <- get_bucket bucket ;;
      assertM (bool_decide (head = sock)) ;;
      set_bucket bucket next
    end ;;
    match next with
    | Some _ => wr w_socks next s_exclusive_prev prev
    | None => ret tt
    end ;;
    wr w_socks sock s_exclusive_next NULL ;;
    wr w_socks sock s_exclusive_prev NULL ;;
    wr w_socks sock s_exclusive_claim_base INVALID_SOCKET ;;
    wr w_socks sock s_exclusive_claim_classes 0.

Definition ep_exclusive_remove_classes_locked (sock : ptr) (classes : Z) : MW unit :=
  owned <- rd w_socks sock s_exclusive_claim_classes ;;
  if negb (has owned classes) then ret tt else
  let remaining := Z.ldiff owned classes in
  if remaining =? 0 then ep_exclusive_unlink_locked sock
  else wr w_socks sock s_exclusive_claim_classes remaining.

(** [if (classes != 0 && claim_base != base) unlink]. *)
Definition exclusive_drop_stale (sock : ptr) (base : Z) : MW unit :=
  classes <- rd w_socks sock s_exclusive_claim_classes ;;
  claim_base <- rd w_socks sock s_exclusive_claim_base ;;
  if negb (classes =? 0) && negb (claim_base =? base)
  then ep_exclusive_unlink_locked sock else ret tt.

(** Push the registration on the bucket of [base]. *)
Definition exclusive_link (sock : ptr) (base : Z) : MW unit :=
  let bucket := ep_exclusive_bucket base in
  head <- get_bucket bucket ;;
  wr w_socks sock s_exclusive_claim_base base ;;
  wr w_socks sock s_exclusive_prev NULL ;;
  wr w_socks sock s_exclusive_next head ;;
  match head with
  | Some _ => wr w_socks head s_exclusive_prev sock
  | None => ret tt
  end ;;
  set_bucket bucket sock.

Definition ep_exclusive_add_classes_locked (sock : ptr) (base classes : Z) : MW unit :=
  if classes =? 0 then ret tt else
  exclusive_drop_stale sock base ;;
  owned <- rd w_socks sock s_exclusive_claim_classes ;;
  (if owned =? 0 then exclusive_link sock base else ret tt) ;;
  owned <- rd w_socks sock s_exclusive_claim_classes ;;
  wr w_socks sock s_exclusive_claim_classes (Z.lor owned classes).

(** What the scan of a bucket has seen so far. *)
Record exclusive_seen := mk_seen {
  denied_classes : Z;
  owned_classes : Z;
  owner_terminal : bool;
  peer_terminal : bool
}.

Definition exclusive_visit (sock claim : addr) (base requested_classes : Z)
    (claim_base claim_classes : Z) (a : exclusive_seen) : exclusive_seen :=
  if negb (claim_base =? base) then a
  else if bool_decide (claim = sock) then
    mk_seen (denied_classes a) (Z.lor (owned_classes a) claim_classes)
      (owner_terminal a || has claim_classes EP_READINESS_CLASS_TERMINAL) (peer_terminal a)
  else if has claim_classes EP_READINESS_CLASS_TERMINAL then
    mk_seen (denied_classes a) (owned_classes a) (owner_terminal a) true
  else if negb (has requested_classes EP_READINESS_CLASS_TERMINAL) then
    mk_seen (Z.lor (denied_classes a) (Z.land claim_classes requested_classes))
      (owned_classes a) (owner_terminal a) (peer_terminal a)
  else a.

Fixpoint exclusive_scan_loop (fuel : nat) (sock : addr) (base requested_classes : Z)
    (claim : ptr) (a : exclusive_seen) : MW exclusive_seen :=
  match claim with
  | None => ret a
  | Some c =>
    match fuel with
    | O => stuck
    | S fuel =>
      claim_base <- rd w_socks claim s_exclusive_claim_base ;;
      claim_classes <- rd w_socks claim s_exclusive_claim_classes ;;
      next <- rd w_socks claim s_exclusive_next ;;
      exclusive_scan_loop fuel sock base requested_classes next
        (exclusive_visit sock c base requested_classes claim_base claim_classes a)
    end
  end.

(** [while (claim != NULL)] over a bucket, removing [classes] from the claims
    on [base]; the next claim is read before the removal. *)
Fixpoint exclusive_remove_loop (fuel : nat) (base classes : Z) (claim : ptr) : MW unit :=
  match claim with
  | None => ret tt
  | Some _ =>
    match fuel with
    | O => stuck
    | S fuel =>
      next <- rd w_socks claim s_exclusive_next ;;
      claim_base <- rd w_socks claim s_exclusive_claim_base ;;
      (if claim_base =? base then ep_exclusive_remove_classes_locked claim classes else ret tt) ;;
      exclusive_remove_loop fuel base classes next
    end
  end.

(** A bucket holds each registration at most once. *)
Definition sock_fuel (w : world) : nat := S (size (w_socks w)).

Definition exclusive_remove_all (base classes : Z) : MW unit :=
  claim <- get_bucket (ep_exclusive_bucket base) ;;
  fuel <- get sock_fuel ;;
  exclusive_remove_loop fuel base classes claim.

(** From the end of the scan: the terminal take-over, the grant and the filter. *)
Definition claim_decide (sock : addr) (base delivered : Z) (seen : exclusive_seen) : MW (Z * Z) :=
  let requested_classes := ep_readiness_classes delivered in
  denied_classes <-
    (if has requested_classes EP_READINESS_CLASS_TERMINAL then
       if peer_terminal seen then ret requested_classes
       else
         exclusive_remove_all base (EP_READINESS_CLASS_READ ||| EP_READINESS_CLASS_WRITE) ;;
         ret (denied_classes seen)
     else if peer_terminal seen then ret requested_classes
     else ret (denied_classes seen)) ;;
  let granted_classes := Z.ldiff requested_classes denied_classes in
  if (granted_classes =? 0) && negb (requested_classes =? 0) then ret (0, delivered)
  else
    let missing_classes :=
      if owner_terminal seen then 0
      else if has granted_classes EP_READINESS_CLASS_TERMINAL then EP_READINESS_CLASS_TERMINAL
      else Z.ldiff granted_classes (owned_classes seen) in
    ep_exclusive_add_classes_locked (Some sock) base missing_classes ;;
    ret (1, ep_readiness_filter_classes delivered denied_classes).

(** Returns the int result and the filtered [*delivered]. *)
Definition ep_exclusive_try_claim (sock : addr) (delivered : Z) : MW (Z * Z) :=
  base <- rd w_socks (Some sock) s_base_socket ;;
  let requested_classes := ep_readiness_classes delivered in
  exclusive_drop_stale (Some sock) base ;;
  claim <- get_bucket (ep_exclusive_bucket base) ;;
  fuel <- get sock_fuel ;;
  seen <- exclusive_scan_loop fuel sock base requested_classes claim (mk_seen 0 0 false false) ;;
  claim_decide sock base delivered seen.

Definition ep_exclusive_release_owner (sock : ptr) : MW unit :=
  ep_exclusive_unlink_locked sock.

Definition ep_exclusive_release_quiescent (sock : ptr) (submitted_afd_events : Z) : MW unit :=
  base <- rd w_socks sock s_base_socket ;;
  let quiescent_classes := ep_exclusive_quiescent_classes submitted_afd_events in
  exclusive_drop_stale sock base ;;
  exclusive_remove_all base quiescent_classes.

Definition ep_exclusive_release_inactive (sock : ptr) (inactive_classes : Z) : MW unit :=
  base <- rd w_socks sock s_base_socket ;;
  exclusive_drop_stale sock base ;;
  exclusive_remove_all base inactive_classes.

(** ** Invariant and abstraction *)

#[export] Instance exclusive_dll : DLL s_exclusive_next s_exclusive_prev.
Proof. by split. Qed.

(** The operations touch only the buckets and the claim fields. *)
Definition excl_only (w w' : world) : Prop :=
  w' = w <| w_exclusive := w_exclusive w' |> <| w_socks := w_socks w' |>.

Definition erase_claim (s : ep_sock) : ep_sock :=
  s <| s_exclusive_next := NULL |> <| s_exclusive_prev := NULL |>
    <| s_exclusive_claim_base := 0 |> <| s_exclusive_claim_classes := 0 |>.

Definition excl_frame (w w' : world) : Prop :=
  excl_only w w' /\ erase_claim <$> w_socks w' = erase_claim <$> w_socks w.

#[export] Instance excl_frame_preorder : PreOrder excl_frame.
Proof.
  split.
  - intros w. split; [by destruct w|done].
  - intros w1 w2 w3 [H1 E1] [H2 E2]. split; [|congruence].
    unfold excl_only in *. rewrite H2, H1. by destruct w1, w2, w3.
Qed.

Lemma excl_frame_intro w E S :
  erase_claim <$> S = erase_claim <$> w_socks w ->
  excl_frame w (w <| w_exclusive := E |> <| w_socks := S |>).
Proof. by split. Qed.

Record excl_inv (w : world) (B : Z -> list addr) : Prop := {
  xi_len : length (w_exclusive w) = 128%nat;
  xi_head b : 0 <= b < 128 -> w_exclusive w !! Z.to_nat b = Some (head (B b));
  xi_list b : 0 <= b < 128 -> dlist s_exclusive_next s_exclusive_prev (w_socks w) (B b);
  xi_in a s : w_socks w !! a = Some s -> s_exclusive_claim_classes s <> 0 ->
    a ∈ B (ep_exclusive_bucket (s_exclusive_claim_base s));
  xi_out b a : 0 <= b < 128 -> a ∈ B b -> exists s, w_socks w !! a = Some s /\
    s_exclusive_claim_classes s <> 0 /\ ep_exclusive_bucket (s_exclusive_claim_base s) = b;
  xi_free a s : w_socks w !! a = Some s -> s_exclusive_claim_classes s = 0 ->
    s_exclusive_next s = NULL /\ s_exclusive_prev s = NULL
}.

(** What each registration owns: a provider socket and a set of classes. *)
Definition claim_of (s : ep_sock) : option (Z * Z) :=
  if s_exclusive_claim_classes s =? 0 then None
  else Some (s_exclusive_claim_base s, s_exclusive_claim_classes s).
Definition claims (w : world) : gmap addr (Z * Z) := omap claim_of (w_socks w).

Lemma bucket_range base : 0 <= ep_exclusive_bucket base < 128.
Proof. apply Z.mod_pos_bound. done. Qed.

Lemma excl_disjoint w B b b' a :
  excl_inv w B -> 0 <= b < 128 -> 0 <= b' < 128 -> a ∈ B b -> a ∈ B b' -> b = b'.
Proof.
  intros HI Hb Hb' H1 H2. destruct (xi_out _ _ HI b a Hb H1) as (s & Hs & _ & <-).
  destruct (xi_out _ _ HI b' a Hb' H2) as (s' & Hs' & _ & <-). congruence.
Qed.

Lemma get_bucket_run w B b :
  excl_inv w B -> 0 <= b < 128 -> get_bucket b w = Some (head (B b), w).
Proof. intros HI Hb. unfold get_bucket. by rewrite (xi_head _ _ HI). Qed.

(** ** Unlinking *)

Definition cleared (s : ep_sock) : ep_sock :=
  s <| s_exclusive_next := NULL |> <| s_exclusive_prev := NULL |>
    <| s_exclusive_claim_base := INVALID_SOCKET |> <| s_exclusive_claim_classes := 0 |>.

Lemma unlink_run w B a s b l1 l2 :
  excl_inv w B -> w_socks w !! a = Some s -> s_exclusive_claim_classes s <> 0 ->
  b = ep_exclusive_bucket (s_exclusive_claim_base s) -> B b = l1 ++ a :: l2 ->
  ep_exclusive_unlink_locked (Some a) w = Some (tt,
    w <| w_exclusive := <[Z.to_nat b := head (l1 ++ l2)]> (w_exclusive w) |>
      <| w_socks := <[a := cleared s]> (unlink_heap s_exclusive_next s_exclusive_prev
                                          (w_socks w) l1 l2) |>).
Proof.
  intros HI Ha Hc Hb HB. assert (Hbr : 0 <= b < 128) by (subst b; apply bucket_range).
  pose proof (xi_list _ _ HI b Hbr) as Hl. rewrite HB in Hl.
  destruct (dlist_split _ _ _ _ _ Hl Ha) as (Hn & Hp & Ha1 & Ha2).
  pose proof (xi_head _ _ HI b Hbr) as Hhd. rewrite HB in Hhd.
  assert (Hin : forall p x, (last l1 = Some x \/ head l2 = Some x) ->
            is_Some (upd (w_socks w) p (set s_exclusive_next (fun _ => head l2)) !! x)).
  { intros p x Hx. destruct (dlist_in_heap _ _ x Hl) as [r Hr].
    { destruct Hx as [?%last_Some_elem_of|?%head_Some_elem_of]; set_solver. }
    rewrite upd_lookup, Hr. case_decide; by eexists. }
  unfold ep_exclusive_unlink_locked. repeat mstep. rewrite (proj2 (Z.eqb_neq _ _) Hc).
  repeat mstep. rewrite <- Hb, Hn, Hp.
  rewrite (bind_some _ _ w tt (w <| w_exclusive := <[Z.to_nat b := head (l1 ++ l2)]> (w_exclusive w) |>
       <| w_socks := upd (w_socks w) (last l1) (set s_exclusive_next (fun _ => head l2)) |>)).
  2:{ destruct (last l1) as [p|] eqn:El.
      - rewrite list_insert_id by (by destruct l1). cbv iota.
        destruct (dlist_in_heap _ _ p Hl) as [r Hr].
        { apply last_Some_elem_of in El. set_solver. }
        erewrite wr_some by done. change (alter ?u ?a ?h) with (upd h (Some a) u).
        rewrite (upd_insert _ _ r) by done. by destruct w.
      - apply last_None in El as ->. cbn [app head upd] in *. rewrite (bind_some _ _ _ (Some a) w).
        + rewrite bool_decide_eq_true_2 by done. mstep. unfold set_bucket. rewrite Hhd. by destruct w.
        + unfold get_bucket. by rewrite Hhd. }
  erewrite bind_some by (apply wr_opt; [intros x Hx; sget; by apply Hin; right|by destruct w]).
  sget.
  fold (unlink_heap s_exclusive_next s_exclusive_prev (w_socks w) l1 l2).
  assert (Hau : unlink_heap s_exclusive_next s_exclusive_prev (w_socks w) l1 l2 !! a = Some s).
  { unfold unlink_heap. rewrite !upd_lookup, !decide_False; [done|..].
    - intros ?%last_Some_elem_of. done.
    - intros ?%head_Some_elem_of. done. }
  repeat mstep. erewrite wr_some by mlookup. sget. rewrite !insert_insert_eq. by destruct w.
Qed.

Definition same_claim (s s' : ep_sock) : Prop :=
  s_exclusive_claim_base s' = s_exclusive_claim_base s /\
  s_exclusive_claim_classes s' = s_exclusive_claim_classes s.

(** [h'] has the objects of [h] with the same claims, and the objects outside
    [l] unchanged. *)
Definition relinked (l : list addr) (h h' : gmap addr ep_sock) : Prop :=
  forall x, exists u, h' !! x = u <$> h !! x /\ (forall s, same_claim s (u s)) /\
    (x ∉ l -> u = id).

Lemma relinked_refl l h : relinked l h h.
Proof. intros x. exists id. split_and!; [by destruct (h !! x)|done|done]. Qed.

Lemma relinked_upd l h h' p u :
  relinked l h h' -> (forall s, same_claim s (u s)) ->
  (forall x, p = Some x -> x ∈ l) -> relinked l h (upd h' p u).
Proof.
  intros Hr Hu Hp x. destruct (Hr x) as (v & Hv & Hs & Hid). rewrite upd_lookup, Hv.
  case_decide as E.
  - exists (u ∘ v). split_and!.
    + by destruct (h !! x).
    + intros s. destruct (Hs s), (Hu (v s)). split; simpl; congruence.
    + intros Hx. by apply Hp in E.
  - exists v. done.
Qed.

Lemma unlink_relinked h l1 l2 :
  relinked (l1 ++ l2) h (unlink_heap s_exclusive_next s_exclusive_prev h l1 l2).
Proof.
  unfold unlink_heap. apply relinked_upd; [apply relinked_upd; [apply relinked_refl|..]|..]; try done.
  - intros x ?%last_Some_elem_of. set_solver.
  - intros x ?%head_Some_elem_of. set_solver.
Qed.

Lemma relinked_claims l h h' : relinked l h h' -> omap claim_of h' = omap claim_of h.
Proof.
  intros Hr. apply map_eq. intros x. rewrite !lookup_omap.
  destruct (Hr x) as (u & -> & Hs & _). destruct (h !! x) as [s|]; [|done]. simpl.
  unfold claim_of. by destruct (Hs s) as [-> ->].
Qed.

Lemma unlink_inv w B a s b l1 l2 :
  excl_inv w B -> w_socks w !! a = Some s -> s_exclusive_claim_classes s <> 0 ->
  b = ep_exclusive_bucket (s_exclusive_claim_base s) -> B b = l1 ++ a :: l2 ->
  excl_inv (w <| w_exclusive := <[Z.to_nat b := head (l1 ++ l2)]> (w_exclusive w) |>
      <| w_socks := <[a := cleared s]> (unlink_heap s_exclusive_next s_exclusive_prev
                                          (w_socks w) l1 l2) |>)
    (fun b => filter (fun x => x <> a) (B b)).
Proof.
  intros HI Ha Hc Hb HB. assert (Hbr : 0 <= b < 128) by (subst b; apply bucket_range).
  pose proof (xi_list _ _ HI b Hbr) as Hl. rewrite HB in Hl.
  destruct (dlist_split _ _ _ _ _ Hl Ha) as (Hn & Hp & Ha1 & Ha2).
  assert (Hother : forall b', 0 <= b' < 128 -> b' <> b -> a ∉ B b').
  { intros b' Hb' Hne Hin. apply Hne. eapply excl_disjoint; [done..| |]; [exact Hin|].
    rewrite HB. set_solver. }
  assert (Hfb : filter (fun x => x <> a) (B b) = l1 ++ l2) by (rewrite HB; by apply filter_ne_split).
  pose proof (unlink_relinked (w_socks w) l1 l2) as Hr.
  split; sget.
  - rewrite length_insert. exact (xi_len _ _ HI).
  - intros b' Hb'. destruct (decide (b' = b)) as [->|Hne].
    + rewrite Hfb, list_lookup_insert_eq; [done|]. rewrite (xi_len _ _ HI). lia.
    + rewrite list_lookup_insert_ne by lia. rewrite filter_ne_notin by auto.
      by apply (xi_head _ _ HI).
  - intros b' Hb'. destruct (decide (b' = b)) as [->|Hne].
    + rewrite Hfb. apply dlist_insert_ne; [set_solver|]. by eapply dlist_unlink.
    + rewrite filter_ne_notin by auto. apply dlist_insert_ne; [by auto|].
      apply dlist_unlink_other; [|by apply (xi_list _ _ HI)].
      intros x Hx. assert (x ∉ B b) as Hxb.
      { intros Hx'. apply Hne. by eapply (excl_disjoint w B b' b x). }
      rewrite HB in Hxb. set_solver.
  - intros x s' [[<- <-]|[Hne Hx]]%lookup_insert_Some Hcl; [done|].
    destruct (Hr x) as (u & Hu & Hs & _). rewrite Hu in Hx.
    destruct (w_socks w !! x) as [s0|] eqn:E0; [|done]. simpl in Hx. injection Hx as <-.
    destruct (Hs s0) as [Eb Ec]. rewrite Ec in Hcl. rewrite Eb.
    apply list_elem_of_filter. split; [done|]. by apply (xi_in _ _ HI).
  - intros b' x Hb' [Hne Hx]%list_elem_of_filter.
    destruct (xi_out _ _ HI b' x Hb' Hx) as (s0 & Hs0 & Hc0 & Eb0).
    destruct (Hr x) as (u & Hu & Hs & _). rewrite lookup_insert_ne, Hu, Hs0 by done. simpl.
    destruct (Hs s0) as [Eb Ec]. exists (u s0). by rewrite Eb, Ec.
  - intros x s' [[<- <-]|[Hne Hx]]%lookup_insert_Some Hcl; [done|].
    destruct (Hr x) as (u & Hu & Hs & Hid). rewrite Hu in Hx.
    destruct (w_socks w !! x) as [s0|] eqn:E0; [|done]. simpl in Hx. injection Hx as <-.
    destruct (Hs s0) as [Eb Ec]. rewrite Ec in Hcl. rewrite Hid; [by apply (xi_free _ _ HI x)|].
    intros Hin. destruct (xi_out _ _ HI b x Hbr) as (s1 & Hs1 & Hc1 & _); [rewrite HB; set_solver|].
    congruence.
Qed.

(** Unlinking removes exactly the registration's own claim. *)
Lemma unlink_spec w B a s :
  excl_inv w B -> w_socks w !! a = Some s ->
  exists w', ep_exclusive_unlink_locked (Some a) w = Some (tt, w') /\
    excl_inv w' (fun b => filter (fun x => x <> a) (B b)) /\
    claims w' = delete a (claims w) /\ excl_frame w w'.
Proof.
  intros HI Ha. destruct (decide (s_exclusive_claim_classes s = 0)) as [Hc|Hc].
  - exists w. destruct (xi_free _ _ HI a s Ha Hc) as [Hn Hp]. split_and!.
    + unfold ep_exclusive_unlink_locked. repeat mstep. rewrite Hc, Hn, Hp. done.
    + destruct HI as [H1 H2 H3 H4 H5 H6].
      assert (Hni : forall b, 0 <= b < 128 -> filter (fun x => x <> a) (B b) = B b).
      { intros b Hb. apply filter_ne_notin. intros Hin. destruct (H5 b a Hb Hin) as (? & ? & ? & _).
        congruence. }
      split; try done.
      * intros b Hb. rewrite Hni by done. by apply H2.
      * intros b Hb. rewrite Hni by done. by apply H3.
      * intros x s' Hx Hcl. rewrite Hni by apply bucket_range. by apply H4.
      * intros b x Hb. rewrite Hni by done. by apply H5.
    + symmetry. apply delete_id. unfold claims. rewrite lookup_omap, Ha. simpl.
      unfold claim_of. by rewrite Hc.
    + reflexivity.
  - pose proof (xi_in _ _ HI a s Ha Hc) as Hin.
    apply list_elem_of_split in Hin as (l1 & l2 & HB).
    eexists. split; [by eapply unlink_run|]. split; [by eapply unlink_inv|]. split.
    + unfold claims. sget. rewrite omap_insert. simpl.
      change (claim_of (cleared s)) with (@None (Z * Z)). simpl.
      by rewrite (relinked_claims _ _ _ (unlink_relinked (w_socks w) l1 l2)).
    + apply excl_frame_intro. rewrite fmap_insert. change (erase_claim (cleared s)) with (erase_claim s).
      unfold unlink_heap. rewrite !fmap_upd_same by done. apply insert_id. by rewrite lookup_fmap, Ha.
Qed.

(** ** Removing classes *)

Definition drop_classes (classes : Z) (c : Z * Z) : option (Z * Z) :=
  let remaining := Z.ldiff c.2 classes in
  if remaining =? 0 then None else Some (c.1, remaining).

Lemma not_has_ldiff c classes : has c classes = false -> Z.ldiff c classes = c.
Proof.
  unfold has. intros H%negb_false_iff%Z.eqb_eq. apply Z.bits_inj'. intros k Hk.
  apply (f_equal (fun y => Z.testbit y k)) in H. rewrite Z.land_spec, Z.bits_0 in H.
  rewrite Z.ldiff_spec. destruct (Z.testbit c k), (Z.testbit classes k); done.
Qed.

Lemma claims_lookup w a s : w_socks w !! a = Some s -> claims w !! a = claim_of s.
Proof. intros Ha. unfold claims. by rewrite lookup_omap, Ha. Qed.

(** A write that keeps the links and the claimed socket, and keeps the class
    set nonempty. *)
Lemma excl_inv_write w B a s s' :
  excl_inv w B -> w_socks w !! a = Some s ->
  s_exclusive_next s' = s_exclusive_next s -> s_exclusive_prev s' = s_exclusive_prev s ->
  s_exclusive_claim_base s' = s_exclusive_claim_base s ->
  s_exclusive_claim_classes s <> 0 -> s_exclusive_claim_classes s' <> 0 ->
  excl_inv (w <| w_socks := <[a := s']> (w_socks w) |>) B.
Proof.
  intros [H1 H2 H3 H4 H5 H6] Ha Hn Hp Hb Hc Hc'. split; sget; try done.
  - intros b Hbr. eapply dlist_insert_same; [done..|]. by apply H3.
  - intros x t [[<- <-]|[Hne Hx]]%lookup_insert_Some Ht; [rewrite Hb|]; by eapply H4.
  - intros b x Hbr Hx. destruct (H5 b x Hbr Hx) as (t & Ht & Htc & Htb).
    destruct (decide (x = a)) as [->|Hne].
    + exists s'. rewrite lookup_insert_eq, Hb. split_and!; [done|done|]. congruence.
    + exists t. by rewrite lookup_insert_ne.
  - intros x t [[<- <-]|[Hne Hx]]%lookup_insert_Some Ht; [done|]. by eapply H6.
Qed.

Lemma remove_classes_spec w B a s classes :
  excl_inv w B -> w_socks w !! a = Some s -> s_exclusive_claim_classes s <> 0 ->
  exists w' B', ep_exclusive_remove_classes_locked (Some a) classes w = Some (tt, w') /\
    excl_inv w' B' /\
    claims w' = partial_alter (fun o => o ≫= drop_classes classes) a (claims w) /\
    excl_frame w w' /\
    forall b l1 l2, 0 <= b < 128 -> B b = l1 ++ a :: l2 -> exists l1', B' b = l1' ++ l2.
Proof.
  intros HI Ha Hc. unfold ep_exclusive_remove_classes_locked. mstep.
  assert (Hcl : claims w !! a = Some (s_exclusive_claim_base s, s_exclusive_claim_classes s)).
  { rewrite (claims_lookup _ _ _ Ha). unfold claim_of. by rewrite (proj2 (Z.eqb_neq _ _) Hc). }
  destruct (has (s_exclusive_claim_classes s) classes) eqn:Hh; simpl negb; cbv iota.
  - destruct (Z.eqb_spec (Z.ldiff (s_exclusive_claim_classes s) classes) 0) as [E|E].
    + destruct (unlink_spec w B a s HI Ha) as (w' & Hrun & HI' & Hcl' & Hf).
      eexists w', _. split_and!; [done|done| |done|].
      * rewrite Hcl'. apply map_eq. intros x. destruct (decide (x = a)) as [->|Hne].
        -- rewrite lookup_delete_eq, lookup_partial_alter_eq, Hcl. simpl.
           unfold drop_classes. simpl. by rewrite E.
        -- by rewrite lookup_delete_ne, lookup_partial_alter_ne.
      * intros b l1 l2 Hb HB. exists l1. simpl. rewrite HB.
        pose proof (dlist_nodup _ _ (xi_list _ _ HI b Hb)) as Hnd. rewrite HB in Hnd.
        apply NoDup_app in Hnd as (_ & Hd & [Hn _]%NoDup_cons). apply filter_ne_split; [|done].
        intros Hin. apply (Hd a Hin). by left.
    + eexists _, B. split; [by eapply wr_some|]. split; [by eapply excl_inv_write|]. split_and!.
      * unfold claims. sget. rewrite omap_insert. unfold claim_of at 1. sget.
        rewrite (proj2 (Z.eqb_neq _ _) E). simpl. unfold insert, map_insert. apply map_eq.
        intros x. destruct (decide (x = a)) as [->|Hne].
        -- rewrite !lookup_partial_alter_eq. change (omap claim_of (w_socks w)) with (claims w).
           rewrite Hcl. simpl. unfold drop_classes. simpl. by rewrite (proj2 (Z.eqb_neq _ _) E).
        -- by rewrite !lookup_partial_alter_ne.
      * split; [by destruct w|]. sget. by apply (fmap_insert_same _ _ _ s).
      * intros b l1 l2 _ HB. exists (l1 ++ [a]). by rewrite <- app_assoc.
  - eexists w, B. split_and!; [done|done| |done|].
    + apply map_eq. intros x. destruct (decide (x = a)) as [->|Hne].
      * rewrite lookup_partial_alter_eq, Hcl. simpl. unfold drop_classes. simpl.
        rewrite not_has_ldiff by done. by rewrite (proj2 (Z.eqb_neq _ _) Hc).
      * by rewrite lookup_partial_alter_ne.
    + intros b l1 l2 _ HB. exists (l1 ++ [a]). by rewrite <- app_assoc.
Qed.

(** Removing classes from every claim on one provider socket. *)
Definition abs_remove (base classes : Z) (m : gmap addr (Z * Z)) : gmap addr (Z * Z) :=
  omap (fun c => if c.1 =? base then drop_classes classes c else Some c) m.

Lemma bucket_next w B b l1 x l2 s :
  excl_inv w B -> 0 <= b < 128 -> B b = l1 ++ x :: l2 -> w_socks w !! x = Some s ->
  s_exclusive_next s = head l2.
Proof.
  intros HI Hb HB Hx. pose proof (xi_list _ _ HI b Hb) as Hl. rewrite HB in Hl.
  by destruct (dlist_split _ _ _ _ _ Hl Hx) as (? & _).
Qed.

Lemma remove_loop_spec base classes l2 fuel l1 w B :
  excl_inv w B -> B (ep_exclusive_bucket base) = l1 ++ l2 -> (length l2 <= fuel)%nat ->
  exists w' B', exclusive_remove_loop fuel base classes (head l2) w = Some (tt, w') /\
    excl_inv w' B' /\ excl_frame w w' /\
    forall x, claims w' !! x =
      if decide (x ∈ l2) then claims w !! x ≫= (fun c => if c.1 =? base then drop_classes classes c else Some c)
      else claims w !! x.
Proof.
  pose proof (bucket_range base) as Hb.
  revert fuel l1 w B. induction l2 as [|a l2 IH]; intros fuel l1 w B HI HB Hf.
  - exists w, B. split_and!; [by destruct fuel|done|done|done].
  - destruct fuel as [|fuel]; [simpl in Hf; lia|].
    destruct (xi_out _ _ HI _ a Hb) as (s & Ha & Hc & Hbk); [rewrite HB; set_solver|].
    pose proof (bucket_next _ _ _ _ _ _ _ HI Hb HB Ha) as Hn.
    pose proof (dlist_nodup _ _ (xi_list _ _ HI _ Hb)) as Hnd. rewrite HB in Hnd.
    apply NoDup_app in Hnd as (_ & _ & [Hal2 _]%NoDup_cons).
    cbn [head exclusive_remove_loop]. repeat mstep. rewrite Hn.
    assert (Hcl : claims w !! a = Some (s_exclusive_claim_base s, s_exclusive_claim_classes s)).
    { rewrite (claims_lookup _ _ _ Ha). unfold claim_of. by rewrite (proj2 (Z.eqb_neq _ _) Hc). }
    destruct (Z.eqb_spec (s_exclusive_claim_base s) base) as [E|E].
    + destruct (remove_classes_spec w B a s classes HI Ha Hc) as (w1 & B1 & Hrun & HI1 & Hc1 & Hf1 & HB1).
      erewrite bind_some by exact Hrun. cbv beta.
      destruct (HB1 _ _ _ Hb HB) as [l1' HB1'].
      destruct (IH fuel l1' w1 B1) as (w' & B' & Hrun' & HI' & Hf' & Hc'); [done|done|simpl in Hf; lia|].
      exists w', B'. split_and!; [done|done|by etrans|]. intros x. rewrite Hc', Hc1.
      destruct (decide (x = a)) as [->|Hne].
      * rewrite decide_False, decide_True, lookup_partial_alter_eq, Hcl by set_solver. simpl.
        by rewrite (proj2 (Z.eqb_eq _ _) E).
      * rewrite lookup_partial_alter_ne by done. repeat case_decide; set_solver.
    + mstep. destruct (IH fuel (l1 ++ [a]) w B) as (w' & B' & Hrun' & HI' & Hf' & Hc');
        [done|by rewrite <- app_assoc|simpl in Hf; lia|].
      exists w', B'. split_and!; [done|done|done|]. intros x. rewrite Hc'.
      destruct (decide (x = a)) as [->|Hne].
      * rewrite decide_False, decide_True, Hcl by set_solver. simpl.
        by rewrite (proj2 (Z.eqb_neq _ _) E).
      * repeat case_decide; set_solver.
Qed.

(** Every claim on [base] is in the bucket of [base]. *)
Lemma claim_in_bucket w B x base c :
  excl_inv w B -> claims w !! x = Some (base, c) -> x ∈ B (ep_exclusive_bucket base).
Proof.
  intros HI Hx. unfold claims in Hx. rewrite lookup_omap in Hx.
  destruct (w_socks w !! x) as [s|] eqn:E; [|done]. simpl in Hx. unfold claim_of in Hx.
  destruct (Z.eqb_spec (s_exclusive_claim_classes s) 0); [done|]. injection Hx as <- <-.
  by apply (xi_in _ _ HI).
Qed.

Lemma remove_all_spec w B base classes :
  excl_inv w B ->
  exists w' B', exclusive_remove_all base classes w = Some (tt, w') /\
    excl_inv w' B' /\ excl_frame w w' /\ claims w' = abs_remove base classes (claims w).
Proof.
  intros HI. pose proof (bucket_range base) as Hb. unfold exclusive_remove_all.
  erewrite bind_some by (by apply get_bucket_run). mstep. unfold sock_fuel.
  destruct (remove_loop_spec base classes (B (ep_exclusive_bucket base)) (S (size (w_socks w))) []
              w B) as (w' & B' & Hrun & HI' & Hf & Hc); [done|done| |].
  { pose proof (dlist_length _ _ (xi_list _ _ HI _ Hb)). lia. }
  exists w', B'. split_and!; [done|done|done|]. apply map_eq. intros x. rewrite Hc.
  unfold abs_remove. rewrite lookup_omap. case_decide as Hx; [done|].
  destruct (claims w !! x) as [[b c]|] eqn:E; [|done]. simpl.
  destruct (Z.eqb_spec b base) as [->|]; [|done]. exfalso. apply Hx. by eapply claim_in_bucket.
Qed.

(** ** Adding classes *)

(** Dropping a claim on another socket than [base]. *)
Definition abs_drop_stale (a : addr) (base : Z) (m : gmap addr (Z * Z)) : gmap addr (Z * Z) :=
  match m !! a with
  | Some c => if c.1 =? base then m else delete a m
  | None => m
  end.

Lemma claims_cases w a s :
  w_socks w !! a = Some s ->
  (s_exclusive_claim_classes s = 0 /\ claims w !! a = None) \/
  (s_exclusive_claim_classes s <> 0 /\
   claims w !! a = Some (s_exclusive_claim_base s, s_exclusive_claim_classes s)).
Proof.
  intros Ha. rewrite (claims_lookup _ _ _ Ha). unfold claim_of.
  destruct (Z.eqb_spec (s_exclusive_claim_classes s) 0); auto.
Qed.

Lemma frame_sock w w' a s :
  excl_frame w w' -> w_socks w !! a = Some s ->
  exists s', w_socks w' !! a = Some s' /\ erase_claim s' = erase_claim s.
Proof. intros [_ E]. by apply fmap_same_lookup. Qed.

Lemma drop_stale_spec w B a s base :
  excl_inv w B -> w_socks w !! a = Some s ->
  exists w' B', exclusive_drop_stale (Some a) base w = Some (tt, w') /\
    excl_inv w' B' /\ excl_frame w w' /\ claims w' = abs_drop_stale a base (claims w).
Proof.
  intros HI Ha. unfold exclusive_drop_stale. repeat mstep. unfold abs_drop_stale.
  destruct (claims_cases w a s Ha) as [[Hc ->]|[Hc ->]].
  - rewrite Hc. simpl. exists w, B. by split_and!.
  - rewrite (proj2 (Z.eqb_neq _ _) Hc). simpl.
    destruct (Z.eqb_spec (s_exclusive_claim_base s) base); simpl.
    + exists w, B. by split_and!.
    + destruct (unlink_spec w B a s HI Ha) as (w' & Hrun & HI' & Hc' & Hf).
      by exists w', (fun b => filter (fun x => x <> a) (B b)).
Qed.

(** The heap after a claimless registration joins bucket [l] with [classes]. *)
Definition joined (s : ep_sock) (base classes : Z) (l : list addr) : ep_sock :=
  s <| s_exclusive_claim_base := base |> <| s_exclusive_prev := NULL |>
    <| s_exclusive_next := head l |> <| s_exclusive_claim_classes := classes |>.

Definition join_heap (h : gmap addr ep_sock) (a : addr) (s : ep_sock) (base classes : Z)
    (l : list addr) : gmap addr ep_sock :=
  push_heap s_exclusive_prev h a (joined s base classes l) l.

Lemma join_run w B a s base classes :
  excl_inv w B -> w_socks w !! a = Some s -> s_exclusive_claim_classes s = 0 ->
  let b := ep_exclusive_bucket base in
  (exclusive_link (Some a) base ;;
   owned <- rd w_socks (Some a) s_exclusive_claim_classes ;;
   wr w_socks (Some a) s_exclusive_claim_classes (Z.lor owned classes)) w =
  Some (tt, w <| w_exclusive := <[Z.to_nat b := Some a]> (w_exclusive w) |>
              <| w_socks := join_heap (w_socks w) a s base classes (B b) |>).
Proof.
  intros HI Ha Hc b. assert (Hb : 0 <= b < 128) by apply bucket_range.
  pose proof (xi_head _ _ HI b Hb) as Hhd. pose proof (xi_list _ _ HI b Hb) as Hl.
  assert (Hab : a ∉ B b).
  { intros Hin. destruct (xi_out _ _ HI b a Hb Hin) as (t & Ht & Htc & _). congruence. }
  unfold exclusive_link. fold b. rewrite bind_assoc.
  erewrite bind_some by (by apply get_bucket_run). cbv beta. repeat mstep. sget.
  erewrite bind_some.
  2:{ apply wr_opt; [|by destruct w]. intros x Hx. sget.
      destruct (dlist_in_heap _ _ x Hl) as [r Hr]; [by apply head_Some_elem_of|].
      rewrite !insert_insert_eq, lookup_insert_ne; [by eexists|].
      intros ->. by apply Hab, head_Some_elem_of. }
  sget. erewrite bind_some.
  2:{ unfold set_bucket. sget. rewrite Hhd. reflexivity. }
  rewrite !insert_insert_eq.
  set (r := s <| s_exclusive_claim_base := base |> <| s_exclusive_prev := NULL |>
              <| s_exclusive_next := head (B b) |>).
  assert (Hna : head (B b) <> Some a) by (intros ?%head_Some_elem_of; done).
  assert (Hlk : upd (<[a := r]> (w_socks w)) (head (B b))
                  (set s_exclusive_prev (fun _ => Some a)) !! a = Some r).
  { rewrite upd_lookup, decide_False by done. apply lookup_insert_eq. }
  mstep. erewrite wr_some by (sget; exact Hlk). sget.
  change (s_exclusive_claim_classes r) with (s_exclusive_claim_classes s). rewrite Hc. simpl Z.lor.
  replace (<[a:=r <| s_exclusive_claim_classes := classes |>]>
             (upd (<[a:=r]> (w_socks w)) (head (B b)) (set s_exclusive_prev (fun _ => Some a))))
    with (join_heap (w_socks w) a s base classes (B b)); [by destruct w|].
  apply map_eq. intros x. unfold join_heap, push_heap. rewrite upd_lookup.
  destruct (decide (x = a)) as [->|Hne].
  - rewrite decide_False by done. by rewrite !lookup_insert_eq.
  - by rewrite !lookup_insert_ne, upd_lookup, !lookup_insert_ne by done.
Qed.

Lemma join_relinked h a s base classes l :
  relinked l (<[a := joined s base classes l]> h) (join_heap h a s base classes l).
Proof.
  apply relinked_upd; [apply relinked_refl|done|]. intros x ?%head_Some_elem_of. done.
Qed.

Lemma join_inv w B a s base classes :
  excl_inv w B -> w_socks w !! a = Some s -> s_exclusive_claim_classes s = 0 -> classes <> 0 ->
  let b := ep_exclusive_bucket base in
  excl_inv (w <| w_exclusive := <[Z.to_nat b := Some a]> (w_exclusive w) |>
              <| w_socks := join_heap (w_socks w) a s base classes (B b) |>)
    (fun b' => if decide (b' = b) then a :: B b else B b').
Proof.
  intros HI Ha Hc Hcl b. assert (Hb : 0 <= b < 128) by apply bucket_range.
  assert (Hab : forall b', 0 <= b' < 128 -> a ∉ B b').
  { intros b' Hb' Hin. destruct (xi_out _ _ HI b' a Hb' Hin) as (t & Ht & Htc & _). congruence. }
  pose proof (join_relinked (w_socks w) a s base classes (B b)) as Hr.
  assert (Hxs : forall x t, join_heap (w_socks w) a s base classes (B b) !! x = Some t -> x <> a ->
     exists t0, w_socks w !! x = Some t0 /\ same_claim t0 t /\ (x ∉ B b -> t = t0)).
  { intros x t Ht Hne. destruct (Hr x) as (u & Hu & Hs & Hid). rewrite Hu, lookup_insert_ne in Ht by done.
    destruct (w_socks w !! x) as [t0|]; [|done]. simpl in Ht. injection Ht as <-.
    exists t0. split_and!; [done|apply Hs|]. intros Hx. by rewrite (Hid Hx). }
  assert (Hja : join_heap (w_socks w) a s base classes (B b) !! a = Some (joined s base classes (B b))).
  { unfold join_heap, push_heap. rewrite upd_lookup, decide_False; [apply lookup_insert_eq|].
    intros ?%head_Some_elem_of. by eapply Hab. }
  split; sget.
  - rewrite length_insert. exact (xi_len _ _ HI).
  - intros b' Hb'. case_decide as E.
    + subst b'. rewrite list_lookup_insert_eq; [done|]. rewrite (xi_len _ _ HI). lia.
    + rewrite list_lookup_insert_ne by lia. by apply (xi_head _ _ HI).
  - intros b' Hb'. case_decide as E.
    + apply dlist_push; [by apply (xi_list _ _ HI)|by apply Hab|done|done].
    + apply dlist_push_other; [by apply Hab| |by apply (xi_list _ _ HI)].
      intros x Hx Hx'. apply E. by eapply (excl_disjoint w B b' b x).
  - intros x t Ht Htc. destruct (decide (x = a)) as [->|Hne].
    + rewrite Hja in Ht. injection Ht as <-. rewrite decide_True by done. by left.
    + destruct (Hxs x t Ht Hne) as (t0 & Ht0 & [Eb Ec] & _). rewrite Eb. rewrite Ec in Htc.
      pose proof (xi_in _ _ HI x t0 Ht0 Htc) as Hin. case_decide as E; [|done]. right. by rewrite <- E.
  - intros b' x Hb' Hx. destruct (decide (x = a)) as [->|Hne].
    + exists (joined s base classes (B b)). split_and!; [done|done|].
      case_decide as E; [done|]. by apply Hab in Hx.
    + assert (Hx' : x ∈ B b') by (case_decide as E; [subst; set_solver|done]).
      destruct (xi_out _ _ HI b' x Hb' Hx') as (t0 & Ht0 & Hc0 & Hb0).
      destruct (Hr x) as (u & Hu & Hs & _). rewrite lookup_insert_ne, Ht0 in Hu by done.
      exists (u t0). destruct (Hs t0) as [-> ->]. by rewrite Hu.
  - intros x t Ht Htc. destruct (decide (x = a)) as [->|Hne].
    + rewrite Hja in Ht. injection Ht as <-. done.
    + destruct (Hxs x t Ht Hne) as (t0 & Ht0 & [Eb Ec] & Hid). rewrite Ec in Htc.
      rewrite Hid; [by apply (xi_free _ _ HI x)|]. intros Hx.
      destruct (xi_out _ _ HI b x Hb Hx) as (t1 & Ht1 & Hc1 & _). congruence.
Qed.

Definition abs_add (a : addr) (base classes : Z) (m : gmap addr (Z * Z)) : gmap addr (Z * Z) :=
  if classes =? 0 then m
  else <[a := (base, match abs_drop_stale a base m !! a with
                     | Some c => Z.lor c.2 classes
                     | None => classes
                     end)]> (abs_drop_stale a base m).

Lemma add_classes_spec w B a s base classes :
  excl_inv w B -> w_socks w !! a = Some s -> 0 <= classes ->
  exists w' B', ep_exclusive_add_classes_locked (Some a) base classes w = Some (tt, w') /\
    excl_inv w' B' /\ excl_frame w w' /\ claims w' = abs_add a base classes (claims w).
Proof.
  intros HI Ha Hnn. unfold ep_exclusive_add_classes_locked, abs_add.
  destruct (Z.eqb_spec classes 0) as [->|Hcl]; [exists w, B; by split_and!|].
  destruct (drop_stale_spec w B a s base HI Ha) as (w1 & B1 & Hrun & HI1 & Hf1 & Hc1).
  erewrite bind_some by exact Hrun. cbv beta. rewrite <- Hc1.
  destruct (frame_sock _ _ _ _ Hf1 Ha) as (s1 & Hs1 & _). mstep.
  destruct (claims_cases w1 a s1 Hs1) as [[Hc Hcm]|[Hc Hcm]]; rewrite Hcm.
  - rewrite Hc. simpl Z.eqb. cbv iota.
    rewrite (join_run w1 B1 a s1 base classes HI1 Hs1 Hc). eexists _, _. split; [done|].
    split; [by apply join_inv|]. split.
    + etrans; [exact Hf1|]. apply excl_frame_intro. unfold join_heap, push_heap.
      rewrite fmap_upd_same by done. by apply (fmap_insert_same _ _ _ s1).
    + unfold claims. sget. rewrite (relinked_claims _ _ _ (join_relinked _ _ _ _ _ _)).
      rewrite omap_insert. change (claim_of (joined s1 base classes (B1 (ep_exclusive_bucket base))))
        with (if classes =? 0 then None else Some (base, classes)).
      by rewrite (proj2 (Z.eqb_neq _ _) Hcl).
  - rewrite (proj2 (Z.eqb_neq _ _) Hc). repeat mstep.
    assert (Hb : s_exclusive_claim_base s1 = base).
    { pose proof Hcm as Hm. rewrite Hc1 in Hm. unfold abs_drop_stale in Hm.
      destruct (claims w !! a) as [[b0 c0]|] eqn:E; simpl in Hm; [|congruence].
      destruct (Z.eqb_spec b0 base); [congruence|]. by rewrite lookup_delete_eq in Hm. }
    eexists _, B1. split; [by eapply wr_some|].
    assert (Hne : Z.lor (s_exclusive_claim_classes s1) classes <> 0)
      by (rewrite Z.lor_eq_0_iff; naive_solver).
    split; [by eapply excl_inv_write|]. split.
    + etrans; [exact Hf1|]. split; [by destruct w1|]. sget. by apply (fmap_insert_same _ _ _ s1).
    + unfold claims. sget. rewrite omap_insert. unfold claim_of at 1. sget.
      rewrite (proj2 (Z.eqb_neq _ _) Hne), Hb. done.
Qed.

(** ** Scanning a bucket *)

Definition visit (m : gmap addr (Z * Z)) (sock : addr) (base requested : Z)
    (a : exclusive_seen) (x : addr) : exclusive_seen :=
  match m !! x with
  | Some c => exclusive_visit sock x base requested c.1 c.2 a
  | None => a
  end.

Lemma scan_loop_run sock base requested l2 fuel l1 w B a b :
  excl_inv w B -> 0 <= b < 128 -> B b = l1 ++ l2 -> (length l2 <= fuel)%nat ->
  exclusive_scan_loop fuel sock base requested (head l2) a w =
    Some (foldl (visit (claims w) sock base requested) a l2, w).
Proof.
  intros HI Hb. revert fuel l1 a. induction l2 as [|x l2 IH]; intros fuel l1 a HB Hf.
  - by destruct fuel.
  - destruct fuel as [|fuel]; [simpl in Hf; lia|].
    destruct (xi_out _ _ HI b x Hb) as (s & Hx & Hc & _); [rewrite HB; set_solver|].
    cbn [head exclusive_scan_loop foldl]. repeat mstep.
    rewrite (bucket_next _ _ _ _ _ _ _ HI Hb HB Hx), (IH fuel (l1 ++ [x]));
      [|by rewrite <- app_assoc|simpl in Hf; lia].
    unfold visit at 3. rewrite (claims_lookup _ _ _ Hx). unfold claim_of.
    by rewrite (proj2 (Z.eqb_neq _ _) Hc).
Qed.

Section Seen.
Context (m : gmap addr (Z * Z)) (sock : addr) (base requested : Z).

Definition terminal (c : Z) : bool := has c EP_READINESS_CLASS_TERMINAL.

(** The claim of a peer, and of the registration itself, on [base]. *)
Definition on_peer (f : Z -> bool) (x : addr) : bool :=
  match m !! x with
  | Some c => (c.1 =? base) && negb (bool_decide (x = sock)) && f c.2
  | None => false
  end.
Definition on_self (f : Z -> bool) (x : addr) : bool :=
  match m !! x with
  | Some c => (c.1 =? base) && bool_decide (x = sock) && f c.2
  | None => false
  end.

Lemma seen_facts l a k :
  let r := foldl (visit m sock base requested) a l in
  Z.testbit (denied_classes r) k = Z.testbit (denied_classes a) k ||
    existsb (on_peer (fun c => negb (terminal c) && negb (terminal requested) &&
                               Z.testbit (Z.land c requested) k)) l /\
  peer_terminal r = peer_terminal a || existsb (on_peer terminal) l /\
  owner_terminal r = owner_terminal a || existsb (on_self terminal) l /\
  Z.testbit (owned_classes r) k = Z.testbit (owned_classes a) k ||
    existsb (on_self (fun c => Z.testbit c k)) l.
Proof.
  revert a. induction l as [|y l IH]; intros a; cbv zeta; cbn [foldl existsb].
  - by rewrite !orb_false_r.
  - destruct (IH (visit m sock base requested a y)) as (-> & -> & -> & ->). clear IH.
    rewrite !(orb_assoc _ (on_peer _ y)), !(orb_assoc _ (on_self _ y)).
    split_and!; f_equal; unfold visit, on_peer, on_self, exclusive_visit, terminal;
      destruct (m !! y) as [[b c]|]; simpl; rewrite ?orb_false_r; try done;
      destruct (b =? base), (bool_decide (y = sock)); simpl; rewrite ?orb_false_r; try done;
      destruct (has c EP_READINESS_CLASS_TERMINAL),
        (has requested EP_READINESS_CLASS_TERMINAL); simpl;
      rewrite ?orb_false_r, ?orb_true_r, ?Z.lor_spec; done.
Qed.
End Seen.

(** ** Exclusivity *)

(** Class sets are nonempty; two registrations never share a class of one
    socket, and a terminal claim excludes every other claim on it. *)
Record excl_ok (m : gmap addr (Z * Z)) : Prop := {
  ok_range x b c : m !! x = Some (b, c) -> 0 < c < 8;
  ok_pair x y b c d : x <> y -> m !! x = Some (b, c) -> m !! y = Some (b, d) ->
    Z.land c d = 0 /\ terminal c = false
}.

Lemma ok_submap m m' : excl_ok m -> m' ⊆ m -> excl_ok m'.
Proof.
  intros [H1 H2] Hs. split.
  - intros x b c Hx. eapply H1. by eapply lookup_weaken.
  - intros x y b c d Hne Hx Hy. eapply H2; [done|by eapply lookup_weaken|by eapply lookup_weaken].
Qed.

Lemma drop_stale_lookup a base m x :
  abs_drop_stale a base m !! x =
  if decide (x = a) then (match m !! a with
                          | Some c => if c.1 =? base then Some c else None
                          | None => None end)
  else m !! x.
Proof.
  unfold abs_drop_stale. case_decide as E.
  - subst x. destruct (m !! a) as [c|] eqn:Ea; [|done].
    destruct (c.1 =? base); [done|apply lookup_delete_eq].
  - destruct (m !! a) as [c|]; [|done]. destruct (c.1 =? base); [done|by apply lookup_delete_ne].
Qed.

Lemma ok_drop_stale a base m : excl_ok m -> excl_ok (abs_drop_stale a base m).
Proof.
  intros Hok. apply (ok_submap m); [done|]. unfold abs_drop_stale.
  destruct (m !! a) as [c|]; [|done]. destruct (c.1 =? base); [done|apply delete_subseteq].
Qed.

Ltac enum8 c H :=
  let E := fresh in
  assert (c = 0 \/ c = 1 \/ c = 2 \/ c = 3 \/ c = 4 \/ c = 5 \/ c = 6 \/ c = 7) as E by lia;
  destruct E as [E|[E|[E|[E|[E|[E|[E|E]]]]]]]; subst c.

(** Class sets are sets of three bits. *)
Lemma class_set_ext c d :
  0 <= c < 8 -> 0 <= d < 8 ->
  (forall k, 0 <= k < 3 -> Z.testbit c k = Z.testbit d k) -> c = d.
Proof.
  intros Hc Hd Hk. pose proof (Hk 0 ltac:(lia)). pose proof (Hk 1 ltac:(lia)).
  pose proof (Hk 2 ltac:(lia)). clear Hk. enum8 c Hc; enum8 d Hd; done.
Qed.

Lemma ldiff_range c d : 0 <= c < 8 -> 0 <= Z.ldiff c d < 8.
Proof.
  intros Hc. assert (0 <= Z.ldiff c d <= c); [|lia]. apply Z.ldiff_le; [lia|].
  apply Z.bits_inj'. intros k Hk. rewrite !Z.ldiff_spec, Z.bits_0.
  by destruct (Z.testbit c k), (Z.testbit d k).
Qed.

Lemma ok_remove base classes m : excl_ok m -> excl_ok (abs_remove base classes m).
Proof.
  intros [H1 H2].
  assert (Hx : forall x b c, abs_remove base classes m !! x = Some (b, c) ->
            exists c0, m !! x = Some (b, c0) /\ Z.land c c0 = c /\ c <> 0 /\ 0 <= c).
  { intros x b c. unfold abs_remove. rewrite lookup_omap.
    destruct (m !! x) as [[b0 c0]|] eqn:E; [|done]. simpl. pose proof (H1 x b0 c0 E).
    destruct (b0 =? base); [unfold drop_classes; simpl|].
    - destruct (Z.eqb_spec (Z.ldiff c0 classes) 0); [done|]. intros [= <- <-]. exists c0.
      split_and!; [done| |done|apply ldiff_range; lia].
      apply Z.bits_inj'. intros k Hk. rewrite Z.land_spec, Z.ldiff_spec.
      by destruct (Z.testbit c0 k), (Z.testbit classes k).
    - intros [= <- <-]. exists c0. split_and!; [done|apply Z.land_diag|lia|lia]. }
  split.
  - intros x b c (c0 & Hc0 & E & Hne & Hnn)%Hx. pose proof (H1 x b c0 Hc0).
    assert (0 <= c <= c0); [|lia]. apply Z.ldiff_le; [lia|]. rewrite <- E.
    apply Z.bits_inj'. intros k Hk. rewrite Z.ldiff_spec, Z.land_spec, Z.bits_0.
    by destruct (Z.testbit c k), (Z.testbit c0 k).
  - intros x y b c d Hne (c0 & Hc0 & Ec & _)%Hx (d0 & Hd0 & Ed & _)%Hx.
    destruct (H2 x y b c0 d0 Hne Hc0 Hd0) as [Hl Ht]. split.
    + rewrite <- Ec, <- Ed. apply Z.bits_inj'. intros k Hk. rewrite !Z.land_spec, Z.bits_0.
      apply (f_equal (fun z => Z.testbit z k)) in Hl. rewrite Z.land_spec, Z.bits_0 in Hl.
      destruct (Z.testbit c k), (Z.testbit d k), (Z.testbit c0 k), (Z.testbit d0 k); done.
    + revert Ht. unfold terminal. has_bits_in c0. has_bits_in c. intros Ht.
      rewrite <- Ec, Z.land_spec, Ht. apply andb_false_r.
Qed.

Lemma add_lookup_ne a base classes m x :
  x <> a -> abs_add a base classes m !! x = m !! x.
Proof.
  intros Hne. unfold abs_add. destruct (classes =? 0); [done|].
  rewrite lookup_insert_ne, drop_stale_lookup, decide_False by done. done.
Qed.

Lemma add_lookup_eq a base classes m :
  (forall b c, m !! a = Some (b, c) -> b = base) -> classes <> 0 ->
  abs_add a base classes m !! a =
  Some (base, match m !! a with Some c => Z.lor c.2 classes | None => classes end).
Proof.
  intros Hb Hc. unfold abs_add. rewrite (proj2 (Z.eqb_neq _ _) Hc), lookup_insert_eq.
  rewrite drop_stale_lookup, decide_True by done. destruct (m !! a) as [[b c]|] eqn:E; [|done].
  simpl. by rewrite (Hb b c eq_refl), Z.eqb_refl.
Qed.

Lemma ok_add a base classes m :
  excl_ok m -> (forall b c, m !! a = Some (b, c) -> b = base) -> 0 <= classes < 8 ->
  (forall x c, x <> a -> m !! x = Some (base, c) ->
     Z.land c classes = 0 /\ terminal c = false /\ terminal classes = false /\
     forall c', m !! a = Some (base, c') -> terminal c' = false) ->
  excl_ok (abs_add a base classes m).
Proof.
  intros [H1 H2] Ha Hc Hx. destruct (decide (classes = 0)) as [->|Hne]; [by split|].
  pose proof (add_lookup_eq a base classes m Ha Hne) as Hadd.
  assert (Hr : 0 < match m !! a with Some c => Z.lor c.2 classes | None => classes end < 8).
  { destruct (m !! a) as [[b c]|] eqn:E; [|lia]. simpl. pose proof (H1 a b c E).
    enum8 c H; enum8 classes Hc; vm_compute; by split. }
  assert (Hpair : forall y b d, y <> a -> abs_add a base classes m !! y = Some (b, d) ->
     b = base -> Z.land (match m !! a with Some c => Z.lor c.2 classes | None => classes end) d = 0 /\
     terminal (match m !! a with Some c => Z.lor c.2 classes | None => classes end) = false /\
     terminal d = false).
  { intros y b d Hya Hy ->. rewrite add_lookup_ne in Hy by done.
    destruct (Hx y d Hya Hy) as (Hl & Hd & Hcl & Hself). rewrite Z.land_comm in Hl.
    destruct (m !! a) as [[b' c']|] eqn:E; [|done]. simpl. pose proof (Ha b' c' eq_refl). subst b'.
    destruct (H2 a y base c' d ltac:(congruence) E Hy) as [Hl' Ht'].
    rewrite Z.land_lor_distr_l, Hl, Hl'. split_and!; [done| |done].
    revert Ht' Hcl. unfold terminal. has_bits_in c'. has_bits_in classes.
    has_bits_in (Z.lor c' classes). rewrite Z.lor_spec. by intros -> ->. }
  split.
  - intros x b c Hxc. destruct (decide (x = a)) as [->|Hxa].
    + rewrite Hadd in Hxc. by injection Hxc as <- <-.
    + rewrite add_lookup_ne in Hxc by done. by eapply H1.
  - intros x y b c d Hxy Hxc Hyd. destruct (decide (x = a)) as [->|Hxa].
    + rewrite Hadd in Hxc. injection Hxc as <- <-.
      destruct (Hpair y base d) as (? & ? & ?); [congruence|done|done|]. done.
    + destruct (decide (y = a)) as [->|Hya].
      * rewrite Hadd in Hyd. injection Hyd as <- <-.
        destruct (Hpair x base c) as (? & ? & ?); [done|done|done|]. by rewrite Z.land_comm.
      * rewrite add_lookup_ne in Hxc, Hyd by done. exact (H2 x y b c d Hxy Hxc Hyd).
Qed.

(** ** Claiming *)

Section SeenSpec.
Context (m : gmap addr (Z * Z)) (sock : addr) (base requested : Z) (l : list addr).
Hypothesis covers : forall x c, m !! x = Some (base, c) -> x ∈ l.

Lemma on_peer_exists f :
  existsb (on_peer m sock base f) l = true <->
  exists x c, x <> sock /\ m !! x = Some (base, c) /\ f c = true.
Proof.
  rewrite existsb_exists. unfold on_peer. split.
  - intros (x & _ & Hx). destruct (m !! x) as [[b c]|] eqn:E; [|done]. simpl in Hx.
    apply andb_true_iff in Hx as [[->%Z.eqb_eq Hn%negb_true_iff]%andb_true_iff Hf].
    apply bool_decide_eq_false in Hn. eauto.
  - intros (x & c & Hn & Hx & Hf). exists x. split; [by eapply list_elem_of_In, covers|].
    rewrite Hx. simpl. by rewrite Z.eqb_refl, bool_decide_eq_false_2, Hf.
Qed.

Lemma on_self_exists f :
  existsb (on_self m sock base f) l =
  match m !! sock with Some c => (c.1 =? base) && f c.2 | None => false end.
Proof.
  apply eq_true_iff_eq. rewrite existsb_exists. unfold on_self. split.
  - intros (x & _ & Hx). destruct (m !! x) as [[b c]|] eqn:E; [|done]. simpl in Hx.
    apply andb_true_iff in Hx as [[Hb ->%bool_decide_eq_true]%andb_true_iff Hf].
    rewrite E. simpl. by rewrite Hb, Hf.
  - intros Hx. exists sock. destruct (m !! sock) as [[b c]|] eqn:E; [|done]. simpl in *.
    apply andb_true_iff in Hx as [->%Z.eqb_eq Hf].
    split; [by eapply list_elem_of_In, covers|].
    by rewrite Z.eqb_refl, bool_decide_eq_true_2, Hf.
Qed.

Definition seen_of : exclusive_seen :=
  foldl (visit m sock base requested) (mk_seen 0 0 false false) l.

Lemma seen_peer :
  peer_terminal seen_of = true <->
  exists x c, x <> sock /\ m !! x = Some (base, c) /\ terminal c = true.
Proof.
  destruct (seen_facts m sock base requested l (mk_seen 0 0 false false) 0) as (_ & Hp & _).
  unfold seen_of. rewrite Hp. simpl. apply on_peer_exists.
Qed.

Lemma seen_owner :
  owner_terminal seen_of =
  match m !! sock with Some c => (c.1 =? base) && terminal c.2 | None => false end.
Proof.
  destruct (seen_facts m sock base requested l (mk_seen 0 0 false false) 0) as (_ & _ & Ho & _).
  unfold seen_of. rewrite Ho. simpl. apply on_self_exists.
Qed.

Lemma seen_owned k :
  Z.testbit (owned_classes seen_of) k =
  match m !! sock with Some c => (c.1 =? base) && Z.testbit c.2 k | None => false end.
Proof.
  destruct (seen_facts m sock base requested l (mk_seen 0 0 false false) k) as (_ & _ & _ & Hw).
  unfold seen_of. rewrite Hw. simpl. rewrite Z.bits_0. apply (on_self_exists (fun c => Z.testbit c k)).
Qed.

Lemma seen_denied k :
  Z.testbit (denied_classes seen_of) k = true <->
  terminal requested = false /\ exists x c, x <> sock /\ m !! x = Some (base, c) /\
    terminal c = false /\ Z.testbit c k = true /\ Z.testbit requested k = true.
Proof.
  destruct (seen_facts m sock base requested l (mk_seen 0 0 false false) k) as (Hd & _).
  unfold seen_of. rewrite Hd. simpl. rewrite Z.bits_0. simpl. rewrite on_peer_exists. split.
  - intros (x & c & Hn & Hx & Hf). apply andb_true_iff in Hf as [Hf Hk].
    apply andb_true_iff in Hf as [Hc%negb_true_iff Hr%negb_true_iff].
    rewrite Z.land_spec in Hk. apply andb_true_iff in Hk as [Hk1 Hk2]. eauto 10.
  - intros (Hr & x & c & Hn & Hx & Hc & Hk1 & Hk2). exists x, c. split_and!; [done..|].
    by rewrite Hc, Hr, Z.land_spec, Hk1, Hk2.
Qed.
End SeenSpec.

Lemma readiness_classes_range d : 0 <= ep_readiness_classes d < 8.
Proof.
  unfold ep_readiness_classes.
  by destruct (has d READ_EVENTS), (has d WRITE_EVENTS), (has d TERMINAL_EVENTS).
Qed.

(** What a successful claim guarantees to registration [sock], which is about
    to deliver the classes [got] of [base]. *)
Definition claimed (m : gmap addr (Z * Z)) (sock : addr) (base got : Z) : Prop :=
  got <> 0 ->
  (forall x c, x <> sock -> m !! x = Some (base, c) -> terminal c = false /\ Z.land c got = 0) /\
  (exists c, m !! sock = Some (base, c) /\ (terminal c = true \/ Z.ldiff got c = 0)).

Lemma terminal_bit c : terminal c = Z.testbit c 2.
Proof. unfold terminal. by has_bits_in c. Qed.

Lemma land_zero_bits c d :
  (forall k, 0 <= k -> Z.testbit c k = true -> Z.testbit d k = true -> False) -> Z.land c d = 0.
Proof.
  intros H. apply Z.bits_inj'. intros k Hk. rewrite Z.land_spec, Z.bits_0.
  destruct (Z.testbit c k) eqn:?, (Z.testbit d k) eqn:?; naive_solver.
Qed.

Lemma ldiff_zero_bits c d :
  (forall k, 0 <= k -> Z.testbit c k = true -> Z.testbit d k = true) -> Z.ldiff c d = 0.
Proof.
  intros H. apply Z.bits_inj'. intros k Hk. rewrite Z.ldiff_spec, Z.bits_0.
  destruct (Z.testbit c k) eqn:?; [|done]. by rewrite H.
Qed.

(** No directional claim survives the terminal takeover of its socket. *)
Lemma takeover_peers m sock base :
  excl_ok m -> (forall x c, x <> sock -> m !! x = Some (base, c) -> terminal c = false) ->
  forall x c, x <> sock -> abs_remove base 3 m !! x = Some (base, c) -> False.
Proof.
  intros [H1 _] Hp x c Hne. unfold abs_remove. rewrite lookup_omap.
  destruct (m !! x) as [[b c0]|] eqn:E; [|done]. simpl.
  destruct (Z.eqb_spec b base) as [->|]; [|congruence].
  pose proof (H1 x base c0 E). pose proof (Hp x c0 Hne E) as Ht. unfold drop_classes. simpl.
  enum8 c0 H; done.
Qed.

Lemma remove_other_base base classes m x b c :
  b <> base -> abs_remove base classes m !! x = Some (b, c) <-> m !! x = Some (b, c).
Proof.
  intros Hb. unfold abs_remove. rewrite lookup_omap. destruct (m !! x) as [[b0 c0]|]; [|done]. simpl.
  destruct (Z.eqb_spec b0 base) as [->|]; [|done]. unfold drop_classes. simpl.
  destruct (Z.ldiff c0 classes =? 0); naive_solver.
Qed.

Section Decide.
Context (m : gmap addr (Z * Z)) (sock : addr) (base requested : Z) (l : list addr).
Hypothesis covers : forall x c, m !! x = Some (base, c) -> x ∈ l.
Hypothesis Hok : excl_ok m.
Hypothesis Hself : forall b c, m !! sock = Some (b, c) -> b = base.
Hypothesis Hreq : 0 <= requested < 8.
Let seen := seen_of m sock base requested l.

Lemma no_peer_terminal :
  peer_terminal seen = false ->
  forall x c, x <> sock -> m !! x = Some (base, c) -> terminal c = false.
Proof.
  intros Hp x c Hne Hx. destruct (terminal c) eqn:E; [|done]. exfalso.
  assert (peer_terminal seen = true); [|congruence].
  apply (seen_peer m sock base requested l covers). eauto.
Qed.

Lemma decide_takeover :
  terminal requested = true -> peer_terminal seen = false ->
  denied_classes seen = 0 /\
  let missing := if owner_terminal seen then 0 else 4 in
  excl_ok (abs_add sock base missing (abs_remove base 3 m)) /\
  claimed (abs_add sock base missing (abs_remove base 3 m)) sock base requested.
Proof.
  intros Hr Hp. pose proof (no_peer_terminal Hp) as Hnp.
  pose proof (takeover_peers m sock base Hok Hnp) as Hnone.
  assert (Hd : denied_classes seen = 0).
  { apply Z.bits_inj'. intros k Hk. rewrite Z.bits_0. apply not_true_is_false.
    intros [? _]%(seen_denied m sock base requested l covers). congruence. }
  split; [done|]. cbv zeta. pose proof (ok_remove base 3 m Hok) as Hok2.
  assert (Hs2 : forall b c, abs_remove base 3 m !! sock = Some (b, c) -> b = base /\ terminal c = true).
  { intros b c. unfold abs_remove. rewrite lookup_omap.
    destruct (m !! sock) as [[b0 c0]|] eqn:E; [|done]. simpl. rewrite (Hself b0 c0 eq_refl).
    rewrite Z.eqb_refl. pose proof (ok_range _ Hok sock b0 c0 E). unfold drop_classes. simpl.
    enum8 c0 H; naive_solver. }
  unfold seen. rewrite (seen_owner m sock base requested l covers).
  assert (Hadd : excl_ok (abs_add sock base 4 (abs_remove base 3 m))).
  { apply ok_add; [done|intros b c Hc; by apply (Hs2 b c)|lia|]. intros x c Hne Hx. exfalso. eauto. }
  destruct (m !! sock) as [[b0 c0]|] eqn:E; simpl.
  - rewrite (Hself b0 c0 eq_refl) in *. rewrite Z.eqb_refl. simpl. destruct (terminal c0) eqn:Ht.
    + split; [done|]. intros _. split; [intros x c Hne Hx; exfalso; eauto|].
      pose proof (ok_range _ Hok sock base c0 E).
      exists (Z.ldiff c0 3). change (abs_add sock base 0 ?x) with x. unfold abs_remove.
      rewrite lookup_omap, E. simpl. rewrite Z.eqb_refl.
      unfold drop_classes. simpl. enum8 c0 H; naive_solver.
    + split; [done|]. intros _. split.
      * intros x c Hne Hx. rewrite add_lookup_ne in Hx by done. exfalso. eauto.
      * rewrite add_lookup_eq; [|intros b c Hc; by apply (Hs2 b c)|done].
        eexists. split; [done|]. left. rewrite terminal_bit.
        destruct (abs_remove base 3 m !! sock) as [[? ?]|]; [|done]. cbn [snd]. rewrite Z.lor_spec.
        apply orb_true_r.
  - split; [done|]. intros _. split.
    + intros x c Hne Hx. rewrite add_lookup_ne in Hx by done. exfalso. eauto.
    + rewrite add_lookup_eq; [|intros b c Hc; by apply (Hs2 b c)|done].
      eexists. split; [done|]. left. rewrite terminal_bit.
      destruct (abs_remove base 3 m !! sock) as [[? ?]|]; [|done]. cbn [snd]. rewrite Z.lor_spec.
      apply orb_true_r.
Qed.

Lemma decide_directional :
  terminal requested = false -> peer_terminal seen = false ->
  let granted := Z.ldiff requested (denied_classes seen) in
  let missing := if owner_terminal seen then 0 else Z.ldiff granted (owned_classes seen) in
  terminal granted = false /\ 0 <= missing < 8 /\
  excl_ok (abs_add sock base missing m) /\ claimed (abs_add sock base missing m) sock base granted.
Proof.
  intros Hr Hp granted missing. pose proof (no_peer_terminal Hp) as Hnp.
  assert (Hg : 0 <= granted < 8) by (by apply ldiff_range).
  assert (Hm : 0 <= missing < 8) by (unfold missing; destruct (owner_terminal seen); [lia|by apply ldiff_range]).
  assert (Hgt : terminal granted = false).
  { rewrite terminal_bit in *. unfold granted. by rewrite Z.ldiff_spec, Hr. }
  assert (Hgr : forall x c, x <> sock -> m !! x = Some (base, c) -> Z.land c granted = 0).
  { intros x c Hne Hx. apply land_zero_bits. intros k Hk Hc. unfold granted.
    rewrite Z.ldiff_spec. intros [Hk1 Hk2%negb_true_iff]%andb_true_iff.
    assert (Z.testbit (denied_classes seen) k = true); [|congruence].
    apply (seen_denied m sock base requested l covers). eauto 10. }
  assert (Hmg : forall k, 0 <= k -> Z.testbit missing k = true -> Z.testbit granted k = true).
  { intros k Hk. unfold missing. destruct (owner_terminal seen); [by rewrite Z.bits_0|].
    rewrite Z.ldiff_spec. by intros [? _]%andb_true_iff. }
  assert (Hpeer : forall x c, x <> sock -> m !! x = Some (base, c) -> Z.land c missing = 0).
  { intros x c Hne Hx. apply land_zero_bits. intros k Hk Hc Hmk.
    pose proof (Hgr x c Hne Hx) as Hz. apply (f_equal (fun z => Z.testbit z k)) in Hz.
    rewrite Z.land_spec, Z.bits_0, Hc, (Hmg k Hk Hmk) in Hz. done. }
  split_and!; [done|lia|lia| |].
  - apply ok_add; [done|done|done|]. intros x c Hne Hx. split_and!; [by eauto|by eauto| |].
    + rewrite terminal_bit. apply not_true_is_false. intros Hk%Hmg; [|lia].
      rewrite terminal_bit in Hgt. congruence.
    + intros c' Hc'. by destruct (ok_pair _ Hok sock x base c' c) as [_ ?].
  - intros Hgne. split.
    + intros x c Hne Hx. rewrite add_lookup_ne in Hx by done. eauto.
    + destruct (owner_terminal seen) eqn:Ho.
      * unfold seen in Ho. rewrite (seen_owner m sock base requested l covers) in Ho.
        unfold abs_add, missing. simpl. destruct (m !! sock) as [[b c]|] eqn:E; [|done]. simpl in Ho.
        apply andb_true_iff in Ho as [->%Z.eqb_eq Hc]. eauto.
      * assert (Hcov : forall k, 0 <= k -> Z.testbit granted k = true ->
          Z.testbit missing k = true \/ exists c, m !! sock = Some (base, c) /\ Z.testbit c k = true).
        { intros k Hk Hgk. unfold missing. rewrite Z.ldiff_spec, Hgk.
          unfold seen. rewrite (seen_owned m sock base requested l covers).
          destruct (m !! sock) as [[b c]|] eqn:E; simpl; [|by left]. rewrite (Hself b c eq_refl).
          rewrite Z.eqb_refl. simpl. destruct (Z.testbit c k) eqn:Hc; simpl; eauto. }
        destruct (decide (missing = 0)) as [E0|Hne0].
        -- unfold abs_add. rewrite E0. simpl. destruct (m !! sock) as [[b c]|] eqn:E.
           ++ rewrite (Hself b c eq_refl) in *. exists c. split; [done|]. right.
              apply ldiff_zero_bits. intros k Hk [Hmk|(c' & [= <-] & ?)]%Hcov; [|done|done].
              by rewrite E0, Z.bits_0 in Hmk.
           ++ exfalso. apply Hgne. apply Z.bits_inj'. intros k Hk. rewrite Z.bits_0.
              apply not_true_is_false. intros [Hmk|(c' & ? & ?)]%Hcov; [|done|done].
              by rewrite E0, Z.bits_0 in Hmk.
        -- rewrite add_lookup_eq by done. eexists. split; [done|]. right.
           apply ldiff_zero_bits. intros k Hk [Hmk|(c & Hc & Hck)]%Hcov; [| |done].
           ++ destruct (m !! sock) as [[b c]|]; simpl; [|done]. by rewrite Z.lor_spec, Hmk, orb_true_r.
           ++ rewrite Hc. simpl. by rewrite Z.lor_spec, Hck.
Qed.
End Decide.

(** Why a claim was refused: every requested class is held by a peer. *)
Definition all_taken (m : gmap addr (Z * Z)) (sock : addr) (base requested : Z) : Prop :=
  requested <> 0 /\
  forall k, 0 <= k -> Z.testbit requested k = true ->
    exists x c, x <> sock /\ m !! x = Some (base, c) /\ (terminal c = true \/ Z.testbit c k = true).

(** The last part of a successful claim. *)
Lemma claim_grant w B sock s (base missing d : Z) :
  excl_inv w B -> w_socks w !! sock = Some s -> 0 <= missing ->
  exists w' B',
    (ep_exclusive_add_classes_locked (Some sock) base missing ;; ret (1, d)) w = Some ((1, d), w') /\
    excl_inv w' B' /\ excl_frame w w' /\ claims w' = abs_add sock base missing (claims w).
Proof.
  intros HI Hs Hm. destruct (add_classes_spec w B sock s base missing HI Hs Hm)
    as (w' & B' & Hrun & HI' & Hf & Hc).
  exists w', B'. split; [|done]. by erewrite bind_some by exact Hrun.
Qed.

Lemma ldiff_self c : Z.ldiff c c = 0.
Proof. apply ldiff_zero_bits. done. Qed.

(** The outcome promised for a decision that starts from claims [m]. *)
Definition claim_outcome (w : world) (m : gmap addr (Z * Z)) (sock : addr) (base delivered : Z)
    (o : option (Z * Z * world)) : Prop :=
  exists r d w' B', o = Some ((r, d), w') /\
    excl_inv w' B' /\ excl_ok (claims w') /\ excl_frame w w' /\
    (forall x b c, x <> sock -> b <> base ->
       claims w' !! x = Some (b, c) <-> m !! x = Some (b, c)) /\
    ((r = 1 /\ claimed (claims w') sock base (ep_readiness_classes d) /\
      (ep_readiness_classes d = 0 -> ep_readiness_classes delivered = 0) /\
      (if has (ep_readiness_classes delivered) EP_READINESS_CLASS_TERMINAL
       then ep_readiness_classes d = ep_readiness_classes delivered
       else forall x, x <> sock -> claims w' !! x = m !! x)) \/
     (r = 0 /\ d = delivered /\ all_taken m sock base (ep_readiness_classes delivered) /\
      forall x c, claims w' !! x = Some c <-> m !! x = Some c /\ (x = sock -> c.1 = base))).

Section ClaimDecide.
Context (w : world) (B : Z -> list addr) (sock : addr) (s : ep_sock) (base delivered : Z).
Hypothesis HI : excl_inv w B.
Hypothesis Hok : excl_ok (claims w).
Hypothesis Hs : w_socks w !! sock = Some s.
Hypothesis Hself : forall b c, claims w !! sock = Some (b, c) -> b = base.
Let req := ep_readiness_classes delivered.
Let l := B (ep_exclusive_bucket base).
Let seen := seen_of (claims w) sock base req l.

Lemma bucket_covers x c : claims w !! x = Some (base, c) -> x ∈ l.
Proof. intros Hx. by eapply claim_in_bucket. Qed.

Lemma self_only x c : claims w !! x = Some c <-> claims w !! x = Some c /\ (x = sock -> c.1 = base).
Proof. split; [|by intros [? _]]. intros Hx. split; [done|]. intros ->. destruct c as [b c]. by eapply Hself. Qed.
Lemma claim_peer_terminal :
  peer_terminal seen = true -> claim_outcome w (claims w) sock base delivered
    (claim_decide sock base delivered seen w).
Proof.
  intros Hp. unfold claim_decide. fold req. rewrite Hp.
  rewrite (bind_some _ _ w req w) by (by destruct (has req _)). cbv zeta. rewrite ldiff_self.
  destruct (Z.eqb_spec req 0) as [E|Hne]; simpl andb; cbv iota.
  - assert (Hmiss : forall X, (if owner_terminal seen then 0
       else if has 0 EP_READINESS_CLASS_TERMINAL then X else Z.ldiff 0 (owned_classes seen)) = 0)
      by (intros; by destruct (owner_terminal seen)).
    rewrite Hmiss. destruct (claim_grant w B sock s base 0 (ep_readiness_filter_classes delivered req))
      as (w' & B' & Hrun & HI' & Hf & Hc); [done|done|lia|].
    change (abs_add sock base 0 (claims w)) with (claims w) in Hc.
    eexists _, _, w', B'. split; [exact Hrun|]. rewrite Hc. split_and!; try done. left.
    assert (Hd : ep_readiness_classes (ep_readiness_filter_classes delivered req) = 0).
    { rewrite E. exact E. }
    split_and!; [done|by rewrite Hd|by intros _|]. change (ep_readiness_classes delivered) with req. by rewrite E.
  - eexists 0, delivered, w, B. split_and!; try done. right. do 2 (split; [done|]). split; [|exact self_only].
    split; [done|]. intros k Hk _. apply (seen_peer (claims w) sock base req l bucket_covers) in Hp
      as (x & c & ? & ? & ?). eauto 10.
Qed.

Lemma filtered_classes denied :
  ep_readiness_classes (ep_readiness_filter_classes delivered denied) = Z.ldiff req denied.
Proof.
  destruct (filter_has delivered denied) as (Hr & Hw & Ht).
  apply Z.bits_inj'. intros k Hk. unfold req. rewrite Z.ldiff_spec, !class_bit by done.
  rewrite Hr, Hw, Ht.
  destruct (Z.eqb_spec k 0) as [->|]; [simpl; by rewrite !orb_false_r|].
  destruct (Z.eqb_spec k 1) as [->|]; [simpl; by rewrite !orb_false_r|].
  destruct (Z.eqb_spec k 2) as [->|]; done.
Qed.

Lemma claim_takeover :
  terminal req = true -> peer_terminal seen = false ->
  claim_outcome w (claims w) sock base delivered (claim_decide sock base delivered seen w).
Proof.
  intros Ht Hp.
  destruct (decide_takeover (claims w) sock base req l bucket_covers Hok Hself
    (readiness_classes_range delivered) Ht Hp) as (Hd & Hok' & Hcl).
  fold seen in Hd, Hok', Hcl. unfold claim_decide. fold req.
  change (has req EP_READINESS_CLASS_TERMINAL) with (terminal req). rewrite Ht, Hp.
  destruct (remove_all_spec w B base 3 HI) as (w1 & B1 & Hrun & HI1 & Hf1 & Hc1).
  rewrite bind_assoc. erewrite bind_some by exact Hrun. cbv beta. rewrite bind_ret, Hd.
  cbv zeta. rewrite Z.ldiff_0_r. change (has req EP_READINESS_CLASS_TERMINAL) with (terminal req).
  assert (Hne : req <> 0) by (intros E; by rewrite E in Ht).
  rewrite (proj2 (Z.eqb_neq _ _) Hne), Ht. simpl andb. cbv iota.
  destruct (frame_sock _ _ _ _ Hf1 Hs) as (s1 & Hs1 & _).
  destruct (claim_grant w1 B1 sock s1 base (if owner_terminal seen then 0 else 4)
    (ep_readiness_filter_classes delivered 0)) as (w' & B' & Hrun' & HI' & Hf' & Hc');
    [done|done|by destruct (owner_terminal seen)|].
  rewrite Hc1 in Hc'. eexists _, _, w', B'. split; [exact Hrun'|]. rewrite Hc'.
  split_and!; [done|done|by etrans| |].
  - intros x b c Hx Hb. rewrite add_lookup_ne by done. by apply remove_other_base.
  - left. rewrite filtered_classes, Z.ldiff_0_r. split_and!; [done|done|done|].
    fold req. change (has req EP_READINESS_CLASS_TERMINAL) with (terminal req). by rewrite Ht.
Qed.

Lemma claim_directional :
  terminal req = false -> peer_terminal seen = false ->
  claim_outcome w (claims w) sock base delivered (claim_decide sock base delivered seen w).
Proof.
  intros Ht Hp. pose proof (readiness_classes_range delivered) as Hreq. fold req in Hreq.
  destruct (decide_directional (claims w) sock base req l bucket_covers Hok Hself Hreq Ht Hp)
    as (Hgt & Hm & Hok' & Hcl). fold seen in Hgt, Hm, Hok', Hcl.
  unfold claim_decide. fold req.
  change (has req EP_READINESS_CLASS_TERMINAL) with (terminal req). rewrite Ht, Hp, bind_ret.
  cbv zeta. set (granted := Z.ldiff req (denied_classes seen)) in *.
  change (has granted EP_READINESS_CLASS_TERMINAL) with (terminal granted). rewrite Hgt.
  destruct (Z.eqb_spec granted 0) as [Eg|Hg], (Z.eqb_spec req 0) as [Er|Hr]; simpl andb; cbv iota.
  2:{ eexists 0, delivered, w, B. split_and!; try done. right. do 2 (split; [done|]). split; [|exact self_only].
      split; [done|]. intros k Hk Hrk. assert (Hdk : Z.testbit (denied_classes seen) k = true).
      { apply (f_equal (fun z => Z.testbit z k)) in Eg. unfold granted in Eg.
        rewrite Z.ldiff_spec, Z.bits_0 in Eg. fold req in Hrk. rewrite Hrk in Eg.
        by destruct (Z.testbit (denied_classes seen) k). }
      apply (seen_denied (claims w) sock base req l bucket_covers) in Hdk
        as (_ & x & c & ? & ? & ? & ? & ?). eauto 10. }
  all: destruct (claim_grant w B sock s base (if owner_terminal seen then 0 else
         Z.ldiff granted (owned_classes seen))
         (ep_readiness_filter_classes delivered (denied_classes seen)))
         as (w' & B' & Hrun' & HI' & Hf' & Hc'); [done|done|lia|];
    eexists _, _, w', B'; (split; [exact Hrun'|]); rewrite Hc'; split_and!; try done.
  all: try (intros x b c Hx Hb; by rewrite add_lookup_ne by done).
  all: left; rewrite filtered_classes; fold granted; split_and!; [done|done|by intros ?|].
  all: fold req; change (has req EP_READINESS_CLASS_TERMINAL) with (terminal req); rewrite Ht.
  all: intros x Hx; by rewrite add_lookup_ne by done.
Qed.
End ClaimDecide.

(** A whole claim. *)
Lemma try_claim_spec w B sock s delivered :
  excl_inv w B -> excl_ok (claims w) -> w_socks w !! sock = Some s ->
  claim_outcome w (claims w) sock (s_base_socket s) delivered
    (ep_exclusive_try_claim sock delivered w).
Proof.
  intros HI Hok Hs. set (base := s_base_socket s).
  unfold ep_exclusive_try_claim. mstep. fold base.
  destruct (drop_stale_spec w B sock s base HI Hs) as (w1 & B1 & Hrun & HI1 & Hf1 & Hc1).
  erewrite bind_some by exact Hrun. clear Hrun. cbv beta.
  pose proof (bucket_range base) as Hb. erewrite bind_some by (by eapply get_bucket_run).
  mstep. erewrite bind_some.
  2:{ apply (scan_loop_run sock base _ _ _ [] w1 B1 _ (ep_exclusive_bucket base));
        [done|done|done|].
      pose proof (dlist_length _ _ (xi_list _ _ HI1 _ Hb)). unfold sock_fuel. lia. }
  assert (Hok1 : excl_ok (claims w1)) by (rewrite Hc1; by apply ok_drop_stale).
  assert (Hself : forall b c, claims w1 !! sock = Some (b, c) -> b = base).
  { intros b c. rewrite Hc1, drop_stale_lookup, decide_True by done.
    destruct (claims w !! sock) as [[b0 c0]|]; [|done]. simpl.
    destruct (Z.eqb_spec b0 base); naive_solver. }
  assert (Hpeers : forall x, x <> sock -> claims w1 !! x = claims w !! x).
  { intros x Hne. by rewrite Hc1, drop_stale_lookup, decide_False. }
  destruct (frame_sock _ _ _ _ Hf1 Hs) as (s1 & Hs1 & _).
  assert (Hout : claim_outcome w1 (claims w1) sock base delivered
    (claim_decide sock base delivered (seen_of (claims w1) sock base
       (ep_readiness_classes delivered) (B1 (ep_exclusive_bucket base))) w1)).
  { destruct (peer_terminal (seen_of (claims w1) sock base (ep_readiness_classes delivered)
                (B1 (ep_exclusive_bucket base)))) eqn:Hp; [by eapply claim_peer_terminal|].
    destruct (terminal (ep_readiness_classes delivered)) eqn:Ht;
      [by eapply claim_takeover|by eapply claim_directional]. }
  destruct Hout as (r & d & w' & B' & Hrun & HI' & Hok' & Hf' & Hoth & Hres).
  exists r, d, w', B'. split; [exact Hrun|]. split_and!; [done|done|by etrans| |].
  - intros x b c Hx Hbase. rewrite Hoth, Hpeers by done. done.
  - destruct Hres as [(H1 & H2 & H3 & H4)|(? & ? & [Hne Htk] & Hall)]; [left|right].
    { do 3 (split; [done|]). destruct (has _ _); [done|]. intros x Hx. by rewrite H4, Hpeers. }
    do 2 (split; [done|]). split.
    2:{ intros x [b c]. rewrite Hall, Hc1, drop_stale_lookup. case_decide as E; [subst x|naive_solver].
        destruct (claims w !! sock) as [[b0 c0]|]; [|naive_solver]. simpl. destruct (Z.eqb_spec b0 base); naive_solver. }
    split; [done|]. intros k Hk Hrk. destruct (Htk k Hk Hrk) as (x & c & Hx & Hm & ?). rewrite Hpeers in Hm by done.
    eauto 10.
Qed.

(** C25: claiming the classes of a snapshot always returns and keeps the index
    well formed and exclusive.  If it succeeds, the filtered snapshot contains
    only classes no other registration holds on that socket, and this
    registration now holds them; a snapshot with a terminal event is granted in
    full, any other leaves the claims of all other registrations as they were.
    If it fails, each class asked for is held by another registration, the
    snapshot is unchanged, and so are all claims, except that a claim this
    registration held on another socket, which is stale, is dropped.  Claims on
    other sockets by other registrations are never touched. *)
Theorem exclusive_claim_sound w B sock s delivered :
  excl_inv w B -> excl_ok (claims w) -> w_socks w !! sock = Some s ->
  let base := s_base_socket s in
  exists r d w' B',
    ep_exclusive_try_claim sock delivered w = Some ((r, d), w') /\
    excl_inv w' B' /\ excl_ok (claims w') /\ excl_frame w w' /\
    (forall x b c, x <> sock -> b <> base ->
       claims w' !! x = Some (b, c) <-> claims w !! x = Some (b, c)) /\
    ((r = 1 /\ claimed (claims w') sock base (ep_readiness_classes d) /\
      (ep_readiness_classes d = 0 -> ep_readiness_classes delivered = 0) /\
      (if has (ep_readiness_classes delivered) EP_READINESS_CLASS_TERMINAL
       then ep_readiness_classes d = ep_readiness_classes delivered
       else forall x, x <> sock -> claims w' !! x = claims w !! x)) \/
     (r = 0 /\ d = delivered /\
      all_taken (claims w) sock base (ep_readiness_classes delivered) /\
      forall x c, claims w' !! x = Some c <-> claims w !! x = Some c /\ (x = sock -> c.1 = base))).
Proof. intros HI Hok Hs base. exact (try_claim_spec w B sock s delivered HI Hok Hs). Qed.

(** ** Releasing *)

Lemma release_classes_spec w B sock s classes :
  excl_inv w B -> excl_ok (claims w) -> w_socks w !! sock = Some s ->
  exists w' B',
    (base <- rd w_socks (Some sock) s_base_socket ;;
     exclusive_drop_stale (Some sock) base ;; exclusive_remove_all base classes) w = Some (tt, w') /\
    excl_inv w' B' /\ excl_ok (claims w') /\ excl_frame w w' /\
    claims w' = abs_remove (s_base_socket s) classes
                  (abs_drop_stale sock (s_base_socket s) (claims w)).
Proof.
  intros HI Hok Hs. mstep.
  destruct (drop_stale_spec w B sock s (s_base_socket s) HI Hs) as (w1 & B1 & Hrun & HI1 & Hf1 & Hc1).
  erewrite bind_some by exact Hrun. cbv beta.
  destruct (remove_all_spec w1 B1 (s_base_socket s) classes HI1) as (w2 & B2 & Hrun2 & HI2 & Hf2 & Hc2).
  exists w2, B2. rewrite Hc2, Hc1. split_and!; [done|done| |by etrans|done].
  apply ok_remove. by apply ok_drop_stale.
Qed.

(** A pending request releases exactly the classes it proves quiescent: on
    the request's socket every registration loses those classes and keeps the
    others, a registration left without classes leaves the index, and no claim
    on another socket changes except a stale one of the releasing registration
    itself. *)
Theorem release_quiescent_exact w B sock s submitted :
  excl_inv w B -> excl_ok (claims w) -> w_socks w !! sock = Some s ->
  let base := s_base_socket s in
  let quiescent := ep_exclusive_quiescent_classes submitted in
  exists w' B', ep_exclusive_release_quiescent (Some sock) submitted w = Some (tt, w') /\
    excl_inv w' B' /\ excl_ok (claims w') /\ excl_frame w w' /\
    (forall x c, claims w' !! x = Some (base, c) <->
       exists c0, claims w !! x = Some (base, c0) /\ c = Z.ldiff c0 quiescent /\ c <> 0) /\
    (forall x b c, b <> base ->
       claims w' !! x = Some (b, c) <-> x <> sock /\ claims w !! x = Some (b, c)).
Proof.
  intros HI Hok Hs base q.
  destruct (release_classes_spec w B sock s q HI Hok Hs) as (w' & B' & Hrun & HI' & Hok' & Hf & Hc).
  exists w', B'. split; [exact Hrun|]. rewrite Hc in *. fold base in Hok' |- *. split_and!; [done..| |].
  - intros x c. unfold abs_remove. rewrite lookup_omap, drop_stale_lookup.
    assert (Hx : (if decide (x = sock) then match claims w !! sock with
        Some c => if c.1 =? base then Some c else None | None => None end else claims w !! x)
        = match claims w !! x with Some c => if decide (x = sock /\ c.1 <> base) then None else Some c
          | None => None end).
    { case_decide as E; [subst x|].
      - destruct (claims w !! sock) as [[b c0]|]; [|done]. simpl.
        destruct (Z.eqb_spec b base); case_decide; naive_solver.
      - destruct (claims w !! x) as [[b c0]|]; [|done]. case_decide; naive_solver. }
    rewrite Hx. clear Hx Hc Hok' Hrun.
    destruct (claims w !! x) as [[b c0]|]; simpl; [|split; [done|by intros (? & ? & _)]].
    destruct (Z.eqb_spec b base) as [->|Hb].
    + rewrite decide_False by naive_solver. simpl. rewrite Z.eqb_refl. unfold drop_classes. simpl.
      destruct (Z.eqb_spec (Z.ldiff c0 q) 0); split; try done.
      * intros (c1 & [= <-] & -> & ?). done.
      * intros [= <-]. eauto.
      * intros (c1 & [= <-] & -> & ?). done.
    + transitivity False; [|split; [done|intros (? & ? & _); congruence]].
      case_decide; simpl; [done|]. rewrite (proj2 (Z.eqb_neq _ _) Hb). split; [congruence|done].
  - intros x b c Hb. rewrite remove_other_base by done. rewrite drop_stale_lookup.
    case_decide as E; [subst x|tauto]. split; [|tauto].
    destruct (claims w !! sock) as [[b0 c0]|]; [|done]. simpl.
    destruct (Z.eqb_spec b0 base); congruence.
Qed.

(** ** Sequences of operations *)

Inductive excl_op :=
| OpClaim (sock : addr) (delivered : Z)
| OpReleaseOwner (sock : addr)
| OpReleaseQuiescent (sock : addr) (submitted : Z)
| OpReleaseInactive (sock : addr) (classes : Z).

Definition excl_sock (o : excl_op) : addr :=
  match o with
  | OpClaim a _ | OpReleaseOwner a | OpReleaseQuiescent a _ | OpReleaseInactive a _ => a
  end.

Definition excl_apply (o : excl_op) : MW unit :=
  match o with
  | OpClaim a d => ep_exclusive_try_claim a d ;; ret tt
  | OpReleaseOwner a => ep_exclusive_release_owner (Some a)
  | OpReleaseQuiescent a m => ep_exclusive_release_quiescent (Some a) m
  | OpReleaseInactive a c => ep_exclusive_release_inactive (Some a) c
  end.

Fixpoint excl_run (ops : list excl_op) : MW unit :=
  match ops with
  | [] => ret tt
  | o :: ops => excl_apply o ;; excl_run ops
  end.

Lemma excl_apply_spec w B o :
  excl_inv w B -> excl_ok (claims w) -> is_Some (w_socks w !! excl_sock o) ->
  exists w' B', excl_apply o w = Some (tt, w') /\
    excl_inv w' B' /\ excl_ok (claims w') /\ excl_frame w w'.
Proof.
  intros HI Hok [s Hs]. destruct o as [a d|a|a m|a c]; simpl in *.
  - destruct (try_claim_spec w B a s d HI Hok Hs) as (r & d' & w' & B' & Hrun & ? & ? & ? & _).
    exists w', B'. by erewrite bind_some by exact Hrun.
  - destruct (unlink_spec w B a s HI Hs) as (w' & Hrun & HI' & Hc & Hf). eexists w', _.
    split_and!; [exact Hrun|done| |done]. rewrite Hc. apply (ok_submap (claims w)); [done|].
    apply delete_subseteq.
  - destruct (release_classes_spec w B a s (ep_exclusive_quiescent_classes m) HI Hok Hs)
      as (w' & B' & Hrun & ? & ? & ? & _). by exists w', B'.
  - destruct (release_classes_spec w B a s c HI Hok Hs)
      as (w' & B' & Hrun & ? & ? & ? & _). by exists w', B'.
Qed.

(** C26: whatever sequence of claims and releases the ports perform, the index
    stays well formed and no readiness class of a socket is ever owned by two
    registrations. *)
Theorem exclusive_always ops w B :
  excl_inv w B -> excl_ok (claims w) ->
  Forall (fun o => is_Some (w_socks w !! excl_sock o)) ops ->
  exists w' B', excl_run ops w = Some (tt, w') /\ excl_inv w' B' /\ excl_ok (claims w').
Proof.
  intros HI Hok Hops. revert w B HI Hok Hops. induction ops as [|o ops IH]; intros w B HI Hok Hops.
  - by exists w, B.
  - apply Forall_cons in Hops as [Ho Hops]. cbn [excl_run].
    destruct (excl_apply_spec w B o HI Hok Ho) as (w1 & B1 & Hrun & HI1 & Hok1 & Hf1).
    erewrite bind_some by exact Hrun. cbv beta. apply (IH w1 B1 HI1 Hok1).
    eapply Forall_impl; [exact Hops|]. intros o' [s Hs].
    destruct (frame_sock _ _ _ _ Hf1 Hs) as (s' & Hs' & _). by eexists.
Qed.

(** ** An index without claims *)

Lemma demo_socks a s : w_socks demo_reg_world !! a = Some s -> s = demo_sock.
Proof.
  change (w_socks demo_reg_world) with
    (<[10%positive := demo_sock]> {[11%positive := demo_sock]} : gmap addr ep_sock).
  intros [[_ <-]|[_ [_ <-]%lookup_singleton_Some]]%lookup_insert_Some; done.
Qed.

Lemma demo_excl_inv : excl_inv demo_reg_world (fun _ => []).
Proof.
  split; try done.
  - intros b Hb. change (w_exclusive demo_reg_world) with (replicate 128 NULL).
    apply lookup_replicate_2. lia.
  - intros b Hb. apply linked_nil.
  - by intros a s ->%demo_socks.
  - intros b a _ Ha. by apply elem_of_nil in Ha.
  - by intros a s ->%demo_socks.
Qed.

Lemma demo_claims : claims demo_reg_world = ∅.
Proof. by vm_compute. Qed.

Lemma empty_ok : excl_ok ∅.
Proof. by split. Qed.

Lemma exclusive_claim_sound_witness :
  exists r d w', ep_exclusive_try_claim 10 (EPOLLIN ||| EPOLLOUT) demo_reg_world =
    Some ((r, d), w') /\ excl_ok (claims w').
Proof.
  destruct (exclusive_claim_sound demo_reg_world (fun _ => []) 10 demo_sock (EPOLLIN ||| EPOLLOUT))
    as (r & d & w' & B' & Hrun & _ & Hok & _);
    [exact demo_excl_inv|rewrite demo_claims; exact empty_ok|reflexivity|].
  exists r, d, w'. split; [exact Hrun|exact Hok].
Defined.

Lemma release_quiescent_exact_witness :
  exists w', ep_exclusive_release_quiescent (Some 10%positive) AFD_POLL_SEND demo_reg_world =
    Some (tt, w') /\ excl_ok (claims w').
Proof.
  destruct (release_quiescent_exact demo_reg_world (fun _ => []) 10 demo_sock AFD_POLL_SEND)
    as (w' & B' & Hrun & _ & Hok & _);
    [exact demo_excl_inv|rewrite demo_claims; exact empty_ok|reflexivity|].
  exists w'. split; [exact Hrun|exact Hok].
Defined.

Lemma exclusive_always_witness :
  exists w', excl_run [OpClaim 10 EPOLLIN; OpClaim 11 (EPOLLIN ||| EPOLLOUT); OpReleaseOwner 10]
    demo_reg_world = Some (tt, w') /\ excl_ok (claims w').
Proof.
  destruct (exclusive_always
    [OpClaim 10 EPOLLIN; OpClaim 11 (EPOLLIN ||| EPOLLOUT); OpReleaseOwner 10]
    demo_reg_world (fun _ => [])) as (w' & B' & Hrun & _ & Hok);
    [exact demo_excl_inv|rewrite demo_claims; exact empty_ok| |].
  - repeat constructor; by eexists.
  - exists w'. split; [exact Hrun|exact Hok].
Defined.

(** The second registration gets only the class the first one left. *)
Example second_claim_gets_rest :
  result (ep_exclusive_try_claim 10 EPOLLIN ;; ep_exclusive_try_claim 11 (EPOLLIN ||| EPOLLOUT))
    demo_reg_world = Some (1, EPOLLOUT).
Proof. vm_compute. reflexivity. Qed.
