(* ===== verification/FdTable.v ===== *)
(** * The descriptor table

    The open-addressing hash table of a port ([src/wepoll_ex_port.c],
    [ep_fd_table_*]): linear probing from [fd % size], growth at three quarters,
    and deletion that re-inserts the rest of the cluster.  [fd_rep] relates the
    slot array to a finite map from descriptors to registrations; lookup,
    insert and remove are shown to be the map's operations. *)
From S2P Require Import Prelude Codes Types Errno.

Definition len (t : list ptr) : Z := Z.of_nat (length t).

(** [t[i]], for an index in range. *)
Definition slot (t : list ptr) (i : Z) : ptr :=
  match t !! Z.to_nat i with Some p => p | None => NULL end.
Definition set_slot (t : list ptr) (i : Z) (p : ptr) : list ptr := <[Z.to_nat i := p]> t.

(** [slot = (slot + 1) % size]. *)
Definition next_slot (t : list ptr) (i : Z) : Z := (i + 1) mod len t.

(** [while (t[slot] != NULL) slot = (slot + 1) % size]: [None] when the table
    has no empty slot (the loop would not end). *)
Fixpoint probe_free (fuel : nat) (t : list ptr) (i : Z) : option Z :=
  match slot t i with
  | None => if decide (0 < len t) then Some i else None
  | Some _ => match fuel with O => None | S fuel => probe_free fuel t (next_slot t i) end
  end.

(** [slot = sock->fd % size; while (...) ...; t[slot] = sock]. *)
Definition fd_place (t : list ptr) (sock : ptr) : MW (list ptr) :=
  fd <- rd w_socks sock s_fd ;;
  match probe_free (length t) t (fd mod len t) with
  | Some i => ret (set_slot t i sock)
  | None => stuck
  end.

(** The rehashing loop of [ep_fd_table_grow]. *)
Fixpoint fd_rehash (old : list ptr) (t : list ptr) : MW (list ptr) :=
  match old with
  | [] => ret t
  | None :: old => fd_rehash old t
  | sock :: old => t' <- fd_place t sock ;; fd_rehash old t'
  end.

Definition ep_fd_table_grow (port : ptr) (new_size : Z) : MW Z :=
  if (new_size =? 0) || (SIZE_MAX / 8 <? new_size) then ep_set_errno ENOMEM ;; ret (-1)
  else
    new_table <- os (CallocArray new_size 8) ;;
    if new_table <=? 0 then ep_set_errno ENOMEM ;; ret (-1)
    else
      old <- rd w_ports port p_fd_table ;;
      t <- fd_rehash old (replicate (Z.to_nat new_size) NULL) ;;
      block <- rd w_ports port p_fd_table_block ;;
      os (FreeArray block) ;;
      wr w_ports port p_fd_table t ;;
      wr w_ports port p_fd_table_block new_table ;;
      ret 0.

Fixpoint fd_lookup_loop (probes : nat) (t : list ptr) (i fd : Z) : MW ptr :=
  match probes with
  | O => ret NULL
  | S probes =>
    match slot t i with
    | None => ret NULL
    | Some sock =>
      sock_fd <- rd w_socks (Some sock) s_fd ;;
      if sock_fd =? fd then ret (Some sock)
      else fd_lookup_loop probes t (next_slot t i) fd
    end
  end.

Definition ep_fd_table_lookup (port : ptr) (fd : Z) : MW ptr :=
  t <- rd w_ports port p_fd_table ;;
  if len t =? 0 then ret NULL
  else fd_lookup_loop (length t) t (fd mod len t) fd.

Definition fd_insert_slot (port sock : ptr) : MW Z :=
  t <- rd w_ports port p_fd_table ;;
  t' <- fd_place t sock ;;
  wr w_ports port p_fd_table t' ;;
  count <- rd w_ports port p_fd_table_count ;;
  wr w_ports port p_fd_table_count (u64 (count + 1)) ;;
  ret 0.

Definition ep_fd_table_insert (port sock : ptr) : MW Z :=
  t <- rd w_ports port p_fd_table ;;
  count <- rd w_ports port p_fd_table_count ;;
  let size := len t in
  if (size =? 0) || (u64 (size * 3) <=? u64 (count * 4)) then
    if negb (size =? 0) && (SIZE_MAX / 2 <? size) then ep_set_errno ENOMEM ;; ret (-1)
    else
      r <- ep_fd_table_grow port (if size =? 0 then WEPOLL_INITIAL_FDS else size * 2) ;;
      if negb (r =? 0) then ret (-1) else fd_insert_slot port sock
  else fd_insert_slot port sock.

(** [while (t[slot] != sock)]: the slot of [sock], or [Some None] when an empty
    slot is met first; [None] when neither occurs. *)
Fixpoint fd_find (fuel : nat) (t : list ptr) (i : Z) (sock : ptr) : option (option Z) :=
  if bool_decide (slot t i = sock) then Some (Some i)
  else match slot t i with
       | None => Some None
       | Some _ =>
         match fuel with O => None | S fuel => fd_find fuel t (next_slot t i) sock end
       end.

(** The [for (;;)] loop of [ep_fd_table_remove]. *)
Fixpoint fd_compact (fuel : nat) (t : list ptr) (i : Z) : MW (list ptr) :=
  match fuel with
  | O => stuck
  | S fuel =>
    let scan := next_slot t i in
    match slot t scan with
    | None => ret t
    | moved =>
      t' <- fd_place (set_slot t scan NULL) moved ;;
      fd_compact fuel t' scan
    end
  end.

Definition ep_fd_table_remove (port sock : ptr) : MW unit :=
  t <- rd w_ports port p_fd_table ;;
  if len t =? 0 then ret tt
  else
    fd <- rd w_socks sock s_fd ;;
    match fd_find (length t) t (fd mod len t) sock with
    | None => stuck
    | Some None => ret tt
    | Some (Some i) =>
      wr w_ports port p_fd_table (set_slot t i NULL) ;;
      count <- rd w_ports port p_fd_table_count ;;
      wr w_ports port p_fd_table_count (u64 (count - 1)) ;;
      t <- rd w_ports port p_fd_table ;;
      t' <- fd_compact (length t) t i ;;
      wr w_ports port p_fd_table t'
    end.

(** ** Slots and cyclic distance *)

Definition inb (t : list ptr) (i : Z) : Prop := 0 <= i < len t.

Lemma len_set_slot t i p : len (set_slot t i p) = len t.
Proof. unfold len, set_slot. by rewrite length_insert. Qed.

Lemma slot_set_slot t i j p :
  inb t i -> inb t j -> slot (set_slot t i p) j = if decide (j = i) then p else slot t j.
Proof.
  unfold inb, len, slot, set_slot. intros Hi Hj. case_decide as E.
  - subst. rewrite list_lookup_insert_eq by lia. done.
  - by rewrite list_lookup_insert_ne by lia.
Qed.

(** Steps from [h] forward to [x] in a table of [n] slots. *)
Definition dist (n h x : Z) : Z := if h <=? x then x - h else x - h + n.

Lemma next_slot_cases t i :
  inb t i -> next_slot t i = if i + 1 =? len t then 0 else i + 1.
Proof.
  unfold inb, next_slot. intros Hi. destruct (Z.eqb_spec (i + 1) (len t)) as [->|Hne].
  - apply Z.mod_same. lia.
  - apply Z.mod_small. lia.
Qed.

Lemma next_slot_inb t i : inb t i -> inb t (next_slot t i).
Proof. intros Hi. rewrite next_slot_cases by done. unfold inb in *. destruct (Z.eqb_spec (i + 1) (len t)); lia. Qed.

Lemma dist_range n h x : 0 <= h < n -> 0 <= x < n -> 0 <= dist n h x < n.
Proof. unfold dist. destruct (Z.leb_spec h x); lia. Qed.

Lemma dist_next t i x :
  inb t i -> inb t x -> x <> i -> dist (len t) (next_slot t i) x = dist (len t) i x - 1.
Proof.
  intros Hi Hx Hne. rewrite next_slot_cases by done. unfold inb, dist in *.
  destruct (Z.eqb_spec (i + 1) (len t)), (Z.leb_spec i x);
    match goal with |- context [Z.leb ?a ?b] => destruct (Z.leb_spec a b) end; lia.
Qed.

Lemma dist_0 n i : dist n i i = 0.
Proof. unfold dist. rewrite Z.leb_refl. lia. Qed.

Lemma dist_inj n h x y :
  0 <= h < n -> 0 <= x < n -> 0 <= y < n -> dist n h x = dist n h y -> x = y.
Proof. unfold dist. destruct (Z.leb_spec h x), (Z.leb_spec h y); lia. Qed.

(** ** Probing *)

(** [q] is the first empty slot from [h] on. *)
Definition first_free (t : list ptr) (h q : Z) : Prop :=
  inb t q /\ slot t q = NULL /\
  forall y, inb t y -> dist (len t) h y < dist (len t) h q -> slot t y <> NULL.

Lemma probe_free_spec t fuel i e :
  inb t i -> inb t e -> slot t e = NULL -> dist (len t) i e <= Z.of_nat fuel ->
  exists q, probe_free fuel t i = Some q /\ first_free t i q.
Proof.
  revert i. induction fuel as [|fuel IH]; intros i Hi He Hs Hd.
  - pose proof (dist_range (len t) i e Hi He).
    assert (e = i) as ->.
    { apply (dist_inj (len t) i); [done..|]. rewrite dist_0. lia. }
    exists i. simpl. rewrite Hs, decide_True by (unfold inb in *; lia). split; [done|].
    split_and!; [done|done|]. intros y Hy. rewrite dist_0.
    pose proof (dist_range (len t) i y Hi Hy). lia.
  - simpl. destruct (slot t i) as [a|] eqn:Ei.
    + assert (Hne : e <> i) by congruence.
      destruct (IH (next_slot t i)) as (q & Hq & Hqi & Hqs & Hqp);
        [by apply next_slot_inb|done|done|rewrite dist_next by done; lia|].
      exists q. split; [done|]. split_and!; [done|done|]. intros y Hy Hlt.
      destruct (decide (y = i)) as [->|Hyi]; [congruence|]. apply Hqp; [done|].
      assert (q <> i) by congruence. rewrite !dist_next by done. lia.
    + exists i. rewrite decide_True by (unfold inb in *; lia). split; [done|].
      split_and!; [done|done|]. intros y Hy. rewrite dist_0.
      pose proof (dist_range (len t) i y Hi Hy). lia.
Qed.

Section Table.
Context (fd : addr -> Z).

Definition home (n : Z) (a : addr) : Z := fd a mod n.

Lemma home_range n a : 0 < n -> 0 <= home n a < n.
Proof. intros. by apply Z.mod_pos_bound. Qed.

(** Every slot between an entry's home and its place is taken. *)
Definition settled (t : list ptr) (i : Z) (a : addr) : Prop :=
  forall y, inb t y -> dist (len t) (home (len t) a) y < dist (len t) (home (len t) a) i ->
    slot t y <> NULL.

Definition holds (t : list ptr) (i : Z) (a : addr) : Prop := inb t i /\ slot t i = Some a.

Record probing (t : list ptr) : Prop := {
  pb_uniq i j a b : holds t i a -> holds t j b -> fd a = fd b -> i = j;
  pb_path i a : holds t i a -> settled t i a;
  pb_hole : exists e, inb t e /\ slot t e = NULL
}.

Lemma holds_fun t i a b : holds t i a -> holds t i b -> a = b.
Proof. intros [_ H1] [_ H2]. congruence. Qed.

(** Filling a slot keeps the paths of the entries elsewhere. *)
Lemma settled_fill t q p i a :
  inb t q -> p <> NULL -> settled t i a -> settled (set_slot t q p) i a.
Proof.
  intros Hq Hp Hs y. unfold inb. rewrite len_set_slot. intros Hy Hd.
  rewrite slot_set_slot by done. case_decide; [done|]. by apply Hs.
Qed.

Lemma settled_first t a q : first_free t (home (len t) a) q -> settled t q a.
Proof. intros (_ & _ & H) y Hy. by apply H. Qed.

Lemma holds_fill t q a i b :
  inb t q -> slot t q = NULL ->
  holds (set_slot t q (Some a)) i b <-> (i = q /\ b = a) \/ (i <> q /\ holds t i b).
Proof.
  intros Hq Hn. unfold holds, inb. rewrite len_set_slot. split.
  - intros [Hi Hs]. rewrite slot_set_slot in Hs by done. case_decide; naive_solver.
  - intros [[-> ->]|[Hne [Hi Hs]]].
    + split; [done|]. by rewrite slot_set_slot, decide_True.
    + split; [done|]. by rewrite slot_set_slot, decide_False.
Qed.

(** Placing an entry that is not in the table. *)
Lemma place_probing t a q e :
  probing t -> (forall i b, holds t i b -> fd b <> fd a) ->
  first_free t (home (len t) a) q -> inb t e -> slot t e = NULL -> e <> q ->
  probing (set_slot t q (Some a)).
Proof.
  intros [Hu Hp _] Hnew Hq He Hse Heq. pose proof Hq as (Hqi & Hqn & _). split.
  - intros i j x y. rewrite !holds_fill by done.
    intros [[-> ->]|[Hi Hx]] [[-> ->]|[Hj Hy]] E; [done| | |by eapply Hu].
    + exfalso. apply (Hnew j y Hy). congruence.
    + exfalso. by apply (Hnew i x Hx).
  - intros i x Hx. rewrite holds_fill in Hx by done. destruct Hx as [[-> ->]|[Hi Hx]].
    + apply settled_fill; [done|done|]. by apply settled_first.
    + apply settled_fill; [done|done|]. by apply Hp.
  - exists e. unfold inb. rewrite len_set_slot. split; [done|].
    by rewrite slot_set_slot, decide_False.
Qed.

(** ** Lookup *)

(** The heap agrees with [fd] on the table's entries. *)
Definition fds_ok (w : world) (t : list ptr) : Prop :=
  forall i a, holds t i a -> exists s, w_socks w !! a = Some s /\ s_fd s = fd a.

Lemma dist_step t h i :
  inb t h -> inb t i -> dist (len t) h i + 1 < len t ->
  dist (len t) h (next_slot t i) = dist (len t) h i + 1.
Proof.
  intros Hh Hi Hlt. rewrite next_slot_cases by done. unfold inb, dist in *.
  destruct (Z.eqb_spec (i + 1) (len t)), (Z.leb_spec h i);
    match goal with |- context [Z.leb ?a ?b] => destruct (Z.leb_spec a b) end; lia.
Qed.

Lemma lookup_loop_run w t f probes i :
  let h := f mod len t in
  probing t -> fds_ok w t -> inb t i -> len t - dist (len t) h i <= Z.of_nat probes ->
  (forall y, inb t y -> dist (len t) h y < dist (len t) h i -> slot t y <> NULL) ->
  (forall y b, holds t y b -> dist (len t) h y < dist (len t) h i -> fd b <> f) ->
  exists r, fd_lookup_loop probes t i f w = Some (r, w) /\
    match r with
    | Some a => exists j, holds t j a /\ fd a = f
    | None => forall j b, holds t j b -> fd b <> f
    end.
Proof.
  intros h Hpb Hfd. revert i. induction probes as [|probes IH]; intros i Hi Hp Hfull Hno;
    assert (Hh : inb t h) by (apply Z.mod_pos_bound; unfold inb in Hi; lia);
    pose proof (dist_range (len t) h i Hh Hi) as Hr; [lia|].
  simpl. destruct (slot t i) as [a|] eqn:Ei.
  - destruct (Hfd i a) as (s & Hs & Hsf); [done|]. mstep. rewrite Hsf.
    destruct (Z.eqb_spec (fd a) f) as [E|Hne].
    { exists (Some a). split; [done|]. by exists i. }
    destruct (pb_hole _ Hpb) as (e & He & Hse).
    assert (dist (len t) h i < dist (len t) h e).
    { destruct (Z.lt_trichotomy (dist (len t) h i) (dist (len t) h e)) as [?|[E|Hgt]]; [done| |].
      - apply dist_inj in E; [congruence|done..].
      - by destruct (Hfull e He Hgt). }
    pose proof (dist_range (len t) h e Hh He).
    pose proof (dist_step t h i Hh Hi ltac:(lia)) as Hst.
    apply IH; [by apply next_slot_inb|lia|..].
    + intros y Hy Hlt. destruct (decide (y = i)) as [->|Hyi]; [congruence|]. apply Hfull; [done|].
      assert (dist (len t) h y <> dist (len t) h i) by (intros ?%dist_inj; done). lia.
    + intros y b Hb Hlt. pose proof Hb as [Hy Hsb].
      destruct (decide (y = i)) as [->|Hyi]; [congruence|]. apply (Hno y); [done|].
      assert (dist (len t) h y <> dist (len t) h i) by (intros ?%dist_inj; done). lia.
  - exists NULL. split; [done|]. intros j b Hb Hf. pose proof Hb as [Hj Hsb].
    destruct (Z.lt_trichotomy (dist (len t) h i) (dist (len t) h j)) as [Hlt|[E|Hgt]].
    + apply (pb_path _ Hpb j b Hb i Hi); [|done]. unfold home. by rewrite Hf.
    + apply dist_inj in E; [congruence|done..].
    + by apply (Hno j b).
Qed.

(** ** Deletion *)

Section Compact.
Context (s0 e : Z).

(** Offset from the slot that was cleared first. *)
Definition ofs (t : list ptr) (x : Z) : Z := dist (len t) s0 x.
Definition window (t : list ptr) (i x : Z) : Prop := ofs t i < ofs t x < ofs t e.

(** Slots behind [i] up to the empty slot [e] have not been looked at; every
    other entry is settled, and the paths of the waiting ones have holes only
    up to [i]. *)
Record compacting (t : list ptr) (i : Z) : Prop := {
  cp_s0 : inb t s0;
  cp_i : inb t i;
  cp_e : inb t e;
  cp_lt : ofs t i < ofs t e;
  cp_end : slot t e = NULL;
  cp_full x : inb t x -> window t i x -> slot t x <> NULL;
  cp_done x a : holds t x a -> ~ window t i x -> settled t x a;
  cp_wait x a y : holds t x a -> window t i x -> inb t y ->
    dist (len t) (home (len t) a) y < dist (len t) (home (len t) a) x ->
    slot t y = NULL -> ofs t y <= ofs t i;
  cp_uniq x y a b : holds t x a -> holds t y b -> fd a = fd b -> x = y
}.

(** An entry whose path crosses [p] and stops short of [e] lies between them. *)
Lemma path_stops n h p x :
  0 <= h < n -> 0 <= p < n -> 0 <= x < n -> 0 <= s0 < n -> 0 <= e < n ->
  dist n h p < dist n h x -> dist n h x <= dist n h e -> x <> e ->
  dist n s0 p < dist n s0 e -> dist n s0 p < dist n s0 x < dist n s0 e.
Proof.
  unfold dist.
  destruct (Z.leb_spec h p), (Z.leb_spec h x), (Z.leb_spec h e), (Z.leb_spec s0 p),
    (Z.leb_spec s0 e), (Z.leb_spec s0 x); lia.
Qed.

Lemma compact_done t i :
  compacting t i -> slot t (next_slot t i) = NULL -> probing t.
Proof.
  intros C Hn. pose proof (cp_s0 _ _ C) as H0. pose proof (cp_i _ _ C) as Hi.
  pose proof (cp_e _ _ C) as He. pose proof (cp_lt _ _ C) as Hlt. unfold ofs in Hlt.
  pose proof (dist_range _ _ _ H0 He) as Hre.
  pose proof (dist_step t s0 i H0 Hi ltac:(lia)) as Hst.
  assert (Hw : forall x, inb t x -> ~ window t i x).
  { intros x Hx [Hx1 Hx2]. apply (cp_full _ _ C (next_slot t i)); [by apply next_slot_inb| |done].
    unfold window, ofs in *. rewrite Hst. lia. }
  split; [exact (cp_uniq _ _ C)| |exists e; split; [done|exact (cp_end _ _ C)]].
  intros x a Ha. apply (cp_done _ _ C); [done|]. apply Hw. by destruct Ha.
Qed.

Lemma holds_move t p q a x b :
  holds t p a -> inb t q -> q = p \/ slot t q = NULL ->
  holds (set_slot (set_slot t p NULL) q (Some a)) x b <->
    (x = q /\ b = a) \/ (x <> q /\ x <> p /\ holds t x b).
Proof.
  intros [Hp Hs] Hq Hf. unfold holds, inb in *. rewrite !len_set_slot. split.
  - intros [Hx Hxs]. rewrite slot_set_slot, slot_set_slot in Hxs by (unfold inb; by rewrite ?len_set_slot).
    repeat case_decide; naive_solver.
  - intros [[-> ->]|(H1 & H2 & Hx & Hxs)]; (split; [done|]);
      rewrite slot_set_slot by (unfold inb; by rewrite ?len_set_slot).
    + by rewrite decide_True.
    + by rewrite decide_False, slot_set_slot, decide_False.
Qed.

(** The entry behind [i] is taken out; it finds a free slot no farther from its
    home than the one it left. *)
Lemma compact_target t i a :
  compacting t i -> let p := next_slot t i in slot t p = Some a ->
  inb t p /\ ofs t p = ofs t i + 1 /\ ofs t p < ofs t e /\
  exists q,
    probe_free (length (set_slot t p NULL)) (set_slot t p NULL) (home (len t) a) = Some q /\
    first_free (set_slot t p NULL) (home (len t) a) q /\ inb t q /\
    (q = p \/ slot t q = NULL) /\ ofs t q <= ofs t p.
Proof.
  intros C p Ha. pose proof (cp_s0 _ _ C) as H0. pose proof (cp_i _ _ C) as Hi.
  pose proof (cp_e _ _ C) as He. pose proof (cp_lt _ _ C) as Hlt.
  pose proof (dist_range _ _ _ H0 He) as Hre. unfold ofs in Hlt.
  pose proof (dist_step t s0 i H0 Hi ltac:(lia)) as Hst. fold p in Hst.
  assert (Hp : inb t p) by (by apply next_slot_inb).
  assert (Hpe : ofs t p < ofs t e).
  { unfold ofs. rewrite Hst. assert (dist (len t) s0 p <> dist (len t) s0 e); [|lia].
    intros E. apply dist_inj in E; [|done..]. pose proof (cp_end _ _ C). congruence. }
  assert (Hh : 0 <= home (len t) a < len t) by (apply home_range; unfold inb in *; lia).
  assert (Hip : inb (set_slot t p NULL) p) by (unfold inb; by rewrite len_set_slot).
  destruct (probe_free_spec (set_slot t p NULL) (length (set_slot t p NULL)) (home (len t) a) p)
    as (q & Hq & Hff).
  { unfold inb. by rewrite len_set_slot. }
  { done. }
  { by rewrite slot_set_slot, decide_True. }
  { pose proof (dist_range (len t) _ _ Hh Hp). rewrite len_set_slot. unfold len, set_slot in *.
    rewrite length_insert. lia. }
  split_and!; [done|unfold ofs; lia|done|]. exists q. pose proof Hff as (Hqi & Hqn & Hqf).
  unfold inb in Hqi. rewrite len_set_slot in Hqi, Hqf.
  assert (Hqp : q = p \/ slot t q = NULL).
  { rewrite slot_set_slot in Hqn by done. case_decide; auto. }
  split_and!; [done|done|done|done|]. destruct (decide (q = p)) as [->|Hne]; [done|].
  assert (Hlt' : dist (len t) (home (len t) a) q < dist (len t) (home (len t) a) p).
  { destruct (Z.lt_trichotomy (dist (len t) (home (len t) a) q) (dist (len t) (home (len t) a) p))
      as [?|[E|Hgt]]; [done| |].
    - apply dist_inj in E; [congruence|done..].
    - destruct (Hqf p); [done|done|]. by rewrite slot_set_slot, decide_True. }
  assert (ofs t q <= ofs t i); [|unfold ofs in *; lia].
  apply (cp_wait _ _ C p a q); try done; [unfold window, ofs in *; lia|]. naive_solver.
Qed.

Lemma compact_step t i a q :
  compacting t i -> let p := next_slot t i in
  holds t p a -> ofs t p = ofs t i + 1 -> ofs t p < ofs t e ->
  first_free (set_slot t p NULL) (home (len t) a) q -> inb t q -> (q = p \/ slot t q = NULL) ->
  ofs t q <= ofs t p ->
  compacting (set_slot (set_slot t p NULL) q (Some a)) p.
Proof.
  intros C p Hpa Hop Hpe Hff Hq Hqp Hoq. set (t' := set_slot (set_slot t p NULL) q (Some a)).
  assert (Hlen : len t' = len t) by (unfold t'; by rewrite !len_set_slot).
  assert (Hpi : inb t p) by (by destruct Hpa).
  assert (Hsl : forall y, inb t y -> slot t' y = if decide (y = q) then Some a
            else if decide (y = p) then NULL else slot t y).
  { intros y Hy. unfold t'. rewrite !slot_set_slot by (unfold inb; by rewrite ?len_set_slot). done. }
  assert (Hhm : forall x b, holds t' x b <-> (x = q /\ b = a) \/ (x <> q /\ x <> p /\ holds t x b))
    by (intros; by apply holds_move).
  assert (Hwin : forall x, window t' p x <-> ofs t p < ofs t x < ofs t e)
    by (intros x; unfold window, ofs; by rewrite Hlen).
  pose proof (cp_s0 _ _ C) as H0. pose proof (cp_e _ _ C) as He.
  assert (Hep : e <> p) by (intros E; rewrite E in Hpe; lia).
  assert (Heq : e <> q) by (intros E; rewrite E in Hpe; lia).
  split; try (unfold inb, ofs; rewrite Hlen; done).
  - rewrite Hsl, !decide_False by done. exact (cp_end _ _ C).
  - intros x Hx Hw%Hwin. unfold inb in Hx. rewrite Hlen in Hx. rewrite Hsl by done.
    case_decide; [done|]. case_decide; [subst; lia|]. apply (cp_full _ _ C); [done|].
    unfold window. lia.
  - intros x b Hb%Hhm Hw. rewrite Hwin in Hw. destruct Hb as [[-> ->]|(Hxq & Hxp & Hb)].
    + unfold t'. apply settled_fill; [unfold inb; by rewrite len_set_slot|done|].
      apply settled_first. rewrite len_set_slot. done.
    + assert (Hnw : ~ window t i x).
      { unfold window. intros [Hw1 Hw2]. apply Hw. split; [|done].
        assert (ofs t x <> ofs t p); [|lia]. intros E. apply dist_inj in E; [done| |by destruct Hb|done].
        done. }
      pose proof (cp_done _ _ C x b Hb Hnw) as Hst. pose proof Hb as [Hx Hsx].
      intros y Hy Hd. unfold inb in Hy. rewrite Hlen in Hy, Hd. rewrite Hsl by done.
      case_decide; [done|]. case_decide as Eyp; [|by apply Hst]. subst y. exfalso. apply Hw.
      assert (Hh : 0 <= home (len t) b < len t) by (apply home_range; unfold inb in *; lia).
      apply (path_stops (len t) (home (len t) b) p x); try done.
      * destruct (Z.le_gt_cases (dist (len t) (home (len t) b) x) (dist (len t) (home (len t) b) e))
          as [?|Hgt]; [done|]. exfalso. apply (Hst e He); [lia|]. exact (cp_end _ _ C).
      * intros ->. pose proof (cp_end _ _ C). congruence.
  - intros x b y Hb%Hhm [Hw1 Hw2]%Hwin Hy Hd Hsy. unfold inb in Hy. rewrite Hlen in Hy, Hd.
    rewrite Hsl in Hsy by done. unfold ofs. rewrite Hlen. fold (ofs t y) (ofs t p).
    case_decide; [done|]. case_decide; [by subst|].
    destruct Hb as [[-> ->]|(Hxq & Hxp & Hb)]; [lia|].
    assert (ofs t y <= ofs t i); [|lia]. apply (cp_wait _ _ C x b y); try done. unfold window. lia.
  - intros x y b c Hb%Hhm Hc%Hhm E.
    destruct Hb as [[-> ->]|(Hxq & Hxp & Hb)], Hc as [[-> ->]|(Hyq & Hyp & Hc)]; [done| | |].
    + destruct Hyp. by eapply (cp_uniq _ _ C).
    + destruct Hxp. by eapply (cp_uniq _ _ C).
    + by eapply (cp_uniq _ _ C).
Qed.

(** Compaction ends in a probing table with the same entries. *)
Lemma compact_run w fuel t i :
  compacting t i -> fds_ok w t -> ofs t e - ofs t i <= Z.of_nat fuel ->
  exists t', fd_compact fuel t i w = Some (t', w) /\ probing t' /\ len t' = len t /\
    forall b, (exists x, holds t' x b) <-> (exists x, holds t x b).
Proof.
  revert t i. induction fuel as [|fuel IH]; intros t i C Hfd Hf.
  { pose proof (cp_lt _ _ C). lia. }
  cbn [fd_compact]. destruct (slot t (next_slot t i)) as [a|] eqn:Ea.
  - destruct (compact_target t i a C Ea) as (Hp & Hop & Hpe & q & Hq & Hff & Hqi & Hqp & Hoq).
    assert (Hpa : holds t (next_slot t i) a) by done.
    pose proof (compact_step t i a q C Hpa Hop Hpe Hff Hqi Hqp Hoq) as C'.
    set (t' := set_slot (set_slot t (next_slot t i) NULL) q (Some a)) in *.
    assert (Hlen : len t' = len t) by (unfold t'; by rewrite !len_set_slot).
    assert (Hhm : forall x b, holds t' x b <-> (x = q /\ b = a) \/
              (x <> q /\ x <> next_slot t i /\ holds t x b)) by (intros; by apply holds_move).
    destruct (Hfd _ _ Hpa) as (s & Hs & Hsf).
    assert (Hplace : fd_place (set_slot t (next_slot t i) NULL) (Some a) w = Some (t', w)).
    { unfold fd_place. mstep. rewrite Hsf, len_set_slot. fold (home (len t) a). by rewrite Hq. }
    erewrite bind_some by exact Hplace. cbv beta.
    destruct (IH t' (next_slot t i) C') as (t2 & Hrun & Hpb & Hl2 & Hh2).
    { intros x b Hb%Hhm. destruct Hb as [[-> ->]|(_ & _ & Hb)]; [|by eapply Hfd]. eauto. }
    { unfold ofs in *. rewrite Hlen. lia. }
    exists t2. split_and!; [exact Hrun|done|congruence|]. intros b. rewrite Hh2. split.
    + intros [x Hb%Hhm]. destruct Hb as [[-> ->]|(_ & _ & Hb)]; eauto.
    + intros [x Hb]. destruct (decide (x = next_slot t i)) as [->|Hne].
      * exists q. apply Hhm. left. split; [done|]. by eapply holds_fun.
      * exists x. apply Hhm. right. split_and!; [|done|done]. intros ->.
        destruct Hqp as [?|Hn]; [done|]. destruct Hb. congruence.
  - exists t. split_and!; [done|by eapply compact_done|done|done].
Qed.
End Compact.

(** Clearing an entry's slot starts a compaction. *)
Lemma clear_compacting t s0 a :
  probing t -> holds t s0 a ->
  exists e, compacting s0 e (set_slot t s0 NULL) s0.
Proof.
  intros [Hu Hp (e0 & He0 & Hs0)] Ha. pose proof Ha as [Hi Hs].
  destruct (probe_free_spec t (length t) s0 e0) as (e & _ & He & Hse & Hfull); [done..| |].
  { pose proof (dist_range _ _ _ Hi He0). unfold len in *. lia. }
  exists e. set (t' := set_slot t s0 NULL).
  assert (Hlen : len t' = len t) by (unfold t'; by rewrite len_set_slot).
  assert (Hsl : forall y, inb t y -> slot t' y = if decide (y = s0) then NULL else slot t y)
    by (intros; by apply slot_set_slot).
  assert (Hne : e <> s0) by congruence.
  assert (Hd0 : forall x, inb t x -> x <> s0 -> 0 < dist (len t) s0 x).
  { intros x Hx Hxs. pose proof (dist_range _ _ _ Hi Hx).
    assert (dist (len t) s0 x <> dist (len t) s0 s0) by (by intros ?%dist_inj).
    rewrite dist_0 in *. lia. }
  assert (Hh : forall x b, holds t' x b -> x <> s0 /\ holds t x b).
  { intros x b [Hx Hxs]. unfold inb in Hx. rewrite Hlen in Hx. rewrite Hsl in Hxs by done.
    case_decide; [done|]. done. }
  split; unfold inb, window, ofs; rewrite ?Hlen, ?dist_0; try done.
  - by apply Hd0.
  - by rewrite Hsl, decide_False.
  - intros x Hx [H1 H2]. rewrite Hsl by done. case_decide; [subst; rewrite dist_0 in H1; lia|].
    by apply Hfull.
  - intros x b [Hxs Hb]%Hh Hw y Hy Hd. unfold inb in Hy. rewrite Hlen in Hy, Hd.
    rewrite Hsl by done. pose proof Hb as [Hx Hxb]. case_decide as E; [|by eapply Hp].
    subst y. exfalso. apply Hw. pose proof (Hd0 x Hx Hxs).
    assert (Hhr : 0 <= home (len t) b < len t) by (apply home_range; unfold inb in *; lia).
    rewrite <- (dist_0 (len t) s0) at 1.
    apply (path_stops s0 e (len t) (home (len t) b) s0 x); try done.
    + destruct (Z.le_gt_cases (dist (len t) (home (len t) b) x) (dist (len t) (home (len t) b) e))
        as [?|Hgt]; [done|]. exfalso. apply (Hp x b Hb e He); [lia|done].
    + intros ->. congruence.
    + rewrite dist_0. by apply Hd0.
  - intros x b y [Hxs Hb]%Hh _ Hy Hd Hn. rewrite Hsl in Hn by done.
    case_decide as E; [subst; rewrite dist_0; lia|]. exfalso. by eapply (Hp x b Hb y).
  - intros x y b c [_ Hb]%Hh [_ Hc]%Hh. by apply Hu.
Qed.
End Table.

(** ** Entries and counts *)

Definition entries (t : list ptr) : list addr := omap id t.

Lemma holds_nat t i a : holds t (Z.of_nat i) a <-> t !! i = Some (Some a).
Proof.
  unfold holds, inb, slot, len. rewrite Nat2Z.id. split.
  - intros [Hi Hs]. destruct (t !! i) eqn:E; [by subst|done].
  - intros H. apply lookup_lt_Some in H as Hl. rewrite H. split; [lia|done].
Qed.

Lemma holds_of_nat t i a : holds t i a -> holds t (Z.of_nat (Z.to_nat i)) a.
Proof. intros H. pose proof H as [[? ?] _]. by rewrite Z2Nat.id. Qed.

Lemma elem_of_entries t a : a ∈ entries t <-> exists i, holds t i a.
Proof.
  unfold entries. rewrite list_elem_of_omap. split.
  - intros (p & [i Hi]%list_elem_of_lookup_1 & Hp). simpl in Hp. subst.
    exists (Z.of_nat i). by apply holds_nat.
  - intros [i H%holds_of_nat%holds_nat]. exists (Some a). split; [|done].
    by eapply list_elem_of_lookup_2.
Qed.

Lemma entries_keys_nodup (fd : addr -> Z) t :
  (forall i j a b, holds t i a -> holds t j b -> fd a = fd b -> i = j) ->
  NoDup (fd <$> entries t).
Proof.
  intros Hu.
  assert (Hn : forall i j a b, t !! i = Some (Some a) -> t !! j = Some (Some b) ->
             fd a = fd b -> i = j).
  { intros i j a b Hi%holds_nat Hj%holds_nat E. specialize (Hu _ _ _ _ Hi Hj E). lia. }
  clear Hu. induction t as [|p t IH]; [constructor|].
  assert (NoDup (fd <$> entries t)).
  { apply IH. intros i j a b Hi Hj E. specialize (Hn (S i) (S j) a b Hi Hj E). lia. }
  destruct p as [a|]; [|done]. cbn. constructor; [|done].
  intros (b & E & Hb)%list_elem_of_fmap. apply list_elem_of_omap in Hb as (p & Hp & Hb).
  simpl in Hb. subst. apply list_elem_of_lookup_1 in Hp as [j Hj].
  by specialize (Hn 0%nat (S j) a b eq_refl Hj E).
Qed.

Lemma hole_exists t : (length (entries t) < length t)%nat -> exists e, inb t e /\ slot t e = NULL.
Proof.
  intros Hl. assert (exists i, t !! i = Some NULL) as [i Hi].
  { induction t as [|[a|] t IH]; cbn in Hl; [lia| |by exists 0%nat].
    destruct IH as [i Hi]; [by apply PeanoNat.lt_S_n|]. by exists (S i). }
  exists (Z.of_nat i). unfold inb, len, slot. rewrite Nat2Z.id, Hi.
  apply lookup_lt_Some in Hi. split; [lia|done].
Qed.

Lemma entries_fill t i a :
  (length (entries (<[i := Some a]> t)) <= S (length (entries t)))%nat.
Proof.
  revert i. induction t as [|[b|] t IH]; intros [|i]; cbn; try lia.
  - apply le_n_S, IH.
  - apply IH.
Qed.

Lemma second_hole t q :
  (S (length (entries t)) < length t)%nat -> inb t q ->
  exists e, inb t e /\ slot t e = NULL /\ e <> q.
Proof.
  intros Hl Hq. destruct (hole_exists (set_slot t q (Some 1%positive))) as (e & He & Hs).
  { unfold set_slot. rewrite length_insert.
    pose proof (entries_fill t (Z.to_nat q) 1%positive). lia. }
  unfold inb in He. rewrite len_set_slot in He. rewrite slot_set_slot in Hs by done.
  case_decide; [done|]. by exists e.
Qed.

(** ** Representation *)

Definition fd_of (w : world) (a : addr) : Z :=
  match w_socks w !! a with Some s => s_fd s | None => 0 end.

(** The entries of [t] are the values of [m], under their own descriptors. *)
Definition content (w : world) (t : list ptr) (m : gmap Z addr) : Prop :=
  (forall i a, holds t i a -> is_Some (w_socks w !! a)) /\
  (forall f a, m !! f = Some a <-> (exists i, holds t i a) /\ fd_of w a = f).

Definition fd_rep (w : world) (port : addr) (m : gmap Z addr) : Prop :=
  exists p, w_ports w !! port = Some p /\
    p_fd_table_count p = Z.of_nat (size m) /\
    len (p_fd_table p) <= SIZE_MAX / 8 /\
    (len (p_fd_table p) = 0 \/
     (4 <= len (p_fd_table p) /\ Z.of_nat (size m) < len (p_fd_table p) /\
      probing (fd_of w) (p_fd_table p))) /\
    content w (p_fd_table p) m.

Lemma content_fds_ok w t m : content w t m -> fds_ok (fd_of w) w t.
Proof.
  intros [Hh _] i a Ha. destruct (Hh i a Ha) as [s Hs]. exists s. split; [done|].
  unfold fd_of. by rewrite Hs.
Qed.

Lemma content_size w t m :
  content w t m ->
  (forall i j a b, holds t i a -> holds t j b -> fd_of w a = fd_of w b -> i = j) ->
  length (entries t) = size m.
Proof.
  intros [_ Hm] Hu. pose proof (entries_keys_nodup _ t Hu) as Hnd.
  rewrite <- size_dom, <- (length_fmap (fd_of w) (entries t)).
  rewrite <- (size_list_to_set (C := gset Z) _ Hnd). f_equal. apply set_eq. intros f.
  rewrite elem_of_list_to_set, list_elem_of_fmap, elem_of_dom. split.
  - intros (a & -> & Ha%elem_of_entries). exists a. by apply Hm.
  - intros [a [Ha <-]%Hm]. exists a. split; [done|]. by apply elem_of_entries.
Qed.

Lemma content_empty w m : content w [] m -> m = ∅.
Proof.
  intros [_ Hm]. apply map_eq. intros f. rewrite lookup_empty.
  destruct (m !! f) as [a|] eqn:E; [|done]. apply Hm in E as [(i & [Hi _]) _].
  unfold inb, len in Hi. simpl in Hi. lia.
Qed.

Lemma len_zero t : len t = 0 -> t = [].
Proof. unfold len. destruct t; [done|simpl; lia]. Qed.

(** C27: looking a descriptor up always terminates and returns exactly the
    registration the table's map holds for it, or NULL when there is none;
    nothing changes. *)
Theorem fd_lookup_correct w port m fd :
  fd_rep w port m -> ep_fd_table_lookup (Some port) fd w = Some (m !! fd, w).
Proof.
  intros (p & Hp & Hcnt & Hmax & Hpb & Hc). unfold ep_fd_table_lookup. mstep.
  destruct (Z.eqb_spec (len (p_fd_table p)) 0) as [E|Hne].
  - apply len_zero in E. rewrite E in Hc. apply content_empty in Hc as ->.
    by rewrite lookup_empty.
  - destruct Hpb as [?|(Hlen & Hload & Hpb)]; [done|].
    assert (Hh : inb (p_fd_table p) (fd mod len (p_fd_table p))) by (apply Z.mod_pos_bound; lia).
    destruct (lookup_loop_run (fd_of w) w (p_fd_table p) fd (length (p_fd_table p))
      (fd mod len (p_fd_table p))) as (r & Hrun & Hr); try done.
    + by eapply content_fds_ok.
    + rewrite dist_0. unfold len. lia.
    + intros y Hy. rewrite dist_0. pose proof (dist_range _ _ _ Hh Hy). lia.
    + intros y b [Hy _]. rewrite dist_0. pose proof (dist_range _ _ _ Hh Hy). lia.
    + rewrite Hrun. do 2 f_equal. destruct Hc as [_ Hm]. destruct r as [a|].
      * destruct Hr as (j & Hj & Hf). symmetry. apply Hm. eauto.
      * symmetry. destruct (m !! fd) as [a|] eqn:E; [|done]. apply Hm in E as [(j & Hj) Hf].
        by destruct (Hr j a Hj).
Qed.

(** ** Placing and growing *)

Lemma place_run (fd : addr -> Z) w t a s :
  probing fd t -> w_socks w !! a = Some s -> s_fd s = fd a ->
  (forall i b, holds t i b -> fd b <> fd a) -> (S (length (entries t)) < length t)%nat ->
  exists q t', fd_place t (Some a) w = Some (t', w) /\ t' = set_slot t q (Some a) /\
    inb t q /\ slot t q = NULL /\ probing fd t' /\ len t' = len t /\
    (forall i b, holds t' i b <-> (i = q /\ b = a) \/ (i <> q /\ holds t i b)).
Proof.
  intros Hpb Hs Hsf Hnew Hroom. destruct (pb_hole _ _ Hpb) as (e & He & Hse).
  assert (Hh : inb t (home fd (len t) a)) by (apply home_range; unfold inb in *; lia).
  destruct (probe_free_spec t (length t) (home fd (len t) a) e) as (q & Hq & Hff); [done..| |].
  { pose proof (dist_range _ _ _ Hh He). unfold len in *. lia. }
  pose proof Hff as (Hqi & Hqn & _). destruct (second_hole t q Hroom Hqi) as (e' & He' & Hse' & Hne).
  exists q, (set_slot t q (Some a)). split_and!; try done.
  - unfold fd_place. mstep. rewrite Hsf. fold (home fd (len t) a). by rewrite Hq.
  - by eapply place_probing.
  - apply len_set_slot.
  - intros. by apply holds_fill.
Qed.

Lemma rehash_run (fd : addr -> Z) w old t :
  probing fd t -> (forall a, a ∈ entries old -> exists s, w_socks w !! a = Some s /\ s_fd s = fd a) ->
  NoDup (fd <$> entries old) -> (forall a i b, a ∈ entries old -> holds t i b -> fd b <> fd a) ->
  (S (length (entries old) + length (entries t)) < length t)%nat ->
  exists t', fd_rehash old t w = Some (t', w) /\ probing fd t' /\ len t' = len t /\
    (forall b, (exists i, holds t' i b) <-> b ∈ entries old \/ (exists i, holds t i b)).
Proof.
  revert t. induction old as [|[a|] old IH]; intros t Hpb Hin Hnd Hdis Hroom.
  - exists t. split_and!; try done. intros b. split; [by right|intros [Hb|?]; [by apply elem_of_nil in Hb|done]].
  - change (entries (Some a :: old)) with (a :: entries old) in *. rewrite fmap_cons in Hnd.
    apply NoDup_cons in Hnd as [Hna Hnd].
    destruct (Hin a) as (s & Hs & Hsf); [by left|]. simpl in Hroom.
    destruct (place_run fd w t a s) as (q & t1 & Hrun & Ht1 & Hq & Hqn & Hpb1 & Hl1 & Hh1);
      [done..|intros i b Hb; by eapply Hdis; [left|]|lia|].
    cbn [fd_rehash]. erewrite bind_some by exact Hrun. cbv beta.
    destruct (IH t1) as (t' & Hrun' & Hpb' & Hl' & Hh'); [done|set_solver|done| | |].
    + intros c i b Hc Hb%Hh1. destruct Hb as [[-> ->]|[_ Hb]]; [|by eapply Hdis; [right|]].
      intros E. apply Hna. rewrite E. by apply list_elem_of_fmap_2.
    + rewrite Ht1. pose proof (entries_fill t (Z.to_nat q) a). unfold set_slot.
      rewrite length_insert. lia.
    + exists t'. split_and!; [done|done|congruence|]. intros b. rewrite Hh', elem_of_cons. split.
      * intros [?|[i Hb%Hh1]]; [by auto|]. destruct Hb as [[-> ->]|[_ ?]]; eauto.
      * intros [[->|?]|[i Hb]]; [right; exists q; apply Hh1; auto|by left|right].
        exists i. apply Hh1. right. split; [|done]. intros ->. destruct Hb. congruence.
  - cbn [fd_rehash]. by apply IH.
Qed.

(** A fresh table is empty. *)
Lemma fresh_probing (fd : addr -> Z) n :
  (0 < n)%nat -> probing fd (replicate n NULL) /\ (forall i a, ~ holds (replicate n NULL) i a) /\
    entries (replicate n NULL) = [].
Proof.
  intros Hn.
  assert (Hno : forall i a, ~ holds (replicate n NULL) i a).
  { intros i a H%holds_of_nat%holds_nat. by apply lookup_replicate in H as [? _]. }
  split_and!; [|done|].
  - split.
    + intros i j a b Ha. by destruct (Hno i a).
    + intros i a Ha. by destruct (Hno i a).
    + exists 0. unfold inb, len, slot. rewrite length_replicate. split; [lia|].
      by rewrite lookup_replicate_2.
  - induction n as [|n IH]; [done|]. destruct n; [done|]. apply IH; [lia|].
    intros i a H%holds_of_nat%holds_nat. by apply lookup_replicate in H as [? _].
Qed.

(** Only the port's table and the error channel change. *)
Definition fd_frame (port : addr) (w w' : world) : Prop :=
  w_socks w' = w_socks w /\ forall q p', w_ports w' !! q = Some p' ->
    exists p, w_ports w !! q = Some p /\
      p' = p <| p_fd_table := p_fd_table p' |> <| p_fd_table_block := p_fd_table_block p' |> <| p_fd_table_count := p_fd_table_count p' |> /\
      (q <> port -> p' = p).

Lemma fd_frame_same port w w' :
  w_socks w' = w_socks w -> w_ports w' = w_ports w -> fd_frame port w w'.
Proof.
  intros Hs Hp. split; [done|]. rewrite Hp. intros q p' Hq. exists p'.
  split_and!; [done|by destruct p'|done].
Qed.

Lemma set_errno_heaps e w w' u :
  ep_set_errno e w = Some (u, w') -> w_socks w' = w_socks w /\ w_ports w' = w_ports w.
Proof. unfold ep_set_errno. intros. by minv. Qed.

Lemma grow_run w port p m new_size :
  w_ports w !! port = Some p -> content w (p_fd_table p) m ->
  (forall i j a b, holds (p_fd_table p) i a -> holds (p_fd_table p) j b ->
     fd_of w a = fd_of w b -> i = j) ->
  4 <= new_size -> Z.of_nat (size m) + 1 < new_size ->
  exists r w', ep_fd_table_grow (Some port) new_size w = Some (r, w') /\ w_socks w' = w_socks w /\
    ((r = 0 /\ new_size <= SIZE_MAX / 8 /\ exists t', probing (fd_of w) t' /\ len t' = new_size /\
        content w t' m /\ exists block, w_ports w' = <[port := p <| p_fd_table := t' |> <| p_fd_table_block := block |>]> (w_ports w)) \/
     (r = -1 /\ w_errno w' = ENOMEM /\ w_ports w' = w_ports w)).
Proof.
  intros Hp Hc Hu Hn Hroom. unfold ep_fd_table_grow.
  assert (Hfail : forall w0, exists w', (ep_set_errno ENOMEM ;; ret (-1)) w0 = Some (-1, w') /\
            w_socks w' = w_socks w0 /\ w_ports w' = w_ports w0 /\ w_errno w' = ENOMEM).
  { intros w0. by eexists. }
  rewrite (proj2 (Z.eqb_neq _ _)) by lia. cbn [orb].
  destruct (Z.ltb_spec (SIZE_MAX / 8) new_size) as [Hbig|Hsmall].
  { destruct (Hfail w) as (w' & ? & ? & ? & ?). exists (-1), w'. split_and!; [done..|]. by right. }
  unfold os at 1. mstep. generalize (w_os w (w_trace w) (CallocArray new_size 8)). intros ans.
  destruct (Z.leb_spec ans 0) as [Hnull|Hok].
  { destruct (Hfail (w <| w_trace ::= cons (CallocArray new_size 8) |>)) as (w' & ? & ? & ? & ?).
    exists (-1), w'. split_and!; [done..|]. by right. }
  mstep. destruct (fresh_probing (fd_of w) (Z.to_nat new_size)) as (Hfp & Hno & He); [lia|].
  destruct (rehash_run (fd_of w) (w <| w_trace ::= cons (CallocArray new_size 8) |>) (p_fd_table p)
    (replicate (Z.to_nat new_size) NULL)) as (t' & Hrun & Hpb & Hl & Hh).
  - done.
  - intros a [i Ha]%elem_of_entries. exact (content_fds_ok _ _ _ Hc i a Ha).
  - by apply entries_keys_nodup.
  - intros a i b _ Hb. by destruct (Hno i b).
  - rewrite He, length_replicate, (content_size _ _ _ Hc Hu). simpl. lia.
  - erewrite bind_some by exact Hrun. cbv beta. repeat mstep. eexists 0, _. split; [reflexivity|].
    split; [done|]. left. split; [done|]. split; [done|]. exists t'. split_and!; [done| | |eexists; sget; by rewrite insert_insert_eq].
    + rewrite Hl. unfold len. rewrite length_replicate. lia.
    + assert (Heq : forall b, (exists i, holds t' i b) <-> (exists i, holds (p_fd_table p) i b)).
      { intros b. rewrite Hh, elem_of_entries. split; [|by left].
        intros [?|[i Hb]]; [done|by destruct (Hno i b)]. }
      destruct Hc as [Hc1 Hc2]. split.
      * intros i a Ha. destruct (proj1 (Heq a)) as [j Hj]; eauto.
      * intros f a. by rewrite Hc2, Heq.
Qed.

(** ** Insert *)

Lemma fd_of_socks w w' : w_socks w' = w_socks w -> fd_of w' = fd_of w.
Proof. unfold fd_of. by intros ->. Qed.

Lemma content_socks w w' t m : w_socks w' = w_socks w -> content w t m -> content w' t m.
Proof. intros E. unfold content. by rewrite (fd_of_socks _ _ E), E. Qed.

Lemma size_max_8 : SIZE_MAX / 8 = 2305843009213693951.
Proof. reflexivity. Qed.

Lemma insert_slot_run w port p m a s :
  w_ports w !! port = Some p -> content w (p_fd_table p) m -> probing (fd_of w) (p_fd_table p) ->
  p_fd_table_count p = Z.of_nat (size m) -> 4 <= len (p_fd_table p) <= SIZE_MAX / 8 ->
  Z.of_nat (size m) + 1 < len (p_fd_table p) ->
  w_socks w !! a = Some s -> m !! s_fd s = None ->
  exists w', fd_insert_slot (Some port) (Some a) w = Some (0, w') /\
    fd_frame port w w' /\ fd_rep w' port (<[s_fd s := a]> m).
Proof.
  intros Hp Hc Hpb Hcnt Hlen Hroom Ha Hnew.
  assert (Hfa : fd_of w a = s_fd s) by (unfold fd_of; by rewrite Ha).
  destruct (place_run (fd_of w) w (p_fd_table p) a s)
    as (q & t' & Hrun & Ht' & Hq & Hqn & Hpb' & Hl' & Hh'); [done|done|done| | |].
  { intros i b Hb E. destruct Hc as [_ Hm].
    assert (m !! s_fd s = Some b) by (apply Hm; split; [eauto|congruence]). congruence. }
  { rewrite (content_size _ _ _ Hc (pb_uniq _ _ Hpb)). unfold len in *. lia. }
  unfold fd_insert_slot. mstep. erewrite bind_some by exact Hrun. cbv beta. repeat mstep. sget.
  rewrite insert_insert_eq.
  assert (Hsz : size (<[s_fd s := a]> m) = S (size m)) by (by rewrite map_size_insert, Hnew).
  rewrite size_max_8 in Hlen. rewrite Hcnt, u64_small by lia.
  eexists. split; [reflexivity|]. split.
  - split; [done|]. sget. intros q' p' [[<- <-]|[Hne Hq']]%lookup_insert_Some.
    + exists p. split_and!; [done|by destruct p|done].
    + exists p'. split_and!; [done|by destruct p'|done].
  - eexists. sget. split; [apply lookup_insert_eq|]. sget. rewrite Hsz, Hl'.
    rewrite size_max_8.
    split; [lia|]. split; [lia|]. split; [right; split_and!; [lia|lia|done]|].
    apply (content_socks w); [done|]. destruct Hc as [Hc1 Hc2]. split.
    + intros i b Hb%Hh'. destruct Hb as [[-> ->]|[_ Hb]]; [by eexists|by eapply Hc1].
    + intros f b. rewrite lookup_insert_Some, Hc2. split.
      * intros [[<- <-]|[Hne [[i Hb] Hf]]].
        -- split; [|done]. exists q. apply Hh'. by left.
        -- split; [|done]. exists i. apply Hh'. right. split; [|done]. intros ->. destruct Hb. congruence.
      * intros [[i Hb%Hh'] Hf]. destruct Hb as [[-> ->]|[_ Hb]]; [left; split; congruence|].
        right. split; [|eauto]. intros E. subst f.
        assert (m !! s_fd s = Some b) by (apply Hc2; split; [eauto|congruence]). congruence.
Qed.

Lemma fd_frame_trans port w1 w2 w3 :
  fd_frame port w1 w2 -> fd_frame port w2 w3 -> fd_frame port w1 w3.
Proof.
  intros [E1 H1] [E2 H2]. split; [congruence|]. intros q p3 Hq.
  destruct (H2 q p3 Hq) as (p2 & Hp2 & Ep3 & Hne3). destruct (H1 q p2 Hp2) as (p1 & Hp1 & Ep2 & Hne2).
  exists p1. split_and!; [done| |].
  - rewrite Ep3, Ep2. by destruct p1.
  - intros Hne. by rewrite Hne3, Hne2.
Qed.

Lemma fd_rep_uniq w p (m : gmap Z addr) :
  len (p_fd_table p) = 0 \/
    (4 <= len (p_fd_table p) /\ Z.of_nat (size m) < len (p_fd_table p) /\
     probing (fd_of w) (p_fd_table p)) ->
  forall i j a b, holds (p_fd_table p) i a -> holds (p_fd_table p) j b ->
    fd_of w a = fd_of w b -> i = j.
Proof.
  intros [E|(_ & _ & Hpb)] i j a b Ha Hb; [|by apply (pb_uniq _ _ Hpb)].
  destruct Ha as [Hi _]. unfold inb in Hi. lia.
Qed.

(** C28: inserting a registration whose descriptor is not in the table either
    adds exactly that entry to the map, or, when the table has to grow and
    cannot, returns -1 with ENOMEM and leaves the map as it was.  The probe loop
    always ends because at least a quarter of the slots is free. *)
Theorem fd_insert_correct w port m a s :
  fd_rep w port m -> w_socks w !! a = Some s -> m !! s_fd s = None ->
  exists r w', ep_fd_table_insert (Some port) (Some a) w = Some (r, w') /\ fd_frame port w w' /\
    ((r = 0 /\ fd_rep w' port (<[s_fd s := a]> m)) \/
     (r = -1 /\ w_errno w' = ENOMEM /\ fd_rep w' port m)).
Proof.
  intros (p & Hp & Hcnt & Hmax & Hpb & Hc) Ha Hnew.
  pose proof (fd_rep_uniq w p m Hpb) as Hu.
  unfold ep_fd_table_insert. repeat mstep. cbv zeta. set (n := len (p_fd_table p)) in *.
  assert (Hn0 : 0 <= n) by (unfold n, len; lia).
  assert (Hsz : Z.of_nat (size m) <= n).
  { destruct Hpb as [E|(_ & ? & _)]; [|lia]. apply len_zero in E. rewrite E in Hc.
    apply content_empty in Hc as ->. rewrite map_size_empty. lia. }
  rewrite size_max_8 in Hmax.
  rewrite Hcnt, (u64_small (n * 3)), (u64_small (Z.of_nat (size m) * 4)) by lia.
  destruct ((n =? 0) || (n * 3 <=? Z.of_nat (size m) * 4)) eqn:Hgrow.
  - assert (Hbig : negb (n =? 0) && (SIZE_MAX / 2 <? n) = false).
    { destruct (Z.eqb_spec n 0); [done|]. simpl. apply Z.ltb_ge. change (SIZE_MAX / 2) with 9223372036854775807. lia. }
    rewrite Hbig. set (new := if n =? 0 then WEPOLL_INITIAL_FDS else n * 2).
    assert (Hnew4 : 4 <= new /\ Z.of_nat (size m) + 1 < new).
    { unfold new, WEPOLL_INITIAL_FDS. destruct (Z.eqb_spec n 0); [lia|].
      destruct Hpb as [?|(? & ? & _)]; lia. }
    destruct (grow_run w port p m new Hp Hc Hu) as (r & w1 & Hrun & Hs1 & Hr); [lia|lia|].
    erewrite bind_some by exact Hrun. cbv beta.
    destruct Hr as [(-> & Hle & t' & Hpb' & Hl' & Hc' & block & Hw1)|(-> & He & Hw1)].
    + cbn [Z.eqb negb]. cbv iota.
      destruct (insert_slot_run w1 port (p <| p_fd_table := t' |> <| p_fd_table_block := block |>) m a s) as (w' & Hrun' & Hf & Hrep);
        try (sget; rewrite ?Hl', ?(fd_of_socks _ _ Hs1), ?Hs1; done || lia).
      * rewrite Hw1. apply lookup_insert_eq.
      * sget. by apply (content_socks w).
      * exists 0, w'. split; [exact Hrun'|]. split; [|by left]. eapply fd_frame_trans; [|exact Hf].
        split; [done|]. rewrite Hw1. intros q' p' [[<- <-]|[Hne Hq']]%lookup_insert_Some.
        -- exists p. split_and!; [done|by destruct p|done].
        -- exists p'. split_and!; [done|by destruct p'|done].
    + exists (-1), w1. split; [done|]. split; [by apply fd_frame_same|]. right.
      split_and!; [done|done|]. exists p. rewrite Hw1, (fd_of_socks _ _ Hs1).
      split_and!; [done..|]. by apply (content_socks w).
  - apply orb_false_iff in Hgrow as [Hn Hload]. apply Z.eqb_neq in Hn. apply Z.leb_gt in Hload.
    destruct Hpb as [?|(Hn4 & ? & Hpb)]; [done|]. fold n in Hn4.
    destruct (insert_slot_run w port p m a s) as (w' & Hrun' & Hf & Hrep); try done;
      [rewrite ?size_max_8; unfold n in *; lia..|].
    exists 0, w'. split; [exact Hrun'|]. split; [done|]. by left.
Qed.

(** ** Remove *)

Lemma fd_find_run (fd : addr -> Z) t a fuel i :
  let h := home fd (len t) a in
  probing fd t -> inb t i -> len t - dist (len t) h i <= Z.of_nat fuel ->
  (forall y, inb t y -> dist (len t) h y < dist (len t) h i -> slot t y <> NULL /\ slot t y <> Some a) ->
  exists r, fd_find fuel t i (Some a) = Some r /\
    match r with
    | Some j => holds t j a
    | None => forall j, ~ holds t j a
    end.
Proof.
  intros h Hpb. revert i. induction fuel as [|fuel IH]; intros i Hi Hf Hfull;
    assert (Hh : inb t h) by (apply home_range; unfold inb in Hi; lia);
    pose proof (dist_range (len t) h i Hh Hi) as Hr; [lia|].
  cbn [fd_find]. destruct (decide (slot t i = Some a)) as [E|Hne].
  { rewrite bool_decide_eq_true_2 by done. by exists (Some i). }
  rewrite bool_decide_eq_false_2 by done. destruct (slot t i) as [b|] eqn:Ei.
  - destruct (pb_hole _ _ Hpb) as (e & He & Hse).
    assert (dist (len t) h i < dist (len t) h e).
    { destruct (Z.lt_trichotomy (dist (len t) h i) (dist (len t) h e)) as [?|[E|Hgt]]; [done| |].
      - apply dist_inj in E; [congruence|done..].
      - by destruct (Hfull e He Hgt). }
    pose proof (dist_range (len t) h e Hh He).
    pose proof (dist_step t h i Hh Hi ltac:(lia)) as Hst.
    apply IH; [by apply next_slot_inb|lia|].
    intros y Hy Hlt. destruct (decide (y = i)) as [->|Hyi]; [by rewrite Ei|]. apply Hfull; [done|].
    assert (dist (len t) h y <> dist (len t) h i) by (intros ?%dist_inj; done). lia.
  - exists None. split; [done|]. intros j Ha. pose proof Ha as [Hj Hsa].
    destruct (Z.lt_trichotomy (dist (len t) h i) (dist (len t) h j)) as [Hlt|[E|Hgt]].
    + by apply (pb_path _ _ Hpb j a Ha i Hi).
    + apply dist_inj in E; [congruence|done..].
    + by destruct (Hfull j Hj Hgt).
Qed.

(** Clearing the slot of an entry and compacting leaves the other entries. *)
Lemma clear_and_compact w t a j :
  probing (fd_of w) t -> fds_ok (fd_of w) w t -> holds t j a ->
  exists t', fd_compact (length (set_slot t j NULL)) (set_slot t j NULL) j w = Some (t', w) /\
    probing (fd_of w) t' /\ len t' = len t /\
    forall b, (exists x, holds t' x b) <-> (exists x, holds t x b) /\ b <> a.
Proof.
  intros Hpb Hfd Ha. destruct (clear_compacting _ t j a Hpb Ha) as [e C].
  pose proof (cp_e _ _ _ _ _ C) as He. pose proof (cp_s0 _ _ _ _ _ C) as Hj0.
  pose proof (dist_range _ _ _ Hj0 He) as Hre.
  assert (Hh : forall x b, holds (set_slot t j NULL) x b <-> x <> j /\ holds t x b).
  { intros x b. destruct Ha as [Hj _]. unfold holds, inb in *. rewrite len_set_slot. split.
    - intros [Hx Hs]. rewrite slot_set_slot in Hs by done. case_decide; naive_solver.
    - intros (Hne & Hx & Hs). by rewrite slot_set_slot, decide_False. }
  destruct (compact_run (fd_of w) j e w (length (set_slot t j NULL)) (set_slot t j NULL) j C)
    as (t' & Hrun & Hpb' & Hl' & Hh').
  { intros x b [_ Hb]%Hh. by eapply Hfd. }
  { unfold ofs. rewrite dist_0. unfold len in *. lia. }
  exists t'. split_and!; [done|done|by rewrite Hl', len_set_slot|]. intros b. rewrite Hh'. split.
  - intros [x [Hne Hb]%Hh]. split; [by eexists|]. intros ->. apply Hne.
    by eapply (pb_uniq _ _ Hpb x j a a).
  - intros [[x Hb] Hne]. exists x. apply Hh. split; [|done]. intros ->. apply Hne. by eapply holds_fun.
Qed.

(** C29: removing a registration always terminates; if the table maps the
    registration's descriptor to it, exactly that entry disappears and every
    other entry stays reachable by probing, otherwise nothing changes. *)
Theorem fd_remove_correct w port m a s :
  fd_rep w port m -> w_socks w !! a = Some s ->
  exists w', ep_fd_table_remove (Some port) (Some a) w = Some (tt, w') /\ fd_frame port w w' /\
    fd_rep w' port (if decide (m !! s_fd s = Some a) then delete (s_fd s) m else m).
Proof.
  intros (p & Hp & Hcnt & Hmax & Hpb & Hc) Ha.
  assert (Hfa : fd_of w a = s_fd s) by (unfold fd_of; by rewrite Ha).
  unfold ep_fd_table_remove. mstep.
  destruct (Z.eqb_spec (len (p_fd_table p)) 0) as [E|Hne].
  { exists w. split; [done|]. split; [by apply fd_frame_same|].
    rewrite decide_False; [by exists p; eauto 10|].
    intros Hm. apply (proj2 Hc) in Hm as [[i [Hi _]] _]. unfold inb in Hi. lia. }
  destruct Hpb as [?|(Hlen & Hload & Hpb)]; [done|]. mstep.
  replace (s_fd s mod len (p_fd_table p)) with (home (fd_of w) (len (p_fd_table p)) a)
    by (unfold home; by rewrite Hfa).
  assert (Hh : inb (p_fd_table p) (home (fd_of w) (len (p_fd_table p)) a)) by (apply home_range; lia).
  destruct (fd_find_run (fd_of w) (p_fd_table p) a (length (p_fd_table p))
    (home (fd_of w) (len (p_fd_table p)) a)) as (r & Hr & Hrj); try done.
  { rewrite dist_0. unfold len. lia. }
  { intros y Hy. rewrite dist_0. pose proof (dist_range _ _ _ Hh Hy). lia. }
  rewrite Hr. destruct r as [j|].
  - assert (Hm : m !! s_fd s = Some a) by (apply (proj2 Hc); eauto).
    rewrite decide_True by done. repeat mstep. sget. rewrite insert_insert_eq.
    match goal with |- context [bind (fd_compact _ _ _) _ ?w2] =>
      destruct (clear_and_compact w2 (p_fd_table p) a j Hpb (content_fds_ok w _ _ Hc) Hrj)
        as (t' & Hrun & Hpb' & Hl' & Hh') end.
    erewrite bind_some by exact Hrun. cbv beta. erewrite wr_some by mlookup. sget.
    rewrite insert_insert_eq. eexists. split; [reflexivity|]. rewrite Hcnt.
    assert (Hsz : size m = S (size (delete (s_fd s) m))).
    { rewrite map_size_delete, Hm. assert (size m <> 0%nat); [|lia].
      rewrite map_size_non_empty_iff. intros ->. by rewrite lookup_empty in Hm. }
    rewrite size_max_8 in *. rewrite u64_small by lia. split.
    + split; [done|]. sget. intros q' p' [[<- <-]|[Hne' Hq']]%lookup_insert_Some.
      * exists p. split_and!; [done|by destruct p|done].
      * exists p'. split_and!; [done|by destruct p'|done].
    + eexists. sget. split; [apply lookup_insert_eq|]. sget. rewrite Hl', size_max_8.
      split; [lia|]. split; [lia|]. split; [right; split_and!; [lia|lia|exact Hpb']|].
      destruct Hc as [Hc1 Hc2]. split.
      * intros i b Hb. destruct (proj1 (Hh' b)) as [[x Hx] _]; [by eexists|]. by eapply Hc1.
      * intros f b. rewrite lookup_delete_Some, Hc2, Hh'. change (fd_of _ b = f) with (fd_of w b = f).
        split; [|intros [[Hb Hne'] Hf]; split; [|done]].
        -- intros [Hne' [Hb Hf]]. split_and!; [done| |done]. intros ->. congruence.
        -- intros <-. apply Hne'. apply Hc2 in Hm as [_ ?]. destruct Hb as [x Hx].
           pose proof (pb_uniq _ _ Hpb x j b a Hx Hrj ltac:(congruence)). subst. by eapply holds_fun.
  - exists w. split; [done|]. split; [by apply fd_frame_same|]. rewrite decide_False; [exists p; eauto 10|].
    intros [[i Hi] _]%(proj2 Hc). by destruct (Hrj i).
Qed.

(** ** A port with two registrations whose descriptors collide *)

Definition fd_sock (fd : Z) : ep_sock := zero_sock <| s_fd := fd |>.
Definition demo_fd_world : world :=
  empty_world <| w_os := fun _ _ => 1 |>
    <| w_ports := {[ 1%positive := zero_port <| p_fd_table := [NULL; Some 10%positive; NULL; NULL] |>
                                  <| p_fd_table_count := 1 |> ]} |>
    <| w_socks := {[ 10%positive := fd_sock 1; 11%positive := fd_sock 5 ]} |>.

Lemma demo_fd_holds i a :
  holds [NULL; Some 10%positive; NULL; NULL] i a <-> i = 1 /\ a = 10%positive.
Proof.
  split.
  - intros H%holds_of_nat. pose proof H as [[? ?] _]. apply holds_nat in H.
    destruct (Z.to_nat i) as [|[|[|[|n]]]] eqn:E; simpl in H; simplify_eq. split; [lia|done].
  - intros [-> ->]. by split.
Qed.

Lemma demo_fd_rep : fd_rep demo_fd_world 1 {[ 1 := 10%positive ]}.
Proof.
  eexists. split; [reflexivity|]. split; [reflexivity|]. split; [done|]. split.
  - right. split_and!; [done|done|]. cbn [p_fd_table set]. split.
    + intros i j a b [-> ->]%demo_fd_holds [-> ->]%demo_fd_holds. done.
    + intros i a [-> ->]%demo_fd_holds y Hy. change (dist _ _ 1) with 0.
      pose proof (dist_range 4 1 y ltac:(lia) Hy). unfold home. change (fd_of _ _ mod _) with 1.
      change (len _) with 4. lia.
    + by exists 0.
  - split.
    + intros i a [-> ->]%demo_fd_holds. by eexists.
    + intros f a. rewrite lookup_singleton_Some. split.
      * intros [<- <-]. split; [|done]. exists 1. by apply demo_fd_holds.
      * intros [[i [-> ->]%demo_fd_holds] <-]. done.
Qed.

Lemma fd_lookup_correct_witness :
  ep_fd_table_lookup (Some 1%positive) 1 demo_fd_world = Some (Some 10%positive, demo_fd_world).
Proof. rewrite (fd_lookup_correct demo_fd_world 1 {[ 1 := 10%positive ]} 1 demo_fd_rep). reflexivity. Defined.

Lemma fd_insert_correct_witness :
  exists r w', ep_fd_table_insert (Some 1%positive) (Some 11%positive) demo_fd_world = Some (r, w') /\
    (r = 0 \/ r = -1).
Proof.
  destruct (fd_insert_correct demo_fd_world 1 {[ 1 := 10%positive ]} 11 (fd_sock 5))
    as (r & w' & Hrun & _ & [[Hr _]|[Hr _]]); [exact demo_fd_rep|reflexivity|reflexivity| |];
    exists r, w'; (split; [exact Hrun|]); auto.
Defined.

Lemma fd_remove_correct_witness :
  exists w', ep_fd_table_remove (Some 1%positive) (Some 10%positive) demo_fd_world = Some (tt, w') /\
    fd_rep w' 1 (delete 1 {[ 1 := 10%positive ]}).
Proof.
  destruct (fd_remove_correct demo_fd_world 1 {[ 1 := 10%positive ]} 10 (fd_sock 1))
    as (w' & Hrun & _ & Hrep); [exact demo_fd_rep|reflexivity|].
  exists w'. split; [exact Hrun|exact Hrep].
Defined.

(** After the first of two colliding entries is removed, the second is found at
    its home slot. *)
Example collision_survives_remove :
  result (ep_fd_table_insert (Some 1%positive) (Some 11%positive) ;;
          ep_fd_table_remove (Some 1%positive) (Some 10%positive) ;;
          ep_fd_table_lookup (Some 1%positive) 5) demo_fd_world = Some (Some 11%positive) /\
  result (ep_fd_table_insert (Some 1%positive) (Some 11%positive) ;;
          ep_fd_table_remove (Some 1%positive) (Some 10%positive) ;;
          rd w_ports (Some 1%positive) p_fd_table) demo_fd_world =
    Some [NULL; Some 11%positive; NULL; NULL].
Proof. vm_compute. by split. Qed.
