(* ===== verification/Worklists.v ===== *)
(** * Live list and work lists of a port

    The intrusive lists of [src/wepoll_ex_port.c]: all live registrations of a
    port, those waiting to be re-armed, and the fired one-shot ones.  The two
    work lists run the same code on different fields, so they are two
    instances of one section.  [work_inv] says that flags, membership and
    counters agree; every operation keeps it, and the code's own consistency
    checker accepts every state that satisfies it. *)
From S2P Require Import Prelude Codes Types Errno Links.

(** ** Doubly linked lists with a head and a tail in the port *)

(** The fields one work list uses; [er] and [erp] forget them. *)
Class WorkFields (nx pv : ep_sock -> ptr) (hd tl : ep_port -> ptr)
    `{!Setter nx, !Setter pv, !Setter hd, !Setter tl}
    (er : ep_sock -> ep_sock) (erp : ep_port -> ep_port) := {
  wf_dll :: DLL nx pv;
  er_nx s v : er (s <| nx := v |>) = er s;
  er_pv s v : er (s <| pv := v |>) = er s;
  erp_hd p v : erp (p <| hd := v |>) = erp p;
  erp_tl p v : erp (p <| tl := v |>) = erp p;
  hd_hd p v : hd (p <| hd := v |>) = v;
  hd_tl p v : hd (p <| tl := v |>) = hd p;
  tl_tl p v : tl (p <| tl := v |>) = v;
  tl_hd p v : tl (p <| hd := v |>) = tl p
}.

Section WorkList.
Context (nx pv : ep_sock -> ptr) (hd tl : ep_port -> ptr).
Context `{!Setter nx, !Setter pv, !Setter hd, !Setter tl}.

Definition list_append_locked (port sock : ptr) : MW unit :=
  next <- rd w_socks sock nx ;;
  assertM (bool_decide (next = NULL)) ;;
  prev <- rd w_socks sock pv ;;
  assertM (bool_decide (prev = NULL)) ;;
  tail <- rd w_ports port tl ;;
  wr w_socks sock pv tail ;;
  match tail with
  | Some _ => wr w_socks tail nx sock
  | None => wr w_ports port hd sock
  end ;;
  wr w_ports port tl sock.

Definition list_remove_locked (port sock : ptr) : MW unit :=
  prev <- rd w_socks sock pv ;;
  next <- rd w_socks sock nx ;;
  match prev with
  | Some _ => wr w_socks prev nx next
  | None =>
    head <- rd w_ports port hd ;;
    assertM (bool_decide (head = sock)) ;;
    wr w_ports port hd next
  end ;;
  match next with
  | Some _ => wr w_socks next pv prev
  | None =>
    tail <- rd w_ports port tl ;;
    assertM (bool_decide (tail = sock)) ;;
    wr w_ports port tl prev
  end ;;
  wr w_socks sock nx NULL ;;
  wr w_socks sock pv NULL.

Definition list_rotate_locked (port sock : ptr) : MW unit :=
  head <- rd w_ports port hd ;;
  assertM (bool_decide (head = sock)) ;;
  tail <- rd w_ports port tl ;;
  if bool_decide (tail = sock) then ret tt
  else
    next <- rd w_socks sock nx ;;
    wr w_ports port hd next ;;
    wr w_socks next pv NULL ;;
    wr w_socks sock nx NULL ;;
    tail <- rd w_ports port tl ;;
    wr w_socks sock pv tail ;;
    wr w_socks tail nx sock ;;
    wr w_ports port tl sock.

(** The list [l] between head and tail; the registrations outside [l] have null
    links. *)
Definition wlist (w : world) (port : addr) (p : ep_port) (l : list addr) : Prop :=
  w_ports w !! port = Some p /\ hd p = head l /\ tl p = last l /\ dlist nx pv (w_socks w) l.

(** Nothing but the list's own fields changes. *)
Definition wframe (er : ep_sock -> ep_sock) (erp : ep_port -> ep_port) (w w' : world) : Prop :=
  w' = w <| w_socks := w_socks w' |> <| w_ports := w_ports w' |> /\
  er <$> w_socks w' = er <$> w_socks w /\ erp <$> w_ports w' = erp <$> w_ports w.

Context {er : ep_sock -> ep_sock} {erp : ep_port -> ep_port} `{WF : !WorkFields nx pv hd tl er erp}.

Lemma append_spec w port p l a s :
  wlist w port p l -> w_socks w !! a = Some s -> nx s = NULL -> pv s = NULL -> a ∉ l ->
  exists w' p', list_append_locked (Some port) (Some a) w = Some (tt, w') /\
    wlist w' port p' (l ++ [a]) /\ wframe er erp w w' /\ erp p' = erp p /\
    forall x, x ∉ l ++ [a] -> w_socks w' !! x = w_socks w !! x.
Proof.
  intros (Hp & Hhd & Htl & Hl) Ha Hn Hpv Hal.
  unfold list_append_locked. repeat mstep. rewrite Hn, bool_decide_eq_true_2 by done.
  repeat mstep. rewrite Hpv, bool_decide_eq_true_2 by done. repeat mstep. rewrite Htl.
  assert (Happ := dlist_append (w_socks w) l a (s <| pv := last l |>) Hl Hal).
  rewrite dll_nx_pv, dll_pv_pv in Happ. specialize (Happ Hn eq_refl). unfold append_heap in Happ.
  destruct (last l) as [z|] eqn:Ez.
  - destruct (dlist_in_heap _ _ z Hl) as [sz Hz]; [by apply last_Some_elem_of|].
    assert (Hne : z <> a) by (intros ->; by apply Hal, last_Some_elem_of).
    rewrite (upd_insert _ _ sz) in Happ by (by rewrite lookup_insert_ne).
    repeat mstep. erewrite wr_some by mlookup. sget.
    eexists _, _. split; [reflexivity|]. split_and!.
    + split_and!; sget; [apply lookup_insert_eq| | |done].
      * rewrite hd_tl, Hhd. by destruct l.
      * by rewrite tl_tl, last_snoc.
    + split_and!; sget; [by destruct w| |].
      * rewrite (fmap_insert_same er _ _ sz); [|by rewrite lookup_insert_ne|apply er_nx].
        apply (fmap_insert_same er _ _ s); [done|apply er_pv].
      * apply (fmap_insert_same erp _ _ p); [done|apply erp_tl].
    + apply erp_tl.
    + intros x Hx. sget. apply last_Some_elem_of in Ez. rewrite !lookup_insert_ne; set_solver.
  - apply last_None in Ez as ->. simpl in Happ. repeat mstep. erewrite wr_some by mlookup. sget.
    rewrite insert_insert_eq. eexists _, _. split; [reflexivity|]. split_and!.
    + split_and!; sget; [apply lookup_insert_eq|by rewrite hd_tl, hd_hd|by rewrite tl_tl|done].
    + split_and!; sget; [by destruct w| |].
      * apply (fmap_insert_same er _ _ s); [done|apply er_pv].
      * apply (fmap_insert_same erp _ _ p); [done|]. by rewrite erp_tl, erp_hd.
    + by rewrite erp_tl, erp_hd.
    + intros x Hx. sget. rewrite lookup_insert_ne; set_solver.
Qed.

(** The bypass writes of a removal, for every combination of neighbours. *)
Lemma bypass_run w port p l1 a l2 :
  wlist w port p (l1 ++ a :: l2) ->
  exists p',
    (match last l1 with
     | Some _ => wr w_socks (last l1) nx (head l2)
     | None => head0 <- rd w_ports (Some port) hd ;; assertM (bool_decide (head0 = Some a)) ;;
               wr w_ports (Some port) hd (head l2)
     end ;;
     match head l2 with
     | Some _ => wr w_socks (head l2) pv (last l1)
     | None => tail <- rd w_ports (Some port) tl ;; assertM (bool_decide (tail = Some a)) ;;
               wr w_ports (Some port) tl (last l1)
     end) w =
    Some (tt, w <| w_socks := unlink_heap nx pv (w_socks w) l1 l2 |>
                <| w_ports := <[port := p']> (w_ports w) |>) /\
    hd p' = head (l1 ++ l2) /\ tl p' = last (l1 ++ l2) /\ erp p' = erp p.
Proof.
  intros (Hp & Hhd & Htl & Hl).
  assert (Hz : forall z, last l1 = Some z -> is_Some (w_socks w !! z)).
  { intros z Ez%last_Some_elem_of. eapply dlist_in_heap; [exact Hl|]. set_solver. }
  assert (Hy : forall y, head l2 = Some y -> is_Some (w_socks w !! y)).
  { intros y Ey%head_Some_elem_of. eapply dlist_in_heap; [exact Hl|]. set_solver. }
  assert (Htl' : tl p = match head l2 with Some _ => last l2 | None => Some a end).
  { rewrite Htl, last_app_cons. destruct l2; [done|]. by rewrite last_cons_cons. }
  assert (Hhd' : hd p = match last l1 with Some _ => head l1 | None => Some a end).
  { rewrite Hhd. destruct (last l1) eqn:E; [|by apply last_None in E as ->]. by destruct l1. }
  unfold unlink_heap.
  destruct (last l1) as [z|] eqn:Ez, (head l2) as [y|] eqn:Ey.
  - erewrite bind_some by (apply wr_upd; eauto). cbv beta.
    erewrite wr_upd by (sget; apply upd_is_Some; eauto). sget. exists p. split_and!; [|..|done].
    + rewrite insert_id by done. by destruct w.
    + rewrite Hhd'. by destruct l1.
    + rewrite Htl', last_app. destruct (last l2) eqn:E; [done|]. by apply last_None in E as ->.
  - destruct l2; [|done]. erewrite bind_some by (apply wr_upd; eauto). cbv beta. repeat mstep.
    rewrite Htl', bool_decide_eq_true_2 by done. mstep. erewrite wr_some by mlookup. sget.
    eexists. split_and!; [by destruct w|..|apply erp_tl].
    + rewrite hd_tl, Hhd'. by destruct l1.
    + by rewrite tl_tl, app_nil_r.
  - apply last_None in Ez as ->. repeat mstep. rewrite Hhd', bool_decide_eq_true_2 by done. repeat mstep.
    erewrite wr_upd by (sget; eauto). sget. eexists. split_and!; [by destruct w|..|apply erp_hd].
    + by rewrite hd_hd.
    + by rewrite tl_hd, Htl'.
  - apply last_None in Ez as ->. destruct l2; [|done]. repeat mstep.
    rewrite Hhd', bool_decide_eq_true_2 by done. repeat mstep. rewrite tl_hd, Htl', bool_decide_eq_true_2 by done.
    mstep. erewrite wr_some by mlookup. sget. rewrite insert_insert_eq.
    eexists. split_and!; [by destruct w|by rewrite hd_tl, hd_hd|by rewrite tl_tl|by rewrite erp_tl, erp_hd].
Qed.

Lemma remove_spec w port p l1 a l2 s :
  wlist w port p (l1 ++ a :: l2) -> w_socks w !! a = Some s ->
  exists w' p' s', list_remove_locked (Some port) (Some a) w = Some (tt, w') /\
    wlist w' port p' (l1 ++ l2) /\ wframe er erp w w' /\ erp p' = erp p /\
    w_socks w' !! a = Some s' /\ nx s' = NULL /\ pv s' = NULL /\
    forall x, x ∉ l1 ++ a :: l2 -> w_socks w' !! x = w_socks w !! x.
Proof.
  intros Hw Ha. pose proof Hw as (Hp & _ & _ & Hl).
  destruct (dlist_split _ _ _ _ _ Hl Ha) as (Hn & Hpv & Ha1 & Ha2).
  destruct (bypass_run w port p l1 a l2 Hw) as (p' & Hrun & Hhd' & Htl' & Hep).
  unfold list_remove_locked. repeat mstep. rewrite Hn, Hpv.
  rewrite <- bind_assoc. erewrite bind_some by exact Hrun. cbv beta.
  assert (Hau : unlink_heap nx pv (w_socks w) l1 l2 !! a = Some s).
  { unfold unlink_heap. rewrite !upd_lookup, !decide_False; [done|..].
    - by intros ?%last_Some_elem_of.
    - by intros ?%head_Some_elem_of. }
  repeat mstep. erewrite wr_some by mlookup. sget. rewrite insert_insert_eq.
  eexists _, p', _. split; [reflexivity|]. unfold wlist, wframe. split_and!; sget; try done.
  - apply lookup_insert_eq.
  - apply dlist_insert_ne; [set_solver|]. by eapply dlist_unlink.
  - rewrite (fmap_insert_same er _ _ s); [|done|by rewrite er_pv, er_nx].
    unfold unlink_heap. rewrite !fmap_upd_same; [done|intros; apply er_nx|intros; apply er_pv].
  - by apply (fmap_insert_same erp _ _ p).
  - apply lookup_insert_eq.
  - by rewrite dll_nx_pv, dll_nx_nx.
  - by rewrite dll_pv_pv.
  - intros x Hx. rewrite lookup_insert_ne by set_solver. unfold unlink_heap.
    rewrite !upd_lookup, !decide_False; [done|..]; intros E; apply Hx;
      [apply last_Some_elem_of in E|apply head_Some_elem_of in E]; set_solver.
Qed.

(** The writes of a rotation move the head behind the last node. *)
Lemma rotated_dlist (h : gmap addr ep_sock) a l y z :
  dlist nx pv h (a :: l) -> head l = Some y -> last l = Some z ->
  dlist nx pv
    (upd (upd (upd (upd h (Some y) (set pv (fun _ => NULL))) (Some a) (set nx (fun _ => NULL)))
       (Some a) (set pv (fun _ => Some z))) (Some z) (set nx (fun _ => Some a))) (l ++ [a]).
Proof.
  intros Hl Ey Ez. destruct (dlist_in_heap _ _ a Hl) as [s Ha]; [by left|].
  assert (Hal : a ∉ l) by (apply dlist_nodup, NoDup_cons in Hl; tauto).
  assert (Hza : z <> a) by (intros ->; by apply Hal, last_Some_elem_of).
  assert (Hya : y <> a) by (intros ->; by apply Hal, head_Some_elem_of).
  eapply linked_rotate; [by intros ->|exact Hl|..].
  - rewrite link_upd_nx_nx, decide_False by congruence.
    rewrite link_upd_nx_pv, link_upd_nx_nx, decide_True by done.
    by rewrite upd_lookup, decide_False, Ha by congruence.
  - rewrite link_upd_pv_nx, link_upd_pv_pv, decide_True by done.
    rewrite !upd_lookup, decide_True, decide_False, Ha by congruence. by rewrite Ez.
  - intros x Hx. assert (Hxa : x <> a) by (by intros ->).
    destruct (dlist_in_heap _ _ x Hl) as [sx Hsx]; [by right|].
    rewrite link_upd_nx_nx, link_upd_nx_pv, link_upd_nx_nx, link_upd_nx_pv.
    rewrite link_upd_pv_nx, link_upd_pv_pv, link_upd_pv_nx, link_upd_pv_pv.
    rewrite !upd_lookup, Hsx, Ey, Ez. split; repeat case_decide; simpl; congruence.
Qed.

Lemma rotate_spec w port p a l :
  wlist w port p (a :: l) ->
  exists w' p', list_rotate_locked (Some port) (Some a) w = Some (tt, w') /\
    wlist w' port p' (l ++ [a]) /\ wframe er erp w w' /\ erp p' = erp p /\
    forall x, x ∉ a :: l -> w_socks w' !! x = w_socks w !! x.
Proof.
  intros Hw. pose proof Hw as (Hp & Hhd & Htl & Hl). simpl in Hhd.
  destruct (dlist_in_heap _ _ a Hl) as [s Ha]; [by left|].
  destruct (dlist_split _ [] _ _ _ Hl Ha) as (Hn & Hpv & _ & Hal).
  unfold list_rotate_locked. repeat mstep. rewrite Hhd, bool_decide_eq_true_2 by done. repeat mstep.
  destruct (decide (l = [])) as [->|Hne].
  { rewrite Htl. simpl. rewrite bool_decide_eq_true_2 by done. exists w, p. split_and!; [done|done| |done|done].
    split; [by destruct w|done]. }
  assert (exists y, head l = Some y) as [y Ey] by (destruct l; [done|by eexists]).
  assert (exists z, last l = Some z) as [z Ez] by (destruct (last l) eqn:E; [by eexists|by apply last_None in E]).
  assert (Hlz : last (a :: l) = Some z) by (destruct l; done).
  assert (Hzl : z ∈ l) by (by apply last_Some_elem_of). assert (Hyl : y ∈ l) by (by apply head_Some_elem_of).
  assert (Hza : z <> a) by (by intros ->). assert (Hya : y <> a) by (by intros ->).
  rewrite Htl, Hlz, bool_decide_eq_false_2 by congruence.
  destruct (dlist_in_heap _ _ y Hl) as [sy Hy]; [by right|].
  destruct (dlist_in_heap _ _ z Hl) as [sz Hz]; [by right|].
  repeat mstep. rewrite Hn, Ey.
  erewrite bind_some by (apply wr_upd; sget; by eexists). cbv beta. sget.
  erewrite bind_some by (apply wr_upd; sget; apply upd_is_Some; by eexists). cbv beta. sget.
  repeat mstep. rewrite tl_hd, Htl, Hlz.
  erewrite bind_some by (apply wr_upd; sget; do 2 apply upd_is_Some; by eexists). cbv beta. sget.
  erewrite bind_some by (apply wr_upd; sget; do 3 apply upd_is_Some; by eexists). cbv beta. sget.
  erewrite (wr_some w_ports port) by mlookup. sget. rewrite insert_insert_eq.
  eexists _, (p <| hd := Some y |> <| tl := Some a |>).
  split; [reflexivity|]. unfold wlist, wframe. split_and!; sget; try done.
  - apply lookup_insert_eq.
  - rewrite hd_tl, hd_hd. destruct l; [done|]. done.
  - by rewrite tl_tl, last_snoc.
  - by apply rotated_dlist.
  - rewrite !fmap_upd_same; [done|..]; intros; first [apply er_nx|apply er_pv].
  - apply (fmap_insert_same erp _ _ p); [done|]. by rewrite erp_tl, erp_hd.
  - by rewrite erp_tl, erp_hd.
  - intros x Hx. rewrite !upd_lookup, !decide_False; set_solver.
Qed.
End WorkList.

(** ** A flag, its list and its counter *)

(** [flag] records membership in the list and [cnt] its length; [erf] and
    [erpf] forget the list fields, the flag and the counter. *)
Class FlagFields (nx pv : ep_sock -> ptr) (hd tl : ep_port -> ptr) (flag : ep_sock -> bool)
    (cnt : ep_port -> Z) `{!Setter nx, !Setter pv, !Setter hd, !Setter tl, !Setter flag, !Setter cnt}
    (er erf : ep_sock -> ep_sock) (erp erpf : ep_port -> ep_port) := {
  ff_work :: WorkFields nx pv hd tl er erp;
  flag_er s : flag (er s) = flag s;
  cnt_erp p : cnt (erp p) = cnt p;
  flag_flag s b : flag (s <| flag := b |>) = b;
  nx_flag s b : nx (s <| flag := b |>) = nx s;
  pv_flag s b : pv (s <| flag := b |>) = pv s;
  cnt_cnt p n : cnt (p <| cnt := n |>) = n;
  hd_cnt p n : hd (p <| cnt := n |>) = hd p;
  tl_cnt p n : tl (p <| cnt := n |>) = tl p;
  erf_er s : erf (er s) = erf s;
  erf_flag s b : erf (s <| flag := b |>) = erf s;
  erpf_erp p : erpf (erp p) = erpf p;
  erpf_cnt p n : erpf (p <| cnt := n |>) = erpf p;
  port_er s : s_port (er s) = s_port s;
  port_flag s b : s_port (s <| flag := b |>) = s_port s
}.

Section FlagList.
Context (nx pv : ep_sock -> ptr) (hd tl : ep_port -> ptr) (flag : ep_sock -> bool) (cnt : ep_port -> Z).
Context `{!Setter nx, !Setter pv, !Setter hd, !Setter tl, !Setter flag, !Setter cnt}.

Definition set_flag_locked (sock : ptr) (requested : bool) : MW unit :=
  port <- rd w_socks sock s_port ;;
  current <- rd w_socks sock flag ;;
  if Bool.eqb current requested then ret tt
  else if requested then
    wr w_socks sock flag true ;;
    list_append_locked nx pv hd tl port sock ;;
    count <- rd w_ports port cnt ;;
    wr w_ports port cnt (u64 (count + 1))
  else
    count <- rd w_ports port cnt ;;
    assertM (0 <? count) ;;
    list_remove_locked nx pv hd tl port sock ;;
    wr w_socks sock flag false ;;
    count <- rd w_ports port cnt ;;
    wr w_ports port cnt (u64 (count - 1)).

(** The registrations of [port] with the flag are exactly the members of [l],
    each once, and the counter is their number. *)
Record flist (w : world) (port : addr) (l : list addr) : Prop := {
  fl_list : exists p, wlist nx pv hd tl w port p l /\ cnt p = Z.of_nat (length l);
  fl_in a : a ∈ l -> exists s, w_socks w !! a = Some s /\ s_port s = Some port;
  fl_flag a s : w_socks w !! a = Some s -> s_port s = Some port -> flag s = bool_decide (a ∈ l);
  fl_out a s : w_socks w !! a = Some s -> s_port s = Some port -> a ∉ l -> nx s = NULL /\ pv s = NULL
}.

(** Fewer registrations than [size_t] can count. *)
Definition socks_bounded (w : world) : Prop := Z.of_nat (size (w_socks w)) < 2 ^ 64.

Definition set_member (v : bool) (a : addr) (l : list addr) : list addr :=
  if v then if decide (a ∈ l) then l else l ++ [a] else filter (fun x => x <> a) l.

Context {er erf : ep_sock -> ep_sock} {erp erpf : ep_port -> ep_port}
        `{FF : !FlagFields nx pv hd tl flag cnt er erf erp erpf}.

Definition fframe (w w' : world) : Prop := wframe erf erpf w w'.

(** The erasures, with their instance fixed (resolving it anew is slow). *)
Lemma forget_er s : erf (er s) = erf s.
Proof. apply (erf_er (FlagFields := FF)). Qed.
Lemma forget_erp p : erpf (erp p) = erpf p.
Proof. apply (erpf_erp (FlagFields := FF)). Qed.

Lemma wframe_fframe w w' : wframe er erp w w' -> fframe w w'.
Proof.
  intros (E & Hs & Hp). split; [done|]. split; apply map_eq; intros x.
  - apply (f_equal (fmap erf)) in Hs. apply (f_equal (.!! x)) in Hs.
    rewrite !lookup_fmap in *. destruct (w_socks w' !! x), (w_socks w !! x); simpl in *; try done.
    by rewrite !forget_er in Hs.
  - apply (f_equal (fmap erpf)) in Hp. apply (f_equal (.!! x)) in Hp.
    rewrite !lookup_fmap in *. destruct (w_ports w' !! x), (w_ports w !! x); simpl in *; try done.
    by rewrite !forget_erp in Hp.
Qed.

Lemma wframe_refl e f w : wframe e f w w.
Proof. split; [by destruct w|done]. Qed.

Lemma wframe_trans e f w1 w2 w3 : wframe e f w1 w2 -> wframe e f w2 w3 -> wframe e f w1 w3.
Proof.
  intros (E1 & H1 & P1) (E2 & H2 & P2). split_and!; [|congruence|congruence].
  rewrite E2, E1. by destruct w1.
Qed.

(** A list frame keeps every field it does not forget. *)
Lemma wframe_sock {T} (f : ep_sock -> T) w w' a s :
  (forall s, f (er s) = f s) -> wframe er erp w w' -> w_socks w !! a = Some s ->
  exists s', w_socks w' !! a = Some s' /\ f s' = f s.
Proof.
  intros Hf (_ & Hs & _) Ha. destruct (fmap_same_lookup er _ _ _ _ Hs Ha) as (s' & Hs' & E).
  exists s'. split; [done|]. rewrite <- (Hf s'), E. apply Hf.
Qed.

Lemma wframe_sock_inv {T} (f : ep_sock -> T) w w' a s' :
  (forall s, f (er s) = f s) -> wframe er erp w w' -> w_socks w' !! a = Some s' ->
  exists s, w_socks w !! a = Some s /\ f s' = f s.
Proof.
  intros Hf (_ & Hs & _) Ha. destruct (fmap_same_lookup er _ _ _ _ (eq_sym Hs) Ha) as (s & Hs' & E).
  exists s. split; [done|]. rewrite <- (Hf s), E. by rewrite Hf.
Qed.

Lemma flist_length_bound w port l : flist w port l -> socks_bounded w -> Z.of_nat (length l) < 2 ^ 64.
Proof.
  intros [(p & (_ & _ & _ & Hl) & _) _ _ _] Hb. apply dlist_length in Hl. unfold socks_bounded in Hb. lia.
Qed.

Lemma fframe_flag w a s b :
  w_socks w !! a = Some s -> fframe w (w <| w_socks := <[a := s <| flag := b |>]> (w_socks w) |>).
Proof.
  intros Ha. split_and!; sget; [by destruct w| |done].
  apply (fmap_insert_same erf _ _ s); [done|apply erf_flag].
Qed.

Lemma fframe_cnt w q p n :
  w_ports w !! q = Some p -> fframe w (w <| w_ports := <[q := p <| cnt := n |>]> (w_ports w) |>).
Proof.
  intros Hp. split_and!; sget; [by destruct w|done|].
  apply (fmap_insert_same erpf _ _ p); [done|apply erpf_cnt].
Qed.

Lemma set_flag_on w port l a s :
  flist w port l -> socks_bounded w -> w_socks w !! a = Some s -> s_port s = Some port -> a ∉ l ->
  exists w', (wr w_socks (Some a) flag true ;; list_append_locked nx pv hd tl (Some port) (Some a) ;;
      count <- rd w_ports (Some port) cnt ;; wr w_ports (Some port) cnt (u64 (count + 1))) w = Some (tt, w') /\
    flist w' port (l ++ [a]) /\ fframe w w'.
Proof.
  intros [(p & (Hp & Hhd & Htl & Hl) & Hcnt) Hin Hflag Hout] Hb Ha Hport Hal.
  destruct (Hout a s Ha Hport Hal) as [Hn Hpv].
  mstep. set (w1 := w <| w_socks := _ |>).
  assert (Ha1 : w_socks w1 !! a = Some (s <| flag := true |>)) by (unfold w1; sget; apply lookup_insert_eq).
  destruct (append_spec nx pv hd tl w1 port p l a (s <| flag := true |>))
    as (w2 & p2 & Hrun & Hw2 & Hf2 & Hp2 & Hsame); try done.
  { split_and!; try done. unfold w1; sget. eapply dlist_insert_same; [done|apply nx_flag|apply pv_flag|done]. }
  { by rewrite nx_flag. } { by rewrite pv_flag. }
  erewrite bind_some by exact Hrun. cbv beta. pose proof Hw2 as (Hpp & Hhd2 & Htl2 & Hl2).
  repeat mstep. erewrite wr_some by mlookup. sget.
  assert (Hc2 : cnt p2 = Z.of_nat (length l)) by (rewrite <- cnt_erp, Hp2, cnt_erp; done).
  pose proof (dlist_length _ _ Hl2) as Hlen. rewrite length_app in Hlen. simpl in Hlen.
  assert (Hsz : size (w_socks w2) = size (w_socks w)).
  { destruct Hf2 as (_ & Hs2 & _). apply (f_equal size) in Hs2. rewrite !map_size_fmap in Hs2.
    rewrite Hs2. unfold w1. sget. by rewrite map_size_insert, Ha. }
  rewrite Hc2, u64_small by (unfold socks_bounded in Hb; lia).
  eexists. split; [reflexivity|]. split; [split; sget|].
  - eexists. split; [split_and!; sget; [apply lookup_insert_eq|by rewrite hd_cnt|by rewrite tl_cnt|done]|].
    rewrite cnt_cnt, length_app. simpl. lia.
  - intros x Hx. assert (exists s1, w_socks w1 !! x = Some s1 /\ s_port s1 = Some port) as (s1 & Hs1 & Hp1).
    { unfold w1. sget. destruct (decide (x = a)) as [->|Hne].
      - rewrite lookup_insert_eq. eexists. split; [done|]. by rewrite port_flag.
      - rewrite lookup_insert_ne by done. apply Hin. set_solver. }
    destruct (wframe_sock s_port w1 w2 x s1 port_er Hf2 Hs1) as (s2 & Hs2 & E). exists s2. by rewrite E.
  - intros x s2 Hx2 Hpx.
    destruct (wframe_sock_inv (fun s => (flag s, s_port s)) w1 w2 x s2) as (s1 & Hs1 & [= E1 E2]);
      [intros s'; by rewrite flag_er, port_er|done|done|]. rewrite E1. rewrite E2 in Hpx.
    unfold w1 in Hs1. sget_in Hs1. apply lookup_insert_Some in Hs1 as [[<- <-]|[Hne Hs1]].
    + rewrite flag_flag, bool_decide_eq_true_2; [done|]. set_solver.
    + rewrite (Hflag x s1 Hs1 Hpx). apply bool_decide_ext. set_solver.
  - intros x s2 Hx2 Hpx Hnx. rewrite Hsame in Hx2 by done. unfold w1 in Hx2. sget_in Hx2.
    rewrite lookup_insert_ne in Hx2 by set_solver. apply (Hout x); [done|done|set_solver].
  - apply (wframe_trans _ _ _ w1); [by apply fframe_flag|].
    apply (wframe_trans _ _ _ w2); [by apply wframe_fframe|]. by apply fframe_cnt.
Qed.

Lemma set_flag_off w port l a s :
  flist w port l -> socks_bounded w -> w_socks w !! a = Some s -> s_port s = Some port -> a ∈ l ->
  exists w', (count <- rd w_ports (Some port) cnt ;; assertM (0 <? count) ;;
      list_remove_locked nx pv hd tl (Some port) (Some a) ;; wr w_socks (Some a) flag false ;;
      count <- rd w_ports (Some port) cnt ;; wr w_ports (Some port) cnt (u64 (count - 1))) w = Some (tt, w') /\
    flist w' port (filter (fun x => x <> a) l) /\ fframe w w'.
Proof.
  intros [(p & Hw & Hcnt) Hin Hflag Hout] Hb Ha Hport Hal. pose proof Hw as (Hp & Hhd & Htl & Hl).
  apply list_elem_of_split in Hal as (l1 & l2 & ->).
  destruct (dlist_split _ _ _ _ _ Hl Ha) as (_ & _ & Ha1 & Ha2).
  assert (Hfil : filter (fun x => x <> a) (l1 ++ a :: l2) = l1 ++ l2).
  { by apply filter_ne_split. }
  rewrite Hfil. rewrite length_app in Hcnt. simpl in Hcnt.
  repeat mstep. rewrite (proj2 (Z.ltb_lt _ _)) by lia. mstep.
  destruct (remove_spec nx pv hd tl w port p l1 a l2 s Hw Ha)
    as (w2 & p2 & s2 & Hrun & Hw2 & Hf2 & Hp2 & Hs2 & Hn2 & Hpv2 & Hsame).
  erewrite bind_some by exact Hrun. cbv beta. pose proof Hw2 as (Hpp & Hhd2 & Htl2 & Hl2).
  repeat mstep. erewrite wr_some by mlookup. sget.
  assert (Hc2 : cnt p2 = Z.of_nat (S (length (l1 ++ l2)))).
  { rewrite <- cnt_erp, Hp2, cnt_erp, Hcnt, length_app. lia. }
  pose proof (dlist_length _ _ Hl) as Hlen. rewrite length_app in Hlen. simpl in Hlen.
  rewrite length_app in Hc2. rewrite Hc2, u64_small by (unfold socks_bounded in Hb; lia).
  assert (Hinv : forall x s', <[a := s2 <| flag := false |>]> (w_socks w2) !! x = Some s' ->
     x <> a -> exists s0, w_socks w !! x = Some s0 /\ flag s' = flag s0 /\ s_port s' = s_port s0).
  { intros x s' [[? _]|[_ Hx]]%lookup_insert_Some Hne; [done|].
    destruct (wframe_sock_inv (fun s => (flag s, s_port s)) w w2 x s') as (s0 & Hs0 & [= E1 E2]);
      [intros s3; by rewrite flag_er, port_er|done|done|]. eauto. }
  assert (Hpa : s_port s2 = Some port).
  { destruct (wframe_sock_inv s_port w w2 a s2 port_er Hf2 Hs2) as (s0 & Hs0 & E). congruence. }
  eexists. split; [reflexivity|]. split; [split; sget|].
  - eexists. split; [split_and!; sget; [apply lookup_insert_eq|by rewrite hd_cnt|by rewrite tl_cnt|]|].
    + eapply dlist_insert_same; [done|apply nx_flag|apply pv_flag|done].
    + rewrite cnt_cnt, length_app. lia.
  - intros x Hx. assert (x <> a) by set_solver. rewrite lookup_insert_ne by done.
    destruct (Hin x) as (s0 & Hs0 & Hp0); [set_solver|].
    destruct (wframe_sock s_port w w2 x s0 port_er Hf2 Hs0) as (s3 & Hs3 & E). exists s3. by rewrite E.
  - intros x s' Hx Hpx. destruct (decide (x = a)) as [->|Hne].
    + rewrite lookup_insert_eq in Hx. injection Hx as <-.
      rewrite flag_flag, bool_decide_eq_false_2; [done|]. set_solver.
    + destruct (Hinv x s' Hx Hne) as (s0 & Hs0 & -> & E). rewrite E in Hpx.
      rewrite (Hflag x s0 Hs0 Hpx). apply bool_decide_ext. set_solver.
  - intros x s' Hx Hpx Hnx. destruct (decide (x = a)) as [->|Hne].
    + rewrite lookup_insert_eq in Hx. injection Hx as <-. by rewrite nx_flag, pv_flag.
    + rewrite lookup_insert_ne, Hsame in Hx by set_solver. apply (Hout x); [done|done|set_solver].
  - apply (wframe_trans _ _ _ w2); [by apply wframe_fframe|].
    set (w3 := w2 <| w_socks := <[a := s2 <| flag := false |>]> (w_socks w2) |>).
    apply (wframe_trans _ _ _ w3); [by apply (fframe_flag w2 a s2 false)|].
    by apply (fframe_cnt w3 port p2).
Qed.

Lemma set_flag_spec w port l a s v :
  flist w port l -> socks_bounded w -> w_socks w !! a = Some s -> s_port s = Some port ->
  exists w', set_flag_locked (Some a) v w = Some (tt, w') /\
    flist w' port (set_member v a l) /\ fframe w w'.
Proof.
  intros Hfl Hb Ha Hport. pose proof (fl_flag _ _ _ Hfl a s Ha Hport) as Hflag.
  unfold set_flag_locked. repeat mstep. rewrite Hport, Hflag. unfold set_member.
  destruct (decide (a ∈ l)) as [Hin|Hout];
    [rewrite bool_decide_eq_true_2 by done|rewrite bool_decide_eq_false_2 by done];
    destruct v; cbn [Bool.eqb]; cbv iota.
  - exists w. split_and!; [done|done|apply wframe_refl].
  - by eapply set_flag_off.
  - by eapply set_flag_on.
  - exists w. split_and!; [done| |apply wframe_refl].
    by rewrite filter_ne_notin.
Qed.
End FlagList.

(** ** The lists of a port *)

Definition ep_rearm_list_append_locked :=
  list_append_locked s_rearm_next s_rearm_prev p_rearm_head p_rearm_tail.
Definition ep_rearm_list_remove_locked :=
  list_remove_locked s_rearm_next s_rearm_prev p_rearm_head p_rearm_tail.
Definition ep_rearm_list_rotate_locked :=
  list_rotate_locked s_rearm_next s_rearm_prev p_rearm_head p_rearm_tail.
Definition ep_oneshot_list_append_locked :=
  list_append_locked s_oneshot_next s_oneshot_prev p_oneshot_head p_oneshot_tail.
Definition ep_oneshot_list_remove_locked :=
  list_remove_locked s_oneshot_next s_oneshot_prev p_oneshot_head p_oneshot_tail.
Definition ep_oneshot_list_rotate_locked :=
  list_rotate_locked s_oneshot_next s_oneshot_prev p_oneshot_head p_oneshot_tail.

Definition ep_sock_set_needs_rearm_locked :=
  set_flag_locked s_rearm_next s_rearm_prev p_rearm_head p_rearm_tail s_needs_rearm
    p_needs_rearm_count.
Definition ep_sock_set_oneshot_fired_locked :=
  set_flag_locked s_oneshot_next s_oneshot_prev p_oneshot_head p_oneshot_tail s_oneshot_fired
    p_oneshot_fired_count.

Definition ep_sock_restore_worklist_state_locked (sock : ptr) (needs_rearm oneshot_fired : bool)
    : MW unit :=
  assertM (negb (needs_rearm && oneshot_fired)) ;;
  ep_sock_set_needs_rearm_locked sock false ;;
  ep_sock_set_oneshot_fired_locked sock false ;;
  ep_sock_set_needs_rearm_locked sock needs_rearm ;;
  ep_sock_set_oneshot_fired_locked sock oneshot_fired.

Definition ep_sock_list_add_locked (port sock : ptr) : MW unit :=
  wr w_socks sock s_prev NULL ;;
  head <- rd w_ports port p_sock_list_head ;;
  wr w_socks sock s_next head ;;
  match head with
  | Some _ => wr w_socks head s_prev sock
  | None => ret tt
  end ;;
  wr w_ports port p_sock_list_head sock.

Definition ep_sock_list_remove_locked (port sock : ptr) : MW unit :=
  prev <- rd w_socks sock s_prev ;;
  next <- rd w_socks sock s_next ;;
  match prev with
  | Some _ => wr w_socks prev s_next next
  | None => wr w_ports port p_sock_list_head next
  end ;;
  match next with
  | Some _ => wr w_socks next s_prev prev
  | None => ret tt
  end ;;
  wr w_socks sock s_next NULL ;;
  wr w_socks sock s_prev NULL.

(** Loops over a list run at most once per registration. *)
Definition walk_fuel (w : world) : nat := S (size (w_socks w)).

Fixpoint has_deferred_loop (fuel : nat) (sock : ptr) : MW bool :=
  match sock, fuel with
  | None, _ => ret false
  | Some _, O => stuck
  | Some _, S fuel =>
    holdoff <- rd w_socks sock s_et_holdoff ;;
    if holdoff then ret true
    else next <- rd w_socks sock s_rearm_next ;; has_deferred_loop fuel next
  end.
Definition ep_port_has_deferred_rearm_locked (port : ptr) : MW bool :=
  head <- rd w_ports port p_rearm_head ;;
  fuel <- get walk_fuel ;;
  has_deferred_loop fuel head.

Fixpoint release_deferred_loop (fuel : nat) (sock : ptr) : MW unit :=
  match sock, fuel with
  | None, _ => ret tt
  | Some _, O => stuck
  | Some _, S fuel =>
    wr w_socks sock s_et_holdoff false ;;
    next <- rd w_socks sock s_rearm_next ;;
    release_deferred_loop fuel next
  end.
Definition ep_port_release_deferred_rearms_locked (port : ptr) : MW unit :=
  head <- rd w_ports port p_rearm_head ;;
  fuel <- get walk_fuel ;;
  release_deferred_loop fuel head.

(** *** The consistency checker *)

(** Tortoise and hare over the live list; [false] when they meet. *)
Fixpoint acyclic_loop (fuel : nat) (slow fast : ptr) : MW bool :=
  match fast, fuel with
  | None, _ => ret true
  | Some _, O => stuck
  | Some _, S fuel =>
    fast_next <- rd w_socks fast s_next ;;
    match fast_next with
    | None => ret true
    | Some _ =>
      slow <- rd w_socks slow s_next ;;
      fast <- rd w_socks fast_next s_next ;;
      if bool_decide (slow = fast) then ret false else acyclic_loop fuel slow fast
    end
  end.

(** [live_rearm_count] and [live_oneshot_count], or [None] on a mismatch. *)
Fixpoint live_loop (fuel : nat) (port previous sock : ptr) (rearms oneshots : Z)
    : MW (option (Z * Z)) :=
  match sock, fuel with
  | None, _ => ret (Some (rearms, oneshots))
  | Some _, O => stuck
  | Some _, S fuel =>
    s <- rd w_socks sock (fun s => s) ;;
    p <- rd w_ports port (fun p => p) ;;
    let rearm_linked := negb (bool_decide (s_rearm_prev s = NULL)) ||
      negb (bool_decide (s_rearm_next s = NULL)) || bool_decide (p_rearm_head p = sock) in
    let oneshot_linked := negb (bool_decide (s_oneshot_prev s = NULL)) ||
      negb (bool_decide (s_oneshot_next s = NULL)) || bool_decide (p_oneshot_head p = sock) in
    if negb (bool_decide (s_prev s = previous)) || negb (bool_decide (s_port s = port)) ||
       negb (Bool.eqb (s_needs_rearm s) rearm_linked) ||
       negb (Bool.eqb (s_oneshot_fired s) oneshot_linked) ||
       (s_needs_rearm s && s_oneshot_fired s) ||
       (s_delete_pending s && (s_needs_rearm s || s_oneshot_fired s))
    then ret None
    else live_loop fuel port sock (s_next s)
           (if s_needs_rearm s then rearms + 1 else rearms)
           (if s_oneshot_fired s then oneshots + 1 else oneshots)
  end.

Fixpoint find_live_loop (fuel : nat) (sock live : ptr) : MW bool :=
  match live, fuel with
  | None, _ => ret false
  | Some _, O => stuck
  | Some _, S fuel =>
    if bool_decide (live = sock) then ret true
    else next <- rd w_socks live s_next ;; find_live_loop fuel sock next
  end.

(** One work list: the last node and the number of nodes, or [None]. *)
Fixpoint member_loop (nx pv : ep_sock -> ptr) (flag : ep_sock -> bool) (fuel : nat)
    (port previous sock : ptr) (list_count count : Z) : MW (option (ptr * Z)) :=
  match sock, fuel with
  | None, _ => ret (Some (previous, list_count))
  | Some _, O => stuck
  | Some _, S fuel =>
    head <- rd w_ports port p_sock_list_head ;;
    all <- get walk_fuel ;;
    found_live <- find_live_loop all sock head ;;
    s <- rd w_socks sock (fun s => s) ;;
    if negb (flag s) || negb (bool_decide (s_port s = port)) || negb found_live ||
       negb (bool_decide (pv s = previous)) || (count <? list_count + 1)
    then ret None
    else member_loop nx pv flag fuel port sock (nx s) (list_count + 1) count
  end.

Definition ep_port_worklists_valid_locked (port : ptr) : MW bool :=
  p <- rd w_ports port (fun p => p) ;;
  fuel <- get walk_fuel ;;
  if negb (Bool.eqb (bool_decide (p_rearm_head p = NULL)) (bool_decide (p_rearm_tail p = NULL))) ||
     negb (Bool.eqb (bool_decide (p_oneshot_head p = NULL)) (bool_decide (p_oneshot_tail p = NULL)))
  then ret false else
  acyclic <- acyclic_loop fuel (p_sock_list_head p) (p_sock_list_head p) ;;
  if negb acyclic then ret false else
  live <- live_loop fuel port NULL (p_sock_list_head p) 0 0 ;;
  match live with
  | None => ret false
  | Some (live_rearm_count, live_oneshot_count) =>
    rearm <- member_loop s_rearm_next s_rearm_prev s_needs_rearm fuel port NULL (p_rearm_head p) 0
               (p_needs_rearm_count p) ;;
    match rearm with
    | None => ret false
    | Some (previous, list_count) =>
      if negb (bool_decide (previous = p_rearm_tail p)) ||
         negb (list_count =? p_needs_rearm_count p) || negb (list_count =? live_rearm_count)
      then ret false else
      oneshot <- member_loop s_oneshot_next s_oneshot_prev s_oneshot_fired fuel port NULL
                   (p_oneshot_head p) 0 (p_oneshot_fired_count p) ;;
      match oneshot with
      | None => ret false
      | Some (previous, list_count) =>
        ret (bool_decide (previous = p_oneshot_tail p) &&
             (list_count =? p_oneshot_fired_count p) && (list_count =? live_oneshot_count))
      end
    end
  end.

(** ** The two instances *)

Definition rearm_er (s : ep_sock) : ep_sock := s <| s_rearm_next := NULL |> <| s_rearm_prev := NULL |>.
Definition rearm_erf (s : ep_sock) : ep_sock := rearm_er s <| s_needs_rearm := false |>.
Definition rearm_erp (p : ep_port) : ep_port := p <| p_rearm_head := NULL |> <| p_rearm_tail := NULL |>.
Definition rearm_erpf (p : ep_port) : ep_port := rearm_erp p <| p_needs_rearm_count := 0 |>.
Definition oneshot_er (s : ep_sock) : ep_sock :=
  s <| s_oneshot_next := NULL |> <| s_oneshot_prev := NULL |>.
Definition oneshot_erf (s : ep_sock) : ep_sock := oneshot_er s <| s_oneshot_fired := false |>.
Definition oneshot_erp (p : ep_port) : ep_port :=
  p <| p_oneshot_head := NULL |> <| p_oneshot_tail := NULL |>.
Definition oneshot_erpf (p : ep_port) : ep_port := oneshot_erp p <| p_oneshot_fired_count := 0 |>.

#[export] Instance rearm_fields :
  FlagFields s_rearm_next s_rearm_prev p_rearm_head p_rearm_tail s_needs_rearm p_needs_rearm_count
    rearm_er rearm_erf rearm_erp rearm_erpf.
Proof. repeat split. Qed.
#[export] Instance oneshot_fields :
  FlagFields s_oneshot_next s_oneshot_prev p_oneshot_head p_oneshot_tail s_oneshot_fired
    p_oneshot_fired_count oneshot_er oneshot_erf oneshot_erp oneshot_erpf.
Proof. repeat split. Qed.
#[export] Instance live_dll : DLL s_next s_prev.
Proof. by split. Qed.

Abbreviation rearm_list :=
  (flist s_rearm_next s_rearm_prev p_rearm_head p_rearm_tail s_needs_rearm p_needs_rearm_count).
Abbreviation oneshot_list :=
  (flist s_oneshot_next s_oneshot_prev p_oneshot_head p_oneshot_tail s_oneshot_fired
     p_oneshot_fired_count).

(** The live registrations, those to re-arm and the fired ones. *)
Record work_inv (w : world) (port : addr) (live R O : list addr) : Prop := {
  wi_live : exists p, w_ports w !! port = Some p /\ p_sock_list_head p = head live /\
    dlist s_next s_prev (w_socks w) live;
  wi_owner a : a ∈ live -> exists s, w_socks w !! a = Some s /\ s_port s = Some port;
  wi_rearm : rearm_list w port R;
  wi_oneshot : oneshot_list w port O;
  wi_sub_rearm a : a ∈ R -> a ∈ live;
  wi_sub_oneshot a : a ∈ O -> a ∈ live;
  wi_disjoint a : a ∈ R -> a ∉ O;
  wi_deleted a s : w_socks w !! a = Some s -> s_delete_pending s = true -> a ∉ R /\ a ∉ O;
  wi_bound : socks_bounded w
}.

Section Transfer.
Context (e : ep_sock -> ep_sock) (f : ep_port -> ep_port) (w w' : world).
Hypothesis Hfr : wframe e f w w'.

Lemma transfer_sock {T} (g : ep_sock -> T) a s :
  (forall s, g (e s) = g s) -> w_socks w !! a = Some s ->
  exists s', w_socks w' !! a = Some s' /\ g s' = g s.
Proof.
  intros Hg Ha. destruct Hfr as (_ & Hs & _).
  destruct (fmap_same_lookup e _ _ _ _ Hs Ha) as (s' & Hs' & E).
  exists s'. split; [done|]. by rewrite <- (Hg s'), E, Hg.
Qed.

Lemma transfer_sock_inv {T} (g : ep_sock -> T) a s' :
  (forall s, g (e s) = g s) -> w_socks w' !! a = Some s' ->
  exists s, w_socks w !! a = Some s /\ g s' = g s.
Proof.
  intros Hg Ha. destruct Hfr as (_ & Hs & _).
  destruct (fmap_same_lookup e _ _ _ _ (eq_sym Hs) Ha) as (s & Hs' & E).
  exists s. split; [done|]. by rewrite <- (Hg s), E, Hg.
Qed.

Lemma transfer_port {T} (g : ep_port -> T) a p :
  (forall p, g (f p) = g p) -> w_ports w !! a = Some p ->
  exists p', w_ports w' !! a = Some p' /\ g p' = g p.
Proof.
  intros Hg Ha. destruct Hfr as (_ & _ & Hp).
  destruct (fmap_same_lookup f _ _ _ _ Hp Ha) as (p' & Hp' & E).
  exists p'. split; [done|]. by rewrite <- (Hg p'), E, Hg.
Qed.

Lemma transfer_link (g : ep_sock -> ptr) a :
  (forall s, g (e s) = g s) -> link g (w_socks w') a = link g (w_socks w) a.
Proof.
  intros Hg. unfold link. destruct (w_socks w !! a) as [s|] eqn:E.
  - destruct (transfer_sock g a s Hg E) as (s' & -> & Es). simpl. by rewrite Es.
  - destruct (w_socks w' !! a) as [s'|] eqn:E'; [|done].
    destruct (transfer_sock_inv g a s' Hg E') as (s & Hs & _). congruence.
Qed.

Lemma transfer_dlist nx pv l :
  (forall s, nx (e s) = nx s) -> (forall s, pv (e s) = pv s) ->
  dlist nx pv (w_socks w) l -> dlist nx pv (w_socks w') l.
Proof. intros Hn Hp. apply linked_ext. intros a _. by rewrite !transfer_link. Qed.

Lemma transfer_bound : socks_bounded w -> socks_bounded w'.
Proof.
  unfold socks_bounded. destruct Hfr as (_ & Hs & _). apply (f_equal size) in Hs.
  rewrite !map_size_fmap in Hs. by rewrite Hs.
Qed.

Lemma transfer_flist nx pv hd tl flag cnt port l :
  (forall s, (nx (e s), pv (e s), flag (e s), s_port (e s)) = (nx s, pv s, flag s, s_port s)) ->
  (forall p, (hd (f p), tl (f p), cnt (f p)) = (hd p, tl p, cnt p)) ->
  flist nx pv hd tl flag cnt w port l -> flist nx pv hd tl flag cnt w' port l.
Proof.
  intros He Hf [(p & (Hp & Hhd & Htl & Hl) & Hcnt) Hin Hflag Hout].
  assert (Hback : forall a s', w_socks w' !! a = Some s' -> exists s, w_socks w !! a = Some s /\
    (nx s', pv s', flag s', s_port s') = (nx s, pv s, flag s, s_port s))
    by (intros a s'; apply (transfer_sock_inv (fun s => (nx s, pv s, flag s, s_port s))); done).
  split.
  - destruct (transfer_port (fun p => (hd p, tl p, cnt p)) port p Hf Hp) as (p' & Hp' & [= E1 E2 E3]).
    exists p'. split; [|congruence]. split_and!; [done|congruence|congruence|].
    apply transfer_dlist; [| |done]; intros s; specialize (He s); congruence.
  - intros a (s & Hs & Hpo)%Hin.
    destruct (transfer_sock s_port a s) as (s' & Hs' & E); [intros s0; specialize (He s0); congruence|done|].
    exists s'. by rewrite E.
  - intros a s' (s & Hs & [= E1 E2 E3 E4])%Hback Hpo. rewrite E3. apply Hflag; congruence.
  - intros a s' (s & Hs & [= E1 E2 E3 E4])%Hback Hpo Ha. rewrite E1, E2. apply (Hout a); congruence.
Qed.
End Transfer.

(** ** Setting the flags *)

Lemma elem_of_set_member v b l x :
  x ∈ set_member v b l <-> if v then x ∈ l \/ x = b else x ∈ l /\ x <> b.
Proof.
  unfold set_member. destruct v; [case_decide|]; rewrite ?elem_of_app, ?list_elem_of_singleton,
    ?list_elem_of_filter; naive_solver.
Qed.

(** A registration may be put on a work list only if it is not on the other one
    and not being deleted. *)
Definition may_join (w : world) (a : addr) (other : list addr) : Prop :=
  a ∉ other /\ forall s, w_socks w !! a = Some s -> s_delete_pending s = false.

Lemma set_rearm_spec w port live R O a v :
  work_inv w port live R O -> a ∈ live -> (v = true -> may_join w a O) ->
  exists w', ep_sock_set_needs_rearm_locked (Some a) v w = Some (tt, w') /\
    work_inv w' port live (set_member v a R) O /\ wframe rearm_erf rearm_erpf w w'.
Proof.
  intros [Hlive Hown HR HO HsR HsO Hd Hdel Hb] Ha Hv. destruct (Hown a Ha) as (s & Hs & Hp).
  destruct (set_flag_spec _ _ _ _ _ _ w port R a s v HR Hb Hs Hp) as (w' & Hrun & HR' & Hf).
  exists w'. split; [exact Hrun|]. split; [|exact Hf]. split; try done.
  - destruct Hlive as (p & Hpp & Hh & Hl).
    destruct (transfer_port _ _ _ _ Hf p_sock_list_head port p) as (p' & Hp' & E); [done|done|].
    exists p'. split_and!; [done|congruence|]. by apply (transfer_dlist _ _ _ _ Hf).
  - intros x (s0 & Hs0 & Hp0)%Hown.
    destruct (transfer_sock _ _ _ _ Hf s_port x s0) as (s' & Hs' & E); [done|done|].
    exists s'. by rewrite E.
  - by apply (transfer_flist _ _ _ _ Hf).
  - intros x Hx%elem_of_set_member. destruct v; [destruct Hx as [?| ->]|destruct Hx]; eauto.
  - intros x Hx%elem_of_set_member. destruct v; [destruct Hx as [?| ->]|destruct Hx]; eauto.
    by destruct (Hv eq_refl).
  - intros x s' Hs' Hdp.
    destruct (transfer_sock_inv _ _ _ _ Hf s_delete_pending x s') as (s0 & Hs0 & E); [done|done|].
    rewrite E in Hdp. destruct (Hdel x s0 Hs0 Hdp) as [H1 H2]. split; [|done].
    rewrite elem_of_set_member. destruct v; [|tauto]. intros [?| ->]; [done|].
    destruct (Hv eq_refl) as [_ Hj]. by rewrite (Hj s0 Hs0) in Hdp.
  - by apply (transfer_bound _ _ _ _ Hf).
Qed.

Lemma set_oneshot_spec w port live R O a v :
  work_inv w port live R O -> a ∈ live -> (v = true -> may_join w a R) ->
  exists w', ep_sock_set_oneshot_fired_locked (Some a) v w = Some (tt, w') /\
    work_inv w' port live R (set_member v a O) /\ wframe oneshot_erf oneshot_erpf w w'.
Proof.
  intros [Hlive Hown HR HO HsR HsO Hd Hdel Hb] Ha Hv. destruct (Hown a Ha) as (s & Hs & Hp).
  destruct (set_flag_spec _ _ _ _ _ _ w port O a s v HO Hb Hs Hp) as (w' & Hrun & HO' & Hf).
  exists w'. split; [exact Hrun|]. split; [|exact Hf]. split; try done.
  - destruct Hlive as (p & Hpp & Hh & Hl).
    destruct (transfer_port _ _ _ _ Hf p_sock_list_head port p) as (p' & Hp' & E); [done|done|].
    exists p'. split_and!; [done|congruence|]. by apply (transfer_dlist _ _ _ _ Hf).
  - intros x (s0 & Hs0 & Hp0)%Hown.
    destruct (transfer_sock _ _ _ _ Hf s_port x s0) as (s' & Hs' & E); [done|done|].
    exists s'. by rewrite E.
  - by apply (transfer_flist _ _ _ _ Hf).
  - intros x Hx%elem_of_set_member. destruct v; [destruct Hx as [?| ->]|destruct Hx]; eauto.
  - intros x Hx. rewrite elem_of_set_member. destruct v; [intros [?| ->]|intros [? _]].
    + by destruct (Hd x Hx).
    + by destruct (Hv eq_refl).
    + by destruct (Hd x Hx).
  - intros x s' Hs' Hdp.
    destruct (transfer_sock_inv _ _ _ _ Hf s_delete_pending x s') as (s0 & Hs0 & E); [done|done|].
    rewrite E in Hdp. destruct (Hdel x s0 Hs0 Hdp) as [H1 H2]. split; [done|].
    rewrite elem_of_set_member. destruct v; [|tauto]. intros [?| ->]; [done|].
    destruct (Hv eq_refl) as [_ Hj]. by rewrite (Hj s0 Hs0) in Hdp.
  - by apply (transfer_bound _ _ _ _ Hf).
Qed.

(** C32: flagging a live registration for re-arming appends it to the work list
    exactly once, clearing the flag removes it and keeps the order of the rest;
    asking for the state it already has changes nothing.  Flags, membership and
    counter agree afterwards and no other field of any object changes. *)
Theorem set_needs_rearm_exact w port live R O a v :
  work_inv w port live R O -> a ∈ live -> (v = true -> may_join w a O) ->
  exists w', ep_sock_set_needs_rearm_locked (Some a) v w = Some (tt, w') /\
    work_inv w' port live
      (if v then if decide (a ∈ R) then R else R ++ [a] else filter (fun x => x <> a) R) O /\
    wframe rearm_erf rearm_erpf w w'.
Proof. apply set_rearm_spec. Qed.

(** Restoring a saved work-list state puts the registration on exactly the
    list it was saved from (or on none), whatever lists it is on before the
    call; the other members keep their order. *)
Theorem restore_worklist_exact w port live R O a r o :
  work_inv w port live R O -> a ∈ live -> r && o = false ->
  (r || o = true -> forall s, w_socks w !! a = Some s -> s_delete_pending s = false) ->
  exists w', ep_sock_restore_worklist_state_locked (Some a) r o w = Some (tt, w') /\
    work_inv w' port live
      (filter (fun x => x <> a) R ++ if r then [a] else [])
      (filter (fun x => x <> a) O ++ if o then [a] else []).
Proof.
  intros HI Ha Hro Hj. unfold ep_sock_restore_worklist_state_locked. rewrite Hro. mstep.
  destruct (set_rearm_spec w port live R O a false HI Ha) as (w1 & Hrun1 & HI1 & Hf1); [done|].
  erewrite bind_some by exact Hrun1. cbv beta.
  destruct (set_oneshot_spec w1 port live _ O a false HI1 Ha) as (w2 & Hrun2 & HI2 & Hf2); [done|].
  erewrite bind_some by exact Hrun2. cbv beta. cbn [set_member] in HI1, HI2.
  assert (Hdp : r || o = true -> forall s, w_socks w2 !! a = Some s -> s_delete_pending s = false).
  { intros E s2 Hs2.
    destruct (transfer_sock_inv _ _ _ _ Hf2 s_delete_pending a s2) as (s1 & Hs1 & ->); [done|done|].
    destruct (transfer_sock_inv _ _ _ _ Hf1 s_delete_pending a s1) as (s0 & Hs0 & ->); [done|done|].
    by apply Hj. }
  assert (Hno : forall l : list addr, a ∉ filter (fun x => x <> a) l)
    by (intros l [? _]%list_elem_of_filter; done).
  destruct (set_rearm_spec w2 port live _ _ a r HI2 Ha) as (w3 & Hrun3 & HI3 & Hf3).
  { intros ->. split; [done|]. by apply Hdp. }
  erewrite bind_some by exact Hrun3. cbv beta.
  destruct (set_oneshot_spec w3 port live _ _ a o HI3 Ha) as (w4 & Hrun4 & HI4 & Hf4).
  { intros ->. destruct r; [done|]. split; [cbn [set_member]; by rewrite list_elem_of_filter; naive_solver|].
    intros s3 Hs3.
    destruct (transfer_sock_inv _ _ _ _ Hf3 s_delete_pending a s3) as (s2 & Hs2 & ->); [done|done|].
    by apply Hdp. }
  exists w4. split; [exact Hrun4|].
  assert (Hset : forall v l, set_member v a (filter (fun x => x <> a) l) =
            filter (fun x => x <> a) l ++ (if v then [a] else [])).
  { intros v l. unfold set_member. destruct v; [by rewrite decide_False by apply Hno|].
    rewrite app_nil_r. by apply filter_ne_notin. }
  by rewrite !Hset in HI4.
Qed.

(** ** Rotation *)

Lemma flist_rotate nx pv hd tl flag cnt `{!Setter nx, !Setter pv, !Setter hd, !Setter tl,
    !Setter flag, !Setter cnt} er erf erp erpf
    `{FF : !FlagFields nx pv hd tl flag cnt er erf erp erpf} w port a l :
  flist nx pv hd tl flag cnt w port (a :: l) ->
  exists w', list_rotate_locked nx pv hd tl (Some port) (Some a) w = Some (tt, w') /\
    flist nx pv hd tl flag cnt w' port (l ++ [a]) /\ wframe er erp w w'.
Proof.
  intros [(p & Hw & Hcnt) Hin Hflag Hout].
  destruct (rotate_spec nx pv hd tl w port p a l Hw) as (w' & p' & Hrun & Hw' & Hf & Hp' & Hsame).
  exists w'. split; [done|]. split; [|done].
  assert (Hperm : forall x, x ∈ l ++ [a] <-> x ∈ a :: l) by (intros x; set_solver).
  split.
  - exists p'. split; [done|]. rewrite <- cnt_erp, Hp', cnt_erp, Hcnt, length_app. simpl. lia.
  - intros x (s & Hs & Hpo)%Hperm%Hin.
    destruct (transfer_sock _ _ _ _ Hf s_port x s) as (s' & Hs' & E); [apply port_er|done|].
    exists s'. by rewrite E.
  - intros x s' Hs' Hpo.
    destruct (transfer_sock_inv _ _ _ _ Hf (fun s => (flag s, s_port s)) x s')
      as (s & Hs & [= E1 E2]); [intros s0; by rewrite flag_er, port_er|done|].
    rewrite E1, (Hflag x s Hs) by congruence. by apply bool_decide_ext.
  - intros x s' Hs' Hpo Hx. rewrite Hperm in Hx. rewrite Hsame in Hs' by done.
    by apply (Hout x s').
Qed.

(** C33: rotating a work list returns and moves its head behind its tail: the
    list's members and their order otherwise, the list of live registrations and
    the other work list are as before, and all lists stay well formed. *)
Theorem rearm_rotate_fair w port live a R O :
  work_inv w port live (a :: R) O ->
  exists w', ep_rearm_list_rotate_locked (Some port) (Some a) w = Some (tt, w') /\
    work_inv w' port live (R ++ [a]) O.
Proof.
  intros [Hlive Hown HR HO HsR HsO Hd Hdel Hb].
  destruct (flist_rotate _ _ _ _ _ _ _ _ _ _ w port a R HR) as (w' & Hrun & HR' & Hf).
  exists w'. split; [exact Hrun|].
  assert (Hperm : forall x, x ∈ R ++ [a] <-> x ∈ a :: R) by (intros x; set_solver).
  split; try done.
  - destruct Hlive as (p & Hpp & Hh & Hl).
    destruct (transfer_port _ _ _ _ Hf p_sock_list_head port p) as (p' & Hp' & E); [done|done|].
    exists p'. split_and!; [done|congruence|]. by apply (transfer_dlist _ _ _ _ Hf).
  - intros x (s0 & Hs0 & Hp0)%Hown.
    destruct (transfer_sock _ _ _ _ Hf s_port x s0) as (s' & Hs' & E); [done|done|].
    exists s'. by rewrite E.
  - by apply (transfer_flist _ _ _ _ Hf).
  - intros x Hx%Hperm. by apply HsR.
  - intros x Hx%Hperm. by apply Hd.
  - intros x s' Hs' Hdp. rewrite Hperm.
    destruct (transfer_sock_inv _ _ _ _ Hf s_delete_pending x s') as (s0 & Hs0 & E); [done|done|].
    apply (Hdel x s0); congruence.
  - by apply (transfer_bound _ _ _ _ Hf).
Qed.

(** ** The consistency checker accepts every consistent state *)

Lemma list_next {nx pv : ep_sock -> ptr} (h : gmap addr ep_sock) l1 a l2 :
  dlist nx pv h (l1 ++ a :: l2) ->
  exists s, h !! a = Some s /\ nx s = head l2 /\ pv s = last l1.
Proof.
  intros Hl. destruct (dlist_in_heap _ _ a Hl) as [s Hs]; [set_solver|].
  exists s. destruct (dlist_split _ _ _ _ _ Hl Hs) as (? & ? & _). done.
Qed.

Lemma find_live_run w l1 l2 a fuel :
  dlist s_next s_prev (w_socks w) (l1 ++ l2) -> a ∈ l2 -> (length l2 <= fuel)%nat ->
  find_live_loop fuel (Some a) (head l2) w = Some (true, w).
Proof.
  revert l1 fuel. induction l2 as [|b l2 IH]; intros l1 fuel Hl Ha Hf; [by apply elem_of_nil in Ha|].
  destruct fuel as [|fuel]; [simpl in Hf; lia|]. cbn [head find_live_loop].
  destruct (decide (b = a)) as [->|Hne]; [by rewrite bool_decide_eq_true_2|].
  rewrite bool_decide_eq_false_2 by congruence.
  destruct (list_next _ _ _ _ Hl) as (s & Hs & Hn & _). mstep. rewrite Hn.
  apply (IH (l1 ++ [b])); [by rewrite <- app_assoc|set_solver|simpl in Hf; lia].
Qed.

Lemma member_loop_run nx pv hd tl flag cnt `{!Setter nx, !Setter pv, !Setter hd, !Setter tl,
    !Setter flag, !Setter cnt} w port p live R l1 l2 fuel :
  flist nx pv hd tl flag cnt w port R -> R = l1 ++ l2 -> w_ports w !! port = Some p ->
  p_sock_list_head p = head live -> dlist s_next s_prev (w_socks w) live ->
  (forall a, a ∈ R -> a ∈ live) -> (length l2 <= fuel)%nat ->
  member_loop nx pv flag fuel (Some port) (last l1) (head l2) (Z.of_nat (length l1))
    (Z.of_nat (length R)) w = Some (Some (last R, Z.of_nat (length R)), w).
Proof.
  intros [(p0 & (Hp0 & _ & _ & Hl) & _) Hin Hflag _] HR Hp Hh Hlive Hsub. subst R.
  revert l1 fuel Hin Hflag Hl Hsub.
  induction l2 as [|a l2 IH]; intros l1 fuel Hin Hflag Hl Hsub Hf.
  - rewrite app_nil_r. by destruct fuel.
  - destruct fuel as [|fuel]; [simpl in Hf; lia|]. cbn [head member_loop].
    destruct (list_next _ _ _ _ Hl) as (s & Hs & Hn & Hpv).
    repeat mstep. rewrite Hh. erewrite bind_some.
    2:{ apply (find_live_run w [] live a); [done|apply Hsub; set_solver|].
        pose proof (dlist_length _ _ Hlive). unfold walk_fuel. lia. }
    cbv beta. repeat mstep.
    destruct (Hin a) as (s0 & Hs0 & Hpo); [set_solver|]. simplify_eq.
    rewrite (Hflag a s Hs Hpo), bool_decide_eq_true_2 by set_solver. rewrite Hpo, Hpv.
    rewrite !bool_decide_eq_true_2 by done. cbn [negb orb].
    rewrite (proj2 (Z.ltb_ge _ _)) by (rewrite length_app; simpl; lia). rewrite Hn.
    specialize (IH (l1 ++ [a]) fuel). rewrite <- app_assoc in IH. simpl in IH.
    rewrite last_snoc, length_app in IH. simpl in IH.
    replace (Z.of_nat (length l1) + 1) with (Z.of_nat (length l1 + 1)) by lia.
    apply IH; try done. simpl in Hf. lia.
Qed.

Lemma acyclic_loop_run w live i fuel :
  dlist s_next s_prev (w_socks w) live -> (i <= length live)%nat -> (length live < fuel + i)%nat ->
  acyclic_loop fuel (live !! i) (live !! (2 * i)%nat) w = Some (true, w).
Proof.
  intros Hl. revert i. induction fuel as [|fuel IH]; intros i Hi Hf; [lia|].
  cbn [acyclic_loop]. pose proof Hl as [Hnd Hlk].
  assert (Hstep : forall j x, live !! j = Some x -> exists s, w_socks w !! x = Some s /\ s_next s = live !! S j).
  { intros j x Hj. destruct (Hlk j x Hj) as [Hn _]. unfold link in Hn.
    destruct (w_socks w !! x) as [s|]; [|done]. simpl in Hn. injection Hn as Hn. eauto. }
  destruct (live !! (2 * i)%nat) as [x|] eqn:Ex; [|done].
  destruct (Hstep _ _ Ex) as (sx & Hsx & Hnx). mstep. rewrite Hnx.
  destruct (live !! S (2 * i)) as [y|] eqn:Ey; [|done].
  destruct (Hstep _ _ Ey) as (sy & Hsy & Hny).
  pose proof (lookup_lt_Some _ _ _ Ey) as Hlt.
  destruct (live !! i) as [z|] eqn:Ez; [|apply lookup_ge_None in Ez; lia].
  destruct (Hstep _ _ Ez) as (sz & Hsz & Hnz). repeat mstep. rewrite Hnz, Hny.
  replace (S (S (2 * i))) with (2 * S i)%nat by lia.
  rewrite bool_decide_eq_false_2; [apply IH; lia|]. intros E.
  destruct (live !! S i) as [u|] eqn:Eu; [|apply lookup_ge_None in Eu; lia].
  symmetry in E. assert (S i = 2 * S i)%nat by (by eapply NoDup_lookup). lia.
Qed.

(** The checker's notion of being linked is membership. *)
Lemma linked_iff_member nx pv hd tl flag cnt `{!Setter nx, !Setter pv, !Setter hd, !Setter tl,
    !Setter flag, !Setter cnt} w port p R a s :
  flist nx pv hd tl flag cnt w port R -> w_ports w !! port = Some p ->
  w_socks w !! a = Some s -> s_port s = Some port ->
  negb (bool_decide (pv s = NULL)) || negb (bool_decide (nx s = NULL)) ||
    bool_decide (hd p = Some a) = flag s.
Proof.
  intros [(p0 & (Hp0 & Hhd & Htl & Hl) & _) Hin Hflag Hout] Hp Ha Hpo. simplify_eq.
  rewrite (Hflag a s Ha Hpo), Hhd. destruct (decide (a ∈ R)) as [HaR|HaR].
  - rewrite (bool_decide_eq_true_2 (a ∈ R)) by done.
    apply list_elem_of_split in HaR as (l1 & l2 & ->).
    destruct (dlist_split _ _ _ _ _ Hl Ha) as (_ & Hpv & _). rewrite Hpv.
    destruct (last l1) as [z|] eqn:Ez; [done|]. apply last_None in Ez as ->. simpl.
    by rewrite (bool_decide_eq_true_2 (Some a = Some a)), orb_true_r.
  - destruct (Hout a s Ha Hpo HaR) as [-> ->]. rewrite !bool_decide_eq_true_2 by done. simpl.
    rewrite !bool_decide_eq_false_2; [done|done|]. intros E. by apply HaR, head_Some_elem_of.
Qed.

Lemma live_loop_run w port p live R O l1 l2 fuel r o :
  work_inv w port live R O -> live = l1 ++ l2 -> w_ports w !! port = Some p ->
  (length l2 <= fuel)%nat ->
  live_loop fuel (Some port) (last l1) (head l2) r o w =
    Some (Some (r + Z.of_nat (length (filter (.∈ R) l2)), o + Z.of_nat (length (filter (.∈ O) l2))), w).
Proof.
  intros HI. revert l1 fuel r o. induction l2 as [|a l2 IH]; intros l1 fuel r o Hlv Hp Hf.
  - simpl. rewrite !Z.add_0_r. by destruct fuel.
  - destruct fuel as [|fuel]; [simpl in Hf; lia|]. cbn [head live_loop].
    destruct (wi_live _ _ _ _ _ HI) as (p0 & Hp0 & Hh & Hl). simplify_eq.
    destruct (list_next _ _ _ _ Hl) as (s & Hs & Hn & Hpv).
    destruct (wi_owner _ _ _ _ _ HI a) as (s0 & Hs0 & Hpo); [set_solver|]. simplify_eq.
    repeat mstep. cbv zeta.
    rewrite (linked_iff_member _ _ _ _ _ _ w port p R a s (wi_rearm _ _ _ _ _ HI)) by done.
    rewrite (linked_iff_member _ _ _ _ _ _ w port p O a s (wi_oneshot _ _ _ _ _ HI)) by done.
    rewrite Hpv, Hpo, !bool_decide_eq_true_2, !eqb_reflx by done. cbn [negb orb].
    assert (HfR : s_needs_rearm s = bool_decide (a ∈ R)) by (by eapply fl_flag; [apply (wi_rearm _ _ _ _ _ HI)|..]).
    assert (HfO : s_oneshot_fired s = bool_decide (a ∈ O)) by (by eapply fl_flag; [apply (wi_oneshot _ _ _ _ _ HI)|..]).
    assert (Hbad : s_needs_rearm s && s_oneshot_fired s ||
       s_delete_pending s && (s_needs_rearm s || s_oneshot_fired s) = false).
    { pose proof (wi_disjoint _ _ _ _ _ HI a) as Hd. pose proof (wi_deleted _ _ _ _ _ HI a s Hs) as Hdel.
      rewrite HfR, HfO. do 2 case_bool_decide; destruct (s_delete_pending s); naive_solver. }
    rewrite Hbad, HfR, HfO, Hn.
    assert (E : live_loop fuel (Some port) (Some a) (head l2) = live_loop fuel (Some port) (last (l1 ++ [a])) (head l2))
      by (by rewrite last_snoc).
    rewrite E, (IH (l1 ++ [a])); [|by rewrite <- app_assoc|done|simpl in Hf; lia].
    rewrite !filter_cons. do 2 f_equal. f_equal.
    f_equal;
      [destruct (decide (a ∈ R)) | destruct (decide (a ∈ O))];
      [rewrite bool_decide_eq_true_2 by done | rewrite bool_decide_eq_false_2 by done | ..];
      [.. | rewrite bool_decide_eq_true_2 by done | rewrite bool_decide_eq_false_2 by done];
      simpl; lia.
Qed.

Lemma members_counted (R live : list addr) :
  NoDup R -> NoDup live -> (forall a, a ∈ R -> a ∈ live) ->
  length (filter (.∈ R) live) = length R.
Proof.
  intros HR Hl Hs. apply Permutation_length, NoDup_Permutation; [by apply NoDup_filter|done|].
  intros x. rewrite list_elem_of_filter. naive_solver.
Qed.

(** The code's own checker accepts every port whose lists, flags and
    counters agree: it terminates and answers 1. *)
Theorem worklists_checker_accepts w port live R O :
  work_inv w port live R O ->
  ep_port_worklists_valid_locked (Some port) w = Some (true, w).
Proof.
  intros HI. destruct (wi_live _ _ _ _ _ HI) as (p & Hp & Hh & Hl).
  pose proof (wi_rearm _ _ _ _ _ HI) as HR. pose proof (wi_oneshot _ _ _ _ _ HI) as HO.
  destruct (fl_list _ _ _ _ _ _ _ _ _ HR) as (p1 & (Hp1 & Hhd1 & Htl1 & Hl1) & Hc1).
  destruct (fl_list _ _ _ _ _ _ _ _ _ HO) as (p2 & (Hp2 & Hhd2 & Htl2 & Hl2) & Hc2). simplify_eq.
  assert (Hends : forall l : list addr, bool_decide (head l = NULL) = bool_decide (last l = NULL)).
  { intros l. apply bool_decide_ext. rewrite last_None. by destruct l. }
  unfold ep_port_worklists_valid_locked. repeat mstep.
  rewrite Hhd1, Htl1, Hhd2, Htl2, !Hends, !eqb_reflx. cbn [negb orb]. rewrite Hh.
  pose proof (dlist_length _ _ Hl) as Hlen. pose proof (dlist_length _ _ Hl1) as Hlen1.
  pose proof (dlist_length _ _ Hl2) as Hlen2.
  erewrite bind_some.
  2:{ rewrite head_lookup. apply (acyclic_loop_run w live 0); [done|lia|unfold walk_fuel; lia]. }
  cbn [negb]. cbv iota beta. erewrite bind_some.
  2:{ apply (live_loop_run w port p live R O [] live); [done|done|done|unfold walk_fuel; lia]. }
  cbv beta iota.
  rewrite !members_counted; try (by eapply dlist_nodup); try apply (wi_sub_rearm _ _ _ _ _ HI);
    try apply (wi_sub_oneshot _ _ _ _ _ HI).
  rewrite Hc1, Hc2. erewrite bind_some.
  2:{ apply (member_loop_run s_rearm_next s_rearm_prev p_rearm_head p_rearm_tail
          s_needs_rearm p_needs_rearm_count w port p live R [] R); try done;
        [apply (wi_sub_rearm _ _ _ _ _ HI)|unfold walk_fuel; lia]. }
  cbv beta iota. rewrite bool_decide_eq_true_2, Z.eqb_refl, (proj2 (Z.eqb_eq _ _)) by done || lia.
  cbn [negb orb]. cbv iota. erewrite bind_some.
  2:{ apply (member_loop_run s_oneshot_next s_oneshot_prev p_oneshot_head p_oneshot_tail
          s_oneshot_fired p_oneshot_fired_count w port p live O [] O); try done;
        [apply (wi_sub_oneshot _ _ _ _ _ HI)|unfold walk_fuel; lia]. }
  cbv beta iota. rewrite bool_decide_eq_true_2, Z.eqb_refl, (proj2 (Z.eqb_eq _ _)) by done || lia.
  done.
Qed.

(** ** Deferred re-arms *)

Lemma has_deferred_run w l1 l2 fuel :
  dlist s_rearm_next s_rearm_prev (w_socks w) (l1 ++ l2) -> (length l2 <= fuel)%nat ->
  exists b, has_deferred_loop fuel (head l2) w = Some (b, w) /\
    (b = true <-> exists a s, a ∈ l2 /\ w_socks w !! a = Some s /\ s_et_holdoff s = true).
Proof.
  revert l1 fuel. induction l2 as [|a l2 IH]; intros l1 fuel Hl Hf.
  - exists false. split; [by destruct fuel|]. split; [done|]. intros (x & _ & []%elem_of_nil & _).
  - destruct fuel as [|fuel]; [simpl in Hf; lia|]. cbn [head has_deferred_loop].
    destruct (list_next _ _ _ _ Hl) as (s & Hs & Hn & _). mstep.
    destruct (s_et_holdoff s) eqn:Eh.
    + exists true. split; [done|]. split; [|done]. intros _. exists a, s. split; [by left|done].
    + mstep. rewrite Hn.
      destruct (IH (l1 ++ [a]) fuel) as (b & Hrun & Hb); [by rewrite <- app_assoc|simpl in Hf; lia|].
      exists b. split; [done|]. rewrite Hb. split; intros (x & sx & Hx & Hsx & Ex); exists x, sx.
      * split; [by right|done].
      * apply elem_of_cons in Hx as [->|Hx]; [congruence|done].
Qed.

(** Releasing clears the hold-off of the listed registrations only. *)
Definition released (l : list addr) (h h' : gmap addr ep_sock) : Prop :=
  forall x, h' !! x = if decide (x ∈ l) then (fun s => s <| s_et_holdoff := false |>) <$> h !! x
                      else h !! x.

Lemma release_deferred_run w l1 l2 fuel :
  dlist s_rearm_next s_rearm_prev (w_socks w) (l1 ++ l2) -> (length l2 <= fuel)%nat ->
  exists h', release_deferred_loop fuel (head l2) w = Some (tt, w <| w_socks := h' |>) /\
    released l2 (w_socks w) h'.
Proof.
  revert l1 fuel w. induction l2 as [|a l2 IH]; intros l1 fuel w Hl Hf.
  - exists (w_socks w). split; [|by intros x].
    destruct fuel; cbn; unfold ret; do 2 f_equal; by destruct w.
  - destruct fuel as [|fuel]; [simpl in Hf; lia|]. cbn [head release_deferred_loop].
    destruct (list_next _ _ _ _ Hl) as (s & Hs & Hn & _).
    set (w1 := w <| w_socks := <[a := s <| s_et_holdoff := false |>]> (w_socks w) |>).
    mstep. mstep. sget. rewrite Hn. fold w1.
    destruct (IH (l1 ++ [a]) fuel w1) as (h' & Hrun & Hr).
    { rewrite <- app_assoc. unfold w1; sget. by eapply dlist_insert_same. }
    { simpl in Hf; lia. }
    exists h'. split; [rewrite Hrun; by destruct w|]. intros x. rewrite (Hr x). unfold w1; sget.
    pose proof (dlist_nodup _ _ Hl) as Hnd. apply NoDup_app in Hnd as (_ & _ & [Ha _]%NoDup_cons).
    destruct (decide (x = a)) as [->|Hne].
    + rewrite decide_False, decide_True, lookup_insert_eq, Hs by (done || by left). done.
    + rewrite lookup_insert_ne by done. apply decide_ext. rewrite elem_of_cons. naive_solver.
Qed.

(** Releasing the deferred re-arms of a port clears the hold-off of every
    registration waiting to be re-armed and touches nothing else; afterwards
    none is reported as deferred. *)
Theorem release_deferred_exact w port live R O :
  work_inv w port live R O ->
  exists h', ep_port_release_deferred_rearms_locked (Some port) w = Some (tt, w <| w_socks := h' |>) /\
    released R (w_socks w) h' /\
    ep_port_has_deferred_rearm_locked (Some port) (w <| w_socks := h' |>) =
      Some (false, w <| w_socks := h' |>).
Proof.
  intros HI. destruct (fl_list _ _ _ _ _ _ _ _ _ (wi_rearm _ _ _ _ _ HI)) as (p & (Hp & Hhd & _ & Hl) & _).
  pose proof (dlist_length _ _ Hl) as Hlen.
  destruct (release_deferred_run w [] R (walk_fuel w)) as (h' & Hrun & Hr);
    [done|unfold walk_fuel; lia|].
  exists h'. unfold ep_port_release_deferred_rearms_locked. repeat mstep. rewrite Hhd.
  split; [exact Hrun|]. split; [done|].
  assert (Hl' : dlist s_rearm_next s_rearm_prev h' R).
  { eapply dlist_ext; [|exact Hl]. intros x Hx. specialize (Hr x). unfold link.
    rewrite Hr, decide_True by done. by destruct (w_socks w !! x). }
  pose proof (dlist_length _ _ Hl') as Hlen'.
  destruct (has_deferred_run (w <| w_socks := h' |>) [] R (walk_fuel (w <| w_socks := h' |>)))
    as (b & Hrun' & Hb); [done|unfold walk_fuel; sget; lia|].
  unfold ep_port_has_deferred_rearm_locked. repeat mstep. sget. rewrite Hhd, Hrun'.
  destruct b; [|done]. destruct Hb as [(x & s & Hx & Hs & Hh) _]; [done|]. sget_in Hs.
  rewrite Hr, decide_True in Hs by done. destruct (w_socks w !! x); [|done]. simpl in Hs.
  injection Hs as <-. discriminate Hh.
Qed.

(** ** The live list *)

Definition live_er (s : ep_sock) : ep_sock := s <| s_next := NULL |> <| s_prev := NULL |>.
Definition live_erp (p : ep_port) : ep_port := p <| p_sock_list_head := NULL |>.

(** Changing the live list only keeps both work lists. *)
Lemma work_inv_relist w w' port live live' R O :
  work_inv w port live R O -> wframe live_er live_erp w w' ->
  (exists p, w_ports w' !! port = Some p /\ p_sock_list_head p = head live' /\
    dlist s_next s_prev (w_socks w') live') ->
  (forall a, a ∈ live' -> exists s, w_socks w' !! a = Some s /\ s_port s = Some port) ->
  (forall a, a ∈ R \/ a ∈ O -> a ∈ live') ->
  work_inv w' port live' R O.
Proof.
  intros [_ _ HR HO _ _ Hd Hdel Hb] Hf Hl Hown Hsub. split; try done.
  - by apply (transfer_flist _ _ _ _ Hf).
  - by apply (transfer_flist _ _ _ _ Hf).
  - intros a Ha. apply Hsub. by left.
  - intros a Ha. apply Hsub. by right.
  - intros x s' Hs' Hdp.
    destruct (transfer_sock_inv _ _ _ _ Hf s_delete_pending x s') as (s0 & Hs0 & E); [done|done|].
    apply (Hdel x s0); congruence.
  - by apply (transfer_bound _ _ _ _ Hf).
Qed.

Lemma live_owner w w' port live R O a :
  work_inv w port live R O -> wframe live_er live_erp w w' -> a ∈ live ->
  exists s, w_socks w' !! a = Some s /\ s_port s = Some port.
Proof.
  intros HI Hf Ha. destruct (wi_owner _ _ _ _ _ HI a Ha) as (s & Hs & Hp).
  destruct (transfer_sock _ _ _ _ Hf s_port a s) as (s' & Hs' & E); [done|done|].
  exists s'. by rewrite E.
Qed.

(** Linking a registration puts it in front of the live list. *)
Lemma sock_list_add_spec w port live R O a s :
  work_inv w port live R O -> w_socks w !! a = Some s -> s_port s = Some port -> a ∉ live ->
  exists w', ep_sock_list_add_locked (Some port) (Some a) w = Some (tt, w') /\
    work_inv w' port (a :: live) R O /\ wframe live_er live_erp w w'.
Proof.
  intros HI Ha Hpa Hn. destruct (wi_live _ _ _ _ _ HI) as (p & Hp & Hh & Hl).
  pose proof HI as [_ _ _ _ HsR HsO _ _ _].
  set (s' := s <| s_prev := NULL |> <| s_next := head live |>).
  set (w' := w <| w_socks := push_heap s_prev (w_socks w) a s' live |>
               <| w_ports := <[port := p <| p_sock_list_head := Some a |>]> (w_ports w) |>).
  assert (Hf : wframe live_er live_erp w w').
  { unfold wframe, w'. split_and!; [by destruct w| |]; sget.
    - unfold push_heap. rewrite fmap_upd_same by done. by apply (fmap_insert_same live_er _ _ s).
    - by apply (fmap_insert_same live_erp _ _ p). }
  assert (Hrun : ep_sock_list_add_locked (Some port) (Some a) w = Some (tt, w')).
  { unfold ep_sock_list_add_locked. repeat mstep. sget. rewrite Hh, insert_insert_eq.
    destruct live as [|b live]; cbn [head].
    - mstep. erewrite wr_some by mlookup. by destruct w.
    - destruct (dlist_in_heap _ _ b Hl) as [sb Hb]; [by left|].
      assert (a <> b) by (intros ->; set_solver).
      erewrite bind_some by (apply wr_upd; sget; rewrite lookup_insert_ne by done; by eexists).
      cbv beta. erewrite wr_some by mlookup. by destruct w. }
  exists w'. split; [done|]. split; [|done].
  apply (work_inv_relist w w' port live); try done.
  - eexists. split; [unfold w'; sget; apply lookup_insert_eq|]. split; [done|].
    unfold w'; sget. by apply dlist_push.
  - intros x [->|Hx]%elem_of_cons; [|by eapply live_owner].
    destruct (transfer_sock _ _ _ _ Hf s_port a s) as (s1 & Hs1 & E); [done|done|].
    exists s1. by rewrite E.
  - intros x [Hx|Hx]; right; auto.
Qed.

(** Bypassing [a] in the live list. *)
Lemma live_bypass_run w port p l1 a l2 :
  w_ports w !! port = Some p -> p_sock_list_head p = head (l1 ++ a :: l2) ->
  dlist s_next s_prev (w_socks w) (l1 ++ a :: l2) ->
  exists p',
    (match last l1 with
     | Some _ => wr w_socks (last l1) s_next (head l2)
     | None => wr w_ports (Some port) p_sock_list_head (head l2)
     end ;;
     match head l2 with
     | Some _ => wr w_socks (head l2) s_prev (last l1)
     | None => ret tt
     end) w =
    Some (tt, w <| w_socks := unlink_heap s_next s_prev (w_socks w) l1 l2 |>
                <| w_ports := <[port := p']> (w_ports w) |>) /\
    p_sock_list_head p' = head (l1 ++ l2) /\ live_erp p' = live_erp p.
Proof.
  intros Hp Hh Hl.
  assert (Hz : forall z, last l1 = Some z -> is_Some (w_socks w !! z)).
  { intros z Ez%last_Some_elem_of. eapply dlist_in_heap; [exact Hl|]. set_solver. }
  assert (Hy : forall y, head l2 = Some y -> is_Some (w_socks w !! y)).
  { intros y Ey%head_Some_elem_of. eapply dlist_in_heap; [exact Hl|]. set_solver. }
  unfold unlink_heap.
  destruct (last l1) as [z|] eqn:Ez, (head l2) as [y|] eqn:Ey.
  - erewrite bind_some by (apply wr_upd; eauto). cbv beta.
    erewrite wr_upd by (sget; apply upd_is_Some; eauto). sget. exists p. split_and!; [|..|done].
    + rewrite insert_id by done. by destruct w.
    + rewrite Hh. by destruct l1.
  - erewrite bind_some by (apply wr_upd; eauto). cbv beta. exists p. split_and!; [|..|done].
    + rewrite insert_id by done. by destruct w.
    + rewrite Hh. by destruct l1.
  - apply last_None in Ez as ->. repeat mstep.
    erewrite wr_upd by (sget; eauto). eexists. split_and!; [by destruct w|done|done].
  - apply last_None in Ez as ->. repeat mstep.
    eexists. split_and!; [by destruct w|done|done].
Qed.

(** Unlinking a registration that is on no work list takes it off the live
    list, keeps the order of the others and both work lists, and clears its
    links, so linking it again is allowed. *)
Theorem sock_list_remove_exact w port l1 a l2 R O :
  work_inv w port (l1 ++ a :: l2) R O -> a ∉ R -> a ∉ O ->
  exists w' s', ep_sock_list_remove_locked (Some port) (Some a) w = Some (tt, w') /\
    work_inv w' port (l1 ++ l2) R O /\ wframe live_er live_erp w w' /\
    w_socks w' !! a = Some s' /\ s_next s' = NULL /\ s_prev s' = NULL.
Proof.
  intros HI HaR HaO. destruct (wi_live _ _ _ _ _ HI) as (p & Hp & Hh & Hl).
  pose proof HI as [_ _ _ _ HsR HsO _ _ _].
  destruct (list_next _ _ _ _ Hl) as (s & Ha & Hn & Hpv).
  destruct (dlist_split _ _ _ _ _ Hl Ha) as (_ & _ & Ha1 & Ha2).
  destruct (live_bypass_run w port p l1 a l2 Hp Hh Hl) as (p' & Hrun & Hh' & Hep).
  assert (Hau : unlink_heap s_next s_prev (w_socks w) l1 l2 !! a = Some s).
  { unfold unlink_heap. rewrite !upd_lookup, !decide_False; [done|..].
    - by intros ?%last_Some_elem_of.
    - by intros ?%head_Some_elem_of. }
  set (s' := s <| s_next := NULL |> <| s_prev := NULL |>).
  set (w' := w <| w_socks := <[a := s']> (unlink_heap s_next s_prev (w_socks w) l1 l2) |>
               <| w_ports := <[port := p']> (w_ports w) |>).
  assert (Hf : wframe live_er live_erp w w').
  { unfold wframe, w'. split_and!; [by destruct w| |]; sget.
    - rewrite (fmap_insert_same live_er _ _ s) by done.
      unfold unlink_heap. by rewrite !fmap_upd_same.
    - by apply (fmap_insert_same live_erp _ _ p). }
  exists w', s'. split.
  { unfold ep_sock_list_remove_locked. repeat mstep. rewrite Hn, Hpv, <- bind_assoc.
    erewrite bind_some by exact Hrun. cbv beta. mstep. erewrite wr_some by mlookup.
    sget. rewrite insert_insert_eq. by destruct w. }
  split_and!; try done; [|by unfold w'; sget; apply lookup_insert_eq].
  apply (work_inv_relist w w' port (l1 ++ a :: l2)); try done.
  - exists p'. split; [unfold w'; sget; apply lookup_insert_eq|]. split; [done|].
    unfold w'; sget. apply dlist_insert_ne; [set_solver|]. by eapply dlist_unlink.
  - intros x Hx. eapply live_owner; [done|done|set_solver].
  - intros x [Hx|Hx]; [apply HsR in Hx as Hx'|apply HsO in Hx as Hx'];
      (assert (x <> a) by (by intros ->)); set_solver.
Qed.

(** ** A concrete port *)

(** Three live registrations: 10 and 12 wait to be re-armed (12 with a
    hold-off), 11 has fired. *)
Definition work_sock (next prev : ptr) : ep_sock :=
  zero_sock <| s_port := Some 1%positive |> <| s_next := next |> <| s_prev := prev |>.
Definition work_world : world :=
  empty_world
  <| w_ports := {[ 1%positive := zero_port <| p_sock_list_head := Some 12%positive |>
       <| p_rearm_head := Some 10%positive |> <| p_rearm_tail := Some 12%positive |>
       <| p_needs_rearm_count := 2 |> <| p_oneshot_head := Some 11%positive |>
       <| p_oneshot_tail := Some 11%positive |> <| p_oneshot_fired_count := 1 |> ]} |>
  <| w_socks := {[
       12%positive := (work_sock (Some 11%positive) NULL) <| s_needs_rearm := true |>
         <| s_rearm_prev := Some 10%positive |> <| s_et_holdoff := true |>;
       11%positive := (work_sock (Some 10%positive) (Some 12%positive)) <| s_oneshot_fired := true |>;
       10%positive := (work_sock NULL (Some 11%positive)) <| s_needs_rearm := true |>
         <| s_rearm_next := Some 12%positive |> ]} |>.

Lemma work_world_socks a s :
  w_socks work_world !! a = Some s -> a = 12%positive \/ a = 11%positive \/ a = 10%positive.
Proof.
  unfold work_world. sget. rewrite !lookup_insert_Some, lookup_singleton_Some. naive_solver.
Qed.

(** Evaluate a fact about every registration of the example. *)
Ltac each_sock H :=
  destruct (work_world_socks _ _ H) as [-> | [-> | ->]]; vm_compute in H; injection H as <-.

Lemma dlist_check nx pv (h : gmap addr ep_sock) l :
  NoDup l -> Forall (fun i => link nx h (nth i l 1%positive) = Some (l !! S i) /\
     link pv h (nth i l 1%positive) = Some (match i with O => NULL | S j => l !! j end)) (seq 0 (length l)) ->
  dlist nx pv h l.
Proof.
  intros Hnd Hall. split; [done|]. intros i a Hi. rewrite Forall_forall in Hall.
  destruct (Hall i) as [Hn Hp]; [apply elem_of_seq; apply lookup_lt_Some in Hi; lia|].
  rewrite (nth_lookup_Some _ _ _ _ Hi) in Hn, Hp. split; [done|]. rewrite Hp. by destruct i.
Qed.

Ltac check_dlist :=
  apply dlist_check;
  [ repeat (apply NoDup_cons; split; [set_solver|]); constructor
  | repeat (apply Forall_cons; split; [vm_compute; by split|]); constructor ].

Lemma work_world_inv :
  work_inv work_world 1 [12; 11; 10]%positive [10; 12]%positive [11]%positive.
Proof.
  split.
  - eexists. split_and!; [reflexivity|done|check_dlist].
  - intros a Ha. repeat (apply elem_of_cons in Ha as [->|Ha]; [eexists; split; reflexivity|]).
    by apply elem_of_nil in Ha.
  - split.
    + eexists. split; [split_and!; [reflexivity|done|done|check_dlist]|done].
    + intros a Ha. repeat (apply elem_of_cons in Ha as [->|Ha]; [eexists; split; reflexivity|]).
      by apply elem_of_nil in Ha.
    + intros a s Hs _. each_sock Hs; reflexivity.
    + intros a s Hs _ Ha. each_sock Hs; try done; exfalso; set_solver.
  - split.
    + eexists. split; [split_and!; [reflexivity|done|done|check_dlist]|done].
    + intros a Ha. repeat (apply elem_of_cons in Ha as [->|Ha]; [eexists; split; reflexivity|]).
      by apply elem_of_nil in Ha.
    + intros a s Hs _. each_sock Hs; reflexivity.
    + intros a s Hs _ Ha. each_sock Hs; try done; exfalso; set_solver.
  - set_solver.
  - set_solver.
  - set_solver.
  - intros a s Hs Hd. each_sock Hs; done.
  - vm_compute. done.
Qed.

Lemma set_needs_rearm_exact_witness : exists w',
  ep_sock_set_needs_rearm_locked (Some 10%positive) false work_world = Some (tt, w') /\
  work_inv w' 1 [12; 11; 10]%positive [12]%positive [11]%positive.
Proof.
  destruct (set_needs_rearm_exact _ _ _ _ _ 10 false work_world_inv) as (w' & Hr & HI & _);
    [set_solver|done|]. by exists w'.
Defined.

Lemma restore_worklist_exact_witness : exists w',
  ep_sock_restore_worklist_state_locked (Some 11%positive) true false work_world = Some (tt, w') /\
  work_inv w' 1 [12; 11; 10]%positive [10; 12; 11]%positive []%positive.
Proof.
  destruct (restore_worklist_exact _ _ _ _ _ 11 true false work_world_inv) as (w' & Hr & HI);
    [set_solver|done| |by exists w'].
  intros _ s Hs. vm_compute in Hs. by injection Hs as <-.
Defined.

Lemma rearm_rotate_fair_witness : exists w',
  ep_rearm_list_rotate_locked (Some 1%positive) (Some 10%positive) work_world = Some (tt, w') /\
  work_inv w' 1 [12; 11; 10]%positive [12; 10]%positive [11]%positive.
Proof. exact (rearm_rotate_fair _ _ _ _ _ _ work_world_inv). Defined.

Lemma worklists_checker_accepts_witness :
  ep_port_worklists_valid_locked (Some 1%positive) work_world = Some (true, work_world).
Proof. exact (worklists_checker_accepts _ _ _ _ _ work_world_inv). Defined.

Lemma release_deferred_exact_witness : exists h',
  ep_port_release_deferred_rearms_locked (Some 1%positive) work_world =
    Some (tt, work_world <| w_socks := h' |>) /\ released [10; 12]%positive (w_socks work_world) h'.
Proof.
  destruct (release_deferred_exact _ _ _ _ _ work_world_inv) as (h' & Hr & Hx & _). by exists h'.
Defined.

(** Take 10 off its work list, then unlink it. *)
Lemma sock_list_remove_exact_witness : exists w1 w2,
  ep_sock_set_needs_rearm_locked (Some 10%positive) false work_world = Some (tt, w1) /\
  ep_sock_list_remove_locked (Some 1%positive) (Some 10%positive) w1 = Some (tt, w2) /\
  work_inv w2 1 [12; 11]%positive [12]%positive [11]%positive.
Proof.
  destruct (set_rearm_spec _ _ _ _ _ 10 false work_world_inv) as (w1 & Hr & HI & _);
    [set_solver|done|].
  destruct (sock_list_remove_exact w1 1 [12; 11]%positive 10 [] [12]%positive [11]%positive)
    as (w2 & s' & Hr2 & HI2 & _); [exact HI|set_solver|set_solver|]. by exists w1, w2.
Defined.

(** The checker rejects a flag without its list entry. *)
Example worklists_checker_rejects :
  result (ep_port_worklists_valid_locked (Some 1%positive))
    (exec (wr w_socks (Some 11%positive) s_needs_rearm true) work_world) = Some false.
Proof. vm_compute. reflexivity. Qed.
