(* ===== verification/Quiet.v ===== *)
(** * Quiet effects

    Reporting an error, asking the platform and checking a fault point change
    only the error channel, the trace of platform calls and the fault counters.
    [quiet] names that frame once for every component. *)
From S2P Require Import Prelude Codes Types Errno Fault.

(** [w'] is [w] up to the error channel, the trace and the fault counters. *)
Definition quiet (w w' : world) : Prop :=
  exists e i sl tr, w' = w <| w_errno := e |> <| w_last_error := i |>
                          <| w_fault_slots := sl |> <| w_trace := tr |>.

#[export] Instance quiet_preorder : PreOrder quiet.
Proof.
  split.
  - intros w. exists (w_errno w), (w_last_error w), (w_fault_slots w), (w_trace w). by destruct w.
  - intros w1 w2 w3 (e1 & i1 & sl1 & tr1 & ->) (e2 & i2 & sl2 & tr2 & ->).
    by exists e2, i2, sl2, tr2.
Qed.

Lemma quiet_refl w : quiet w w.
Proof. reflexivity. Qed.

(** What a quiet effect keeps. *)
Section Keeps.
Context (w w' : world) (Hq : quiet w w').
Lemma quiet_socks : w_socks w' = w_socks w.
Proof. by destruct Hq as (? & ? & ? & ? & ->). Qed.
Lemma quiet_ports : w_ports w' = w_ports w.
Proof. by destruct Hq as (? & ? & ? & ? & ->). Qed.
Lemma quiet_groups : w_groups w' = w_groups w.
Proof. by destruct Hq as (? & ? & ? & ? & ->). Qed.
Lemma quiet_poll_keys : w_poll_keys w' = w_poll_keys w.
Proof. by destruct Hq as (? & ? & ? & ? & ->). Qed.
Lemma quiet_pools : w_pools w' = w_pools w.
Proof. by destruct Hq as (? & ? & ? & ? & ->). Qed.
Lemma quiet_os : w_os w' = w_os w.
Proof. by destruct Hq as (? & ? & ? & ? & ->). Qed.
End Keeps.

Lemma quiet_errno w e : quiet w (w <| w_errno := e |>).
Proof. exists e, (w_last_error w), (w_fault_slots w), (w_trace w). by destruct w. Qed.
Lemma quiet_trace w tr : quiet w (w <| w_trace := tr |>).
Proof. exists (w_errno w), (w_last_error w), (w_fault_slots w), tr. by destruct w. Qed.
Lemma quiet_error w e i : quiet w (w <| w_errno := e |> <| w_last_error := i |>).
Proof. exists e, i, (w_fault_slots w), (w_trace w). by destruct w. Qed.

Lemma quiet_call w w1 r : quiet w w1 -> quiet w (w1 <| w_trace ::= cons r |>).
Proof. intros Hq. etrans; [exact Hq|]. apply (quiet_trace w1 (r :: w_trace w1)). Qed.
Lemma quiet_fail w w1 e i : quiet w w1 -> quiet w (w1 <| w_errno := e |> <| w_last_error := i |>).
Proof. intros Hq. etrans; [exact Hq|]. apply quiet_error. Qed.

Create HintDb quiet.
#[export] Hint Resolve quiet_refl quiet_errno quiet_trace quiet_error quiet_call quiet_fail : quiet.

(** A platform call. *)
Lemma wp_os r (Q : Z -> world -> Prop) w :
  Q (w_os w (w_trace w) r) (w <| w_trace ::= cons r |>) -> wp (os r) Q w.
Proof. intros HQ. by eexists _, _. Qed.
Lemma wp_del {R} (H : world -> gmap addr R) `{!Setter H} a r (Q : unit -> world -> Prop) w :
  H w !! a = Some r -> Q tt (w <| H := delete a (H w) |>) -> wp (del H (Some a)) Q w.
Proof. intros Ha HQ. eapply wp_run; [by eapply del_some|done]. Qed.
Lemma wp_alloc {R} (H : world -> gmap addr R) `{!Setter H} size r (Q : ptr -> world -> Prop) w :
  (forall u, H (set w_trace u w) = H w) ->
  (forall tr, Q NULL (w <| w_trace := tr |>)) ->
  (forall tr a, H w !! a = None -> Q (Some a) (w <| w_trace := tr |> <| H := <[a := r]> (H w) |>)) ->
  wp (alloc H size r) Q w.
Proof.
  intros HH H1 H2. destruct (alloc_cases H size r w HH) as (tr & [Hr|(a & Ha & Hr)]); (eapply wp_run; [exact Hr|]); auto.
Qed.

(** Symbolic execution against a postcondition: one action, all actions up to
    the next branch or call, and a branch on a boolean. *)
Ltac wstep :=
  lazymatch goal with
  | |- wp (bind _ _) _ _ => apply wp_bind
  | |- wp (ret _) _ _ => apply wp_ret
  | |- wp (get _) _ _ => apply wp_get
  | |- wp (put _ _) _ _ => apply wp_put
  | |- wp (rd _ _ _) _ _ => eapply wp_rd; [mlookup|]
  | |- wp (wr _ _ _ _) _ _ => eapply wp_wr; [mlookup|]; sget; scollapse
  | |- wp (os _) _ _ => apply wp_os
  end; cbv beta; sget.
Ltac wsteps := repeat wstep.
Ltac wif :=
  match goal with |- wp (if ?b then _ else _) _ _ => destruct b eqn:? end.

Lemma os_quiet r w : wp (os r) (fun _ w' => quiet w w') w.
Proof. apply wp_os. apply (quiet_trace w (r :: w_trace w)). Qed.

Lemma set_errno_quiet e w :
  wp (ep_set_errno e) (fun _ w' => quiet w w' /\ w_errno w' = e) w.
Proof. eexists _, _. split; [reflexivity|]. split; [apply quiet_error|done]. Qed.

Lemma fault_hit_quiet point w :
  wp (ep_fault_hit point) (fun r w' => quiet w w' /\ (r = 0 \/ r = -1)) w.
Proof.
  destruct (fault_hit_frame point w) as (r & e & i & sl & Hr & Hc).
  eexists _, _. split; [exact Hr|]. split; [|done].
  exists e, i, sl, (w_trace w). by destruct w.
Qed.

Lemma set_native_error_quiet pe d c w :
  wp (ep_set_native_error pe d c) (fun _ w' => quiet w w' /\ w_errno w' = pe) w.
Proof. eexists _, _. split; [reflexivity|]. split; [apply quiet_error|done]. Qed.

Lemma set_win32_error_quiet e w :
  wp (ep_set_win32_error e) (fun _ w' => quiet w w' /\ w_errno w' = ep_winerr_to_errno e) w.
Proof. unfold ep_set_win32_error. cbv zeta. apply set_native_error_quiet. Qed.

Lemma set_winsock_error_quiet e w :
  wp (ep_set_winsock_error e) (fun _ w' => quiet w w' /\ w_errno w' = ep_winerr_to_errno e) w.
Proof. eexists _, _. split; [reflexivity|]. split; [apply quiet_error|done]. Qed.

Lemma set_ntstatus_error_quiet s w :
  wp (ep_set_ntstatus_error s) (fun _ w' => quiet w w') w.
Proof.
  unfold ep_set_ntstatus_error, ep_status_to_errno, ep_ntstatus_to_winerr.
  apply wp_bind, wp_bind, wp_bind, wp_get. destruct (w_rtl_resolved w); cbn [negb].
  - apply wp_bind, wp_os. do 2 apply wp_ret. eapply wp_mono; [apply set_native_error_quiet|].
    intros _ w' [Hq _]. etrans; [|exact Hq]. apply (quiet_trace w (_ :: w_trace w)).
  - do 2 apply wp_ret. eapply wp_mono; [apply set_native_error_quiet|]. by intros _ w' [Hq _].
Qed.

Lemma fault_hit_through_quiet point w :
  wp (ep_fault_hit_through point) (fun _ w' => quiet w w') w.
Proof.
  unfold ep_fault_hit_through, fault_count_hit, fault_slot, put_fault_slot, ep_set_errno.
  destruct (ep_fault_point_valid point); cbn [negb]; wsteps; [wif; wsteps|]; try wif; wsteps.
  all: lazymatch goal with |- quiet ?w0 ?w1 =>
         first [ reflexivity
               | exists (w_errno w1), (w_last_error w1), (w_fault_slots w1), (w_trace w1); by destruct w0 ] end.
Qed.

(** ** Actions that are quiet by construction *)

(** An action that returns from every state and has only quiet effects.  The
    instances cover the primitive actions; [quieted] follows the syntax of a
    composite one down to them. *)
Class QuietAction {A} (m : MW A) : Prop := quiet_action w : wp m (fun _ w' => quiet w w') w.
#[export] Hint Mode QuietAction - ! : typeclass_instances.
#[export] Hint Opaque bind ret get put os ep_set_errno ep_last_err ep_fault_hit ep_fault_hit_through
  ep_set_native_error ep_set_win32_error ep_set_winsock_error ep_set_ntstatus_error
  ep_get_last_error_info ep_restore_last_error_info ep_winerr_to_errno : typeclass_instances.

Section Instances.
Context {A B : Type}.
#[export] Instance ret_quiet (a : A) : QuietAction (ret a).
Proof. intros w. apply wp_ret, quiet_refl. Qed.
Lemma bind_quiet (m : MW A) (k : A -> MW B) :
  QuietAction m -> (forall a, QuietAction (k a)) -> QuietAction (bind m k).
Proof.
  intros Hm Hk w. eapply wp_seq; [apply Hm|]. intros a w1 Hq. eapply wp_mono; [apply Hk|].
  intros b w2 Hq2. etrans; [exact Hq|exact Hq2].
Qed.
#[export] Instance get_quiet (f : world -> A) : QuietAction (get f).
Proof. intros w. apply wp_get, quiet_refl. Qed.
End Instances.

#[export] Instance os_quiet_action r : QuietAction (os r).
Proof. intros w. apply os_quiet. Qed.
#[export] Instance fault_hit_quiet_action point : QuietAction (ep_fault_hit point).
Proof. intros w. eapply wp_mono; [apply fault_hit_quiet|]. by intros ? ? [? _]. Qed.
#[export] Instance fault_hit_through_quiet_action point : QuietAction (ep_fault_hit_through point).
Proof. intros w. apply fault_hit_through_quiet. Qed.
#[export] Instance set_errno_quiet_action e : QuietAction (ep_set_errno e).
Proof. intros w. eapply wp_mono; [apply set_errno_quiet|]. by intros ? ? [? _]. Qed.
#[export] Instance last_err_quiet : QuietAction ep_last_err.
Proof. unfold ep_last_err. apply _. Qed.
#[export] Instance set_win32_error_quiet_action e : QuietAction (ep_set_win32_error e).
Proof. intros w. eapply wp_mono; [apply set_win32_error_quiet|]. by intros ? ? [? _]. Qed.
#[export] Instance set_winsock_error_quiet_action e : QuietAction (ep_set_winsock_error e).
Proof. intros w. eapply wp_mono; [apply set_winsock_error_quiet|]. by intros ? ? [? _]. Qed.
#[export] Instance set_ntstatus_error_quiet_action s : QuietAction (ep_set_ntstatus_error s).
Proof. intros w. apply set_ntstatus_error_quiet. Qed.

#[export] Instance get_last_error_info_quiet : QuietAction ep_get_last_error_info.
Proof.
  intros w. unfold ep_get_last_error_info. wsteps. apply quiet_refl.
Qed.
#[export] Instance restore_last_error_info_quiet i : QuietAction (ep_restore_last_error_info i).
Proof.
  intros w. unfold ep_restore_last_error_info. wsteps.
  exists (ei_portable_error i), i, (w_fault_slots w), (w_trace w). by destruct w.
Qed.

Ltac quieted_step :=
  lazymatch goal with
  | |- QuietAction (bind _ _) => notypeclasses refine (@bind_quiet _ _ _ _ _ _); [|intros ?]
  | |- QuietAction (if ?b then _ else _) => destruct b
  | |- QuietAction (let '(_, _) := ?p in _) => destruct p
  | |- QuietAction (match ?o with _ => _ end) => destruct o
  | |- QuietAction _ => typeclasses eauto
  end.
Ltac quieted := repeat (quieted_step; cbv zeta).

(** ** Actions that keep an invariant and stay within a frame *)

(** From a state satisfying [I] the action returns, keeps [I] and relates the
    states by [R]. *)
Class Framed (I : world -> Prop) (R : relation world) {A} (m : MW A) : Prop :=
  framed w : I w -> wp m (fun _ w' => I w' /\ R w w') w.
#[export] Hint Mode Framed ! ! - ! : typeclass_instances.

(** Quiet effects keep the invariant and are within the frame. *)
Class QuietWithin (I : world -> Prop) (R : relation world) : Prop :=
  quiet_within w w' : quiet w w' -> I w -> I w' /\ R w w'.

Section FramedInstances.
Context (I : world -> Prop) (R : relation world) `{HR : !PreOrder R} `{HQ : !QuietWithin I R}
  {A B : Type}.
#[export] Instance quiet_framed (m : MW A) : QuietAction m -> Framed I R m | 50.
Proof.
  intros Hm w Hw. eapply wp_mono; [apply Hm|]. intros a w' Hq. by apply quiet_within.
Qed.
Lemma bind_framed (m : MW A) (k : A -> MW B) :
  Framed I R m -> (forall a, Framed I R (k a)) -> Framed I R (bind m k).
Proof.
  intros Hm Hk w Hw. eapply wp_seq; [by apply Hm|]. intros a w1 [H1 Hr1].
  eapply wp_mono; [by apply Hk|]. intros b w2 [H2 Hr2]. split; [done|]. etrans; [exact Hr1|exact Hr2].
Qed.
End FramedInstances.

(** Follow the syntax of an action down to its leaves, and resolve those. *)
Ltac framed_step :=
  lazymatch goal with
  | |- Framed _ _ (bind _ _) => notypeclasses refine (@bind_framed _ _ _ _ _ _ _ _ _); [typeclasses eauto| |intros ?]
  | |- Framed _ _ (if ?b then _ else _) => destruct b
  | |- Framed _ _ (let '(_, _) := ?p in _) => destruct p
  | |- Framed _ _ (match ?o with _ => _ end) => destruct o
  | |- Framed _ _ _ => typeclasses eauto
  end.
Ltac framed := repeat (framed_step; cbv zeta).

(** ** Actions with a result *)

(** [Framed], and the result satisfies [P] in the final state. *)
Definition ensures (I : world -> Prop) (R : relation world) {A} (P : A -> world -> Prop) (m : MW A) : Prop :=
  forall w, I w -> wp m (fun r w' => I w' /\ R w w' /\ P r w') w.

Section Ensures.
Context (I : world -> Prop) (R : relation world) `{HR : !PreOrder R} {A B : Type}.
Lemma ensures_ret (P : A -> world -> Prop) a : (forall w, I w -> P a w) -> ensures I R P (ret a).
Proof. intros HP w Hw. apply wp_ret. split_and!; [done|reflexivity|by apply HP]. Qed.
Lemma ensures_seq (P : A -> Prop) (Q : B -> world -> Prop) m k :
  ensures I R (fun a _ => P a) m -> (forall a, P a -> ensures I R Q (k a)) -> ensures I R Q (bind m k).
Proof.
  intros Hm Hk w Hw. eapply wp_seq; [by apply Hm|]. intros a w1 (H1 & Hr1 & HP).
  eapply wp_mono; [by apply (Hk a)|]. intros b w2 (H2 & Hr2 & HQ). split_and!; [done| |done].
  etrans; [exact Hr1|exact Hr2].
Qed.
Lemma ensures_framed (m : MW A) : Framed I R m -> ensures I R (fun _ _ => True) m.
Proof. intros Hm w Hw. eapply wp_mono; [by apply Hm|]. by intros a w' [? ?]. Qed.
Lemma ensures_bind (Q : B -> world -> Prop) (m : MW A) k :
  Framed I R m -> (forall a, ensures I R Q (k a)) -> ensures I R Q (bind m k).
Proof. intros Hm Hk. eapply ensures_seq; [by apply ensures_framed|]. intros a _. apply Hk. Qed.
Lemma ensures_mono (P Q : A -> world -> Prop) m :
  ensures I R P m -> (forall a w, P a w -> Q a w) -> ensures I R Q m.
Proof.
  intros Hm HPQ w Hw. eapply wp_mono; [by apply Hm|]. intros a w' (? & ? & ?). split_and!; auto.
Qed.
End Ensures.

Ltac ensuring_step :=
  cbv zeta; match goal with
  | |- ensures _ _ _ (bind _ _) => apply ensures_bind; [typeclasses eauto|typeclasses eauto|intros ?]
  | |- ensures _ _ _ (if ?b then _ else _) => destruct b eqn:?
  | |- ensures _ _ _ (match ?o with _ => _ end) => destruct o eqn:?
  | |- ensures _ _ _ (ret _) => apply ensures_ret; [typeclasses eauto|]
  end.
Ltac ensuring := repeat ensuring_step.
(** A call with a known result; the same for every call a lemma applies to. *)
Tactic Notation "after" uconstr(lem) := eapply ensures_seq; [typeclasses eauto|apply lem|].
Ltac ensuring_with lem := repeat first [after lem; intros ? ? | ensuring_step].
