(* ===== verification/Timeout.v ===== *)
(** * Timeouts and clocks

    Conversion of the public timeouts, the delivery timestamp and the deadline
    of one wait ([src/wepoll_ex_port.c], 2110-2196 and 6107-6246). *)
From S2P Require Import Prelude Codes Types Errno.

Definition EP_100NS_PER_MILLISECOND : Z := 10000.
Definition INFINITE : Z := UINT32_MAX.
Definition EP_MAX_FINITE_IOCP_WAIT_MS : Z := INFINITE - 1.

(** [ep_wait_timeout_t] and [struct timespec]. *)
Record ep_wait_timeout := mk_wait_timeout {
  t_milliseconds : Z;
  t_intervals_100ns : Z;
  t_infinite : bool;
  t_precise : bool
}.
Record timespec := mk_timespec { tv_sec : Z; tv_nsec : Z }.

Definition ep_saturating_mul_add_u64 (value multiplier addend : Z) : Z :=
  if u64 (UINT64_MAX - addend) / multiplier <? value then UINT64_MAX
  else u64 (u64 (value * multiplier) + addend).

Definition ep_wait_timeout_from_milliseconds (timeout_ms : Z) : ep_wait_timeout :=
  if timeout_ms <? 0 then mk_wait_timeout 0 0 true false
  else mk_wait_timeout timeout_ms (u64 (timeout_ms * EP_100NS_PER_MILLISECOND)) false false.

(** [out] says whether [timeout] is not NULL; the second result is the stored
    value of [*timeout]. *)
Definition ep_wait_timeout_from_timespec (ts : option timespec) (out : bool)
    : MW (Z * ep_wait_timeout) :=
  let zeroed := mk_wait_timeout 0 0 false false in
  if negb out then ep_set_errno EFAULT ;; ret (-1, zeroed)
  else match ts with
  | None => ret (0, mk_wait_timeout 0 0 true false)
  | Some ts =>
    if (tv_sec ts <? 0) || (tv_nsec ts <? 0) || (1000000000 <=? tv_nsec ts)
    then ep_set_errno EINVAL ;; ret (-1, zeroed)
    else
      let seconds := u64 (tv_sec ts) in
      let millis_remainder := (u64 (tv_nsec ts) + 999999) / 1000000 in
      let intervals_remainder := (u64 (tv_nsec ts) + 99) / 100 in
      let milliseconds := ep_saturating_mul_add_u64 seconds 1000 millis_remainder in
      let intervals_fit := seconds <=? u64 (UINT64_MAX - intervals_remainder) / 10000000 in
      let intervals := ep_saturating_mul_add_u64 seconds 10000000 intervals_remainder in
      ret (0, mk_wait_timeout milliseconds intervals false intervals_fit)
  end.

(** The counter is a non-negative LARGE_INTEGER; a negative answer stands for a
    failed call. *)
Definition ep_now_ns (port : ptr) : MW Z :=
  frequency <- rd w_ports port p_qpc_frequency ;;
  if frequency <=? 0 then ret 0
  else
    counter <- os QueryPerformanceCounter ;;
    if counter <? 0 then ret 0
    else
      let seconds := u64 (counter / frequency) in
      let remainder := u64 (counter mod frequency) in
      ret (u64 (u64 (seconds * 1000000000) + u64 (remainder * 1000000000) / u64 frequency)).

(** ** The deadline of one wait *)

Record ep_wait_state := mk_wait_state {
  ws_timeout : ep_wait_timeout;
  ws_start_ms : Z;
  ws_start_100ns : Z;
  ws_timeout_generation : Z;
  ws_precise_clock : bool;
  ws_precise_enabled : bool;
  ws_precise_attempted : bool
}.

Definition ep_wait_state_initialize (port : ptr) (timeout : ep_wait_timeout) : MW ep_wait_state :=
  start_ms <- os GetTickCount64 ;;
  query <- rd w_ports port p_query_precise ;;
  if t_precise timeout && negb (t_infinite timeout) &&
     negb (t_intervals_100ns timeout =? 0) && query
  then
    now <- os QueryUnbiasedInterruptTimePrecise ;;
    ret (mk_wait_state timeout (u64 start_ms) (u64 now) 0 true false false)
  else ret (mk_wait_state timeout (u64 start_ms) 0 0 false false false).

(** [elapsed >= total ? 0 : total - elapsed]. *)
Definition remaining_of (total now start : Z) : Z :=
  let elapsed := u64 (now - start) in
  if total <=? elapsed then 0 else total - elapsed.

Definition ep_wait_remaining_100ns (state : ep_wait_state) : MW Z :=
  now <- os QueryUnbiasedInterruptTimePrecise ;;
  ret (remaining_of (t_intervals_100ns (ws_timeout state)) (u64 now) (ws_start_100ns state)).

Definition ep_wait_remaining_milliseconds (state : ep_wait_state) : MW Z :=
  if ws_precise_enabled state then
    now <- os QueryUnbiasedInterruptTimePrecise ;;
    let remaining :=
      remaining_of (t_intervals_100ns (ws_timeout state)) (u64 now) (ws_start_100ns state) in
    ret (remaining / EP_100NS_PER_MILLISECOND +
         if negb (remaining mod EP_100NS_PER_MILLISECOND =? 0) then 1 else 0)
  else
    now <- os GetTickCount64 ;;
    ret (remaining_of (t_milliseconds (ws_timeout state)) (u64 now) (ws_start_ms state)).

Definition ep_wait_expired (state : ep_wait_state) : MW bool :=
  if t_infinite (ws_timeout state) then ret false
  else remaining <- ep_wait_remaining_milliseconds state ;; ret (remaining =? 0).

Definition ep_wait_backstop_milliseconds (state : ep_wait_state) : MW Z :=
  if t_infinite (ws_timeout state) then ret INFINITE
  else
    remaining <- ep_wait_remaining_milliseconds state ;;
    if EP_MAX_FINITE_IOCP_WAIT_MS <? remaining then ret EP_MAX_FINITE_IOCP_WAIT_MS
    else ret (u32 remaining).

(** The [for (;;)] of [ep_wait_lock_acquire]; [stuck] when the fuel runs out. *)
Fixpoint wait_lock_loop (fuel : nat) (port : ptr) (state : ep_wait_state) (first_attempt : bool)
    : MW Z :=
  match fuel with
  | O => stuck
  | S fuel =>
    let ms := t_milliseconds (ws_timeout state) in
    expired <-
      (if negb first_attempt && negb (ms =? 0) then
         now <- os GetTickCount64 ;; ret (ms <=? u64 (now - ws_start_ms state))
       else ret false) ;;
    if expired then ret 0
    else
      lock_result <- os PthreadMutexTrylock ;;
      if lock_result =? 0 then ret 1
      else if negb (lock_result =? EBUSY) then ep_set_errno lock_result ;; ret (-1)
      else
        closing <- rd w_ports port p_closing ;;
        if closing then
          post_error <- rd w_ports port p_iocp_post_error ;;
          ep_set_errno (if negb (post_error =? 0) then post_error else EBADF) ;; ret (-1)
        else if ms =? 0 then ret 0
        else
          now <- os GetTickCount64 ;;
          if ms <=? u64 (now - ws_start_ms state) then ret 0
          else os (Sleep 1) ;; wait_lock_loop fuel port state false
  end.

Definition ep_wait_lock_acquire (fuel : nat) (port : ptr) (state : ep_wait_state) : MW Z :=
  if t_infinite (ws_timeout state) then
    lock_result <- os PthreadMutexLock ;;
    if negb (lock_result =? 0) then ep_set_errno lock_result ;; ret (-1) else ret 1
  else wait_lock_loop fuel port state true.

(** ** Conversions *)

Lemma u64_max_sub a : 0 <= a <= UINT64_MAX -> u64 (UINT64_MAX - a) = UINT64_MAX - a.
Proof. intros. apply u64_small. unfold UINT64_MAX in *. lia. Qed.

(** Saturating arithmetic is exact arithmetic cut off at the largest value. *)
Lemma saturating_exact value multiplier addend :
  0 <= value < 2 ^ 64 -> 0 < multiplier -> 0 <= addend <= UINT64_MAX ->
  ep_saturating_mul_add_u64 value multiplier addend =
    Z.min UINT64_MAX (value * multiplier + addend) /\
  ((value <=? u64 (UINT64_MAX - addend) / multiplier) =
     (value * multiplier + addend <=? UINT64_MAX)).
Proof.
  intros Hv Hm Ha. unfold ep_saturating_mul_add_u64. rewrite u64_max_sub by done.
  pose proof (Z.mul_div_le (UINT64_MAX - addend) multiplier Hm) as Hhi.
  destruct (Z.leb_spec value ((UINT64_MAX - addend) / multiplier)) as [Hle|Hgt].
  - assert (value * multiplier + addend <= UINT64_MAX) by nia.
    rewrite (proj2 (Z.ltb_ge _ _)), (proj2 (Z.leb_le _ _)) by done. split; [|done].
    assert (0 <= value * multiplier) by nia. unfold UINT64_MAX in *.
    rewrite (u64_small (value * multiplier)), u64_small by lia. lia.
  - pose proof (Z.mul_succ_div_gt (UINT64_MAX - addend) multiplier Hm) as Hs.
    assert (UINT64_MAX < value * multiplier + addend) by nia.
    rewrite (proj2 (Z.ltb_lt _ _)), (proj2 (Z.leb_gt _ _)) by done. split; [lia|done].
Qed.

(** Rounding up to a unit of [d]. *)
Lemma ceil_bounds n d : 0 < d -> n <= (n + (d - 1)) / d * d < n + d.
Proof. intros Hd. pose proof (Z.div_mod (n + (d - 1)) d). pose proof (Z.mod_pos_bound (n + (d - 1)) d Hd). nia. Qed.

(** C36: a valid timespec converts without error to milliseconds and 100 ns
    intervals that are never shorter than the request and longer by less than
    one unit; a value that does not fit saturates, and the precise deadline is
    used only when its interval count is exact. *)
Theorem timespec_never_early ts w :
  0 <= tv_sec ts < 2 ^ 63 -> 0 <= tv_nsec ts < 1000000000 ->
  exists t, ep_wait_timeout_from_timespec (Some ts) true w = Some ((0, t), w) /\
    t_infinite t = false /\
    let ns := tv_sec ts * 1000000000 + tv_nsec ts in
    (t_milliseconds t = UINT64_MAX \/ ns <= t_milliseconds t * 1000000 < ns + 1000000) /\
    (t_precise t = true -> ns <= t_intervals_100ns t * 100 < ns + 100) /\
    (t_precise t = false -> t_intervals_100ns t = UINT64_MAX) /\
    0 <= t_milliseconds t <= UINT64_MAX /\ 0 <= t_intervals_100ns t <= UINT64_MAX.
Proof.
  intros Hs Hn. unfold ep_wait_timeout_from_timespec. cbn [negb].
  rewrite (proj2 (Z.ltb_ge _ _)), (proj2 (Z.ltb_ge _ _)), (proj2 (Z.leb_gt _ _)) by lia.
  cbn [orb]. rewrite !u64_small by lia.
  pose proof (ceil_bounds (tv_nsec ts) 1000000 ltac:(lia)) as Hms.
  pose proof (ceil_bounds (tv_nsec ts) 100 ltac:(lia)) as H100.
  change (1000000 - 1) with 999999 in Hms. change (100 - 1) with 99 in H100.
  set (a := (tv_nsec ts + 999999) / 1000000) in *. set (b := (tv_nsec ts + 99) / 100) in *.
  destruct (saturating_exact (tv_sec ts) 1000 a) as [-> _]; [lia|lia|unfold UINT64_MAX; lia|].
  destruct (saturating_exact (tv_sec ts) 10000000 b) as [-> ->]; [lia|lia|unfold UINT64_MAX; lia|].
  eexists. split; [reflexivity|]. cbn [t_infinite t_milliseconds t_intervals_100ns t_precise].
  cbv zeta. unfold UINT64_MAX in *. destruct (Z.leb_spec (tv_sec ts * 10000000 + b) (2 ^ 64 - 1));
    split_and!; try done; lia.
Qed.

Lemma timespec_never_early_witness : exists t,
  ep_wait_timeout_from_timespec (Some (mk_timespec 1 1)) true empty_world = Some ((0, t), empty_world) /\
  1000000001 <= t_milliseconds t * 1000000.
Proof.
  destruct (timespec_never_early (mk_timespec 1 1) empty_world) as (t & Hr & _ & [E|H] & _);
    [cbn [tv_sec]; lia|cbn [tv_nsec]; lia| |].
  - exists t. split; [done|]. rewrite E. unfold UINT64_MAX. lia.
  - exists t. split; [done|]. cbn [tv_sec tv_nsec] in H. lia.
Defined.

(** ** The delivery timestamp *)

(** With a counter frequency below 2^64/10^9 and a counter that has run for
    less than 584 years the timestamp is the exact number of nanoseconds,
    rounded down: no intermediate product overflows. *)
Theorem now_ns_exact w port p counter :
  w_ports w !! port = Some p -> 0 < p_qpc_frequency p <= 18000000000 ->
  w_os w (w_trace w) QueryPerformanceCounter = counter ->
  0 <= counter -> counter / p_qpc_frequency p < 18000000000 ->
  ep_now_ns (Some port) w =
    Some (counter * 1000000000 / p_qpc_frequency p, w <| w_trace ::= cons QueryPerformanceCounter |>).
Proof.
  intros Hp Hf Hc H0 Hlim. unfold ep_now_ns. mstep.
  rewrite (proj2 (Z.leb_gt _ _)) by lia. unfold os at 1. mstep. rewrite Hc.
  rewrite (proj2 (Z.ltb_ge _ _)) by lia. unfold ret. do 2 f_equal.
  set (f := p_qpc_frequency p) in *.
  pose proof (Z.mod_pos_bound counter f ltac:(lia)) as Hm.
  pose proof (Z.div_mod counter f ltac:(lia)) as Hd.
  pose proof (Z.div_pos counter f H0 ltac:(lia)) as Hq.
  assert (Hr : (counter mod f * 1000000000) / f < 1000000000)
    by (apply Z.div_lt_upper_bound; nia).
  pose proof (Z.div_pos (counter mod f * 1000000000) f ltac:(nia) ltac:(lia)).
  assert (E : counter * 1000000000 / f = counter / f * 1000000000 + counter mod f * 1000000000 / f).
  { rewrite <- Z.div_add_l by lia. f_equal. rewrite Hd at 1. ring. }
  rewrite E, (u64_small f), (u64_small (counter / f)), (u64_small (counter mod f)) by lia.
  rewrite (u64_small (counter / f * 1000000000)), (u64_small (counter mod f * 1000000000)) by lia.
  apply u64_small. lia.
Qed.

Lemma now_ns_exact_witness :
  let w := empty_world <| w_ports := {[ 1%positive := zero_port <| p_qpc_frequency := 10000000 |> ]} |>
             <| w_os := fun _ _ => 25000001 |> in
  ep_now_ns (Some 1%positive) w = Some (2500000100, w <| w_trace ::= cons QueryPerformanceCounter |>).
Proof. intros w. by rewrite (now_ns_exact w 1 (zero_port <| p_qpc_frequency := 10000000 |>) 25000001). Defined.

(** ** Deadlines *)

Lemma remaining_bounds total now start : 0 <= total -> 0 <= remaining_of total now start <= total.
Proof.
  intros Ht. unfold remaining_of. pose proof (Z.mod_pos_bound (now - start) (2 ^ 64) ltac:(lia)).
  unfold wrap. destruct (Z.leb_spec total ((now - start) mod 2 ^ 64)); lia.
Qed.

Lemma remaining_zero total now start :
  remaining_of total now start = 0 <-> total <= u64 (now - start).
Proof. unfold remaining_of. destruct (Z.leb_spec total (u64 (now - start))); lia. Qed.

(** The IOCP timeout of a finite wait is never INFINITE and never longer
    than the time left, and it is zero exactly when the deadline has passed;
    only an infinite wait blocks without limit. *)
Theorem backstop_bounded w state :
  0 <= t_milliseconds (ws_timeout state) -> ws_precise_enabled state = false ->
  exists ms w', ep_wait_backstop_milliseconds state w = Some (ms, w') /\
    (ms = INFINITE <-> t_infinite (ws_timeout state) = true) /\
    (t_infinite (ws_timeout state) = false ->
       let elapsed := u64 (u64 (w_os w (w_trace w) GetTickCount64) - ws_start_ms state) in
       0 <= ms <= Z.max 0 (t_milliseconds (ws_timeout state) - elapsed) /\
       (ms = 0 <-> t_milliseconds (ws_timeout state) <= elapsed)).
Proof.
  intros Ht Hp. unfold ep_wait_backstop_milliseconds. destruct (t_infinite _) eqn:Ei.
  { do 2 eexists. split; [reflexivity|]. done. }
  unfold ep_wait_remaining_milliseconds. rewrite Hp. mstep. unfold os at 1. repeat mstep.
  set (now := u64 _). pose proof (remaining_bounds (t_milliseconds (ws_timeout state)) now (ws_start_ms state) Ht) as Hb.
  pose proof (remaining_zero (t_milliseconds (ws_timeout state)) now (ws_start_ms state)) as Hz.
  assert (Hr : remaining_of (t_milliseconds (ws_timeout state)) now (ws_start_ms state) =
    Z.max 0 (t_milliseconds (ws_timeout state) - u64 (now - ws_start_ms state))).
  { unfold remaining_of. destruct (Z.leb_spec (t_milliseconds (ws_timeout state)) (u64 (now - ws_start_ms state))); lia. }
  unfold EP_MAX_FINITE_IOCP_WAIT_MS, INFINITE, UINT32_MAX in *.
  match goal with |- context [if ?c then _ else _] => destruct c eqn:Ec end.
  - apply Z.ltb_lt in Ec. do 2 eexists. split; [reflexivity|].
    split; [split; [intros E|done]|intros _]; [lia|]. cbv zeta. lia.
  - apply Z.ltb_ge in Ec. do 2 eexists. split; [reflexivity|].
    match goal with |- context [u32 ?r] =>
      assert (Eu : u32 r = r) by (apply Z.mod_small; lia); rewrite Eu end.
    split; [split; [intros E|done]|intros _]; [lia|]. cbv zeta. lia.
Qed.

Lemma backstop_bounded_witness :
  let state := mk_wait_state (mk_wait_timeout 5 0 false false) 7 0 0 false false false in
  exists ms w', ep_wait_backstop_milliseconds state
    (empty_world <| w_os := fun _ _ => 10 |>) = Some (ms, w') /\ ms <= 2.
Proof.
  intros state. destruct (backstop_bounded (empty_world <| w_os := fun _ _ => 10 |>) state)
    as (ms & w' & Hr & _ & H); [cbn; lia|done|].
  exists ms, w'. split; [done|]. exact (proj2 (proj1 (H eq_refl))).
Defined.

(** ** Acquiring the wait lock *)

(** [os] advances the trace and keeps the oracle. *)
Lemma os_run r w :
  os r w = Some (w_os w (w_trace w) r, w <| w_trace ::= cons r |>).
Proof. done. Qed.

(** The clock has passed the deadline after every [n] calls or more. *)
Definition clock_passes (w : world) (state : ep_wait_state) (n : nat) : Prop :=
  forall tr, (n <= length tr)%nat ->
    t_milliseconds (ws_timeout state) <= u64 (w_os w tr GetTickCount64 - ws_start_ms state).

Definition lock_outcome (r : Z) (w' : world) : Prop :=
  r = 1 \/ r = 0 \/ (r = -1 /\ w_errno w' <> 0).

Lemma lock_loop_ends fuel w port p state first n :
  w_ports w !! port = Some p -> clock_passes w state n ->
  (n < fuel + length (w_trace w))%nat -> (0 < fuel)%nat ->
  exists r w', wait_lock_loop fuel (Some port) state first w = Some (r, w') /\ lock_outcome r w'.
Proof.
  intros Hp. revert w Hp first. induction fuel as [|fuel IH]; intros w Hp first Hc Hn Hf; [lia|].
  cbn [wait_lock_loop].
  assert (Hgo : forall w1, w_ports w1 !! port = Some p -> w_os w1 = w_os w ->
    (length (w_trace w) <= length (w_trace w1))%nat ->
    exists r w', (lock_result <- os PthreadMutexTrylock ;;
      if lock_result =? 0 then ret 1
      else if negb (lock_result =? EBUSY) then ep_set_errno lock_result ;; ret (-1)
      else
        closing <- rd w_ports (Some port) p_closing ;;
        if closing then
          post_error <- rd w_ports (Some port) p_iocp_post_error ;;
          ep_set_errno (if negb (post_error =? 0) then post_error else EBADF) ;; ret (-1)
        else if t_milliseconds (ws_timeout state) =? 0 then ret 0
        else
          now <- os GetTickCount64 ;;
          if t_milliseconds (ws_timeout state) <=? u64 (now - ws_start_ms state) then ret 0
          else os (Sleep 1) ;; wait_lock_loop fuel (Some port) state false) w1 = Some (r, w') /\
      lock_outcome r w').
  { intros w1 Hp1 Ho1 Ht1. rewrite (bind_some _ _ _ _ _ (os_run _ _)). cbv beta.
    destruct (Z.eqb_spec (w_os w1 (w_trace w1) PthreadMutexTrylock) 0) as [E0|E0];
      [do 2 eexists; split; [reflexivity|by left]|].
    match goal with |- context [negb ?b] => destruct b eqn:Eb; cbn [negb] end.
    2:{ do 2 eexists. split; [reflexivity|]. right; right. split; [done|]. done. }
    mstep. destruct (p_closing p).
    { mstep. do 2 eexists. split; [reflexivity|]. right; right. split; [done|].
      cbn. destruct (Z.eqb_spec (p_iocp_post_error p) 0); done. }
    destruct (t_milliseconds (ws_timeout state) =? 0); [do 2 eexists; split; [reflexivity|]; by right; left|].
    rewrite (bind_some _ _ _ _ _ (os_run _ _)). cbv beta.
    match goal with |- context [?a <=? ?b] => destruct (Z.leb_spec a b) as [Hle|Hgt] end.
    { do 2 eexists. split; [reflexivity|]. by right; left. }
    rewrite (bind_some _ _ _ _ _ (os_run _ _)). cbv beta.
    sget_in Hgt. rewrite Ho1 in Hgt.
    set (w2 := w1 <| w_trace ::= cons PthreadMutexTrylock |> <| w_trace ::= cons GetTickCount64 |>
                  <| w_trace ::= cons (Sleep 1) |>).
    assert (Hlen : length (w_trace w2) = (3 + length (w_trace w1))%nat) by done.
    assert (Hlt : (S (length (w_trace w1)) < n)%nat).
    { destruct (decide (n <= S (length (w_trace w1)))%nat) as [Hle|]; [|lia]. specialize (Hc (PthreadMutexTrylock :: w_trace w1) Hle).
      simpl in Hgt. lia. }
    apply (IH w2); [done|intros k Hk; unfold w2; sget; rewrite Ho1; by apply Hc|lia|lia]. }
  destruct (negb first && negb (t_milliseconds (ws_timeout state) =? 0)) eqn:Ef.
  - mstep. rewrite (bind_some _ _ _ _ _ (os_run _ _)). cbv beta. mstep.
    match goal with |- context [if ?c then _ else _] => destruct c end.
    { do 2 eexists. split; [reflexivity|]. by right; left. }
    apply Hgo; [done|done|simpl; lia].
  - mstep. cbv iota. by apply Hgo.
Qed.

(** Acquiring the wait lock is bounded: once the clock passes the deadline
    the loop ends, with the lock, with the timeout result, or with an error
    whose errno is set; a zero timeout makes a single attempt. *)
Theorem lock_acquire_bounded w port p state n :
  w_ports w !! port = Some p -> t_infinite (ws_timeout state) = false ->
  clock_passes w state n ->
  exists r w', ep_wait_lock_acquire (S n) (Some port) state w = Some (r, w') /\
    lock_outcome r w' /\
    (t_milliseconds (ws_timeout state) = 0 ->
       exists w'', ep_wait_lock_acquire 1 (Some port) state w = Some (r, w'')).
Proof.
  intros Hp Hi Hc. unfold ep_wait_lock_acquire. rewrite Hi.
  destruct (lock_loop_ends (S n) w port p state true n) as (r & w' & Hr & Ho); [done|done|lia|lia|].
  exists r, w'. split_and!; [done|done|]. intros Hz. exists w'. rewrite <- Hr. cbn [wait_lock_loop].
  rewrite Hz. change (0 =? 0) with true. cbn [negb andb]. repeat mstep. reflexivity.
Qed.

Lemma lock_acquire_bounded_witness :
  let state := mk_wait_state (mk_wait_timeout 5 0 false false) 0 0 0 false false false in
  let w := empty_world <| w_ports := {[ 1%positive := zero_port ]} |> <| w_os := fun _ _ => EBUSY |> in
  exists r w', ep_wait_lock_acquire 1 (Some 1%positive) state w = Some (r, w') /\ lock_outcome r w'.
Proof.
  intros state w.
  destruct (lock_acquire_bounded w 1 zero_port state 0) as (r & w' & Hr & Ho & _);
    [reflexivity|reflexivity| |by exists r, w'].
  intros k _. vm_compute. discriminate.
Defined.
