(* ===== verification/Iocp.v ===== *)
(** * Completion-port posts, wakes and the precise timer

    [src/wepoll_ex_port.c], 413-793 and 2000-2031: posting packets to the
    completion port, revoking posts, application wakes, auxiliary completions,
    the high-resolution deadline and deferred errors. *)
From S2P Require Import Prelude Codes Types Errno Fault Quiet Timeout.

Definition EP_WAKE_NONE : Z := 0.
Definition EP_WAKE_UNTAGGED : Z := 1.
Definition EP_WAKE_TAGGED : Z := 2.
Definition EP_TIMEOUT_CAPABILITY_UNKNOWN : Z := 0.
Definition EP_TIMEOUT_CAPABILITY_AVAILABLE : Z := 1.
Definition EP_TIMEOUT_CAPABILITY_UNAVAILABLE : Z := 2.
Definition INT64_MAX : Z := 2 ^ 63 - 1.

(** Returns [posted] and the error stored when the post failed. *)
Definition ep_port_post_iocp (port : ptr) (completion_key : Z) (ov : overlapped)
    (fault_point : ep_fault_point) : MW (bool * Z) :=
  handle <- rd w_ports port p_iocp_post_handle ;;
  if handle =? 0 then ret (false, ERROR_INVALID_HANDLE)
  else
    fault <- ep_fault_hit fault_point ;;
    if negb (fault =? 0) then ret (false, ERROR_GEN_FAILURE)
    else
      ok <- os (PostQueuedCompletionStatus handle completion_key ov) ;;
      if negb (ok =? 0) then ret (true, ERROR_SUCCESS)
      else
        error <- os GetLastError ;;
        ret (false, if u32 error =? ERROR_SUCCESS then ERROR_GEN_FAILURE else u32 error).

Definition ep_port_revoke_iocp_posts (port : ptr) : MW Z :=
  handle <- rd w_ports port p_iocp_post_handle ;;
  wr w_ports port p_iocp_post_handle 0 ;;
  closed <- rd w_ports port p_iocp_closed ;;
  wr w_ports port p_iocp_closed true ;;
  ret (if closed then 0 else handle).

Definition ep_port_fail_iocp_post (port : ptr) (win_error : Z) : MW unit :=
  closing <- rd w_ports port p_closing ;;
  if closing then ret tt
  else
    let error := ep_winerr_to_errno win_error in
    let error := if error <=? 0 then EIO else error in
    current <- rd w_ports port p_iocp_post_error ;;
    (if current =? 0 then wr w_ports port p_iocp_post_error error else ret tt) ;;
    failures <- rd w_ports port p_iocp_post_failures ;;
    wr w_ports port p_iocp_post_failures (u64 (failures + 1)) ;;
    wr w_ports port p_closing true ;;
    close_handle <- ep_port_revoke_iocp_posts port ;;
    if negb (close_handle =? 0) then os (CloseHandle close_handle) ;; ret tt else ret tt.

(** ** Application wakes *)

(** The section under [wake_lock] of [ep_port_request_wake]: whether the caller
    must post a packet, or [None] when the port is closing. *)
Definition wake_record (port : ptr) (event : option (Z * Z)) : MW (option bool) :=
  closing <- rd w_ports port p_closing ;;
  closed <- rd w_ports port p_iocp_closed ;;
  if closing || closed then ret None
  else
    requests <- rd w_ports port p_wake_requests ;;
    wr w_ports port p_wake_requests (u64 (requests + 1)) ;;
    pending_state <- rd w_ports port p_wake_pending ;;
    match event with
    | Some e =>
      if pending_state =? EP_WAKE_UNTAGGED then
        wr w_ports port p_wake_event e ;;
        wr w_ports port p_wake_pending EP_WAKE_TAGGED ;;
        coalesced <- rd w_ports port p_wake_coalesced ;;
        wr w_ports port p_wake_coalesced (u64 (coalesced + 1)) ;;
        ret (Some false)
      else if negb (pending_state =? EP_WAKE_NONE) then
        coalesced <- rd w_ports port p_wake_coalesced ;;
        wr w_ports port p_wake_coalesced (u64 (coalesced + 1)) ;;
        ret (Some false)
      else
        wr w_ports port p_wake_event e ;;
        wr w_ports port p_wake_pending EP_WAKE_TAGGED ;;
        ret (Some true)
    | None =>
      if negb (pending_state =? EP_WAKE_NONE) then
        coalesced <- rd w_ports port p_wake_coalesced ;;
        wr w_ports port p_wake_coalesced (u64 (coalesced + 1)) ;;
        ret (Some false)
      else
        wr w_ports port p_wake_pending EP_WAKE_UNTAGGED ;;
        ret (Some true)
    end.

Definition ep_port_request_wake (port : ptr) (event : option (Z * Z)) : MW Z :=
  match port with
  | None => ep_set_errno EFAULT ;; ret (-1)
  | Some _ =>
    closing <- rd w_ports port p_closing ;;
    closed <- rd w_ports port p_iocp_closed ;;
    if closing || closed then ep_set_errno EBADF ;; ret (-1)
    else
      recorded <- wake_record port event ;;
      match recorded with
      | None => ep_set_errno EBADF ;; ret (-1)
      | Some false => ret 0
      | Some true =>
        post <- ep_port_post_iocp port 0 OvNull EP_FAULT_IOCP_POST ;;
        let (posted, win_error) := post : bool * Z in
        if posted then ret 0
        else
          wr w_ports port p_wake_pending EP_WAKE_NONE ;;
          closing <- rd w_ports port p_closing ;;
          let error := if closing : bool then EBADF else ep_winerr_to_errno win_error in
          let error := if error =? 0 then EIO else error in
          ep_port_fail_iocp_post port win_error ;;
          ep_set_errno error ;;
          ret (-1)
      end
  end.

Definition ep_port_wake (port : ptr) : MW Z := ep_port_request_wake port None.

Definition ep_port_wake_event (port : ptr) (event : option (Z * Z)) : MW Z :=
  match event with
  | None => ep_set_errno EFAULT ;; ret (-1)
  | Some _ => ep_port_request_wake port event
  end.

(** What the caller's buffer receives: a [struct epoll_event], or an
    [epoll_event_ex] with its flags and timestamp. *)
Inductive wake_out :=
| WakeBasic (events data : Z)
| WakeExtended (events data flags timestamp : Z).

(** [None] when no wake is pending, otherwise [*result_out] with the stored
    event. *)
Definition ep_port_take_wake (port : ptr) (basic_events : bool) : MW (option (Z * option wake_out)) :=
  pending_state <- rd w_ports port p_wake_pending ;;
  if pending_state =? EP_WAKE_NONE then ret None
  else
    event <- rd w_ports port p_wake_event ;;
    wr w_ports port p_wake_pending EP_WAKE_NONE ;;
    returns <- rd w_ports port p_wake_returns ;;
    wr w_ports port p_wake_returns (u64 (returns + 1)) ;;
    if pending_state =? EP_WAKE_TAGGED then
      if basic_events then ret (Some (1, Some (WakeBasic (fst event) (snd event))))
      else
        timestamp <- ep_now_ns port ;;
        ret (Some (1, Some (WakeExtended (fst event) (snd event) WEPOLL_FLAG_WAKE_EVENT timestamp)))
    else ret (Some (0, None)).

(** ** Auxiliary completions *)

Definition ep_aux_post_completion (sock : addr) (status : Z) : MW bool :=
  wr w_socks (Some sock) s_iosb_status status ;;
  wr w_socks (Some sock) s_iosb_information 0 ;;
  wr w_socks (Some sock) s_completion_posted true ;;
  port <- rd w_socks (Some sock) s_port ;;
  post <- ep_port_post_iocp port 0 (OvSock sock) EP_FAULT_AUX_POST ;;
  let (posted, error) := post : bool * Z in
  if posted then ret true
  else
    wr w_socks (Some sock) s_completion_posted false ;;
    port <- rd w_socks (Some sock) s_port ;;
    ep_port_fail_iocp_post port error ;;
    os (SetLastError error) ;;
    ret false.

Definition ep_waitable_callback (sock : ptr) : MW unit :=
  match sock with
  | None => ret tt
  | Some a =>
    port <- rd w_socks sock s_port ;;
    match port with
    | None => ret tt
    | Some _ =>
      wr w_socks sock s_callback_active true ;;
      semantics <- rd w_socks sock s_waitable_semantics ;;
      (if negb (bool_decide (semantics = EP_WAITABLE_PERSISTENT)) &&
          negb (bool_decide (semantics = EP_WAITABLE_TERMINAL))
       then wr w_socks sock s_waitable_notification_owned true else ret tt) ;;
      ep_aux_post_completion a STATUS_SUCCESS ;;
      wr w_socks sock s_callback_active false
    end
  end.

(** ** The precise deadline *)

Definition ep_precise_timeout_callback (port : ptr) : MW unit :=
  match port with
  | None => ret tt
  | Some _ =>
    generation <- rd w_ports port p_precise_timeout_active_generation ;;
    if generation =? 0 then ret tt
    else
      post <- ep_port_post_iocp port generation OvTimeout EP_FAULT_TIMEOUT_POST ;;
      let (posted, error) := post : bool * Z in
      if posted then ret tt
      else
        failures <- rd w_ports port p_precise_timeout_post_failures ;;
        wr w_ports port p_precise_timeout_post_failures (u64 (failures + 1)) ;;
        os (SetLastError error) ;; ret tt
  end.

(** Save and restore of errno and the thread's last error around a body. *)
Definition timeout_restore (saved_errno saved_error : Z) : MW unit :=
  ep_set_errno saved_errno ;; os (SetLastError saved_error) ;; ret tt.

(** The timer and the thread-pool wait, 0 for the ones not created. *)
Definition timeout_create (port : ptr) : MW (Z * Z) :=
  create <- rd w_ports port p_create_timer ;;
  query <- rd w_ports port p_query_precise ;;
  if create && query then
    fault <- ep_fault_hit EP_FAULT_TIMEOUT_INIT ;;
    if fault =? 0 then
      timer <- os CreateWaitableTimerExW ;;
      if negb (timer =? 0) then wait <- os CreateThreadpoolWait ;; ret (timer, wait)
      else ret (timer, 0)
    else ret (0, 0)
  else ret (0, 0).

Definition ep_port_precise_timeout_initialize (port : ptr) : MW bool :=
  saved_errno <- ep_last_err ;;
  saved_error <- os GetLastError ;;
  capability <- rd w_ports port p_precise_timeout_capability ;;
  if capability =? EP_TIMEOUT_CAPABILITY_AVAILABLE then ret true
  else if capability =? EP_TIMEOUT_CAPABILITY_UNAVAILABLE then ret false
  else
    created <- timeout_create port ;;
    let (timer, wait) := created : Z * Z in
    if (timer =? 0) || (wait =? 0) then
      (if negb (wait =? 0) then os (CloseThreadpoolWait wait) ;; ret tt else ret tt) ;;
      (if negb (timer =? 0) then os (CloseHandle timer) ;; ret tt else ret tt) ;;
      wr w_ports port p_precise_timeout_capability EP_TIMEOUT_CAPABILITY_UNAVAILABLE ;;
      timeout_restore saved_errno saved_error ;;
      ret false
    else
      wr w_ports port p_precise_timeout_timer timer ;;
      wr w_ports port p_precise_timeout_wait wait ;;
      wr w_ports port p_precise_timeout_capability EP_TIMEOUT_CAPABILITY_AVAILABLE ;;
      timeout_restore saved_errno saved_error ;;
      ret true.

(** [++port->precise_timeout_generation], skipping the reserved zero. *)
Definition next_timeout_generation (port : ptr) : MW Z :=
  generation <- rd w_ports port p_precise_timeout_generation ;;
  let generation := u64 (generation + 1) in
  wr w_ports port p_precise_timeout_generation generation ;;
  if generation =? 0 then
    wr w_ports port p_precise_timeout_generation 1 ;; ret 1
  else ret generation.

Definition ep_port_precise_timeout_arm (port : ptr) (delay_100ns : Z) : MW Z :=
  saved_errno <- ep_last_err ;;
  saved_error <- os GetLastError ;;
  if delay_100ns =? 0 then ret 0
  else
    available <- ep_port_precise_timeout_initialize port ;;
    if negb available then ret 0
    else
      generation <- next_timeout_generation port ;;
      let timer_delay := if INT64_MAX <? delay_100ns then INT64_MAX else delay_100ns in
      let due_time := - timer_delay in
      wr w_ports port p_precise_timeout_active_generation generation ;;
      timer <- rd w_ports port p_precise_timeout_timer ;;
      wait <- rd w_ports port p_precise_timeout_wait ;;
      fault <- ep_fault_hit EP_FAULT_TIMEOUT_ARM ;;
      armed <- (if negb (fault =? 0) then ret false
                else ok <- os (SetWaitableTimer timer due_time) ;; ret (negb (ok =? 0))) ;;
      if negb armed then
        wr w_ports port p_precise_timeout_active_generation 0 ;;
        timeout_restore saved_errno saved_error ;;
        ret 0
      else
        os (SetThreadpoolWait wait timer) ;;
        wr w_ports port p_precise_timeout_armed true ;;
        timeout_restore saved_errno saved_error ;;
        ret generation.

Definition ep_port_precise_timeout_disarm (port : ptr) : MW unit :=
  armed <- rd w_ports port p_precise_timeout_armed ;;
  if negb armed then ret tt
  else
    timer <- rd w_ports port p_precise_timeout_timer ;;
    wait <- rd w_ports port p_precise_timeout_wait ;;
    os (CancelWaitableTimer timer) ;;
    os (SetThreadpoolWait wait 0) ;;
    os (WaitForThreadpoolWaitCallbacks wait) ;;
    wr w_ports port p_precise_timeout_active_generation 0 ;;
    wr w_ports port p_precise_timeout_armed false.

Definition ep_port_precise_timeout_destroy (port : ptr) : MW unit :=
  ep_port_precise_timeout_disarm port ;;
  wait <- rd w_ports port p_precise_timeout_wait ;;
  (if negb (wait =? 0) then
     os (CloseThreadpoolWait wait) ;; wr w_ports port p_precise_timeout_wait 0
   else ret tt) ;;
  timer <- rd w_ports port p_precise_timeout_timer ;;
  if negb (timer =? 0) then
    os (CloseHandle timer) ;; wr w_ports port p_precise_timeout_timer 0
  else ret tt.

(** ** Deferred errors *)

Definition ep_port_record_async_error_locked (port : ptr) (error : Z) : MW unit :=
  let error := if error <=? 0 then EIO else error in
  errors <- rd w_ports port p_asynchronous_errors ;;
  wr w_ports port p_asynchronous_errors (u64 (errors + 1)) ;;
  current <- rd w_ports port p_async_error ;;
  if negb (current =? 0) then ret tt
  else
    wr w_ports port p_async_error error ;;
    closing <- rd w_ports port p_closing ;;
    waiter_active <- rd w_ports port p_waiter_active ;;
    closed <- rd w_ports port p_iocp_closed ;;
    if negb closing && negb waiter_active && negb closed then
      post <- ep_port_post_iocp port 0 OvNull EP_FAULT_IOCP_POST ;;
      let (posted, win_error) := post : bool * Z in
      if posted then ret tt else ep_port_fail_iocp_post port win_error
    else ret tt.

Definition ep_port_take_async_error_locked (port : ptr) : MW Z :=
  error <- rd w_ports port p_async_error ;;
  wr w_ports port p_async_error 0 ;;
  ret error.

Definition ep_port_take_iocp_post_error (port : ptr) : MW Z :=
  error <- rd w_ports port p_iocp_post_error ;;
  wr w_ports port p_iocp_post_error 0 ;;
  ret error.

(** ** Posting *)

(** A port with the given contents, in a world that is otherwise [w] up to quiet
    effects. *)
Definition port_becomes (w w' : world) (port : addr) (p' : ep_port) : Prop :=
  quiet (w <| w_ports := <[port := p']> (w_ports w) |>) w'.

Lemma port_becomes_lookup w w' port p' : port_becomes w w' port p' -> w_ports w' !! port = Some p'.
Proof. intros Hq. rewrite (quiet_ports _ _ Hq). sget. apply lookup_insert_eq. Qed.

Lemma port_becomes_same w w' port p :
  w_ports w !! port = Some p -> quiet w w' -> port_becomes w w' port p.
Proof.
  intros Hp Hq. unfold port_becomes. rewrite insert_id by done.
  assert (w <| w_ports := w_ports w |> = w) as -> by (by destruct w). done.
Qed.

Lemma port_becomes_step w w1 w2 port p1 p2 :
  port_becomes w w1 port p1 -> port_becomes w1 w2 port p2 -> port_becomes w w2 port p2.
Proof.
  intros (e & i & sl & tr & ->) H2. unfold port_becomes in *. etrans; [|exact H2]. sget.
  rewrite insert_insert_eq. exists e, i, sl, tr. by destruct w.
Qed.

Lemma port_becomes_now w port q :
  port_becomes w (w <| w_ports := <[port := q]> (w_ports w) |>) port q.
Proof. unfold port_becomes. reflexivity. Qed.

Lemma port_becomes_wr {T} (f : ep_port -> T) `{!Setter f} v w port p :
  w_ports w !! port = Some p ->
  port_becomes w (w <| w_ports := <[port := p <| f := v |>]> (w_ports w) |>) port (p <| f := v |>).
Proof. intros Hp. unfold port_becomes. reflexivity. Qed.

Lemma post_iocp_spec w port p key ov point :
  w_ports w !! port = Some p ->
  wp (ep_port_post_iocp (Some port) key ov point) (fun r w' =>
    quiet w w' /\
    match r with
    | (true, _) => p_iocp_post_handle p <> 0 /\
        exists tr, w_trace w' = PostQueuedCompletionStatus (p_iocp_post_handle p) key ov :: tr
    | (false, e) => e <> ERROR_SUCCESS /\
        (p_iocp_post_handle p = 0 -> e = ERROR_INVALID_HANDLE /\ w' = w)
    end) w.
Proof.
  intros Hp. unfold ep_port_post_iocp. apply wp_bind. eapply wp_rd; [done|].
  destruct (Z.eqb_spec (p_iocp_post_handle p) 0) as [E|E]; [by apply wp_ret|].
  eapply wp_seq; [apply fault_hit_quiet|]. intros r w1 [Hq1 _]. cbv beta.
  destruct (negb (r =? 0)); [by apply wp_ret|].
  apply wp_bind, wp_os. destruct (negb _).
  - apply wp_ret. split; [by apply quiet_call|]. split; [done|]. by eexists.
  - apply wp_bind, wp_os. apply wp_ret. split; [by do 2 apply quiet_call|split; [|done]].
    match goal with |- context [?e =? ERROR_SUCCESS] => destruct (Z.eqb_spec e ERROR_SUCCESS); done end.
Qed.

(** What a failed post leaves: the first error is kept, the port is closing and
    no handle can be posted to any more. *)
Definition post_failed (p : ep_port) (win_error : Z) : ep_port :=
  let error := ep_winerr_to_errno win_error in
  p <| p_iocp_post_error := if p_iocp_post_error p =? 0 then (if error <=? 0 then EIO else error)
                            else p_iocp_post_error p |>
    <| p_iocp_post_failures := u64 (p_iocp_post_failures p + 1) |>
    <| p_closing := true |> <| p_iocp_post_handle := 0 |> <| p_iocp_closed := true |>.

Lemma fail_iocp_post_spec w port p e :
  w_ports w !! port = Some p -> p_closing p = false ->
  wp (ep_port_fail_iocp_post (Some port) e) (fun _ w' =>
    port_becomes w w' port (post_failed p e) /\
    w_trace w' = (if p_iocp_closed p || (p_iocp_post_handle p =? 0) then w_trace w
                  else CloseHandle (p_iocp_post_handle p) :: w_trace w)) w.
Proof.
  intros Hp Hc. unfold ep_port_fail_iocp_post, ep_port_revoke_iocp_posts, post_failed.
  cbv zeta. set (er := if ep_winerr_to_errno e <=? 0 then _ else _).
  wsteps. rewrite Hc. wsteps. wif; wsteps; destruct (p_iocp_closed p); cbn [orb negb Z.eqb];
    wsteps; try (destruct (p_iocp_post_handle p =? 0); cbn [negb]; wsteps).
  all: split; [unfold port_becomes; sget|done].
  all: first [ reflexivity | apply quiet_call; reflexivity | by destruct p
             | apply quiet_call; by destruct p ].
Qed.

(** ** Wakes *)

(** The pending wake of a port: none, untagged, or with its payload. *)
Definition wake_state (p : ep_port) : option (option (Z * Z)) :=
  if p_wake_pending p =? EP_WAKE_NONE then None
  else if p_wake_pending p =? EP_WAKE_TAGGED then Some (Some (p_wake_event p))
  else Some None.

(** How a request merges with it: the first payload wins. *)
Definition wake_join (s : option (option (Z * Z))) (event : option (Z * Z)) : option (Z * Z) :=
  match s with
  | Some (Some e) => Some e
  | _ => event
  end.

Definition wake_wf (p : ep_port) : Prop :=
  p_wake_pending p = EP_WAKE_NONE \/ p_wake_pending p = EP_WAKE_UNTAGGED \/
  p_wake_pending p = EP_WAKE_TAGGED.

Lemma wake_record_spec w port p event :
  w_ports w !! port = Some p -> wake_wf p -> p_closing p = false -> p_iocp_closed p = false ->
  wp (wake_record (Some port) event) (fun r w' => exists p',
    port_becomes w w' port p' /\ wake_wf p' /\
    wake_state p' = Some (wake_join (wake_state p) event) /\
    r = Some (bool_decide (wake_state p = None)) /\
    p_closing p' = false /\ p_iocp_closed p' = false /\
    p_iocp_post_handle p' = p_iocp_post_handle p) w.
Proof.
  intros Hp Hwf Hc Hi. unfold wake_record, wake_state, wake_wf in *. wsteps. rewrite Hc, Hi. cbn [orb].
  wsteps. destruct Hwf as [E|[E|E]]; rewrite E; destruct event as [e|]; cbn; wsteps;
    eexists; (split; [apply port_becomes_now|]); sget; rewrite ?E; cbn; auto 10.
Qed.

(** C35: a wake request on an open port merges with the pending one (an untagged
    wake is upgraded by a payload, the first payload is kept), and posts exactly
    one packet when none was pending.  If the post fails the request reports an
    error, nothing stays pending, and the port is closed for posting. *)
Theorem wake_request_refines w port p event :
  w_ports w !! port = Some p -> wake_wf p -> p_closing p = false -> p_iocp_closed p = false ->
  exists r w' p', ep_port_request_wake (Some port) event w = Some (r, w') /\
    port_becomes w w' port p' /\ wake_wf p' /\
    ((r = 0 /\ wake_state p' = Some (wake_join (wake_state p) event) /\ p_closing p' = false /\
      (wake_state p = None -> exists tr, w_trace w' =
         PostQueuedCompletionStatus (p_iocp_post_handle p) 0 OvNull :: tr)) \/
     (r = -1 /\ w_errno w' <> 0 /\ wake_state p = None /\ wake_state p' = None /\
      p_closing p' = true /\ p_iocp_closed p' = true /\ p_iocp_post_handle p' = 0)).
Proof.
  intros Hp Hwf Hc Hi.
  enough (wp (ep_port_request_wake (Some port) event) (fun r w' => exists p',
    port_becomes w w' port p' /\ wake_wf p' /\
    ((r = 0 /\ wake_state p' = Some (wake_join (wake_state p) event) /\ p_closing p' = false /\
      (wake_state p = None -> exists tr, w_trace w' =
         PostQueuedCompletionStatus (p_iocp_post_handle p) 0 OvNull :: tr)) \/
     (r = -1 /\ w_errno w' <> 0 /\ wake_state p = None /\ wake_state p' = None /\
      p_closing p' = true /\ p_iocp_closed p' = true /\ p_iocp_post_handle p' = 0))) w)
    as (r & w' & Hr & p' & H); [by exists r, w', p'|].
  unfold ep_port_request_wake. wsteps. rewrite Hc, Hi. cbn [orb]. apply wp_bind.
  eapply wp_mono; [by apply wake_record_spec|].
  intros r w1 (p1 & Hb1 & Hwf1 & Hs1 & -> & Hc1 & Hi1 & Hh1).
  destruct (wake_state p) as [st|] eqn:Es.
  { rewrite bool_decide_eq_false_2 by done. apply wp_ret. exists p1. split_and!; [done|done|].
    left. split_and!; done. }
  rewrite bool_decide_eq_true_2 by done. pose proof (port_becomes_lookup _ _ _ _ Hb1) as Hp1.
  eapply wp_seq; [by apply post_iocp_spec|]. intros [posted e] w2 [Hq2 Hpost]. cbv beta iota.
  pose proof (port_becomes_same _ _ _ _ Hp1 Hq2) as Hb2.
  pose proof (port_becomes_lookup _ _ _ _ Hb2) as Hp2.
  destruct posted.
  { apply wp_ret. exists p1. split; [by eapply port_becomes_step|]. split; [done|]. left.
    rewrite Hh1 in Hpost. destruct Hpost as [_ Htr]. split_and!; done. }
  wsteps. rewrite Hc1.
  set (p2 := p1 <| p_wake_pending := EP_WAKE_NONE |>).
  set (w3 := w2 <| w_ports := <[port := p2]> (w_ports w2) |>).
  assert (Hp3 : w_ports w3 !! port = Some p2) by (unfold w3; sget; apply lookup_insert_eq).
  eapply wp_mono; [by apply (fail_iocp_post_spec w3 port p2 e)|]. intros _ w4 [Hb4 _]. cbv beta.
  eapply wp_seq; [apply set_errno_quiet|]. intros _ w5 [Hq5 He5]. cbv beta. apply wp_ret.
  exists (post_failed p2 e). split; [|split; [by left|right]].
  - eapply port_becomes_step; [exact Hb1|]. eapply port_becomes_step; [exact Hb2|].
    eapply port_becomes_step; [apply (port_becomes_wr p_wake_pending EP_WAKE_NONE w2 port p1 Hp2)|].
    eapply port_becomes_step; [exact Hb4|]. by eapply port_becomes_same; [eapply port_becomes_lookup|].
  - split_and!; try done. rewrite He5. by destruct (Z.eqb_spec (ep_winerr_to_errno e) 0).
Qed.

Lemma take_wake_spec w port p basic :
  w_ports w !! port = Some p -> wake_wf p ->
  wp (ep_port_take_wake (Some port) basic) (fun r w' => exists p',
    port_becomes w w' port p' /\ wake_state p' = None /\ wake_wf p' /\
    match wake_state p with
    | None => r = None /\ p' = p
    | Some None => r = Some (0, None)
    | Some (Some (ev, d)) => exists ts, r = Some (1, Some
        (if basic then WakeBasic ev d else WakeExtended ev d WEPOLL_FLAG_WAKE_EVENT ts))
    end) w.
Proof.
  intros Hp Hwf. unfold ep_port_take_wake, wake_state. wsteps.
  set (q := p <| p_wake_pending := EP_WAKE_NONE |> <| p_wake_returns := u64 (p_wake_returns p + 1) |>).
  assert (Hq : port_becomes w (w <| w_ports := <[port := q]> (w_ports w) |>) port q) by apply port_becomes_now.
  destruct Hwf as [E|[E|E]]; rewrite E; cbn.
  - apply wp_ret. exists p. rewrite E. split_and!; [by apply port_becomes_same|done|by left|done|done].
  - wsteps. fold q. exists q. split_and!; [done|done|by left|done].
  - wsteps. fold q. destruct (p_wake_event p) as [ev d]. destruct basic.
    + apply wp_ret. exists q. split_and!; [done|done|by left|]. by exists 0.
    + apply wp_bind. unfold ep_now_ns. wsteps.
      destruct (p_qpc_frequency q <=? 0); wsteps.
      * exists q. split_and!; [done|done|by left|]. by eexists.
      * destruct (_ <? 0); wsteps; exists q; (split_and!; [by apply quiet_call|done|by left|by eexists]).
Qed.

(** A wake that was accepted is returned by the next wait that takes one: the
    waiter gets the payload of the first tagged request (and nothing for an
    untagged one), and a second take finds none. *)
Theorem wake_take_roundtrip w port p event basic :
  w_ports w !! port = Some p -> wake_wf p -> p_closing p = false -> p_iocp_closed p = false ->
  forall w1, ep_port_request_wake (Some port) event w = Some (0, w1) ->
  exists r w2 w3, ep_port_take_wake (Some port) basic w1 = Some (Some r, w2) /\
    match wake_join (wake_state p) event with
    | None => r = (0, None)
    | Some (ev, d) => exists ts, r = (1, Some
        (if basic then WakeBasic ev d else WakeExtended ev d WEPOLL_FLAG_WAKE_EVENT ts))
    end /\
    ep_port_take_wake (Some port) basic w2 = Some (None, w3).
Proof.
  intros Hp Hwf Hc Hi w1 Hrun. pose proof (wake_record_spec w port p event Hp Hwf Hc Hi) as Hrec.
  assert (Hw1 : exists p1, w_ports w1 !! port = Some p1 /\ wake_wf p1 /\
    wake_state p1 = Some (wake_join (wake_state p) event)).
  { destruct Hrec as (r0 & wr & Hr & p1 & Hb1 & Hwf1 & Hs1 & -> & Hc1 & Hi1 & Hh1).
    unfold ep_port_request_wake in Hrun.
    rewrite (bind_some _ _ _ _ _ (rd_some _ _ _ _ _ Hp)) in Hrun. cbv beta in Hrun.
    rewrite (bind_some _ _ _ _ _ (rd_some _ _ _ _ _ Hp)) in Hrun. cbv beta in Hrun.
    rewrite Hc, Hi in Hrun. cbn [orb] in Hrun. rewrite (bind_some _ _ _ _ _ Hr) in Hrun.
    pose proof (port_becomes_lookup _ _ _ _ Hb1) as Hp1.
    destruct (bool_decide (wake_state p = None)).
    - destruct (post_iocp_spec wr port p1 0 OvNull EP_FAULT_IOCP_POST Hp1)
        as ([posted e] & w2 & Hr2 & Hq2 & _).
      rewrite (bind_some _ _ _ _ _ Hr2) in Hrun. cbv beta iota in Hrun.
      destruct posted; [|exfalso; minv; done].
      injection Hrun as <-. exists p1. by rewrite (quiet_ports _ _ Hq2).
    - injection Hrun as <-. by exists p1. }
  destruct Hw1 as (p1 & Hp1 & Hwf1 & Hs1).
  destruct (take_wake_spec w1 port p1 basic Hp1 Hwf1) as (r & w2 & Hr2 & p2 & Hb2 & Hs2 & Hwf2 & Hm).
  destruct (take_wake_spec w2 port p2 basic) as (r3 & w3 & Hr3 & p3 & _ & _ & _ & Hm3);
    [by eapply port_becomes_lookup|done|].
  rewrite Hs2 in Hm3. destruct Hm3 as [-> _]. rewrite Hs1 in Hm.
  destruct (wake_join (wake_state p) event) as [[ev d]|].
  - destruct Hm as [ts ->]. eexists _, w2, w3. split; [exact Hr2|]. split; [by exists ts|done].
  - subst r. by eexists _, w2, w3.
Qed.

(** ** Revocation *)

(** The first failed post of an open port closes its handle, exactly once:
    afterwards every post is refused without reaching the platform, a further
    failure report changes nothing, and the error waits to be reported. *)
Theorem post_failure_closes_once w port p e :
  w_ports w !! port = Some p -> p_closing p = false -> p_iocp_closed p = false ->
  p_iocp_post_handle p <> 0 ->
  exists w1 p1, ep_port_fail_iocp_post (Some port) e w = Some (tt, w1) /\
    w_trace w1 = CloseHandle (p_iocp_post_handle p) :: w_trace w /\
    w_ports w1 !! port = Some p1 /\ p_iocp_post_error p1 <> 0 /\
    (forall key ov point,
      ep_port_post_iocp (Some port) key ov point w1 = Some ((false, ERROR_INVALID_HANDLE), w1)) /\
    (forall e', ep_port_fail_iocp_post (Some port) e' w1 = Some (tt, w1)).
Proof.
  intros Hp Hc Hi Hh. destruct (fail_iocp_post_spec w port p e Hp Hc) as ([] & w1 & Hr & Hb & Ht).
  pose proof (port_becomes_lookup _ _ _ _ Hb) as Hp1.
  exists w1, (post_failed p e). split_and!; [done| |done| | |].
  - by rewrite Ht, Hi, (proj2 (Z.eqb_neq _ _) Hh).
  - unfold post_failed. cbv zeta. sget. destruct (Z.eqb_spec (p_iocp_post_error p) 0); [|done].
    destruct (Z.leb_spec (ep_winerr_to_errno e) 0); [done|lia].
  - intros key ov point. unfold ep_port_post_iocp. by mstep.
  - intros e'. unfold ep_port_fail_iocp_post. by mstep.
Qed.

(** ** The precise deadline *)

Definition timer_off (p : ep_port) : Prop :=
  p_precise_timeout_active_generation p = 0 /\ p_precise_timeout_armed p = false.

(** Only the fields of the timer differ. *)
Definition timer_er (p : ep_port) : ep_port :=
  p <| p_precise_timeout_timer := 0 |> <| p_precise_timeout_wait := 0 |>
    <| p_precise_timeout_generation := 0 |> <| p_precise_timeout_active_generation := 0 |>
    <| p_precise_timeout_armed := false |> <| p_precise_timeout_capability := 0 |>.

Lemma timeout_create_quiet w port p :
  w_ports w !! port = Some p -> wp (timeout_create (Some port)) (fun _ w' => quiet w w') w.
Proof.
  intros Hp. unfold timeout_create. wsteps. wif; [|by apply wp_ret].
  apply wp_bind. eapply wp_mono; [apply fault_hit_quiet|]. intros r w1 [Hq _]. cbv beta.
  wif; [|by apply wp_ret]. wsteps. wif; wsteps; by repeat apply quiet_call.
Qed.

Lemma timeout_initialize_spec w port p :
  w_ports w !! port = Some p ->
  wp (ep_port_precise_timeout_initialize (Some port)) (fun r w' => exists p',
    port_becomes w w' port p' /\ timer_er p' = timer_er p /\
    p_precise_timeout_generation p' = p_precise_timeout_generation p /\
    p_precise_timeout_active_generation p' = p_precise_timeout_active_generation p /\
    p_precise_timeout_armed p' = p_precise_timeout_armed p /\
    w_errno w' = w_errno w) w.
Proof.
  intros Hp. unfold ep_port_precise_timeout_initialize, ep_last_err. wsteps.
  set (w0 := w <| w_trace ::= cons GetLastError |>).
  assert (Hq0 : quiet w w0) by (by apply quiet_call).
  assert (Hb0 : port_becomes w w0 port p) by (by apply port_becomes_same).
  wif; [apply wp_ret; by exists p|]. wif; [apply wp_ret; by exists p|].
  apply wp_bind. eapply wp_mono; [by apply (timeout_create_quiet w0 port p)|].
  intros [timer wait] w1 Hq1. cbv beta iota.
  assert (Hp1 : w_ports w1 !! port = Some p) by (by rewrite (quiet_ports _ _ Hq1)).
  assert (Hb1 : port_becomes w w1 port p) by (apply port_becomes_same; [done|by etrans]).
  unfold timeout_restore.
  destruct ((timer =? 0) || (wait =? 0)).
  - set (q := p <| p_precise_timeout_capability := EP_TIMEOUT_CAPABILITY_UNAVAILABLE |>).
    assert (Hend : forall w2 e i tr, quiet w1 w2 -> port_becomes w
      (w2 <| w_ports := <[port := q]> (w_ports w1) |> <| w_errno := e |> <| w_last_error := i |>
          <| w_trace := tr |>) port q).
    { intros w2 e i tr Hq2. rewrite <- (quiet_ports _ _ Hq2). eapply port_becomes_step; [exact Hb1|].
      eapply port_becomes_step; [by apply (port_becomes_same w1 w2 port p)|].
      eapply port_becomes_step; [apply port_becomes_now|].
      apply port_becomes_same; [sget; apply lookup_insert_eq|]. by exists e, i, (w_fault_slots w2), tr. }
    unfold ep_set_errno. apply wp_bind.
    destruct (negb (wait =? 0)), (negb (timer =? 0)); wsteps; exists q; (split; [|by split_and!]);
      apply Hend; eauto with quiet.
  - wsteps. eapply wp_mono; [apply set_errno_quiet|]. intros _ w3 [Hq3 He3]. cbv beta. wsteps.
    exists (p <| p_precise_timeout_timer := timer |> <| p_precise_timeout_wait := wait |>
              <| p_precise_timeout_capability := EP_TIMEOUT_CAPABILITY_AVAILABLE |>).
    split; [|by split_and!]. eapply port_becomes_step; [exact Hb1|].
    eapply port_becomes_step; [apply port_becomes_now|].
    apply port_becomes_same; [sget; apply lookup_insert_eq|by apply quiet_call].
Qed.

Lemma next_generation_spec w port p :
  w_ports w !! port = Some p ->
  wp (next_timeout_generation (Some port)) (fun r w' => r <> 0 /\
    w' = w <| w_ports := <[port := p <| p_precise_timeout_generation := r |>]> (w_ports w) |>) w.
Proof.
  intros Hp. unfold next_timeout_generation. wsteps. cbv zeta. wsteps. wif; wsteps; (split; [|done]); [done|].
  by apply Z.eqb_neq.
Qed.

Lemma timeout_arm_spec w port p delay :
  w_ports w !! port = Some p -> timer_off p ->
  wp (ep_port_precise_timeout_arm (Some port) delay) (fun r w' => exists p',
    port_becomes w w' port p' /\ timer_er p' = timer_er p /\ w_errno w' = w_errno w /\
    (r = 0 /\ timer_off p' \/
     r <> 0 /\ p_precise_timeout_active_generation p' = r /\ p_precise_timeout_armed p' = true /\
     exists t tr, In (SetWaitableTimer t (- Z.min INT64_MAX delay)) tr /\ w_trace w' = tr)) w.
Proof.
  intros Hp Hoff. unfold ep_port_precise_timeout_arm, ep_last_err. wsteps.
  set (w0 := w <| w_trace ::= cons GetLastError |>).
  assert (Hb0 : port_becomes w w0 port p) by (apply port_becomes_same; [done|by apply quiet_call]).
  wif; [apply wp_ret; exists p; split_and!; [done|done|done|by left]|].
  apply wp_bind. eapply wp_mono; [by apply (timeout_initialize_spec w0 port p)|].
  intros available w1 (p1 & Hb1 & He1 & Hg1 & Ha1 & Hr1 & Herr1). cbv beta.
  assert (Hb01 : port_becomes w w1 port p1) by (by eapply port_becomes_step).
  assert (Hoff1 : timer_off p1) by (destruct Hoff; split; congruence).
  destruct available; cbn [negb]; [|apply wp_ret; exists p1; split_and!; [done|done|done|by left]].
  pose proof (port_becomes_lookup _ _ _ _ Hb1) as Hp1. cbv zeta.
  apply wp_bind. eapply wp_mono; [by apply next_generation_spec|]. intros gen w2 [Hgen ->]. cbv beta.
  wsteps. set (q := p1 <| p_precise_timeout_generation := gen |>
                       <| p_precise_timeout_active_generation := gen |>).
  set (w3 := w1 <| w_ports := <[port := q]> (w_ports w1) |>).
  assert (Hb3 : port_becomes w w3 port q)
    by (eapply port_becomes_step; [exact Hb01|apply port_becomes_now]).
  eapply wp_mono; [apply (fault_hit_quiet _ w3)|]. intros f w4 [Hq4 _]. cbv beta.
  assert (Hb4 : port_becomes w w4 port q) by (unfold port_becomes in *; by etrans).
  pose proof (port_becomes_lookup _ _ _ _ Hb4) as Hp4.
  set (due := - (if INT64_MAX <? delay then INT64_MAX else delay)).
  assert (Hdue : due = - Z.min INT64_MAX delay) by (unfold due; destruct (Z.ltb_spec INT64_MAX delay); lia).
  assert (Hfail : forall w5, port_becomes w w5 port q -> wp
    (wr w_ports (Some port) p_precise_timeout_active_generation 0 ;;
     timeout_restore (w_errno w) (w_os w (w_trace w) GetLastError) ;; ret 0)
    (fun r w' => exists p', port_becomes w w' port p' /\ timer_er p' = timer_er p /\
      w_errno w' = w_errno w /\ (r = 0 /\ timer_off p' \/
     r <> 0 /\ p_precise_timeout_active_generation p' = r /\ p_precise_timeout_armed p' = true /\
     exists t tr, In (SetWaitableTimer t (- Z.min INT64_MAX delay)) tr /\ w_trace w' = tr)) w5).
  { intros w5 Hb5. pose proof (port_becomes_lookup _ _ _ _ Hb5) as Hp5.
    unfold timeout_restore, ep_set_errno. wsteps.
    exists (q <| p_precise_timeout_active_generation := 0 |>). split.
    - eapply port_becomes_step; [exact Hb5|]. apply quiet_call, quiet_fail. reflexivity.
    - split_and!; [done|done|]. left. split; [done|]. split; [done|]. apply Hoff1. }
  destruct (f =? 0); cbn [negb]; [|apply wp_bind, wp_ret; by apply Hfail].
  apply wp_bind. wsteps.
  match goal with |- context [negb (negb ?b)] => destruct b; cbn [negb] end;
    [apply Hfail; by apply quiet_call|].
  unfold timeout_restore, ep_set_errno. wsteps.
  exists (q <| p_precise_timeout_armed := true |>). split.
  - eapply port_becomes_step; [exact Hb4|]. unfold port_becomes.
    exists (w_errno w); do 3 eexists. by destruct w4.
  - split_and!; [done|done|]. right. split_and!; [done|done|done|].
    rewrite <- Hdue. eexists _, _. split; [|reflexivity]. sget. right. right. left. reflexivity.
Qed.

(** Arming the precise deadline either reports 0 and leaves no generation
    active, or activates a fresh non-zero generation with a timer set to the
    delay (cut off at the longest one the platform accepts); disarming it then
    silences the callback.  errno and the rest of the port are unchanged. *)
Theorem precise_arm_disarm w port p delay :
  w_ports w !! port = Some p -> timer_off p ->
  exists r w1 p1, ep_port_precise_timeout_arm (Some port) delay w = Some (r, w1) /\
    w_ports w1 !! port = Some p1 /\ timer_er p1 = timer_er p /\ w_errno w1 = w_errno w /\
    (r = 0 /\ timer_off p1 \/
     r <> 0 /\ p_precise_timeout_active_generation p1 = r /\ p_precise_timeout_armed p1 = true /\
     exists t, In (SetWaitableTimer t (- Z.min INT64_MAX delay)) (w_trace w1)) /\
    exists w2 p2, ep_port_precise_timeout_disarm (Some port) w1 = Some (tt, w2) /\
      w_ports w2 !! port = Some p2 /\ timer_er p2 = timer_er p /\ timer_off p2 /\
      ep_precise_timeout_callback (Some port) w2 = Some (tt, w2).
Proof.
  intros Hp Hoff.
  destruct (timeout_arm_spec w port p delay Hp Hoff) as (r & w1 & Hr & p1 & Hb & He & Herr & Hc).
  pose proof (port_becomes_lookup _ _ _ _ Hb) as Hp1. exists r, w1, p1. split_and!; [done..| |].
  { destruct Hc as [?|(? & ? & ? & t & tr & Hin & <-)]; [by left|right; eauto]. }
  unfold ep_port_precise_timeout_disarm, ep_precise_timeout_callback.
  destruct (p_precise_timeout_armed p1) eqn:Ea.
  - eexists _, (p1 <| p_precise_timeout_active_generation := 0 |> <| p_precise_timeout_armed := false |>).
    split.
    { mstep. rewrite Ea. cbn [negb]. repeat mstep. erewrite wr_some by mlookup. reflexivity. }
    sget. rewrite lookup_insert_eq. split_and!; [done|done|done|]. mstep. done.
  - exists w1, p1. assert (timer_off p1) as Ho by (destruct Hc as [[_ ?]|(_ & _ & ? & _)]; [done|congruence]).
    split; [by mstep; rewrite Ea|]. split_and!; [done|done|done|].
    mstep. by rewrite (proj1 Ho).
Qed.

(** ** Examples *)

(** A port with completion-port handle 7 on a platform where every call
    answers 1 (success). *)
Definition open_port : ep_port :=
  zero_port <| p_iocp_post_handle := 7 |> <| p_iocp := 7 |> <| p_create_timer := true |>
            <| p_query_precise := true |>.
Definition open_world : world :=
  empty_world <| w_ports := {[ 1%positive := open_port ]} |> <| w_os := fun _ _ => 1 |>.

Lemma wake_request_refines_witness : exists r w' p',
  ep_port_request_wake (Some 1%positive) (Some (EPOLLIN, 42)) open_world = Some (r, w') /\
  port_becomes open_world w' 1 p' /\ wake_wf p'.
Proof.
  destruct (wake_request_refines open_world 1 open_port (Some (EPOLLIN, 42)))
    as (r & w' & p' & Hr & Hb & Hw & _); [reflexivity|by left|reflexivity|reflexivity|].
  by exists r, w', p'.
Defined.

Lemma wake_take_roundtrip_witness : exists r w2 w3,
  ep_port_take_wake (Some 1%positive) true
    (exec (ep_port_request_wake (Some 1%positive) (Some (EPOLLIN, 42))) open_world) = Some (Some r, w2) /\
  r = (1, Some (WakeBasic EPOLLIN 42)) /\
  ep_port_take_wake (Some 1%positive) true w2 = Some (None, w3).
Proof.
  destruct (wake_take_roundtrip open_world 1 open_port (Some (EPOLLIN, 42)) true)
    with (w1 := exec (ep_port_request_wake (Some 1%positive) (Some (EPOLLIN, 42))) open_world)
    as (r & w2 & w3 & Hr & [ts ->] & Ht); [reflexivity|by left|reflexivity|reflexivity|reflexivity|].
  by exists (1, Some (WakeBasic EPOLLIN 42)), w2, w3.
Defined.

Lemma post_failure_closes_once_witness : exists w1,
  ep_port_fail_iocp_post (Some 1%positive) ERROR_GEN_FAILURE open_world = Some (tt, w1) /\
  w_trace w1 = [CloseHandle 7].
Proof.
  destruct (post_failure_closes_once open_world 1 open_port ERROR_GEN_FAILURE)
    as (w1 & p1 & Hr & Ht & _); [reflexivity|reflexivity|reflexivity|done|]. by exists w1.
Defined.

Lemma precise_arm_disarm_witness : exists r w1,
  ep_port_precise_timeout_arm (Some 1%positive) 2500 open_world = Some (r, w1) /\
  w_errno w1 = w_errno open_world.
Proof.
  destruct (precise_arm_disarm open_world 1 open_port 2500)
    as (r & w1 & p1 & Hr & _ & _ & He & _); [reflexivity|by split|]. by exists r, w1.
Defined.

(** The timer is set and the first generation becomes active. *)
Example precise_arm_first :
  result (ep_port_precise_timeout_arm (Some 1%positive) 2500) open_world = Some 1.
Proof. vm_compute. reflexivity. Qed.
