(* ===== verification/WakeSteps.v ===== *)
(** * Wakes and a waiting thread, interleaved

    Any number of threads in [ep_port_request_wake] and one thread in
    [ep_port_wait_timeout_impl] ([wait_lock] serialises the waiters), as atomic
    steps on the process state: each step runs one critical section of the code.
    The completion port is the number of packets it holds. *)
From S2P Require Import Prelude Codes Types Errno Fault Quiet Timeout Iocp.

(** A waker is about to take [wake_lock], about to post, about to undo its
    request after a failed post, about to close the port, or done. *)
Inductive wpc :=
| WRecord (event : option (Z * Z))
| WPost
| WUndo (error : Z)
| WClose (error : Z)
| WDone (result : Z).

(** The waiter is outside a wait, about to look at [wake_pending], in a
    zero-time dequeue, in a blocking dequeue, or about to take the wake. *)
Inductive waitpc := OUT | CHECK | POLL | BLOCK | TAKE.

Record wcfg := mk_wcfg {
  k_world : world;
  k_packets : nat;
  k_wakers : list wpc;
  k_waiter : waitpc
}.
#[export] Instance eta_wcfg : Eta wcfg := fun r =>
  mk_wcfg (k_world r) (k_packets r) (k_wakers r) (k_waiter r).
#[export] Instance set_k_world : Setter k_world := ltac:(derive_setter).
#[export] Instance set_k_packets : Setter k_packets := ltac:(derive_setter).
#[export] Instance set_k_wakers : Setter k_wakers := ltac:(derive_setter).
#[export] Instance set_k_waiter : Setter k_waiter := ltac:(derive_setter).

Section Steps.
Context (port : addr).

Inductive wstep_rel : wcfg -> wcfg -> Prop :=
(* A thread enters ep_port_request_wake. *)
| wake_enter c event :
    wstep_rel c (c <| k_wakers := k_wakers c ++ [WRecord event] |>)
| wake_lock_section c i event r w' :
    k_wakers c !! i = Some (WRecord event) ->
    wake_record (Some port) event (k_world c) = Some (r, w') ->
    wstep_rel c (c <| k_world := w' |>
      <| k_wakers := <[i := match r with None => WDone (-1) | Some false => WDone 0
                                         | Some true => WPost end]> (k_wakers c) |>)
| wake_post_ok c i e w' :
    k_wakers c !! i = Some WPost ->
    ep_port_post_iocp (Some port) 0 OvNull EP_FAULT_IOCP_POST (k_world c) = Some ((true, e), w') ->
    wstep_rel c (c <| k_world := w' |> <| k_packets := S (k_packets c) |>
                   <| k_wakers := <[i := WDone 0]> (k_wakers c) |>)
| wake_post_fails c i e w' :
    k_wakers c !! i = Some WPost ->
    ep_port_post_iocp (Some port) 0 OvNull EP_FAULT_IOCP_POST (k_world c) = Some ((false, e), w') ->
    wstep_rel c (c <| k_world := w' |> <| k_wakers := <[i := WUndo e]> (k_wakers c) |>)
| wake_undo c i e w' :
    k_wakers c !! i = Some (WUndo e) ->
    wr w_ports (Some port) p_wake_pending EP_WAKE_NONE (k_world c) = Some (tt, w') ->
    wstep_rel c (c <| k_world := w' |> <| k_wakers := <[i := WClose e]> (k_wakers c) |>)
| wake_close c i e w' :
    k_wakers c !! i = Some (WClose e) ->
    ep_port_fail_iocp_post (Some port) e (k_world c) = Some (tt, w') ->
    wstep_rel c (c <| k_world := w' |> <| k_wakers := <[i := WDone (-1)]> (k_wakers c) |>)
(* A socket, timer or callback completion reaches the port. *)
| other_packet c :
    wstep_rel c (c <| k_packets := S (k_packets c) |>)
(* The waiter. *)
| wait_enter c :
    k_waiter c = OUT -> wstep_rel c (c <| k_waiter := CHECK |>)
| wait_sees_wake c pending w' :
    k_waiter c = CHECK ->
    rd w_ports (Some port) p_wake_pending (k_world c) = Some (pending, w') ->
    wstep_rel c (c <| k_waiter := if pending =? EP_WAKE_NONE then BLOCK else POLL |>)
| wait_poll_empty c :
    k_waiter c = POLL -> k_packets c = 0%nat -> wstep_rel c (c <| k_waiter := TAKE |>)
| wait_dequeue c n :
    k_waiter c = POLL \/ k_waiter c = BLOCK -> (0 < n <= k_packets c)%nat ->
    wstep_rel c (c <| k_packets := (k_packets c - n)%nat |> <| k_waiter := TAKE |>)
| wait_times_out c :
    k_waiter c = BLOCK -> wstep_rel c (c <| k_waiter := TAKE |>)
(* Ready events or an error end the wait before the wake is taken. *)
| wait_returns_first c :
    k_waiter c = TAKE -> wstep_rel c (c <| k_waiter := OUT |>)
| wait_takes c basic r w' :
    k_waiter c = TAKE ->
    ep_port_take_wake (Some port) basic (k_world c) = Some (Some r, w') ->
    wstep_rel c (c <| k_world := w' |> <| k_waiter := OUT |>)
| wait_takes_none c basic w' again :
    k_waiter c = TAKE ->
    ep_port_take_wake (Some port) basic (k_world c) = Some (None, w') ->
    wstep_rel c (c <| k_world := w' |> <| k_waiter := if again : bool then CHECK else OUT |>).

(** The process starts with an open port, no requests and no wait. *)
Inductive wreachable : wcfg -> Prop :=
| wreach_init w p :
    w_ports w !! port = Some p -> p_wake_pending p = EP_WAKE_NONE ->
    wreachable (mk_wcfg w 0 [] OUT)
| wreach_step c c' : wreachable c -> wstep_rel c c' -> wreachable c'.

(** ** A blocked waiter is always woken *)

(** A request between its record and its post (or its undo). *)
Definition in_flight (t : wpc) : Prop :=
  match t with WPost | WUndo _ => True | _ => False end.

Definition wake_inv (c : wcfg) : Prop :=
  exists p, w_ports (k_world c) !! port = Some p /\ wake_wf p /\
    (k_waiter c = BLOCK -> p_wake_pending p <> EP_WAKE_NONE ->
       (0 < k_packets c)%nat \/ exists i t, k_wakers c !! i = Some t /\ in_flight t).

(** Another request stays in flight when one that is not moves. *)
Lemma in_flight_insert (l : list wpc) (i : nat) t' :
  (forall t, l !! i = Some t -> ~ in_flight t) ->
  (exists j t, l !! j = Some t /\ in_flight t) ->
  exists j t, <[i := t']> l !! j = Some t /\ in_flight t.
Proof.
  intros Hi (j & t & Hj & Ht). exists j, t. split; [|done].
  rewrite list_lookup_insert_ne; [done|]. intros ->. by apply (Hi t).
Qed.

Lemma in_flight_here (l : list wpc) (i : nat) t t' :
  l !! i = Some t -> in_flight t' -> exists j t, <[i := t']> l !! j = Some t /\ in_flight t.
Proof.
  intros Hi Ht. exists i, t'. split; [|done]. apply list_lookup_insert_eq. by eapply lookup_lt_Some.
Qed.

(** The locked section either changes nothing that matters, or makes the caller
    responsible for a packet. *)
Lemma wake_record_inv w p event r w' :
  w_ports w !! port = Some p -> wake_wf p ->
  wake_record (Some port) event w = Some (r, w') ->
  exists p', w_ports w' !! port = Some p' /\ wake_wf p' /\
    (r = Some true \/ (p_wake_pending p' <> EP_WAKE_NONE -> p_wake_pending p <> EP_WAKE_NONE)).
Proof.
  intros Hp Hwf Hrun. destruct (p_closing p || p_iocp_closed p) eqn:Eo.
  - exists p. assert (r = None /\ w' = w) as [-> ->]; [|auto].
    unfold wake_record in Hrun.
    rewrite (bind_some _ _ _ _ _ (rd_some _ _ _ _ _ Hp)) in Hrun. cbv beta in Hrun.
    rewrite (bind_some _ _ _ _ _ (rd_some _ _ _ _ _ Hp)) in Hrun. cbv beta in Hrun.
    rewrite Eo in Hrun. by injection Hrun as <- <-.
  - apply orb_false_iff in Eo as [Hc Hi].
    destruct (wake_record_spec w port p event Hp Hwf Hc Hi)
      as (r0 & w0 & Hr0 & p' & Hb & Hwf' & Hs & -> & _).
    rewrite Hr0 in Hrun. injection Hrun as <- <-. exists p'.
    split_and!; [by eapply port_becomes_lookup|done|].
    unfold wake_state. destruct (Z.eqb_spec (p_wake_pending p) EP_WAKE_NONE); [left|by right].
    by rewrite bool_decide_eq_true_2.
Qed.

Lemma wake_inv_step c c' : wake_inv c -> wstep_rel c c' -> wake_inv c'.
Proof.
  intros (p & Hp & Hwf & Hinv) Hstep. unfold wake_inv.
  destruct Hstep as [c event|c i event r w' Hi Hr|c i e w' Hi Hr|c i e w' Hi Hr|c i e w' Hi Hr
    |c i e w' Hi Hr|c|c Hw|c pending w' Hw Hr|c Hw Hz|c n Hw Hn|c Hw|c Hw|c basic r w' Hw Hr
    |c basic w' again Hw Hr]; cbn [k_world k_packets k_wakers k_waiter]; sget.
  - exists p. split_and!; [done|done|]. intros Hb Hne. destruct (Hinv Hb Hne) as [?|(j & t & Hj & Ht)];
      [by left|right]. exists j, t. split; [|done]. by apply lookup_app_l_Some.
  - destruct (wake_record_inv _ _ _ _ _ Hp Hwf Hr) as (p' & Hp' & Hwf' & Hcase).
    exists p'. split_and!; [done|done|]. intros Hb Hne. destruct Hcase as [->|Hpend].
    + right. by eapply in_flight_here.
    + destruct (Hinv Hb (Hpend Hne)) as [?|Hfl]; [by left|right].
      apply in_flight_insert; [|done]. intros t Ht. rewrite Hi in Ht. injection Ht as <-. by intros [].
  - destruct (post_iocp_spec _ port p 0 OvNull EP_FAULT_IOCP_POST Hp) as (r & w0 & Hr0 & Hq & _).
    rewrite Hr0 in Hr. injection Hr as -> <-.
    exists p. rewrite (quiet_ports _ _ Hq). split_and!; [done|done|]. intros _ _. left. lia.
  - destruct (post_iocp_spec _ port p 0 OvNull EP_FAULT_IOCP_POST Hp) as (r & w0 & Hr0 & Hq & _).
    rewrite Hr0 in Hr. injection Hr as -> <-.
    exists p. rewrite (quiet_ports _ _ Hq). split_and!; [done|done|]. intros _ _. right.
    by eapply in_flight_here.
  - rewrite (wr_some _ _ _ _ _ _ Hp) in Hr. injection Hr as <-.
    eexists. sget. split; [apply lookup_insert_eq|]. split; [by left|]. done.
  - unfold ep_port_fail_iocp_post in Hr.
    rewrite (bind_some _ _ _ _ _ (rd_some _ _ _ _ _ Hp)) in Hr. cbv beta in Hr.
    destruct (p_closing p) eqn:Ec.
    + injection Hr as <-. exists p. split_and!; [done|done|]. intros Hb Hne.
      destruct (Hinv Hb Hne) as [?|Hfl]; [by left|right].
      apply in_flight_insert; [|done]. intros t Ht. rewrite Hi in Ht. injection Ht as <-. by intros [].
    + destruct (fail_iocp_post_spec _ port p e Hp Ec) as (u & w0 & Hr0 & Hb0 & _).
      unfold ep_port_fail_iocp_post in Hr0.
      rewrite (bind_some _ _ _ _ _ (rd_some _ _ _ _ _ Hp)) in Hr0. cbv beta in Hr0.
      rewrite Ec in Hr0. rewrite Hr0 in Hr. injection Hr as -> <-.
      exists (post_failed p e). split_and!; [by eapply port_becomes_lookup|done|]. intros Hb Hne.
      destruct (Hinv Hb Hne) as [?|Hfl]; [by left|right].
      apply in_flight_insert; [|done]. intros t Ht. rewrite Hi in Ht. injection Ht as <-. by intros [].
  - exists p. split_and!; [done|done|]. intros _ _. left. lia.
  - by exists p.
  - rewrite (rd_some _ _ _ _ _ Hp) in Hr. injection Hr as <- <-. exists p. split_and!; [done|done|].
    destruct (Z.eqb_spec (p_wake_pending p) EP_WAKE_NONE); done.
  - by exists p.
  - by exists p.
  - by exists p.
  - by exists p.
  - destruct (take_wake_spec _ port p basic Hp Hwf) as (r0 & w0 & Hr0 & p' & Hb & _ & Hwf' & _).
    rewrite Hr0 in Hr. injection Hr as -> <-. exists p'.
    split_and!; [by eapply port_becomes_lookup|done|done].
  - destruct (take_wake_spec _ port p basic Hp Hwf) as (r0 & w0 & Hr0 & p' & Hb & _ & Hwf' & _).
    rewrite Hr0 in Hr. injection Hr as -> <-. exists p'.
    split_and!; [by eapply port_becomes_lookup|done|]. by destruct again.
Qed.

(** C34: a wake is never lost on a blocked waiter: in every interleaving, if a
    wake is pending while the waiter blocks in the completion port and no
    request is between its record and its post, the port holds a packet, so the
    dequeue returns. *)
Theorem wake_never_lost c p :
  wreachable c -> w_ports (k_world c) !! port = Some p ->
  k_waiter c = BLOCK -> p_wake_pending p <> EP_WAKE_NONE ->
  (forall i t, k_wakers c !! i = Some t -> ~ in_flight t) ->
  (0 < k_packets c)%nat.
Proof.
  intros Hreach Hp Hb Hne Hquiet.
  assert (wake_inv c) as (p' & Hp' & _ & Hinv).
  { clear -Hreach. induction Hreach as [w p Hp He|c c' _ IH Hs]; [|by eapply wake_inv_step].
    exists p. split_and!; [done|by left|done]. }
  rewrite Hp in Hp'. injection Hp' as <-. destruct (Hinv Hb Hne) as [?|(i & t & Hi & Ht)]; [done|].
  by destruct (Hquiet i t Hi).
Qed.
End Steps.

(** ** Example: the wake arrives after the waiter looked *)

Definition race_recorded : world := exec (wake_record (Some 1%positive) None) open_world.
Definition race_posted : world :=
  exec (ep_port_post_iocp (Some 1%positive) 0 OvNull EP_FAULT_IOCP_POST) race_recorded.
Definition race_end : wcfg := mk_wcfg race_posted 1 [WDone 0] BLOCK.

Lemma race_reachable : wreachable 1 race_end.
Proof.
  apply (wreach_step 1 (mk_wcfg race_recorded 0 [WPost] BLOCK)).
  2:{ apply (wake_post_ok 1 (mk_wcfg race_recorded 0 [WPost] BLOCK) 0 0 race_posted);
        [reflexivity|vm_compute; reflexivity]. }
  apply (wreach_step 1 (mk_wcfg open_world 0 [WRecord None] BLOCK)).
  2:{ apply (wake_lock_section 1 (mk_wcfg open_world 0 [WRecord None] BLOCK) 0 None
        (Some true) race_recorded); [reflexivity|vm_compute; reflexivity]. }
  apply (wreach_step 1 (mk_wcfg open_world 0 [] BLOCK)).
  2:{ apply (wake_enter 1 (mk_wcfg open_world 0 [] BLOCK) None). }
  apply (wreach_step 1 (mk_wcfg open_world 0 [] CHECK)).
  2:{ apply (wait_sees_wake 1 (mk_wcfg open_world 0 [] CHECK) 0 open_world); reflexivity. }
  apply (wreach_step 1 (mk_wcfg open_world 0 [] OUT)).
  2:{ by apply (wait_enter 1 (mk_wcfg open_world 0 [] OUT)). }
  by apply (wreach_init 1 open_world open_port).
Qed.

Lemma wake_never_lost_witness : (0 < k_packets race_end)%nat.
Proof.
  eapply (wake_never_lost 1 race_end); [exact race_reachable|vm_compute; reflexivity|reflexivity| |].
  - vm_compute. discriminate.
  - intros [|[|i]] t Ht; [injection Ht as <-; intros []|discriminate|discriminate].
Defined.
