(* ===== verification/Provider.v ===== *)
(** * Provider sockets and endpoint identity

    [src/wepoll_ex_afd.c], 477-776: the walk from a layered socket to the
    provider socket AFD knows, the protocol probe and the endpoint token; and
    [src/wepoll_ex_port.c], 2777-2915 and 3234-3251: whether a registration's
    handle still names the socket it was registered for. *)
From S2P Require Import Prelude Codes Types Errno Fault Links Quiet Readiness.

(** ** Control calls *)

(** [ep_socket_ioctl_fn]: socket, code and what [error_out] points to (nothing
    for NULL); the handle returned and the value [error_out] points to after. *)
Definition ep_socket_ioctl_fn : Type := Z -> Z -> option Z -> MW (Z * Z).

Definition ep_socket_ioctl_handle : ep_socket_ioctl_fn := fun socket ioctl error_out =>
  r <- os (WSAIoctl socket ioctl) ;;
  if r =? SOCKET_ERROR then
    match error_out with
    | Some _ => e <- os WSAGetLastError ;; ret (INVALID_SOCKET, i32 e)
    | None => ret (INVALID_SOCKET, 0)
    end
  else
    result <- os WSAIoctlResult ;;
    bytes <- os WSAIoctlBytes ;;
    let result := u64 result in
    if negb (u32 bytes =? 8) || (result =? INVALID_SOCKET) then ret (INVALID_SOCKET, WSAEINVAL)
    else ret (result, 0).

(** ** The provider chain *)

(** The inner [for]: the next layer, too many layers, or none (and whether a
    handle already visited was offered). *)
Inductive fallback_out :=
| Advanced (candidate : Z)
| Overflow
| Exhausted (saw_cycle : bool).

Fixpoint base_fallback (ioctl_fn : ep_socket_ioctl_fn) (current : Z) (visited codes : list Z)
    (saw_cycle : bool) : MW fallback_out :=
  match codes with
  | [] => ret (Exhausted saw_cycle)
  | code :: codes =>
    r <- ioctl_fn current code None ;;
    let candidate := r.1 in
    if (candidate =? INVALID_SOCKET) || (candidate =? current)
    then base_fallback ioctl_fn current visited codes saw_cycle
    else if bool_decide (candidate ∈ visited)
    then base_fallback ioctl_fn current visited codes true
    else if 32 <=? Z.of_nat (length visited) then ret Overflow
    else ret (Advanced candidate)
  end.

Definition fallback_ioctls : list Z := [SIO_BSP_HANDLE_SELECT; SIO_BSP_HANDLE_POLL; SIO_BSP_HANDLE].

(** The outer [for], [depth] iterations before the bound of 32. *)
Fixpoint base_loop (ioctl_fn : ep_socket_ioctl_fn) (depth : nat) (current : Z) (visited : list Z)
    : MW Z :=
  match depth with
  | O => ep_set_errno ELOOP ;; ret INVALID_SOCKET
  | S depth =>
    r <- ioctl_fn current SIO_BASE_HANDLE (Some WSAEINVAL) ;;
    let '(base, base_error) := r in
    if negb (base =? INVALID_SOCKET) then ret base
    else if base_error =? WSAENOTSOCK then ep_set_errno ENOTSOCK ;; ret INVALID_SOCKET
    else
      out <- base_fallback ioctl_fn current visited fallback_ioctls false ;;
      match out with
      | Overflow => ep_set_errno ELOOP ;; ret INVALID_SOCKET
      | Advanced candidate => base_loop ioctl_fn depth candidate (visited ++ [candidate])
      | Exhausted true => ep_set_errno ELOOP ;; ret INVALID_SOCKET
      | Exhausted false => ep_set_winsock_error (u32 base_error) ;; ret INVALID_SOCKET
      end
  end.

Definition ep_socket_get_base_with_ioctl (socket : Z) (ioctl_fn : option ep_socket_ioctl_fn) : MW Z :=
  match ioctl_fn with
  | None =>
    ep_set_errno (if socket =? INVALID_SOCKET then ENOTSOCK else EFAULT) ;; ret INVALID_SOCKET
  | Some ioctl_fn =>
    if socket =? INVALID_SOCKET then ep_set_errno ENOTSOCK ;; ret INVALID_SOCKET
    else
      fault <- ep_fault_hit EP_FAULT_PROVIDER_BASE ;;
      if negb (fault =? 0) then ret INVALID_SOCKET
      else base_loop ioctl_fn 32 socket [socket]
  end.

Definition ep_socket_get_base (socket : Z) : MW Z :=
  ep_socket_get_base_with_ioctl socket (Some ep_socket_ioctl_handle).

(** ** Protocol *)

(** The fields of [WSAPROTOCOL_INFOW] the classification reads. *)
Definition read_protocol_info : MW protocol_info :=
  family <- os (GetsockoptValue 0) ;;
  type <- os (GetsockoptValue 1) ;;
  protocol <- os (GetsockoptValue 2) ;;
  max_offset <- os (GetsockoptValue 3) ;;
  chain <- os (GetsockoptValue 4) ;;
  ret (mk_protocol_info (i32 family) (i32 type) (i32 protocol) (i32 max_offset) (i32 chain)).

(** The protocol and [*udp_afd_qualifier_out]. *)
Definition ep_socket_get_protocol (socket : Z) : MW (ep_socket_protocol * bool) :=
  saved_wsa_error <- os WSAGetLastError ;;
  saved_error <- ep_get_last_error_info ;;
  r <- (if negb (socket =? INVALID_SOCKET) then
          failed <- os (Getsockopt socket SO_PROTOCOL_INFOW) ;;
          if failed =? 0 then
            info <- read_protocol_info ;;
            length <- os GetsockoptLength ;;
            ret (ep_socket_protocol_from_info (Some info) (i32 length),
                 ep_socket_udp_afd_qualifier_from_info (Some info) (i32 length))
          else ret (EP_SOCKET_PROTOCOL_UNKNOWN, false)
        else ret (EP_SOCKET_PROTOCOL_UNKNOWN, false)) ;;
  os (WSASetLastError saved_wsa_error) ;;
  ep_restore_last_error_info saved_error ;;
  ret r.

(** ** Endpoint token *)

(** [ep_socket_ioctl_endpoint_id]: result, token, bytes and error. *)
Definition ep_socket_ioctl_endpoint_id (socket ioctl : Z) : MW (Z * Z * Z * Z) :=
  result <- os (WSAIoctl socket ioctl) ;;
  token <- os WSAIoctlResult ;;
  bytes <- os WSAIoctlBytes ;;
  if result =? SOCKET_ERROR
  then error <- os WSAGetLastError ;; ret (result, u64 token, u32 bytes, i32 error)
  else ret (result, u64 token, u32 bytes, 0).

(** The int result and the token stored on success. *)
Definition ep_socket_get_endpoint_id_with_ioctl (socket : Z)
    (ioctl_fn : option (Z -> Z -> MW (Z * Z * Z * Z))) : MW (Z * Z) :=
  match ioctl_fn with
  | None => ep_set_errno (if socket =? INVALID_SOCKET then ENOTSOCK else EFAULT) ;; ret (-1, 0)
  | Some ioctl_fn =>
    if socket =? INVALID_SOCKET then ep_set_errno ENOTSOCK ;; ret (-1, 0)
    else
      unavailable <- ep_fault_hit EP_FAULT_ENDPOINT_UNAVAILABLE ;;
      if negb (unavailable =? 0) then ep_set_errno 0 ;; ret (0, 0)
      else
        fault <- ep_fault_hit EP_FAULT_ENDPOINT_IDENTITY ;;
        if negb (fault =? 0) then ret (-1, 0)
        else
          r <- ioctl_fn socket SIO_QUERY_WFP_ALE_ENDPOINT_HANDLE ;;
          let '(result, token, bytes, ioctl_error) := r in
          if result =? SOCKET_ERROR then
            if (ioctl_error =? WSAEOPNOTSUPP) || (ioctl_error =? WSAENOPROTOOPT) ||
               (ioctl_error =? WSAEINVAL) then ret (0, 0)
            else ep_set_winsock_error (u32 ioctl_error) ;; ret (-1, 0)
          else if negb (bytes =? 8) then ep_set_errno EIO ;; ret (-1, 0)
          else ret (1, token)
  end.

Definition ep_socket_get_endpoint_id (socket : Z) : MW (Z * Z) :=
  ep_socket_get_endpoint_id_with_ioctl socket (Some ep_socket_ioctl_endpoint_id).

(** ** Identity of a registration *)

Inductive ep_identity_check :=
| EP_IDENTITY_ERROR | EP_IDENTITY_MATCH | EP_IDENTITY_STALE | EP_IDENTITY_CLOSED.
#[export] Instance ep_identity_check_eq : EqDecision ep_identity_check.
Proof. solve_decision. Defined.
Definition identity_Z (c : ep_identity_check) : Z :=
  match c with
  | EP_IDENTITY_ERROR => -1 | EP_IDENTITY_MATCH => 0
  | EP_IDENTITY_STALE => 1 | EP_IDENTITY_CLOSED => 2
  end.
(** The cast of the memoized [int8_t]. *)
Definition identity_of_Z (z : Z) : ep_identity_check :=
  if z =? 0 then EP_IDENTITY_MATCH else if z =? 1 then EP_IDENTITY_STALE
  else if z =? 2 then EP_IDENTITY_CLOSED else EP_IDENTITY_ERROR.

Definition ep_socket_identity_is_stable (fd : Z) : MW bool :=
  r <- os (Getsockopt fd SO_TYPE) ;;
  if r =? SOCKET_ERROR then ret false
  else
    socket_type <- os (GetsockoptValue SO_TYPE) ;;
    if negb (i32 socket_type =? SOCK_STREAM) then ret true
    else
      r <- os (Getsockopt fd SO_ACCEPTCONN) ;;
      accepting <- (if r =? 0 then os (GetsockoptValue SO_ACCEPTCONN) else ret 0) ;;
      if (r =? 0) && negb (i32 accepting =? 0) then ret true
      else r <- os (Getpeername fd) ;; ret (r =? 0).

(** [sock->port->identity_failures++], and the portable error of the failure. *)
Definition identity_failure (sock : ptr) (error : Z) : MW ep_identity_check :=
  port <- rd w_socks sock s_port ;;
  failures <- rd w_ports port p_identity_failures ;;
  wr w_ports port p_identity_failures (u64 (failures + 1)) ;;
  ep_set_errno error ;;
  ret EP_IDENTITY_ERROR.

(** The [SO_TYPE] probe of a handle: [None] when it is a live socket, otherwise
    the portable error. *)
Definition probe_live (fd : Z) : MW (option Z) :=
  r <- os (Getsockopt fd SO_TYPE) ;;
  if r =? SOCKET_ERROR then e <- os WSAGetLastError ;; ret (Some (ep_winerr_to_errno (u32 e)))
  else ret None.

Definition stabilize (sock : ptr) : MW unit :=
  fd <- rd w_socks sock s_fd ;;
  stable <- ep_socket_identity_is_stable fd ;;
  if stable : bool then wr w_socks sock s_endpoint_id_state EP_SOCKET_ID_STABLE else ret tt.

Definition ep_sock_validate_identity_locked (sock : ptr) (allow_transition : bool)
    : MW ep_identity_check :=
  kind <- rd w_socks sock s_kind ;;
  if negb (bool_decide (kind = EP_REG_SOCKET)) then ret EP_IDENTITY_MATCH
  else
  id_state <- rd w_socks sock s_endpoint_id_state ;;
  fd <- rd w_socks sock s_fd ;;
  if bool_decide (id_state = EP_SOCKET_ID_UNAVAILABLE) then
    r <- os (Getsockopt fd SO_TYPE) ;;
    if r =? 0 then ret EP_IDENTITY_MATCH
    else
      e <- os WSAGetLastError ;;
      let error := ep_winerr_to_errno (u32 e) in
      if (error =? ENOTSOCK) || (error =? EBADF) then ret EP_IDENTITY_CLOSED
      else identity_failure sock (if negb (error =? 0) then error else EIO)
  else
    r <- ep_socket_get_endpoint_id fd ;;
    let '(identity_result, endpoint_id) := r in
    if identity_result =? 0 then
      live <- probe_live fd ;;
      match live with
      | Some error =>
        if (error =? ENOTSOCK) || (error =? EBADF) then ret EP_IDENTITY_CLOSED
        else identity_failure sock (if negb (error =? 0) then error else EIO)
      | None => identity_failure sock EIO
      end
    else if identity_result <? 0 then
      error <- ep_last_err ;;
      error <- (if error =? 0 then ep_set_errno EIO ;; ret EIO else ret error) ;;
      if (error =? ENOTSOCK) || (error =? EBADF) then ret EP_IDENTITY_CLOSED
      else
        live <- probe_live fd ;;
        match live with
        | Some live_error =>
          if (live_error =? ENOTSOCK) || (live_error =? EBADF) then ret EP_IDENTITY_CLOSED
          else identity_failure sock error
        | None => identity_failure sock error
        end
    else
      registered <- rd w_socks sock s_endpoint_id ;;
      if endpoint_id =? registered then
        (if bool_decide (id_state = EP_SOCKET_ID_TRANSITIONAL) then stabilize sock else ret tt) ;;
        ret EP_IDENTITY_MATCH
      else if bool_decide (id_state = EP_SOCKET_ID_TRANSITIONAL) && allow_transition then
        wr w_socks sock s_endpoint_id endpoint_id ;;
        stabilize sock ;;
        ret EP_IDENTITY_MATCH
      else ret EP_IDENTITY_STALE.

Definition ep_sock_validate_identity_for_delivery_locked (port sock : ptr) : MW ep_identity_check :=
  epoch <- rd w_ports port p_active_wait_epoch ;;
  checked_epoch <- rd w_socks sock s_identity_checked_epoch ;;
  if negb (epoch =? 0) && (checked_epoch =? epoch) then
    checked <- rd w_socks sock s_identity_checked_result ;; ret (identity_of_Z checked)
  else
    result <- ep_sock_validate_identity_locked sock false ;;
    (if negb (epoch =? 0) && negb (bool_decide (result = EP_IDENTITY_ERROR)) then
       wr w_socks sock s_identity_checked_epoch epoch ;;
       wr w_socks sock s_identity_checked_result (identity_Z result)
     else ret tt) ;;
    ret result.

(** ** What the probes leave alone *)

#[export] Instance ioctl_handle_quiet s c e : QuietAction (ep_socket_ioctl_handle s c e).
Proof. unfold ep_socket_ioctl_handle. quieted. Qed.
#[export] Instance ioctl_endpoint_quiet s c : QuietAction (ep_socket_ioctl_endpoint_id s c).
Proof. unfold ep_socket_ioctl_endpoint_id. quieted. Qed.

Section QuietProbes.
Context (ioctl_fn : ep_socket_ioctl_fn) `{Hio : !forall s c e, QuietAction (ioctl_fn s c e)}.
#[export] Instance base_fallback_quiet current visited codes : forall saw,
  QuietAction (base_fallback ioctl_fn current visited codes saw).
Proof. induction codes; intros saw; cbn [base_fallback]; quieted. Qed.
#[export] Instance base_loop_quiet depth : forall current visited,
  QuietAction (base_loop ioctl_fn depth current visited).
Proof. induction depth as [|depth IH]; intros current visited; cbn [base_loop]; quieted. Qed.
End QuietProbes.

#[export] Instance get_base_quiet s : QuietAction (ep_socket_get_base s).
Proof. unfold ep_socket_get_base, ep_socket_get_base_with_ioctl. quieted. Qed.
#[export] Instance get_endpoint_id_quiet s : QuietAction (ep_socket_get_endpoint_id s).
Proof. unfold ep_socket_get_endpoint_id, ep_socket_get_endpoint_id_with_ioctl. quieted. Qed.
#[export] Instance get_protocol_quiet s : QuietAction (ep_socket_get_protocol s).
Proof. unfold ep_socket_get_protocol, read_protocol_info. quieted. Qed.
#[export] Instance identity_is_stable_quiet fd : QuietAction (ep_socket_identity_is_stable fd).
Proof. unfold ep_socket_identity_is_stable. quieted. Qed.
#[export] Instance probe_live_quiet fd : QuietAction (probe_live fd).
Proof. unfold probe_live. quieted. Qed.

(** ** The provider chain is resolved exactly *)

(** A provider that answers each control call by a fixed handle, with one error
    code per socket whose base is not available. *)
Class Provider (ioctl_fn : ep_socket_ioctl_fn) (handle_of : Z -> Z -> Z) (error_of : Z -> Z) : Prop :=
  provider_answers s c e w : wp (ioctl_fn s c e)
    (fun r w' => quiet w w' /\ r.1 = handle_of s c /\ (is_Some e -> r.2 = error_of s)) w.

Section Chain.
Context (ioctl_fn : ep_socket_ioctl_fn) (handle_of : Z -> Z -> Z) (error_of : Z -> Z)
  `{HP : !Provider ioctl_fn handle_of error_of}.

(** The first fallback handle of [current] that is a new layer. *)
Definition new_layer (current : Z) (visited : list Z) (h : Z) : bool :=
  negb ((h =? INVALID_SOCKET) || (h =? current)) && negb (bool_decide (h ∈ visited)).
Definition next_layer (current : Z) (visited codes : list Z) : option Z :=
  find (new_layer current visited) (map (handle_of current) codes).

(** [l] are the layers between [current] and the socket whose base is [b]. *)
Fixpoint layers (visited : list Z) (current : Z) (l : list Z) (b : Z) : Prop :=
  match l with
  | [] => handle_of current SIO_BASE_HANDLE = b /\ b <> INVALID_SOCKET
  | h :: l =>
    handle_of current SIO_BASE_HANDLE = INVALID_SOCKET /\ error_of current <> WSAENOTSOCK /\
    next_layer current visited fallback_ioctls = Some h /\ layers (visited ++ [h]) h l b
  end.

Lemma layers_nodup l : forall visited current b,
  layers visited current l b -> NoDup visited -> NoDup (visited ++ l).
Proof.
  induction l as [|h l IH]; intros visited current b Hl Hn; [by rewrite app_nil_r|].
  destruct Hl as (_ & _ & Hf & Hl).
  assert (Hh : h ∉ visited).
  { apply find_some in Hf as [_ Hf]. unfold new_layer in Hf.
    apply andb_prop in Hf as [_ Hf]. by apply negb_true_iff, bool_decide_eq_false in Hf. }
  change (h :: l) with ([h] ++ l). rewrite app_assoc. apply (IH _ h b Hl).
  apply NoDup_app. split_and!; [done|set_solver|apply NoDup_singleton].
Qed.

Lemma fallback_spec current visited codes : forall saw w,
  wp (base_fallback ioctl_fn current visited codes saw)
    (fun out w' => quiet w w' /\
       match out with
       | Advanced h => next_layer current visited codes = Some h /\ (length visited < 32)%nat
       | Overflow => (32 <= length visited)%nat
       | Exhausted _ => next_layer current visited codes = None
       end) w.
Proof.
  unfold next_layer. induction codes as [|c codes IH]; intros saw w; cbn [base_fallback map find].
  { apply wp_ret. split; [reflexivity|done]. }
  apply wp_bind. eapply wp_mono; [apply provider_answers|]. intros [h e] w1 (Hq & Hh & _).
  cbn [fst] in *. subst h. cbv zeta.
  change (new_layer current visited (handle_of current c)) with
    (negb ((handle_of current c =? INVALID_SOCKET) || (handle_of current c =? current)) &&
     negb (bool_decide (handle_of current c ∈ visited))).
  destruct (_ || _); cbn [negb andb].
  { eapply wp_mono; [apply IH|]. intros out w' [Hq1 Ho]. split; [by etrans|done]. }
  destruct (bool_decide_reflect (handle_of current c ∈ visited)); cbn [negb].
  { eapply wp_mono; [apply IH|]. intros out w' [Hq1 Ho]. split; [by etrans|done]. }
  wif; apply wp_ret; (split; [done|]).
  - lia.
  - split; [done|lia].
Qed.

(** Where a failed walk leaves errno. *)
Definition base_failure (e : Z) : Prop :=
  e = ENOTSOCK \/ e = ELOOP \/ exists s, e = ep_winerr_to_errno (u32 (error_of s)).

Lemma base_loop_spec depth : forall current visited w,
  (length visited + depth = 33)%nat ->
  wp (base_loop ioctl_fn depth current visited)
    (fun b w' => quiet w w' /\
       (b = INVALID_SOCKET /\ base_failure (w_errno w') /\
          (forall l b', (length l < depth)%nat -> ~ layers visited current l b') \/
        exists l, (length l < depth)%nat /\ layers visited current l b)) w.
Proof.
  induction depth as [|depth IH]; intros current visited w Hlen; cbn [base_loop].
  { apply wp_bind. eapply wp_mono; [apply set_errno_quiet|]. intros _ w1 [Hq He]. apply wp_ret.
    split; [done|]. left. split_and!; [done|right; left; done|lia]. }
  assert (Herr : forall e w1, quiet w w1 -> base_failure e ->
    (forall l b', (length l < S depth)%nat -> ~ layers visited current l b') ->
    wp (ep_set_errno e ;; ret INVALID_SOCKET) (fun b w' => quiet w w' /\
      (b = INVALID_SOCKET /\ base_failure (w_errno w') /\
         (forall l b', (length l < S depth)%nat -> ~ layers visited current l b') \/
       exists l, (length l < S depth)%nat /\ layers visited current l b)) w1).
  { intros e w1 Hq1 Hf Hno. apply wp_bind. eapply wp_mono; [apply set_errno_quiet|].
    intros _ w2 [Hq2 He2]. apply wp_ret. split; [by etrans|]. left. by rewrite He2. }
  apply wp_bind. eapply wp_mono; [apply provider_answers|]. intros [base e] w1 (Hq1 & Hb & He).
  cbn [fst snd] in *. rewrite (He ltac:(by eexists)). clear e He.
  destruct (Z.eqb_spec base INVALID_SOCKET) as [E|Hne]; cbn [negb].
  2:{ apply wp_ret. split; [done|]. right. exists []. split; [simpl; lia|done]. }
  subst base.
  destruct (Z.eqb_spec (error_of current) WSAENOTSOCK) as [Hns|Hns].
  { apply Herr; [done|by left|]. intros [|h l] b' _; [|by intros (_ & ? & _)]. intros [? ?]. congruence. }
  apply wp_bind. eapply wp_mono; [apply fallback_spec|]. intros out w2 [Hq2 Ho].
  assert (Hq12 : quiet w w2) by (by etrans).
  destruct out as [h| |saw].
  - destruct Ho as [Hnext Hl]. eapply wp_mono.
    { apply (IH h (visited ++ [h])). rewrite length_app. simpl. lia. }
    intros b w3 [Hq3 Hb]. split; [by etrans|].
    destruct Hb as [(-> & Hf & Hno)|(l & Hlt & Hl')].
    + left. split_and!; [done|done|]. intros [|h' l] b' Hlt Hl'.
      * destruct Hl'. congruence.
      * destruct Hl' as (_ & _ & Hn' & Hl'). rewrite Hnext in Hn'. simplify_eq.
        apply (Hno l b'); [simpl in Hlt; lia|done].
    + right. exists (h :: l). split; [simpl; lia|]. done.
  - apply Herr; [done|by right; left|]. intros [|h l] b' Hlt.
    + intros [? ?]. congruence.
    + simpl in Hlt. lia.
  - assert (Hno : forall l b', (length l < S depth)%nat -> ~ layers visited current l b').
    { intros [|h l] b' _; [by intros [? ?]; congruence|]. intros (_ & _ & Hn & _). congruence. }
    destruct saw; [apply Herr; [done|by right; left|done]|].
    apply wp_bind. eapply wp_mono; [apply set_winsock_error_quiet|]. intros _ w3 [Hq3 He3].
    apply wp_ret. split; [by etrans|]. left. split_and!; [done| |done].
    right; right. by exists current.
Qed.
End Chain.

(** For every provider that answers control calls consistently, the base
    lookup walks the layered sockets exactly: it returns a valid socket iff
    fewer than 32 new layers lead to a socket with a base handle, the layers it
    went through are pairwise distinct, and it returns that socket's base
    handle; otherwise it fails with ENOTSOCK, ELOOP or the translated provider
    error.  It always terminates, cyclic providers included. *)
Theorem provider_base_exact (ioctl_fn : ep_socket_ioctl_fn) (handle_of : Z -> Z -> Z) (error_of : Z -> Z)
    socket w :
  Provider ioctl_fn handle_of error_of -> fault_free w -> socket <> INVALID_SOCKET ->
  wp (ep_socket_get_base_with_ioctl socket (Some ioctl_fn))
    (fun b w' => quiet w w' /\
       ((b = INVALID_SOCKET /\ base_failure error_of (w_errno w') /\
         forall l b', (length l < 32)%nat -> ~ layers handle_of error_of [socket] socket l b') \/
        (b <> INVALID_SOCKET /\ exists l, (length l < 32)%nat /\ NoDup (socket :: l) /\
         layers handle_of error_of [socket] socket l b))) w.
Proof.
  intros HP Hf Hs. unfold ep_socket_get_base_with_ioctl.
  assert (socket =? INVALID_SOCKET = false) as -> by lia.
  apply wp_bind. eapply wp_run; [by apply fault_hit_free|]. cbn [negb Z.eqb].
  eapply wp_mono; [by apply (base_loop_spec ioctl_fn handle_of error_of 32 socket [socket])|].
  intros b w' [Hq [H|(l & Hlt & Hl)]]; (split; [done|]); [by left|right].
  assert (Hb : forall l v c, layers handle_of error_of v c l b -> b <> INVALID_SOCKET).
  { clear. induction l as [|h l IH]; intros v c; [by intros [_ ?]|]. intros (_ & _ & _ & Hl).
    by eapply IH. }
  split; [by eapply Hb|]. exists l. split_and!; [done| |done].
  change (NoDup ([socket] ++ l)). eapply layers_nodup; [exact HP|exact Hl|apply NoDup_singleton].
Qed.

(** Socket 7 is layered over 8, whose SELECT handle leads back to 7 and whose
    POLL handle is 9; 9 has base 42. *)
Definition demo_handle_of (s c : Z) : Z :=
  if (s =? 7) && (c =? SIO_BSP_HANDLE_SELECT) then 8
  else if (s =? 8) && (c =? SIO_BSP_HANDLE_SELECT) then 7
  else if (s =? 8) && (c =? SIO_BSP_HANDLE_POLL) then 9
  else if (s =? 9) && (c =? SIO_BASE_HANDLE) then 42
  else INVALID_SOCKET.
Definition demo_ioctl : ep_socket_ioctl_fn := fun s c _ => ret (demo_handle_of s c, WSAEOPNOTSUPP).

Lemma provider_base_exact_witness :
  exists w', ep_socket_get_base_with_ioctl 7 (Some demo_ioctl) empty_world = Some (42, w') /\
    quiet empty_world w'.
Proof.
  destruct (provider_base_exact demo_ioctl demo_handle_of (fun _ => WSAEOPNOTSUPP) 7 empty_world)
    as (b & w' & Hrun & Hq & _); [|reflexivity|done|].
  - intros s c e w. apply wp_ret. split; [reflexivity|]. by split.
  - exists w'. split; [|exact Hq]. revert Hrun. vm_compute. congruence.
Defined.

(** ** Validation of a registration's identity *)

Section Identity.
Context (a port : addr).

(** The registration and its port are live. *)
Definition registered (w : world) : Prop :=
  exists s p, w_socks w !! a = Some s /\ s_port s = Some port /\ w_ports w !! port = Some p.

(** Only the identity fields of the registration and the failure counter of
    the port change. *)
Definition id_er (s : ep_sock) : ep_sock :=
  s <| s_endpoint_id := 0 |> <| s_endpoint_id_state := EP_SOCKET_ID_UNAVAILABLE |>.
Definition id_frame (w w' : world) : Prop :=
  exists S P, id_er <$> S = id_er <$> w_socks w /\
    (forall x, x <> a -> S !! x = w_socks w !! x) /\
    (fun p => p <| p_identity_failures := 0 |>) <$> P = (fun p => p <| p_identity_failures := 0 |>) <$> w_ports w /\
    quiet (w <| w_socks := S |> <| w_ports := P |>) w'.

#[export] Instance id_frame_preorder : PreOrder id_frame.
Proof.
  split.
  - intros w. exists (w_socks w), (w_ports w). split_and!; [done|done|done|].
    assert (w <| w_socks := w_socks w |> <| w_ports := w_ports w |> = w) as -> by (by destruct w).
    reflexivity.
  - intros w1 w2 w3 (S1 & P1 & E1 & X1 & F1 & Hq1) (S2 & P2 & E2 & X2 & F2 & Hq2). exists S2, P2.
    rewrite (quiet_socks _ _ Hq1) in E2, X2. rewrite (quiet_ports _ _ Hq1) in F2.
    sget_in E2. sget_in X2. sget_in F2. split_and!; [congruence| |congruence|].
    + intros x Hx. by rewrite X2, X1.
    + destruct Hq1 as (e & i & sl & tr & ->). etrans; [|exact Hq2].
      exists e, i, sl, tr. by destruct w1.
Qed.

#[export] Instance id_quiet_within : QuietWithin registered id_frame.
Proof.
  intros w w' Hq (s & p & Hs & Hp & Hw). split.
  - exists s, p. by rewrite (quiet_socks _ _ Hq), (quiet_ports _ _ Hq).
  - exists (w_socks w), (w_ports w). split_and!; [done|done|done|].
    assert (w <| w_socks := w_socks w |> <| w_ports := w_ports w |> = w) as -> by (by destruct w).
    done.
Qed.

#[export] Instance rd_registered {T} (f : ep_sock -> T) :
  Framed registered id_frame (rd w_socks (Some a) f).
Proof.
  intros w (s & p & Hs & Hp & Hw). eapply wp_rd; [exact Hs|]. split; [by exists s, p|reflexivity].
Qed.

Lemma wr_registered {T} (f : ep_sock -> T) `{!Setter f} v :
  (forall s, id_er (s <| f := v |>) = id_er s) -> (forall s, s_port (s <| f := v |>) = s_port s) ->
  Framed registered id_frame (wr w_socks (Some a) f v).
Proof.
  intros He Hport w (s & p & Hs & Hp & Hw). eapply wp_wr; [exact Hs|]. split.
  - exists (s <| f := v |>), p. sget. rewrite lookup_insert_eq. split_and!; [done| |done].
    by rewrite Hport.
  - exists (<[a := s <| f := v |>]> (w_socks w)), (w_ports w). split_and!; [|by intros x Hx; apply lookup_insert_ne|done|].
    + by apply (fmap_insert_same id_er _ _ s).
    + assert (w <| w_socks := <[a := s <| f := v |>]> (w_socks w) |> <| w_ports := w_ports w |> =
        w <| w_socks := <[a := s <| f := v |>]> (w_socks w) |>) as -> by (by destruct w). reflexivity.
Qed.
#[export] Instance wr_endpoint_id v : Framed registered id_frame (wr w_socks (Some a) s_endpoint_id v).
Proof. by apply wr_registered. Qed.
#[export] Instance wr_endpoint_id_state v :
  Framed registered id_frame (wr w_socks (Some a) s_endpoint_id_state v).
Proof. by apply wr_registered. Qed.

#[export] Instance identity_failure_framed error :
  Framed registered id_frame (identity_failure (Some a) error).
Proof.
  intros w (s & p & Hs & Hp & Hw). unfold identity_failure, ep_set_errno. wstep. wstep. rewrite Hp. wsteps.
  split.
  - exists s. eexists. sget. rewrite lookup_insert_eq. done.
  - exists (w_socks w), (<[port := p <| p_identity_failures := u64 (p_identity_failures p + 1) |>]> (w_ports w)).
    split_and!; [done|done| |].
    + apply (fmap_insert_same (fun p => p <| p_identity_failures := 0 |>) _ _ p); [exact Hw|reflexivity].
    + assert (w <| w_socks := w_socks w |> = w) as -> by (by destruct w). apply quiet_error.
Qed.

#[export] Instance stabilize_framed : Framed registered id_frame (stabilize (Some a)).
Proof. unfold stabilize. framed. Qed.

#[export] Instance validate_identity_framed allow :
  Framed registered id_frame (ep_sock_validate_identity_locked (Some a) allow).
Proof. unfold ep_sock_validate_identity_locked. framed. Qed.
End Identity.

Lemma stabilize_spec a w s :
  w_socks w !! a = Some s ->
  wp (stabilize (Some a)) (fun _ w' => exists st, (st = s_endpoint_id_state s \/ st = EP_SOCKET_ID_STABLE) /\
    w_socks w' = <[a := s <| s_endpoint_id_state := st |>]> (w_socks w)) w.
Proof.
  intros Hs. unfold stabilize. wsteps. eapply wp_mono; [apply identity_is_stable_quiet|].
  intros st w1 Hq1. pose proof (quiet_socks _ _ Hq1) as Hs1.
  assert (w_socks w1 !! a = Some s) by (by rewrite Hs1). destruct st.
  - wsteps. exists EP_SOCKET_ID_STABLE. split; [by right|]. sget. by rewrite Hs1.
  - apply wp_ret. exists (s_endpoint_id_state s). split; [by left|].
    assert (s <| s_endpoint_id_state := s_endpoint_id_state s |> = s) as -> by (by destruct s).
    by rewrite insert_id, Hs1.
Qed.

(** When the platform reports an endpoint token for the handle, a
    registration is accepted exactly when the token is the one it was
    registered with, or when it is still transitional and the caller has
    completion evidence; an accepted registration then carries the reported
    token and can only become stable, and a refused one (the handle was closed
    and reused) is left untouched. *)
Theorem identity_match_exact w a s t w1 allow_transition :
  w_socks w !! a = Some s -> s_kind s = EP_REG_SOCKET ->
  s_endpoint_id_state s <> EP_SOCKET_ID_UNAVAILABLE ->
  ep_socket_get_endpoint_id (s_fd s) w = Some ((1, t), w1) ->
  wp (ep_sock_validate_identity_locked (Some a) allow_transition)
    (fun v w' =>
       if (t =? s_endpoint_id s) ||
          (bool_decide (s_endpoint_id_state s = EP_SOCKET_ID_TRANSITIONAL) && allow_transition)
       then v = EP_IDENTITY_MATCH /\ exists st,
         (st = s_endpoint_id_state s \/
          s_endpoint_id_state s = EP_SOCKET_ID_TRANSITIONAL /\ st = EP_SOCKET_ID_STABLE) /\
         w_socks w' = <[a := s <| s_endpoint_id := t |> <| s_endpoint_id_state := st |>]> (w_socks w)
       else v = EP_IDENTITY_STALE /\ w_socks w' = w_socks w) w.
Proof.
  intros Hs Hk Hst Hrun.
  destruct (get_endpoint_id_quiet (s_fd s) w) as (r & w1' & Hrun' & Hq). rewrite Hrun in Hrun'.
  injection Hrun' as <- <-. pose proof (quiet_socks _ _ Hq) as Hs1.
  assert (Hs2 : w_socks w1 !! a = Some s) by (by rewrite Hs1).
  unfold ep_sock_validate_identity_locked. wsteps. rewrite Hk. cbn [negb].
  rewrite bool_decide_eq_true_2 by done. cbn [negb]. wsteps.
  rewrite bool_decide_eq_false_2 by done. apply wp_bind. eapply wp_run; [exact Hrun|].
  cbn [Z.eqb Z.ltb Z.compare]. wsteps.
  assert (Hid : forall st, s <| s_endpoint_id := s_endpoint_id s |> <| s_endpoint_id_state := st |> =
    s <| s_endpoint_id_state := st |>) by (intros; by destruct s).
  destruct (Z.eqb_spec t (s_endpoint_id s)) as [->|Hne]; cbn [orb].
  - case_bool_decide as Htr; wsteps.
    + eapply wp_mono; [by apply stabilize_spec|]. intros _ w2 (st & Hst2 & Hw2). apply wp_ret.
      split; [done|]. exists st. split; [destruct Hst2; auto|]. by rewrite Hid, Hw2, Hs1.
    + split; [done|]. exists (s_endpoint_id_state s). split; [by left|]. rewrite Hid, Hs1.
      assert (s <| s_endpoint_id_state := s_endpoint_id_state s |> = s) as -> by (by destruct s).
      by rewrite insert_id.
  - case_bool_decide as Htr; destruct allow_transition; cbn [andb]; wsteps; try done.
    eapply wp_mono; [apply stabilize_spec; sget; apply lookup_insert_eq|].
    intros _ w2 (st & Hst2 & Hw2). apply wp_ret. split; [done|]. exists st.
    split; [destruct Hst2; auto|]. rewrite Hw2. sget. by rewrite insert_insert_eq, Hs1.
Qed.

(** Within one wait a registration's verdict is decided once: after a
    definite verdict the next delivery check of the same wait answers the same
    verdict without asking the platform or changing anything. *)
Theorem identity_memoized w a port s p :
  w_socks w !! a = Some s -> s_port s = Some port -> w_ports w !! port = Some p ->
  p_active_wait_epoch p <> 0 -> s_identity_checked_epoch s <> p_active_wait_epoch p ->
  wp (ep_sock_validate_identity_for_delivery_locked (Some port) (Some a))
    (fun v w' => v <> EP_IDENTITY_ERROR ->
       ep_sock_validate_identity_for_delivery_locked (Some port) (Some a) w' = Some (v, w')) w.
Proof.
  intros Hs Hport Hp He Hc. unfold ep_sock_validate_identity_for_delivery_locked. wsteps.
  assert (p_active_wait_epoch p =? 0 = false) as -> by lia.
  assert (s_identity_checked_epoch s =? p_active_wait_epoch p = false) as -> by lia. cbn [negb andb].
  apply wp_bind. eapply wp_mono; [apply (validate_identity_framed a port false)|].
  { by exists s, p. }
  intros v w1 [(s1 & p1 & Hs1 & Hport1 & Hp1) (S & P & _ & _ & HP & Hq)].
  assert (Hep : p_active_wait_epoch p1 = p_active_wait_epoch p).
  { rewrite (quiet_ports _ _ Hq) in Hp1. sget_in Hp1.
    apply (f_equal (fun m => p_active_wait_epoch <$> m !! port)) in HP.
    rewrite !lookup_fmap, Hp1, Hp in HP. simpl in HP. congruence. }
  destruct (bool_decide_reflect (v = EP_IDENTITY_ERROR)) as [->|Hv]; cbn [negb]; wsteps; [done|].
  intros _. repeat mstep. rewrite Hep.
  assert (p_active_wait_epoch p =? 0 = false) as -> by lia. rewrite Z.eqb_refl. cbn [negb andb].
  repeat mstep. by destruct v.
Qed.

(** A TCP registration of handle 5 with token 11; the platform reports 12. *)
Definition id_world (token : Z) : world :=
  empty_world
    <| w_socks := {[ 1%positive := zero_sock <| s_fd := 5 |> <| s_endpoint_id := 11 |>
                     <| s_endpoint_id_state := EP_SOCKET_ID_STABLE |> <| s_port := Some 2%positive |> ]} |>
    <| w_ports := {[ 2%positive := zero_port <| p_active_wait_epoch := 1 |> ]} |>
    <| w_os := fun _ r => match r with WSAIoctlResult => token | WSAIoctlBytes => 8 | _ => 0 end |>.

Lemma identity_match_exact_witness :
  exists w', ep_sock_validate_identity_locked (Some 1%positive) true (id_world 12) =
    Some (EP_IDENTITY_STALE, w') /\ w_socks w' = w_socks (id_world 12).
Proof.
  destruct (identity_match_exact (id_world 12) 1%positive
    (zero_sock <| s_fd := 5 |> <| s_endpoint_id := 11 |>
       <| s_endpoint_id_state := EP_SOCKET_ID_STABLE |> <| s_port := Some 2%positive |>) 12
    (exec (ep_socket_get_endpoint_id 5) (id_world 12)) true) as (v & w' & Hrun & Hv & Hw);
    [reflexivity|reflexivity|discriminate|vm_compute; reflexivity|].
  exists w'. split; [rewrite <- Hv; exact Hrun|exact Hw].
Defined.

Lemma identity_memoized_witness :
  exists w', ep_sock_validate_identity_for_delivery_locked (Some 2%positive) (Some 1%positive) (id_world 11) =
      Some (EP_IDENTITY_MATCH, w') /\
    ep_sock_validate_identity_for_delivery_locked (Some 2%positive) (Some 1%positive) w' =
      Some (EP_IDENTITY_MATCH, w').
Proof.
  edestruct (identity_memoized (id_world 11) 1%positive 2%positive) as (v & w' & Hrun & Hm);
    [reflexivity|reflexivity|reflexivity|discriminate|discriminate|].
  assert (v = EP_IDENTITY_MATCH) as ->.
  { revert Hrun. vm_compute. congruence. }
  exists w'. split; [exact Hrun|by apply Hm].
Defined.
