(* ===== verification/PollKeys.v ===== *)
(** * The index of active AFD poll targets

    [src/wepoll_ex_afd.c], 57-376.  AFD couples polls that name the same
    numeric handle, so every poll in flight in the process owns a distinct
    target: the provider socket itself, or a duplicate of it.  The functions run
    under the index lock (the default build has one lock and 256 buckets) and,
    for one registration, under its port's lock. *)
From S2P Require Import Prelude Codes Types Errno Fault Links Quiet.

Definition EP_AFD_POLL_KEY_BUCKETS : Z := 256.

Definition ep_afd_poll_key_bucket (target : Z) : Z :=
  let value := u64 target in
  let value := Z.lxor value (Z.shiftr value 4) in
  let value := Z.lxor value (Z.shiftr value 12) in
  Z.land value (EP_AFD_POLL_KEY_BUCKETS - 1).

(** [bucket->head]. *)
Definition key_head (bucket : Z) : MW ptr := fun w =>
  match w_poll_keys w !! Z.to_nat bucket with Some h => Some (h, w) | None => None end.
Definition set_key_head (bucket : Z) (p : ptr) : MW unit := fun w =>
  match w_poll_keys w !! Z.to_nat bucket with
  | Some _ => Some (tt, w <| w_poll_keys := <[Z.to_nat bucket := p]> (w_poll_keys w) |>)
  | None => None
  end.

(** A bucket holds each registration at most once. *)
Definition key_fuel (w : world) : nat := S (size (w_socks w)).

Fixpoint key_active_loop (fuel : nat) (active : ptr) (target : Z) : MW bool :=
  match active, fuel with
  | None, _ => ret false
  | Some _, O => stuck
  | Some _, S fuel =>
    owned <- rd w_socks active s_afd_poll_key_owned ;;
    assertM owned ;;
    active_target <- rd w_socks active s_afd_poll_target ;;
    if active_target =? target then ret true
    else next <- rd w_socks active s_afd_poll_key_next ;; key_active_loop fuel next target
  end.
Definition ep_afd_poll_key_is_active_locked (bucket target : Z) : MW bool :=
  head <- key_head bucket ;;
  fuel <- get key_fuel ;;
  key_active_loop fuel head target.

(** errno, the Winsock error and the last error of the thread. *)
Definition ep_afd_error_state_save : MW (Z * Z * Z) :=
  error <- ep_last_err ;;
  wsa_error <- os WSAGetLastError ;;
  last_error <- os GetLastError ;;
  ret (error, wsa_error, last_error).
Definition ep_afd_error_state_restore (state : Z * Z * Z) : MW unit :=
  let '(error, wsa_error, last_error) := state in
  ep_set_errno error ;;
  os (WSASetLastError wsa_error) ;;
  os (SetLastError last_error) ;;
  ret tt.

(** The pointer walk: [link] is NULL for [&bucket->head], a registration for
    the address of its link field. *)
Definition read_link (bucket : Z) (link : ptr) : MW ptr :=
  match link with
  | None => key_head bucket
  | Some _ => rd w_socks link s_afd_poll_key_next
  end.
Definition write_link (bucket : Z) (link p : ptr) : MW unit :=
  match link with
  | None => set_key_head bucket p
  | Some _ => wr w_socks link s_afd_poll_key_next p
  end.
Fixpoint key_link_loop (fuel : nat) (bucket : Z) (link sock : ptr) : MW ptr :=
  current <- read_link bucket link ;;
  if bool_decide (current = NULL) || bool_decide (current = sock) then ret link
  else match fuel with
       | O => stuck
       | S fuel => key_link_loop fuel bucket current sock
       end.

Definition ep_afd_poll_key_release_locked (bucket : Z) (sock : ptr) : MW Z :=
  owned <- rd w_socks sock s_afd_poll_key_owned ;;
  assertM owned ;;
  fuel <- get key_fuel ;;
  link <- key_link_loop fuel bucket NULL sock ;;
  current <- read_link bucket link ;;
  assertM (bool_decide (current = sock)) ;;
  (if bool_decide (current = sock) then
     next <- rd w_socks sock s_afd_poll_key_next ;; write_link bucket link next
   else ret tt) ;;
  reservation <- rd w_socks sock s_afd_poll_key_reservation ;;
  wr w_socks sock s_afd_poll_target 0 ;;
  wr w_socks sock s_afd_poll_key_reservation 0 ;;
  wr w_socks sock s_afd_poll_key_next NULL ;;
  wr w_socks sock s_afd_poll_key_owned false ;;
  ret reservation.

Definition ep_afd_poll_key_insert_locked (bucket : Z) (sock : ptr) (target : Z) : MW unit :=
  owned <- rd w_socks sock s_afd_poll_key_owned ;;
  assertM (negb owned) ;;
  next <- rd w_socks sock s_afd_poll_key_next ;;
  assertM (bool_decide (next = NULL)) ;;
  reservation <- rd w_socks sock s_afd_poll_key_reservation ;;
  assertM (reservation =? 0) ;;
  active <- ep_afd_poll_key_is_active_locked bucket target ;;
  assertM (negb active) ;;
  wr w_socks sock s_afd_poll_target target ;;
  wr w_socks sock s_afd_poll_key_reservation 0 ;;
  head <- key_head bucket ;;
  wr w_socks sock s_afd_poll_key_next head ;;
  wr w_socks sock s_afd_poll_key_owned true ;;
  set_key_head bucket sock.

Definition ep_afd_poll_key_try_claim (sock : ptr) (target : Z) : MW bool :=
  let bucket := ep_afd_poll_key_bucket target in
  active <- ep_afd_poll_key_is_active_locked bucket target ;;
  if negb active then ep_afd_poll_key_insert_locked bucket sock target ;; ret true
  else ret false.

(** Room for one more collision: the new capacity, or the errno of the failure. *)
Definition collision_grow (collision_count collision_capacity : Z) : MW (Z + Z) :=
  if collision_count =? collision_capacity then
    let new_capacity := if collision_capacity =? 0 then 8 else u64 (collision_capacity * 2) in
    if (new_capacity <? collision_capacity) || (SIZE_MAX / 8 <? new_capacity) then ret (inr ENOMEM)
    else
      fault <- ep_fault_hit EP_FAULT_AFD_KEY_COLLISION_GROW ;;
      if negb (fault =? 0) then error <- ep_last_err ;; ret (inr error)
      else
        a <- os (Malloc (new_capacity * 8)) ;;
        if a <=? 0 then ret (inr ENOMEM) else ret (inl new_capacity)
  else ret (inl collision_capacity).

(** The [for (;;)] of the claim: the collisions kept (latest first), and the
    portable and native error, both 0 when a duplicate was claimed. *)
Fixpoint key_claim_loop (fuel : nat) (sock : ptr) (base_target : Z) (collisions : list Z)
    (collision_capacity : Z) : MW (list Z * (Z * Z)) :=
  match fuel with
  | O => stuck
  | S fuel =>
    ok <- os (DuplicateHandle base_target) ;;
    if ok =? 0 then
      win_error <- os GetLastError ;;
      let win_error := u32 win_error in
      ret (collisions, (ep_winerr_to_errno win_error, win_error))
    else
      duplicate <- os DuplicatedHandle ;;
      force_collision <- ep_fault_hit_through EP_FAULT_AFD_KEY_FORCE_COLLISION ;;
      claimed <- (if negb (force_collision =? 0) then ret false
                  else ep_afd_poll_key_try_claim sock duplicate) ;;
      if claimed : bool then ret (collisions, (0, 0))
      else
        grown <- collision_grow (Z.of_nat (length collisions)) collision_capacity ;;
        match grown with
        | inr error => os (CloseHandle duplicate) ;; ret (collisions, (error, 0))
        | inl capacity => key_claim_loop fuel sock base_target (duplicate :: collisions) capacity
        end
  end.

Fixpoint close_handles (l : list Z) : MW unit :=
  match l with [] => ret tt | h :: l => os (CloseHandle h) ;; close_handles l end.

(** Rounds that are enough for the claim: one duplicate per registration can
    collide, and the fault point can force as many more as it is set to. *)
Definition claim_fuel (w : world) : nat :=
  S (size (w_socks w)) + Z.to_nat (fs_fail_at (w_fault_slots w EP_FAULT_AFD_KEY_FORCE_COLLISION)).

(** Returns the int result and [*duplicated_out]. *)
Definition ep_afd_poll_key_claim (fuel : nat) (sock : ptr) (base_target : Z) : MW (Z * bool) :=
  owned <- rd w_socks sock s_afd_poll_key_owned ;;
  assertM (negb owned) ;;
  next <- rd w_socks sock s_afd_poll_key_next ;;
  assertM (bool_decide (next = NULL)) ;;
  reservation <- rd w_socks sock s_afd_poll_key_reservation ;;
  assertM (reservation =? 0) ;;
  claimed <- ep_afd_poll_key_try_claim sock base_target ;;
  if claimed : bool then ret (0, false)
  else
    r <- key_claim_loop fuel sock base_target [] 0 ;;
    let '(collisions, (error, win_error)) := r in
    close_handles (rev collisions) ;;
    if negb (error =? 0) then
      ep_set_errno error ;;
      (if negb (win_error =? ERROR_SUCCESS) then
         os (WSASetLastError win_error) ;; os (SetLastError win_error) ;; ret tt
       else ret tt) ;;
      ret (-1, false)
    else ret (0, true).

Definition ep_afd_poll_key_release (sock : ptr) : MW unit :=
  match sock with
  | None => ret tt
  | Some _ =>
    owned <- rd w_socks sock s_afd_poll_key_owned ;;
    if negb owned then
      next <- rd w_socks sock s_afd_poll_key_next ;;
      assertM (bool_decide (next = NULL)) ;;
      reservation <- rd w_socks sock s_afd_poll_key_reservation ;;
      assertM (reservation =? 0)
    else
      target <- rd w_socks sock s_afd_poll_target ;;
      reservation <- ep_afd_poll_key_release_locked (ep_afd_poll_key_bucket target) sock ;;
      if negb (reservation =? 0) then
        error_state <- ep_afd_error_state_save ;;
        os (CloseHandle reservation) ;;
        ep_afd_error_state_restore error_state
      else ret tt
  end.

(** The handle that keeps the duplicate's slot occupied, 0 when none does. *)
Definition key_reserve (target : Z) (reserve_slot : bool) : MW Z :=
  closed <- os (CloseHandle target) ;;
  if negb (closed =? 0) && reserve_slot then
    fault <- ep_fault_hit EP_FAULT_AFD_KEY_RESERVATION ;;
    if fault =? 0 then
      reservation <- os CreateEventW ;;
      if negb (reservation =? target) && negb (reservation =? 0) then
        os (CloseHandle reservation) ;; ret 0
      else ret reservation
    else ret 0
  else ret 0.

Definition ep_afd_poll_duplicate_finish (sock : ptr) (reserve_slot : bool) : MW unit :=
  error_state <- ep_afd_error_state_save ;;
  target <- rd w_socks sock s_afd_poll_target ;;
  owned <- rd w_socks sock s_afd_poll_key_owned ;;
  assertM owned ;;
  reservation <- rd w_socks sock s_afd_poll_key_reservation ;;
  assertM (reservation =? 0) ;;
  reservation <- key_reserve target reserve_slot ;;
  (if negb (reservation =? 0) then wr w_socks sock s_afd_poll_key_reservation reservation
   else ret tt) ;;
  ep_afd_error_state_restore error_state.

Definition ep_afd_poll_duplicate_abandon (sock : ptr) : MW unit :=
  ep_afd_poll_duplicate_finish sock false ;;
  ep_afd_poll_key_release sock.

(** ** Invariant and abstraction *)

Abbreviation key_chain w := (chain (link s_afd_poll_key_next (w_socks w))).

(** Bucket [b] threads exactly the owning registrations whose target hashes to
    [b]; the others have no link and no reservation; targets are distinct. *)
Record keys_inv (w : world) (B : Z -> list addr) : Prop := {
  ki_head b : 0 <= b < 256 -> exists h, w_poll_keys w !! Z.to_nat b = Some h /\ key_chain w h (B b);
  ki_nodup b : 0 <= b < 256 -> NoDup (B b);
  ki_in a s : w_socks w !! a = Some s -> s_afd_poll_key_owned s = true ->
    a ∈ B (ep_afd_poll_key_bucket (s_afd_poll_target s));
  ki_out b a : 0 <= b < 256 -> a ∈ B b -> exists s, w_socks w !! a = Some s /\
    s_afd_poll_key_owned s = true /\ ep_afd_poll_key_bucket (s_afd_poll_target s) = b;
  ki_free a s : w_socks w !! a = Some s -> s_afd_poll_key_owned s = false ->
    s_afd_poll_key_next s = NULL /\ s_afd_poll_key_reservation s = 0;
  ki_unique a s a' s' : w_socks w !! a = Some s -> w_socks w !! a' = Some s' ->
    s_afd_poll_key_owned s = true -> s_afd_poll_key_owned s' = true ->
    s_afd_poll_target s = s_afd_poll_target s' -> a = a'
}.

(** The target each registration owns. *)
Definition key_of (s : ep_sock) : option Z :=
  if s_afd_poll_key_owned s then Some (s_afd_poll_target s) else None.
Definition poll_keys (w : world) : gmap addr Z := omap key_of (w_socks w).

Lemma poll_keys_Some w a t :
  poll_keys w !! a = Some t <-> exists s, w_socks w !! a = Some s /\
    s_afd_poll_key_owned s = true /\ s_afd_poll_target s = t.
Proof.
  unfold poll_keys. rewrite lookup_omap_Some. unfold key_of. split.
  - intros (s & Hk & Hs). exists s. by destruct (s_afd_poll_key_owned s); simplify_eq.
  - intros (s & Hs & Ho & <-). exists s. by rewrite Ho.
Qed.

(** Only the key fields, the index, the trace and the error channel change. *)
Definition key_er (s : ep_sock) : ep_sock :=
  s <| s_afd_poll_target := 0 |> <| s_afd_poll_key_reservation := 0 |>
    <| s_afd_poll_key_next := NULL |> <| s_afd_poll_key_owned := false |>.
Definition keyed (w w' : world) : Prop :=
  exists K H, key_er <$> H = key_er <$> w_socks w /\
    quiet (w <| w_poll_keys := K |> <| w_socks := H |>) w'.

#[export] Instance keyed_preorder : PreOrder keyed.
Proof.
  split.
  - intros w. exists (w_poll_keys w), (w_socks w). split; [done|].
    assert (w <| w_poll_keys := w_poll_keys w |> <| w_socks := w_socks w |> = w) as -> by (by destruct w).
    reflexivity.
  - intros w1 w2 w3 (K1 & H1 & E1 & Hq1) (K2 & H2 & E2 & Hq2). exists K2, H2.
    rewrite (quiet_socks _ _ Hq1) in E2. sget_in E2. split; [congruence|].
    destruct Hq1 as (e & i & sl & tr & ->). etrans; [|exact Hq2].
    exists e, i, sl, tr. by destruct w1.
Qed.

Lemma keyed_quiet w w' : quiet w w' -> keyed w w'.
Proof.
  intros Hq. exists (w_poll_keys w), (w_socks w). split; [done|].
  assert (w <| w_poll_keys := w_poll_keys w |> <| w_socks := w_socks w |> = w) as -> by (by destruct w).
  done.
Qed.

Lemma key_bucket_range target : 0 <= ep_afd_poll_key_bucket target < 256.
Proof.
  unfold ep_afd_poll_key_bucket. cbv zeta. set (v := Z.lxor _ _).
  change (EP_AFD_POLL_KEY_BUCKETS - 1) with (Z.ones 8). rewrite Z.land_ones by lia.
  by apply Z.mod_pos_bound.
Qed.

Lemma keys_inv_quiet w w' B : quiet w w' -> keys_inv w B -> keys_inv w' B.
Proof.
  intros Hq [H1 H2 H3 H4 H5 H6].
  split; rewrite ?(quiet_socks _ _ Hq), ?(quiet_poll_keys _ _ Hq); done.
Qed.

Lemma chain_size w h l : key_chain w h l -> NoDup l -> (length l <= size (w_socks w))%nat.
Proof. intros Hc Hn. by eapply chain_length. Qed.

(** ** Looking a target up *)

Lemma active_loop_run w l : forall fuel h target,
  key_chain w h l -> (length l <= fuel)%nat ->
  (forall a, a ∈ l -> exists s, w_socks w !! a = Some s /\ s_afd_poll_key_owned s = true) ->
  exists b, key_active_loop fuel h target w = Some (b, w) /\
    (b = true <-> exists a s, a ∈ l /\ w_socks w !! a = Some s /\ s_afd_poll_target s = target).
Proof.
  induction l as [|a l IH]; intros fuel h target Hc Hf Ho.
  - simpl in Hc. subst h. exists false. split; [by destruct fuel|].
    split; [done|]. by intros (x & s & ?%elem_of_nil & _).
  - destruct Hc as [-> (q & Hq & Hc)]. destruct fuel as [|fuel]; [simpl in Hf; lia|].
    destruct (Ho a) as (s & Hs & Howned); [by left|]. cbn [key_active_loop].
    unfold link in Hq. rewrite Hs in Hq. simpl in Hq. injection Hq as <-.
    repeat mstep. rewrite Howned. repeat mstep.
    destruct (Z.eqb_spec (s_afd_poll_target s) target) as [E|E].
    + exists true. split; [done|]. split; [|done]. intros _. exists a, s. split; [by left|done].
    + mstep. destruct (IH fuel _ target Hc) as (b & Hrun & Hb).
      { simpl in Hf. lia. } { intros x Hx. apply Ho. by right. }
      exists b. split; [done|]. rewrite Hb. split; intros (x & sx & Hx & Hsx & Ex); exists x, sx.
      * split; [by right|done].
      * apply elem_of_cons in Hx as [->|Hx]; [congruence|done].
Qed.

Lemma is_active_run w B target :
  keys_inv w B ->
  exists b, ep_afd_poll_key_is_active_locked (ep_afd_poll_key_bucket target) target w = Some (b, w) /\
    (b = true <-> exists a, poll_keys w !! a = Some target).
Proof.
  intros HI. pose proof (key_bucket_range target) as Hr.
  destruct (ki_head _ _ HI _ Hr) as (h & Hh & Hc).
  pose proof (chain_size _ _ _ Hc (ki_nodup _ _ HI _ Hr)) as Hlen.
  destruct (active_loop_run w (B (ep_afd_poll_key_bucket target)) (key_fuel w) h target)
    as (b & Hrun & Hb); [done|unfold key_fuel; lia| |].
  { intros a Ha. destruct (ki_out _ _ HI _ a Hr Ha) as (s & ? & ? & _). eauto. }
  exists b. split.
  - unfold ep_afd_poll_key_is_active_locked. rewrite (bind_some _ _ w h w) by (unfold key_head; by rewrite Hh).
    mstep. done.
  - rewrite Hb. split.
    + intros (a & s & Ha & Hs & Ht). exists a. apply poll_keys_Some. exists s.
      destruct (ki_out _ _ HI _ a Hr Ha) as (s' & ? & ? & _). by simplify_eq.
    + intros (a & (s & Hs & Ho & <-)%poll_keys_Some). exists a, s. split_and!; [|done|done].
      by apply (ki_in _ _ HI).
Qed.

(** ** Claiming a target *)

Definition owning (s : ep_sock) (target : Z) (head : ptr) : ep_sock :=
  s <| s_afd_poll_target := target |> <| s_afd_poll_key_reservation := 0 |>
    <| s_afd_poll_key_next := head |> <| s_afd_poll_key_owned := true |>.

Lemma insert_run w B a s target h :
  keys_inv w B -> w_socks w !! a = Some s -> s_afd_poll_key_owned s = false ->
  (forall x, poll_keys w !! x <> Some target) ->
  w_poll_keys w !! Z.to_nat (ep_afd_poll_key_bucket target) = Some h ->
  ep_afd_poll_key_insert_locked (ep_afd_poll_key_bucket target) (Some a) target w =
    Some (tt, w <| w_poll_keys := <[Z.to_nat (ep_afd_poll_key_bucket target) := Some a]> (w_poll_keys w) |>
                <| w_socks := <[a := owning s target h]> (w_socks w) |>).
Proof.
  intros HI Ha Ho Hfree Hh. destruct (ki_free _ _ HI a s Ha Ho) as [Hn Hres].
  destruct (is_active_run w B target HI) as (b & Hact & Hb).
  assert (b = false) as ->.
  { destruct b; [|done]. destruct (proj1 Hb eq_refl) as [x Hx]. by destruct (Hfree x). }
  unfold ep_afd_poll_key_insert_locked. repeat mstep. rewrite Ho. repeat mstep. rewrite Hn.
  repeat mstep. rewrite Hres. cbn [Z.eqb]. mstep. rewrite (bind_some _ _ _ _ _ Hact). repeat mstep.
  set (w1 := w <| w_socks := _ |> <| w_socks := _ |>).
  rewrite (bind_some _ _ w1 h w1) by (unfold key_head, w1; sget; by rewrite Hh).
  unfold w1. repeat mstep. unfold set_key_head. sget. rewrite Hh, !insert_insert_eq. by destruct w.
Qed.

Lemma link_owning_ne w a s target h x :
  x <> a -> link s_afd_poll_key_next (<[a := owning s target h]> (w_socks w)) x =
            link s_afd_poll_key_next (w_socks w) x.
Proof. intros. by rewrite link_insert_ne. Qed.

Lemma insert_inv w B a s target h :
  keys_inv w B -> w_socks w !! a = Some s -> s_afd_poll_key_owned s = false ->
  (forall x, poll_keys w !! x <> Some target) ->
  w_poll_keys w !! Z.to_nat (ep_afd_poll_key_bucket target) = Some h ->
  keys_inv (w <| w_poll_keys := <[Z.to_nat (ep_afd_poll_key_bucket target) := Some a]> (w_poll_keys w) |>
              <| w_socks := <[a := owning s target h]> (w_socks w) |>)
    (fun b => if b =? ep_afd_poll_key_bucket target then a :: B b else B b).
Proof.
  intros HI Ha Ho Hfree Hh. pose proof (key_bucket_range target) as Hr.
  assert (Hnot : forall b, 0 <= b < 256 -> a ∉ B b).
  { intros b Hb Hin. destruct (ki_out _ _ HI b a Hb Hin) as (s' & ? & ? & _). congruence. }
  assert (Hext : forall b q, 0 <= b < 256 -> key_chain w q (B b) ->
    chain (link s_afd_poll_key_next (<[a := owning s target h]> (w_socks w))) q (B b)).
  { intros b q Hb Hc. eapply chain_ext; [|exact Hc]. intros x Hx. apply link_owning_ne.
    intros ->. by apply (Hnot b). }
  assert (Hcases : forall x sx, <[a := owning s target h]> (w_socks w) !! x = Some sx ->
    x = a /\ sx = owning s target h \/ x <> a /\ w_socks w !! x = Some sx).
  { intros x sx [[-> <-]|[? ?]]%lookup_insert_Some; auto. }
  split; sget.
  - intros b Hb. destruct (ki_head _ _ HI b Hb) as (hb & Hhb & Hc). destruct (Z.eqb_spec b (ep_afd_poll_key_bucket target)) as [->|Hne].
    + exists (Some a). rewrite list_lookup_insert_eq by (by eapply lookup_lt_Some). split; [done|].
      split; [done|]. exists h. split; [apply link_insert_eq|]. simplify_eq. by apply Hext.
    + exists hb. rewrite list_lookup_insert_ne by lia. split; [done|]. by apply Hext.
  - intros b Hb. destruct (b =? _); [|by apply (ki_nodup _ _ HI)].
    constructor; [by apply Hnot|by apply (ki_nodup _ _ HI)].
  - intros x sx [[-> ->]|[Hne Hx]]%Hcases Hox.
    + change (s_afd_poll_target (owning s target h)) with target. rewrite Z.eqb_refl. by left.
    + pose proof (ki_in _ _ HI x sx Hx Hox). destruct (_ =? _); [by right|done].
  - intros b x Hb Hx.
    assert (x = a /\ b = ep_afd_poll_key_bucket target \/ x ∈ B b) as [[-> ->]|Hx'].
    { destruct (Z.eqb_spec b (ep_afd_poll_key_bucket target)); [|by right].
      apply elem_of_cons in Hx as [->|Hx]; auto. }
    + eexists. split; [apply lookup_insert_eq|done].
    + destruct (ki_out _ _ HI b x Hb Hx') as (sx & Hsx & ? & ?). exists sx.
      rewrite lookup_insert_ne; [done|]. intros ->. by apply (Hnot b).
  - intros x sx [[-> ->]|[Hne Hx]]%Hcases Hox; [done|]. by apply (ki_free _ _ HI x).
  - intros x sx y sy Hx Hy Hox Hoy Ht.
    apply Hcases in Hx as [[-> ->]|[Hxa Hx]]; apply Hcases in Hy as [[-> ->]|[Hya Hy]].
    + done.
    + destruct (Hfree y). apply poll_keys_Some. by exists sy.
    + destruct (Hfree x). apply poll_keys_Some. by exists sx.
    + by eapply (ki_unique _ _ HI).
Qed.

(** Claiming succeeds exactly when no poll in flight owns the target. *)
Lemma key_try_claim_spec w B a s target :
  keys_inv w B -> w_socks w !! a = Some s -> s_afd_poll_key_owned s = false ->
  exists b w' B', ep_afd_poll_key_try_claim (Some a) target w = Some (b, w') /\ keys_inv w' B' /\
    (b = false /\ w' = w /\ (exists x, poll_keys w !! x = Some target) \/
     b = true /\ (forall x, poll_keys w !! x <> Some target) /\
       keyed w w' /\ (exists s', w_socks w' !! a = Some s' /\ s_afd_poll_key_reservation s' = 0) /\
       w_trace w' = w_trace w /\ poll_keys w' = <[a := target]> (poll_keys w)).
Proof.
  intros HI Ha Ho. destruct (is_active_run w B target HI) as (b & Hact & Hb).
  unfold ep_afd_poll_key_try_claim. cbv zeta. rewrite (bind_some _ _ _ _ _ Hact).
  destruct b; cbn [negb].
  - exists false, w, B. split; [done|]. split; [done|]. left. split_and!; [done|done|by apply Hb].
  - destruct (ki_head _ _ HI _ (key_bucket_range target)) as (h & Hh & _).
    assert (Hfree : forall x, poll_keys w !! x <> Some target).
    { intros x Hx. assert (false = true) by (apply Hb; eauto). done. }
    rewrite (bind_some _ _ _ _ _ (insert_run w B a s target h HI Ha Ho Hfree Hh)).
    eexists true, _, _. split; [reflexivity|]. split; [by apply insert_inv|]. right.
    split_and!; try done.
    + exists (<[Z.to_nat (ep_afd_poll_key_bucket target) := Some a]> (w_poll_keys w)), (<[a := owning s target h]> (w_socks w)).
      split; [by apply (fmap_insert_same key_er _ _ s)|reflexivity].
    + exists (owning s target h). sget. by rewrite lookup_insert_eq.
    + unfold poll_keys. sget. by rewrite (omap_insert_Some _ _ _ _ target).
Qed.

(** ** Releasing a target *)

Lemma read_link_run w b h l0 l :
  w_poll_keys w !! Z.to_nat b = Some h -> key_chain w h (l0 ++ l) ->
  read_link b (last l0) w = Some (head l, w).
Proof.
  intros Hh Hc. destruct (last l0) as [z|] eqn:Ez; cbn [read_link].
  - pose proof (chain_app_next _ _ _ _ _ Hc Ez) as Hz. unfold link in Hz.
    destruct (w_socks w !! z) as [s|] eqn:Es; [|done]. simpl in Hz. injection Hz as Hz.
    rewrite (rd_some _ _ _ _ _ Es). by rewrite Hz.
  - apply last_None in Ez as ->. unfold key_head. rewrite Hh. by rewrite (chain_head _ _ _ Hc).
Qed.

Lemma link_loop_run w b h a l2 : forall l1 l0 fuel,
  w_poll_keys w !! Z.to_nat b = Some h -> key_chain w h (l0 ++ l1 ++ a :: l2) ->
  a ∉ l1 -> (length l1 <= fuel)%nat ->
  key_link_loop fuel b (last l0) (Some a) w = Some (last (l0 ++ l1), w).
Proof.
  induction l1 as [|c l1 IH]; intros l0 fuel Hh Hc Ha Hf.
  - rewrite app_nil_r. destruct fuel; cbn [key_link_loop];
      rewrite (bind_some _ _ _ _ _ (read_link_run w b h l0 (a :: l2) Hh Hc)); cbn [head];
      by rewrite (bool_decide_eq_true_2 (Some a = Some a)), orb_true_r.
  - destruct fuel as [|fuel]; [simpl in Hf; lia|]. cbn [key_link_loop].
    rewrite (bind_some _ _ _ _ _ (read_link_run w b h l0 (c :: l1 ++ a :: l2) Hh Hc)). cbn [head].
    rewrite (bool_decide_eq_false_2 (Some c = NULL)), bool_decide_eq_false_2 by (done || set_solver).
    cbn [orb]. assert (E : Some c = last (l0 ++ [c])) by (by rewrite last_snoc). rewrite E.
    replace (l0 ++ c :: l1) with ((l0 ++ [c]) ++ l1) by (by rewrite <- app_assoc).
    apply IH; [done|by rewrite <- app_assoc|set_solver|simpl in Hf; lia].
Qed.

Definition freed (s : ep_sock) : ep_sock :=
  s <| s_afd_poll_target := 0 |> <| s_afd_poll_key_reservation := 0 |>
    <| s_afd_poll_key_next := NULL |> <| s_afd_poll_key_owned := false |>.

(** The index and the heap after [a] is taken out between [l1] and [l2]. *)
Definition without (w : world) (b : Z) (a : addr) (s : ep_sock) (l1 l2 : list addr) : world :=
  w <| w_poll_keys := <[Z.to_nat b := head (l1 ++ l2)]> (w_poll_keys w) |>
    <| w_socks := <[a := freed s]> (upd (w_socks w) (last l1)
                    (set s_afd_poll_key_next (fun _ => head l2))) |>.

Lemma release_run w B a s l1 l2 :
  keys_inv w B -> w_socks w !! a = Some s -> s_afd_poll_key_owned s = true ->
  B (ep_afd_poll_key_bucket (s_afd_poll_target s)) = l1 ++ a :: l2 ->
  ep_afd_poll_key_release_locked (ep_afd_poll_key_bucket (s_afd_poll_target s)) (Some a) w =
    Some (s_afd_poll_key_reservation s,
          without w (ep_afd_poll_key_bucket (s_afd_poll_target s)) a s l1 l2).
Proof.
  intros HI Ha Ho HB. set (b := ep_afd_poll_key_bucket (s_afd_poll_target s)) in *.
  assert (Hr : 0 <= b < 256) by apply key_bucket_range.
  destruct (ki_head _ _ HI b Hr) as (h & Hh & Hc). pose proof (ki_nodup _ _ HI b Hr) as Hnd.
  rewrite HB in Hc, Hnd. pose proof (chain_size _ _ _ Hc Hnd) as Hlen. rewrite length_app in Hlen.
  apply NoDup_app in Hnd as (_ & Hd & [Ha2 _]%NoDup_cons).
  assert (Ha1 : a ∉ l1) by (intros Hin; by apply (Hd a Hin); left).
  unfold ep_afd_poll_key_release_locked. repeat mstep. rewrite Ho. repeat mstep.
  rewrite (bind_some _ _ w (last l1) w).
  2:{ apply (link_loop_run w b h a l2 l1 []); [done|done|done|unfold key_fuel; lia]. }
  rewrite (bind_some _ _ _ _ _ (read_link_run w b h l1 (a :: l2) Hh Hc)). cbn [head].
  rewrite bool_decide_eq_true_2 by done. repeat mstep.
  assert (Hnext : s_afd_poll_key_next s = head l2).
  { assert (Hn : link s_afd_poll_key_next (w_socks w) a = Some (head l2)).
    { apply (chain_app_next _ h (l1 ++ [a])); [by rewrite <- app_assoc|by rewrite last_snoc]. }
    unfold link in Hn. rewrite Ha in Hn. by injection Hn. }
  rewrite Hnext.
  assert (Hau : upd (w_socks w) (last l1) (set s_afd_poll_key_next (fun _ => head l2)) !! a = Some s).
  { rewrite upd_lookup, decide_False; [done|]. by intros ?%last_Some_elem_of. }
  rewrite (bind_some _ _ w tt (w <| w_poll_keys := <[Z.to_nat b := head (l1 ++ l2)]> (w_poll_keys w) |>
    <| w_socks := upd (w_socks w) (last l1) (set s_afd_poll_key_next (fun _ => head l2)) |>)).
  2:{ destruct (last l1) as [z|] eqn:Ez; cbn [write_link].
      - rewrite list_insert_id.
        + rewrite wr_upd; [by destruct w|]. destruct (chain_defined _ _ _ z Hc) as [q Hq].
          { apply elem_of_app. left. by apply last_Some_elem_of. }
          unfold link in Hq. by destruct (w_socks w !! z).
        + rewrite Hh, (chain_head _ _ _ Hc). by destruct l1.
      - apply last_None in Ez as ->. unfold set_key_head. rewrite Hh. cbn [upd]. by destruct w. }
  repeat mstep. unfold without. sget. rewrite !insert_insert_eq. by destruct w.
Qed.

Lemma release_inv w B a s l1 l2 :
  keys_inv w B -> w_socks w !! a = Some s -> s_afd_poll_key_owned s = true ->
  B (ep_afd_poll_key_bucket (s_afd_poll_target s)) = l1 ++ a :: l2 ->
  let b0 := ep_afd_poll_key_bucket (s_afd_poll_target s) in
  keys_inv (without w b0 a s l1 l2) (fun b => if b =? b0 then l1 ++ l2 else B b).
Proof.
  intros HI Ha Ho HB b0. change (B b0 = l1 ++ a :: l2) in HB. unfold without. set (S0 := <[a := freed s]> _).
  assert (Hr : 0 <= b0 < 256) by apply key_bucket_range.
  destruct (ki_head _ _ HI b0 Hr) as (h & Hh & Hc). pose proof (ki_nodup _ _ HI b0 Hr) as Hnd.
  rewrite HB in Hc, Hnd. pose proof Hnd as (_ & Hd & [Ha2 _]%NoDup_cons)%NoDup_app.
  assert (Ha1 : a ∉ l1) by (intros Hin; by apply (Hd a Hin); left).
  assert (Hlast : forall z, last l1 = Some z -> z ∈ B b0)
    by (intros z Ez%last_Some_elem_of; rewrite HB; set_solver).
  assert (Hlook : forall x sx, S0 !! x = Some sx -> x = a /\ sx = freed s \/
    x <> a /\ exists s0, w_socks w !! x = Some s0 /\ s_afd_poll_key_owned sx = s_afd_poll_key_owned s0 /\
      s_afd_poll_target sx = s_afd_poll_target s0 /\
      s_afd_poll_key_reservation sx = s_afd_poll_key_reservation s0 /\
      (last l1 <> Some x -> sx = s0)).
  { intros x sx [[-> <-]|[Hne Hx]]%lookup_insert_Some; [by left|right].
    split; [done|]. rewrite upd_lookup in Hx. case_decide as El.
    - destruct (w_socks w !! x) as [s0|]; [|done]. simpl in Hx. injection Hx as <-. by exists s0.
    - by exists sx. }
  assert (Hlookup : forall x s0, x <> a -> w_socks w !! x = Some s0 ->
    exists sx, S0 !! x = Some sx /\ s_afd_poll_key_owned sx = s_afd_poll_key_owned s0 /\
      s_afd_poll_target sx = s_afd_poll_target s0).
  { intros x s0 Hne Hx. unfold S0. rewrite lookup_insert_ne, upd_lookup, Hx by done.
    case_decide; eexists; (split; [reflexivity|done]). }
  assert (Hlinks : forall x, x <> a -> last l1 <> Some x ->
    link s_afd_poll_key_next S0 x = link s_afd_poll_key_next (w_socks w) x).
  { intros x Hne El. unfold link, S0. by rewrite lookup_insert_ne, upd_lookup, decide_False. }
  assert (Hmem : forall b x, 0 <= b < 256 -> x ∈ (if b =? b0 then l1 ++ l2 else B b) -> x ∈ B b /\ x <> a).
  { intros b x Hb. destruct (Z.eqb_spec b b0) as [->|Hne]; [rewrite HB; set_solver|].
    intros Hx. split; [done|]. intros ->. destruct (ki_out _ _ HI b a Hb Hx) as (s' & ? & ? & ?).
    simplify_eq. }
  split; sget.
  - intros b Hb. destruct (Z.eqb_spec b b0) as [->|Hne].
    + exists (head (l1 ++ l2)). rewrite list_lookup_insert_eq by (by eapply lookup_lt_Some). split; [done|].
      apply (chain_remove _ _ h _ a _ Hnd Hc).
      * intros z Ez. unfold link, S0. assert (z <> a) by (intros ->; by apply Ha1, last_Some_elem_of).
        rewrite lookup_insert_ne, upd_lookup, decide_True by done.
        destruct (ki_out _ _ HI b0 z Hr (Hlast z Ez)) as (sz & -> & _). done.
      * intros x Hx El. apply Hlinks; [|done]. intros ->. set_solver.
    + destruct (ki_head _ _ HI b Hb) as (hb & Hhb & Hcb). exists hb.
      rewrite list_lookup_insert_ne by lia. split; [done|]. eapply chain_ext; [|exact Hcb].
      intros x Hx. assert (Hxb : forall y, y ∈ B b0 -> x <> y).
      { intros y Hy ->. destruct (ki_out _ _ HI b y Hb Hx) as (? & ? & ? & <-).
        destruct (ki_out _ _ HI b0 y Hr Hy) as (? & ? & ? & E). simplify_eq. }
      apply Hlinks; [apply Hxb; rewrite HB; set_solver|]. intros E. by apply (Hxb x (Hlast x E)).
  - intros b Hb. destruct (b =? b0); [|by apply (ki_nodup _ _ HI)].
    apply NoDup_app in Hnd as (H1 & H2 & [_ H3]%NoDup_cons). apply NoDup_app. split_and!; [done| |done].
    intros x Hx1 Hx2. apply (H2 x Hx1). by right.
  - intros x sx [[-> ->]|(Hne & s0 & Hs0 & Eo & Et & _)]%Hlook Hox; [done|]. rewrite Et.
    pose proof (ki_in _ _ HI x s0 Hs0 ltac:(congruence)) as Hin.
    destruct (Z.eqb_spec (ep_afd_poll_key_bucket (s_afd_poll_target s0)) b0) as [E|]; [|done].
    rewrite E, HB in Hin. set_solver.
  - intros b x Hb [Hx Hne]%Hmem; [|done].
    destruct (ki_out _ _ HI b x Hb Hx) as (s0 & Hs0 & Ho0 & Eb).
    destruct (Hlookup x s0 Hne Hs0) as (sx & Hsx & Eo & Et). exists sx. split_and!; congruence.
  - intros x sx [[-> ->]|(Hne & s0 & Hs0 & Eo & Et & Er & Es)]%Hlook Hox; [done|].
    rewrite Es; [by apply (ki_free _ _ HI x s0 Hs0); congruence|].
    intros El. destruct (ki_out _ _ HI b0 x Hr (Hlast x El)) as (? & ? & ? & _). congruence.
  - intros x sx y sy [[-> ->]|(Hx & s1 & Hs1 & Eo1 & Et1 & _)]%Hlook
      [[-> ->]|(Hy & s2 & Hs2 & Eo2 & Et2 & _)]%Hlook Hox Hoy Ht; try done.
    apply (ki_unique _ _ HI x s1 y s2); congruence.
Qed.

Lemma without_keyed w b a s l1 l2 :
  w_socks w !! a = Some s -> a ∉ l1 -> keyed w (without w b a s l1 l2).
Proof.
  intros Ha Ha1. unfold without. eexists _, _. split; [|reflexivity].
  rewrite (fmap_insert_same key_er _ _ s); [by apply fmap_upd_same| |done].
  rewrite upd_lookup, decide_False; [done|]. by intros ?%last_Some_elem_of.
Qed.

Lemma omap_key_upd (h : gmap addr ep_sock) p q :
  omap key_of (upd h p (set s_afd_poll_key_next (fun _ => q))) = omap key_of h.
Proof.
  apply map_eq. intros x. rewrite !lookup_omap, upd_lookup. case_decide; [|done].
  by destruct (h !! x).
Qed.

(** Taking an owned target out of the index. *)
Lemma release_locked_spec w B a s :
  keys_inv w B -> w_socks w !! a = Some s -> s_afd_poll_key_owned s = true ->
  wp (ep_afd_poll_key_release_locked (ep_afd_poll_key_bucket (s_afd_poll_target s)) (Some a))
    (fun r w' => r = s_afd_poll_key_reservation s /\ (exists B', keys_inv w' B') /\ keyed w w' /\
       w_errno w' = w_errno w /\ w_os w' = w_os w /\ w_trace w' = w_trace w /\
       poll_keys w' = delete a (poll_keys w)) w.
Proof.
  intros HI Ha Ho. pose proof (ki_in _ _ HI a s Ha Ho) as Hin.
  apply list_elem_of_split in Hin as (l1 & l2 & HB).
  eapply wp_run; [by apply (release_run w B a s l1 l2)|].
  pose proof (ki_nodup _ _ HI _ (key_bucket_range (s_afd_poll_target s))) as Hnd. rewrite HB in Hnd.
  apply NoDup_app in Hnd as (_ & Hd & _).
  split_and!; try done.
  - eexists. by apply release_inv.
  - apply without_keyed; [done|]. intros Hin. apply (Hd a Hin). by left.
  - unfold poll_keys, without. sget. by rewrite omap_insert_None, omap_key_upd.
Qed.

(** ** Handles opened and closed *)

(** The handles the duplications and reservations of a trace produced, and
    those it closed. *)
Fixpoint opened_by (o : list os_request -> os_request -> Z) (tr : list os_request) : list Z :=
  match tr with
  | [] => []
  | DuplicatedHandle :: tr => o tr DuplicatedHandle :: opened_by o tr
  | CreateEventW :: tr =>
    if o tr CreateEventW =? 0 then opened_by o tr
    else o tr CreateEventW :: opened_by o tr
  | _ :: tr => opened_by o tr
  end.
Fixpoint closed_by (tr : list os_request) : list Z :=
  match tr with
  | [] => []
  | CloseHandle h :: tr => h :: closed_by tr
  | _ :: tr => closed_by tr
  end.

(** Since [w], the handles opened and not closed again are [held]. *)
Definition holds (w w' : world) (held : list Z) : Prop :=
  opened_by (w_os w) (w_trace w') ++ closed_by (w_trace w) ≡ₚ
  held ++ opened_by (w_os w) (w_trace w) ++ closed_by (w_trace w').

Lemma holds_refl w : holds w w [].
Proof. unfold holds. reflexivity. Qed.
Lemma holds_same w w1 w2 held : w_trace w2 = w_trace w1 -> holds w w1 held -> holds w w2 held.
Proof. unfold holds. by intros ->. Qed.
Lemma holds_call w w1 w2 held r :
  holds w w1 held -> w_trace w2 = r :: w_trace w1 ->
  match r with DuplicatedHandle | CreateEventW | CloseHandle _ => False | _ => True end ->
  holds w w2 held.
Proof. unfold holds. intros Hh -> Hr. by destruct r as []. Qed.
Lemma holds_event w w1 w2 held h :
  holds w w1 held -> w_trace w2 = CreateEventW :: w_trace w1 ->
  h = w_os w (w_trace w1) CreateEventW ->
  holds w w2 ((if h =? 0 then [] else [h]) ++ held).
Proof.
  unfold holds. intros Hh -> ->. cbn [opened_by closed_by].
  destruct (_ =? 0); cbn [app]; by rewrite Hh.
Qed.
Lemma holds_open w w1 w2 held :
  holds w w1 held -> w_trace w2 = DuplicatedHandle :: w_trace w1 ->
  holds w w2 (w_os w (w_trace w1) DuplicatedHandle :: held).
Proof. unfold holds. intros Hh ->. cbn [opened_by closed_by app]. by rewrite Hh. Qed.
Lemma holds_close w w1 w2 h held :
  holds w w1 (h :: held) -> w_trace w2 = CloseHandle h :: w_trace w1 -> holds w w2 held.
Proof.
  unfold holds. intros Hh ->. cbn [opened_by closed_by]. rewrite Hh. cbn [app].
  rewrite (app_assoc held), (app_assoc held). apply Permutation_middle.
Qed.

Lemma close_handles_spec w0 l : forall w,
  wp (close_handles l) (fun _ w' => quiet w w' /\ w_errno w' = w_errno w /\
    forall held, holds w0 w (held ++ l) -> holds w0 w' held) w.
Proof.
  induction l as [|h l IH]; intros w; cbn [close_handles].
  - apply wp_ret. split_and!; [reflexivity|done|]. intros held. by rewrite app_nil_r.
  - wsteps. eapply wp_mono; [apply IH|]. intros _ w' (Hq & He & Hh). split_and!.
    + etrans; [|exact Hq]. apply (quiet_trace w (_ :: w_trace w)).
    + done.
    + intros held Hw. apply Hh. eapply (holds_close _ w _ h); [|done].
      unfold holds in *. rewrite Hw. by rewrite <- Permutation_middle.
Qed.

(** ** What the platform promises about duplicates *)

(** The handles of a trace that are open at its end: a closed handle's number
    is free again. *)
Fixpoint open_handles (o : list os_request -> os_request -> Z) (tr : list os_request) : list Z :=
  match tr with
  | [] => []
  | DuplicatedHandle :: tr => o tr DuplicatedHandle :: open_handles o tr
  | CreateEventW :: tr =>
    if o tr CreateEventW =? 0 then open_handles o tr else o tr CreateEventW :: open_handles o tr
  | CloseHandle h :: tr => filter (fun x => x <> h) (open_handles o tr)
  | _ :: tr => open_handles o tr
  end.

(** A duplication that succeeds yields a number no open handle has (numbers of
    closed handles may come back); one that fails leaves an error code. *)
Record duplicate_laws (o : list os_request -> os_request -> Z) : Prop := {
  dl_fresh tr h : o tr (DuplicateHandle h) <> 0 -> o (DuplicateHandle h :: tr) DuplicatedHandle ∉ open_handles o tr;
  dl_error tr h : o tr (DuplicateHandle h) = 0 -> u32 (o (DuplicateHandle h :: tr) GetLastError) <> 0
}.

(** ** Claiming with duplicates *)

Lemma fault_hit_through_free point w :
  fault_free w -> ep_fault_hit_through point w = Some (0, w).
Proof.
  intros Hm. unfold ep_fault_hit_through, fault_count_hit, bind, get, ret.
  destruct (ep_fault_point_valid point); simpl; [|done]. by rewrite Hm, Z.land_0_l.
Qed.

Lemma quiet_fault_free w w' : quiet w w' -> fault_free w -> fault_free w'.
Proof. by intros (? & ? & ? & ? & ->). Qed.

(** Room for one more collision. *)
Lemma collision_grow_spec w0 n cap w :
  fault_free w ->
  wp (collision_grow n cap) (fun r w' => quiet w w' /\ (r = inr ENOMEM \/ exists c, r = inl c) /\
    open_handles (w_os w0) (w_trace w') = open_handles (w_os w0) (w_trace w) /\
    forall held, holds w0 w held -> holds w0 w' held) w.
Proof.
  intros Hf. unfold collision_grow. cbv zeta.
  wif; [wif|]; try (wsteps; split_and!; [reflexivity|by eauto|done|done]).
  apply wp_bind. eapply wp_run; [by apply fault_hit_free|]. cbn [negb Z.eqb]. wsteps.
  wif; wsteps; (split_and!; [apply (quiet_trace w (_ :: w_trace w))|by eauto|done|]);
    intros held Hh; by eapply holds_call.
Qed.

Section Claim.
Context (w0 : world) (a : addr) (base_target : Z).

Hypothesis laws : duplicate_laws (w_os w0).

(** The claim holds [t], or nothing and an error. *)
Definition claimed_with (w : world) (held : list Z) (error : Z) (w' : world) : Prop :=
  (exists B, keys_inv w' B) /\ keyed w w' /\
  (error = 0 /\ (exists t, (forall x, poll_keys w !! x <> Some t) /\
     poll_keys w' = <[a := t]> (poll_keys w) /\ holds w0 w' (t :: held)) /\
     (exists s', w_socks w' !! a = Some s' /\ s_afd_poll_key_reservation s' = 0) \/
   0 < error /\ poll_keys w' = poll_keys w /\ holds w0 w' held).

Lemma claimed_with_quiet w w1 held e w' :
  quiet w w1 -> claimed_with w1 held e w' -> claimed_with w held e w'.
Proof.
  intros Hq (HB & Hk & H). split; [done|]. split; [etrans; [by apply keyed_quiet|done]|].
  unfold poll_keys in *. by rewrite (quiet_socks _ _ Hq) in H.
Qed.

(** Every collision is the target of a poll in flight, and still open. *)
Record collided (w : world) (collisions : list Z) : Prop := {
  co_nodup : NoDup collisions;
  co_active d : d ∈ collisions -> exists x, poll_keys w !! x = Some d;
  co_open d : d ∈ collisions -> d ∈ open_handles (w_os w0) (w_trace w)
}.

Lemma collided_bound w l : collided w l -> (length l <= size (poll_keys w))%nat.
Proof.
  intros [Hn Ha _]. rewrite <- length_map_to_list, <- (length_fmap snd).
  apply submseteq_length, NoDup_submseteq; [done|]. intros d Hd. destruct (Ha d Hd) as [x Hx].
  apply list_elem_of_fmap. exists (x, d). split; [done|]. by apply elem_of_map_to_list.
Qed.

Lemma collided_quiet w w' l :
  quiet w w' -> open_handles (w_os w0) (w_trace w') = open_handles (w_os w0) (w_trace w) ->
  collided w l -> collided w' l.
Proof.
  intros Hq Ht [Hn Ha Hp]. split; [done| |by rewrite Ht].
  unfold poll_keys in *. by rewrite (quiet_socks _ _ Hq).
Qed.

(** A duplicate obtained now that is in flight is one more collision. *)
Lemma collided_cons w w1 w2 l :
  collided w l -> w_socks w2 = w_socks w ->
  w_trace w1 = DuplicateHandle base_target :: w_trace w -> w_trace w2 = DuplicatedHandle :: w_trace w1 ->
  w_os w0 (w_trace w) (DuplicateHandle base_target) <> 0 ->
  (exists x, poll_keys w !! x = Some (w_os w0 (w_trace w1) DuplicatedHandle)) ->
  collided w2 (w_os w0 (w_trace w1) DuplicatedHandle :: l).
Proof.
  intros [Hn Ha Hp] Hs Ht1 Ht Hok Hact. split.
  - constructor; [|done]. intros Hin. apply (dl_fresh _ laws _ _ Hok). rewrite <- Ht1. by apply Hp.
  - intros d [->|Hd]%elem_of_cons; unfold poll_keys in *; rewrite Hs; [done|by apply Ha].
  - intros d Hd. rewrite Ht, Ht1. cbn [open_handles]. rewrite <- Ht1.
    apply elem_of_cons in Hd as [->|Hd]; [by left|right; by apply Hp].
Qed.

(** The loop ends within one duplicate per poll in flight, plus one. *)
Lemma claim_loop_spec s0 : forall fuel w B collisions cap,
  keys_inv w B -> fault_free w -> w_os w = w_os w0 ->
  w_socks w !! a = Some s0 -> s_afd_poll_key_owned s0 = false ->
  collided w collisions -> (size (poll_keys w) < fuel + length collisions)%nat ->
  holds w0 w collisions ->
  wp (key_claim_loop fuel (Some a) base_target collisions cap)
    (fun r w' => claimed_with w r.1 r.2.1 w') w.
Proof.
  induction fuel as [|fuel IH]; intros w B l cap HI Hf Hos Ha Ho Hc Hsz Hh.
  { pose proof (collided_bound _ _ Hc). lia. }
  cbn [key_claim_loop]. wsteps. wif.
  { wsteps. set (e := u32 _). assert (He : e <> 0) by (unfold e; rewrite Hos in *; apply (dl_error _ laws); lia).
    set (w2 := set w_trace _ _). assert (Hq : quiet w w2) by (unfold w2; auto with quiet).
    eapply claimed_with_quiet; [exact Hq|]. cbn [fst snd]. split_and!.
    - exists B. by apply (keys_inv_quiet w).
    - reflexivity.
    - right. split_and!; [|done|].
      + destruct (winerr_to_errno_success_iff e) as [[H1 _] H2].
        destruct (Z.eq_dec (ep_winerr_to_errno e) 0); [by destruct He; auto|lia].
      + do 2 (eapply holds_call; [|reflexivity|done]). done. }
  wsteps. set (w1 := set w_trace (cons (DuplicateHandle base_target)) w) in *. set (w2 := set w_trace _ w1).
  set (d := w_os w _ DuplicatedHandle). replace d with (w_os w0 (w_trace w1) DuplicatedHandle)
    by (unfold d; by rewrite <- Hos). rewrite Hos in Heqb.
  clear d. set (d := w_os w0 _ _).
  assert (Hq : quiet w w2) by (unfold w2, w1; auto with quiet).
  assert (HI2 : keys_inv w2 B) by (by apply (keys_inv_quiet w)).
  assert (Hh2 : holds w0 w2 (d :: l)).
  { apply (holds_open w0 w1); [|done]. by eapply holds_call. }
  eapply wp_run; [by apply fault_hit_through_free|]. cbn [negb Z.eqb]. apply wp_bind.
  destruct (key_try_claim_spec w2 B a s0 d HI2 Ha Ho) as (b & w3 & B' & Hrun & HI3 & Hres).
  eapply wp_run; [exact Hrun|]. destruct Hres as [(-> & -> & Hact)|(-> & Hfree & Hk & Hsr & Ht & Hp)].
  2:{ apply wp_ret. eapply claimed_with_quiet; [exact Hq|]. split_and!; [by exists B'|done|].
      left. split; [done|]. split; [|done]. exists d. split_and!; [done|done|]. by eapply holds_same. }
  apply wp_bind. eapply wp_mono; [by apply (collision_grow_spec w0)|].
  intros r w3 (Hq3 & Hr & Hlen & Hh3). apply Hh3 in Hh2.
  assert (Hc3 : collided w3 (d :: l)).
  { apply (collided_quiet w2); [done|done|]. apply (collided_cons w w1); try done; lia. }
  assert (HI3' : keys_inv w3 B) by (by apply (keys_inv_quiet w2)).
  destruct Hr as [->|[c ->]].
  - wsteps. set (w4 := set w_trace _ w3).
    assert (Hq4 : quiet w w4) by (unfold w4; etrans; [exact Hq|]; auto with quiet).
    eapply claimed_with_quiet; [exact Hq4|]. split_and!.
    + exists B. by apply (keys_inv_quiet w).
    + reflexivity.
    + right. split_and!; [done|done|]. by eapply (holds_close w0 w3).
  - eapply wp_mono; [eapply (IH w3 B (d :: l)); try done|].
    + by apply (quiet_fault_free w2).
    + by rewrite (quiet_os _ _ Hq3).
    + by rewrite (quiet_socks _ _ Hq3).
    + unfold poll_keys in *. rewrite (quiet_socks _ _ Hq3). cbn [length].
      change (w_socks w2) with (w_socks w). lia.
    + intros [coll [e we]] w4. apply claimed_with_quiet. by etrans.
Qed.
End Claim.

(** An AFD poll of a registration obtains a target no other poll in flight
    owns: the base handle when it is free, otherwise a duplicate with a fresh
    numeric value; on success the index gains exactly this target, on failure
    the index is unchanged.  The search ends within one duplicate per active
    poll plus one, and every duplicate opened on the way is closed again except
    the one claimed. *)
Lemma claim_spec w0 w B a s base_target fuel :
  keys_inv w B -> fault_free w -> w_socks w !! a = Some s -> s_afd_poll_key_owned s = false ->
  duplicate_laws (w_os w0) -> w_os w = w_os w0 -> holds w0 w [] ->
  (size (poll_keys w) < fuel)%nat ->
  wp (ep_afd_poll_key_claim fuel (Some a) base_target)
    (fun r w' => (exists B', keys_inv w' B') /\ keyed w w' /\
      ((r = (0, false) /\ (forall x, poll_keys w !! x <> Some base_target) /\ holds w0 w' [] /\
          (exists s', w_socks w' !! a = Some s' /\ s_afd_poll_key_reservation s' = 0) /\
          poll_keys w' = <[a := base_target]> (poll_keys w)) \/
       (r = (0, true) /\ (exists x, poll_keys w !! x = Some base_target) /\
          exists t, (forall x, poll_keys w !! x <> Some t) /\ holds w0 w' [t] /\
            (exists s', w_socks w' !! a = Some s' /\ s_afd_poll_key_reservation s' = 0) /\
            poll_keys w' = <[a := t]> (poll_keys w)) \/
       (r = (-1, false) /\ (exists x, poll_keys w !! x = Some base_target) /\
          0 < w_errno w' /\ holds w0 w' [] /\ poll_keys w' = poll_keys w))) w.
Proof.
  intros HI Hf Ha Ho Hd Hos Hh0 Hfuel. destruct (ki_free _ _ HI a s Ha Ho) as [Hn Hres].
  unfold ep_afd_poll_key_claim. wsteps. apply wp_assert; [by rewrite Ho|]. wsteps.
  apply wp_assert; [by rewrite Hn|]. wsteps. apply wp_assert; [by rewrite Hres|]. wsteps.
  destruct (key_try_claim_spec w B a s base_target HI Ha Ho) as (b & w1 & B1 & Hrun & HI1 & Hc).
  eapply wp_run; [exact Hrun|]. destruct Hc as [(-> & -> & Hact)|(-> & Hfree & Hk & Hsr & Ht & Hp)].
  2:{ apply wp_ret. split_and!; [by exists B1|done|]. left. split_and!; [done|done| |done|done].
      apply (holds_same w0 w); [done|done]. }
  apply wp_bind. eapply wp_mono.
  { apply (claim_loop_spec w0 a base_target Hd s fuel w B [] 0); try done.
    - split; [constructor|by intros d ?%elem_of_nil..].
    - simpl. lia.
 }
  intros [l [error win_error]] w2 (HB2 & Hk2 & Hcase). cbn [fst snd] in *. apply wp_bind.
  eapply wp_mono; [apply (close_handles_spec w0 (rev l))|]. intros _ w3 (Hq3 & He3 & Hh3).
  assert (HB3 : exists B3, keys_inv w3 B3) by (destruct HB2 as [B2 ?]; exists B2; by eapply keys_inv_quiet).
  assert (Hk3 : keyed w w3) by (etrans; [exact Hk2|by apply keyed_quiet]).
  assert (Hp3 : poll_keys w3 = poll_keys w2) by (unfold poll_keys; by rewrite (quiet_socks _ _ Hq3)).
  destruct Hcase as [(-> & (t & Hfree & Hp & Hh) & Hsr)|(Hpos & Hp & Hh)].
  - cbn [negb Z.eqb]. apply wp_ret. split_and!; [done|done|]. right. left. split_and!; [done|done|].
    exists t. split_and!; [done| |by rewrite (quiet_socks _ _ Hq3)|congruence].
    apply Hh3. unfold holds in *. by rewrite Hh, <- Permutation_rev.
  - assert (error =? 0 = false) as -> by lia. cbn [negb]. unfold ep_set_errno. wsteps.
    assert (Hhold : forall w4, w_trace w4 = w_trace w3 -> holds w0 w4 []).
    { intros w4 Ht. apply (holds_same w0 w3); [done|]. apply (Hh3 []).
      unfold holds in *. cbn [app]. by rewrite Hh, <- Permutation_rev. }
    assert (Hpost : forall w4, quiet w3 w4 -> w_errno w4 = error -> holds w0 w4 [] ->
      (exists B4, keys_inv w4 B4) /\ keyed w w4 /\ 0 < w_errno w4 /\ holds w0 w4 [] /\
        poll_keys w4 = poll_keys w).
    { intros w4 Hq4 -> Hh4. split_and!; [| |done|done|].
      - destruct HB3 as [B3 ?]. exists B3. by eapply keys_inv_quiet.
      - etrans; [exact Hk3|by apply keyed_quiet].
      - unfold poll_keys in *. rewrite (quiet_socks _ _ Hq4). congruence. }
    wif; wsteps.
    + match goal with |- _ /\ keyed _ ?w4 /\ _ => destruct (Hpost w4) as (? & ? & ? & ? & ?) end;
        [auto with quiet|done| |by eauto 12].
      do 2 (eapply holds_call; [|reflexivity|done]). by apply Hhold.
    + match goal with |- _ /\ keyed _ ?w4 /\ _ => destruct (Hpost w4) as (? & ? & ? & ? & ?) end;
        [auto with quiet|done|by apply Hhold|by eauto 12].
Qed.

(** ** Releasing, and giving the duplicate back *)

(** Releasing a target removes exactly it from the index, closes its
    reservation once, and leaves errno as it was. *)
Lemma release_spec w0 w B a s :
  keys_inv w B -> w_socks w !! a = Some s ->
  wp (ep_afd_poll_key_release (Some a))
    (fun _ w' => (exists B', keys_inv w' B') /\ keyed w w' /\
       poll_keys w' = delete a (poll_keys w) /\ w_errno w' = w_errno w /\
       forall held, holds w0 w ((if s_afd_poll_key_reservation s =? 0 then []
                                else [s_afd_poll_key_reservation s]) ++ held) -> holds w0 w' held) w.
Proof.
  intros HI Ha. unfold ep_afd_poll_key_release. wsteps.
  destruct (s_afd_poll_key_owned s) eqn:Ho; cbn [negb].
  - wsteps. eapply wp_mono; [by apply (release_locked_spec w B a s)|].
    intros r w1 (-> & HB & Hk & He & Hos & Ht & Hp). cbn [andb].
    destruct (s_afd_poll_key_reservation s =? 0); cbn [negb].
    { apply wp_ret. split_and!; try done. intros held. by apply holds_same. }
    unfold ep_afd_error_state_save, ep_last_err, ep_afd_error_state_restore, ep_set_errno. wsteps.
    destruct HB as [B' HB'].
    assert (Hq : forall tr, quiet w1 (w1 <| w_errno := w_errno w1 |>
      <| w_last_error := ep_error_info_from_errno (w_errno w1) |> <| w_trace := tr |>)).
    { intros tr. by exists (w_errno w1), (ep_error_info_from_errno (w_errno w1)), (w_fault_slots w1), tr;
        destruct w1. }
    split_and!.
    + exists B'. eapply keys_inv_quiet; [apply Hq|exact HB'].
    + etrans; [exact Hk|]. apply keyed_quiet, Hq.
    + done.
    + done.
    + intros held Hh. do 2 (eapply holds_call; [|reflexivity|done]).
      eapply (holds_close w0 _ _ (s_afd_poll_key_reservation s)); [|reflexivity].
      do 2 (eapply holds_call; [|reflexivity|done]). by apply (holds_same w0 w).
  - destruct (ki_free _ _ HI a s Ha Ho) as [Hn Hr]. wsteps.
    apply wp_assert; [by rewrite Hn|]. wsteps. apply wp_assert; [by rewrite Hr|]. split_and!; [by exists B|reflexivity| |done|by rewrite Hr].
    rewrite delete_id; [done|]. destruct (poll_keys w !! a) eqn:E; [|done].
    apply poll_keys_Some in E as (? & ? & ? & _). congruence.
Qed.

(** Changing a registration outside its key fields, or the reservation of an
    owner, keeps the index. *)
Definition same_key (s s' : ep_sock) : Prop :=
  s_afd_poll_key_owned s' = s_afd_poll_key_owned s /\ s_afd_poll_target s' = s_afd_poll_target s /\
  s_afd_poll_key_next s' = s_afd_poll_key_next s /\
  (s_afd_poll_key_owned s = false -> s_afd_poll_key_reservation s' = s_afd_poll_key_reservation s).

Lemma keys_inv_update w B a s s' :
  keys_inv w B -> w_socks w !! a = Some s -> same_key s s' ->
  keys_inv (w <| w_socks := <[a := s']> (w_socks w) |>) B.
Proof.
  intros HI Ha (Eo & Et & En & Er).
  assert (Hlook : forall x sx, <[a := s']> (w_socks w) !! x = Some sx ->
    exists s0, w_socks w !! x = Some s0 /\ same_key s0 sx).
  { intros x sx [[-> <-]|[Hne Hx]]%lookup_insert_Some; [by exists s|by exists sx]. }
  split; sget.
  - intros b Hb. destruct (ki_head _ _ HI b Hb) as (h & Hh & Hc). exists h. split; [done|].
    eapply chain_ext; [|exact Hc]. intros x Hx. unfold link.
    destruct (decide (x = a)) as [->|Hne]; [|by rewrite lookup_insert_ne].
    rewrite lookup_insert_eq, Ha. simpl. by rewrite En.
  - apply (ki_nodup _ _ HI).
  - intros x sx (s0 & Hx & Eo0 & -> & _)%Hlook Hox. apply (ki_in _ _ HI x s0); congruence.
  - intros b x Hb Hx. destruct (ki_out _ _ HI b x Hb Hx) as (s0 & Hs0 & ? & ?).
    destruct (decide (x = a)) as [->|Hne].
    + exists s'. rewrite lookup_insert_eq. simplify_eq. split_and!; congruence.
    + exists s0. by rewrite lookup_insert_ne.
  - intros x sx (s0 & Hx & Eo0 & Et0 & En0 & Er0)%Hlook Hox. rewrite En0, Er0 by congruence.
    apply (ki_free _ _ HI x s0); congruence.
  - intros x sx y sy (s1 & Hx & Eo1 & Et1 & _)%Hlook (s2 & Hy & Eo2 & Et2 & _)%Hlook Hox Hoy Ht.
    apply (ki_unique _ _ HI x s1 y s2); congruence.
Qed.

Lemma poll_keys_update w a s s' :
  w_socks w !! a = Some s -> same_key s s' ->
  poll_keys (w <| w_socks := <[a := s']> (w_socks w) |>) = poll_keys w.
Proof.
  intros Ha (Eo & Et & _). apply map_eq. intros x. unfold poll_keys. sget. rewrite !lookup_omap.
  destruct (decide (x = a)) as [->|Hne]; [|by rewrite lookup_insert_ne].
  rewrite lookup_insert_eq, Ha. simpl. unfold key_of. by rewrite Eo, Et.
Qed.

Definition reserved (r : Z) : list Z := if r =? 0 then [] else [r].

(** The reservation is NULL or the very handle value of the target. *)
Lemma key_reserve_spec w0 target reserve_slot w :
  fault_free w -> w_os w = w_os w0 ->
  wp (key_reserve target reserve_slot)
    (fun r w' => quiet w w' /\ (r = 0 \/ reserve_slot = true /\ r = target) /\
       forall held, holds w0 w (target :: held) -> holds w0 w' (reserved r ++ held)) w.
Proof.
  intros Hf Hos. unfold key_reserve. wsteps. set (w1 := set w_trace _ w).
  assert (Hq1 : quiet w w1) by (unfold w1; auto with quiet).
  assert (Hh1 : forall held, holds w0 w (target :: held) -> holds w0 w1 held).
  { intros held Hh. by eapply holds_close. }
  wif; [|wsteps; split_and!; [done|by left|done]].
  apply wp_bind. eapply wp_run; [by apply fault_hit_free|]. cbn [Z.eqb].
  wsteps. apply andb_prop in Heqb as [_ ->]. set (w2 := set w_trace _ w1).
  change (w_os w1) with (w_os w). set (res := w_os w _ CreateEventW).
  assert (Hh2 : forall held, holds w0 w (target :: held) -> holds w0 w2 (reserved res ++ held)).
  { intros held Hh. eapply holds_event; [by apply Hh1|reflexivity|]. unfold res. by rewrite <- Hos. }
  assert (Hq2 : quiet w w2) by (unfold w2; auto with quiet).
  destruct (Z.eqb_spec res 0) as [->|Hne]; [rewrite andb_false_r|rewrite andb_true_r].
  { apply wp_ret. split_and!; [done|by left|done]. }
  destruct (Z.eqb_spec res target) as [E|Hne']; cbn [negb]; wsteps.
  { split_and!; [done|by right|done]. }
  split_and!; [auto with quiet|by left|]. intros held Hh. eapply (holds_close w0 w2 _ res); [|reflexivity].
  specialize (Hh2 held Hh). unfold reserved in Hh2. by rewrite (proj2 (Z.eqb_neq res 0) Hne) in Hh2.
Qed.

(** Giving the duplicate of a poll back never disturbs the index or errno: the
    poll keeps its numeric target, and what is recorded as its reservation is
    nothing, or a handle that occupies exactly that numeric slot. *)
Lemma finish_spec w0 w B a s reserve_slot :
  keys_inv w B -> fault_free w -> w_os w = w_os w0 ->
  w_socks w !! a = Some s -> s_afd_poll_key_owned s = true -> s_afd_poll_key_reservation s = 0 ->
  wp (ep_afd_poll_duplicate_finish (Some a) reserve_slot)
    (fun _ w' => keys_inv w' B /\ keyed w w' /\ poll_keys w' = poll_keys w /\ w_errno w' = w_errno w /\
       exists r, w_socks w' = <[a := s <| s_afd_poll_key_reservation := r |>]> (w_socks w) /\
         (r = 0 \/ reserve_slot = true /\ r = s_afd_poll_target s) /\
         forall held, holds w0 w (s_afd_poll_target s :: held) -> holds w0 w' (reserved r ++ held)) w.
Proof.
  intros HI Hf Hos Ha Ho Hr. unfold ep_afd_poll_duplicate_finish, ep_afd_error_state_save, ep_last_err. wsteps.
  apply wp_assert; [done|]. wsteps. apply wp_assert; [by rewrite Hr|]. wsteps.
  set (w1 := set w_trace _ _). assert (Hq1 : quiet w w1) by (unfold w1; auto with quiet).
  eapply wp_mono; [by apply (key_reserve_spec w0)|]. intros r w2 (Hq2 & Hres & Hh2).
  assert (Hq : quiet w w2) by (by etrans). pose proof (quiet_socks _ _ Hq) as Hs2.
  assert (Ha2 : w_socks w2 !! a = Some s) by (by rewrite Hs2).
  assert (HI2 : keys_inv w2 B) by (by apply (keys_inv_quiet w)).
  set (w3 := w2 <| w_socks := <[a := s <| s_afd_poll_key_reservation := r |>]> (w_socks w2) |>).
  assert (Hw : wp (if negb (r =? 0) then wr w_socks (Some a) s_afd_poll_key_reservation r else ret tt)
    (fun _ w' => w' = w3) w2).
  { destruct (Z.eqb_spec r 0) as [->|Hne]; cbn [negb]; [|by wsteps]. apply wp_ret. unfold w3.
    assert (s <| s_afd_poll_key_reservation := 0 |> = s) as -> by (destruct s; simpl in *; by subst).
    rewrite insert_id by done. by destruct w2. }
  apply wp_bind. eapply wp_mono; [exact Hw|]. intros _ ? ->.
  unfold ep_afd_error_state_restore, ep_set_errno. wsteps.
  match goal with |- keys_inv ?w4 _ /\ _ => assert (Hq4 : quiet w3 w4) by (auto with quiet) end.
  split_and!.
  - eapply keys_inv_quiet; [exact Hq4|]. apply (keys_inv_update _ _ _ s); [done..|].
    by repeat split; rewrite ?Ho.
  - etrans; [|by apply keyed_quiet]. etrans; [by apply keyed_quiet|].
    exists (w_poll_keys w2), (w_socks w3). split; [by apply (fmap_insert_same key_er _ _ s)|].
    unfold w3. by destruct w2.
  - transitivity (poll_keys w3); [by unfold poll_keys; rewrite (quiet_socks _ _ Hq4)|].
    unfold w3. rewrite (poll_keys_update _ _ s); [unfold poll_keys; by rewrite Hs2|done|].
    by repeat split; rewrite ?Ho.
  - done.
  - exists r. unfold w3. sget. rewrite Hs2. split_and!; [done|done|]. intros held Hh.
    do 2 (eapply holds_call; [|reflexivity|done]). apply (holds_same w0 w2); [done|]. apply Hh2.
    unfold w1. by do 2 (eapply holds_call; [|reflexivity|done]).
Qed.

(** ** Every sequence of index operations *)

Lemma poll_keys_size w : (size (poll_keys w) < claim_fuel w)%nat.
Proof.
  unfold claim_fuel, poll_keys. assert (size (omap key_of (w_socks w)) <= size (w_socks w))%nat; [|lia].
  rewrite <- !size_dom. by apply subseteq_size, dom_omap_subseteq.
Qed.

Lemma keyed_os w w' : keyed w w' -> w_os w' = w_os w.
Proof. intros (K & H & _ & Hq). by rewrite (quiet_os _ _ Hq). Qed.
Lemma keyed_fault_free w w' : keyed w w' -> fault_free w -> fault_free w'.
Proof. intros (K & H & _ & Hq) Hf. by eapply quiet_fault_free. Qed.
Lemma keyed_lookup w w' a s :
  keyed w w' -> w_socks w !! a = Some s -> exists s', w_socks w' !! a = Some s' /\ key_er s' = key_er s.
Proof.
  intros (K & H & E & Hq) Ha. rewrite (quiet_socks _ _ Hq). sget.
  apply (f_equal (fun m => m !! a)) in E. rewrite !lookup_fmap, Ha in E.
  destruct (H !! a) as [s'|]; [|done]. change (Some (key_er s') = Some (key_er s)) in E. exists s'.
  by apply (inj Some) in E.
Qed.

(** What the index knows of a registration. *)
Definition key_link (s : ep_sock) : option (Z * ptr) :=
  if s_afd_poll_key_owned s then Some (s_afd_poll_target s, s_afd_poll_key_next s) else None.

(** One operation of the index that returns, with any number of rounds and any
    behaviour of the platform and of the fault points, or other code: it may
    create and free registrations and change them outside their key fields. *)
Inductive key_step (w w' : world) : Prop :=
| ks_claim a base_target fuel r :
    ep_afd_poll_key_claim fuel (Some a) base_target w = Some (r, w') -> key_step w w'
| ks_finish a reserve_slot :
    ep_afd_poll_duplicate_finish (Some a) reserve_slot w = Some (tt, w') -> key_step w w'
| ks_release a :
    ep_afd_poll_key_release (Some a) w = Some (tt, w') -> key_step w w'
| ks_other :
    w_poll_keys w' = w_poll_keys w ->
    (forall a, w_socks w' !! a ≫= key_link = w_socks w !! a ≫= key_link) ->
    (forall a s, w_socks w' !! a = Some s -> s_afd_poll_key_owned s = false ->
       s_afd_poll_key_next s = NULL /\ s_afd_poll_key_reservation s = 0) -> key_step w w'.

Lemma quiet_ran {A} (m : MW A) `{!QuietAction m} w r w' : m w = Some (r, w') -> quiet w w'.
Proof. intros Hrun. destruct (quiet_action (m := m) w) as (r2 & w2 & Hrun2 & Hq). by simplify_eq. Qed.

#[local] Instance collision_grow_quiet n cap : QuietAction (collision_grow n cap).
Proof. unfold collision_grow. quieted. Qed.
#[local] Instance close_handles_quiet l : QuietAction (close_handles l).
Proof. induction l as [|h l IH]; cbn [close_handles]; quieted. Qed.
#[local] Instance key_reserve_quiet target reserve_slot : QuietAction (key_reserve target reserve_slot).
Proof. unfold key_reserve. quieted. Qed.
#[local] Instance error_save_quiet : QuietAction ep_afd_error_state_save.
Proof. unfold ep_afd_error_state_save. quieted. Qed.
#[local] Instance error_restore_quiet state : QuietAction (ep_afd_error_state_restore state).
Proof. unfold ep_afd_error_state_restore. quieted. Qed.

(** The index after a step that returned. *)
Definition indexed (w : world) : Prop := exists B, keys_inv w B.
Lemma indexed_quiet w w' : quiet w w' -> indexed w -> indexed w'.
Proof. intros Hq [B HI]. exists B. by eapply keys_inv_quiet. Qed.
Lemma indexed_ran {A} (m : MW A) `{!QuietAction m} w r w' : m w = Some (r, w') -> indexed w -> indexed w'.
Proof. intros Hrun. by eapply indexed_quiet, quiet_ran. Qed.

Lemma try_claim_indexed a s target w b w' :
  indexed w -> w_socks w !! a = Some s -> s_afd_poll_key_owned s = false ->
  ep_afd_poll_key_try_claim (Some a) target w = Some (b, w') -> indexed w' /\ (b = false -> w' = w).
Proof.
  intros [B HI] Ha Ho Hrun. destruct (key_try_claim_spec w B a s target HI Ha Ho) as (b1 & w1 & B1 & Hrun1 & HI1 & Hc).
  simplify_eq. split; [by exists B1|]. intros ->. by destruct Hc as [(_ & -> & _)|[[=] _]].
Qed.

Lemma claim_loop_indexed a s base_target : forall fuel l cap w r w',
  indexed w -> w_socks w !! a = Some s -> s_afd_poll_key_owned s = false ->
  key_claim_loop fuel (Some a) base_target l cap w = Some (r, w') -> indexed w'.
Proof.
  induction fuel as [|fuel IH]; intros l cap w r w' HI Ha Ho Hrun; [done|]. cbn [key_claim_loop] in Hrun.
  apply bind_inv in Hrun as (ok & w1 & Hq1%quiet_ran & Hrun); [|apply _].
  destruct (ok =? 0).
  { apply bind_inv in Hrun as (e & w2 & Hq2%quiet_ran & Hrun); [|apply _]. minv. eapply indexed_quiet; [|exact HI]. by etrans. }
  apply bind_inv in Hrun as (d & w2 & Hq2%quiet_ran & Hrun); [|apply _].
  apply bind_inv in Hrun as (force & w3 & Hq3%quiet_ran & Hrun); [|apply _].
  assert (Hq : quiet w w3) by (etrans; [exact Hq1|by etrans]). clear Hq1 Hq2 Hq3.
  assert (Ha3 : w_socks w3 !! a = Some s) by (by rewrite (quiet_socks _ _ Hq)).
  pose proof (indexed_quiet _ _ Hq HI) as HI3.
  apply bind_inv in Hrun as (claimed & w4 & Hc & Hrun).
  assert (H4 : indexed w4 /\ (claimed = false -> w4 = w3)).
  { destruct (negb (force =? 0)); [by minv|by eapply try_claim_indexed]. }
  destruct H4 as [HI4 Hw4]. destruct claimed; [by minv|]. rewrite Hw4 in Hrun by done. clear Hw4 Hc.
  apply bind_inv in Hrun as (grown & w5 & Hq5%quiet_ran & Hrun); [|apply _].
  assert (HI5 : indexed w5) by (by eapply indexed_quiet). destruct grown as [c|e].
  - eapply (IH _ _ w5); [done| |done|exact Hrun]. by rewrite (quiet_socks _ _ Hq5).
  - apply bind_inv in Hrun as (u & w6 & Hq6%quiet_ran & Hrun); [|apply _]. minv. by eapply indexed_quiet.
Qed.

Lemma claim_indexed fuel a base_target w r w' :
  indexed w -> ep_afd_poll_key_claim fuel (Some a) base_target w = Some (r, w') -> indexed w'.
Proof.
  intros HI Hrun. unfold ep_afd_poll_key_claim in Hrun.
  apply bind_inv in Hrun as (owned & w1 & (? & s & [= <-] & Ha & -> & ->)%rd_inv & Hrun).
  apply bind_inv in Hrun as (? & w1 & [Ho%negb_true_iff ->]%assertM_inv & Hrun).
  do 2 (apply bind_inv in Hrun as (? & w1 & (? & ? & _ & _ & _ & ->)%rd_inv & Hrun);
        apply bind_inv in Hrun as (? & w1 & [_ ->]%assertM_inv & Hrun)).
  apply bind_inv in Hrun as (claimed & w1 & Hc & Hrun).
  destruct (try_claim_indexed a s base_target w claimed w1 HI Ha Ho Hc) as [HI1 Hw1].
  destruct claimed; [by minv|]. rewrite Hw1 in Hrun by done.
  apply bind_inv in Hrun as ([l [error win_error]] & w2 & Hl & Hrun).
  pose proof (claim_loop_indexed a s base_target _ _ _ _ _ _ HI Ha Ho Hl) as HI2.
  apply bind_inv in Hrun as (? & w3 & Hq3%quiet_ran & Hrun); [|apply _]. eapply indexed_quiet in HI2; [|exact Hq3].
  eapply indexed_quiet; [|exact HI2]. eapply quiet_ran; [|exact Hrun]. quieted.
Qed.

Lemma finish_indexed a reserve_slot w w' :
  indexed w -> ep_afd_poll_duplicate_finish (Some a) reserve_slot w = Some (tt, w') -> indexed w'.
Proof.
  intros HI Hrun. unfold ep_afd_poll_duplicate_finish in Hrun.
  apply bind_inv in Hrun as (e & w1 & Hq1%quiet_ran & Hrun); [|apply _]. eapply indexed_quiet in HI; [|exact Hq1].
  apply bind_inv in Hrun as (t & w2 & (? & s & [= <-] & Ha & -> & ->)%rd_inv & Hrun).
  apply bind_inv in Hrun as (owned & w2 & (? & s' & [= <-] & Ha' & -> & ->)%rd_inv & Hrun).
  apply bind_inv in Hrun as (? & w2 & [Ho ->]%assertM_inv & Hrun).
  apply bind_inv in Hrun as (? & w2 & (? & ? & _ & _ & _ & ->)%rd_inv & Hrun).
  apply bind_inv in Hrun as (? & w2 & [_ ->]%assertM_inv & Hrun).
  apply bind_inv in Hrun as (res & w2 & Hq2%quiet_ran & Hrun); [|apply _]. eapply indexed_quiet in HI; [|exact Hq2].
  apply bind_inv in Hrun as (? & w3 & Hw & Hrun). apply (indexed_ran _ _ _ _ Hrun).
  destruct (negb (res =? 0)); [|by minv]. apply wr_inv in Hw as (? & s2 & [= <-] & Ha2 & ->).
  destruct HI as [B HI]. exists B. apply (keys_inv_update _ _ _ s2); [done|done|].
  assert (s2 = s') as -> by (rewrite (quiet_socks _ _ Hq2) in Ha2; congruence). split_and!; try done. congruence.
Qed.

Lemma other_indexed w w' :
  indexed w -> w_poll_keys w' = w_poll_keys w ->
  (forall a, w_socks w' !! a ≫= key_link = w_socks w !! a ≫= key_link) ->
  (forall a s, w_socks w' !! a = Some s -> s_afd_poll_key_owned s = false ->
     s_afd_poll_key_next s = NULL /\ s_afd_poll_key_reservation s = 0) -> indexed w'.
Proof.
  intros [B HI] Hk Hl Hfree. exists B.
  assert (Hown : forall (m m' : gmap addr ep_sock) a s, (m' !! a ≫= key_link = m !! a ≫= key_link) -> m !! a = Some s ->
    s_afd_poll_key_owned s = true -> exists s', m' !! a = Some s' /\ s_afd_poll_key_owned s' = true /\
      s_afd_poll_target s' = s_afd_poll_target s /\ s_afd_poll_key_next s' = s_afd_poll_key_next s).
  { intros m m' a s E Hs Ho. rewrite Hs in E. cbn in E. unfold key_link at 2 in E. rewrite Ho in E.
    destruct (m' !! a) as [s'|]; [|done]. cbn in E. unfold key_link in E. destruct (s_afd_poll_key_owned s') eqn:Ho'; [|done].
    injection E as E1 E2. by exists s'. }
  split.
  - intros b Hb. destruct (ki_head _ _ HI b Hb) as (h & Hh & Hc). exists h. rewrite Hk. split; [done|].
    eapply chain_ext; [|exact Hc]. intros x Hx. destruct (ki_out _ _ HI b x Hb Hx) as (s & Hs & Ho & _).
    destruct (Hown _ _ x s (Hl x) Hs Ho) as (s' & Hs' & _ & _ & En). unfold link. rewrite Hs, Hs'. cbn. by rewrite En.
  - apply (ki_nodup _ _ HI).
  - intros a s Hs Ho. destruct (Hown _ _ a s (eq_sym (Hl a)) Hs Ho) as (s' & Hs' & Ho' & <- & _). by apply (ki_in _ _ HI).
  - intros b a Hb Hin. destruct (ki_out _ _ HI b a Hb Hin) as (s & Hs & Ho & Hbk).
    destruct (Hown _ _ a s (Hl a) Hs Ho) as (s' & Hs' & Ho' & Et & _). exists s'. by rewrite Et.
  - exact Hfree.
  - intros a s a' s' Hs Hs' Ho Ho' Et.
    destruct (Hown _ _ a s (eq_sym (Hl a)) Hs Ho) as (s1 & Hs1 & Ho1 & Et1 & _).
    destruct (Hown _ _ a' s' (eq_sym (Hl a')) Hs' Ho') as (s2 & Hs2 & Ho2 & Et2 & _).
    apply (ki_unique _ _ HI a s1 a' s2); congruence.
Qed.

Lemma key_step_indexed w w' : indexed w -> key_step w w' -> indexed w'.
Proof.
  intros HI [a base fuel r Hrun|a res Hrun|a Hrun|Hk Hl Hfree].
  - by eapply claim_indexed.
  - by eapply finish_indexed.
  - destruct HI as [B HI]. destruct (w_socks w !! a) as [s|] eqn:Ha.
    + destruct (release_spec w w B a s HI Ha) as (u & w1 & Hrun1 & HB & _). by simplify_eq.
    + unfold ep_afd_poll_key_release in Hrun. apply bind_inv in Hrun as (? & ? & (? & ? & [= <-] & ? & _)%rd_inv & _). congruence.
  - by eapply other_indexed.
Qed.

(** C38: no two AFD polls in flight in the process ever name the same numeric
    handle: from an empty index, whatever sequence of claims (with duplicates,
    collisions and failures), reservations, releases and other updates runs, two
    registrations that own a target own different ones, and the bucket index
    stays consistent.  Nothing is assumed of the platform: the numbers of
    duplicates may repeat and calls may fail with any error, injected ones
    included. *)
Theorem poll_targets_distinct w0 w a a' s s' :
  keys_inv w0 (fun _ => []) -> rtc key_step w0 w ->
  w_socks w !! a = Some s -> w_socks w !! a' = Some s' -> a <> a' ->
  s_afd_poll_key_owned s = true -> s_afd_poll_key_owned s' = true ->
  s_afd_poll_target s <> s_afd_poll_target s' /\ exists B, keys_inv w B.
Proof.
  intros H0 Hrtc Ha Ha' Hne Ho Ho'.
  assert (H : indexed w).
  { assert (HI : indexed w0) by (by eexists). clear -Hrtc HI. induction Hrtc as [|w w1 w2 Hstep _ IH]; [done|].
    by eapply IH, key_step_indexed. }
  destruct H as [B HB]. split; [|by exists B]. intros E. by apply Hne, (ki_unique _ _ HB a s a' s').
Qed.

(** ** Witnesses *)

Lemma keys_inv_empty w :
  w_poll_keys w = replicate 256 NULL ->
  (forall a s, w_socks w !! a = Some s -> s_afd_poll_key_owned s = false /\
     s_afd_poll_key_next s = NULL /\ s_afd_poll_key_reservation s = 0) ->
  keys_inv w (fun _ => []).
Proof.
  intros Hk Hs. split.
  - intros b Hb. exists NULL. rewrite Hk, lookup_replicate_2 by lia. done.
  - constructor.
  - intros a s Ha Ho. destruct (Hs a s Ha). congruence.
  - intros b a _ ?%elem_of_nil. done.
  - intros a s Ha _. by apply Hs in Ha as (_ & ? & ?).
  - intros a s a' s' Ha. destruct (Hs a s Ha). congruence.
Qed.

(** A platform that numbers its duplicates by the calls before keeps the laws. *)
Lemma counting_laws (o : list os_request -> os_request -> Z) :
  (forall tr, o tr DuplicatedHandle = 1000 + Z.of_nat (length tr)) -> (forall tr, o tr CreateEventW = o [] CreateEventW) ->
  o [] CreateEventW < 1000 -> (forall tr, o tr GetLastError = ERROR_ACCESS_DENIED) -> duplicate_laws o.
Proof.
  intros Hd He Hlt Hg. split; [|intros tr h _; by rewrite Hg].
  assert (H : forall tr x, x ∈ open_handles o tr -> x < 1000 + Z.of_nat (length tr)).
  { induction tr as [|r tr IH]; cbn [open_handles length]; [by intros x ?%elem_of_nil|].
    assert (IH' : forall x, x ∈ open_handles o tr -> x < 1000 + Z.of_nat (S (length tr))) by (intros x Hx; specialize (IH x Hx); lia).
    destruct r; try done.
    - intros x [_ Hx]%list_elem_of_filter. by apply IH'.
    - intros x [->|Hx]%elem_of_cons; [rewrite Hd; lia|by apply IH'].
    - rewrite He. destruct (o [] CreateEventW =? 0); [done|]. intros x [->|Hx]%elem_of_cons; [lia|by apply IH']. }
  intros tr h _ Hin%H. rewrite Hd in Hin. cbn [length] in Hin. lia.
Qed.

(** Two registrations of one provider socket. *)
Definition no_keys_world : world :=
  empty_world <| w_poll_keys := replicate 256 NULL |>
    <| w_socks := {[ 1%positive := zero_sock; 2%positive := zero_sock ]} |>
    <| w_os := fun tr r => match r with
                          | DuplicatedHandle => 1000 + Z.of_nat (length tr)
                          | GetLastError => ERROR_ACCESS_DENIED
                          | CreateEventW => 100
                          | _ => 1
                          end |>.

Lemma no_keys_inv : keys_inv no_keys_world (fun _ => []).
Proof.
  apply keys_inv_empty; [reflexivity|]. intros a s Ha.
  change ((<[1%positive := zero_sock]> {[ 2%positive := zero_sock ]} : gmap addr ep_sock) !! a = Some s) in Ha.
  revert Ha. intros [[_ <-]|[_ [_ <-]%lookup_singleton_Some]]%lookup_insert_Some; done.
Qed.

Definition two_polls_world : world :=
  exec (ep_afd_poll_key_claim 3 (Some 2%positive) 100)
    (exec (ep_afd_poll_key_claim 3 (Some 1%positive) 100) no_keys_world).

Lemma poll_targets_distinct_witness :
  exists s s', w_socks two_polls_world !! 1%positive = Some s /\
    w_socks two_polls_world !! 2%positive = Some s' /\
    s_afd_poll_key_owned s = true /\ s_afd_poll_key_owned s' = true /\
    s_afd_poll_target s <> s_afd_poll_target s'.
Proof.
  destruct (w_socks two_polls_world !! 1%positive) as [s|] eqn:E1; [|by vm_compute in E1].
  destruct (w_socks two_polls_world !! 2%positive) as [s'|] eqn:E2; [|by vm_compute in E2].
  assert (Ho : s_afd_poll_key_owned s = true) by (vm_compute in E1; injection E1 as <-; reflexivity).
  assert (Ho' : s_afd_poll_key_owned s' = true) by (vm_compute in E2; injection E2 as <-; reflexivity).
  exists s, s'. split; [reflexivity|]. split; [reflexivity|]. split; [exact Ho|]. split; [exact Ho'|].
  refine (proj1 (poll_targets_distinct no_keys_world two_polls_world 1%positive 2%positive s s'
    no_keys_inv _ E1 E2 _ Ho Ho')).
  - eapply rtc_l; [eapply (ks_claim _ _ 1%positive 100 3 (0, false))|].
    { instantiate (1 := exec (ep_afd_poll_key_claim 3 (Some 1%positive) 100) no_keys_world).
      vm_compute. reflexivity. }
    apply rtc_once. eapply (ks_claim _ _ 2%positive 100 3 (0, true)).
    vm_compute. reflexivity.
  - discriminate.
Defined.
