(* ===== verification/AfdOps.v ===== *)
(** * AFD requests

    [src/wepoll_ex_afd.c], 383-452 and 786-1009: opening an AFD control handle,
    submitting a poll request and cancelling it.  The caller of the last two
    holds the port's [fd_table_lock].  The kernel's answer to a request and what
    it stores in the poll buffer are the environment's. *)
From S2P Require Import Prelude Codes Types Errno Fault Links Quiet Readiness Provider PollKeys.

Definition INT64_MAX : Z := 2 ^ 63 - 1.

(** The int result and [*out]. *)
Definition ep_afd_open (iocp : Z) : MW (Z * Z) :=
  initialized <- get w_ntdll_initialized ;;
  if (iocp =? 0) || negb initialized then ep_set_errno EINVAL ;; ret (-1, 0)
  else
    fault <- ep_fault_hit EP_FAULT_AFD_OPEN ;;
    if negb (fault =? 0) then ret (-1, 0)
    else
      h <- os NtCreateFile ;;
      status <- os NtCreateFileStatus ;;
      if negb (i32 status =? STATUS_SUCCESS) then ep_set_ntstatus_error (i32 status) ;; ret (-1, 0)
      else
        associated <- os (CreateIoCompletionPort h iocp) ;;
        if associated =? 0 then
          e <- os GetLastError ;;
          ep_set_win32_error (u32 e) ;; os (CloseHandle h) ;; ret (-1, 0)
        else
          modes <- os (SetFileCompletionNotificationModes h) ;;
          if modes =? 0 then
            e <- os GetLastError ;;
            ep_set_win32_error (u32 e) ;; os (CloseHandle h) ;; ret (-1, 0)
          else ret (0, h).

(** The group's control handle, 0 when a pointer on the way is NULL. *)
Definition submit_handle (sock : ptr) : MW Z :=
  match sock with
  | None => ret 0
  | Some _ =>
    port <- rd w_socks sock s_port ;;
    group <- rd w_socks sock s_afd_group ;;
    match port, group with
    | Some _, Some _ =>
      afd <- rd w_groups group g_afd ;;
      initialized <- get w_ntdll_initialized ;;
      ret (if initialized : bool then afd else 0)
    | _, _ => ret 0
    end
  end.

(** [sock->afd_info], allocated on first use: false when that fails. *)
Definition submit_buffer (sock : ptr) : MW bool :=
  info <- rd w_socks sock s_afd_info ;;
  match info with
  | Some _ => ret true
  | None =>
    a <- os (Malloc 32) ;;
    if a <=? 0 then ep_set_errno ENOMEM ;; ret false
    else wr w_socks sock s_afd_info (Some (Z.to_pos a)) ;; ret true
  end.

(** The provider base handle, from the cache when the endpoint token it was
    recorded for is still the registration's: false when it cannot be found. *)
Definition submit_base (sock : ptr) : MW bool :=
  cached <- rd w_socks sock s_base_socket_cached ;;
  id_state <- rd w_socks sock s_endpoint_id_state ;;
  identity <- rd w_socks sock s_base_socket_identity ;;
  endpoint <- rd w_socks sock s_endpoint_id ;;
  base <- rd w_socks sock s_base_socket ;;
  if cached && negb (bool_decide (id_state = EP_SOCKET_ID_UNAVAILABLE)) &&
     (identity =? endpoint) && negb (base =? INVALID_SOCKET) then ret true
  else
    fd <- rd w_socks sock s_fd ;;
    base <- ep_socket_get_base fd ;;
    wr w_socks sock s_base_socket base ;;
    if base =? INVALID_SOCKET then wr w_socks sock s_base_socket_cached false ;; ret false
    else if negb (bool_decide (id_state = EP_SOCKET_ID_UNAVAILABLE)) then
      wr w_socks sock s_base_socket_identity endpoint ;;
      wr w_socks sock s_base_socket_cached true ;; ret true
    else wr w_socks sock s_base_socket_cached false ;; ret true.

(** The buffer a request is submitted with ([memset], then the fields set). *)
Definition request_info (target afd_events : Z) : afd_poll_info :=
  mk_poll_info INT64_MAX 1 false target afd_events 0.

Definition put_info (info : ptr) (i : afd_poll_info) : MW unit :=
  match info with
  | None => stuck
  | Some b => infos <- get w_afd_infos ;; put w_afd_infos (<[b := i]> infos)
  end.

(** A request that does not stay in the kernel gives its target back. *)
Definition submit_release (sock : ptr) (target_is_duplicate : bool) : MW unit :=
  if target_is_duplicate then ep_afd_poll_duplicate_abandon sock else ep_afd_poll_key_release sock.

(** [NtDeviceIoControlFile]: on immediate success the kernel has stored the
    number of handles and the events of the entry, and nothing else. *)
Definition submit_ioctl (afd : Z) (sock info : ptr) (target afd_events : Z) : MW Z :=
  match sock with
  | None => stuck
  | Some a =>
    status <- os (NtDeviceIoControlFile afd a target afd_events) ;;
    let status := i32 status in
    (if status =? STATUS_SUCCESS then
       number <- os (AfdInfoNumberOfHandles a) ;;
       events <- os (AfdInfoEvents a) ;;
       put_info info ((request_info target afd_events)
         <| ai_NumberOfHandles := u32 number |> <| ai_Events := u32 events |>)
     else ret tt) ;;
    ret status
  end.

(** The part after the claim: the request is published, submitted and, unless
    it is pending, retired.  The int result and [*pending_out]. *)
Definition submit_request (afd : Z) (sock : ptr) (afd_events : Z) (target_is_duplicate : bool)
    : MW (Z * bool) :=
  info <- rd w_socks sock s_afd_info ;;
  target <- rd w_socks sock s_afd_poll_target ;;
  put_info info (request_info target afd_events) ;;
  wr w_socks sock s_iosb_status STATUS_PENDING ;;
  old_submitted_afd_events <- rd w_socks sock s_submitted_afd_events ;;
  wr w_socks sock s_submitted_afd_events afd_events ;;
  wr w_socks sock s_poll_status EP_POLL_PENDING ;;
  fault <- ep_fault_hit EP_FAULT_AFD_SUBMIT ;;
  if negb (fault =? 0) then
    saved_errno <- ep_last_err ;;
    wr w_socks sock s_poll_status EP_POLL_IDLE ;;
    wr w_socks sock s_submitted_afd_events old_submitted_afd_events ;;
    submit_release sock target_is_duplicate ;;
    ep_set_errno saved_errno ;;
    ret (-1, false)
  else
    status <- submit_ioctl afd sock info target afd_events ;;
    if negb (status =? STATUS_SUCCESS) && negb (status =? STATUS_PENDING) then
      wr w_socks sock s_poll_status EP_POLL_IDLE ;;
      wr w_socks sock s_submitted_afd_events old_submitted_afd_events ;;
      submit_release sock target_is_duplicate ;;
      ep_set_ntstatus_error status ;;
      ret (-1, false)
    else
      (if status =? STATUS_PENDING then
         (if target_is_duplicate then ep_afd_poll_duplicate_finish sock true else ret tt) ;;
         flags <- rd w_socks sock s_user_flags ;;
         if has flags EPOLLET then wr w_socks sock s_observed_events 0 else ret tt
       else
         wr w_socks sock s_iosb_status STATUS_SUCCESS ;;
         wr w_socks sock s_poll_status EP_POLL_IDLE ;;
         submit_release sock target_is_duplicate) ;;
      ret (0, status =? STATUS_PENDING).

Definition ep_afd_poll_submit (sock : ptr) (afd_events : Z) : MW (Z * bool) :=
  afd <- submit_handle sock ;;
  if afd =? 0 then ep_set_errno EINVAL ;; ret (-1, false)
  else
    poll_status <- rd w_socks sock s_poll_status ;;
    if negb (bool_decide (poll_status = EP_POLL_IDLE)) then ep_set_errno EALREADY ;; ret (-1, false)
    else
      buffer <- submit_buffer sock ;;
      if negb buffer then ret (-1, false)
      else
        base <- submit_base sock ;;
        if negb base then ret (-1, false)
        else
          info <- rd w_socks sock s_afd_info ;;
          put_info info (request_info 0 afd_events) ;;
          base_socket <- rd w_socks sock s_base_socket ;;
          fuel <- get claim_fuel ;;
          claimed <- ep_afd_poll_key_claim fuel sock base_socket ;;
          let '(failed, target_is_duplicate) := claimed in
          if negb (failed =? 0) then ret (-1, false)
          else submit_request afd sock afd_events target_is_duplicate.

Definition ep_afd_cancel (sock : ptr) : MW Z :=
  afd <- submit_handle sock ;;
  if afd =? 0 then ep_set_errno EINVAL ;; ret (-1)
  else match sock with
  | None => stuck
  | Some a =>
    poll_status <- rd w_socks sock s_poll_status ;;
    iosb_status <- rd w_socks sock s_iosb_status ;;
    if negb (bool_decide (poll_status = EP_POLL_PENDING)) || negb (iosb_status =? STATUS_PENDING)
    then ret 0
    else
      fault <- ep_fault_hit EP_FAULT_AFD_CANCEL ;;
      if negb (fault =? 0) then ret (-1)
      else
        status <- os (NtCancelIoFileEx afd a) ;;
        let status := i32 status in
        if status =? STATUS_SUCCESS then wr w_socks sock s_poll_status EP_POLL_CANCELLED ;; ret 0
        else if status =? STATUS_NOT_FOUND then ret 0
        else ep_set_ntstatus_error status ;; ret (-1)
  end.

(** ** Frames *)

(** Only registration [a], the key fields of the others, the index, the poll
    buffers, the trace and the error channel change. *)
Definition sub_frame (a : addr) (w w' : world) : Prop :=
  exists K H I, key_er <$> delete a H = key_er <$> delete a (w_socks w) /\
    quiet (w <| w_poll_keys := K |> <| w_socks := H |> <| w_afd_infos := I |>) w'.

Lemma sub_frame_keyed a w w' : keyed w w' -> sub_frame a w w'.
Proof.
  intros (K & H & E & Hq). exists K, H, (w_afd_infos w). split; [by rewrite !fmap_delete, E|].
  etrans; [|exact Hq]. by exists (w_errno w), (w_last_error w), (w_fault_slots w), (w_trace w); destruct w.
Qed.
Lemma sub_frame_quiet a w w' : quiet w w' -> sub_frame a w w'.
Proof. intros. by apply sub_frame_keyed, keyed_quiet. Qed.

#[export] Instance sub_frame_preorder a : PreOrder (sub_frame a).
Proof.
  split.
  - intros w. by apply sub_frame_quiet.
  - intros w1 w2 w3 (K1 & H1 & I1 & E1 & Hq1) (K2 & H2 & I2 & E2 & Hq2). exists K2, H2, I2.
    rewrite (quiet_socks _ _ Hq1) in E2. sget_in E2. split; [congruence|].
    destruct Hq1 as (e & i & sl & tr & ->). etrans; [|exact Hq2]. exists e, i, sl, tr. by destruct w1.
Qed.

Lemma sub_frame_wr a w s' : sub_frame a w (w <| w_socks := <[a := s']> (w_socks w) |>).
Proof.
  exists (w_poll_keys w), (<[a := s']> (w_socks w)), (w_afd_infos w).
  split; [by rewrite delete_insert_eq|].
  by exists (w_errno w), (w_last_error w), (w_fault_slots w), (w_trace w); destruct w.
Qed.
Lemma sub_frame_info a w I : sub_frame a w (w <| w_afd_infos := I |>).
Proof.
  exists (w_poll_keys w), (w_socks w), I. split; [done|].
  by exists (w_errno w), (w_last_error w), (w_fault_slots w), (w_trace w); destruct w.
Qed.
Lemma sub_frame_publish a w s' I :
  sub_frame a w (w <| w_afd_infos := I |> <| w_socks := <[a := s']> (w_socks w) |>).
Proof.
  exists (w_poll_keys w), (<[a := s']> (w_socks w)), I. split; [by rewrite delete_insert_eq|].
  by exists (w_errno w), (w_last_error w), (w_fault_slots w), (w_trace w); destruct w.
Qed.
Lemma sub_frame_os a w w' : sub_frame a w w' -> w_os w' = w_os w.
Proof. intros (K & H & I & _ & Hq). by rewrite (quiet_os _ _ Hq). Qed.
Lemma sub_frame_fault_free a w w' : sub_frame a w w' -> fault_free w -> fault_free w'.
Proof. intros (K & H & I & _ & Hq) Hf. by eapply quiet_fault_free. Qed.

(** ** Calls that open and close no handle *)

Class Neutral (r : os_request) : Prop :=
  neutral : match r with DuplicatedHandle | CreateEventW | CloseHandle _ => False | _ => True end.
#[export] Hint Extern 1 (Neutral _) => exact I : typeclass_instances.

Section Handles.
Context (w0 : world) (held : list Z).
Abbreviation HoldsFrame := (Framed (fun w => holds w0 w held) quiet).
#[export] Instance os_holds r : Neutral r -> HoldsFrame (os r).
Proof.
  intros Hn w Hw. apply wp_os. split; [by eapply holds_call|]. apply quiet_call, quiet_refl.
Qed.
#[export] Instance ret_holds {A} (a : A) : HoldsFrame (ret a).
Proof. intros w Hw. by apply wp_ret. Qed.
#[export] Instance set_errno_holds e : HoldsFrame (ep_set_errno e).
Proof.
  intros w Hw. eexists _, _. split; [reflexivity|]. split; [by apply (holds_same w0 w)|apply quiet_error].
Qed.
#[export] Instance set_winsock_error_holds e : HoldsFrame (ep_set_winsock_error e).
Proof.
  intros w Hw. eexists _, _. split; [reflexivity|]. split; [by apply (holds_same w0 w)|apply quiet_error].
Qed.
#[export] Instance fault_hit_holds point : HoldsFrame (ep_fault_hit point).
Proof.
  intros w Hw. destruct (fault_hit_frame point w) as (r & e & i & sl & Hr & _).
  eexists _, _. split; [exact Hr|]. split; [by apply (holds_same w0 w)|].
  exists e, i, sl, (w_trace w). by destruct w.
Qed.
#[export] Instance ioctl_handle_holds s c e : HoldsFrame (ep_socket_ioctl_handle s c e).
Proof. unfold ep_socket_ioctl_handle. framed. Qed.
#[export] Instance base_fallback_holds current visited codes : forall saw,
  HoldsFrame (base_fallback ep_socket_ioctl_handle current visited codes saw).
Proof. induction codes as [|c codes IH]; intros saw; cbn [base_fallback]; framed. Qed.
#[export] Instance base_loop_holds depth : forall current visited,
  HoldsFrame (base_loop ep_socket_ioctl_handle depth current visited).
Proof.
  induction depth as [|depth IH]; intros current visited; cbn [base_loop]; framed.
Qed.
#[export] Instance get_base_holds s : HoldsFrame (ep_socket_get_base s).
Proof. unfold ep_socket_get_base, ep_socket_get_base_with_ioctl. framed. Qed.
End Handles.

(** ** Preparing a request *)

Definition prep_er (s : ep_sock) : ep_sock :=
  s <| s_afd_info := NULL |> <| s_base_socket := 0 |> <| s_base_socket_cached := false |>
    <| s_base_socket_identity := 0 |>.
(** What preparing a request may do to a registration: it gets a poll buffer
    when it has none, and the cached base handle may be looked up anew; a handle
    that is cached then is valid and recorded for the registration's endpoint. *)
Definition prepared (s s' : ep_sock) : Prop :=
  prep_er s' = prep_er s /\ (s_afd_info s <> NULL -> s_afd_info s' = s_afd_info s) /\
  ((s_base_socket s', s_base_socket_cached s', s_base_socket_identity s') =
     (s_base_socket s, s_base_socket_cached s, s_base_socket_identity s) \/
   (s_base_socket_cached s' = true -> s_base_socket s' <> INVALID_SOCKET /\
      s_base_socket_identity s' = s_endpoint_id s /\ s_endpoint_id_state s <> EP_SOCKET_ID_UNAVAILABLE)).
Lemma prepared_er s s' : prepared s s' -> prep_er s' = prep_er s.
Proof. by intros [? _]. Qed.
Lemma prepared_refl s : prepared s s.
Proof. split_and!; [done|done|by left]. Qed.
(** [s] became [s'] and nothing else happened. *)
Definition touched (a : addr) (s' : ep_sock) (w w' : world) : Prop :=
  quiet (w <| w_socks := <[a := s']> (w_socks w) |>) w'.

Lemma touched_quiet a s w w' : w_socks w !! a = Some s -> quiet w w' -> touched a s w w'.
Proof.
  intros Ha Hq. unfold touched. rewrite insert_id by done.
  assert (w <| w_socks := w_socks w |> = w) as -> by (by destruct w). done.
Qed.
Lemma touched_trans a s1 s2 w w1 w2 : touched a s1 w w1 -> touched a s2 w1 w2 -> touched a s2 w w2.
Proof.
  intros (e1 & i1 & l1 & t1 & ->) (e2 & i2 & l2 & t2 & ->). exists e2, i2, l2, t2. sget.
  rewrite insert_insert_eq. by destruct w.
Qed.
Lemma touched_wr a s' w w1 H :
  quiet w w1 -> H = w_socks w -> touched a s' w (w1 <| w_socks := <[a := s']> H |>).
Proof. intros (e & i & l & t & ->) ->. exists e, i, l, t. by destruct w. Qed.
Lemma touched_lookup a s w w' : touched a s w w' -> w_socks w' !! a = Some s.
Proof. intros Hq. rewrite (quiet_socks _ _ Hq). sget. apply lookup_insert_eq. Qed.
Lemma touched_frame a s w w' : touched a s w w' -> sub_frame a w w'.
Proof. intros Hq. etrans; [apply sub_frame_wr|by apply sub_frame_quiet]. Qed.

Section Prepare.
Context (w0 : world) (held : list Z).

Lemma submit_buffer_spec a s w :
  w_socks w !! a = Some s -> holds w0 w held ->
  wp (submit_buffer (Some a)) (fun b w' => holds w0 w' held /\ exists s', touched a s' w w' /\
    prepared s s' /\ (b = true -> is_Some (s_afd_info s')) /\ (forall s'', prepared s' s'' -> s_afd_info s'' = s_afd_info s' -> prepared s s'')) w.
Proof.
  intros Ha Hh. unfold submit_buffer. wsteps. destruct (s_afd_info s) as [b|] eqn:Eb.
  { apply wp_ret. split; [done|]. exists s. split_and!; [by apply touched_quiet|apply prepared_refl|by rewrite Eb|done]. }
  wsteps. set (w1 := set w_trace _ w). assert (Hh1 : holds w0 w1 held) by (by eapply holds_call). wif.
  - apply wp_bind. eapply wp_mono; [by apply (set_errno_holds w0 held)|]. intros _ w2 [Hh2 Hq]. apply wp_ret.
    split; [done|]. exists s. split_and!; [|apply prepared_refl|done|done]. apply touched_quiet; [done|].
    etrans; [|exact Hq]. unfold w1. auto with quiet.
  - wsteps. split; [by apply (holds_same w0 w1)|].
    exists (s <| s_afd_info := Some (Z.to_pos (w_os w (w_trace w) (Malloc 32))) |>).
    split; [apply touched_wr; [apply quiet_call, quiet_refl|reflexivity]|].
    split; [split_and!; [reflexivity|by rewrite Eb|by left]|]. split; [intros _; sget; by eexists|].
    intros s'' (E1 & _ & E3) _. split_and!; [done|by rewrite Eb|done].
Qed.

Lemma submit_base_spec a s w :
  w_socks w !! a = Some s -> holds w0 w held ->
  wp (submit_base (Some a)) (fun _ w' => holds w0 w' held /\ exists s', touched a s' w w' /\
    prepared s s' /\ s_afd_info s' = s_afd_info s) w.
Proof.
  intros Ha Hh. unfold submit_base. wsteps. wif.
  { apply wp_ret. split; [done|]. exists s. split_and!; [by apply touched_quiet|apply prepared_refl|done]. }
  wsteps. eapply wp_mono; [by apply (get_base_holds w0 held)|]. intros base w1 [Hh1 Hq1].
  pose proof (quiet_socks _ _ Hq1) as Hs1. assert (Ha1 : w_socks w1 !! a = Some s) by (by rewrite Hs1).
  wsteps. repeat (wif; wsteps); (split; [by apply (holds_same w0 w1)|]);
    (eexists; split; [by apply touched_wr|]; split; [split_and!; [reflexivity|done|right]|reflexivity]).
  - done.
  - intros _. apply Z.eqb_neq in Heqb0. apply negb_true_iff, bool_decide_eq_false in Heqb1. done.
  - done.
Qed.
End Prepare.

(** ** Retiring a request *)

Lemma delete_reserved w a s : w_socks w !! a = Some s -> s_afd_poll_key_reservation s = 0 ->
  <[a := s <| s_afd_poll_key_reservation := 0 |>]> (w_socks w) = w_socks w.
Proof.
  intros Ha Hr. assert (s <| s_afd_poll_key_reservation := 0 |> = s) as -> by (destruct s; simpl in *; by subst).
  by apply insert_id.
Qed.

(** Retiring takes the target out of the index and closes the duplicate. *)
Lemma submit_release_spec w0 w B a s dup :
  keys_inv w B -> fault_free w -> w_os w = w_os w0 ->
  w_socks w !! a = Some s -> s_afd_poll_key_owned s = true -> s_afd_poll_key_reservation s = 0 ->
  holds w0 w (if dup : bool then [s_afd_poll_target s] else []) ->
  wp (submit_release (Some a) dup)
    (fun _ w' => (exists B', keys_inv w' B') /\ keyed w w' /\
       poll_keys w' = delete a (poll_keys w) /\ w_errno w' = w_errno w /\ holds w0 w' []) w.
Proof.
  intros HI Hf Hos Ha Ho Hr Hh. unfold submit_release, ep_afd_poll_duplicate_abandon. destruct dup.
  - apply wp_bind. eapply wp_mono; [by apply (finish_spec w0 w B a s false)|].
    intros _ w1 (HI1 & Hk1 & Hp1 & He1 & r & Hs1 & Hr1 & Hh1).
    assert (r = 0) as -> by (by destruct Hr1 as [|[? _]]). rewrite delete_reserved in Hs1 by done.
    eapply wp_mono; [apply (release_spec w0 w1 B a s); [done|by rewrite Hs1]|].
    intros _ w2 (HB & Hk2 & Hp2 & He2 & Hh2). split_and!; [done|by etrans|congruence|congruence|].
    apply Hh2. rewrite Hr. by apply (Hh1 []).
  - eapply wp_mono; [by apply (release_spec w0 w B a s)|]. intros _ w2 (HB & Hk2 & Hp2 & He2 & Hh2).
    split_and!; [done..|]. apply Hh2. by rewrite Hr.
Qed.

(** ** A request from claim to outcome *)

(** The fields a request may change; what becomes of the last four is said by
    [request_outcome]. *)
Definition req_er (s : ep_sock) : ep_sock :=
  key_er s <| s_iosb_status := 0 |> <| s_submitted_afd_events := 0 |>
    <| s_poll_status := EP_POLL_IDLE |> <| s_observed_events := 0 |>.

(** The three outcomes of a request of [s] for [afd_events], with the target
    [t] it was given ([K] are the targets in flight before). *)
Definition request_outcome (w0 : world) (K : gmap addr Z) (a : addr) (s : ep_sock) (t afd_events : Z)
    (r : Z * bool) (s' : ep_sock) (w' : world) : Prop :=
  (r = (0, true) /\ s_poll_status s' = EP_POLL_PENDING /\ s_iosb_status s' = STATUS_PENDING /\
     s_submitted_afd_events s' = afd_events /\
     s_observed_events s' = (if has (s_user_flags s) EPOLLET then 0 else s_observed_events s) /\
     s_afd_poll_key_owned s' = true /\
     s_afd_poll_target s' = t /\ poll_keys w' = <[a := t]> K /\
     holds w0 w' (reserved (s_afd_poll_key_reservation s')) /\
     exists b, s_afd_info s' = Some b /\ w_afd_infos w' !! b = Some (request_info t afd_events)) \/
  (r = (0, false) /\ s_poll_status s' = EP_POLL_IDLE /\ s_iosb_status s' = STATUS_SUCCESS /\
     s_submitted_afd_events s' = afd_events /\ s_observed_events s' = s_observed_events s /\
     poll_keys w' = K /\ holds w0 w' [] /\
     exists b number events, s_afd_info s' = Some b /\
       w_afd_infos w' !! b = Some ((request_info t afd_events) <| ai_NumberOfHandles := number |> <| ai_Events := events |>)) \/
  (r = (-1, false) /\ s_poll_status s' = s_poll_status s /\
     (s_iosb_status s' = s_iosb_status s \/ s_iosb_status s' = STATUS_PENDING) /\
     s_submitted_afd_events s' = s_submitted_afd_events s /\ s_observed_events s' = s_observed_events s /\
     poll_keys w' = K /\ holds w0 w' []).

Lemma keys_inv_ext w w' B :
  w_socks w' = w_socks w -> w_poll_keys w' = w_poll_keys w -> keys_inv w B -> keys_inv w' B.
Proof. intros Es Ek [H1 H2 H3 H4 H5 H6]. split; rewrite ?Es, ?Ek; done. Qed.

Lemma set_ntstatus_error_spec w0 status w :
  wp (ep_set_ntstatus_error status) (fun _ w' => quiet w w' /\
    forall held, holds w0 w held -> holds w0 w' held) w.
Proof.
  unfold ep_set_ntstatus_error, ep_status_to_errno, ep_ntstatus_to_winerr, ep_set_native_error,
    upd_last_error, ep_set_errno.
  wsteps. destruct (w_rtl_resolved w); cbn [negb]; wsteps.
  all: split; [lazymatch goal with |- quiet ?w0 ?w1 =>
      exists (w_errno w1), (w_last_error w1), (w_fault_slots w1), (w_trace w1); by destruct w0 end|].
  - intros held Hh. by eapply holds_call.
  - intros held. by apply holds_same.
Qed.

Section Request.
Context (w0 : world) (K : gmap addr Z) (a : addr) (t afd_events : Z) (dup : bool).
Context (HK : K !! a = None).

(** The states between the publication of the request and its outcome. *)
Record in_request (w : world) (s s1 : ep_sock) (b : addr) (wi : world) : Prop := {
  ir_socks : w_socks wi = <[a := s1]> (w_socks w);
  ir_keys : w_poll_keys wi = w_poll_keys w;
  ir_fault : fault_free wi;
  ir_os : w_os wi = w_os w0;
  ir_holds : holds w0 wi (if dup then [t] else []);
  ir_frame : sub_frame a w wi;
  ir_same : same_key s s1;
  ir_res : s_afd_poll_key_reservation s1 = 0;
  ir_req : req_er s1 = req_er s;
  ir_info : s_afd_info s1 = Some b
}.

(** What a request starts from: the target has just been claimed. *)
Record claimed (w : world) (s : ep_sock) (b : addr) : Prop := {
  cl_inv : exists B, keys_inv w B;
  cl_fault : fault_free w;
  cl_os : w_os w = w_os w0;
  cl_sock : w_socks w !! a = Some s;
  cl_owned : s_afd_poll_key_owned s = true;
  cl_target : s_afd_poll_target s = t;
  cl_res : s_afd_poll_key_reservation s = 0;
  cl_info : s_afd_info s = Some b;
  cl_keys : poll_keys w = <[a := t]> K;
  cl_holds : holds w0 w (if dup then [t] else [])
}.

Lemma in_request_inv w s s1 b wi B :
  keys_inv w B -> w_socks w !! a = Some s -> in_request w s s1 b wi -> keys_inv wi B.
Proof.
  intros HI Ha Hi. eapply (keys_inv_ext (w <| w_socks := <[a := s1]> (w_socks w) |>)).
  - by rewrite (ir_socks _ _ _ _ _ Hi).
  - by rewrite (ir_keys _ _ _ _ _ Hi).
  - apply (keys_inv_update _ _ _ s); [done..|apply (ir_same _ _ _ _ _ Hi)].
Qed.
Lemma in_request_keys w s s1 b wi :
  claimed w s b -> in_request w s s1 b wi -> poll_keys wi = <[a := t]> K.
Proof.
  intros Hc Hi. rewrite <- (cl_keys _ _ _ Hc), <- (poll_keys_update w a s s1).
  - unfold poll_keys. by rewrite (ir_socks _ _ _ _ _ Hi).
  - apply (cl_sock _ _ _ Hc).
  - apply (ir_same _ _ _ _ _ Hi).
Qed.
Lemma in_request_lookup w s s1 b wi : in_request w s s1 b wi -> w_socks wi !! a = Some s1.
Proof. intros Hi. rewrite (ir_socks _ _ _ _ _ Hi). apply lookup_insert_eq. Qed.

(** Retiring the request: everything is as before the claim. *)
Lemma in_request_retire w s s1 b wi :
  claimed w s b -> in_request w s s1 b wi ->
  wp (submit_release (Some a) dup)
    (fun _ w' => exists s', w_socks w' !! a = Some s' /\ key_er s' = key_er s1 /\
       (exists B', keys_inv w' B') /\ sub_frame a w w' /\ w_errno w' = w_errno wi /\ poll_keys w' = K /\
       holds w0 w' [] /\ w_afd_infos w' = w_afd_infos wi) wi.
Proof.
  intros Hc Hi. destruct (cl_inv _ _ _ Hc) as [B HB].
  destruct (ir_same _ _ _ _ _ Hi) as (Eo & Et & _).
  pose proof (in_request_lookup _ _ _ _ _ Hi) as Hs1.
  eapply wp_mono.
  { apply (submit_release_spec w0 wi B a s1 dup).
    - eapply in_request_inv; [exact HB|apply (cl_sock _ _ _ Hc)|exact Hi].
    - apply (ir_fault _ _ _ _ _ Hi).
    - apply (ir_os _ _ _ _ _ Hi).
    - done.
    - by rewrite Eo, (cl_owned _ _ _ Hc).
    - apply (ir_res _ _ _ _ _ Hi).
    - rewrite Et, (cl_target _ _ _ Hc). apply (ir_holds _ _ _ _ _ Hi). }
  intros _ w' (HB' & Hk & Hp & He & Hh).
  destruct (keyed_lookup _ _ a s1 Hk Hs1) as (s' & Hs' & E). exists s'. split_and!; try done.
  - etrans; [apply (ir_frame _ _ _ _ _ Hi)|by apply sub_frame_keyed].
  - rewrite Hp, (in_request_keys _ _ _ _ _ Hc Hi). by apply delete_insert_id.
  - destruct Hk as (K' & H' & _ & Hq). by destruct Hq as (? & ? & ? & ? & ->).
Qed.

(** Any later write to the request's own fields stays inside the request. *)
Lemma in_request_wr w s s1 s2 b wi :
  in_request w s s1 b wi -> same_key s s2 -> s_afd_poll_key_reservation s2 = 0 ->
  req_er s2 = req_er s -> s_afd_info s2 = Some b ->
  in_request w s s2 b (wi <| w_socks := <[a := s2]> (w_socks wi) |>).
Proof.
  intros [Hs Hk Hf Ho Hh Hfr _ _ _ _] Hk2 Hr2 Hq2 Hi2. split; try done.
  - sget. by rewrite Hs, insert_insert_eq.
  - etrans; [exact Hfr|apply sub_frame_wr].
Qed.
Lemma in_request_call w s s1 b wi r :
  in_request w s s1 b wi ->
  match r with DuplicatedHandle | CreateEventW | CloseHandle _ => False | _ => True end ->
  in_request w s s1 b (wi <| w_trace ::= cons r |>).
Proof.
  intros [Hs Hk Hf Ho Hh Hfr Hsm Hr Hq Hi] Hn. split; try done.
  - by eapply holds_call.
  - etrans; [exact Hfr|]. apply sub_frame_quiet, quiet_call, quiet_refl.
Qed.
Lemma in_request_info w s s1 b wi I :
  in_request w s s1 b wi -> in_request w s s1 b (wi <| w_afd_infos := I |>).
Proof.
  intros [Hs Hk Hf Ho Hh Hfr Hsm Hr Hq Hi]. split; try done. etrans; [exact Hfr|apply sub_frame_info].
Qed.

(** The kernel's answer; on immediate success it has filled the number of
    handles and the events in, and nothing else. *)
Lemma submit_ioctl_spec w s s1 b wi afd :
  in_request w s s1 b wi -> w_afd_infos wi !! b = Some (request_info t afd_events) ->
  wp (submit_ioctl afd (Some a) (Some b) t afd_events)
    (fun status w' => in_request w s s1 b w' /\
       if status =? STATUS_SUCCESS then exists number events, w_afd_infos w' !! b =
         Some ((request_info t afd_events) <| ai_NumberOfHandles := number |> <| ai_Events := events |>)
       else w_afd_infos w' !! b = Some (request_info t afd_events)) wi.
Proof.
  intros Hi Hb. unfold submit_ioctl. cbv zeta. wsteps. wif; wsteps.
  - unfold put_info. wsteps. rewrite Heqb0. split.
    + by apply in_request_info; repeat (apply in_request_call; [|done]).
    + eexists _, _. sget. rewrite lookup_insert_eq. done.
  - rewrite Heqb0. split; [by apply in_request_call|done].
Qed.

(** The duplicate of a pending request is given back at once. *)
Lemma pending_finish_spec w s s1 b wi :
  claimed w s b -> in_request w s s1 b wi ->
  wp (if dup then ep_afd_poll_duplicate_finish (Some a) true else ret tt)
    (fun _ w' => exists r, w_socks w' !! a = Some (s1 <| s_afd_poll_key_reservation := r |>) /\
       (exists B', keys_inv w' B') /\ sub_frame a w w' /\ poll_keys w' = <[a := t]> K /\
       holds w0 w' (reserved r) /\ w_afd_infos w' = w_afd_infos wi) wi.
Proof.
  intros Hc Hi. destruct (cl_inv _ _ _ Hc) as [B HB].
  pose proof (in_request_lookup _ _ _ _ _ Hi) as Hs1. pose proof (in_request_keys _ _ _ _ _ Hc Hi) as Hkeys.
  pose proof (in_request_inv _ _ _ _ _ B HB (cl_sock _ _ _ Hc) Hi) as HBi.
  pose proof Hi as [_ _ Hf Hos Hh Hfr (Eo & Et & _) Hr _ _].
  rewrite (cl_owned _ _ _ Hc) in Eo. rewrite (cl_target _ _ _ Hc) in Et. destruct dup.
  - eapply wp_mono; [by apply (finish_spec w0 wi B a s1 true)|].
    intros _ w' (HI' & Hk & Hp & _ & r & Hs' & _ & Hh'). exists r. split_and!.
    + rewrite Hs'. apply lookup_insert_eq.
    + by exists B.
    + etrans; [exact Hfr|by apply sub_frame_keyed].
    + congruence.
    + rewrite Et in Hh'. rewrite <- (app_nil_r (reserved r)). by apply Hh'.
    + destruct Hk as (K' & H' & _ & Hq). by destruct Hq as (? & ? & ? & ? & ->).
  - apply wp_ret. exists 0. split_and!; [|by exists B|done|done|done|done].
    assert (s1 <| s_afd_poll_key_reservation := 0 |> = s1) as -> by (destruct s1; simpl in *; by subst). done.
Qed.

Lemma submit_request_spec w s b afd :
  claimed w s b -> s_poll_status s = EP_POLL_IDLE ->
  wp (submit_request afd (Some a) afd_events dup)
    (fun r w' => exists s', w_socks w' !! a = Some s' /\ req_er s' = req_er s /\
       (exists B', keys_inv w' B') /\ sub_frame a w w' /\
       request_outcome w0 K a s t afd_events r s' w') w.
Proof.
  intros Hc Hidle. pose proof Hc as [HB Hf Hos Ha Ho Ht Hr Hb HKeys Hh].
  unfold submit_request. wstep. wstep. rewrite Hb. wstep. wstep. rewrite Ht. cbn [put_info]. wsteps.
  set (s1 := s <| s_iosb_status := STATUS_PENDING |> <| s_submitted_afd_events := afd_events |>
               <| s_poll_status := EP_POLL_PENDING |>).
  match goal with |- wp _ _ ?x => set (w1 := x) end.
  assert (H1 : in_request w s s1 b w1).
  { split; try done. apply sub_frame_publish. }
  assert (Hinfo1 : w_afd_infos w1 !! b = Some (request_info t afd_events)) by apply lookup_insert_eq.
  clearbody w1. eapply wp_run; [by apply fault_hit_free, H1|]. cbn [negb Z.eqb]. apply wp_bind.
  eapply wp_mono; [by eapply (submit_ioctl_spec w s s1 b w1)|].
  intros status w2 [H2 Hi2]. pose proof (in_request_lookup _ _ _ _ _ H2) as Hs2.
  destruct (Z.eqb_spec status STATUS_SUCCESS) as [->|Hne]; cbn [negb andb].
  - (* immediate success *)
    cbn [Z.eqb STATUS_PENDING STATUS_SUCCESS Pos.eqb]. wsteps.
    set (s3 := s1 <| s_iosb_status := STATUS_SUCCESS |> <| s_poll_status := EP_POLL_IDLE |>).
    assert (H3 : in_request w s s3 b (w2 <| w_socks := <[a := s3]> (w_socks w2) |>))
      by (by eapply in_request_wr).
    eapply wp_mono; [by eapply in_request_retire|]. intros _ w4 (s' & Hs' & E & HB' & Hfr & He & Hp & Hh' & Hin).
    apply wp_ret. exists s'. split_and!; [done| |done|done|].
    + transitivity (req_er s3); [|done]. by apply (f_equal req_er) in E.
    + right; left. split_and!; try done.
      * by apply (f_equal s_poll_status) in E.
      * by apply (f_equal s_iosb_status) in E.
      * by apply (f_equal s_submitted_afd_events) in E.
      * by apply (f_equal s_observed_events) in E.
      * destruct Hi2 as (number & events & Hi2). exists b, number, events. split; [|by rewrite Hin].
        by apply (f_equal s_afd_info) in E; rewrite <- Hb.
  - destruct (Z.eqb_spec status STATUS_PENDING) as [->|Hne']; cbn [negb andb].
    + (* pending *)
      cbn [Z.eqb Pos.eqb STATUS_PENDING STATUS_SUCCESS] in Hi2 |- *. apply wp_bind, wp_bind.
      eapply wp_mono; [by eapply pending_finish_spec|].
      intros _ w3 (r & Hs3 & [B3 HB3] & Hfr & Hp & Hh3 & Hin3). rewrite <- Hin3 in Hi2. wsteps.
      wif; wsteps.
      * set (s4 := set s_observed_events _ _).
        assert (Hk4 : same_key (s1 <| s_afd_poll_key_reservation := r |>) s4) by done.
        exists s4. split_and!; [apply lookup_insert_eq|done|exists B3; by apply (keys_inv_update _ _ _ _ _ HB3 Hs3)| |].
        -- etrans; [exact Hfr|apply sub_frame_wr].
        -- left. assert (Hfl : has (s_user_flags s) EPOLLET = true) by exact Heqb0. rewrite Hfl.
           split_and!; try done; [by rewrite (poll_keys_update _ _ _ _ Hs3 Hk4)|by exists b].
      * exists (s1 <| s_afd_poll_key_reservation := r |>).
        split_and!; [done|done|by exists B3|done|]. left.
        assert (Hfl : has (s_user_flags s) EPOLLET = false) by exact Heqb0. rewrite Hfl. split_and!; try done. by exists b.
    + (* refused *)
      wsteps.
      set (s3 := s1 <| s_poll_status := EP_POLL_IDLE |> <| s_submitted_afd_events := s_submitted_afd_events s |>).
      assert (H3 : in_request w s s3 b (w2 <| w_socks := <[a := s3]> (w_socks w2) |>))
        by (by eapply in_request_wr).
      eapply wp_mono; [by eapply in_request_retire|].
      intros _ w4 (s' & Hs' & E & HB' & Hfr & He & Hp & Hh' & Hin). apply wp_bind.
      eapply wp_mono; [apply (set_ntstatus_error_spec w0)|]. intros _ w5 [Hq5 Hh5]. apply wp_ret.
      exists s'. rewrite (quiet_socks _ _ Hq5). split_and!; [done| | | |].
      * transitivity (req_er s3); [|done]. by apply (f_equal req_er) in E.
      * destruct HB' as [B' HB']. exists B'. by eapply keys_inv_quiet.
      * etrans; [exact Hfr|by apply sub_frame_quiet].
      * right; right. split_and!; [done| | | | | |by apply Hh5].
        -- rewrite Hidle. by apply (f_equal s_poll_status) in E.
        -- right. by apply (f_equal s_iosb_status) in E.
        -- by apply (f_equal s_submitted_afd_events) in E.
        -- by apply (f_equal s_observed_events) in E.
        -- unfold poll_keys in *. by rewrite (quiet_socks _ _ Hq5).
Qed.
End Request.

(** ** Submission and cancellation *)

Lemma touched_keys w w1 B a s s1 :
  keys_inv w B -> w_socks w !! a = Some s -> same_key s s1 -> touched a s1 w w1 ->
  keys_inv w1 B /\ poll_keys w1 = poll_keys w.
Proof.
  intros HI Ha Hk Ht. split.
  - eapply keys_inv_quiet; [exact Ht|]. by apply (keys_inv_update _ _ _ s).
  - rewrite <- (poll_keys_update w a s s1) by done. unfold poll_keys. by rewrite (quiet_socks _ _ Ht).
Qed.
Lemma prep_same_key s s' : prep_er s' = prep_er s -> same_key s s'.
Proof.
  intros E. split_and!.
  - by apply (f_equal s_afd_poll_key_owned) in E.
  - by apply (f_equal s_afd_poll_target) in E.
  - by apply (f_equal s_afd_poll_key_next) in E.
  - intros _. by apply (f_equal s_afd_poll_key_reservation) in E.
Qed.
Lemma submit_handle_run a s w :
  w_socks w !! a = Some s -> (forall g, s_afd_group s = Some g -> is_Some (w_groups w !! g)) ->
  exists afd, submit_handle (Some a) w = Some (afd, w).
Proof.
  intros Ha Hg. unfold submit_handle. do 2 mstep. destruct (s_port s); [|by eexists].
  destruct (s_afd_group s) as [g|] eqn:Eg; [|by eexists]. destruct (Hg g eq_refl) as [gr Hgr].
  repeat mstep. by eexists.
Qed.

(** What the claim of a prepared registration hands to the request. *)
Lemma claim_for_request w0 K w B a s b :
  keys_inv w B -> fault_free w -> w_os w = w_os w0 -> holds w0 w [] -> poll_keys w = K ->
  w_socks w !! a = Some s -> s_afd_poll_key_owned s = false -> s_afd_info s = Some b ->
  duplicate_laws (w_os w0) ->
  wp (ep_afd_poll_key_claim (claim_fuel w) (Some a) (s_base_socket s))
    (fun r w' => exists s', w_socks w' !! a = Some s' /\ key_er s' = key_er s /\ keyed w w' /\
       (r = (-1, false) /\ poll_keys w' = K /\ holds w0 w' [] /\ (exists B', keys_inv w' B') \/
        exists t dup, r = (0, dup) /\ (forall x, K !! x <> Some t) /\ claimed w0 K a t dup w' s' b)) w.
Proof.
  intros HI Hf Hos Hh <- Ha Ho Hb Hd.
  eapply wp_mono; [by apply (claim_spec w0 w B a s); [..|apply poll_keys_size]|].
  intros r w1 (HB & Hk & Hc). destruct (keyed_lookup _ _ a s Hk Ha) as (s1 & Hs1 & E).
  exists s1. split_and!; [done..|].
  assert (Hcl : forall t dup, poll_keys w1 = <[a := t]> (poll_keys w) ->
    (exists s', w_socks w1 !! a = Some s' /\ s_afd_poll_key_reservation s' = 0) ->
    holds w0 w1 (if dup : bool then [t] else []) -> claimed w0 (poll_keys w) a t dup w1 s1 b).
  { intros t dup Hp (s' & Hs' & Hr') Hh1. assert (s' = s1) as -> by congruence.
    assert (Hown : poll_keys w1 !! a = Some t) by (rewrite Hp; apply lookup_insert_eq).
    apply poll_keys_Some in Hown as (s2 & Hs2 & Ho2 & Ht2).
    assert (s2 = s1) as -> by congruence. split; try done.
    - by eapply keyed_fault_free.
    - by rewrite (keyed_os _ _ Hk).
    - apply (f_equal s_afd_info) in E. by rewrite <- Hb. }
  destruct Hc as [(-> & Hfree & Hh1 & Hsr & Hp)|[(-> & _ & t & Hfree & Hh1 & Hsr & Hp)|(-> & _ & _ & Hh1 & Hp)]].
  - right. exists (s_base_socket s), false. split_and!; [done|done|by apply Hcl].
  - right. exists t, true. split_and!; [done|done|by apply Hcl].
  - left. by split_and!.
Qed.

(** What a submission establishes: after preparation the registration is [s2];
    then [request_outcome], for some target that is new when the request is
    pending, and a consistent index. *)
Definition submitted (w : world) (a : addr) (s : ep_sock) (afd_events : Z) (r : Z * bool) (w' : world)
    : Prop :=
  exists s2 s' t, prepared s s2 /\ w_socks w' !! a = Some s' /\ req_er s' = req_er s2 /\
    (exists B', keys_inv w' B') /\ sub_frame a w w' /\
    (r = (0, true) -> forall x, poll_keys w !! x <> Some t) /\
    request_outcome w (poll_keys w) a s t afd_events r s' w'.

(** What a request starts from; neither preparation nor the claim touches it. *)
Definition request_state (s : ep_sock) : ep_poll_status * Z * Z * Z * Z :=
  (s_poll_status s, s_iosb_status s, s_submitted_afd_events s, s_observed_events s, s_user_flags s).
Lemma request_state_er (er : ep_sock -> ep_sock) s s' :
  (forall x, request_state (er x) = request_state x) -> er s' = er s -> request_state s' = request_state s.
Proof. intros Her E. rewrite <- (Her s'), <- (Her s). by rewrite E. Qed.
Lemma outcome_same w0 K a s s1 t afd_events r s' w' :
  request_state s1 = request_state s -> request_outcome w0 K a s1 t afd_events r s' w' ->
  request_outcome w0 K a s t afd_events r s' w'.
Proof. intros [= E1 E2 E3 E4 E5]. unfold request_outcome. by rewrite E1, E2, E3, E4, E5. Qed.

(** Failing before the claim. *)
Lemma submit_failed w B a s afd_events w1 s1 :
  keys_inv w B -> w_socks w !! a = Some s -> touched a s1 w w1 -> prepared s s1 ->
  holds w w1 [] -> submitted w a s afd_events (-1, false) w1.
Proof.
  intros HI Ha Ht E Hh1. exists s1, s1, 0. pose proof (prepared_er _ _ E) as Er.
  destruct (touched_keys w w1 B a s s1) as [HI1 Hp1]; [done..|by apply prep_same_key|done|].
  split_and!; [done|by eapply touched_lookup|done|by exists B|by eapply touched_frame|done|].
  apply (outcome_same _ _ _ _ s1); [by apply (request_state_er prep_er)|].
  right; right. split_and!; try done. by left.
Qed.
Lemma submit_refused w B a s afd_events e :
  keys_inv w B -> w_socks w !! a = Some s ->
  wp (ep_set_errno e ;; ret (-1, false)) (submitted w a s afd_events) w.
Proof.
  intros HI Ha. apply wp_bind. eapply wp_mono; [apply (set_errno_holds w []), holds_refl|].
  intros _ w1 [Hh1 Hq1]. apply wp_ret. apply (submit_failed w B a s afd_events w1 s); [done|done|by apply touched_quiet|apply prepared_refl|done].
Qed.

(** From the claim on: [w3] is the prepared state, [s2] the registration. *)
Lemma submit_claimed w w3 B a s s2 b afd afd_events :
  keys_inv w3 B -> fault_free w -> poll_keys w3 = poll_keys w -> holds w w3 [] -> sub_frame a w w3 ->
  w_socks w !! a = Some s -> s_afd_poll_key_owned s = false -> s_poll_status s = EP_POLL_IDLE ->
  w_socks w3 !! a = Some s2 -> prepared s s2 -> s_afd_info s2 = Some b ->
  duplicate_laws (w_os w) ->
  wp (claimed <- ep_afd_poll_key_claim (claim_fuel w3) (Some a) (s_base_socket s2) ;;
      let '(failed, target_is_duplicate) := claimed in
      if negb (failed =? 0) then ret (-1, false)
      else submit_request afd (Some a) afd_events target_is_duplicate)
    (submitted w a s afd_events) w3.
Proof.
  intros HI Hf Hp Hh Hfr Ha Hown Hidle Hs2 Hprep Hb Hd. pose proof (prepared_er _ _ Hprep) as E. apply wp_bind. eapply wp_mono.
  { eapply (claim_for_request w (poll_keys w) w3 B a s2 b); try done.
    - by eapply (sub_frame_fault_free a w).
    - by apply (sub_frame_os a w).
    - by apply (f_equal s_afd_poll_key_owned) in E; rewrite <- Hown. }
  intros r w4 (s4 & Hs4 & E4 & Hk4 & Hr4).
  assert (Hfr4 : sub_frame a w w4) by (etrans; [exact Hfr|by apply sub_frame_keyed]).
  assert (Ereq : req_er s4 = req_er s2) by (by apply (f_equal req_er) in E4).
  assert (Est : request_state s4 = request_state s).
  { transitivity (request_state s2); [by apply (request_state_er key_er)|by apply (request_state_er prep_er)]. }
  destruct Hr4 as [(-> & Hp4 & Hh4 & HB4)|(t & dup & -> & Hfree & Hc)]; cbn [negb Z.eqb].
  - apply wp_ret. exists s2, s4, 0. split_and!; [done..|]. apply (outcome_same _ _ _ _ s4); [done|].
    right; right. split_and!; try done. by left.
  - assert (HK : poll_keys w !! a = None).
    { destruct (poll_keys w !! a) eqn:Ek; [|done]. apply poll_keys_Some in Ek as (? & ? & ? & _). congruence. }
    assert (Hidle4 : s_poll_status s4 = EP_POLL_IDLE) by (injection Est as -> _; exact Hidle).
    eapply wp_mono; [exact (submit_request_spec w (poll_keys w) a t afd_events dup HK w4 s4 b afd Hc Hidle4)|].
    intros r w5 (s5 & Hs5 & E5 & HB5 & Hfr5 & Hout). exists s2, s5, t.
    split_and!; [done|done|congruence|done|by etrans|done|]. by apply (outcome_same _ _ _ _ s4).
Qed.

(** C37: a poll submission returns and has exactly three outcomes.  Pending: the
    registration is marked pending with the requested events, its edge latch is
    cleared if it is edge-triggered, it owns a numeric target no other poll in
    flight has, its buffer holds exactly the request, and the only handle still
    held is a reservation of that target.  Immediate: the registration is idle
    again, its target and every duplicate were given back, and its buffer holds the
    request with only the number of handles and the events filled in.  Failed: poll
    status, submitted events, edge latch and the index are as before, no handle
    leaks, and what may be left behind is named: a poll buffer, a valid cached base
    handle, and a status block that says pending.  Other registrations keep
    everything but their place in the index.  Of the platform it is assumed that a
    successful duplication yields a number no open handle has and a failed one
    leaves an error code. *)
Theorem poll_submit_exact w B a s afd_events :
  keys_inv w B -> fault_free w -> w_socks w !! a = Some s ->
  (s_poll_status s = EP_POLL_IDLE -> s_afd_poll_key_owned s = false) ->
  (forall g, s_afd_group s = Some g -> is_Some (w_groups w !! g)) ->
  duplicate_laws (w_os w) ->
  wp (ep_afd_poll_submit (Some a) afd_events) (submitted w a s afd_events) w.
Proof.
  intros HI Hf Ha Hown Hg Hd. destruct (submit_handle_run a s w Ha Hg) as [afd Hafd].
  unfold ep_afd_poll_submit. apply wp_bind. eapply wp_run; [exact Hafd|].
  wif; [by apply (submit_refused w B)|]. wsteps.
  case_bool_decide as Hidle; cbn [negb]; [|by apply (submit_refused w B)]. specialize (Hown Hidle).
  apply wp_bind. eapply wp_mono; [by apply (submit_buffer_spec w []), holds_refl|].
  intros ok w1 (Hh1 & s1 & Ht1 & E1 & Hb1 & E12). destruct ok; cbn [negb]; [|by apply wp_ret, (submit_failed w B a s _ w1 s1)].
  apply wp_bind. eapply wp_mono; [by apply (submit_base_spec w [] a s1); [eapply touched_lookup|]|].
  intros ok w2 (Hh2 & s2 & Ht2 & E2 & Hb2). pose proof (touched_trans _ _ _ _ _ _ Ht1 Ht2) as Ht.
  pose proof (E12 s2 E2 Hb2) as E.
  destruct ok; cbn [negb]; [|by apply wp_ret, (submit_failed w B a s _ w2 s2)].
  destruct (Hb1 eq_refl) as [b Hb]. rewrite <- Hb2 in Hb. pose proof (touched_lookup _ _ _ _ Ht) as Hs2.
  destruct (touched_keys w w2 B a s s2) as [HI2 Hp2]; [done..|by apply prep_same_key, prepared_er|done|].
  wstep. wstep. rewrite Hb. cbn [put_info]. do 8 wstep.
  eapply (submit_claimed w _ B a s s2 b); try done.
  - by apply (keys_inv_ext w2).
  - etrans; [by eapply touched_frame|apply sub_frame_info].
Qed.

(** Registration 1 of a socket whose base handle is 100, in group 8; the kernel
    keeps the request. *)
Definition submit_world : world :=
  no_keys_world
    <| w_socks := {[ 1%positive := zero_sock <| s_port := Some 9%positive |>
                       <| s_afd_group := Some 8%positive |> <| s_afd_info := Some 7%positive |> ]} |>
    <| w_groups := {[ 8%positive := zero_group <| g_afd := 77 |> ]} |>
    <| w_os := fun tr r => match r with
                          | DuplicatedHandle => 1000 + Z.of_nat (length tr)
                          | GetLastError => ERROR_ACCESS_DENIED
                          | WSAIoctlResult => 100
                          | WSAIoctlBytes => 8
                          | NtDeviceIoControlFile _ _ _ _ => STATUS_PENDING
                          | _ => 0
                          end |>.

Lemma poll_submit_exact_witness :
  exists w', ep_afd_poll_submit (Some 1%positive) 1 submit_world = Some ((0, true), w') /\
    exists t, (forall x, poll_keys submit_world !! x <> Some t) /\
      poll_keys w' = <[1%positive := t]> (poll_keys submit_world).
Proof.
  destruct (poll_submit_exact submit_world (fun _ => []) 1%positive
    (zero_sock <| s_port := Some 9%positive |> <| s_afd_group := Some 8%positive |>
       <| s_afd_info := Some 7%positive |>) 1)
    as (r & w' & Hrun & s2 & s' & t & _ & _ & _ & _ & _ & Hfree & Hout).
  - apply keys_inv_empty; [reflexivity|].
    intros a s Ha. cbn [submit_world w_socks] in Ha.
    change (({[ 1%positive := zero_sock <| s_port := Some 9%positive |> <| s_afd_group := Some 8%positive |>
               <| s_afd_info := Some 7%positive |> ]} : gmap addr ep_sock) !! a = Some s) in Ha.
    by apply lookup_singleton_Some in Ha as [_ <-].
  - reflexivity.
  - reflexivity.
  - reflexivity.
  - intros g [= <-]. by eexists.
  - by apply counting_laws.
  - assert (r = (0, true)) as ->.
    { revert Hrun. vm_compute. congruence. }
    exists w'. split; [exact Hrun|]. exists t. split; [by apply Hfree|].
    destruct Hout as [(_ & _ & _ & _ & _ & _ & _ & Hp & _)|[(E & _)|(E & _)]]; [exact Hp|discriminate|discriminate].
Defined.

#[export] Instance afd_open_quiet iocp : QuietAction (ep_afd_open iocp).
Proof. unfold ep_afd_open. quieted. Qed.

(** Cancellation never loses a request: it asks the kernel only when the
    request is really in flight, marks the registration cancelled exactly when
    the kernel accepted the cancellation, treats a request that has already
    completed as success, and on failure leaves the registration pending, so its
    completion is still accounted for. *)
Theorem afd_cancel_exact w a s :
  fault_free w -> w_socks w !! a = Some s ->
  s_port s <> NULL -> (exists g gr, s_afd_group s = Some g /\ w_groups w !! g = Some gr /\ g_afd gr <> 0) ->
  w_ntdll_initialized w = true ->
  wp (ep_afd_cancel (Some a))
    (fun r w' =>
       let asked := bool_decide (s_poll_status s = EP_POLL_PENDING) && (s_iosb_status s =? STATUS_PENDING) in
       let status := i32 (w_os w (w_trace w) (NtCancelIoFileEx
         (default 0 (s_afd_group s ≫= fun g => g_afd <$> w_groups w !! g)) a)) in
       touched a (if asked && (status =? STATUS_SUCCESS) then s <| s_poll_status := EP_POLL_CANCELLED |> else s) w w' /\
       r = (if negb asked || (status =? STATUS_SUCCESS) || (status =? STATUS_NOT_FOUND) then 0 else -1)) w.
Proof.
  intros Hf Ha Hport (g & gr & Hg & Hgr & Hafd) Hnt. unfold ep_afd_cancel. apply wp_bind.
  eapply (wp_run _ (g_afd gr) _ w).
  { unfold submit_handle. do 2 mstep. destruct (s_port s); [|done]. rewrite Hg. repeat mstep. by rewrite Hnt. }
  assert (g_afd gr =? 0 = false) as -> by lia. wsteps. rewrite Hg. cbn [mbind option_bind]. rewrite Hgr.
  cbn [fmap option_fmap option_map default].
  destruct (bool_decide_reflect (s_poll_status s = EP_POLL_PENDING)); cbn [negb orb andb];
    [|apply wp_ret; split; [by apply touched_quiet|done]].
  destruct (s_iosb_status s =? STATUS_PENDING); cbn [negb orb andb];
    [|apply wp_ret; split; [by apply touched_quiet|done]].
  apply wp_bind. eapply wp_run; [by apply fault_hit_free|]. cbn [negb Z.eqb]. cbv zeta. wsteps.
  set (status := i32 _). set (w1 := set w_trace _ w).
  assert (Hq1 : quiet w w1) by (unfold w1; auto with quiet).
  destruct (status =? STATUS_SUCCESS); cbn [orb]; wsteps.
  { split; [|done]. by apply touched_wr. }
  destruct (status =? STATUS_NOT_FOUND); wsteps.
  { split; [by apply touched_quiet|done]. }
  eapply wp_mono; [apply set_ntstatus_error_quiet|]. intros u w2 Hq2. apply wp_ret.
  split; [|done]. apply touched_quiet; [done|by etrans].
Qed.

Lemma afd_cancel_exact_witness :
  exists w', ep_afd_cancel (Some 1%positive) submit_world = Some (0, w') /\ w_socks w' = w_socks submit_world.
Proof.
  destruct (afd_cancel_exact submit_world 1%positive
    (zero_sock <| s_port := Some 9%positive |> <| s_afd_group := Some 8%positive |>
       <| s_afd_info := Some 7%positive |>))
    as (r & w' & Hrun & Ht & Hr); [reflexivity|reflexivity|discriminate| |reflexivity|].
  - exists 8%positive, (zero_group <| g_afd := 77 |>). split; [reflexivity|]. split; [reflexivity|discriminate].
  - exists w'. split; [rewrite Hrun; f_equal; f_equal; exact Hr|].
    rewrite (quiet_socks _ _ Ht). reflexivity.
Defined.
