(* ===== verification/Groups.v ===== *)
(** * AFD groups

    [src/wepoll_ex_port.c], 2918-3011.  The registrations of a port are spread
    over AFD control handles, at most 128 per handle.  A port threads its groups
    on one list that starts at the group embedded in the port, and those with
    room on a second list.  The functions run under the port's
    [fd_table_lock]. *)
From S2P Require Import Prelude Codes Types Errno Fault Links Quiet AfdOps.

Definition WEPOLL_AFD_GROUP_SIZE : Z := 128.

Definition ep_afd_group_remove_available_locked (port group : ptr) : MW unit :=
  available_prev <- rd w_groups group g_available_prev ;;
  available_next <- rd w_groups group g_available_next ;;
  (match available_prev with
   | Some _ => wr w_groups available_prev g_available_next available_next
   | None => wr w_ports port p_afd_available available_next
   end) ;;
  (match available_next with
   | Some _ => wr w_groups available_next g_available_prev available_prev
   | None => ret tt
   end) ;;
  wr w_groups group g_available_next NULL ;;
  wr w_groups group g_available_prev NULL.

Definition ep_afd_group_add_available_locked (port group : ptr) : MW unit :=
  available <- rd w_ports port p_afd_available ;;
  wr w_groups group g_available_next available ;;
  wr w_groups group g_available_prev NULL ;;
  (match available with
   | Some _ => wr w_groups available g_available_prev group
   | None => ret tt
   end) ;;
  wr w_ports port p_afd_available group.

(** A new group behind the port's first one, with room: NULL on failure. *)
Definition group_create (port : ptr) : MW ptr :=
  fault <- ep_fault_hit EP_FAULT_AFD_GROUP_ALLOC ;;
  if negb (fault =? 0) then ret NULL
  else
    group <- alloc w_groups 48 zero_group ;;
    match group with
    | None => ep_set_errno ENOMEM ;; ret NULL
    | Some _ =>
      iocp <- rd w_ports port p_iocp ;;
      r <- ep_afd_open iocp ;;
      let '(failed, afd) := r in
      if negb (failed =? 0) then del w_groups group ;; ret NULL
      else
        wr w_groups group g_afd afd ;;
        first <- rd w_ports port p_afd_group ;;
        next <- rd w_groups first g_next ;;
        wr w_groups group g_next next ;;
        wr w_groups group g_prev first ;;
        (match next with
         | Some _ => wr w_groups next g_prev group
         | None => ret tt
         end) ;;
        wr w_groups first g_next group ;;
        ep_afd_group_add_available_locked port group ;;
        ret group
    end.

(** The registration joins a group with room, which leaves the second list when
    it is full. *)
Definition group_take (port sock group : ptr) : MW unit :=
  afd <- rd w_groups group g_afd ;;
  assertM (negb (afd =? 0)) ;;
  count <- rd w_groups group g_socket_count ;;
  assertM (count <? WEPOLL_AFD_GROUP_SIZE) ;;
  wr w_groups group g_socket_count (count + 1) ;;
  (if count + 1 =? WEPOLL_AFD_GROUP_SIZE
   then ep_afd_group_remove_available_locked port group else ret tt) ;;
  wr w_socks sock s_afd_group group.

Definition ep_sock_acquire_afd_group_locked (sock : ptr) : MW Z :=
  port <- rd w_socks sock s_port ;;
  afd_group <- rd w_socks sock s_afd_group ;;
  match afd_group with
  | Some _ => ret 0
  | None =>
    available <- rd w_ports port p_afd_available ;;
    group <- (match available with Some _ => ret available | None => group_create port end) ;;
    match group with
    | None => ret (-1)
    | Some _ => group_take port sock group ;; ret 0
    end
  end.

(** An empty group other than the embedded one is unlinked, closed and freed. *)
Definition group_destroy (port group : ptr) : MW unit :=
  ep_afd_group_remove_available_locked port group ;;
  prev <- rd w_groups group g_prev ;;
  next <- rd w_groups group g_next ;;
  wr w_groups prev g_next next ;;
  (match next with
   | Some _ => wr w_groups next g_prev prev
   | None => ret tt
   end) ;;
  afd <- rd w_groups group g_afd ;;
  (if negb (afd =? 0) then os (CloseHandle afd) ;; ret tt else ret tt) ;;
  del w_groups group.

Definition ep_sock_release_afd_group_locked (sock : ptr) : MW unit :=
  port <- rd w_socks sock s_port ;;
  group <- rd w_socks sock s_afd_group ;;
  match group with
  | None => ret tt
  | Some _ =>
    count <- rd w_groups group g_socket_count ;;
    assertM (0 <? count) ;;
    poll_status <- rd w_socks sock s_poll_status ;;
    assertM (bool_decide (poll_status = EP_POLL_IDLE)) ;;
    wr w_socks sock s_afd_group NULL ;;
    wr w_groups group g_socket_count (count - 1) ;;
    (if count =? WEPOLL_AFD_GROUP_SIZE
     then ep_afd_group_add_available_locked port group else ret tt) ;;
    first <- rd w_ports port p_afd_group ;;
    if (count - 1 =? 0) && negb (bool_decide (group = first))
    then group_destroy port group else ret tt
  end.

(** The loop over the port's groups; the fuel bounds the length of the list. *)
Fixpoint close_groups_loop (fuel : nat) (group : ptr) : MW unit :=
  match group, fuel with
  | None, _ => ret tt
  | Some _, O => stuck
  | Some _, S fuel =>
    afd <- rd w_groups group g_afd ;;
    (if negb (afd =? 0) then os (CloseHandle afd) ;; wr w_groups group g_afd 0 else ret tt) ;;
    next <- rd w_groups group g_next ;;
    close_groups_loop fuel next
  end.
Definition ep_port_close_afd_groups (port : ptr) : MW unit :=
  first <- rd w_ports port p_afd_group ;;
  fuel <- get (fun w => size (w_groups w)) ;;
  close_groups_loop fuel first.

(** ** Invariant and abstraction *)

#[export] Instance group_dll : DLL g_next g_prev.
Proof. by split. Qed.
#[export] Instance available_dll : DLL g_available_next g_available_prev.
Proof. by split. Qed.

(** The group of each registration, and how many registrations a group has. *)
Definition assigned (w : world) : gmap addr addr := omap s_afd_group (w_socks w).
Definition load (m : gmap addr addr) (g : addr) : nat := size (filter (fun kv => kv.2 = g) m).

(** [g0] is the embedded group, [G] the others, [A] the groups with room. *)
Record groups_core (H : gmap addr ep_afd_group) (m : gmap addr addr) (g0 : addr) (G A : list addr)
    : Prop := {
  gi_list : dlist g_next g_prev H (g0 :: G);
  gi_avail : dlist g_available_next g_available_prev H A;
  gi_group g : g ∈ g0 :: G -> exists gr, H !! g = Some gr /\
    g_socket_count gr = Z.of_nat (load m g) /\ (load m g <= 128)%nat /\ g_afd gr <> 0;
  gi_room g : g ∈ A <-> g ∈ g0 :: G /\ (load m g < 128)%nat;
  gi_live a g : m !! a = Some g -> is_Some (H !! g)
}.

(** The port's pointers agree with the two lists; only the embedded group may
    be empty; the port's registrations are in its groups. *)
Record port_groups (w : world) (port g0 : addr) (G A : list addr) : Prop := {
  pg_port : exists p, w_ports w !! port = Some p /\ p_afd_group p = Some g0 /\
    p_afd_available p = head A;
  pg_core : groups_core (w_groups w) (assigned w) g0 G A;
  pg_used g : g ∈ G -> (0 < load (assigned w) g)%nat;
  pg_owner a s g : w_socks w !! a = Some s -> s_port s = Some port -> s_afd_group s = Some g -> g ∈ g0 :: G
}.

Lemma load_insert m a g x :
  m !! a = None -> load (<[a := g]> m) x = if decide (g = x) then S (load m x) else load m x.
Proof.
  intros Ha. unfold load. case_decide as E.
  - rewrite map_filter_insert_True by done. rewrite map_size_insert_None; [done|].
    apply map_lookup_filter_None. by left.
  - rewrite map_filter_insert_False by done. by rewrite delete_id.
Qed.
Lemma load_delete m a g x :
  m !! a = Some g -> load (delete a m) x = if decide (g = x) then pred (load m x) else load m x.
Proof.
  intros Ha. set (m' := delete a m).
  replace (load m x) with (load (<[a := g]> m') x) by (unfold m'; by rewrite insert_delete_id).
  rewrite load_insert by apply lookup_delete_eq. by case_decide.
Qed.

Lemma load_pos m a g : m !! a = Some g -> (0 < load m g)%nat.
Proof.
  intros Ha. rewrite <- (insert_delete_id _ _ _ Ha), load_insert by apply lookup_delete_eq.
  case_decide; [lia|done].
Qed.

(** ** The list of groups with room *)

Definition av_er (g : ep_afd_group) : ep_afd_group :=
  g <| g_available_next := NULL |> <| g_available_prev := NULL |>.

Lemma remove_available_spec w port p g gr A1 A2 :
  w_ports w !! port = Some p -> p_afd_available p = head (A1 ++ g :: A2) ->
  dlist g_available_next g_available_prev (w_groups w) (A1 ++ g :: A2) -> w_groups w !! g = Some gr ->
  wp (ep_afd_group_remove_available_locked (Some port) (Some g))
    (fun _ w' => exists H, dlist g_available_next g_available_prev H (A1 ++ A2) /\
       av_er <$> H = av_er <$> w_groups w /\
       w' = w <| w_groups := H |> <| w_ports := <[port := p <| p_afd_available := head (A1 ++ A2) |>]> (w_ports w) |>) w.
Proof.
  intros Hp Hav Hl Hg. destruct (dlist_split _ _ _ _ _ Hl Hg) as (Hn & Hpv & Hg1 & Hg2).
  set (H := <[g := av_er gr]> (unlink_heap g_available_next g_available_prev (w_groups w) A1 A2)).
  assert (Hgu : unlink_heap g_available_next g_available_prev (w_groups w) A1 A2 !! g = Some gr).
  { unfold unlink_heap. rewrite !upd_lookup, !decide_False; [done|..].
    - by intros ?%last_Some_elem_of.
    - by intros ?%head_Some_elem_of. }
  assert (Hin : forall x, x ∈ A1 ++ A2 -> is_Some (w_groups w !! x)).
  { intros x Hx. apply (dlist_in_heap _ _ x Hl). set_solver. }
  apply (wp_run _ tt w (w <| w_groups := H |>
    <| w_ports := <[port := p <| p_afd_available := head (A1 ++ A2) |>]> (w_ports w) |>)).
  - unfold ep_afd_group_remove_available_locked. repeat mstep. rewrite Hn, Hpv.
    rewrite (bind_some _ _ w tt (w <| w_groups := upd (w_groups w) (last A1) (set g_available_next (fun _ => head A2)) |>
      <| w_ports := <[port := p <| p_afd_available := head (A1 ++ A2) |>]> (w_ports w) |>)).
    2:{ destruct (last A1) as [q|] eqn:El.
        - assert (p <| p_afd_available := head (A1 ++ A2) |> = p) as ->.
          { assert (head (A1 ++ A2) = p_afd_available p) as -> by (rewrite Hav; by destruct A1). by destruct p. }
          rewrite insert_id, wr_upd; [by destruct w|apply Hin|done].
          apply elem_of_app. left. by apply last_Some_elem_of.
        - apply last_None in El as ->. rewrite (wr_some _ _ p) by done. by destruct w. }
    erewrite bind_some by (apply wr_opt; [|by destruct w]; intros x Hx; sget;
      apply upd_is_Some, Hin, elem_of_app; right; by apply head_Some_elem_of).
    sget. fold (unlink_heap g_available_next g_available_prev (w_groups w) A1 A2).
    repeat mstep. erewrite wr_some by mlookup. sget. rewrite insert_insert_eq. by destruct w.
  - exists H. split_and!; [| |done].
    + apply dlist_insert_ne; [set_solver|]. by apply (dlist_unlink _ _ g).
    + unfold H, unlink_heap. rewrite (fmap_insert_same av_er _ _ gr); [|exact Hgu|done].
      by rewrite !fmap_upd_same.
Qed.

Lemma add_available_spec w port p g gr A :
  w_ports w !! port = Some p -> p_afd_available p = head A ->
  dlist g_available_next g_available_prev (w_groups w) A -> w_groups w !! g = Some gr -> g ∉ A ->
  wp (ep_afd_group_add_available_locked (Some port) (Some g))
    (fun _ w' => exists H, dlist g_available_next g_available_prev H (g :: A) /\
       av_er <$> H = av_er <$> w_groups w /\
       w' = w <| w_groups := H |> <| w_ports := <[port := p <| p_afd_available := Some g |>]> (w_ports w) |>) w.
Proof.
  intros Hp Hav Hl Hg HgA.
  set (gr' := gr <| g_available_next := head A |> <| g_available_prev := NULL |>).
  set (H := push_heap g_available_prev (w_groups w) g gr' A).
  apply (wp_run _ tt w (w <| w_groups := H |>
    <| w_ports := <[port := p <| p_afd_available := Some g |>]> (w_ports w) |>)).
  - unfold ep_afd_group_add_available_locked. repeat mstep. rewrite Hav. sget. rewrite insert_insert_eq.
    erewrite bind_some by (apply wr_opt; [|by destruct w]; intros x Hx; sget;
      destruct (dlist_in_heap _ _ x Hl (head_Some_elem_of _ _ Hx)) as [gx Hgx];
      rewrite lookup_insert_ne by (intros ->; by apply HgA, head_Some_elem_of); by eexists).
    sget. erewrite wr_some by (sget; exact Hp). sget. by destruct w.
  - exists H. split_and!; [by apply dlist_push| |done]. unfold H, push_heap.
    rewrite fmap_upd_same by done. by apply (fmap_insert_same av_er _ _ gr).
Qed.

(** ** Membership *)

(** Heaps that differ in the count of one group and the links of the second
    list. *)
Definition recounted (H H' : gmap addr ep_afd_group) (g : addr) (n : Z) : Prop :=
  exists gr, H !! g = Some gr /\ av_er <$> H' = av_er <$> <[g := gr <| g_socket_count := n |>]> H.

Lemma recounted_lookup H H' g n x gr :
  recounted H H' g n -> H !! x = Some gr -> exists gr', H' !! x = Some gr' /\ g_afd gr' = g_afd gr /\
    g_socket_count gr' = if decide (x = g) then n else g_socket_count gr.
Proof.
  intros (gg & Hg & E) Hx. apply (f_equal (fun h => h !! x)) in E. rewrite !lookup_fmap in E.
  destruct (decide (x = g)) as [->|Hne].
  - assert (gg = gr) as -> by congruence. rewrite lookup_insert_eq in E. destruct (H' !! g) as [gr'|]; [|done]. exists gr'.
    change (Some (av_er gr') = Some (av_er (gr <| g_socket_count := n |>))) in E. apply (inj Some) in E.
    split_and!; [done|by apply (f_equal g_afd) in E|by apply (f_equal g_socket_count) in E].
  - rewrite lookup_insert_ne, Hx in E by done. destruct (H' !! x) as [gr'|]; [|done]. exists gr'.
    change (Some (av_er gr') = Some (av_er gr)) in E. apply (inj Some) in E.
    split_and!; [done|by apply (f_equal g_afd) in E|by apply (f_equal g_socket_count) in E].
Qed.

Lemma recounted_core H H' m m' g0 G A A' g n :
  groups_core H m g0 G A -> recounted H H' g n -> n = Z.of_nat (load m' g) -> (load m' g <= 128)%nat ->
  (forall x, x <> g -> load m' x = load m x) -> (forall x y, m' !! x = Some y -> y = g \/ m !! x = Some y) ->
  dlist g_available_next g_available_prev H' A' ->
  (forall x, x ∈ A' <-> x ∈ g0 :: G /\ (load m' x < 128)%nat) ->
  groups_core H' m' g0 G A'.
Proof.
  intros [Hl Ha Hg Hr Hv] Hrec -> Hle Hload Hm' Ha' HA'. split; try done.
  - pose proof Hrec as (gr & Hgr & E). eapply (dlist_forget av_er); [exact E|done|done|].
    by eapply dlist_insert_same.
  - intros x Hx. destruct (Hg x Hx) as (grx & Hgx & Hc & Hlx & Hafd).
    destruct (recounted_lookup _ _ _ _ _ _ Hrec Hgx) as (gr' & Hx' & Eafd & Ec). exists gr'.
    split_and!; [done| | |congruence].
    + rewrite Ec. case_decide as E; [by rewrite E|]. by rewrite Hload.
    + destruct (decide (x = g)) as [->|]; [done|by rewrite Hload].
  - intros x y Hxy. destruct (Hm' x y Hxy) as [->|Hy].
    + destruct Hrec as (gr & Hgr & E). edestruct recounted_lookup as (gr' & -> & _);
        [by exists gr|exact Hgr|by eexists].
    + destruct (Hv x y Hy) as [gry Hgy].
      destruct (recounted_lookup _ _ _ _ _ _ Hrec Hgy) as (gr' & -> & _). by eexists.
Qed.

Lemma assigned_free w a s : w_socks w !! a = Some s -> s_afd_group s = NULL -> assigned w !! a = None.
Proof. intros Ha Hg. unfold assigned. rewrite lookup_omap, Ha. exact Hg. Qed.

Lemma port_same p A : p_afd_available p = head A -> p <| p_afd_available := head A |> = p.
Proof. intros <-. by destruct p. Qed.

Lemma group_take_spec w port p g0 G A g a s :
  w_ports w !! port = Some p -> p_afd_available p = head A ->
  groups_core (w_groups w) (assigned w) g0 G A -> g ∈ A ->
  w_socks w !! a = Some s -> s_afd_group s = NULL ->
  wp (group_take (Some port) (Some a) (Some g))
    (fun _ w' => exists H A', groups_core H (<[a := g]> (assigned w)) g0 G A' /\
       w' = w <| w_groups := H |> <| w_ports := <[port := p <| p_afd_available := head A' |>]> (w_ports w) |>
              <| w_socks := <[a := s <| s_afd_group := Some g |>]> (w_socks w) |>) w.
Proof.
  intros Hp Hav HC HgA Ha Hnone. pose proof (assigned_free w a s Ha Hnone) as Hfree.
  destruct (proj1 (gi_room _ _ _ _ _ HC g) HgA) as [HgG Hlt].
  destruct (gi_group _ _ _ _ _ HC g HgG) as (gr & Hgr & Hc & Hle & Hafd).
  set (m' := <[a := g]> (assigned w)). set (H1 := <[g := gr <| g_socket_count := g_socket_count gr + 1 |>]> (w_groups w)).
  assert (Hl1 : load m' g = S (load (assigned w) g)) by (unfold m'; rewrite load_insert by done; by case_decide).
  assert (Hlx : forall x, x <> g -> load m' x = load (assigned w) x)
    by (intros x Hx; unfold m'; rewrite load_insert by done; by case_decide).
  assert (Hm' : forall x y, m' !! x = Some y -> y = g \/ assigned w !! x = Some y).
  { intros x y [[_ <-]|[_ ?]]%lookup_insert_Some; auto. }
  assert (Hrec : forall H', av_er <$> H' = av_er <$> H1 -> recounted (w_groups w) H' g (g_socket_count gr + 1))
    by (intros H' E; by exists gr).
  assert (Hav1 : dlist g_available_next g_available_prev H1 A)
    by (eapply dlist_insert_same; [exact Hgr|done|done|apply HC]).
  assert (Hcore : forall H' A', av_er <$> H' = av_er <$> H1 -> dlist g_available_next g_available_prev H' A' ->
    (forall x, x ∈ A' <-> x ∈ A /\ (x = g -> (S (load (assigned w) g) < 128)%nat)) ->
    groups_core H' m' g0 G A').
  { intros H' A' E HA' HAx. eapply recounted_core; [exact HC|by apply Hrec|lia|lia|done|done|done|].
    intros x. rewrite HAx, (gi_room _ _ _ _ _ HC x).
    destruct (decide (x = g)) as [->|Hne]; [rewrite Hl1|rewrite Hlx by done]; naive_solver lia. }
  unfold group_take. wsteps. apply wp_assert; [by apply negb_true_iff, Z.eqb_neq|]. wsteps.
  apply wp_assert; [unfold WEPOLL_AFD_GROUP_SIZE; lia|]. wsteps. change (<[g := _]> (w_groups w)) with H1.
  destruct (Z.eqb_spec (g_socket_count gr + 1) WEPOLL_AFD_GROUP_SIZE) as [Efull|Hroom];
    unfold WEPOLL_AFD_GROUP_SIZE in *.
  - apply list_elem_of_split in HgA as (A1 & A2 & ->).
    destruct (linked_middle A1 g A2 Hav1) as (_ & _ & Hg1 & Hg2).
    eapply wp_mono; [by eapply (remove_available_spec _ port p g _ A1 A2); [| |exact Hav1|apply lookup_insert_eq]|].
    intros _ w' (H' & HA' & E & ->). wsteps. exists H', (A1 ++ A2). split.
    + apply Hcore; [exact E|done|]. intros x. rewrite !elem_of_app, elem_of_cons. split.
      * intros Hx. split; [tauto|]. intros ->. tauto.
      * intros [[?|[->|?]] Hx]; [tauto|by specialize (Hx eq_refl); lia|tauto].
    + by destruct w.
  - wsteps. exists H1, A. split.
    + apply Hcore; [done|done|]. intros x. split; [|tauto]. intros Hx. split; [done|]. lia.
    + rewrite (port_same p A Hav), (insert_id (w_ports w) port p) by done. by destruct w.
Qed.

(** ** A new group *)

Lemma fresh_load w g : (forall a x, assigned w !! a = Some x -> is_Some (w_groups w !! x)) ->
  w_groups w !! g = None -> load (assigned w) g = 0%nat.
Proof.
  intros Hlive Hg. unfold load. apply map_size_empty_iff, map_empty. intros a.
  apply map_lookup_filter_None. right. intros x Hx. simpl. intros ->.
  destruct (Hlive a g Hx). congruence.
Qed.

Lemma alloc_group w :
  wp (alloc w_groups 48 zero_group)
    (fun r w' => r = NULL /\ quiet w w' \/
       exists g w1, r = Some g /\ w_groups w !! g = None /\ quiet w w1 /\
         w' = w1 <| w_groups := <[g := zero_group]> (w_groups w) |>) w.
Proof.
  destruct (alloc_cases w_groups 48 zero_group w) as (tr & [Hr|(g & Hg & Hr)]); [done|..].
  - eapply wp_run; [exact Hr|]. left. split; [done|apply quiet_trace].
  - eapply wp_run; [exact Hr|]. right. exists g, (w <| w_trace := tr |>).
    split_and!; [done|done|apply quiet_trace|done].
Qed.

(** A file that was opened successfully has a handle that is not NULL. *)
Definition files_have_handles (o : list os_request -> os_request -> Z) : Prop :=
  forall tr, i32 (o (NtCreateFile :: tr) NtCreateFileStatus) = STATUS_SUCCESS -> o tr NtCreateFile <> 0.

(** The answers of [ep_afd_open]: a handle exactly on success. *)
Lemma afd_open_spec iocp w :
  files_have_handles (w_os w) ->
  wp (ep_afd_open iocp) (fun r w' => quiet w w' /\ (r = (-1, 0) \/ exists h, r = (0, h) /\ h <> 0)) w.
Proof.
  intros Hnz. unfold ep_afd_open. wsteps. wif.
  { apply wp_bind. eapply wp_mono; [apply set_errno_quiet|]. intros _ w1 [Hq _]. apply wp_ret. auto. }
  apply wp_bind. eapply wp_mono; [apply fault_hit_quiet|]. intros f w1 [Hq1 _]. wif; [apply wp_ret; auto|].
  wsteps. set (w2 := set w_trace _ _). assert (Hq2 : quiet w w2) by (unfold w2; auto with quiet).
  pose proof (Hnz (w_trace w1)) as Hh. rewrite <- (quiet_os _ _ Hq1) in Hh.
  wif.
  { apply wp_bind. eapply wp_mono; [apply set_ntstatus_error_quiet|]. intros u w3 Hq3. apply wp_ret.
    split; [by etrans|by left]. }
  assert (Hclose : forall w3 e h, quiet w w3 ->
    wp (ep_set_win32_error e) (fun _ => wp (os (CloseHandle h) ;; ret (-1, 0))
      (fun r w' => quiet w w' /\ (r = (-1, 0) \/ exists h, r = (0, h) /\ h <> 0))) w3).
  { intros w3 e h Hq3. eapply wp_mono; [apply set_win32_error_quiet|].
    intros _ w4 [Hq4 _]. wsteps. split; [|by left]. apply quiet_call. by etrans. }
  wsteps. wif; [wsteps; apply Hclose; auto with quiet|]. wsteps. wif; [wsteps; apply Hclose; auto with quiet|].
  apply wp_ret. split; [auto with quiet|]. right. eexists. split; [reflexivity|]. apply Hh, Z.eqb_eq. by apply negb_false_iff.
Qed.

Lemma quiet_groups_out w H w' :
  quiet (w <| w_groups := H |>) w' -> exists w1, quiet w w1 /\ w' = w1 <| w_groups := H |>.
Proof.
  intros (e & i & sl & tr & ->).
  exists (w <| w_errno := e |> <| w_last_error := i |> <| w_fault_slots := sl |> <| w_trace := tr |>).
  split; [by exists e, i, sl, tr|by destruct w].
Qed.

(** What the list of groups keeps of a group. *)
Definition same_group (r r' : ep_afd_group) : Prop :=
  g_afd r' = g_afd r /\ g_socket_count r' = g_socket_count r.
Lemma av_same (H H' : gmap addr ep_afd_group) x r :
  av_er <$> H' = av_er <$> H -> H !! x = Some r -> exists r', H' !! x = Some r' /\ same_group r r'.
Proof.
  intros E Hx. destruct (fmap_same_lookup av_er H H' x r E Hx) as (r' & Hr' & Er). exists r'.
  unfold same_group. split_and!; [done|by apply (f_equal g_afd) in Er|by apply (f_equal g_socket_count) in Er].
Qed.

Section Create.
Context (H0 : gmap addr ep_afd_group) (m : gmap addr addr) (g0 g : addr) (G : list addr) (h : Z)
  (gr0 : ep_afd_group).
Context (HC : groups_core H0 m g0 G []) (Hg : H0 !! g = None) (Hg0 : H0 !! g0 = Some gr0).

Definition new_group : ep_afd_group :=
  zero_group <| g_afd := h |> <| g_next := head G |> <| g_prev := Some g0 |>.
(** The heap with the new group linked. *)
Definition grown : gmap addr ep_afd_group :=
  <[g0 := gr0 <| g_next := Some g |>]>
    (upd (<[g := new_group]> H0) (head G) (set g_prev (fun _ => Some g))).

Lemma grown_fresh : g ∉ g0 :: G.
Proof. intros Hin. destruct (gi_group _ _ _ _ _ HC g Hin) as (? & ? & _). congruence. Qed.
Lemma grown_first : g0 ∉ G.
Proof. by pose proof (dlist_nodup _ _ (gi_list _ _ _ _ _ HC)) as [? _]%NoDup_cons. Qed.
Lemma grown_new : grown !! g = Some new_group.
Proof.
  pose proof grown_fresh. unfold grown. rewrite lookup_insert_ne by set_solver.
  rewrite upd_lookup, decide_False, lookup_insert_eq; [done|]. intros ?%head_Some_elem_of. set_solver.
Qed.
Lemma grown_old x r : x <> g -> H0 !! x = Some r -> exists r', grown !! x = Some r' /\ same_group r r'.
Proof.
  intros Hx Hr. unfold grown. destruct (decide (x = g0)) as [->|Hne].
  - rewrite lookup_insert_eq. eexists. split; [done|]. by simplify_eq.
  - rewrite lookup_insert_ne, upd_lookup, lookup_insert_ne, Hr by done.
    case_decide; (eexists; split; [reflexivity|done]).
Qed.
Lemma grown_list : dlist g_next g_prev grown (g0 :: g :: G).
Proof.
  pose proof grown_fresh as Hf. pose proof grown_first as H1. assert (g0 <> g) by set_solver.
  assert (Hh : head G <> Some g0) by (intros ?%head_Some_elem_of; done).
  assert (Hhg : head G <> Some g) by (intros ?%head_Some_elem_of; set_solver).
  unfold dlist. eapply linked_insert_second; [apply (gi_list _ _ _ _ _ HC)|done|..].
  - unfold grown. by rewrite link_insert_eq.
  - unfold grown. rewrite link_insert_eq. unfold link. by rewrite Hg0.
  - unfold link. by rewrite grown_new.
  - unfold link. by rewrite grown_new.
  - intros x Hx. assert (x <> g0) by (by intros ->). assert (x <> g) by set_solver. unfold grown.
    rewrite !link_insert_ne, link_upd_nx_pv, link_upd_pv_pv, !link_insert_ne, lookup_insert_ne by done.
    split; [done|]. destruct (gi_group _ _ _ _ _ HC x) as (rx & Hrx & _); [by right|].
    rewrite Hrx. simpl. repeat case_decide; congruence.
Qed.

Lemma grown_core H : h <> 0 -> (forall x y, m !! x = Some y -> is_Some (H0 !! y)) -> load m g = 0%nat ->
  av_er <$> H = av_er <$> grown -> dlist g_available_next g_available_prev H [g] ->
  groups_core H m g0 (g :: G) [g].
Proof.
  intros Hh Hlive Hload E HA. pose proof grown_fresh as Hf. split.
  - eapply (dlist_forget av_er); [exact E|done|done|apply grown_list].
  - done.
  - intros x Hx. destruct (decide (x = g)) as [->|Hne].
    + destruct (av_same _ _ _ _ E grown_new) as (r' & Hr' & Eafd & Ec). exists r'.
      rewrite Hload, Eafd, Ec. split_and!; [done|done|lia|done].
    + destruct (gi_group _ _ _ _ _ HC x) as (r & Hr & Hc & Hle & Hafd); [set_solver|].
      destruct (grown_old x r Hne Hr) as (r1 & Hr1 & Ea1 & Ec1).
      destruct (av_same _ _ _ _ E Hr1) as (r2 & Hr2 & Ea2 & Ec2). exists r2. split_and!; congruence.
  - intros x. rewrite list_elem_of_singleton. split.
    + intros ->. split; [right; left|lia].
    + intros [Hx Hlt]. destruct (decide (x = g)) as [->|Hne]; [done|].
      assert (Hin : x ∈ []) by (apply (gi_room _ _ _ _ _ HC x); split; [set_solver|done]).
      by apply elem_of_nil in Hin.
  - intros x y Hxy. destruct (Hlive x y Hxy) as [r Hr]. assert (y <> g) by congruence.
    destruct (grown_old y r) as (r1 & Hr1 & _); [done|done|].
    destruct (av_same _ _ _ _ E Hr1) as (r2 & Hr2 & _). by eexists.
Qed.
End Create.

(** A new group is linked behind the embedded one and is the only one with
    room; on failure nothing but the error channel changes. *)
Lemma group_create_spec w port p g0 G :
  w_ports w !! port = Some p -> p_afd_group p = Some g0 -> p_afd_available p = NULL ->
  groups_core (w_groups w) (assigned w) g0 G [] -> files_have_handles (w_os w) ->
  wp (group_create (Some port))
    (fun r w' => (r = NULL /\ quiet w w') \/
       exists g H w1, r = Some g /\ w_groups w !! g = None /\ quiet w w1 /\
         groups_core H (assigned w) g0 (g :: G) [g] /\
         w' = w1 <| w_groups := H |> <| w_ports := <[port := p <| p_afd_available := Some g |>]> (w_ports w) |>) w.
Proof.
  intros Hp Hg0 Hav HC Hnz. unfold group_create. apply wp_bind. eapply wp_mono; [apply fault_hit_quiet|].
  intros f w1 [Hq1 _]. wif; [apply wp_ret; by left|]. apply wp_bind. eapply wp_mono; [apply alloc_group|].
  intros r w2 [[-> Hq2]|(g & w3 & -> & Hg & Hq3 & ->)].
  { apply wp_bind. eapply wp_mono; [apply set_errno_quiet|]. intros _ w3 [Hq3 _]. apply wp_ret. left.
    split; [done|]. by do 2 (etrans; [eassumption|]). }
  pose proof (quiet_ports _ _ Hq1) as Hp1. pose proof (quiet_ports _ _ Hq3) as Hp3.
  rewrite (quiet_groups _ _ Hq1) in *. assert (Hq03 : quiet w w3) by (by etrans).
  assert (Hpp : w_ports w3 !! port = Some p) by (by rewrite Hp3, Hp1).
  wsteps. set (wa := set w_groups _ w3). eapply wp_mono; [apply afd_open_spec|].
  { unfold wa. sget. by rewrite (quiet_os _ _ Hq03). }
  intros r w4 [Hq4 Hr]. apply quiet_groups_out in Hq4 as (w5 & Hq5 & ->).
  assert (Hq05 : quiet w w5) by (by etrans).
  assert (Hp5 : w_ports w5 !! port = Some p) by (by rewrite (quiet_ports _ _ Hq05)).
  destruct Hr as [->|(h & -> & Hh)]; cbn [negb Z.eqb].
  - apply wp_bind. eapply wp_run; [eapply del_some; sget; apply lookup_insert_eq|]. apply wp_ret. left.
    split; [done|]. sget. rewrite delete_insert_id by done.
    assert (w5 <| w_groups := <[g := zero_group]> (w_groups w) |> <| w_groups := w_groups w |> = w5) as ->.
    { rewrite <- (quiet_groups _ _ Hq05). by destruct w5. }
    done.
  - destruct (gi_group _ _ _ _ _ HC g0) as (gr0 & Hgr0 & _); [by left|].
    pose proof (grown_fresh (w_groups w) (assigned w) g0 g G HC Hg) as Hf.
    pose proof (grown_first (w_groups w) (assigned w) g0 G HC) as H1.
    assert (Hne : g0 <> g) by set_solver.
    destruct (dlist_split (w_groups w) [] g0 G gr0 (gi_list _ _ _ _ _ HC) Hgr0) as (Hnx & _).
    wstep. wstep. wstep. wstep. rewrite Hg0. wstep. wstep. rewrite Hnx. wsteps.
    eapply wp_run.
    { apply wr_opt; [|by destruct w5]. intros x Hx. sget.
      destruct (gi_group _ _ _ _ _ HC x) as (rx & Hrx & _); [right; by apply head_Some_elem_of|].
      rewrite lookup_insert_ne; [by eexists|]. intros ->. apply Hf. right. by apply head_Some_elem_of. }
    sget. wstep. eapply wp_wr.
    { sget. rewrite upd_lookup, decide_False, lookup_insert_ne; [exact Hgr0|done|].
      intros ?%head_Some_elem_of. done. }
    sget. fold (new_group g0 G h). fold (grown (w_groups w) g0 g G h gr0). wstep.
    eapply wp_mono.
    { eapply (add_available_spec _ port p g (new_group g0 G h) []); sget; [exact Hp5|done|apply linked_nil| |set_solver].
      by apply (grown_new (w_groups w) (assigned w)). }
    intros _ w6 (H & HA & E & ->). apply wp_ret. right. exists g, H, w5. split_and!; [done|done|done| |].
    + apply (grown_core (w_groups w) (assigned w) g0 g G h gr0); try done; [apply HC|].
      apply fresh_load; [apply HC|done].
    + sget. rewrite (quiet_ports _ _ Hq05). by destruct w5.
Qed.

(** ** Acquiring a group *)

(** The state after [a] joined [g]. *)
Lemma joined_groups w w' port p g0 G G' A' a s g :
  (exists A, port_groups w port g0 G A) -> w_socks w !! a = Some s -> s_afd_group s = NULL ->
  w_socks w' = <[a := s <| s_afd_group := Some g |>]> (w_socks w) ->
  w_ports w' !! port = Some p -> p_afd_group p = Some g0 -> p_afd_available p = head A' ->
  (G' = G \/ G' = g :: G) -> groups_core (w_groups w') (<[a := g]> (assigned w)) g0 G' A' -> g ∈ g0 :: G' ->
  port_groups w' port g0 G' A' /\ assigned w' = <[a := g]> (assigned w).
Proof.
  intros [A HP] Ha Hn Hs Hp Hg0 Hav HG HC Hg. pose proof (assigned_free w a s Ha Hn) as Hfree.
  assert (Has : assigned w' = <[a := g]> (assigned w))
    by (unfold assigned; rewrite Hs; by rewrite (omap_insert_Some _ _ _ _ g)).
  split; [|done]. split; rewrite ?Has.
  - by exists p.
  - done.
  - intros x Hx. rewrite load_insert by done. case_decide as E; [lia|].
    apply (pg_used _ _ _ _ _ HP). destruct HG as [-> | ->]; [done|]. set_solver.
  - intros b sb x. rewrite Hs. intros [[_ <-]|[Hne Hb]]%lookup_insert_Some Hport Hx.
    + change (Some g = Some x) in Hx. by simplify_eq.
    + pose proof (pg_owner _ _ _ _ _ HP b sb x Hb Hport Hx). destruct HG as [-> | ->]; [done|set_solver].
Qed.

(** C39: acquiring a group has exactly four outcomes.  A registration that is in a
    group stays there and nothing changes.  When a group has room, the registration
    joins the first such group: no call into the platform is made, so no handle is
    opened, and the port has the same groups.  When every group is full, one new
    group is created, linked and joined; or that fails and the groups and members
    are as before.  In every case a group holds at most 128 members, the member
    counts and the list of groups with room stay exact.  A file opened successfully
    is assumed to have a handle that is not NULL. *)
Theorem group_acquire_exact w port g0 G A a s :
  port_groups w port g0 G A -> w_socks w !! a = Some s -> s_port s = Some port ->
  files_have_handles (w_os w) ->
  wp (ep_sock_acquire_afd_group_locked (Some a))
    (fun r w' =>
       (r = 0 /\ is_Some (s_afd_group s) /\ w' = w) \/
       (r = 0 /\ s_afd_group s = NULL /\ exists g A1 A', A = g :: A1 /\ (load (assigned w) g < 128)%nat /\
          assigned w' = <[a := g]> (assigned w) /\ port_groups w' port g0 G A' /\ w_trace w' = w_trace w) \/
       (r = 0 /\ s_afd_group s = NULL /\ A = [] /\ exists g A', w_groups w !! g = None /\
          assigned w' = <[a := g]> (assigned w) /\ port_groups w' port g0 (g :: G) A') \/
       (r = -1 /\ s_afd_group s = NULL /\ A = [] /\ quiet w w' /\ port_groups w' port g0 G [])) w.
Proof.
  intros HP Ha Hport Hnz. unfold ep_sock_acquire_afd_group_locked. wstep. wstep. rewrite Hport. wstep. wstep.
  destruct (s_afd_group s) as [g|] eqn:Eg.
  { apply wp_ret. left. split; [done|]. split; [by eexists|done]. }
  pose proof HP as [(p & Hp & Hg0 & Hav) HC _ _]. wsteps. rewrite Hav. destruct A as [|g A]; cbn [head].
  - eapply wp_mono; [by apply (group_create_spec w port p g0 G)|].
    intros r w1 [[-> Hq]|(g & H & w2 & -> & Hg & Hq & HC' & ->)].
    { apply wp_ret. do 3 right. do 4 (split; [done|]). destruct HP as [_ _ Hu Ho].
      split; unfold assigned in *; rewrite ?(quiet_socks _ _ Hq), ?(quiet_groups _ _ Hq), ?(quiet_ports _ _ Hq); try done.
      by exists p. }
    pose proof (quiet_socks _ _ Hq) as Hs2. apply wp_bind.
    set (p' := p <| p_afd_available := Some g |>).
    eapply wp_mono; [eapply (group_take_spec _ port p' g0 (g :: G) [g] g a s); sget; try done|].
    + apply lookup_insert_eq.
    + unfold assigned. sget. by rewrite Hs2.
    + by left.
    + by rewrite Hs2.
    + intros _ w3 (H' & A' & HC3 & ->). apply wp_ret.
      assert (Has : assigned (w2 <| w_groups := H |> <| w_ports := <[port := p']> (w_ports w) |>) = assigned w)
        by (unfold assigned; sget; by rewrite Hs2).
      rewrite Has in HC3. edestruct (joined_groups w) as [HP' Has']; cycle -1.
      * right; right; left. do 3 (split; [done|]). exists g, A'. split; [done|]. split; [exact Has'|exact HP'].
      * by exists [].
      * exact Ha.
      * exact Eg.
      * sget. by rewrite Hs2.
      * sget. apply lookup_insert_eq.
      * done.
      * done.
      * by right.
      * exact HC3.
      * right; left.
  - apply wp_ret, wp_bind.
    eapply wp_mono; [by eapply (group_take_spec w port p g0 G (g :: A) g a s); [..|left| |]|].
    intros _ w3 (H' & A' & HC3 & ->). apply wp_ret.
    destruct (proj1 (gi_room _ _ _ _ _ HC g)) as [HgG Hlt]; [by left|].
    edestruct (joined_groups w) as [HP' Has']; cycle -1.
    * right; left. do 2 (split; [done|]). exists g, A, A'. do 2 (split; [done|]). split; [exact Has'|]. split; [exact HP'|done].
    * by exists (g :: A).
    * exact Ha.
    * exact Eg.
    * reflexivity.
    * sget. apply lookup_insert_eq.
    * done.
    * done.
    * by left.
    * exact HC3.
    * exact HgG.
Qed.

(** ** Releasing a group *)

Definition nx_er (g : ep_afd_group) : ep_afd_group := g <| g_next := NULL |> <| g_prev := NULL |>.

Lemma unlink_same (H : gmap addr ep_afd_group) l1 l2 x r :
  H !! x = Some r -> exists r', unlink_heap g_next g_prev H l1 l2 !! x = Some r' /\ same_group r r'.
Proof.
  intros Hx. destruct (fmap_same_lookup nx_er H (unlink_heap g_next g_prev H l1 l2) x r) as (r' & Hr' & E);
    [|done|].
  - unfold unlink_heap. by rewrite !fmap_upd_same.
  - exists r'. split; [done|]. split; [by apply (f_equal g_afd) in E|by apply (f_equal g_socket_count) in E].
Qed.

(** The heap without the empty group [g]. *)
Lemma shrunk_core H H1 m g0 G1 G2 A1 A2 g :
  groups_core H m g0 (G1 ++ g :: G2) (A1 ++ g :: A2) -> load m g = 0%nat ->
  av_er <$> H1 = av_er <$> H -> dlist g_available_next g_available_prev H1 (A1 ++ A2) ->
  groups_core (delete g (unlink_heap g_next g_prev H1 (g0 :: G1) G2)) m g0 (G1 ++ G2) (A1 ++ A2).
Proof.
  intros HC Hz E HA. pose proof (dlist_nodup _ _ (gi_list _ _ _ _ _ HC)) as Hnd.
  pose proof (dlist_nodup _ _ (gi_avail _ _ _ _ _ HC)) as HndA.
  assert (HgG : g ∉ g0 :: G1 ++ G2).
  { change (g0 :: G1 ++ g :: G2) with ((g0 :: G1) ++ g :: G2) in Hnd.
    apply NoDup_app in Hnd as (_ & Hd & [Hn _]%NoDup_cons).
    intros Hin. change (g ∈ (g0 :: G1) ++ G2) in Hin. apply elem_of_app in Hin as [Hin|Hin]; [|done].
    apply (Hd g Hin). by left. }
  assert (HgA : g ∉ A1 ++ A2).
  { apply NoDup_app in HndA as (_ & Hd & [Hn _]%NoDup_cons). intros [Hin|Hin]%elem_of_app; [|done].
    apply (Hd g Hin). by left. }
  assert (Hold : forall x r, x <> g -> H !! x = Some r ->
    exists r', delete g (unlink_heap g_next g_prev H1 (g0 :: G1) G2) !! x = Some r' /\ same_group r r').
  { intros x r Hne Hr. destruct (av_same _ _ _ _ E Hr) as (r1 & Hr1 & Ea & Ec).
    destruct (unlink_same H1 (g0 :: G1) G2 x r1 Hr1) as (r2 & Hr2 & Ea2 & Ec2). exists r2.
    rewrite lookup_delete_ne by done. split; [done|]. split; congruence. }
  split.
  - eapply (dlist_ext (unlink_heap g_next g_prev H1 (g0 :: G1) G2)).
    { intros x Hx. rewrite !link_delete_ne by (intros ->; done). done. }
    apply (dlist_unlink H1 (g0 :: G1) g G2). eapply (dlist_forget av_er); [exact E|done|done|apply HC].
  - eapply (dlist_ext (unlink_heap g_next g_prev H1 (g0 :: G1) G2)).
    { intros x Hx. rewrite !link_delete_ne by (intros ->; done). done. }
    eapply (dlist_forget nx_er H1); [|done|done|exact HA]. unfold unlink_heap. by rewrite !fmap_upd_same.
  - intros x Hx. destruct (gi_group _ _ _ _ _ HC x) as (r & Hr & Hc & Hle & Hafd); [set_solver|].
    destruct (Hold x r) as (r' & Hr' & Ea & Ec); [by intros ->|done|]. exists r'. split_and!; congruence.
  - intros x. pose proof (gi_room _ _ _ _ _ HC x) as Hroom. split.
    + intros Hx. assert (x <> g) by (by intros ->). destruct (proj1 Hroom); [set_solver|].
      split; [set_solver|done].
    + intros [Hx Hlt]. assert (x <> g) by (by intros ->).
      assert (x ∈ A1 ++ g :: A2) by (apply Hroom; split; [set_solver|done]). set_solver.
  - intros x y Hxy. destruct (gi_live _ _ _ _ _ HC x y Hxy) as [r Hr].
    assert (y <> g).
    { intros ->. unfold load in Hz. apply map_size_empty_iff in Hz.
      apply (f_equal (fun k => k !! x)) in Hz. rewrite lookup_empty in Hz.
      apply map_lookup_filter_None in Hz as [Hz|Hz]; [congruence|by apply (Hz g)]. }
    destruct (Hold y r) as (r' & Hr' & _); [done|done|]. by eexists.
Qed.

Lemma group_destroy_spec w port p g0 G A g gr :
  w_ports w !! port = Some p -> p_afd_available p = head A ->
  groups_core (w_groups w) (assigned w) g0 G A -> g ∈ G -> load (assigned w) g = 0%nat ->
  w_groups w !! g = Some gr ->
  wp (group_destroy (Some port) (Some g))
    (fun _ w' => exists H G' A', groups_core H (assigned w) g0 G' A' /\ H !! g = None /\
       (forall x, x ∈ G' <-> x ∈ G /\ x <> g) /\
       w' = w <| w_groups := H |> <| w_ports := <[port := p <| p_afd_available := head A' |>]> (w_ports w) |>
              <| w_trace ::= cons (CloseHandle (g_afd gr)) |>) w.
Proof.
  intros Hp Hav HC HgG Hz Hgr. assert (HgA : g ∈ A) by (apply HC; split; [by right|lia]).
  destruct (gi_group _ _ _ _ _ HC g) as (gr' & Hgr' & _ & _ & Hafd); [by right|].
  assert (gr' = gr) as -> by congruence.
  apply list_elem_of_split in HgG as (G1 & G2 & ->). apply list_elem_of_split in HgA as (A1 & A2 & ->).
  unfold group_destroy. apply wp_bind.
  eapply wp_mono; [by eapply (remove_available_spec w port p g gr A1 A2); [..|apply HC|]|].
  intros _ w1 (H1 & HA & E & ->).
  assert (Hl1 : dlist g_next g_prev H1 ((g0 :: G1) ++ g :: G2))
    by (eapply (dlist_forget av_er); [exact E|done|done|apply HC]).
  destruct (av_same _ _ _ _ E Hgr) as (gr1 & Hgr1 & Eafd & _).
  destruct (dlist_split _ _ _ _ _ Hl1 Hgr1) as (Hnx & Hpv & Hg1 & Hg2).
  destruct (last (g0 :: G1)) as [q|] eqn:Eq; [|by apply last_None in Eq].
  assert (Hq : is_Some (H1 !! q)).
  { apply (dlist_in_heap _ _ q Hl1), elem_of_app. left. by apply last_Some_elem_of. }
  wstep. wstep. rewrite Hpv. wstep. wstep. rewrite Hnx. wstep.
  eapply wp_run; [apply wr_upd; sget; exact Hq|]. sget. wstep.
  eapply wp_run.
  { apply wr_opt; [|by destruct w]. intros x Hx. sget. apply upd_is_Some, (dlist_in_heap _ _ x Hl1), elem_of_app.
    right. right. by apply head_Some_elem_of. }
  sget. rewrite <- Eq. fold (unlink_heap g_next g_prev H1 (g0 :: G1) G2).
  set (H2 := unlink_heap g_next g_prev H1 (g0 :: G1) G2).
  destruct (unlink_same H1 (g0 :: G1) G2 g gr1 Hgr1) as (gr2 & Hgr2 & Eafd2 & _). fold H2 in Hgr2.
  wstep. wstep. rewrite Eafd2, Eafd. assert (g_afd gr =? 0 = false) as -> by lia. cbn [negb]. wsteps.
  eapply wp_run; [eapply del_some; sget; exact Hgr2|].
  exists (delete g H2), (G1 ++ G2), (A1 ++ A2). split_and!.
  - by apply (shrunk_core (w_groups w)).
  - apply lookup_delete_eq.
  - pose proof (dlist_nodup _ _ (gi_list _ _ _ _ _ HC)) as [_ Hnd]%NoDup_cons.
    apply NoDup_app in Hnd as (_ & Hd & [Hn _]%NoDup_cons).
    intros x. rewrite !elem_of_app, elem_of_cons. split; [|tauto].
    intros Hx. split; [tauto|]. intros ->. destruct Hx as [Hx|Hx]; [|done]. apply (Hd g Hx). by left.
  - by destruct w.
Qed.

(** The part of a release before the group may be destroyed. *)
Lemma release_recount w port p g0 G A a s g gr :
  w_ports w !! port = Some p -> p_afd_available p = head A ->
  groups_core (w_groups w) (assigned w) g0 G A -> g ∈ g0 :: G ->
  w_socks w !! a = Some s -> s_afd_group s = Some g -> w_groups w !! g = Some gr ->
  wp (if g_socket_count gr =? WEPOLL_AFD_GROUP_SIZE
      then ep_afd_group_add_available_locked (Some port) (Some g) else ret tt)
    (fun _ w' => exists H A', groups_core H (delete a (assigned w)) g0 G A' /\
       recounted (w_groups w) H g (g_socket_count gr - 1) /\
       w' = w <| w_socks := <[a := s <| s_afd_group := NULL |>]> (w_socks w) |> <| w_groups := H |>
              <| w_ports := <[port := p <| p_afd_available := head A' |>]> (w_ports w) |>)
    (w <| w_socks := <[a := s <| s_afd_group := NULL |>]> (w_socks w) |>
       <| w_groups := <[g := gr <| g_socket_count := g_socket_count gr - 1 |>]> (w_groups w) |>).
Proof.
  intros Hp Hav HC HgG Ha Hg Hgr. set (H1 := <[g := _]> (w_groups w)).
  assert (Hma : assigned w !! a = Some g) by (unfold assigned; by rewrite lookup_omap, Ha).
  destruct (gi_group _ _ _ _ _ HC g HgG) as (gr' & Hgr' & Hc & Hle & Hafd).
  assert (gr' = gr) as -> by congruence.
  pose proof (load_pos _ _ _ Hma) as Hpos.
  assert (Hav1 : dlist g_available_next g_available_prev H1 A)
    by (eapply dlist_insert_same; [exact Hgr|done|done|apply HC]).
  assert (Hcore : forall H' A', av_er <$> H' = av_er <$> H1 -> dlist g_available_next g_available_prev H' A' ->
    (forall x, x ∈ A' <-> x ∈ A \/ x = g) ->
    groups_core H' (delete a (assigned w)) g0 G A' /\ recounted (w_groups w) H' g (g_socket_count gr - 1)).
  { intros H' A' E HA' HAx.
    assert (Hrec : recounted (w_groups w) H' g (g_socket_count gr - 1)) by (by exists gr). split; [|done].
    eapply recounted_core; [exact HC|exact Hrec|..].
    - rewrite (load_delete _ _ g) by done. case_decide; [|done]. lia.
    - rewrite (load_delete _ _ g) by done. case_decide; lia.
    - intros x Hx. rewrite (load_delete _ _ g) by done. by case_decide.
    - intros x y [_ ?]%lookup_delete_Some. by right.
    - done.
    - intros x. rewrite HAx, (gi_room _ _ _ _ _ HC x), (load_delete _ _ g) by done.
      case_decide as Ex; [subst x|]; naive_solver lia. }
  destruct (Z.eqb_spec (g_socket_count gr) WEPOLL_AFD_GROUP_SIZE) as [Efull|Hroom];
    unfold WEPOLL_AFD_GROUP_SIZE in *.
  - assert (HgA : g ∉ A) by (intros [_ ?]%(gi_room _ _ _ _ _ HC); lia).
    eapply wp_mono; [eapply (add_available_spec _ port p g _ A); sget; [done|done|exact Hav1|apply lookup_insert_eq|done]|].
    intros _ w' (H' & HA' & E & ->). destruct (Hcore H' (g :: A)) as [HC' Hrec]; [exact E|done|set_solver|].
    exists H', (g :: A). split_and!; [done|done|by destruct w].
  - apply wp_ret. assert (HgA : g ∈ A) by (apply HC; split; [done|lia]).
    destruct (Hcore H1 A) as [HC' Hrec]; [done|done|set_solver|].
    exists H1, A. split_and!; [done|done|].
    rewrite (port_same p A Hav), (insert_id (w_ports w) port p) by done. by destruct w.
Qed.

(** The state after [a] left its group; groups that are gone were empty. *)
Lemma left_groups w w' port p g0 G G' A' a s g :
  (exists A, port_groups w port g0 G A) -> w_socks w !! a = Some s -> s_afd_group s = Some g ->
  w_socks w' = <[a := s <| s_afd_group := NULL |>]> (w_socks w) ->
  w_ports w' !! port = Some p -> p_afd_group p = Some g0 -> p_afd_available p = head A' ->
  groups_core (w_groups w') (delete a (assigned w)) g0 G' A' ->
  (forall x, x ∈ G' -> x ∈ G /\ (x = g -> (0 < load (delete a (assigned w)) g)%nat)) ->
  (forall x, x ∈ G -> x ∈ G' \/ load (delete a (assigned w)) x = 0%nat) ->
  port_groups w' port g0 G' A' /\ assigned w' = delete a (assigned w).
Proof.
  intros [A HP] Ha Hg Hs Hp Hg0 Hav HC HG1 HG2.
  assert (Hma : assigned w !! a = Some g) by (unfold assigned; by rewrite lookup_omap, Ha).
  assert (Has : assigned w' = delete a (assigned w))
    by (unfold assigned; rewrite Hs; by rewrite omap_insert_None).
  split; [|done]. split; rewrite ?Has.
  - by exists p.
  - done.
  - intros x [Hx Hxg]%HG1. destruct (decide (g = x)) as [<-|Hne]; [by apply Hxg|].
    rewrite (load_delete _ _ g), decide_False by done. by apply (pg_used _ _ _ _ _ HP).
  - intros b sb x. rewrite Hs. intros [[_ <-]|[Hne Hb]]%lookup_insert_Some Hport Hx; [done|].
    pose proof (pg_owner _ _ _ _ _ HP b sb x Hb Hport Hx) as Hin.
    apply elem_of_cons in Hin as [->|Hin]; [by left|]. right. destruct (HG2 x Hin) as [|Hz]; [done|].
    assert (Hb2 : delete a (assigned w) !! b = Some x).
    { rewrite lookup_delete_ne by done. unfold assigned. by rewrite lookup_omap, Hb. }
    pose proof (load_pos _ _ _ Hb2). lia.
Qed.

(** Releasing takes the registration out of its group and nothing else: the
    member counts and both lists stay exact, a group that was full has room
    again, and a group that became empty is unlinked and freed with its AFD
    handle closed exactly once, except the group embedded in the port, which
    stays. *)
Theorem group_release_exact w port g0 G A a s :
  port_groups w port g0 G A -> w_socks w !! a = Some s -> s_port s = Some port ->
  s_poll_status s = EP_POLL_IDLE ->
  wp (ep_sock_release_afd_group_locked (Some a))
    (fun _ w' => (exists G' A', port_groups w' port g0 G' A') /\
       assigned w' = delete a (assigned w) /\
       match s_afd_group s with
       | None => w' = w
       | Some g => exists gr, w_groups w !! g = Some gr /\
         if bool_decide (load (assigned w) g = 1%nat /\ g <> g0)
         then w_groups w' !! g = None /\ w_trace w' = CloseHandle (g_afd gr) :: w_trace w
         else is_Some (w_groups w' !! g) /\ w_trace w' = w_trace w
       end) w.
Proof.
  intros HP Ha Hport Hidle. pose proof HP as [(p & Hp & Hg0 & Hav) HC Hused Hown].
  unfold ep_sock_release_afd_group_locked. wstep. wstep. rewrite Hport. wstep. wstep.
  destruct (s_afd_group s) as [g|] eqn:Eg.
  2:{ apply wp_ret. split_and!; [by exists G, A| |done]. rewrite delete_id; [done|]. by eapply assigned_free. }
  pose proof (Hown a s g Ha Hport Eg) as HgG.
  destruct (gi_group _ _ _ _ _ HC g HgG) as (gr & Hgr & Hc & Hle & Hafd).
  assert (Hma : assigned w !! a = Some g) by (unfold assigned; by rewrite lookup_omap, Ha).
  pose proof (load_pos _ _ _ Hma) as Hpos.
  pose proof (load_delete _ _ _ g Hma) as Hld. rewrite decide_True in Hld by done.
  pose proof (dlist_nodup _ _ (gi_list _ _ _ _ _ HC)) as [Hg0G _]%NoDup_cons.
  wsteps. apply wp_assert; [lia|]. wsteps. apply wp_assert; [by apply bool_decide_eq_true_2|]. wsteps.
  eapply wp_mono; [by eapply (release_recount w port p g0 G A a s g gr)|].
  intros _ w1 (H & A1 & HC1 & Hrec & ->). wsteps. set (w1 := set w_ports _ _).
  destruct (recounted_lookup _ _ _ _ _ _ Hrec Hgr) as (gr1 & Hgr1 & Eafd & _).
  rewrite Hg0. destruct ((g_socket_count gr - 1 =? 0) && negb (bool_decide (Some g = Some g0))) eqn:Eb.
  - apply andb_prop in Eb as [Ez%Z.eqb_eq Hne%negb_true_iff%bool_decide_eq_false].
    assert (Hg' : g ∈ G) by (apply elem_of_cons in HgG as [->|?]; [by destruct Hne|done]).
    assert (Has : assigned w1 = delete a (assigned w)) by (unfold assigned, w1; sget; by rewrite omap_insert_None).
    eapply wp_mono.
    { eapply (group_destroy_spec w1 port _ g0 G A1 g gr1);
        [apply lookup_insert_eq|done|by rewrite Has|done|rewrite Has; lia|exact Hgr1]. }
    intros _ w2 (H2 & G2 & A2 & HC2 & Hnone & HG2 & ->). rewrite Has in HC2.
    match goal with |- context [w_groups ?x !! g = None] => set (w2 := x) end.
    edestruct (left_groups w w2) as [HP' Has'];
      [by exists A|exact Ha|exact Eg|reflexivity|apply lookup_insert_eq|exact Hg0|reflexivity|exact HC2| | |].
    + intros x [Hx Hxg]%HG2. done.
    + intros x Hx. destruct (decide (x = g)) as [->|]; [right; lia|left; by apply HG2].
    + split_and!; [by eexists _, _|exact Has'|]. exists gr. split; [done|].
      rewrite bool_decide_eq_true_2 by (split; [lia|congruence]). split; [done|]. unfold w2. sget. by rewrite Eafd.
  - apply wp_ret. edestruct (left_groups w w1) as [HP' Has'];
      [by exists A|exact Ha|exact Eg|reflexivity|apply lookup_insert_eq|exact Hg0|reflexivity|exact HC1| | |].
    + intros x Hx. split; [done|]. intros ->. rewrite bool_decide_eq_false_2, andb_true_r in Eb by congruence. lia.
    + intros x Hx. by left.
    + split_and!; [by eexists _, _|exact Has'|]. exists gr. split; [done|].
      rewrite bool_decide_eq_false_2; [split; [by exists gr1|done]|].
      intros [H1 H2]. rewrite bool_decide_eq_false_2, andb_true_r in Eb by congruence. lia.
Qed.

(** Port 9 with its embedded group 8, registration 1 in it and registration 2 in
    none. *)
Definition group_sock : ep_sock := zero_sock <| s_port := Some 9%positive |>.
Definition group_world : world :=
  empty_world
    <| w_ports := {[ 9%positive := zero_port <| p_afd_group := Some 8%positive |>
                                     <| p_afd_available := Some 8%positive |> ]} |>
    <| w_groups := {[ 8%positive := zero_group <| g_afd := 77 |> <| g_socket_count := 1 |> ]} |>
    <| w_socks := {[ 1%positive := group_sock <| s_afd_group := Some 8%positive |>;
                     2%positive := group_sock ]} |>
    <| w_os := fun _ _ => 55 |>.

Lemma group_world_inv : port_groups group_world 9%positive 8%positive [] [8%positive].
Proof.
  assert (Hm : assigned group_world = {[ 1%positive := 8%positive ]}) by (by vm_compute).
  split; rewrite ?Hm.
  - by eexists.
  - split.
    + apply (@linked_cons (link g_next ∅) (link g_prev ∅)); [apply linked_nil|set_solver|done|done|set_solver].
    + apply (@linked_cons (link g_available_next ∅) (link g_available_prev ∅));
        [apply linked_nil|set_solver|done|done|set_solver].
    + intros g ->%list_elem_of_singleton. eexists. split; [reflexivity|]. split; [by vm_compute|].
      split; [vm_compute; lia|done].
    + intros g. rewrite list_elem_of_singleton. split; [|tauto]. intros ->. split; [done|]. vm_compute. lia.
    + intros a g [_ <-]%lookup_singleton_Some. by eexists.
  - by intros g ?%elem_of_nil.
  - intros a s g Ha. change ((<[1%positive := group_sock <| s_afd_group := Some 8%positive |>]>
      {[ 2%positive := group_sock ]} : gmap addr ep_sock) !! a = Some s) in Ha.
    apply lookup_insert_Some in Ha as [[_ <-]|[_ [_ <-]%lookup_singleton_Some]]; [|done].
    intros _ [= <-]. by left.
Qed.

Lemma group_acquire_exact_witness :
  exists w', ep_sock_acquire_afd_group_locked (Some 2%positive) group_world = Some (0, w') /\
    w_trace w' = [] /\ assigned w' = {[ 1%positive := 8%positive; 2%positive := 8%positive ]}.
Proof.
  destruct (group_acquire_exact group_world 9%positive 8%positive [] [8%positive] 2%positive group_sock)
    as (r & w' & Hrun & Hc); [exact group_world_inv|reflexivity|reflexivity|intros tr; discriminate|].
  exists w'. destruct Hc as [(_ & [? [=]] & _)|[(-> & _ & g & A1 & A' & [= <- <-] & _ & Has & _ & Ht)|[(_ & _ & [=] & _)|(_ & _ & [=] & _)]]].
  split; [exact Hrun|]. split; [exact Ht|]. rewrite Has. vm_compute. reflexivity.
Defined.

Lemma group_release_exact_witness :
  exists w', ep_sock_release_afd_group_locked (Some 1%positive) group_world = Some (tt, w') /\
    assigned w' = ∅ /\ w_trace w' = [].
Proof.
  destruct (group_release_exact group_world 9%positive 8%positive [] [8%positive] 1%positive
    (group_sock <| s_afd_group := Some 8%positive |>)) as ([] & w' & Hrun & _ & Has & gr & _ & Hg);
    [exact group_world_inv|reflexivity|reflexivity|reflexivity|].
  exists w'. split; [exact Hrun|]. split; [rewrite Has; vm_compute; reflexivity|].
  rewrite bool_decide_eq_false_2 in Hg by (intros [_ E]; by apply E). exact (proj2 Hg).
Defined.
