(* ===== verification/Pipe.v ===== *)
(** * Pipe registrations

    [src/wepoll_ex_port.c], 794-800 and 1370-1413 (waits), 1664-1994: the level
    of a pipe is sampled from the platform's pipe information, edge-triggered
    registrations deliver its transitions, and a one-shot timer samples an idle
    pipe again.  The functions run under the port's [fd_table_lock]. *)
From S2P Require Import Prelude Codes Types Errno Fault Links Quiet Readiness Iocp.

Definition EP_FILE_PIPE_LOCAL_INFORMATION_CLASS : Z := 24.
Definition EP_PIPE_STATE_DISCONNECTED : Z := 1.
Definition EP_PIPE_STATE_LISTENING : Z := 2.
Definition EP_PIPE_STATE_CONNECTED : Z := 3.
Definition EP_PIPE_STATE_CLOSING : Z := 4.
Definition EP_PIPE_SERVER_END : Z := 1.
Definition EP_STATUS_INVALID_HANDLE : Z := 0xC0000008.
Definition sizeof_pipe_local_information : Z := 40.

Record ep_pipe_snapshot_t := mk_pipe_snapshot {
  ps_events : Z;
  ps_local_closed : bool;
  ps_valid : bool;
  ps_native_information : bool;
  ps_server_end : bool
}.
Definition pipe_unknown : ep_pipe_snapshot_t := mk_pipe_snapshot 0 false false false false.
Definition pipe_closed : ep_pipe_snapshot_t := mk_pipe_snapshot 0 true false false false.
Definition pipe_level (events : Z) : ep_pipe_snapshot_t := mk_pipe_snapshot events false true false false.

Definition pipe_reads (s : ep_sock) : bool := has (s_pipe_access s) EP_PIPE_ACCESS_READ.
Definition pipe_writes (s : ep_sock) : bool := has (s_pipe_access s) EP_PIPE_ACCESS_WRITE.

Definition ep_pipe_read_events (s : ep_sock) : Z := Z.land (s_user_events s) (Z.lor EPOLLIN EPOLLRDNORM).
Definition ep_pipe_write_events (s : ep_sock) : Z := Z.land (s_user_events s) (Z.lor EPOLLOUT EPOLLWRNORM).

Definition ep_pipe_peer_closed_events (s : ep_sock) (available : Z) : Z :=
  let events := 0 in
  let events := if pipe_reads s
    then Z.lor (if 0 <? available then Z.lor events (ep_pipe_read_events s) else events) EPOLLHUP
    else events in
  if pipe_writes s then Z.lor events (Z.lor (ep_pipe_write_events s) EPOLLERR) else events.

(** The write probe of a pipe that cannot be peeked: a zero-length write on a
    synchronous handle. *)
Definition pipe_write_probe (s : ep_sock) : MW ep_pipe_snapshot_t :=
  if negb (s_pipe_synchronous_io s) then ret (pipe_level (ep_pipe_write_events s))
  else
    ok <- os (WriteFile (s_fd s)) ;;
    if negb (ok =? 0) then ret (pipe_level (ep_pipe_write_events s))
    else
      e <- os GetLastError ;;
      let e := u32 e in
      if e =? ERROR_INVALID_HANDLE then ret pipe_closed
      else if (e =? ERROR_BROKEN_PIPE) || (e =? ERROR_NO_DATA) ||
              (e =? ERROR_PIPE_NOT_CONNECTED) || (e =? ERROR_BAD_PIPE)
      then ret (pipe_level (ep_pipe_peer_closed_events s 0))
      else if e =? ERROR_PIPE_LISTENING then ret (pipe_level 0)
      else ret (pipe_level (ep_pipe_write_events s)).

Definition ep_pipe_fallback_snapshot (s : ep_sock) : MW ep_pipe_snapshot_t :=
  ok <- os (PeekNamedPipe (s_fd s)) ;;
  if negb (ok =? 0) then
    available <- os PeekAvailable ;;
    ret (pipe_level (Z.lor (if pipe_reads s && (0 <? u32 available) then ep_pipe_read_events s else 0)
                           (if pipe_writes s then ep_pipe_write_events s else 0)))
  else
    e <- os GetLastError ;;
    let e := u32 e in
    if e =? ERROR_INVALID_HANDLE then ret pipe_closed
    else if (e =? ERROR_BROKEN_PIPE) || (e =? ERROR_PIPE_NOT_CONNECTED) || (e =? ERROR_BAD_PIPE)
    then ret (pipe_level (ep_pipe_peer_closed_events s 0))
    else if e =? ERROR_ACCESS_DENIED then
      if pipe_writes s then pipe_write_probe s else ret (pipe_level 0)
    else ret pipe_unknown.

(** The level of a pipe whose information could be read. *)
Definition pipe_native_events (s : ep_sock) (state available quota : Z) : Z :=
  if state =? EP_PIPE_STATE_CONNECTED then
    Z.lor (if pipe_reads s && (0 <? available) then ep_pipe_read_events s else 0)
          (if pipe_writes s && (0 <? quota) then ep_pipe_write_events s else 0)
  else if (state =? EP_PIPE_STATE_DISCONNECTED) || (state =? EP_PIPE_STATE_CLOSING)
  then ep_pipe_peer_closed_events s available
  else 0.

Definition ep_pipe_snapshot (s : ep_sock) : MW ep_pipe_snapshot_t :=
  resolved <- get w_nt_query_information_file ;;
  if negb resolved then ep_pipe_fallback_snapshot s
  else
    status <- os (NtQueryInformationFile (s_fd s) EP_FILE_PIPE_LOCAL_INFORMATION_CLASS) ;;
    iosb_status <- os QueryFileStatus ;;
    information <- os QueryFileInformation ;;
    let status := i32 status in
    let iosb_status := i32 iosb_status in
    if negb (status =? STATUS_SUCCESS) || negb (iosb_status =? STATUS_SUCCESS) ||
       negb (u64 information =? sizeof_pipe_local_information) then
      if u32 status =? EP_STATUS_INVALID_HANDLE then ret pipe_closed
      else
        error <- ep_ntstatus_to_winerr (if negb (status =? STATUS_SUCCESS) then status else iosb_status) ;;
        let error := u32 error in
        if error =? ERROR_INVALID_HANDLE then ret pipe_closed
        else if (error =? ERROR_BROKEN_PIPE) || (error =? ERROR_PIPE_NOT_CONNECTED) || (error =? ERROR_BAD_PIPE)
        then ret (pipe_level (ep_pipe_peer_closed_events s 0))
        else if error =? ERROR_ACCESS_DENIED then ep_pipe_fallback_snapshot s
        else ret pipe_unknown
    else
      available <- os (QueryFileValue 5) ;;
      quota <- os (QueryFileValue 7) ;;
      state <- os (QueryFileValue 8) ;;
      pipe_end <- os (QueryFileValue 9) ;;
      ret (mk_pipe_snapshot (pipe_native_events s (u32 state) (u32 available) (u32 quota))
             false true true (u32 pipe_end =? EP_PIPE_SERVER_END)).

Definition ep_pipe_et_events_have_final_shape (s : ep_sock) (events : Z) : bool :=
  if has events EPOLLHUP && negb (has events (Z.lor EPOLLIN EPOLLRDNORM)) then true
  else has events EPOLLERR && negb (pipe_reads s).

Definition ep_pipe_et_snapshot_is_final (s : ep_sock) (events : Z) (snapshot : ep_pipe_snapshot_t) : bool :=
  if negb (ps_valid snapshot) || negb (ps_native_information snapshot) || ps_server_end snapshot then false
  else ep_pipe_et_events_have_final_shape s events.

(** The events of the transition from [previous] to [level]. *)
Definition pipe_transition (previous level : Z) : Z :=
  let rising := Z.ldiff level previous in
  let falling := Z.ldiff previous level in
  if has rising (Z.lor EPOLLHUP EPOLLERR) then level
  else if has level EPOLLHUP && has falling (Z.lor EPOLLIN EPOLLRDNORM) then level
  else rising.

Definition ep_pipe_et_events (sock : ptr) (snapshot : ep_pipe_snapshot_t) : MW Z :=
  if negb (ps_valid snapshot) then ret 0
  else
    previous <- rd w_socks sock s_observed_events ;;
    wr w_socks sock s_observed_events (ps_events snapshot) ;;
    ret (pipe_transition previous (ps_events snapshot)).

(** ** Timers and waits *)

Definition ep_pipe_timer_callback (sock : ptr) : MW unit :=
  match sock with
  | None => ret tt
  | Some a =>
    port <- rd w_socks sock s_port ;;
    match port with
    | None => ret tt
    | Some _ =>
      wr w_socks sock s_callback_active true ;;
      ep_aux_post_completion a STATUS_SUCCESS ;;
      wr w_socks sock s_callback_active false
    end
  end.

(** A callback clears [callback_active] as its last action, in another thread:
    the wait ends at once unless one is running. *)
Fixpoint callback_idle_loop (fuel : nat) (sock : ptr) : MW unit :=
  active <- rd w_socks sock s_callback_active ;;
  if active : bool then
    match fuel with
    | O => stuck
    | S fuel => os (Sleep 0) ;; callback_idle_loop fuel sock
    end
  else ret tt.
Definition ep_aux_wait_callback_idle (sock : ptr) : MW unit := callback_idle_loop 1 sock.

(** Both disarm functions: [remove] cancels the registration and waits for its
    callback. *)
Definition aux_disarm (remove : Z -> os_request) (sock : ptr) : MW Z :=
  registration <- rd w_socks sock s_wait_registration ;;
  if registration =? 0 then ep_aux_wait_callback_idle sock ;; ret 0
  else
    fault <- ep_fault_hit EP_FAULT_AUX_DISARM ;;
    if negb (fault =? 0) then
      error <- ep_last_err ;;
      ep_aux_wait_callback_idle sock ;;
      ep_set_errno error ;; ret (-1)
    else
      let disarmed :=
        ep_aux_wait_callback_idle sock ;;
        wr w_socks sock s_wait_registration 0 ;;
        ret 0 in
      ok <- os (remove registration) ;;
      if ok =? 0 then
        error <- os GetLastError ;;
        if negb (u32 error =? ERROR_INVALID_HANDLE) then
          ep_aux_wait_callback_idle sock ;;
          ep_set_win32_error (u32 error) ;; ret (-1)
        else disarmed
      else disarmed.
Definition ep_waitable_unregister_locked (sock : ptr) : MW Z := aux_disarm UnregisterWaitEx sock.
Definition ep_pipe_delete_timer_locked (sock : ptr) : MW Z := aux_disarm DeleteTimerQueueTimer sock.

Definition ep_waitable_register_locked (sock : ptr) : MW Z :=
  registration <- rd w_socks sock s_wait_registration ;;
  if negb (registration =? 0) then ret 0
  else match sock with
  | None => stuck
  | Some a =>
    fd <- rd w_socks sock s_fd ;;
    ok <- os (RegisterWaitForSingleObject fd a) ;;
    if ok =? 0 then e <- os GetLastError ;; ep_set_win32_error (u32 e) ;; ret (-1)
    else
      registration <- os RegisteredWait ;;
      wr w_socks sock s_wait_registration registration ;;
      ret 0
  end.

Definition ep_pipe_schedule_locked (sock : ptr) (level : Z) : MW Z :=
  registration <- rd w_socks sock s_wait_registration ;;
  if negb (registration =? 0) then ret 0
  else if negb (level =? 0) then
    match sock with
    | None => stuck
    | Some a =>
      posted <- ep_aux_post_completion a STATUS_SUCCESS ;;
      if negb posted then e <- os GetLastError ;; ep_set_win32_error (u32 e) ;; ret (-1) else ret 0
    end
  else match sock with
  | None => stuck
  | Some a =>
    ok <- os (CreateTimerQueueTimer a 1) ;;
    if ok =? 0 then e <- os GetLastError ;; ep_set_win32_error (u32 e) ;; ret (-1)
    else
      timer <- os CreatedTimer ;;
      wr w_socks sock s_wait_registration timer ;;
      ret 0
  end.

(** ** Levels *)

(** The events a pipe registration may ever report: those of the directions its
    handle was opened for. *)
Definition pipe_allowed (s : ep_sock) : Z :=
  Z.lor (if pipe_reads s then Z.lor (ep_pipe_read_events s) EPOLLHUP else 0)
        (if pipe_writes s then Z.lor (ep_pipe_write_events s) EPOLLERR else 0).

(** [x] has no bit outside [m]. *)
Definition within (x m : Z) : Prop := Z.ldiff x m = 0.

Lemma within_bits x m : within x m <-> (forall n, 0 <= n -> Z.testbit x n = true -> Z.testbit m n = true).
Proof.
  unfold within. split.
  - intros H n Hn Hx. apply (f_equal (fun y => Z.testbit y n)) in H.
    rewrite Z.ldiff_spec, Z.bits_0, Hx in H. by destruct (Z.testbit m n).
  - intros H. apply Z.bits_inj'. intros n Hn. rewrite Z.ldiff_spec, Z.bits_0.
    specialize (H n Hn). destruct (Z.testbit x n); [by rewrite H|done].
Qed.
Lemma within_0 m : within 0 m.
Proof. done. Qed.
Lemma within_lor x y m : within x m -> within y m -> within (Z.lor x y) m.
Proof.
  rewrite !within_bits. intros Hx Hy n Hn. rewrite Z.lor_spec, orb_true_iff. naive_solver.
Qed.
Lemma within_lor_l x m m' : within x m -> within x (Z.lor m m').
Proof. rewrite !within_bits. intros H n Hn Hx. by rewrite Z.lor_spec, H. Qed.
Lemma within_lor_r x m m' : within x m' -> within x (Z.lor m m').
Proof. rewrite !within_bits. intros H n Hn Hx. by rewrite Z.lor_spec, H, orb_true_r. Qed.
Lemma within_refl x : within x x.
Proof. apply Z.ldiff_diag. Qed.
Lemma within_trans x y z : within x y -> within y z -> within x z.
Proof. rewrite !within_bits. auto. Qed.

Create HintDb within.
#[export] Hint Resolve within_0 within_lor within_lor_l within_lor_r within_refl : within.

Lemma peer_closed_within s available : within (ep_pipe_peer_closed_events s available) (pipe_allowed s).
Proof.
  unfold ep_pipe_peer_closed_events, pipe_allowed. cbv zeta.
  destruct (pipe_reads s), (pipe_writes s), (0 <? available); auto 10 with within.
Qed.
Lemma connected_within s r w :
  within (Z.lor (if pipe_reads s && r then ep_pipe_read_events s else 0)
                (if pipe_writes s && w then ep_pipe_write_events s else 0)) (pipe_allowed s).
Proof. unfold pipe_allowed. destruct (pipe_reads s), (pipe_writes s), r, w; simpl; auto 10 with within. Qed.
Lemma native_within s state available quota :
  within (pipe_native_events s state available quota) (pipe_allowed s).
Proof.
  unfold pipe_native_events. destruct (state =? _); [apply connected_within|].
  destruct ((state =? EP_PIPE_STATE_DISCONNECTED) || (state =? EP_PIPE_STATE_CLOSING));
    [apply peer_closed_within|apply within_0].
Qed.

(** A sample is sound when it reports only allowed events, and none unless it is
    valid. *)
Definition sample_sound (s : ep_sock) (sn : ep_pipe_snapshot_t) : Prop :=
  within (ps_events sn) (pipe_allowed s) /\
  (ps_valid sn = false -> ps_events sn = 0) /\ (ps_local_closed sn = true -> ps_valid sn = false).

Lemma level_sound s e : within e (pipe_allowed s) -> sample_sound s (pipe_level e).
Proof. done. Qed.
Lemma closed_sound s : sample_sound s pipe_closed.
Proof. done. Qed.
Lemma unknown_sound s : sample_sound s pipe_unknown.
Proof. done. Qed.
#[export] Hint Resolve level_sound closed_sound unknown_sound peer_closed_within : within.

Lemma write_within s : pipe_writes s = true -> within (ep_pipe_write_events s) (pipe_allowed s).
Proof. intros H. unfold pipe_allowed. rewrite H. auto with within. Qed.

(** Sampling asks the platform and changes nothing else. *)
Definition sampled (s : ep_sock) : MW ep_pipe_snapshot_t -> Prop :=
  ensures (fun _ => True) quiet (fun sn _ => sample_sound s sn).
#[export] Instance always_quiet_within : QuietWithin (fun _ => True) quiet.
Proof. by intros w w' Hq _. Qed.
Ltac sampling := unfold sampled; ensuring; intros; eauto using write_within with within.

Lemma write_probe_sampled s : pipe_writes s = true -> sampled s (pipe_write_probe s).
Proof. intros Hw. unfold pipe_write_probe. sampling. Qed.
Lemma fallback_sampled s : sampled s (ep_pipe_fallback_snapshot s).
Proof.
  unfold ep_pipe_fallback_snapshot. sampling.
  - apply level_sound. pose proof (connected_within s (0 <? u32 a0) true) as Hc.
    by rewrite andb_true_r in Hc.
  - by apply write_probe_sampled.
Qed.

#[export] Instance ntstatus_to_winerr_quiet s : QuietAction (ep_ntstatus_to_winerr s).
Proof. unfold ep_ntstatus_to_winerr. quieted. Qed.

(** Sampling a pipe, through the native query, the peek fallback or the
    write probe, and whatever the platform answers, returns, changes nothing but
    the error channel, and reports only events of the directions the handle was
    opened for and the registration asked for: HUP needs read access and ERR
    needs write access.  An unavailable or locally closed pipe reports none. *)
Theorem pipe_snapshot_sound s w :
  wp (ep_pipe_snapshot s) (fun sn w' => quiet w w' /\
    within (ps_events sn) (pipe_allowed s) /\
    (ps_valid sn = false -> ps_events sn = 0) /\ (ps_local_closed sn = true -> ps_valid sn = false)) w.
Proof.
  assert (Hs : sampled s (ep_pipe_snapshot s)).
  { unfold ep_pipe_snapshot. sampling; try apply fallback_sampled. split; [apply native_within|done]. }
  eapply wp_mono; [by apply Hs|]. by intros sn w' (_ & ? & ?).
Qed.

(** ** Edges *)

(** A terminal condition appears, or buffered data is drained after EOF. *)
Definition terminal_transition (previous level : Z) : bool :=
  has (Z.ldiff level previous) (Z.lor EPOLLHUP EPOLLERR) ||
  has level EPOLLHUP && has (Z.ldiff previous level) (Z.lor EPOLLIN EPOLLRDNORM).

Lemma transition_bit previous level n : 0 <= n ->
  Z.testbit (pipe_transition previous level) n =
  Z.testbit level n && (terminal_transition previous level || negb (Z.testbit previous n)).
Proof.
  intros Hn. unfold pipe_transition, terminal_transition.
  destruct (has (Z.ldiff level previous) _); simpl; [by rewrite andb_true_r|].
  destruct (has level EPOLLHUP && _); simpl; [by rewrite andb_true_r|]. apply Z.ldiff_spec.
Qed.

(** The completions of an edge-triggered registration, one sample each. *)
Fixpoint pipe_deliveries (sock : ptr) (samples : list ep_pipe_snapshot_t) : MW (list Z) :=
  match samples with
  | [] => ret []
  | sn :: samples =>
    d <- ep_pipe_et_events sock sn ;;
    ds <- pipe_deliveries sock samples ;;
    ret (d :: ds)
  end.

(** The last valid level of a history that starts at [level]. *)
Definition last_level (level : Z) (samples : list ep_pipe_snapshot_t) : Z :=
  fold_left (fun l sn => if ps_valid sn then ps_events sn else l) samples level.

(** What a history delivers, sample by sample. *)
Fixpoint edges (level : Z) (samples : list ep_pipe_snapshot_t) : list Z :=
  match samples with
  | [] => []
  | sn :: samples =>
    (if ps_valid sn then pipe_transition level (ps_events sn) else 0) ::
    edges (last_level level [sn]) samples
  end.

Lemma edges_lookup samples level l1 sn l2 :
  samples = l1 ++ sn :: l2 ->
  edges level samples !! length l1 =
    Some (if ps_valid sn then pipe_transition (last_level level l1) (ps_events sn) else 0).
Proof.
  revert samples level. induction l1 as [|x l1 IH]; intros samples level ->; simpl; [done|].
  rewrite (IH _ _ eq_refl). done.
Qed.

Lemma set_observed_self (s : ep_sock) : s <| s_observed_events := s_observed_events s |> = s.
Proof. by destruct s. Qed.

Lemma deliveries_run a samples : forall w s, w_socks w !! a = Some s ->
  pipe_deliveries (Some a) samples w =
    Some (edges (s_observed_events s) samples,
          w <| w_socks := <[a := s <| s_observed_events := last_level (s_observed_events s) samples |>]> (w_socks w) |>).
Proof.
  induction samples as [|sn samples IH]; intros w s Hs; cbn [pipe_deliveries edges].
  - cbn. rewrite set_observed_self, insert_id by done. by destruct w.
  - unfold ep_pipe_et_events. destruct (ps_valid sn) eqn:Ev; cbn [negb].
    + do 5 mstep.
      erewrite bind_some by (eapply IH, lookup_insert_eq). cbv beta. unfold ret. sget.
      unfold last_level. cbn [fold_left]. rewrite Ev. scollapse. done.
    + mstep. erewrite bind_some by (by eapply IH). cbv beta. unfold ret, last_level. cbn [fold_left]. by rewrite Ev.
Qed.

(** C40: Edge-triggered delivery of a pipe, over any history of samples.  The
    event delivered for a valid sample has exactly the bits of its level that
    were clear in the latest valid level before it - all of them when a terminal
    condition appears or EOF has been drained - an unavailable sample delivers
    nothing, and the latch ends at the last valid level. *)
Theorem pipe_et_edges a s w samples l1 sn l2 :
  w_socks w !! a = Some s -> samples = l1 ++ sn :: l2 ->
  exists ds d, pipe_deliveries (Some a) samples w =
      Some (ds, w <| w_socks := <[a := s <| s_observed_events := last_level (s_observed_events s) samples |>]> (w_socks w) |>) /\
    length ds = length samples /\ ds !! length l1 = Some d /\
    forall n, 0 <= n -> Z.testbit d n =
      ps_valid sn && Z.testbit (ps_events sn) n &&
      (terminal_transition (last_level (s_observed_events s) l1) (ps_events sn) ||
       negb (Z.testbit (last_level (s_observed_events s) l1) n)).
Proof.
  intros Hs Hl. rewrite (deliveries_run a samples w s Hs). eexists _, _.
  split_and!; [reflexivity| |by apply edges_lookup with (l2 := l2)|].
  - generalize (s_observed_events s). clear. induction samples; intros; simpl; [done|]. by rewrite IHsamples.
  - intros n Hn. destruct (ps_valid sn); [by apply transition_bit|by rewrite Z.bits_0].
Qed.

(** Data arrives, the query fails once, the peer closes, the buffer drains. *)
Definition pipe_sock : ep_sock := zero_sock <| s_user_events := Z.lor EPOLLIN EPOLLOUT |> <| s_pipe_access := EP_PIPE_ACCESS_READ |>.
Definition pipe_world : world := empty_world <| w_socks := {[1%positive := pipe_sock]} |>.
Definition pipe_history : list ep_pipe_snapshot_t :=
  [pipe_level EPOLLIN; pipe_unknown; pipe_level (Z.lor EPOLLIN EPOLLHUP); pipe_level EPOLLHUP; pipe_level EPOLLHUP].
Lemma pipe_et_edges_witness :
  result (pipe_deliveries (Some 1%positive) pipe_history) pipe_world =
    Some [EPOLLIN; 0; Z.lor EPOLLIN EPOLLHUP; EPOLLHUP; 0] /\
  exists d, edges 0 pipe_history !! 3%nat = Some d /\ Z.testbit d 4 = true.
Proof.
  split; [vm_compute; reflexivity|].
  destruct (pipe_et_edges 1%positive pipe_sock pipe_world pipe_history
    (take 3 pipe_history) (pipe_level EPOLLHUP) (drop 4 pipe_history))
    as (ds & d & Hrun & _ & Hd & Hb); [reflexivity|reflexivity|].
  exists d. split; [|rewrite Hb; [vm_compute; reflexivity|lia]].
  rewrite (deliveries_run 1%positive pipe_history pipe_world pipe_sock eq_refl) in Hrun.
  apply (f_equal (fmap fst)) in Hrun. injection Hrun as <-. exact Hd.
Defined.
