(* ===== verification/Targets.v ===== *)
(** * Target classification

    [src/wepoll_ex_port.c], 836-967 and 1419-1662: what kind of object a
    descriptor names - socket, pipe, waitable object or nothing usable - without
    consuming its state.  A handle that is not a socket is duplicated for the
    duration of the probe. *)
From S2P Require Import Prelude Codes Types Errno Fault Links Quiet Readiness Provider PollKeys.

Definition FILE_TYPE_UNKNOWN : Z := 0.
Definition FILE_TYPE_DISK : Z := 1.
Definition FILE_TYPE_PIPE : Z := 3.
Definition SYNCHRONIZE : Z := 0x100000.
Definition FILE_READ_DATA : Z := 1.
Definition FILE_WRITE_DATA : Z := 2.
Definition GENERIC_READ : Z := 0x80000000.
Definition GENERIC_WRITE : Z := 0x40000000.
Definition GENERIC_ALL : Z := 0x10000000.
Definition ObjectBasicInformation : Z := 0.
Definition ObjectTypeInformation : Z := 2.
Definition INVALID_HANDLE_VALUE : Z := 2 ^ 64 - 1.
Definition EP_FILE_MODE_INFORMATION_CLASS : Z := 16.
Definition EP_FILE_SYNCHRONOUS_IO_ALERT : Z := 0x10.
Definition EP_FILE_SYNCHRONOUS_IO_NONALERT : Z := 0x20.
Definition sizeof_file_mode_information : Z := 4.

(** The object type names the platform may answer, by number. *)
Inductive object_type := Event | Semaphore | Timer | Process | Thread | OtherObject.
#[export] Instance object_type_eq : EqDecision object_type.
Proof. solve_decision. Defined.
Definition object_type_of_Z (z : Z) : object_type :=
  switch z [([1], Event); ([2], Semaphore); ([3], Timer); ([4], Process); ([5], Thread)] OtherObject.

(** ** Waitable objects *)

Definition ep_event_waitable_semantics (handle : Z) : MW ep_waitable_semantics :=
  resolved <- get w_nt_query_event ;;
  if negb resolved then ret EP_WAITABLE_ET_UNSUPPORTED
  else
    status <- os (NtQueryEvent handle) ;;
    if i32 status <? 0 then ret EP_WAITABLE_ET_UNSUPPORTED
    else
      event_type <- os NtQueryEventType ;;
      if u32 event_type =? 0 then ret EP_WAITABLE_PERSISTENT
      else if u32 event_type =? 1 then ret EP_WAITABLE_CONSUMPTIVE
      else ret EP_WAITABLE_ET_UNSUPPORTED.

Definition ep_handle_wait_access (handle : Z) : MW Z :=
  status <- os (NtQueryObject handle ObjectBasicInformation) ;;
  if i32 status <? 0 then ep_set_ntstatus_error (i32 status) ;; ret 0
  else
    access <- os NtQueryObjectValue ;;
    ret (if has (u32 access) SYNCHRONIZE then 1 else -2).

(** The result and [*semantics_out]. *)
Definition ep_handle_waitability (handle file_type : Z) : MW (Z * ep_waitable_semantics) :=
  let semantics := EP_WAITABLE_ET_UNSUPPORTED in
  if (handle =? 0) || (handle =? INVALID_HANDLE_VALUE) then ret (0, semantics)
  else if file_type =? FILE_TYPE_UNKNOWN then
    resolved <- get w_ntdll_initialized ;;
    if negb resolved then ret (0, semantics)
    else
      status <- os (NtQueryObject handle ObjectTypeInformation) ;;
      if i32 status <? 0 then ep_set_ntstatus_error (i32 status) ;; ret (0, semantics)
      else
        type_name <- os NtQueryObjectValue ;;
        match object_type_of_Z type_name with
        | Event =>
          semantics <- ep_event_waitable_semantics handle ;;
          r <- ep_handle_wait_access handle ;; ret (r, semantics)
        | Semaphore => r <- ep_handle_wait_access handle ;; ret (r, EP_WAITABLE_CONSUMPTIVE)
        | Timer => r <- ep_handle_wait_access handle ;; ret (r, EP_WAITABLE_ET_UNSUPPORTED)
        | Process | Thread => r <- ep_handle_wait_access handle ;; ret (r, EP_WAITABLE_TERMINAL)
        | OtherObject => ret (-1, semantics)
        end
  else ret (-1, semantics).

Definition ep_waitable_interest_events (user_events : Z) : Z :=
  Z.land user_events
    (EPOLLIN ||| EPOLLOUT ||| EPOLLPRI ||| EPOLLRDNORM ||| EPOLLWRNORM ||| EPOLLRDBAND ||| EPOLLWRBAND ||| EPOLLRDHUP).
Definition ep_waitable_level_events (s : ep_sock) : Z := ep_waitable_interest_events (s_user_events s).
Definition ep_waitable_may_consume (s : ep_sock) : bool :=
  bool_decide (s_kind s = EP_REG_WAITABLE) &&
  negb (bool_decide (s_waitable_semantics s = EP_WAITABLE_PERSISTENT)) &&
  negb (bool_decide (s_waitable_semantics s = EP_WAITABLE_TERMINAL)).
Definition ep_waitable_is_dormant (s : ep_sock) : bool :=
  bool_decide (s_kind s = EP_REG_WAITABLE) && (ep_waitable_interest_events (s_user_events s) =? 0).

(** ** Pipes *)

(** The result and [*access_out]. *)
Definition ep_pipe_query_access (handle : Z) : MW (Z * Z) :=
  status <- os (NtQueryObject handle ObjectBasicInformation) ;;
  if i32 status <? 0 then ep_set_ntstatus_error (i32 status) ;; ret (-1, 0)
  else
    granted <- os NtQueryObjectValue ;;
    let granted := u32 granted in
    let access := 0 in
    let access := if has granted (FILE_READ_DATA ||| GENERIC_READ ||| GENERIC_ALL)
                  then Z.lor access EP_PIPE_ACCESS_READ else access in
    let access := if has granted (FILE_WRITE_DATA ||| GENERIC_WRITE ||| GENERIC_ALL)
                  then Z.lor access EP_PIPE_ACCESS_WRITE else access in
    if access =? 0 then ep_set_errno EACCES ;; ret (-1, 0) else ret (0, access).

(** The mode query of [ep_pipe_has_synchronous_io] and
    [ep_socket_async_read_capability]: the mode, when the platform gave it. *)
Definition query_file_mode (handle : Z) : MW (option Z) :=
  resolved <- get w_nt_query_information_file ;;
  if negb resolved then ret None
  else
    status <- os (NtQueryInformationFile handle EP_FILE_MODE_INFORMATION_CLASS) ;;
    iosb_status <- os QueryFileStatus ;;
    information <- os QueryFileInformation ;;
    mode <- os (QueryFileValue 0) ;;
    if negb (i32 status =? STATUS_SUCCESS) || negb (i32 iosb_status =? STATUS_SUCCESS) ||
       negb (u64 information =? sizeof_file_mode_information)
    then ret None else ret (Some (u32 mode)).

(** [int saved_errno = ep_last_err(); ...; done: ...]: the body between saving
    and restoring the three error channels. *)
Definition preserving_errors {A} (body : MW A) : MW A :=
  saved_errno <- ep_last_err ;;
  saved_wsa_error <- os WSAGetLastError ;;
  saved_last_error <- os GetLastError ;;
  r <- body ;;
  os (WSASetLastError saved_wsa_error) ;;
  os (SetLastError saved_last_error) ;;
  ep_set_errno saved_errno ;;
  ret r.

Definition synchronous_mode (mode : Z) : bool :=
  has mode (Z.lor EP_FILE_SYNCHRONOUS_IO_ALERT EP_FILE_SYNCHRONOUS_IO_NONALERT).

Definition ep_pipe_has_synchronous_io (handle : Z) : MW bool :=
  preserving_errors
    (mode <- query_file_mode handle ;;
     ret (match mode with Some m => synchronous_mode m | None => false end)).

(** ** The probe *)

Inductive ep_target_kind :=
  EP_TARGET_INVALID | EP_TARGET_SOCKET | EP_TARGET_PIPE | EP_TARGET_WAITABLE | EP_TARGET_UNSUPPORTED.
#[export] Instance ep_target_kind_eq : EqDecision ep_target_kind.
Proof. solve_decision. Defined.

Record ep_target_info := mk_target {
  t_kind : ep_target_kind;
  t_base_socket : Z;
  t_pipe_access : Z;
  t_pipe_synchronous_io : bool;
  t_waitable_semantics : ep_waitable_semantics;
  t_registration_error : Z
}.
Definition no_target : ep_target_info := mk_target EP_TARGET_INVALID INVALID_SOCKET 0 false EP_WAITABLE_NONE 0.
Definition unsupported_target : ep_target_info :=
  mk_target EP_TARGET_UNSUPPORTED INVALID_SOCKET 0 false EP_WAITABLE_NONE 0.
Definition socket_target (base error : Z) : ep_target_info :=
  mk_target EP_TARGET_SOCKET base 0 false EP_WAITABLE_NONE error.
Definition pipe_target (access : Z) (synchronous : bool) (error : Z) : ep_target_info :=
  mk_target EP_TARGET_PIPE INVALID_SOCKET access synchronous EP_WAITABLE_NONE error.
Definition waitable_target (semantics : ep_waitable_semantics) (error : Z) : ep_target_info :=
  mk_target EP_TARGET_WAITABLE INVALID_SOCKET 0 false semantics error.

(** The classification of a duplicated handle; [None] when it cannot be
    classified, with the error reported. *)
Definition classify_handle (duplicate : Z) : MW (option ep_target_info) :=
  file_type <- os (GetFileType duplicate) ;;
  let file_type := u32 file_type in
  waitability <- (if (file_type =? FILE_TYPE_PIPE) || (file_type =? FILE_TYPE_DISK)
                  then ret (0, EP_WAITABLE_ET_UNSUPPORTED)
                  else ep_handle_waitability duplicate file_type) ;;
  let '(waitability, semantics) := waitability in
  if file_type =? FILE_TYPE_PIPE then
    access <- ep_pipe_query_access duplicate ;;
    error <- (if negb (access.1 =? 0) then ep_last_err else ret 0) ;;
    synchronous <- ep_pipe_has_synchronous_io duplicate ;;
    ret (Some (pipe_target access.2 synchronous error))
  else if file_type =? FILE_TYPE_DISK then ret (Some unsupported_target)
  else if waitability =? -2 then ret (Some (waitable_target semantics EACCES))
  else if 0 <? waitability then ret (Some (waitable_target semantics 0))
  else if waitability <? 0 then ret (Some unsupported_target)
  else ret None.

(** The result and [*target]. *)
Definition ep_target_probe (fd : Z) : MW (Z * ep_target_info) :=
  if fd =? INVALID_SOCKET then ret (0, no_target)
  else
    base <- ep_socket_get_base fd ;;
    if negb (base =? INVALID_SOCKET) then ret (0, socket_target base 0)
    else
      base_error <- ep_last_err ;;
      let base_error := if base_error =? 0 then EIO else base_error in
      r <- os (Getsockopt fd SO_TYPE) ;;
      if r =? 0 then ret (0, socket_target INVALID_SOCKET base_error)
      else
        e <- os WSAGetLastError ;;
        let socket_error := ep_winerr_to_errno (u32 e) in
        if negb (socket_error =? ENOTSOCK) && negb (socket_error =? EBADF) then
          ep_set_errno (if negb (socket_error =? 0) then socket_error else EIO) ;;
          ret (-1, no_target)
        else
          ok <- os (DuplicateHandle fd) ;;
          if ok =? 0 then
            e <- os GetLastError ;;
            let error := ep_winerr_to_errno (u32 e) in
            if error =? EBADF then ret (0, no_target)
            else ep_set_errno (if negb (error =? 0) then error else EIO) ;; ret (-1, no_target)
          else
            duplicate <- os DuplicatedHandle ;;
            class <- classify_handle duplicate ;;
            match class with
            | Some target => os (CloseHandle duplicate) ;; ret (0, target)
            | None =>
              error <- ep_last_err ;;
              os (CloseHandle duplicate) ;;
              ep_set_errno (if negb (error =? 0) then error else EIO) ;;
              ret (-1, no_target)
            end.

Definition EP_TARGET_VALIDATE_CONTROL : Z := 0.
Definition EP_TARGET_VALIDATE_ADD : Z := 1.

Definition ep_port_validate_target (port : ptr) (fd mode : Z) : MW Z :=
  let fail error := ep_set_errno error ;; ret (-1) in
  closing <- match port with None => ret true | Some _ => rd w_ports port p_closing end ;;
  if closing : bool then fail EBADF
  else if negb (mode =? EP_TARGET_VALIDATE_CONTROL) && negb (mode =? EP_TARGET_VALIDATE_ADD)
  then fail EINVAL
  else
    r <- ep_target_probe fd ;;
    let '(failed, target) := r in
    if negb (failed =? 0) then ret (-1)
    else if bool_decide (t_kind target = EP_TARGET_INVALID) then fail EBADF
    else if bool_decide (t_kind target = EP_TARGET_UNSUPPORTED) then fail EPERM
    else if (mode =? EP_TARGET_VALIDATE_ADD) && negb (t_registration_error target =? 0)
    then fail (t_registration_error target)
    else ret 0.

Definition ep_target_fail_absent (fd : Z) : MW Z :=
  r <- ep_target_probe fd ;;
  let '(failed, target) := r in
  if negb (failed =? 0) then ret (-1)
  else
    ep_set_errno (match t_kind target with
                  | EP_TARGET_INVALID => EBADF
                  | EP_TARGET_UNSUPPORTED => EPERM
                  | EP_TARGET_SOCKET | EP_TARGET_PIPE | EP_TARGET_WAITABLE => ENOENT
                  end) ;;
    ret (-1).

(** ** Handles *)

(** Only the error channel changes, and every handle opened is closed again. *)
Definition balanced (w w' : world) : Prop := quiet w w' /\ holds w w' [].

Lemma holds_trans w w1 w2 held :
  w_os w1 = w_os w -> holds w w1 held -> holds w1 w2 [] -> holds w w2 held.
Proof.
  unfold holds. intros -> H1 H2. cbn [app] in *.
  apply (Permutation_app_inv_l (opened_by (w_os w) (w_trace w1) ++ closed_by (w_trace w1))).
  transitivity ((opened_by (w_os w) (w_trace w1) ++ closed_by (w_trace w)) ++
                (opened_by (w_os w) (w_trace w2) ++ closed_by (w_trace w1))); [solve_Permutation|].
  rewrite H1, H2. solve_Permutation.
Qed.

#[export] Instance balanced_preorder : PreOrder balanced.
Proof.
  split.
  - intros w. split; [reflexivity|apply holds_refl].
  - intros w1 w2 w3 [Hq1 Hh1] [Hq2 Hh2]. split; [by etrans|].
    eapply holds_trans; [by apply quiet_os|done|done].
Qed.

Lemma balanced_quiet w w' : quiet w w' -> w_trace w' = w_trace w -> balanced w w'.
Proof. intros Hq Ht. split; [done|]. eapply holds_same; [exact Ht|apply holds_refl]. Qed.

(** Calls that neither open nor close a handle. *)
Definition handle_free (r : os_request) : Prop :=
  match r with DuplicatedHandle | CreateEventW | CloseHandle _ => False | _ => True end.

Lemma balanced_call w r : handle_free r -> balanced w (w <| w_trace ::= cons r |>).
Proof.
  intros Hr. split; [apply (quiet_trace w (r :: w_trace w))|].
  eapply (holds_call w w _ [] r); [apply holds_refl|done|by destruct r].
Qed.

(** From every state the action returns and is balanced. *)
Abbreviation Balanced := (Framed (fun _ => True) balanced).
#[export] Hint Opaque balanced : typeclass_instances.

#[export] Instance ret_balanced {A} (a : A) : Balanced (ret a).
Proof. intros w _. by apply wp_ret. Qed.
#[export] Instance get_balanced {A} (f : world -> A) : Balanced (get f).
Proof. intros w _. by apply wp_get. Qed.
#[export] Instance os_balanced r : TCEq (match r with DuplicatedHandle | CreateEventW | CloseHandle _ => false | _ => true end) true ->
  Balanced (os r).
Proof. intros Hr%TCEq_eq w _. apply wp_os. split; [done|]. apply balanced_call. by destruct r. Qed.
#[export] Instance set_errno_balanced e : Balanced (ep_set_errno e).
Proof. intros w _. eexists _, _. split; [reflexivity|]. split; [done|]. apply balanced_quiet; [apply quiet_error|done]. Qed.
#[export] Instance set_native_error_balanced p d c : Balanced (ep_set_native_error p d c).
Proof. intros w _. eexists _, _. split; [reflexivity|]. split; [done|]. apply balanced_quiet; [apply quiet_error|done]. Qed.
#[export] Instance set_winsock_error_balanced e : Balanced (ep_set_winsock_error e).
Proof. intros w _. eexists _, _. split; [reflexivity|]. split; [done|]. apply balanced_quiet; [apply quiet_error|done]. Qed.
#[export] Instance last_err_balanced : Balanced ep_last_err.
Proof. unfold ep_last_err. apply _. Qed.
#[export] Instance fault_hit_balanced point : Balanced (ep_fault_hit point).
Proof.
  intros w _. destruct (fault_hit_frame point w) as (r & e & i & sl & Hr & Hc).
  eexists _, _. split; [exact Hr|]. split; [done|]. apply balanced_quiet; [|done].
  exists e, i, sl, (w_trace w). by destruct w.
Qed.

#[export] Instance set_ntstatus_error_balanced s : Balanced (ep_set_ntstatus_error s).
Proof. unfold ep_set_ntstatus_error, ep_status_to_errno, ep_ntstatus_to_winerr. framed. Qed.
#[export] Instance ioctl_handle_balanced s c e : Balanced (ep_socket_ioctl_handle s c e).
Proof. unfold ep_socket_ioctl_handle. framed. Qed.
#[export] Instance base_fallback_balanced current visited codes : forall saw,
  Balanced (base_fallback ep_socket_ioctl_handle current visited codes saw).
Proof. induction codes; intros saw; cbn [base_fallback]; framed. Qed.
#[export] Instance base_loop_balanced depth : forall current visited,
  Balanced (base_loop ep_socket_ioctl_handle depth current visited).
Proof. induction depth as [|depth IH]; intros current visited; cbn [base_loop]; framed. Qed.
#[export] Instance get_base_balanced s : Balanced (ep_socket_get_base s).
Proof. unfold ep_socket_get_base, ep_socket_get_base_with_ioctl. framed. Qed.
#[export] Instance event_semantics_balanced h : Balanced (ep_event_waitable_semantics h).
Proof. unfold ep_event_waitable_semantics. framed. Qed.
#[export] Instance wait_access_balanced h : Balanced (ep_handle_wait_access h).
Proof. unfold ep_handle_wait_access. framed. Qed.
#[export] Instance query_access_balanced h : Balanced (ep_pipe_query_access h).
Proof. unfold ep_pipe_query_access. framed. Qed.
#[export] Instance query_file_mode_balanced h : Balanced (query_file_mode h).
Proof. unfold query_file_mode. framed. Qed.
#[export] Instance preserving_balanced {A} (m : MW A) : Balanced m -> Balanced (preserving_errors m).
Proof. intros Hm. unfold preserving_errors. framed. Qed.
#[export] Instance synchronous_io_balanced h : Balanced (ep_pipe_has_synchronous_io h).
Proof. unfold ep_pipe_has_synchronous_io. apply preserving_balanced. framed. Qed.

(** ** Outcomes *)

(** The action returns, is balanced, and its result satisfies [P]. *)
Abbreviation yields := (ensures (fun _ => True) balanced).

(** An error return: the error is set last. *)
Lemma yields_fail {A} (Q : A -> world -> Prop) e a :
  (forall w, w_errno w = e -> Q a w) -> yields Q (ep_set_errno e ;; ret a).
Proof.
  intros HQ w _. eexists _, _. split; [reflexivity|]. split_and!; [done| |by apply HQ].
  apply balanced_quiet; [apply quiet_error|done].
Qed.
Ltac yielding := repeat first [apply yields_fail | ensuring_step].

(** A duplicated handle is closed after use. *)
Lemma yields_duplicate {A B} (P : A -> Prop) (Q : B -> world -> Prop) (k : Z -> MW A) (k' : Z -> A -> MW B) :
  (forall h, yields (fun a _ => P a) (k h)) ->
  (forall h a w0, P a -> forall w, quiet w0 w -> holds w0 w [h] ->
     wp (k' h a) (fun r w' => True /\ balanced w0 w' /\ Q r w') w) ->
  yields Q (h <- os DuplicatedHandle ;; a <- k h ;; k' h a).
Proof.
  intros Hk Hk' w _. apply wp_bind, wp_os. set (h := w_os w _ _). set (w1 := set w_trace _ w).
  assert (Hq1 : quiet w w1) by apply (quiet_trace w (_ :: w_trace w)).
  assert (Hh1 : holds w w1 [h]) by (apply (holds_open w w w1 []); [apply holds_refl|done]).
  apply wp_bind. eapply wp_mono; [by apply Hk|]. intros a w2 (_ & [Hq2 Hh2] & HP).
  eapply wp_mono; [apply (Hk' h a w HP)|]; [by etrans| |done].
  apply (holds_trans w w1); [by apply quiet_os|done|done].
Qed.

(** What the fields of a classified target mean to a registration. *)
Definition target_ok (t : ep_target_info) : Prop :=
  match t_kind t with
  | EP_TARGET_INVALID | EP_TARGET_UNSUPPORTED => t_registration_error t = 0
  | EP_TARGET_SOCKET => t_base_socket t <> INVALID_SOCKET <-> t_registration_error t = 0
  | EP_TARGET_PIPE => 0 <= t_pipe_access t <= 3
  | EP_TARGET_WAITABLE =>
    t_waitable_semantics t <> EP_WAITABLE_NONE /\
    (t_registration_error t = 0 \/ t_registration_error t = EACCES)
  end.

Definition probe_ok (r : Z * ep_target_info) (w : world) : Prop :=
  target_ok r.2 /\ (r.1 = 0 \/ r.1 = -1 /\ w_errno w <> 0 /\ r.2 = no_target).

Lemma query_access_yields h : yields (fun r _ => 0 <= r.2 <= 3) (ep_pipe_query_access h).
Proof.
  unfold ep_pipe_query_access. yielding; intros; cbn [snd]; try done.
  by repeat case_match.
Qed.
Lemma event_semantics_yields h :
  yields (fun s _ => s <> EP_WAITABLE_NONE) (ep_event_waitable_semantics h).
Proof. unfold ep_event_waitable_semantics. yielding; by intros. Qed.
Lemma waitability_yields h t : yields (fun r _ => r.2 <> EP_WAITABLE_NONE) (ep_handle_waitability h t).
Proof.
  unfold ep_handle_waitability. ensuring_with event_semantics_yields; by intros.
Qed.

Lemma classify_yields h : yields (fun r _ => forall t, r = Some t -> target_ok t) (classify_handle h).
Proof.
  unfold classify_handle. ensuring_step. rename a into ft. cbv zeta.
  eapply ensures_seq with (P := fun r => r.2 <> EP_WAITABLE_NONE); [typeclasses eauto| |].
  { destruct ((_ =? FILE_TYPE_PIPE) || _); [by ensuring|apply waitability_yields]. }
  intros [x sem] Hsem. cbn [snd] in Hsem. destruct (_ =? FILE_TYPE_PIPE).
  { after query_access_yields. intros [r acc] Hacc.
    apply ensures_bind; [typeclasses eauto|framed|]. intros e. ensuring. intros _ _ t [= <-]. exact Hacc. }
  yielding; intros _ _ t Ht; simplify_eq; (try done); split; auto.
Qed.

Lemma nonzero_or_EIO e : (if negb (e =? 0) then e else EIO) <> 0.
Proof. destruct (Z.eqb_spec e 0); [done|done]. Qed.

Lemma target_probe_yields fd : yields probe_ok (ep_target_probe fd).
Proof.
  unfold ep_target_probe. yielding.
  all: try (intros w; split; [|by left]; try done).
  - unfold target_ok. cbn. by rewrite negb_true_iff, Z.eqb_neq in Heqb0.
  - unfold target_ok. cbn. split; [done|]. intros E. destruct (Z.eqb_spec a0 0); [discriminate E|done].
  - intros w Hw. split; [done|]. right. split_and!; [done| |done]. rewrite Hw. apply nonzero_or_EIO.
  - intros w Hw. split; [done|]. right. split_and!; [done| |done]. rewrite Hw. apply nonzero_or_EIO.
  - eapply (yields_duplicate _ _ classify_handle); [apply classify_yields|].
    intros h class w0 HP w Hq Hh. destruct class as [target|]; wsteps.
    + split; [done|]. split; [|split; [by apply HP|by left]]. split; [by apply quiet_call|by eapply holds_close].
    + unfold ep_last_err. wsteps. eapply wp_run; [reflexivity|]. apply wp_ret. split; [done|]. split.
      * split; [by apply quiet_fail, quiet_call|]. eapply holds_close; [exact Hh|reflexivity].
      * split; [done|]. right. split_and!; [done| |done]. cbn. apply nonzero_or_EIO.
Qed.

(** Probing a descriptor returns whatever the platform answers, changes
    nothing but the error channel, and closes the duplicate it may have opened
    on every path.  A failure reports a non-zero errno.  Otherwise the class is
    consistent: a socket is registrable exactly when its provider socket is
    known, a pipe's access is a set of directions, a waitable object has wait
    semantics and at worst lacks the right to wait. *)
Theorem target_probe_sound fd w :
  wp (ep_target_probe fd) (fun r w' => quiet w w' /\ holds w w' [] /\ target_ok r.2 /\
    (r.1 = 0 \/ r.1 = -1 /\ w_errno w' <> 0 /\ r.2 = no_target)) w.
Proof.
  eapply wp_mono; [by apply target_probe_yields|]. intros r w' (_ & [Hq Hh] & [Ht Hr]). done.
Qed.

(** Validation refuses a closing port and an unknown mode before it asks the
    platform anything; any other refusal has a non-zero errno. *)
Theorem validate_target_outcome port p fd mode w :
  w_ports w !! port = Some p ->
  wp (ep_port_validate_target (Some port) fd mode) (fun r w' => balanced w w' /\
    (r = 0 \/ r = -1 /\ w_errno w' <> 0) /\
    (p_closing p = true -> r = -1 /\ w_errno w' = EBADF /\ w_trace w' = w_trace w)) w.
Proof.
  intros Hp. unfold ep_port_validate_target. wsteps.
  assert (Hfail : forall e w1, balanced w w1 -> e <> 0 ->
    wp (ep_set_errno e ;; ret (-1)) (fun r w' => balanced w w' /\ (r = 0 \/ r = -1 /\ w_errno w' <> 0) /\
      r = -1 /\ w_errno w' = e /\ w_trace w' = w_trace w1) w1).
  { intros e w1 Hb He. eapply wp_run; [reflexivity|]. split_and!; auto; try done.
    etrans; [exact Hb|]. apply balanced_quiet; [apply quiet_error|done]. }
  destruct (p_closing p).
  { eapply wp_mono; [by apply Hfail|]. intros r w' (Hb & Ho & Hr). auto. }
  assert (Hno : forall e w1, balanced w w1 -> e <> 0 ->
    wp (ep_set_errno e ;; ret (-1)) (fun r w' => balanced w w' /\ (r = 0 \/ r = -1 /\ w_errno w' <> 0) /\
      (false = true -> r = -1 /\ w_errno w' = EBADF /\ w_trace w' = w_trace w)) w1).
  { intros e w1 Hb He. eapply wp_mono; [by apply Hfail|]. intros r w' (? & ? & _). done. }
  destruct (_ && _); [by apply Hno|].
  apply wp_bind. eapply wp_mono; [by apply target_probe_yields|].
  intros [r t] w1 (_ & Hb & [Ht Hr]). cbn [fst snd] in *. destruct Hr as [->|(-> & He & ->)].
  - cbn [Z.eqb negb]. wif; [by apply Hno|]. wif; [by apply Hno|].
    destruct (_ && _) eqn:E; [|apply wp_ret; split_and!; auto; done].
    apply Hno; [done|]. apply andb_true_iff in E as [_ E]. by apply negb_true_iff, Z.eqb_neq in E.
  - apply wp_ret. split_and!; auto; done.
Qed.

(** Looking a registration up and not finding it always fails, and says why. *)
Theorem fail_absent_outcome fd w :
  wp (ep_target_fail_absent fd) (fun r w' => balanced w w' /\ r = -1 /\ w_errno w' <> 0) w.
Proof.
  unfold ep_target_fail_absent. apply wp_bind. eapply wp_mono; [by apply target_probe_yields|].
  intros [r t] w1 (_ & Hb & [Ht Hr]). cbn [fst snd] in *. destruct Hr as [->|(-> & He & ->)]; cbn [Z.eqb negb].
  - eapply wp_run; [reflexivity|]. split_and!; [|done|by destruct (t_kind t)].
    etrans; [exact Hb|]. apply balanced_quiet; [apply quiet_error|done].
  - by apply wp_ret.
Qed.
