(* ===== verification/Levels.v ===== *)
(** * Current levels of sockets

    [src/wepoll_ex_port.c], 969-1133 and 1151-1366: the non-consuming samples
    taken while a completion is delivered - the current TCP levels merged into
    an AFD snapshot, and the one-byte peek that qualifies a UDP receive
    indication. *)
From S2P Require Import Prelude Codes Types Errno Fault Links Quiet Readiness Timeout Provider.
From S2P Require Import PollKeys Targets Pipe.

Definition POLLERR : Z := 1.
Definition POLLHUP : Z := 2.
Definition POLLNVAL : Z := 4.
Definition POLLWRNORM : Z := 0x10.
Definition POLLRDNORM : Z := 0x100.
Definition SO_OOBINLINE : Z := 0x100.
Definition WAIT_OBJECT_0 : Z := 0.

(** ** TCP *)

Definition select_one (fd set : Z) : MW Z :=
  result <- os (Select fd set) ;;
  let result := i32 result in
  if result =? SOCKET_ERROR then ret (-1)
  else
    is_set <- os SelectIsSet ;;
    ret (if (0 <? result) && negb (is_set =? 0) then 1 else 0).
Definition ep_socket_select_ready (fd : Z) (writable : bool) : MW Z :=
  select_one fd (if writable then 1 else 0).

Definition ep_socket_select_priority_ready (fd : Z) : MW Z :=
  peer <- os (Getpeername fd) ;;
  if i32 peer =? SOCKET_ERROR then ret 0
  else
    r <- os (Getsockopt fd SO_OOBINLINE) ;;
    if i32 r =? SOCKET_ERROR then ret 0
    else
      oob_inline <- os (GetsockoptValue SO_OOBINLINE) ;;
      if negb (i32 oob_inline =? 0) then ret 0 else select_one fd 2.

(** [port->field++] on a 64-bit counter of the registration's port. *)
Definition count (sock : ptr) (f : ep_port -> Z) `{!Setter f} : MW unit :=
  port <- rd w_socks sock s_port ;;
  n <- rd w_ports port f ;;
  wr w_ports port f (u64 (n + 1)).

(** The events of a successful poll ([*revents_out]), or [None]. *)
Definition ep_socket_poll_current (sock : ptr) : MW (option Z) :=
  preserving_errors
    (match sock with
     | None => ret None
     | Some _ =>
       protocol <- rd w_socks sock s_socket_protocol ;;
       if negb (bool_decide (protocol = EP_SOCKET_PROTOCOL_TCP)) then ret None
       else
         fd <- rd w_socks sock s_fd ;;
         peer <- os (Getpeername fd) ;;
         if i32 peer =? SOCKET_ERROR then ret None
         else
           count sock p_tcp_current_level_probes ;;
           polled <- os (WSAPoll fd) ;;
           if i32 polled =? SOCKET_ERROR then ret None
           else
             revents <- os WSAPollRevents ;;
             if has revents POLLNVAL then ret None else ret (Some revents)
     end).

(** The levels a successful poll adds. *)
Definition polled_levels (user_events revents delivered : Z) : Z :=
  let read_interest := Z.land user_events (EPOLLIN ||| EPOLLRDNORM) in
  let write_interest := Z.land user_events (EPOLLOUT ||| EPOLLWRNORM) in
  let delivered :=
    if has revents POLLERR then delivered ||| (EPOLLERR ||| EPOLLHUP)
    else if has revents POLLHUP then delivered ||| read_interest ||| Z.land user_events EPOLLRDHUP
    else if has revents POLLRDNORM then delivered ||| read_interest
    else delivered in
  if has revents POLLWRNORM then delivered ||| write_interest else delivered.

(** The fallback when no poll was possible. *)
Definition selected_levels (fd user_events delivered : Z) : MW Z :=
  let read_interest := Z.land user_events (EPOLLIN ||| EPOLLRDNORM) in
  let write_interest := Z.land user_events (EPOLLOUT ||| EPOLLWRNORM) in
  delivered <- (if negb (Z.ldiff read_interest delivered =? 0) then
                  r <- ep_socket_select_ready fd false ;;
                  ret (if 0 <? r then delivered ||| read_interest else delivered)
                else ret delivered) ;;
  if negb (Z.ldiff write_interest delivered =? 0) then
    r <- ep_socket_select_ready fd true ;;
    ret (if 0 <? r then delivered ||| write_interest else delivered)
  else ret delivered.

(** The result ([*revents_out] with it when it is 1) and [*delivered]. *)
Definition ep_socket_merge_current_levels (sock : ptr) (delivered : Z) : MW (option Z * Z) :=
  protocol <- rd w_socks sock s_socket_protocol ;;
  if negb (bool_decide (protocol = EP_SOCKET_PROTOCOL_TCP)) || has delivered (EPOLLERR ||| EPOLLHUP)
  then ret (None, delivered)
  else
    user_events <- rd w_socks sock s_user_events ;;
    fd <- rd w_socks sock s_fd ;;
    polled <- ep_socket_poll_current sock ;;
    delivered <- match polled with
                 | Some revents => ret (polled_levels user_events revents delivered)
                 | None =>
                   count sock p_tcp_current_level_fallbacks ;;
                   selected_levels fd user_events delivered
                 end ;;
    delivered <- (if has user_events EPOLLPRI && negb (has delivered EPOLLPRI) &&
                     negb (has delivered (EPOLLERR ||| EPOLLHUP)) then
                    r <- ep_socket_select_priority_ready fd ;;
                    ret (if 0 <? r then delivered ||| EPOLLPRI else delivered)
                  else ret delivered) ;;
    match polled with
    | Some revents =>
      if has revents (POLLERR ||| POLLHUP) then ret (None, delivered) else ret (Some revents, delivered)
    | None => ret (None, delivered)
    end.

(** ** UDP *)

Inductive ep_udp_read_probe_result :=
  EP_UDP_READ_PROBE_UNAVAILABLE | EP_UDP_READ_PROBE_NOT_READY | EP_UDP_READ_PROBE_READY
| EP_UDP_READ_PROBE_ERROR | EP_UDP_READ_PROBE_CLOSED | EP_UDP_READ_PROBE_IDENTITY_ERROR.
#[export] Instance ep_udp_read_probe_result_eq : EqDecision ep_udp_read_probe_result.
Proof. solve_decision. Defined.

(** [ep_socket_async_read_capability()]. *)
Definition socket_async_read_capability (base_socket : Z) : MW ep_socket_async_read_capability :=
  preserving_errors
    (mode <- query_file_mode base_socket ;;
     ret (match mode with
          | Some m => if synchronous_mode m then EP_SOCKET_ASYNC_READ_UNSAFE else EP_SOCKET_ASYNC_READ_SAFE
          | None => EP_SOCKET_ASYNC_READ_UNKNOWN
          end)).

Definition ep_udp_probe_error_is_unavailable (error : Z) : bool :=
  existsb (Z.eqb error)
    [ERROR_INVALID_FUNCTION; ERROR_BAD_COMMAND; ERROR_NOT_SUPPORTED; ERROR_INVALID_PARAMETER;
     ERROR_CALL_NOT_IMPLEMENTED; WSAEINVAL; WSAEOPNOTSUPP].

Definition ep_udp_probe_classify_error (error : Z) : ep_udp_read_probe_result :=
  if (error =? ERROR_OPERATION_ABORTED) || (error =? ERROR_IO_INCOMPLETE) then EP_UDP_READ_PROBE_NOT_READY
  else if error =? ERROR_MORE_DATA then EP_UDP_READ_PROBE_READY
  else if (error =? WSAENOTSOCK) || (error =? WSAEBADF) || (error =? ERROR_INVALID_HANDLE)
  then EP_UDP_READ_PROBE_CLOSED
  else if ep_udp_probe_error_is_unavailable error then EP_UDP_READ_PROBE_UNAVAILABLE
  else EP_UDP_READ_PROBE_ERROR.

(** The request on the pinned handle, settled before it returns; an event that
    cannot be waited for aborts the process. *)
Definition udp_peek (probe_handle event : Z) : MW ep_udp_read_probe_result :=
  reset <- os (ResetEvent event) ;;
  if reset =? 0 then ret EP_UDP_READ_PROBE_UNAVAILABLE
  else
    done <- os (DeviceIoControl probe_handle) ;;
    if negb (done =? 0) then ret EP_UDP_READ_PROBE_READY
    else
      error <- os GetLastError ;;
      if negb (u32 error =? ERROR_IO_PENDING) then ret (ep_udp_probe_classify_error (u32 error))
      else
        wait_result <- os (WaitForSingleObject event 0) ;;
        wait_result <- (if negb (u32 wait_result =? WAIT_OBJECT_0) then
                          os (CancelIoEx probe_handle) ;; os (WaitForSingleObject event INFINITE)
                        else ret wait_result) ;;
        if negb (u32 wait_result =? WAIT_OBJECT_0) then stuck
        else
          ok <- os (GetOverlappedResult probe_handle) ;;
          if negb (ok =? 0) then ret EP_UDP_READ_PROBE_READY
          else error <- os GetLastError ;; ret (ep_udp_probe_classify_error (u32 error)).

Definition udp_probe_handle (sock : ptr) (probe_handle event : Z) : MW ep_udp_read_probe_result :=
  capability <- socket_async_read_capability probe_handle ;;
  if negb (bool_decide (capability = EP_SOCKET_ASYNC_READ_SAFE)) then ret EP_UDP_READ_PROBE_UNAVAILABLE
  else
    identity_check <- ep_sock_validate_identity_locked sock false ;;
    match identity_check with
    | EP_IDENTITY_STALE | EP_IDENTITY_CLOSED => ret EP_UDP_READ_PROBE_CLOSED
    | EP_IDENTITY_ERROR => ret EP_UDP_READ_PROBE_UNAVAILABLE
    | EP_IDENTITY_MATCH => udp_peek probe_handle event
    end.

Definition ep_udp_probe_read_locked (sock : ptr) : MW ep_udp_read_probe_result :=
  port <- rd w_socks sock s_port ;;
  preserving_errors
    (protocol <- rd w_socks sock s_socket_protocol ;;
     eligible <- rd w_socks sock s_udp_afd_qualifier_eligible ;;
     capability <- rd w_socks sock s_async_read_capability ;;
     base <- rd w_socks sock s_base_socket ;;
     event <- rd w_ports port p_udp_probe_event ;;
     if negb (bool_decide (protocol = EP_SOCKET_PROTOCOL_UDP)) || negb eligible ||
        negb (bool_decide (capability = EP_SOCKET_ASYNC_READ_SAFE)) ||
        (base =? INVALID_SOCKET) || (event =? 0)
     then ret EP_UDP_READ_PROBE_UNAVAILABLE
     else
       ok <- os (DuplicateHandle base) ;;
       if ok =? 0 then
         error <- os GetLastError ;;
         ret (if u32 error =? ERROR_INVALID_HANDLE
              then EP_UDP_READ_PROBE_CLOSED else EP_UDP_READ_PROBE_UNAVAILABLE)
       else
         probe_handle <- os DuplicatedHandle ;;
         probe <- udp_probe_handle sock probe_handle event ;;
         (if negb (probe_handle =? 0) then os (CloseHandle probe_handle) ;; ret tt else ret tt) ;;
         ret probe).

(** ** The TCP merge *)

(** Everything but the error channel, the trace and the two probe counters. *)
Definition level_er (p : ep_port) : ep_port :=
  p <| p_tcp_current_level_probes := 0 |> <| p_tcp_current_level_fallbacks := 0 |>.
Definition level_erased (w : world) : world :=
  w <| w_errno := 0 |> <| w_last_error := no_error_info |> <| w_fault_slots := fun _ => mk_fault_slot 0 0 0 |>
    <| w_trace := [] |> <| w_ports := level_er <$> w_ports w |>.
Definition level_frame (w w' : world) : Prop := level_erased w' = level_erased w.

#[export] Instance level_frame_preorder : PreOrder level_frame.
Proof. split; [by intros w|]. intros w1 w2 w3 H1 H2. unfold level_frame in *. congruence. Qed.

Section Merge.
Context (a port : addr).
#[export] Instance level_quiet_within : QuietWithin (registered a port) level_frame.
Proof.
  intros w w' Hq Hr. split.
  - destruct Hr as (s & p & Hs & Hp & Hw). exists s, p. by rewrite (quiet_socks _ _ Hq), (quiet_ports _ _ Hq).
  - by destruct Hq as (e & i & sl & tr & ->).
Qed.
#[export] Instance rd_level {T} (f : ep_sock -> T) : Framed (registered a port) level_frame (rd w_socks (Some a) f).
Proof.
  intros w (s & p & Hs & Hp & Hw). eapply wp_rd; [exact Hs|]. split; [by exists s, p|reflexivity].
Qed.
Lemma count_level f `{!Setter f} :
  (forall p v, level_er (p <| f := v |>) = level_er p) ->
  Framed (registered a port) level_frame (count (Some a) f).
Proof.
  intros He w (s & p & Hs & Hp & Hw). unfold count. wstep. wstep. rewrite Hp. wsteps. split.
  - exists s. eexists. sget. rewrite lookup_insert_eq. done.
  - unfold level_frame, level_erased. sget.
    rewrite (fmap_insert_same level_er _ _ p); [by destruct w|done|apply He].
Qed.
#[export] Instance count_probes : Framed (registered a port) level_frame (count (Some a) p_tcp_current_level_probes).
Proof. by apply count_level. Qed.
#[export] Instance count_fallbacks : Framed (registered a port) level_frame (count (Some a) p_tcp_current_level_fallbacks).
Proof. by apply count_level. Qed.

#[export] Instance select_one_quiet fd which : QuietAction (select_one fd which).
Proof. unfold select_one. quieted. Qed.
#[export] Instance select_ready_quiet fd b : QuietAction (ep_socket_select_ready fd b).
Proof. unfold ep_socket_select_ready. quieted. Qed.
#[export] Instance priority_ready_quiet fd : QuietAction (ep_socket_select_priority_ready fd).
Proof. unfold ep_socket_select_priority_ready. quieted. Qed.
#[export] Instance preserving_framed I R {A} (m : MW A) :
  PreOrder R -> QuietWithin I R -> Framed I R m -> Framed I R (preserving_errors m).
Proof. intros HR HQ Hm. unfold preserving_errors. framed. Qed.
#[export] Instance poll_current_framed : Framed (registered a port) level_frame (ep_socket_poll_current (Some a)).
Proof. unfold ep_socket_poll_current. apply preserving_framed; [apply _|apply _|]. framed. Qed.

(** What a merge may add to [delivered]. *)
Definition mergeable (user_events : Z) : Z :=
  Z.land user_events (EPOLLIN ||| EPOLLRDNORM ||| EPOLLOUT ||| EPOLLWRNORM ||| EPOLLRDHUP ||| EPOLLPRI) |||
  (EPOLLERR ||| EPOLLHUP).
Definition merges (user_events delivered delivered' : Z) : Prop :=
  within delivered delivered' /\ within delivered' (delivered ||| mergeable user_events).
End Merge.

Lemma merges_refl u d : merges u d d.
Proof. split; auto with within. Qed.
Lemma merges_or u d d' x : merges u d d' -> within x (mergeable u) -> merges u d (d' ||| x).
Proof.
  unfold bor. intros [H1 H2] Hx. split; [auto with within|]. apply within_lor; [done|]. auto with within.
Qed.
Lemma land_within u m m' : within m m' -> within (Z.land u m) (Z.land u m').
Proof.
  rewrite !within_bits. intros H n Hn. rewrite !Z.land_spec, !andb_true_iff. intros [? ?]. split; [done|]. by apply H.
Qed.
Lemma interest_mergeable u m :
  within m (EPOLLIN ||| EPOLLRDNORM ||| EPOLLOUT ||| EPOLLWRNORM ||| EPOLLRDHUP ||| EPOLLPRI) ->
  within (Z.land u m) (mergeable u).
Proof. intros H. unfold mergeable, bor. apply within_lor_l. by apply land_within. Qed.
Lemma pri_mergeable u : has u EPOLLPRI = true -> within EPOLLPRI (mergeable u).
Proof.
  intros H. assert (EPOLLPRI = Z.land u EPOLLPRI) as E.
  { change EPOLLPRI with (Z.shiftl 1 1) in *. rewrite has_pow2 in H by done.
    apply Z.bits_inj'. intros n Hn. rewrite Z.land_spec, Z.shiftl_spec by done.
    destruct (Z.eq_dec n 1) as [->|]; [by rewrite H|].
    destruct (Z.testbit 1 (n - 1)) eqn:Et; [|by rewrite andb_false_r].
    destruct (Z.lt_ge_cases n 1); [by rewrite Z.testbit_neg_r in Et by lia|].
    rewrite Z.bits_above_log2 in Et; [done|done|]. simpl. lia. }
  rewrite E. by apply interest_mergeable.
Qed.
#[export] Hint Resolve merges_refl merges_or pri_mergeable : within.
#[export] Hint Extern 3 (within (Z.land _ _) (mergeable _)) => apply interest_mergeable; reflexivity : within.
#[export] Hint Extern 3 (within (EPOLLERR ||| EPOLLHUP) (mergeable _)) => apply within_lor_r, within_refl : within.

Lemma polled_merges u r d : merges u d (polled_levels u r d).
Proof. unfold polled_levels. cbv zeta. repeat case_match; auto 8 with within. Qed.

Section MergeSpec.
Context (a port : addr).
Lemma selected_merges fd u d :
  ensures (registered a port) level_frame (fun d' _ => merges u d d') (selected_levels fd u d).
Proof.
  unfold selected_levels. cbv zeta.
  eapply ensures_seq with (P := merges u d); [typeclasses eauto| |].
  - ensuring; intros; repeat case_match; auto with within.
  - intros d' Hd. ensuring; intros; repeat case_match; auto with within.
Qed.

(** A result that keeps the merge sound; a poll that is handed on saw no terminal
    condition, and the levels it saw are merged. *)
Definition merge_ok (u d : Z) (r : option Z * Z) : Prop :=
  merges u d r.2 /\
  (forall rev, r.1 = Some rev -> has rev (POLLERR ||| POLLHUP) = false /\
     (has rev POLLRDNORM = true -> within (Z.land u (EPOLLIN ||| EPOLLRDNORM)) r.2) /\
     (has rev POLLWRNORM = true -> within (Z.land u (EPOLLOUT ||| EPOLLWRNORM)) r.2)).

Lemma polled_reports u rev d : has rev (POLLERR ||| POLLHUP) = false ->
  (has rev POLLRDNORM = true -> within (Z.land u (EPOLLIN ||| EPOLLRDNORM)) (polled_levels u rev d)) /\
  (has rev POLLWRNORM = true -> within (Z.land u (EPOLLOUT ||| EPOLLWRNORM)) (polled_levels u rev d)).
Proof.
  unfold bor at 1. rewrite has_lor. intros [He Hh]%orb_false_iff. unfold polled_levels. cbv zeta.
  rewrite He, Hh. split; intros ->; repeat case_match; unfold bor; auto with within.
Qed.

Lemma merge_body u fd d :
  ensures (registered a port) level_frame (fun r _ => merge_ok u d r)
    (polled <- ep_socket_poll_current (Some a) ;;
     d' <- match polled with
           | Some revents => ret (polled_levels u revents d)
           | None => count (Some a) p_tcp_current_level_fallbacks ;; selected_levels fd u d
           end ;;
     d' <- (if has u EPOLLPRI && negb (has d' EPOLLPRI) && negb (has d' (EPOLLERR ||| EPOLLHUP)) then
              r <- ep_socket_select_priority_ready fd ;;
              ret (if 0 <? r then d' ||| EPOLLPRI else d')
            else ret d') ;;
     match polled with
     | Some revents => if has revents (POLLERR ||| POLLHUP) then ret (None, d') else ret (Some revents, d')
     | None => ret (None, d')
     end).
Proof.
  apply ensures_bind; [typeclasses eauto|apply poll_current_framed|]. intros polled.
  set (known := fun d' => merges u d d' /\ forall rev, polled = Some rev -> within (polled_levels u rev d) d').
  eapply ensures_seq with (P := known); [typeclasses eauto| |].
  { destruct polled as [rev|].
    - ensuring. intros _ _. split; [apply polled_merges|]. intros ? [= <-]. apply within_refl.
    - ensuring. eapply ensures_mono; [apply selected_merges|]. by intros d' ? Hd. }
  intros d1 H1. eapply ensures_seq with (P := known); [typeclasses eauto| |].
  { destruct (has u EPOLLPRI && _ && _) eqn:E; [|ensuring; by intros].
    apply andb_true_iff in E as [[E _]%andb_true_iff _]. ensuring. intros _ _. case_match; [|done].
    destruct H1 as [Hm Hp]. split; [auto with within|]. intros rev Hr. unfold bor. auto with within. }
  intros d2 [Hm Hp]. ensuring; intros _ _; (split; [exact Hm|]); intros rev' Hr; simplify_eq/=.
  split; [done|]. destruct (polled_reports u rev' d) as [Hr Hw]; [done|].
  specialize (Hp rev' eq_refl). split; intros Hb; (eapply within_trans; [|exact Hp]); auto.
Qed.
End MergeSpec.

(** Merging the current levels of a TCP socket only ever adds events: those
    the registration asked for, and ERR and HUP; it changes nothing but the
    error channel and the two probe counters.  A snapshot that is handed on to
    the edge filter saw no terminal condition and everything it saw is
    delivered.  Other protocols and snapshots that are already terminal are
    returned unchanged. *)
Theorem merge_levels_sound a port s w delivered :
  registered a port w -> w_socks w !! a = Some s ->
  wp (ep_socket_merge_current_levels (Some a) delivered) (fun r w' =>
    level_frame w w' /\ merge_ok (s_user_events s) delivered r /\
    (s_socket_protocol s <> EP_SOCKET_PROTOCOL_TCP \/ has delivered (EPOLLERR ||| EPOLLHUP) = true ->
       r = (None, delivered) /\ w' = w)) w.
Proof.
  intros Hr Hs. unfold ep_socket_merge_current_levels. wsteps.
  destruct (negb (bool_decide (s_socket_protocol s = EP_SOCKET_PROTOCOL_TCP)) ||
            has delivered (EPOLLERR ||| EPOLLHUP)) eqn:E.
  - apply wp_ret. split_and!; [reflexivity| |done]. split; [apply merges_refl|done].
  - do 4 wstep. eapply wp_mono; [by apply (merge_body a port)|]. intros r w' (_ & Hf & Hm). split_and!; [done|done|].
    apply orb_false_iff in E as [E1 E2]. rewrite negb_false_iff, bool_decide_eq_true in E1. intros [?|?]; congruence.
Qed.

(** Two descriptions of one run. *)
Lemma wp_conj {A} (m : MW A) (P Q : A -> world -> Prop) w :
  wp m P w -> wp m Q w -> wp m (fun r w' => P r w' /\ Q r w') w.
Proof. intros (r & w1 & Hr & HP) (r' & w2 & Hr' & HQ). rewrite Hr in Hr'. injection Hr' as <- <-. by exists r, w1. Qed.

(** ** The UDP probe *)

(** The handles a run holds, whatever else it changes. *)
Definition handle_frame (w w' : world) : Prop := w_os w' = w_os w /\ holds w w' [].
#[export] Instance handle_frame_preorder : PreOrder handle_frame.
Proof.
  split; [intros w; split; [done|apply holds_refl]|].
  intros w1 w2 w3 [H1 Hh1] [H2 Hh2]. split; [congruence|]. by eapply holds_trans.
Qed.

Section Probe.
Context (a port : addr).
#[export] Instance balanced_handles {A} (m : MW A) : Balanced m -> Framed (registered a port) handle_frame m | 60.
Proof.
  intros Hm w Hw. eapply wp_mono; [by apply Hm|]. intros r w' [_ [Hq Hh]]. split.
  - by apply (level_quiet_within a port w w' Hq).
  - split; [by apply quiet_os|done].
Qed.
Lemma same_trace_handles {A} (m : MW A) :
  (forall w, registered a port w -> wp m (fun _ w' => registered a port w' /\ w_os w' = w_os w /\ w_trace w' = w_trace w) w) ->
  Framed (registered a port) handle_frame m.
Proof.
  intros Hm w Hw. eapply wp_mono; [by apply Hm|]. intros r w' (Hr & Ho & Ht). split; [done|]. split; [done|].
  eapply holds_same; [exact Ht|apply holds_refl].
Qed.
#[export] Instance rd_handles {T} (f : ep_sock -> T) : Framed (registered a port) handle_frame (rd w_socks (Some a) f).
Proof. apply same_trace_handles. intros w Hr. destruct Hr as (s & p & Hs & H). eapply wp_rd; [exact Hs|]. split_and!; [by exists s, p|done|done]. Qed.
Lemma wr_handles {T} (f : ep_sock -> T) `{!Setter f} v :
  (forall s, s_port (s <| f := v |>) = s_port s) -> Framed (registered a port) handle_frame (wr w_socks (Some a) f v).
Proof.
  intros Hf. apply same_trace_handles. intros w (s & p & Hs & Hp & Hw). eapply wp_wr; [exact Hs|].
  split_and!; [|done|done]. eexists _, p. sget. rewrite lookup_insert_eq. split_and!; [done|by rewrite Hf|done].
Qed.
#[export] Instance wr_id_handles v : Framed (registered a port) handle_frame (wr w_socks (Some a) s_endpoint_id v).
Proof. by apply wr_handles. Qed.
#[export] Instance wr_id_state_handles v : Framed (registered a port) handle_frame (wr w_socks (Some a) s_endpoint_id_state v).
Proof. by apply wr_handles. Qed.
#[export] Instance identity_failure_handles e : Framed (registered a port) handle_frame (identity_failure (Some a) e).
Proof.
  apply same_trace_handles. intros w (s & p & Hs & Hp & Hw). unfold identity_failure, ep_set_errno.
  wstep. wstep. rewrite Hp. wsteps. split_and!; [|done|done]. exists s. eexists. sget. by rewrite lookup_insert_eq.
Qed.
#[export] Instance is_stable_balanced fd : Balanced (ep_socket_identity_is_stable fd).
Proof. unfold ep_socket_identity_is_stable. framed. Qed.
#[export] Instance endpoint_id_balanced fd : Balanced (ep_socket_get_endpoint_id fd).
Proof. unfold ep_socket_get_endpoint_id, ep_socket_get_endpoint_id_with_ioctl, ep_socket_ioctl_endpoint_id. framed. Qed.
#[export] Instance probe_live_balanced fd : Balanced (probe_live fd).
Proof. unfold probe_live. framed. Qed.
#[export] Instance stabilize_handles : Framed (registered a port) handle_frame (stabilize (Some a)).
Proof. unfold stabilize. framed. Qed.
#[export] Instance validate_identity_handles allow :
  Framed (registered a port) handle_frame (ep_sock_validate_identity_locked (Some a) allow).
Proof. unfold ep_sock_validate_identity_locked. framed. Qed.

(** What the probe relies on: a duplication that succeeds yields a handle, and an
    infinite wait on the private event ends with the event signalled. *)
Definition probe_platform (w : world) : Prop :=
  (forall n, w_os w n DuplicatedHandle <> 0) /\
  (forall n h, u32 (w_os w n (WaitForSingleObject h INFINITE)) = WAIT_OBJECT_0).
Definition probing (w : world) : Prop := registered a port w /\ probe_platform w.
Definition probe_frame (w w' : world) : Prop := id_frame a w w' /\ handle_frame w w'.

#[export] Instance probe_frame_preorder : PreOrder probe_frame.
Proof.
  split; [intros w; split; reflexivity|]. intros w1 w2 w3 [? ?] [? ?]. split; by etrans.
Qed.
#[export] Instance probe_framed {A} (m : MW A) :
  Framed (registered a port) (id_frame a) m -> Framed (registered a port) handle_frame m ->
  Framed probing probe_frame m | 50.
Proof.
  intros H1 H2 w [Hr Hp]. eapply wp_mono; [apply wp_conj; [by apply H1|by apply H2]|].
  intros r w' [[? ?] [? [Ho ?]]]. split; [|by split]. split; [done|].
  unfold probe_platform. by rewrite Ho.
Qed.

Lemma balanced_more w w1 r : balanced w w1 -> handle_free r -> balanced w (w1 <| w_trace ::= cons r |>).
Proof. intros Hb Hr. etrans; [exact Hb|]. by apply balanced_call. Qed.
Lemma balanced_id w w' : balanced w w' -> registered a port w -> probe_frame w w'.
Proof.
  intros [Hq Hh] Hr. split; [by apply (id_quiet_within a port w w' Hq)|]. split; [by apply quiet_os|done].
Qed.

Local Ltac calls := repeat (apply balanced_more; [|done]); reflexivity.
#[export] Instance udp_peek_framed h ev : Framed probing probe_frame (udp_peek h ev).
Proof.
  intros w [Hr [Hd Hp]].
  assert (wp (udp_peek h ev) (fun _ w' => balanced w w') w) as Hwp.
  { unfold udp_peek. wsteps. wif; wsteps; [calls|]. wif; wsteps; [calls|]. wif; wsteps; [calls|].
    wif; wsteps; [rewrite Hp|]; cbn [Z.eqb negb WAIT_OBJECT_0].
    - wsteps. wif; wsteps; calls.
    - rewrite Heqb2. wsteps. wif; wsteps; calls. }
  eapply wp_mono; [exact Hwp|]. intros r w' Hb. split; [|by apply balanced_id]. destruct Hb as [Hq _]. split.
  - by apply (level_quiet_within a port w w' Hq).
  - unfold probe_platform. by rewrite (quiet_os _ _ Hq).
Qed.
#[export] Instance async_capability_balanced h : Balanced (socket_async_read_capability h).
Proof. unfold socket_async_read_capability. apply preserving_balanced. framed. Qed.
#[export] Instance async_capability_quiet h : QuietAction (socket_async_read_capability h).
Proof. unfold socket_async_read_capability, preserving_errors, query_file_mode. quieted. Qed.
#[export] Instance udp_probe_handle_framed h ev : Framed probing probe_frame (udp_probe_handle (Some a) h ev).
Proof. unfold udp_probe_handle. framed. Qed.
End Probe.

(** A bracketed computation starts and ends up to balanced effects, with errno as
    it was. *)
Lemma preserving_wp {A} (m : MW A) (Q : A -> world -> Prop) w :
  (forall w1, balanced w w1 ->
     wp m (fun r w2 => forall w3, balanced w2 w3 -> w_errno w3 = w_errno w -> Q r w3) w1) ->
  wp (preserving_errors m) Q w.
Proof.
  intros Hm. unfold preserving_errors, ep_last_err, ep_set_errno. wsteps.
  eapply wp_mono; [apply Hm; do 2 (apply balanced_more; [|done]); reflexivity|].
  intros r w2 HQ. wsteps. apply HQ; [|done].
  etrans; [|apply balanced_quiet; [apply quiet_error|done]]. do 2 (apply balanced_more; [|done]). reflexivity.
Qed.

Section ProbeSpec.
Context (a port : addr).
Lemma probing_balanced w w' : balanced w w' -> probing a port w -> probing a port w'.
Proof.
  intros [Hq _] [Hr Hp]. split; [by apply (level_quiet_within a port w w' Hq)|].
  unfold probe_platform. by rewrite (quiet_os _ _ Hq).
Qed.

(** Duplicate, probe, close. *)
Lemma udp_bracket ev w : probing a port w ->
  wp (h <- os DuplicatedHandle ;;
      probe <- udp_probe_handle (Some a) h ev ;;
      (if negb (h =? 0) then os (CloseHandle h) ;; ret tt else ret tt) ;;
      ret probe) (fun _ w' => registered a port w' /\ probe_frame a w w') w.
Proof.
  intros HP. apply wp_bind, wp_os. set (h := w_os w _ _). set (w1 := set w_trace _ w).
  assert (Hq1 : quiet w w1) by apply (quiet_trace w (_ :: w_trace w)).
  assert (Hh1 : holds w w1 [h]) by (apply (holds_open w w w1 []); [apply holds_refl|done]).
  assert (HP1 : probing a port w1) by done.
  apply wp_bind. eapply wp_mono; [by apply udp_probe_handle_framed|].
  intros probe w2 [[Hr2 _] [Hid [Ho Hh2]]].
  assert (h =? 0 = false) as -> by (apply Z.eqb_neq, (proj1 (proj2 HP))). cbn [negb]. wsteps.
  split; [|split; [|split]].
  - apply (id_quiet_within a port w2 _ (quiet_trace w2 (_ :: w_trace w2)) Hr2).
  - etrans; [apply (id_quiet_within a port w w1 Hq1), HP|]. etrans; [exact Hid|].
    apply (id_quiet_within a port w2 _ (quiet_trace w2 (_ :: w_trace w2)) Hr2).
  - sget. by rewrite Ho.
  - eapply holds_close; [|reflexivity]. apply (holds_trans w w1); [by apply (quiet_os _ _ Hq1)|done|done].
Qed.
End ProbeSpec.

(** Qualifying a UDP receive indication with a one-byte peek: whatever the
    platform answers, the probe returns with the request settled, errno as it
    was, the handle that pinned the provider socket closed exactly once, and
    nothing changed but the identity fields of the registration, the failure
    counter and the error channel.  A registration that is not eligible is
    reported as unavailable. *)
Theorem udp_probe_sound a port s w :
  registered a port w -> probe_platform w -> w_socks w !! a = Some s ->
  wp (ep_udp_probe_read_locked (Some a)) (fun probe w' =>
    id_frame a w w' /\ holds w w' [] /\ w_errno w' = w_errno w /\
    (s_async_read_capability s <> EP_SOCKET_ASYNC_READ_SAFE \/ s_udp_afd_qualifier_eligible s = false ->
       probe = EP_UDP_READ_PROBE_UNAVAILABLE)) w.
Proof.
  intros Hr Hpl Hs. pose proof Hr as (s' & p & Hs' & Hport & Hp). assert (s' = s) as -> by congruence.
  unfold ep_udp_probe_read_locked. do 2 wstep. rewrite Hport. apply preserving_wp.
  intros w1 Hb. assert (HP1 : probing a port w1) by (eapply probing_balanced; [exact Hb|by split]).
  pose proof Hb as [Hq _]. pose proof (quiet_socks _ _ Hq) as Hs1. pose proof (quiet_ports _ _ Hq) as Hp1.
  rewrite <- Hs1 in Hs. rewrite <- Hp1 in Hp.
  assert (Hdone : forall probe w2, probe_frame a w1 w2 ->
    (s_async_read_capability s <> EP_SOCKET_ASYNC_READ_SAFE \/ s_udp_afd_qualifier_eligible s = false ->
       probe = EP_UDP_READ_PROBE_UNAVAILABLE) -> registered a port w2 ->
    forall w3, balanced w2 w3 -> w_errno w3 = w_errno w ->
    id_frame a w w3 /\ holds w w3 [] /\ w_errno w3 = w_errno w /\
    (s_async_read_capability s <> EP_SOCKET_ASYNC_READ_SAFE \/ s_udp_afd_qualifier_eligible s = false ->
       probe = EP_UDP_READ_PROBE_UNAVAILABLE)).
  { intros probe w2 Hf Hin Hr2 w3 Hb3 He.
    assert (probe_frame a w w3) as [Hid [_ Hh]]; [|done].
    etrans; [by apply (balanced_id a port)|]. etrans; [exact Hf|]. by apply (balanced_id a port). }
  wsteps. match goal with |- wp (if ?b then _ else _) _ _ => destruct b eqn:E end.
  { apply wp_ret. apply Hdone; [reflexivity|done|apply HP1]. }
  assert (Hel : ~ (s_async_read_capability s <> EP_SOCKET_ASYNC_READ_SAFE \/ s_udp_afd_qualifier_eligible s = false)).
  { rewrite !orb_false_iff, !negb_false_iff, bool_decide_eq_true in E. destruct E as [[[[_ ->] Hc] _] _].
    apply bool_decide_eq_true in Hc. intros [?|?]; done. }
  wsteps. wif; [wsteps|].
  { assert (Hb2 : balanced w1 (w1 <| w_trace ::= cons (DuplicateHandle (s_base_socket s)) |>
      <| w_trace ::= cons GetLastError |>)) by (do 2 (apply balanced_more; [|done]); reflexivity).
    apply Hdone; [by apply (balanced_id a port), HP1|done|]. by apply (probing_balanced a port w1). }
  set (w2 := set w_trace _ w1).
  assert (Hb2 : balanced w1 w2) by (apply balanced_more; [reflexivity|done]).
  assert (HP2 : probing a port w2) by (by eapply probing_balanced).
  eapply wp_mono; [by apply (udp_bracket a port)|]. intros probe w3 [Hr3 Hf].
  apply Hdone; [|done|done]. etrans; [|exact Hf]. by apply (balanced_id a port), HP1.
Qed.

(** A TCP registration for IN whose peer has sent data; a UDP one with nothing
    queued, so that the peek is cancelled. *)
Definition tcp_sock : ep_sock :=
  zero_sock <| s_fd := 5 |> <| s_port := Some 2%positive |> <| s_user_events := EPOLLIN |>
    <| s_socket_protocol := EP_SOCKET_PROTOCOL_TCP |>.
Definition udp_sock : ep_sock :=
  zero_sock <| s_fd := 6 |> <| s_port := Some 2%positive |> <| s_base_socket := 6 |>
    <| s_socket_protocol := EP_SOCKET_PROTOCOL_UDP |> <| s_udp_afd_qualifier_eligible := true |>
    <| s_async_read_capability := EP_SOCKET_ASYNC_READ_SAFE |>.
Definition level_world : world :=
  empty_world
    <| w_socks := {[ 1%positive := tcp_sock; 3%positive := udp_sock ]} |>
    <| w_ports := {[ 2%positive := zero_port <| p_udp_probe_event := 9 |> ]} |>
    <| w_os := fun _ r => match r with
                          | WSAPollRevents => POLLRDNORM
                          | DuplicateHandle _ | ResetEvent _ => 1
                          | DuplicatedHandle => 77
                          | QueryFileInformation => sizeof_file_mode_information
                          | WaitForSingleObject _ ms => if ms =? 0 then 258 else 0
                          | _ => 0
                          end |>.

Lemma merge_levels_sound_witness :
  result (ep_socket_merge_current_levels (Some 1%positive) 0) level_world = Some (Some POLLRDNORM, EPOLLIN) /\
  exists r w', ep_socket_merge_current_levels (Some 1%positive) 0 level_world = Some (r, w') /\
    merge_ok EPOLLIN 0 r.
Proof.
  split; [vm_compute; reflexivity|].
  destruct (merge_levels_sound 1%positive 2%positive tcp_sock level_world 0)
    as (r & w' & Hrun & _ & Hm & _); [by eexists _, _|reflexivity|].
  exists r, w'. split; [exact Hrun|exact Hm].
Defined.

Lemma udp_probe_sound_witness :
  exists probe w', ep_udp_probe_read_locked (Some 3%positive) level_world = Some (probe, w') /\
    holds level_world w' [] /\ closed_by (w_trace w') = [77].
Proof.
  destruct (udp_probe_sound 3%positive 2%positive udp_sock level_world)
    as (probe & w' & Hrun & _ & Hh & _); [by eexists _, _|split; intros; [discriminate|reflexivity]|reflexivity|].
  exists probe, w'. split; [exact Hrun|]. split; [exact Hh|].
  assert (w' = exec (ep_udp_probe_read_locked (Some 3%positive)) level_world) as ->
    by (unfold exec; by rewrite Hrun). vm_compute. reflexivity.
Defined.
