(* ===== verification/Keeps.v ===== *)
(** * What a run keeps

    Partial correctness for the registration handlers: [Keeps R m] says that
    every run of [m] that returns relates its states by [R].  The instances
    follow the syntax of an action down to its writes, so a frame of a large
    handler costs one line.  [core] is the part of the state that decides
    accounting and delivery; the helpers of every component keep it. *)
From S2P Require Import Prelude Codes Types Errno Fault Links Pool ReadyQueue Quiet Readiness.
From S2P Require Import Exclusive FdTable Worklists Timeout Iocp Provider PollKeys AfdOps Groups Pipe.
From S2P Require Import Targets Levels.

Class Keeps (R : relation world) {A} (m : MW A) : Prop := keeps w r w' : m w = Some (r, w') -> R w w'.
#[export] Hint Mode Keeps ! - ! : typeclass_instances.

Section Keeps.
Context (R : relation world) `{HR : !PreOrder R} {A B : Type}.
Lemma bind_keeps (m : MW A) (k : A -> MW B) : Keeps R m -> (forall a, Keeps R (k a)) -> Keeps R (bind m k).
Proof.
  intros Hm Hk w r w' (a & w1 & H1 & H2)%bind_inv. etrans; [by eapply Hm|by eapply Hk].
Qed.
#[export] Instance ret_keeps (a : A) : Keeps R (ret a).
Proof. intros w r w' [-> ->]%ret_inv. reflexivity. Qed.
#[export] Instance get_keeps (f : world -> A) : Keeps R (get f).
Proof. intros w r w' [-> ->]%get_inv. reflexivity. Qed.
#[export] Instance stuck_keeps : Keeps R (@stuck world A).
Proof. done. Qed.
#[export] Instance assert_keeps b : Keeps R (assertM b).
Proof. intros w r w' [_ ->]%assertM_inv. reflexivity. Qed.
#[export] Instance rd_keeps {T : Type} (H : world -> gmap addr A) p (f : A -> T) : Keeps R (rd H p f).
Proof. intros w r w' (a & x & -> & _ & _ & ->)%rd_inv. reflexivity. Qed.
End Keeps.

(** ** The core *)

Definition sock_core (s : ep_sock) :=
  (s_port s, s_kind s, s_fd s, s_user_events s, s_user_flags s, s_poll_status s, s_delete_pending s,
   s_ready_queued s, s_user_data s, s_user_ctx s).
Definition port_core (p : ep_port) :=
  (p_pending_poll_count p, p_explicit_rearm p, p_active_wait_epoch p, p_ready_queue p).

(** Registrations and ports agree on the core. *)
Definition acore (w w' : world) : Prop :=
  sock_core <$> w_socks w' = sock_core <$> w_socks w /\ port_core <$> w_ports w' = port_core <$> w_ports w.
(** And the ready nodes are the same. *)
Definition core (w w' : world) : Prop := acore w w' /\ w_nodes w' = w_nodes w.

#[export] Instance acore_preorder : PreOrder acore.
Proof.
  split; [by intros w|]. intros w1 w2 w3 [? ?] [? ?]. split; congruence.
Qed.
#[export] Instance core_preorder : PreOrder core.
Proof.
  split; [intros w; by split|]. intros w1 w2 w3 [? ?] [? ?]. split; [by etrans|congruence].
Qed.
#[export] Instance core_acore {A} (m : MW A) : Keeps core m -> Keeps acore m | 100.
Proof. intros Hm w r w' H. by apply (Hm w r w' H). Qed.

(** Writes outside the core. *)
Lemma wr_socks_core {T} p (f : ep_sock -> T) `{!Setter f} v :
  (forall s, sock_core (s <| f := v |>) = sock_core s) -> Keeps core (wr w_socks p f v).
Proof.
  intros Hf w r w' (a & s & -> & Hs & ->)%wr_inv. split; [|done]. split; [|done]. sget.
  by apply (fmap_insert_same sock_core _ _ s).
Qed.
Lemma wr_ports_core {T} p (f : ep_port -> T) `{!Setter f} v :
  (forall q, port_core (q <| f := v |>) = port_core q) -> Keeps core (wr w_ports p f v).
Proof.
  intros Hf w r w' (a & s & -> & Hs & ->)%wr_inv. split; [|done]. split; [done|]. sget.
  by apply (fmap_insert_same port_core _ _ s).
Qed.

(** Heaps and globals outside the core. *)
Class Outside {T} (f : world -> T) `{!Setter f} : Prop := outside w v : core w (w <| f := v |>).
#[export] Hint Extern 1 (Outside _) => (intros ? ?; repeat split; reflexivity) : typeclass_instances.
Section Outside.
Context {R T : Type} (H : world -> gmap addr R) `{!Setter H} `{HO : !Outside H}.
#[export] Instance wr_outside p (f : R -> T) `{!Setter f} v : Keeps core (wr H p f v).
Proof. intros w r w' (a & s & -> & Hs & ->)%wr_inv. apply HO. Qed.
#[export] Instance st_outside p v : Keeps core (st H p v).
Proof. intros w r w'. unfold st. destruct p; [|done]. case_match; [|done]. intros [= <- <-]. apply HO. Qed.
#[export] Instance del_outside p : Keeps core (del H p).
Proof.
  intros w r w'. unfold del. destruct p; [|intros [= <- <-]; reflexivity].
  case_match; [|done]. intros [= <- <-]. apply HO.
Qed.
End Outside.
#[export] Instance put_outside {T} (f : world -> T) `{!Setter f} `{!Outside f} v : Keeps core (put f v).
Proof. intros w r w' ->%put_inv. apply outside. Qed.
#[export] Instance os_core r : Keeps core (os r).
Proof. intros w x w' [= <- <-]. by repeat split. Qed.
#[export] Instance alloc_outside {R} (H : world -> gmap addr R) `{!Setter H} `{HO : !Outside H} n v :
  Keeps core (alloc H n v).
Proof.
  unfold alloc. apply bind_keeps; [apply _|apply _|]. intros a w r w'.
  case_match; [intros [= <- <-]; reflexivity|]. case_match; intros [= <- <-]; [reflexivity|apply HO].
Qed.

#[export] Hint Extern 1 (Keeps core (wr w_socks _ _ _)) =>
  (notypeclasses refine (wr_socks_core _ _ _ _); intros ?; reflexivity) : typeclass_instances.
#[export] Hint Extern 1 (Keeps core (wr w_ports _ _ _)) =>
  (notypeclasses refine (wr_ports_core _ _ _ _); intros ?; reflexivity) : typeclass_instances.

Ltac keeping_step :=
  cbv zeta; lazymatch goal with
  | |- Keeps _ (bind _ _) => notypeclasses refine (@bind_keeps _ _ _ _ _ _ _ _); [typeclasses eauto| |intros ?]
  | |- Keeps _ (if ?b then _ else _) => destruct b
  | |- Keeps _ (let '(_, _) := ?p in _) => destruct p
  | |- Keeps _ (match ?o with _ => _ end) => destruct o
  | |- Keeps _ _ => typeclasses eauto
  end.
Ltac keeping := repeat keeping_step.

#[export] Hint Opaque bind ret get put os rd wr st del alloc stuck assertM core acore : typeclass_instances.

(** Compound actions are followed too. *)
#[export] Hint Extern 20 (Keeps _ _) =>
  lazymatch goal with
  | |- Keeps _ (bind _ _) => solve [keeping]
  | |- Keeps _ (if _ then _ else _) => solve [keeping]
  | |- Keeps _ (match _ with _ => _ end) => solve [keeping]
  end : typeclass_instances.

(** Errors and faults. *)
#[export] Instance ep_set_errno_core e : Keeps core (ep_set_errno e).
Proof. unfold ep_set_errno. keeping. Qed.
#[export] Instance ep_set_native_error_core a b c : Keeps core (ep_set_native_error a b c).
Proof. unfold ep_set_native_error, upd_last_error. keeping. Qed.
#[export] Instance ep_set_win32_error_core e : Keeps core (ep_set_win32_error e).
Proof. unfold ep_set_win32_error. keeping. Qed.
#[export] Instance ep_set_winsock_error_core e : Keeps core (ep_set_winsock_error e).
Proof. unfold ep_set_winsock_error, upd_last_error. keeping. Qed.
#[export] Instance ep_ntstatus_to_winerr_core s : Keeps core (ep_ntstatus_to_winerr s).
Proof. unfold ep_ntstatus_to_winerr. keeping. Qed.
#[export] Instance ep_set_ntstatus_error_core s : Keeps core (ep_set_ntstatus_error s).
Proof. unfold ep_set_ntstatus_error, ep_status_to_errno. keeping. Qed.
#[export] Instance ep_last_err_core : Keeps core (ep_last_err).
Proof. unfold ep_last_err. keeping. Qed.
#[export] Instance ep_get_last_error_info_core : Keeps core (ep_get_last_error_info).
Proof. unfold ep_get_last_error_info. keeping. Qed.
#[export] Instance ep_restore_last_error_info_core i : Keeps core (ep_restore_last_error_info i).
Proof. unfold ep_restore_last_error_info. keeping. Qed.
#[export] Instance fault_count_hit_core p : Keeps core (fault_count_hit p).
Proof. unfold fault_count_hit, fault_slot, put_fault_slot. keeping. Qed.
#[export] Instance ep_fault_hit_core p : Keeps core (ep_fault_hit p).
Proof. unfold ep_fault_hit. keeping. Qed.
#[export] Instance ep_fault_hit_through_core p : Keeps core (ep_fault_hit_through p).
Proof. unfold ep_fault_hit_through. keeping. Qed.

(** Work lists and the descriptor table. *)
#[export] Instance ep_sock_set_needs_rearm_locked_core s b : Keeps core (ep_sock_set_needs_rearm_locked s b).
Proof. unfold ep_sock_set_needs_rearm_locked, set_flag_locked, list_append_locked, list_remove_locked. keeping. Qed.
#[export] Instance ep_sock_set_oneshot_fired_locked_core s b : Keeps core (ep_sock_set_oneshot_fired_locked s b).
Proof. unfold ep_sock_set_oneshot_fired_locked, set_flag_locked, list_append_locked, list_remove_locked. keeping. Qed.
#[export] Instance ep_rearm_list_rotate_locked_core p s : Keeps core (ep_rearm_list_rotate_locked p s).
Proof. unfold ep_rearm_list_rotate_locked, list_rotate_locked, list_append_locked, list_remove_locked. keeping. Qed.
#[export] Instance ep_oneshot_list_rotate_locked_core p s : Keeps core (ep_oneshot_list_rotate_locked p s).
Proof. unfold ep_oneshot_list_rotate_locked, list_rotate_locked, list_append_locked, list_remove_locked. keeping. Qed.
#[export] Instance ep_sock_list_remove_locked_core p s : Keeps core (ep_sock_list_remove_locked p s).
Proof. unfold ep_sock_list_remove_locked. keeping. Qed.
#[export] Instance ep_sock_list_add_locked_core p s : Keeps core (ep_sock_list_add_locked p s).
Proof. unfold ep_sock_list_add_locked. keeping. Qed.
#[export] Instance fd_lookup_loop_core n : forall t i fd, Keeps core (fd_lookup_loop n t i fd).
Proof. induction n; intros; cbn [fd_lookup_loop]; keeping. Qed.
#[export] Instance ep_fd_table_lookup_core p fd : Keeps core (ep_fd_table_lookup p fd).
Proof. unfold ep_fd_table_lookup. keeping. Qed.
#[export] Instance fd_place_core t s : Keeps core (fd_place t s).
Proof. unfold fd_place. keeping. Qed.
#[export] Instance fd_compact_core n : forall t i, Keeps core (fd_compact n t i).
Proof. induction n; intros; cbn [fd_compact]; keeping. Qed.
#[export] Instance ep_fd_table_remove_core p s : Keeps core (ep_fd_table_remove p s).
Proof. unfold ep_fd_table_remove. keeping. Qed.

(** Exclusive claims. *)
#[export] Instance get_bucket_core b : Keeps core (get_bucket b).
Proof. intros w r w'. unfold get_bucket. repeat case_match; intros E; simplify_eq; reflexivity. Qed.
#[export] Instance set_bucket_core b v : Keeps core (set_bucket b v).
Proof. intros w r w'. unfold set_bucket. repeat case_match; intros E; simplify_eq; by repeat split. Qed.
#[export] Instance ep_exclusive_unlink_locked_core s : Keeps core (ep_exclusive_unlink_locked s).
Proof. unfold ep_exclusive_unlink_locked. keeping. Qed.
#[export] Instance ep_exclusive_remove_classes_locked_core s c : Keeps core (ep_exclusive_remove_classes_locked s c).
Proof. unfold ep_exclusive_remove_classes_locked. keeping. Qed.
#[export] Instance exclusive_drop_stale_core s b : Keeps core (exclusive_drop_stale s b).
Proof. unfold exclusive_drop_stale. keeping. Qed.
#[export] Instance exclusive_link_core s b : Keeps core (exclusive_link s b).
Proof. unfold exclusive_link. keeping. Qed.
#[export] Instance ep_exclusive_add_classes_locked_core s b c : Keeps core (ep_exclusive_add_classes_locked s b c).
Proof. unfold ep_exclusive_add_classes_locked. keeping. Qed.
#[export] Instance exclusive_scan_loop_core n : forall s b c p a, Keeps core (exclusive_scan_loop n s b c p a).
Proof. induction n; intros; cbn [exclusive_scan_loop]; keeping. Qed.
#[export] Instance exclusive_remove_loop_core n : forall b c p, Keeps core (exclusive_remove_loop n b c p).
Proof. induction n; intros; cbn [exclusive_remove_loop]; keeping. Qed.
#[export] Instance exclusive_remove_all_core b c : Keeps core (exclusive_remove_all b c).
Proof. unfold exclusive_remove_all. keeping. Qed.
#[export] Instance claim_decide_core s b d a : Keeps core (claim_decide s b d a).
Proof. unfold claim_decide. keeping. Qed.
#[export] Instance ep_exclusive_try_claim_core s d : Keeps core (ep_exclusive_try_claim s d).
Proof. unfold ep_exclusive_try_claim. keeping. Qed.
#[export] Instance ep_exclusive_release_owner_core s : Keeps core (ep_exclusive_release_owner s).
Proof. unfold ep_exclusive_release_owner. keeping. Qed.
#[export] Instance ep_exclusive_release_quiescent_core s e : Keeps core (ep_exclusive_release_quiescent s e).
Proof. unfold ep_exclusive_release_quiescent. keeping. Qed.
#[export] Instance ep_exclusive_release_inactive_core s c : Keeps core (ep_exclusive_release_inactive s c).
Proof. unfold ep_exclusive_release_inactive. keeping. Qed.

(** Completion-port posts. *)
#[export] Instance ep_port_post_iocp_core p k o f : Keeps core (ep_port_post_iocp p k o f).
Proof. unfold ep_port_post_iocp. keeping. Qed.
#[export] Instance ep_port_revoke_iocp_posts_core p : Keeps core (ep_port_revoke_iocp_posts p).
Proof. unfold ep_port_revoke_iocp_posts. keeping. Qed.
#[export] Instance ep_port_fail_iocp_post_core p e : Keeps core (ep_port_fail_iocp_post p e).
Proof. unfold ep_port_fail_iocp_post. keeping. Qed.
#[export] Instance ep_aux_post_completion_core s st : Keeps core (ep_aux_post_completion s st).
Proof. unfold ep_aux_post_completion. keeping. Qed.
#[export] Instance ep_port_record_async_error_locked_core p e : Keeps core (ep_port_record_async_error_locked p e).
Proof. unfold ep_port_record_async_error_locked. keeping. Qed.
#[export] Instance ep_now_ns_core p : Keeps core (ep_now_ns p).
Proof. unfold ep_now_ns. keeping. Qed.

(** Identity, provider and targets. *)
#[export] Instance ep_socket_ioctl_handle_core s c e : Keeps core (ep_socket_ioctl_handle s c e).
Proof. unfold ep_socket_ioctl_handle. keeping. Qed.
#[export] Instance base_fallback_core cur v codes : forall saw, Keeps core (base_fallback ep_socket_ioctl_handle cur v codes saw).
Proof. induction codes; intros; cbn [base_fallback]; keeping. Qed.
#[export] Instance base_loop_core n : forall cur v, Keeps core (base_loop ep_socket_ioctl_handle n cur v).
Proof. induction n; intros; cbn [base_loop]; keeping. Qed.
#[export] Instance ep_socket_get_base_core s : Keeps core (ep_socket_get_base s).
Proof. unfold ep_socket_get_base, ep_socket_get_base_with_ioctl. keeping. Qed.
#[export] Instance ep_socket_get_protocol_core s : Keeps core (ep_socket_get_protocol s).
Proof. unfold ep_socket_get_protocol, read_protocol_info. keeping. Qed.
#[export] Instance ep_socket_ioctl_endpoint_id_core s c : Keeps core (ep_socket_ioctl_endpoint_id s c).
Proof. unfold ep_socket_ioctl_endpoint_id. keeping. Qed.
#[export] Instance ep_socket_get_endpoint_id_core s : Keeps core (ep_socket_get_endpoint_id s).
Proof. unfold ep_socket_get_endpoint_id, ep_socket_get_endpoint_id_with_ioctl. keeping. Qed.
#[export] Instance ep_socket_identity_is_stable_core fd : Keeps core (ep_socket_identity_is_stable fd).
Proof. unfold ep_socket_identity_is_stable. keeping. Qed.
#[export] Instance probe_live_core fd : Keeps core (probe_live fd).
Proof. unfold probe_live. keeping. Qed.
#[export] Instance stabilize_core s : Keeps core (stabilize s).
Proof. unfold stabilize. keeping. Qed.
#[export] Instance identity_failure_core s e : Keeps core (identity_failure s e).
Proof. unfold identity_failure. keeping. Qed.
#[export] Instance ep_sock_validate_identity_locked_core s b : Keeps core (ep_sock_validate_identity_locked s b).
Proof. unfold ep_sock_validate_identity_locked. keeping. Qed.
#[export] Instance ep_sock_validate_identity_for_delivery_locked_core p s : Keeps core (ep_sock_validate_identity_for_delivery_locked p s).
Proof. unfold ep_sock_validate_identity_for_delivery_locked. keeping. Qed.
#[export] Instance query_file_mode_core h : Keeps core (query_file_mode h).
Proof. unfold query_file_mode. keeping. Qed.
#[export] Instance preserving_core {A} (m : MW A) : Keeps core m -> Keeps core (preserving_errors m).
Proof. intros Hm. unfold preserving_errors. keeping. Qed.
#[export] Instance ep_event_waitable_semantics_core h : Keeps core (ep_event_waitable_semantics h).
Proof. unfold ep_event_waitable_semantics. keeping. Qed.
#[export] Instance ep_handle_wait_access_core h : Keeps core (ep_handle_wait_access h).
Proof. unfold ep_handle_wait_access. keeping. Qed.
#[export] Instance ep_handle_waitability_core h t : Keeps core (ep_handle_waitability h t).
Proof. unfold ep_handle_waitability. keeping. Qed.
#[export] Instance ep_pipe_query_access_core h : Keeps core (ep_pipe_query_access h).
Proof. unfold ep_pipe_query_access. keeping. Qed.
#[export] Instance ep_pipe_has_synchronous_io_core h : Keeps core (ep_pipe_has_synchronous_io h).
Proof. unfold ep_pipe_has_synchronous_io. apply preserving_core. keeping. Qed.
#[export] Instance classify_handle_core h : Keeps core (classify_handle h).
Proof. unfold classify_handle. keeping. Qed.
#[export] Instance ep_target_probe_core fd : Keeps core (ep_target_probe fd).
Proof. unfold ep_target_probe. keeping. Qed.

(** Samples. *)
#[export] Instance select_one_core fd b : Keeps core (select_one fd b).
Proof. unfold select_one. keeping. Qed.
#[export] Instance ep_socket_select_ready_core fd b : Keeps core (ep_socket_select_ready fd b).
Proof. unfold ep_socket_select_ready. keeping. Qed.
#[export] Instance ep_socket_select_priority_ready_core fd : Keeps core (ep_socket_select_priority_ready fd).
Proof. unfold ep_socket_select_priority_ready. keeping. Qed.
#[export] Instance ep_socket_poll_current_core s : Keeps core (ep_socket_poll_current s).
Proof. unfold ep_socket_poll_current, count. apply preserving_core. keeping. Qed.
#[export] Instance selected_levels_core fd u d : Keeps core (selected_levels fd u d).
Proof. unfold selected_levels. keeping. Qed.
#[export] Instance ep_socket_merge_current_levels_core s d : Keeps core (ep_socket_merge_current_levels s d).
Proof. unfold ep_socket_merge_current_levels, count. keeping. Qed.
#[export] Instance ep_sock_merge_local_shutdown_locked_core s l : Keeps core (ep_sock_merge_local_shutdown_locked s l).
Proof. unfold ep_sock_merge_local_shutdown_locked. keeping. Qed.
#[export] Instance socket_async_read_capability_core s : Keeps core (socket_async_read_capability s).
Proof. unfold socket_async_read_capability. apply preserving_core. keeping. Qed.
#[export] Instance udp_peek_core h e : Keeps core (udp_peek h e).
Proof. unfold udp_peek. keeping. Qed.
#[export] Instance udp_probe_handle_core s h e : Keeps core (udp_probe_handle s h e).
Proof. unfold udp_probe_handle. keeping. Qed.
#[export] Instance ep_udp_probe_read_locked_core s : Keeps core (ep_udp_probe_read_locked s).
Proof.
  unfold ep_udp_probe_read_locked. keeping_step; [keeping|]. apply preserving_core. keeping.
Qed.
#[export] Instance pipe_write_probe_core s : Keeps core (pipe_write_probe s).
Proof. unfold pipe_write_probe. keeping. Qed.
#[export] Instance ep_pipe_fallback_snapshot_core s : Keeps core (ep_pipe_fallback_snapshot s).
Proof. unfold ep_pipe_fallback_snapshot. keeping. Qed.
#[export] Instance ep_pipe_snapshot_core s : Keeps core (ep_pipe_snapshot s).
Proof. unfold ep_pipe_snapshot. keeping. Qed.
#[export] Instance ep_pipe_et_events_core s n : Keeps core (ep_pipe_et_events s n).
Proof. unfold ep_pipe_et_events. keeping. Qed.
#[export] Instance callback_idle_loop_core n : forall s, Keeps core (callback_idle_loop n s).
Proof. induction n; intros; cbn [callback_idle_loop]; keeping. Qed.
#[export] Instance ep_aux_wait_callback_idle_core s : Keeps core (ep_aux_wait_callback_idle s).
Proof. unfold ep_aux_wait_callback_idle. keeping. Qed.
#[export] Instance aux_disarm_core r s : Keeps core (aux_disarm r s).
Proof. unfold aux_disarm. keeping. Qed.
#[export] Instance ep_waitable_unregister_locked_core s : Keeps core (ep_waitable_unregister_locked s).
Proof. unfold ep_waitable_unregister_locked. keeping. Qed.
#[export] Instance ep_pipe_delete_timer_locked_core s : Keeps core (ep_pipe_delete_timer_locked s).
Proof. unfold ep_pipe_delete_timer_locked. keeping. Qed.
#[export] Instance ep_waitable_register_locked_core s : Keeps core (ep_waitable_register_locked s).
Proof. unfold ep_waitable_register_locked. keeping. Qed.
#[export] Instance ep_pipe_schedule_locked_core s l : Keeps core (ep_pipe_schedule_locked s l).
Proof. unfold ep_pipe_schedule_locked. keeping. Qed.
#[export] Instance ep_sock_explicit_rearm_enabled_core s : Keeps core (ep_sock_explicit_rearm_enabled s).
Proof. unfold ep_sock_explicit_rearm_enabled. keeping. Qed.
#[export] Instance ep_sock_afd_events_for_state_locked_core s u p d : Keeps core (ep_sock_afd_events_for_state_locked s u p d).
Proof. unfold ep_sock_afd_events_for_state_locked. keeping. Qed.
#[export] Instance ep_sock_afd_events_locked_core s u : Keeps core (ep_sock_afd_events_locked s u).
Proof. unfold ep_sock_afd_events_locked. keeping. Qed.

(** AFD groups and poll targets. *)
#[export] Instance ep_afd_open_core h : Keeps core (ep_afd_open h).
Proof. unfold ep_afd_open. keeping. Qed.
#[export] Instance ep_afd_group_remove_available_locked_core p g : Keeps core (ep_afd_group_remove_available_locked p g).
Proof. unfold ep_afd_group_remove_available_locked. keeping. Qed.
#[export] Instance ep_afd_group_add_available_locked_core p g : Keeps core (ep_afd_group_add_available_locked p g).
Proof. unfold ep_afd_group_add_available_locked. keeping. Qed.
#[export] Instance group_create_core p : Keeps core (group_create p).
Proof. unfold group_create. keeping. Qed.
#[export] Instance group_take_core p s g : Keeps core (group_take p s g).
Proof. unfold group_take. keeping. Qed.
#[export] Instance ep_sock_acquire_afd_group_locked_core s : Keeps core (ep_sock_acquire_afd_group_locked s).
Proof. unfold ep_sock_acquire_afd_group_locked. keeping. Qed.
#[export] Instance group_destroy_core p g : Keeps core (group_destroy p g).
Proof. unfold group_destroy. keeping. Qed.
#[export] Instance ep_sock_release_afd_group_locked_core s : Keeps core (ep_sock_release_afd_group_locked s).
Proof. unfold ep_sock_release_afd_group_locked. keeping. Qed.
#[export] Instance key_head_core b : Keeps core (key_head b).
Proof. intros w r w'. unfold key_head. repeat case_match; intros E; simplify_eq; reflexivity. Qed.
#[export] Instance set_key_head_core b v : Keeps core (set_key_head b v).
Proof. intros w r w'. unfold set_key_head. repeat case_match; intros E; simplify_eq; by repeat split. Qed.
#[export] Instance ep_afd_error_state_save_core : Keeps core (ep_afd_error_state_save).
Proof. unfold ep_afd_error_state_save. keeping. Qed.
#[export] Instance ep_afd_error_state_restore_core e : Keeps core (ep_afd_error_state_restore e).
Proof. unfold ep_afd_error_state_restore. keeping. Qed.
#[export] Instance key_active_loop_core n : forall k p, Keeps core (key_active_loop n k p).
Proof. induction n; intros; cbn [key_active_loop]; keeping. Qed.
#[export] Instance ep_afd_poll_key_is_active_locked_core b k : Keeps core (ep_afd_poll_key_is_active_locked b k).
Proof. unfold ep_afd_poll_key_is_active_locked. keeping. Qed.
#[export] Instance read_link_core b l : Keeps core (read_link b l).
Proof. unfold read_link. keeping. Qed.
#[export] Instance write_link_core b l v : Keeps core (write_link b l v).
Proof. unfold write_link. keeping. Qed.
#[export] Instance key_link_loop_core n : forall b l s, Keeps core (key_link_loop n b l s).
Proof. induction n; intros; cbn [key_link_loop]; keeping. Qed.
#[export] Instance ep_afd_poll_key_release_locked_core b s : Keeps core (ep_afd_poll_key_release_locked b s).
Proof. unfold ep_afd_poll_key_release_locked. keeping. Qed.
#[export] Instance ep_afd_poll_key_insert_locked_core b s k : Keeps core (ep_afd_poll_key_insert_locked b s k).
Proof. unfold ep_afd_poll_key_insert_locked. keeping. Qed.
#[export] Instance ep_afd_poll_key_try_claim_core s k : Keeps core (ep_afd_poll_key_try_claim s k).
Proof. unfold ep_afd_poll_key_try_claim. keeping. Qed.
#[export] Instance collision_grow_core n c : Keeps core (collision_grow n c).
Proof. unfold collision_grow. keeping. Qed.
#[export] Instance key_claim_loop_core n : forall s b l c, Keeps core (key_claim_loop n s b l c).
Proof. induction n; intros; cbn [key_claim_loop]; keeping. Qed.
#[export] Instance close_handles_core l : Keeps core (close_handles l).
Proof. induction l; cbn [close_handles]; keeping. Qed.
#[export] Instance ep_afd_poll_key_claim_core n s b : Keeps core (ep_afd_poll_key_claim n s b).
Proof. unfold ep_afd_poll_key_claim. keeping. Qed.
#[export] Instance ep_afd_poll_key_release_core s : Keeps core (ep_afd_poll_key_release s).
Proof. unfold ep_afd_poll_key_release. keeping. Qed.
#[export] Instance key_reserve_core t b : Keeps core (key_reserve t b).
Proof. unfold key_reserve. keeping. Qed.
#[export] Instance ep_afd_poll_duplicate_finish_core s b : Keeps core (ep_afd_poll_duplicate_finish s b).
Proof. unfold ep_afd_poll_duplicate_finish. keeping. Qed.
#[export] Instance ep_afd_poll_duplicate_abandon_core s : Keeps core (ep_afd_poll_duplicate_abandon s).
Proof. unfold ep_afd_poll_duplicate_abandon. keeping. Qed.

(** Buffer pools. *)
#[export] Instance ep_pool_entry_alloc_core p b : Keeps core (ep_pool_entry_alloc p b).
Proof. unfold ep_pool_entry_alloc. keeping. Qed.
#[export] Instance pool_account_take_core p e : Keeps core (pool_account_take p e).
Proof. unfold pool_account_take. keeping. Qed.
#[export] Instance ep_afd_pool_take_core p : Keeps core (ep_afd_pool_take p).
Proof. unfold ep_afd_pool_take. keeping. Qed.
#[export] Instance ep_afd_pool_give_core p b : Keeps core (ep_afd_pool_give p b).
Proof. unfold ep_afd_pool_give. keeping. Qed.
#[export] Instance ep_ready_node_free_core p n : Keeps core (ep_ready_node_free p n).
Proof. unfold ep_ready_node_free. keeping. Qed.

(** Poll requests, without the status. *)
#[export] Instance submit_handle_core s : Keeps core (submit_handle s).
Proof. unfold submit_handle. keeping. Qed.
#[export] Instance submit_buffer_core s : Keeps core (submit_buffer s).
Proof. unfold submit_buffer. keeping. Qed.
#[export] Instance submit_base_core s : Keeps core (submit_base s).
Proof. unfold submit_base. keeping. Qed.
#[export] Instance put_info_core i v : Keeps core (put_info i v).
Proof. unfold put_info. keeping. Qed.
#[export] Instance submit_release_core s b : Keeps core (submit_release s b).
Proof. unfold submit_release. keeping. Qed.
#[export] Instance submit_ioctl_core h s i t e : Keeps core (submit_ioctl h s i t e).
Proof. unfold submit_ioctl. keeping. Qed.
