(* ===== verification/Registration.v ===== *)
(** * Registrations

    [src/wepoll_ex_port.c], 2654-2775, 3013-3175 and 3267-3790: the life of a
    registration - allocation, submission of its poll or auxiliary wait,
    cancellation, retirement and release.  The functions run under the port's
    [fd_table_lock]; a registration is named by its address. *)
From S2P Require Import Prelude Codes Types Errno Fault Links Pool ReadyQueue Quiet Readiness.
From S2P Require Import Exclusive FdTable Worklists Timeout Iocp Provider PollKeys AfdOps Groups Pipe.
From S2P Require Import Targets Levels.

Definition WAIT_FAILED : Z := 2 ^ 32 - 1.

(** ** Small steps *)

(** [sock->generation = ++port->next_sock_generation], skipping 0. *)
Definition next_generation (port : ptr) (sock : addr) : MW unit :=
  g <- rd w_ports port p_next_sock_generation ;;
  let g := u64 (g + 1) in
  wr w_ports port p_next_sock_generation g ;;
  wr w_socks (Some sock) s_generation g ;;
  if g =? 0 then
    wr w_ports port p_next_sock_generation 1 ;;
    wr w_socks (Some sock) s_generation 1
  else ret tt.

(** The fields of a ready node taken from the registration. *)
Definition fill_node (node sock : addr) (delivered : Z) : MW unit :=
  data <- rd w_socks (Some sock) s_user_data ;;
  wr w_nodes (Some node) n_data data ;;
  ctx <- rd w_socks (Some sock) s_user_ctx ;;
  wr w_nodes (Some node) n_user_ctx ctx ;;
  fd <- rd w_socks (Some sock) s_fd ;;
  wr w_nodes (Some node) n_fd fd ;;
  generation <- rd w_socks (Some sock) s_generation ;;
  wr w_nodes (Some node) n_sock_generation generation ;;
  wr w_nodes (Some node) n_events delivered ;;
  flags <- rd w_socks (Some sock) s_user_flags ;;
  wr w_nodes (Some node) n_flags
    (orwhen (has flags EPOLLONESHOT) WEPOLL_FLAG_ONESHOT_FIRED
       (orwhen (has flags EPOLLET) (WEPOLL_FLAG_ET_DELIVERED ||| WEPOLL_FLAG_EDGE_ARMED) 0)).
Definition stamp_node (port : ptr) (node : addr) : MW unit :=
  now <- ep_now_ns port ;;
  wr w_nodes (Some node) n_timestamp now.

(** The event is published: the registration is ready and its node queued. *)
Definition publish (port : ptr) (sock node : addr) (delivered : Z) : MW unit :=
  wr w_socks (Some sock) s_pending_events delivered ;;
  wr w_socks (Some sock) s_et_holdoff false ;;
  wr w_socks (Some sock) s_ready_queued true ;;
  wr w_socks (Some sock) s_state EP_SOCK_READY ;;
  queue <- rd w_ports port p_ready_queue ;;
  ep_ready_push queue (Some node).

(** An explicit-rearm delivery disarms its classes. *)
Definition disarm_delivered (sock : addr) (delivered : Z) : MW unit :=
  explicit <- ep_sock_explicit_rearm_enabled (Some sock) ;;
  if explicit : bool then
    classes <- rd w_socks (Some sock) s_explicit_disarmed_classes ;;
    wr w_socks (Some sock) s_explicit_disarmed_classes (classes ||| ep_explicit_delivery_classes delivered)
  else ret tt.

(** ** Completion accounting and cancellation *)

(** A failed assertion aborts the process; the recovery that builds without
    assertions have instead, an asynchronous EIO, is never reached while the
    count of pending polls is right. *)
Definition ep_sock_complete_pending_locked (sock : addr) : MW Z :=
  port <- rd w_socks (Some sock) s_port ;;
  poll_status <- rd w_socks (Some sock) s_poll_status ;;
  pending <- rd w_ports port p_pending_poll_count ;;
  if bool_decide (poll_status = EP_POLL_IDLE) || (pending =? 0) then stuck
  else
    wr w_socks (Some sock) s_poll_status EP_POLL_IDLE ;;
    wr w_ports port p_pending_poll_count (u64 (pending - 1)) ;;
    ret 0.

Definition disarm_aux (sock : addr) : MW Z :=
  kind <- rd w_socks (Some sock) s_kind ;;
  if bool_decide (kind = EP_REG_WAITABLE) then ep_waitable_unregister_locked (Some sock)
  else ep_pipe_delete_timer_locked (Some sock).

Definition is_aux (kind : ep_reg_kind) : bool :=
  bool_decide (kind = EP_REG_WAITABLE) || bool_decide (kind = EP_REG_PIPE).

Definition ep_sock_cancel_locked (sock : addr) : MW Z :=
  poll_status <- rd w_socks (Some sock) s_poll_status ;;
  if negb (bool_decide (poll_status = EP_POLL_PENDING)) then ret 0
  else
    kind <- rd w_socks (Some sock) s_kind ;;
    if is_aux kind then
      failed <- disarm_aux sock ;;
      if negb (failed =? 0) then ret (-1)
      else
        wr w_socks (Some sock) s_pending_events 0 ;;
        posted <- rd w_socks (Some sock) s_completion_posted ;;
        if posted : bool then
          wr w_socks (Some sock) s_poll_status EP_POLL_CANCELLED ;; ret 0
        else
          registration <- rd w_socks (Some sock) s_wait_registration ;;
          assertM (registration =? 0) ;;
          active <- rd w_socks (Some sock) s_callback_active ;;
          assertM (negb active) ;;
          failed <- ep_sock_complete_pending_locked sock ;;
          if negb (failed =? 0) then ret (-1)
          else
            deleted <- rd w_socks (Some sock) s_delete_pending ;;
            port <- rd w_socks (Some sock) s_port ;;
            closing <- rd w_ports port p_closing ;;
            (if negb deleted && negb closing
             then wr w_socks (Some sock) s_state EP_SOCK_REGISTERED else ret tt) ;;
            ret 0
    else
      failed <- ep_afd_cancel (Some sock) ;;
      if negb (failed =? 0) then ret (-1)
      else wr w_socks (Some sock) s_pending_events 0 ;; ret 0.

(** ** Release *)

Definition release_exclusive (sock : addr) : MW unit :=
  flags <- rd w_socks (Some sock) s_user_flags ;;
  if has flags EPOLLEXCLUSIVE then ep_exclusive_release_owner (Some sock) else ret tt.

Definition ep_sock_free_locked (port : ptr) (sock : addr) : MW unit :=
  owned <- rd w_socks (Some sock) s_afd_poll_key_owned ;;
  assertM (negb owned) ;;
  target <- rd w_socks (Some sock) s_afd_poll_target ;;
  assertM (target =? 0) ;;
  reservation <- rd w_socks (Some sock) s_afd_poll_key_reservation ;;
  assertM (reservation =? 0) ;;
  next <- rd w_socks (Some sock) s_afd_poll_key_next ;;
  assertM (bool_decide (next = NULL)) ;;
  ep_sock_release_afd_group_locked (Some sock) ;;
  ep_sock_set_needs_rearm_locked (Some sock) false ;;
  ep_sock_set_oneshot_fired_locked (Some sock) false ;;
  release_exclusive sock ;;
  wr w_socks (Some sock) s_observed_events 0 ;;
  wr w_socks (Some sock) s_pipe_terminal_delivered false ;;
  wr w_socks (Some sock) s_et_holdoff false ;;
  kind <- rd w_socks (Some sock) s_kind ;;
  (if is_aux kind then
     registration <- rd w_socks (Some sock) s_wait_registration ;;
     assertM (registration =? 0) ;;
     active <- rd w_socks (Some sock) s_callback_active ;;
     assertM (negb active) ;;
     posted <- rd w_socks (Some sock) s_completion_posted ;;
     assertM (negb posted)
   else ret tt) ;;
  ep_sock_list_remove_locked port (Some sock) ;;
  info <- rd w_socks (Some sock) s_afd_info ;;
  match info with
  | Some _ =>
    pool <- rd w_ports port p_afd_info_pool ;;
    ep_afd_pool_give pool info ;;
    wr w_socks (Some sock) s_afd_info NULL
  | None => ret tt
  end ;;
  del w_socks (Some sock).

Definition ep_sock_drop_closed_locked (port : ptr) (sock : addr) : MW unit :=
  fd <- rd w_socks (Some sock) s_fd ;;
  found <- ep_fd_table_lookup port fd ;;
  (if bool_decide (found = Some sock) then ep_fd_table_remove port (Some sock) else ret tt) ;;
  release_exclusive sock ;;
  wr w_socks (Some sock) s_delete_pending true ;;
  wr w_socks (Some sock) s_state EP_SOCK_DELETED ;;
  ep_sock_set_needs_rearm_locked (Some sock) false ;;
  ep_sock_set_oneshot_fired_locked (Some sock) false ;;
  next_generation port sock ;;
  poll_status <- rd w_socks (Some sock) s_poll_status ;;
  if bool_decide (poll_status = EP_POLL_IDLE) then ep_sock_free_locked port sock else ret tt.

(** ** Allocation *)

Definition sizeof_ep_sock : Z := 512.

Definition alloc_socket_fields (port : ptr) (sock : addr) (fd : Z) : MW bool :=
  r <- ep_socket_get_protocol fd ;;
  wr w_socks (Some sock) s_udp_afd_qualifier_eligible r.2 ;;
  wr w_socks (Some sock) s_socket_protocol r.1 ;;
  base <- rd w_socks (Some sock) s_base_socket ;;
  (if r.2 then
     capability <- socket_async_read_capability base ;;
     wr w_socks (Some sock) s_async_read_capability capability
   else ret tt) ;;
  r <- ep_socket_get_endpoint_id fd ;;
  let '(identity_result, endpoint_id) := r in
  (if 0 <? identity_result then wr w_socks (Some sock) s_endpoint_id endpoint_id else ret tt) ;;
  if identity_result <? 0 then
    failures <- rd w_ports port p_identity_failures ;;
    wr w_ports port p_identity_failures (u64 (failures + 1)) ;;
    del w_socks (Some sock) ;; ret false
  else
    (if identity_result =? 0 then wr w_socks (Some sock) s_endpoint_id_state EP_SOCKET_ID_UNAVAILABLE
     else
       stable <- ep_socket_identity_is_stable fd ;;
       wr w_socks (Some sock) s_endpoint_id_state
         (if stable : bool then EP_SOCKET_ID_STABLE else EP_SOCKET_ID_TRANSITIONAL)) ;;
    pool <- rd w_ports port p_afd_info_pool ;;
    info <- ep_afd_pool_take pool ;;
    wr w_socks (Some sock) s_afd_info info ;;
    match info with
    | None => del w_socks (Some sock) ;; ret false
    | Some _ => ret true
    end.

Definition ep_sock_alloc_locked (port : ptr) (fd : Z) (target : ep_target_info) : MW ptr :=
  let fail error := ep_set_errno error ;; ret NULL in
  if bool_decide (t_kind target = EP_TARGET_INVALID) then fail EBADF
  else if bool_decide (t_kind target = EP_TARGET_UNSUPPORTED) then fail EPERM
  else if negb (t_registration_error target =? 0) then fail (t_registration_error target)
  else
    sock <- alloc w_socks sizeof_ep_sock zero_sock ;;
    match sock with
    | None => fail ENOMEM
    | Some a =>
      wr w_socks sock s_kind EP_REG_SOCKET ;;
      wr w_socks sock s_wait_registration 0 ;;
      wr w_socks sock s_exclusive_claim_base INVALID_SOCKET ;;
      wr w_socks sock s_base_socket (t_base_socket target) ;;
      usable <-
        (if bool_decide (t_kind target = EP_TARGET_PIPE) then
           wr w_socks sock s_kind EP_REG_PIPE ;;
           wr w_socks sock s_pipe_access (t_pipe_access target) ;;
           wr w_socks sock s_pipe_synchronous_io (t_pipe_synchronous_io target) ;;
           wr w_socks sock s_base_socket fd ;;
           wr w_socks sock s_afd_info NULL ;;
           wr w_socks sock s_endpoint_id 0 ;;
           wr w_socks sock s_endpoint_id_state EP_SOCKET_ID_UNAVAILABLE ;;
           ret true
         else if bool_decide (t_kind target = EP_TARGET_WAITABLE) then
           wr w_socks sock s_kind EP_REG_WAITABLE ;;
           wr w_socks sock s_waitable_semantics (t_waitable_semantics target) ;;
           wr w_socks sock s_base_socket fd ;;
           wr w_socks sock s_afd_info NULL ;;
           wr w_socks sock s_endpoint_id 0 ;;
           wr w_socks sock s_endpoint_id_state EP_SOCKET_ID_UNAVAILABLE ;;
           ret true
         else alloc_socket_fields port a fd) ;;
      if negb usable then ret NULL
      else
        wr w_socks sock s_fd fd ;;
        wr w_socks sock s_port port ;;
        next_generation port a ;;
        wr w_socks sock s_state EP_SOCK_REGISTERED ;;
        wr w_socks sock s_poll_status EP_POLL_IDLE ;;
        wr w_socks sock s_delete_pending false ;;
        wr w_socks sock s_ready_queued false ;;
        wr w_socks sock s_callback_active false ;;
        wr w_socks sock s_completion_posted false ;;
        wr w_socks sock s_waitable_notification_owned false ;;
        ret sock
    end.

(** ** Local shutdown *)

Definition ep_sock_local_shutdown_level_locked (sock : addr) : MW Z :=
  s <- rd w_socks (Some sock) (fun s => s) ;;
  if negb (bool_decide (s_kind s = EP_REG_SOCKET)) ||
     negb (bool_decide (s_socket_protocol s = EP_SOCKET_PROTOCOL_TCP)) || (s_local_shutdown s =? 0)
  then ret 0
  else
    merged <- ep_socket_merge_current_levels (Some sock) 0 ;;
    level <- ep_sock_merge_local_shutdown_locked (Some sock) merged.2 ;;
    let level := Z.land level (s_user_events s ||| EPOLLERR ||| EPOLLHUP) in
    explicit <- ep_sock_explicit_rearm_enabled (Some sock) ;;
    if explicit : bool then
      disarmed <- rd w_socks (Some sock) s_explicit_disarmed_classes ;;
      ret (ep_readiness_filter_classes level disarmed)
    else ret level.

(** [if (node != NULL) ep_ready_node_free(port, node)]. *)
Definition drop_node (port node : ptr) : MW unit :=
  match node with Some _ => ep_ready_node_free port node | None => ret tt end.

(** [ep_fault_hit(EP_FAULT_READY_NODE_ALLOC) == 0 ? ep_ready_node_alloc(port) : NULL]. *)
Definition new_node (port : ptr) : MW ptr :=
  fault <- ep_fault_hit EP_FAULT_READY_NODE_ALLOC ;;
  if fault =? 0 then ep_ready_node_alloc port else ret NULL.

Definition refuse_exclusive (port : ptr) (sock node : addr) : MW unit :=
  ep_ready_node_free port (Some node) ;;
  wr w_socks (Some sock) s_et_holdoff true ;;
  ep_sock_set_needs_rearm_locked (Some sock) true.

(** The exclusive claim of a delivery: whether it was granted, and the events. *)
Definition claim_delivery (sock : addr) (delivered : Z) : MW (bool * Z) :=
  flags <- rd w_socks (Some sock) s_user_flags ;;
  if has flags EPOLLEXCLUSIVE then
    r <- ep_exclusive_try_claim sock delivered ;; ret (negb (r.1 =? 0), r.2)
  else ret (true, delivered).

(** The events to deliver and the edge latch, from the current level. *)
Definition shutdown_edges (flags user_events level observed delivered : Z) : Z * Z :=
  if has flags EPOLLET then
    let interest := user_events ||| EPOLLERR ||| EPOLLHUP in
    let observed := Z.land observed (Z.land level interest) in
    let edge := Z.ldiff level observed in
    (delivered ||| edge, observed ||| edge)
  else (delivered ||| level, observed).

Definition ep_sock_queue_local_shutdown_locked (sock : addr) (node : ptr) : MW Z :=
  port <- rd w_socks (Some sock) s_port ;;
  level <- ep_sock_local_shutdown_level_locked sock ;;
  observed <- rd w_socks (Some sock) s_observed_events ;;
  already_ready <- rd w_socks (Some sock) s_ready_queued ;;
  fired <- rd w_socks (Some sock) s_oneshot_fired ;;
  if negb already_ready && fired then drop_node port node ;; ret 0
  else
    pending <- rd w_socks (Some sock) s_pending_events ;;
    flags <- rd w_socks (Some sock) s_user_flags ;;
    user_events <- rd w_socks (Some sock) s_user_events ;;
    let '(delivered, observed) :=
      shutdown_edges flags user_events level observed (if already_ready : bool then pending else 0) in
    if (delivered =? 0) || (already_ready && (delivered =? pending)) then
      (if has flags EPOLLET then wr w_socks (Some sock) s_observed_events observed else ret tt) ;;
      drop_node port node ;; ret 0
    else
      node <- match node with Some _ => ret node | None => new_node port end ;;
      match node with
      | None =>
        error <- ep_last_err ;;
        (if error =? 0 then ep_set_errno ENOMEM else ret tt) ;;
        ret (-1)
      | Some n =>
        wr w_socks (Some sock) s_observed_events (if has flags EPOLLET then observed else 0) ;;
        claim <- claim_delivery sock delivered ;;
        let '(granted, delivered) := claim in
        if negb granted then refuse_exclusive port sock n ;; ret 0
        else
          (if already_ready : bool then next_generation port sock else ret tt) ;;
          ep_sock_set_needs_rearm_locked (Some sock) false ;;
          (if has flags EPOLLONESHOT then ep_sock_set_oneshot_fired_locked (Some sock) true else ret tt) ;;
          disarm_delivered sock delivered ;;
          fill_node n sock delivered ;;
          stamp_node port n ;;
          publish port sock n delivered ;;
          ret 1
      end.

(** ** Submission *)

(** The request is in flight. *)
Definition mark_pending (sock : addr) : MW unit :=
  ep_sock_set_needs_rearm_locked (Some sock) false ;;
  wr w_socks (Some sock) s_poll_status EP_POLL_PENDING ;;
  wr w_socks (Some sock) s_state EP_SOCK_POLLING ;;
  count (Some sock) p_pending_poll_count.

(** The packet of an immediate success could not be posted. *)
Definition unmark_pending (port : ptr) (sock : addr) : MW unit :=
  pending <- rd w_ports port p_pending_poll_count ;;
  assertM (0 <? pending) ;;
  wr w_ports port p_pending_poll_count (u64 (pending - 1)) ;;
  wr w_socks (Some sock) s_poll_status EP_POLL_IDLE.

(** The registration is gone: [return 1]. *)
Definition drop_and_report (port : ptr) (sock : addr) (error : Z) : MW (Z * bool) :=
  ep_sock_drop_closed_locked port sock ;; ep_set_errno error ;; ret (1, false).

Definition post_pending (sock : addr) : MW (Z * bool) :=
  posted <- ep_aux_post_completion sock STATUS_SUCCESS ;;
  if negb posted then e <- os GetLastError ;; ep_set_win32_error (u32 e) ;; ret (-1, false)
  else mark_pending sock ;; ret (0, false).

Definition submit_waitable (port : ptr) (sock : addr) : MW (Z * bool) :=
  fired <- rd w_socks (Some sock) s_oneshot_fired ;;
  if fired : bool then ret (0, false)
  else
  needs_rearm <- rd w_socks (Some sock) s_needs_rearm ;;
  if negb needs_rearm then ret (0, false)
  else
  wr w_socks (Some sock) s_et_holdoff false ;;
  owned <- rd w_socks (Some sock) s_waitable_notification_owned ;;
  if owned : bool then post_pending sock
  else
  may_consume <- rd w_socks (Some sock) ep_waitable_may_consume ;;
  (if may_consume : bool then wr w_socks (Some sock) s_waitable_notification_owned true else ret tt) ;;
  fd <- rd w_socks (Some sock) s_fd ;;
  wait_result <- os (WaitForSingleObject fd 0) ;;
  let wait_result := u32 wait_result in
  if wait_result =? WAIT_FAILED then
    error <- os GetLastError ;;
    (if may_consume : bool then wr w_socks (Some sock) s_waitable_notification_owned false else ret tt) ;;
    if u32 error =? ERROR_INVALID_HANDLE then drop_and_report port sock EBADF
    else ep_set_win32_error (u32 error) ;; ret (-1, false)
  else
  (if negb (wait_result =? WAIT_OBJECT_0) && may_consume
   then wr w_socks (Some sock) s_waitable_notification_owned false else ret tt) ;;
  flags <- rd w_socks (Some sock) s_user_flags ;;
  (if negb (wait_result =? WAIT_OBJECT_0) && has flags EPOLLET
   then wr w_socks (Some sock) s_observed_events 0 else ret tt) ;;
  if wait_result =? WAIT_OBJECT_0 then post_pending sock
  else
    failed <- ep_waitable_register_locked (Some sock) ;;
    if negb (failed =? 0) then ret (-1, false) else mark_pending sock ;; ret (0, false).

Definition submit_pipe (port : ptr) (sock : addr) : MW (Z * bool) :=
  s <- rd w_socks (Some sock) (fun s => s) ;;
  snapshot <- ep_pipe_snapshot s ;;
  if ps_local_closed snapshot then drop_and_report port sock EBADF
  else
  fired <- rd w_socks (Some sock) s_oneshot_fired ;;
  if fired : bool then ret (0, false)
  else
  needs_rearm <- rd w_socks (Some sock) s_needs_rearm ;;
  if negb needs_rearm then ret (0, false)
  else
  wr w_socks (Some sock) s_et_holdoff false ;;
  flags <- rd w_socks (Some sock) s_user_flags ;;
  (if ps_valid snapshot && (ps_events snapshot =? 0) && has flags EPOLLET then
     wr w_socks (Some sock) s_observed_events 0 ;;
     wr w_socks (Some sock) s_pipe_terminal_delivered false
   else ret tt) ;;
  failed <- ep_pipe_schedule_locked (Some sock) (ps_events snapshot) ;;
  if negb (failed =? 0) then ret (-1, false) else mark_pending sock ;; ret (0, false).

(** A fired one-shot socket: only whether its provider handle is still there. *)
Definition probe_fired (port : ptr) (sock : addr) : MW (Z * bool) :=
  fd <- rd w_socks (Some sock) s_fd ;;
  base <- ep_socket_get_base fd ;;
  if base =? INVALID_SOCKET then
    error <- ep_last_err ;;
    if (error =? ENOTSOCK) || (error =? EBADF) then drop_and_report port sock ENOTSOCK
    else ret (-1, false)
  else wr w_socks (Some sock) s_base_socket base ;; ret (0, false).

(** The AFD request completed at once. *)
Definition submit_immediate (port : ptr) (sock : addr) (immediate_wanted : bool) : MW (Z * bool) :=
  if immediate_wanted then
    ep_sock_set_needs_rearm_locked (Some sock) false ;;
    wr w_socks (Some sock) s_state EP_SOCK_REGISTERED ;;
    ret (0, true)
  else
    epoch <- rd w_socks (Some sock) s_submitted_wait_epoch ;;
    if epoch =? 0 then wr w_socks (Some sock) s_state EP_SOCK_REGISTERED ;; ret (0, false)
    else
      mark_pending sock ;;
      post <- ep_port_post_iocp port 0 (OvSock sock) EP_FAULT_IOCP_POST ;;
      let (posted, post_error) := post : bool * Z in
      if posted then ret (0, false)
      else
        unmark_pending port sock ;;
        wr w_socks (Some sock) s_state EP_SOCK_REGISTERED ;;
        ep_sock_set_needs_rearm_locked (Some sock) true ;;
        ep_port_fail_iocp_post port post_error ;;
        ep_set_win32_error post_error ;;
        ret (-1, false).

Definition submit_afd (port : ptr) (sock : addr) (afd_events : Z) (immediate_wanted : bool) : MW (Z * bool) :=
  failed <- ep_sock_acquire_afd_group_locked (Some sock) ;;
  if negb (failed =? 0) then ret (-1, false)
  else
  old_epoch <- rd w_socks (Some sock) s_submitted_wait_epoch ;;
  epoch <- rd w_ports port p_active_wait_epoch ;;
  wr w_socks (Some sock) s_submitted_wait_epoch epoch ;;
  r <- ep_afd_poll_submit (Some sock) afd_events ;;
  let '(failed, poll_pending) := r in
  if negb (failed =? 0) then
    wr w_socks (Some sock) s_submitted_wait_epoch old_epoch ;;
    error <- ep_last_err ;;
    if (error =? ENOTSOCK) || (error =? EBADF) then drop_and_report port sock ENOTSOCK
    else ret (-1, false)
  else if poll_pending : bool then
    ep_exclusive_release_quiescent (Some sock) afd_events ;;
    ep_sock_set_needs_rearm_locked (Some sock) false ;;
    wr w_socks (Some sock) s_state EP_SOCK_POLLING ;;
    count (Some sock) p_pending_poll_count ;;
    ret (0, false)
  else submit_immediate port sock immediate_wanted.

Definition submit_socket (port : ptr) (sock : addr) (immediate_wanted : bool) : MW (Z * bool) :=
  fired <- rd w_socks (Some sock) s_oneshot_fired ;;
  if fired : bool then probe_fired port sock
  else
  needs_rearm <- rd w_socks (Some sock) s_needs_rearm ;;
  if negb needs_rearm then ret (0, false)
  else
  wr w_socks (Some sock) s_et_holdoff false ;;
  local_shutdown <- rd w_socks (Some sock) s_local_shutdown ;;
  local_result <- (if negb (local_shutdown =? 0)
                   then ep_sock_queue_local_shutdown_locked sock NULL else ret 0) ;;
  if local_result <? 0 then ret (-1, false)
  else if 0 <? local_result then ret (0, false)
  else
  user_events <- rd w_socks (Some sock) s_user_events ;;
  afd_events <- ep_sock_afd_events_locked (Some sock) user_events ;;
  if afd_events =? 0 then
    ep_sock_set_needs_rearm_locked (Some sock) false ;;
    wr w_socks (Some sock) s_state EP_SOCK_REGISTERED ;;
    ret (0, false)
  else submit_afd port sock afd_events immediate_wanted.

(** The part behind the guards: the identity check and the kinds. *)
Definition submit_kind (port : ptr) (sock : addr) (identity_validated immediate_wanted : bool) : MW (Z * bool) :=
  check <- (if identity_validated then ret EP_IDENTITY_MATCH
            else ep_sock_validate_identity_for_delivery_locked port (Some sock)) ;;
  match check with
  | EP_IDENTITY_ERROR => ret (-1, false)
  | EP_IDENTITY_STALE => drop_and_report port sock ENOENT
  | EP_IDENTITY_CLOSED => drop_and_report port sock ENOTSOCK
  | EP_IDENTITY_MATCH =>
    kind <- rd w_socks (Some sock) s_kind ;;
    match kind with
    | EP_REG_WAITABLE => submit_waitable port sock
    | EP_REG_PIPE => submit_pipe port sock
    | EP_REG_SOCKET => submit_socket port sock immediate_wanted
    end
  end.

Definition submit_dormant (sock : addr) : MW (Z * bool) :=
  poll_status <- rd w_socks (Some sock) s_poll_status ;;
  failed <- (if bool_decide (poll_status = EP_POLL_PENDING) then ep_sock_cancel_locked sock else ret 0) ;;
  if negb (failed =? 0) then ret (-1, false)
  else
    ep_sock_set_needs_rearm_locked (Some sock) false ;;
    wr w_socks (Some sock) s_et_holdoff false ;;
    poll_status <- rd w_socks (Some sock) s_poll_status ;;
    (if bool_decide (poll_status = EP_POLL_IDLE)
     then wr w_socks (Some sock) s_state EP_SOCK_REGISTERED else ret tt) ;;
    ret (0, false).

(** An auxiliary registration with a wait in flight that must be armed again:
    the status to continue with, or the result to return. *)
Definition submit_retire_aux (port : ptr) (sock : addr) : MW (ep_poll_status + Z) :=
  failed <- ep_sock_cancel_locked sock ;;
  if negb (failed =? 0) then
    error <- ep_last_err ;;
    ep_sock_drop_closed_locked port sock ;;
    ep_set_errno error ;;
    ret (inr (-1))
  else
    poll_status <- rd w_socks (Some sock) s_poll_status ;;
    if negb (bool_decide (poll_status = EP_POLL_IDLE)) then ret (inr 0)
    else
      closing <- rd w_ports port p_closing ;;
      if closing : bool then ret (inr 0) else ret (inl poll_status).

(** The result and [*immediate_out] (when [immediate_wanted]). *)
Definition ep_sock_submit_locked (sock : addr) (identity_validated immediate_wanted : bool) : MW (Z * bool) :=
  port <- rd w_socks (Some sock) s_port ;;
  poll_status <- rd w_socks (Some sock) s_poll_status ;;
  closing <- rd w_ports port p_closing ;;
  deleted <- rd w_socks (Some sock) s_delete_pending ;;
  ready <- rd w_socks (Some sock) s_ready_queued ;;
  if closing || deleted || ready then ret (0, false)
  else
  dormant <- rd w_socks (Some sock) ep_waitable_is_dormant ;;
  if dormant : bool then submit_dormant sock
  else
  kind <- rd w_socks (Some sock) s_kind ;;
  needs_rearm <- rd w_socks (Some sock) s_needs_rearm ;;
  status <- (if is_aux kind && bool_decide (poll_status = EP_POLL_PENDING) && needs_rearm
             then submit_retire_aux port sock else ret (inl poll_status)) ;;
  match status with
  | inr result => ret (result, false)
  | inl poll_status =>
    if negb (bool_decide (poll_status = EP_POLL_IDLE)) then ret (0, false)
    else
      holdoff <- rd w_socks (Some sock) s_et_holdoff ;;
      if holdoff : bool then ret (0, false)
      else submit_kind port sock identity_validated immediate_wanted
  end.

(** ** Stale registrations and the control operations *)

Definition ep_sock_retire_stale_locked (port : ptr) (sock : addr) : MW unit :=
  saved_errno <- ep_last_err ;;
  poll_status <- rd w_socks (Some sock) s_poll_status ;;
  (if bool_decide (poll_status = EP_POLL_PENDING)
   then ep_sock_cancel_locked sock ;; ret tt else ret tt) ;;
  generation <- rd w_ports port p_generation ;;
  wr w_ports port p_generation (u64 (generation + 1)) ;;
  dropped <- rd w_ports port p_stale_events_dropped ;;
  wr w_ports port p_stale_events_dropped (u64 (dropped + 1)) ;;
  ep_sock_drop_closed_locked port sock ;;
  ep_set_errno saved_errno.

Definition ep_sock_validate_control_locked (port : ptr) (sock : addr) : MW Z :=
  kind <- rd w_socks (Some sock) s_kind ;;
  if is_aux kind then ret 0
  else
    check <- ep_sock_validate_identity_locked (Some sock) false ;;
    match check with
    | EP_IDENTITY_MATCH => ret 0
    | EP_IDENTITY_ERROR => ret (-1)
    | EP_IDENTITY_STALE =>
      ep_sock_retire_stale_locked port sock ;; ep_set_errno ENOENT ;; ret 1
    | EP_IDENTITY_CLOSED =>
      fd <- rd w_socks (Some sock) s_fd ;;
      r <- ep_target_probe fd ;;
      let '(probe_result, target) := r in
      error <- (if probe_result =? 0 then
                  ret (match t_kind target with
                       | EP_TARGET_INVALID => EBADF
                       | EP_TARGET_UNSUPPORTED => EPERM
                       | _ => ENOENT
                       end)
                else ep_last_err) ;;
      ep_sock_retire_stale_locked port sock ;;
      ep_set_errno (if negb (error =? 0) then error else EIO) ;;
      ret (if negb (probe_result =? 0) then -1 else 1)
    end.

(** One visit of an arming pass: [head] is the list's head, [flag] its member
    flag, [visits] its counter. *)
Definition arm_visit (head : ep_port -> ptr) (flag : ep_sock -> bool) (visits : ep_port -> Z) `{!Setter visits}
    (rotate : ptr -> ptr -> MW unit) (port : ptr) (first_error : Z) : MW Z :=
  sock <- rd w_ports port head ;;
  match sock with
  | None => stuck
  | Some a =>
    n <- rd w_ports port visits ;;
    wr w_ports port visits (u64 (n + 1)) ;;
    r <- ep_sock_submit_locked a false false ;;
    let submit_result := r.1 in
    if submit_result <? 0 then
      error <- ep_last_err ;;
      let first_error := if first_error =? 0 then (if error =? 0 then EIO else error) else first_error in
      ep_port_record_async_error_locked port error ;;
      on_list <- rd w_socks sock flag ;;
      (if on_list : bool then rotate port sock else ret tt) ;;
      ret first_error
    else
      (if submit_result =? 0 then
         on_list <- rd w_socks sock flag ;;
         if on_list : bool then rotate port sock else ret tt
       else ret tt) ;;
      ret first_error
  end.

Fixpoint arm_loop (budget : nat) (visit : Z -> MW Z) (first_error : Z) : MW Z :=
  match budget with
  | O => ret first_error
  | S budget => first_error <- visit first_error ;; arm_loop budget visit first_error
  end.

Definition ep_port_arm_pending_locked (port : ptr) : MW Z :=
  rearm_budget <- rd w_ports port p_needs_rearm_count ;;
  oneshot_budget <- rd w_ports port p_oneshot_fired_count ;;
  first_error <- arm_loop (Z.to_nat rearm_budget)
    (arm_visit p_rearm_head s_needs_rearm p_rearm_work_visits ep_rearm_list_rotate_locked port) 0 ;;
  first_error <- arm_loop (Z.to_nat oneshot_budget)
    (arm_visit p_oneshot_head s_oneshot_fired p_oneshot_probe_visits ep_oneshot_list_rotate_locked port)
    first_error ;;
  if negb (first_error =? 0) then ep_set_errno first_error ;; ret (-1) else ret 0.
