(* ===== verification/Completion.v ===== *)
(** * Completion handling

    [src/wepoll_ex_port.c], 3796-4270: what a completion packet of a
    registration does - retire the request, qualify the snapshot, and queue a
    ready event or arm the registration again.  The kernel's output is in the
    poll buffer [w_afd_infos] when the packet is handled. *)
From S2P Require Import Prelude Codes Types Errno Fault Links Pool ReadyQueue Quiet Readiness.
From S2P Require Import Exclusive FdTable Worklists Timeout Iocp Provider PollKeys AfdOps Groups Pipe.
From S2P Require Import Targets Levels Registration.

(** The entry of the poll buffer, when there is one with a handle in it. *)
Definition snapshot_entry (sock : addr) : MW (option afd_poll_info) :=
  info <- rd w_socks (Some sock) s_afd_info ;;
  match info with
  | None => ret None
  | Some b =>
    infos <- get w_afd_infos ;;
    match infos !! b with
    | Some i => ret (if 0 <? ai_NumberOfHandles i then Some i else None)
    | None => stuck
    end
  end.

(** [ep_sock_set_needs_rearm_locked(sock, 1); ep_port_record_async_error_locked(port, error)]
    after a failed submission. *)
Definition resubmit_failed (port : ptr) (sock : addr) : MW unit :=
  error <- ep_last_err ;;
  ep_sock_set_needs_rearm_locked (Some sock) true ;;
  ep_port_record_async_error_locked port error.
Definition resubmit (port : ptr) (sock : addr) : MW unit :=
  r <- ep_sock_submit_locked sock false false ;;
  if r.1 <? 0 then resubmit_failed port sock else ret tt.

(** ** Retiring the request *)

(** The auxiliary wait could not be disarmed. *)
Definition disarm_failed (port : ptr) (sock : addr) : MW unit :=
  error <- ep_last_err ;;
  wr w_socks (Some sock) s_completion_posted false ;;
  ep_port_record_async_error_locked port error ;;
  deleted <- rd w_socks (Some sock) s_delete_pending ;;
  closing <- rd w_ports port p_closing ;;
  if deleted || closing then
    cancel_result <- ep_sock_cancel_locked sock ;;
    poll_status <- rd w_socks (Some sock) s_poll_status ;;
    deleted <- rd w_socks (Some sock) s_delete_pending ;;
    if (cancel_result =? 0) && bool_decide (poll_status = EP_POLL_IDLE) && deleted
    then ep_sock_free_locked port sock else ret tt
  else ep_sock_set_needs_rearm_locked (Some sock) true.

(** Everything before the snapshot: whether to go on. *)
Definition completion_retire (port : ptr) (sock : addr) (status : Z) : MW bool :=
  old_poll_status <- rd w_socks (Some sock) s_poll_status ;;
  if bool_decide (old_poll_status = EP_POLL_IDLE) then ret false
  else
  kind <- rd w_socks (Some sock) s_kind ;;
  (if bool_decide (kind = EP_REG_SOCKET) then ep_afd_poll_key_release (Some sock) else ret tt) ;;
  may_consume <- rd w_socks (Some sock) ep_waitable_may_consume ;;
  (if bool_decide (old_poll_status = EP_POLL_PENDING) && (0 <=? status) && may_consume
   then wr w_socks (Some sock) s_waitable_notification_owned true else ret tt) ;;
  disarmed <- (if is_aux kind then
                 failed <- disarm_aux sock ;;
                 if negb (failed =? 0) then disarm_failed port sock ;; ret false
                 else wr w_socks (Some sock) s_completion_posted false ;; ret true
               else ret true) ;;
  if negb disarmed then ret false
  else
  failed <- ep_sock_complete_pending_locked sock ;;
  deleted <- rd w_socks (Some sock) s_delete_pending ;;
  if negb (failed =? 0) then
    (if deleted : bool then ep_sock_free_locked port sock else ret tt) ;; ret false
  else if deleted : bool then ep_sock_free_locked port sock ;; ret false
  else
  closing <- rd w_ports port p_closing ;;
  if closing : bool then wr w_socks (Some sock) s_state EP_SOCK_REGISTERED ;; ret false
  else if bool_decide (old_poll_status = EP_POLL_CANCELLED) || (status =? STATUS_CANCELLED)
  then resubmit port sock ;; ret false
  else
  dormant <- rd w_socks (Some sock) ep_waitable_is_dormant ;;
  if dormant : bool then
    ep_sock_set_needs_rearm_locked (Some sock) false ;;
    wr w_socks (Some sock) s_et_holdoff false ;;
    wr w_socks (Some sock) s_state EP_SOCK_REGISTERED ;;
    ret false
  else ret true.

(** ** The snapshot *)

(** [process_socket_snapshot], up to the refresh: false when the registration
    is closed (and dropped). *)
Definition snapshot_live (port : ptr) (sock : addr) (status : Z) : MW bool :=
  kind <- rd w_socks (Some sock) s_kind ;;
  if bool_decide (kind = EP_REG_SOCKET) && (0 <=? status) then
    entry <- snapshot_entry sock ;;
    match entry with
    | None => ret true
    | Some i =>
      if has (ai_Events i) AFD_POLL_LOCAL_CLOSE then ep_sock_drop_closed_locked port sock ;; ret false
      else
        id_state <- rd w_socks (Some sock) s_endpoint_id_state ;;
        if bool_decide (id_state = EP_SOCKET_ID_TRANSITIONAL) then
          check <- ep_sock_validate_identity_locked (Some sock) true ;;
          match check with
          | EP_IDENTITY_STALE | EP_IDENTITY_CLOSED => ep_sock_drop_closed_locked port sock ;; ret false
          | _ => ret true
          end
        else ret true
    end
  else ret true.

(** Whether the snapshot belongs to an earlier wait or does not cover the
    current interest. *)
Definition snapshot_outdated (port : ptr) (sock : addr) (status : Z) : MW bool :=
  kind <- rd w_socks (Some sock) s_kind ;;
  if bool_decide (kind = EP_REG_SOCKET) && (0 <=? status) then
    active <- rd w_ports port p_active_wait_epoch ;;
    user_events <- rd w_socks (Some sock) s_user_events ;;
    current <- ep_sock_afd_events_locked (Some sock) user_events ;;
    epoch <- rd w_socks (Some sock) s_submitted_wait_epoch ;;
    submitted <- rd w_socks (Some sock) s_submitted_afd_events ;;
    ret (negb (active =? 0) && negb (epoch =? active) || negb (Z.ldiff current submitted =? 0))
  else ret false.

(** [goto process_socket_snapshot] at most [fuel] times: whether a current
    snapshot is at hand. *)
Fixpoint snapshot_loop (fuel : nat) (port : ptr) (sock : addr) (status : Z) : MW bool :=
  live <- snapshot_live port sock status ;;
  if negb live then ret false
  else
  outdated <- snapshot_outdated port sock status ;;
  if negb outdated then ret true
  else
    wr w_socks (Some sock) s_state EP_SOCK_REGISTERED ;;
    ep_sock_set_needs_rearm_locked (Some sock) true ;;
    r <- ep_sock_submit_locked sock false true ;;
    let '(submit_result, immediate) := r in
    (if submit_result <? 0 then resubmit_failed port sock else ret tt) ;;
    if (submit_result =? 0) && immediate then
      match fuel with
      | O => stuck
      | S fuel => snapshot_loop fuel port sock status
      end
    else ret false.

(** ** The events *)

(** The UDP qualifier: the AFD events that remain, whether the receive
    indication was parked, and whether the probe saw an error; [None] when the
    registration is done with.  The probe sets the error it returns by reference
    to 0, and to another value only in builds with strict socket identities. *)
Definition udp_qualify (port : ptr) (sock : addr) (afd_events : Z) : MW (option (Z * bool * bool)) :=
  user_events <- rd w_socks (Some sock) s_user_events ;;
  let readless := negb (has user_events (EPOLLIN ||| EPOLLRDNORM)) in
  probe <- ep_udp_probe_read_locked (Some sock) ;;
  let udp_identity_error := 0 in
  match probe with
  | EP_UDP_READ_PROBE_CLOSED => ep_sock_drop_closed_locked port sock ;; ret None
  | EP_UDP_READ_PROBE_IDENTITY_ERROR =>
    wr w_socks (Some sock) s_state EP_SOCK_REGISTERED ;;
    ep_sock_set_needs_rearm_locked (Some sock) true ;;
    ep_port_record_async_error_locked port (if negb (udp_identity_error =? 0) then udp_identity_error else EIO) ;;
    ret None
  | _ =>
    let unqualified := bool_decide (probe = EP_UDP_READ_PROBE_READY) ||
                       bool_decide (probe = EP_UDP_READ_PROBE_UNAVAILABLE) in
    let afd_events :=
      clearwhen (bool_decide (probe = EP_UDP_READ_PROBE_NOT_READY) ||
                 bool_decide (probe = EP_UDP_READ_PROBE_ERROR) || readless && unqualified)
        AFD_POLL_RECEIVE afd_events in
    (if readless then wr w_socks (Some sock) s_udp_readless_receive_parked unqualified else ret tt) ;;
    ret (Some (afd_events, readless && unqualified, bool_decide (probe = EP_UDP_READ_PROBE_ERROR)))
  end.

(** The AFD snapshot as epoll events and whether a receive was parked. *)
Definition afd_delivery (port : ptr) (sock : addr) (i : afd_poll_info) : MW (option (Z * bool)) :=
  protocol <- rd w_socks (Some sock) s_socket_protocol ;;
  qualified <- (if has (ai_Events i) AFD_POLL_RECEIVE && (0 <=? ai_Status i) &&
                   bool_decide (protocol = EP_SOCKET_PROTOCOL_UDP)
                then udp_qualify port sock (ai_Events i)
                else ret (Some (ai_Events i, false, false))) ;;
  match qualified with
  | None => ret None
  | Some (afd_events, parked, probe_error) =>
    let delivered := ep_afd_to_epoll_events afd_events (ai_Status i) protocol in
    ret (Some (if probe_error : bool then clearwhen true EPOLLHUP (delivered ||| EPOLLERR) else delivered, parked))
  end.

Definition waitable_delivery (sock : addr) (status : Z) : MW Z :=
  s <- rd w_socks (Some sock) (fun s => s) ;;
  if (0 <=? status) && negb (ep_waitable_may_consume s) then
    wait_result <- os (WaitForSingleObject (s_fd s) 0) ;;
    let wait_result := u32 wait_result in
    ret (if wait_result =? WAIT_OBJECT_0 then ep_waitable_level_events s
         else if wait_result =? WAIT_FAILED then EPOLLERR ||| EPOLLHUP else 0)
  else ret (if 0 <=? status then ep_waitable_level_events s else EPOLLERR ||| EPOLLHUP).

Definition no_snapshot : ep_pipe_snapshot_t := pipe_unknown.

(** The native observation: events, whether a UDP receive was parked, and the
    pipe sample. *)
Definition observe (port : ptr) (sock : addr) (status : Z) : MW (option (Z * bool * ep_pipe_snapshot_t)) :=
  entry <- (if 0 <=? status then snapshot_entry sock else ret None) ;;
  match entry with
  | Some i =>
    r <- afd_delivery port sock i ;;
    ret ((fun r => (r.1, r.2, no_snapshot)) <$> r)
  | None =>
    kind <- rd w_socks (Some sock) s_kind ;;
    match kind with
    | EP_REG_WAITABLE => d <- waitable_delivery sock status ;; ret (Some (d, false, no_snapshot))
    | EP_REG_PIPE =>
      s <- rd w_socks (Some sock) (fun s => s) ;;
      snapshot <- ep_pipe_snapshot s ;;
      if ps_local_closed snapshot then ep_sock_drop_closed_locked port sock ;; ret None
      else ret (Some (ps_events snapshot, false, snapshot))
    | EP_REG_SOCKET => ret (Some (if status <? 0 then EPOLLERR else 0, false, no_snapshot))
    end
  end.

(** A class filter of an explicit-rearm port. *)
Definition filter_disarmed (sock : addr) (delivered : Z) : MW Z :=
  explicit <- ep_sock_explicit_rearm_enabled (Some sock) ;;
  if explicit : bool then
    disarmed <- rd w_socks (Some sock) s_explicit_disarmed_classes ;;
    ret (ep_readiness_filter_classes delivered disarmed)
  else ret delivered.

(** One direction of the qualification: 1 or 0 when sampled, -1 otherwise. *)
Definition sample_direction (sock : addr) (wanted : bool) (levels : option Z) (bit : Z) (writable : bool) : MW Z :=
  if wanted then
    match levels with
    | Some revents => ret (if has revents bit then 1 else 0)
    | None => fd <- rd w_socks (Some sock) s_fd ;; ep_socket_select_ready fd writable
    end
  else ret (-1).

(** Edge-triggered and exclusive sockets deliver only directions that are ready
    now. *)
Definition qualify_directions (sock : addr) (levels : option Z) (delivered : Z) : MW Z :=
  s <- rd w_socks (Some sock) (fun s => s) ;;
  if bool_decide (s_kind s = EP_REG_SOCKET) && has (s_user_flags s) (EPOLLET ||| EPOLLEXCLUSIVE) then
    let sample_all := has (s_user_flags s) EPOLLEXCLUSIVE in
    let read_mask := EPOLLIN ||| EPOLLRDNORM ||| EPOLLRDHUP in
    let write_mask := EPOLLOUT ||| EPOLLWRNORM in
    read_ready <- sample_direction sock (sample_all || has delivered read_mask) levels POLLRDNORM false ;;
    write_ready <- sample_direction sock (sample_all || has delivered write_mask) levels POLLWRNORM true ;;
    let delivered := clearwhen (read_ready =? 0) read_mask delivered in
    let delivered := clearwhen (write_ready =? 0) write_mask delivered in
    let inactive := orwhen (write_ready =? 0) EP_READINESS_CLASS_WRITE
                      (orwhen (read_ready =? 0) EP_READINESS_CLASS_READ 0) in
    (if sample_all && negb (inactive =? 0)
     then ep_exclusive_release_inactive (Some sock) inactive else ret tt) ;;
    ret delivered
  else ret delivered.

(** Merge, filters, qualification and the interest mask. *)
Definition qualify (sock : addr) (delivered : Z) : MW Z :=
  kind <- rd w_socks (Some sock) s_kind ;;
  merged <- (if bool_decide (kind = EP_REG_SOCKET)
             then ep_socket_merge_current_levels (Some sock) delivered else ret (None, delivered)) ;;
  let '(levels, delivered) := merged in
  delivered <- filter_disarmed sock delivered ;;
  delivered <- qualify_directions sock levels delivered ;;
  local_shutdown <- rd w_socks (Some sock) s_local_shutdown ;;
  delivered <- (if bool_decide (kind = EP_REG_SOCKET) && negb (local_shutdown =? 0) then
                  delivered <- ep_sock_merge_local_shutdown_locked (Some sock) delivered ;;
                  filter_disarmed sock delivered
                else ret delivered) ;;
  user_events <- rd w_socks (Some sock) s_user_events ;;
  ret (Z.land delivered (user_events ||| EPOLLERR ||| EPOLLHUP)).

(** The edge filter: the new events of a level, with the latch updated. *)
Definition edge_filter (sock : addr) (snapshot : ep_pipe_snapshot_t) (level : Z) : MW Z :=
  flags <- rd w_socks (Some sock) s_user_flags ;;
  if has flags EPOLLET then
    kind <- rd w_socks (Some sock) s_kind ;;
    if bool_decide (kind = EP_REG_PIPE) then ep_pipe_et_events (Some sock) snapshot
    else
      user_events <- rd w_socks (Some sock) s_user_events ;;
      let interest := user_events ||| EPOLLERR ||| EPOLLHUP in
      observed <- rd w_socks (Some sock) s_observed_events ;;
      let observed := Z.land observed (Z.land level interest) in
      let edge := Z.ldiff level observed in
      wr w_socks (Some sock) s_observed_events (observed ||| edge) ;;
      ret edge
  else
    wr w_socks (Some sock) s_observed_events 0 ;;
    wr w_socks (Some sock) s_et_holdoff false ;;
    ret level.

(** ** Delivery *)

(** Nothing to deliver. *)
Definition deliver_nothing (port : ptr) (sock : addr) (parked : bool) (snapshot : ep_pipe_snapshot_t) : MW unit :=
  s <- rd w_socks (Some sock) (fun s => s) ;;
  let et := has (s_user_flags s) EPOLLET in
  if parked then
    wr w_socks (Some sock) s_et_holdoff false ;;
    ep_sock_set_needs_rearm_locked (Some sock) true ;;
    resubmit port sock
  else if bool_decide (s_kind s = EP_REG_PIPE) && et && ps_valid snapshot && s_pipe_terminal_delivered s &&
          ep_pipe_et_snapshot_is_final s (ps_events snapshot) snapshot then
    wr w_socks (Some sock) s_et_holdoff false ;;
    ep_sock_set_needs_rearm_locked (Some sock) false ;;
    wr w_socks (Some sock) s_state EP_SOCK_REGISTERED
  else
    wr w_socks (Some sock) s_et_holdoff et ;;
    ep_sock_set_needs_rearm_locked (Some sock) true ;;
    if negb et then resubmit port sock else ret tt.

(** No ready node: the edge is not lost. *)
Definition deliver_failed (port : ptr) (sock : addr) (old_observed : Z) : MW unit :=
  error <- ep_last_err ;;
  flags <- rd w_socks (Some sock) s_user_flags ;;
  (if has flags EPOLLET then wr w_socks (Some sock) s_observed_events old_observed else ret tt) ;;
  ep_sock_set_needs_rearm_locked (Some sock) true ;;
  ep_port_record_async_error_locked port (if error =? 0 then ENOMEM else error).

Definition deliver (port : ptr) (sock : addr) (old_observed delivered : Z) : MW unit :=
  node <- new_node port ;;
  match node with
  | None => deliver_failed port sock old_observed
  | Some n =>
    fill_node n sock delivered ;;
    flags <- rd w_socks (Some sock) s_user_flags ;;
    (if has flags EPOLLONESHOT then ep_sock_set_oneshot_fired_locked (Some sock) true else ret tt) ;;
    stamp_node port n ;;
    claim <- claim_delivery sock delivered ;;
    let '(granted, delivered) := claim in
    if negb granted then refuse_exclusive port sock n
    else
      wr w_nodes (Some n) n_events delivered ;;
      disarm_delivered sock delivered ;;
      publish port sock n delivered ;;
      may_consume <- rd w_socks (Some sock) ep_waitable_may_consume ;;
      if may_consume : bool then wr w_socks (Some sock) s_waitable_notification_owned false else ret tt
  end.

(** The handler; [snapshot_fuel] refreshes of the snapshot are allowed. *)
Definition snapshot_fuel : nat := 2.

Definition ep_sock_handle_completion (sock : addr) (status : Z) : MW unit :=
  port <- rd w_socks (Some sock) s_port ;;
  retired <- completion_retire port sock status ;;
  if negb retired then ret tt
  else
  current <- snapshot_loop snapshot_fuel port sock status ;;
  if negb current then ret tt
  else
  observed <- observe port sock status ;;
  match observed with
  | None => ret tt
  | Some (delivered, parked, snapshot) =>
    level <- qualify sock delivered ;;
    old_observed <- rd w_socks (Some sock) s_observed_events ;;
    delivered <- edge_filter sock snapshot level ;;
    if delivered =? 0 then deliver_nothing port sock parked snapshot
    else deliver port sock old_observed delivered
  end.
