(* ===== verification/Accounting.v ===== *)
(** * Poll accounting

    The number of requests in flight.  [pending_poll_count] decides when a port
    may be torn down, so it must equal the number of registrations whose poll
    status is not idle at every point where [fd_table_lock] is released. *)
From S2P Require Import Prelude Codes Types Errno Fault Links Pool ReadyQueue Quiet Readiness.
From S2P Require Import Exclusive FdTable Worklists Timeout Iocp Provider PollKeys AfdOps Groups Pipe.
From S2P Require Import Targets Levels Keeps Registration Completion.

(** ** Triples for runs that return *)

Definition hoare {A} (P : world -> Prop) (m : MW A) (Q : A -> world -> Prop) : Prop :=
  forall w r w', P w -> m w = Some (r, w') -> Q r w'.
Class Stable (P : world -> Prop) {A} (m : MW A) : Prop := stable : hoare P m (fun _ => P).
#[export] Hint Mode Stable ! - ! : typeclass_instances.

Section Rules.
Context {A B : Type}.
Lemma hoare_seq (P : world -> Prop) (Q : A -> world -> Prop) (R : B -> world -> Prop) m k :
  hoare P m Q -> (forall a, hoare (Q a) (k a) R) -> hoare P (bind m k) R.
Proof. intros Hm Hk w r w' HP (a & w1 & H1 & H2)%bind_inv. eapply Hk; [|exact H2]. by eapply Hm. Qed.
Lemma hoare_bind (P : world -> Prop) (R : B -> world -> Prop) (m : MW A) k :
  Stable P m -> (forall a, hoare P (k a) R) -> hoare P (bind m k) R.
Proof. intros Hm Hk. eapply hoare_seq; [apply Hm|]. done. Qed.
Lemma hoare_ret (P : world -> Prop) (Q : A -> world -> Prop) a : (forall w, P w -> Q a w) -> hoare P (ret a) Q.
Proof. intros HQ w r w' HP [-> ->]%ret_inv. by apply HQ. Qed.
Lemma hoare_conseq (P P' : world -> Prop) (Q Q' : A -> world -> Prop) m :
  hoare P' m Q' -> (forall w, P w -> P' w) -> (forall a w, Q' a w -> Q a w) -> hoare P m Q.
Proof. intros Hm HP HQ w r w' Hw H. apply HQ. eapply Hm; [|exact H]. by apply HP. Qed.
Lemma hoare_bind_ret (P : world -> Prop) (R : B -> world -> Prop) (a : A) k :
  hoare P (k a) R -> hoare P (bind (ret a) k) R.
Proof. done. Qed.
Lemma hoare_stuck (P : world -> Prop) (Q : A -> world -> Prop) : hoare P stuck Q.
Proof. done. Qed.
Lemma hoare_assert (P : world -> Prop) b (Q : B -> world -> Prop) (k : unit -> MW B) :
  (b = true -> hoare P (k tt) Q) -> hoare P (bind (assertM b) k) Q.
Proof. intros Hk w r w' HP ([] & w1 & [Hb ->]%assertM_inv & H)%bind_inv. by eapply Hk. Qed.
End Rules.

(** ** The tally *)

Definition view (w : world) : gmap addr (ptr * ep_poll_status) :=
  (fun s => (s_port s, s_poll_status s)) <$> w_socks w.
Definition tally (w w' : world) : Prop :=
  view w' = view w /\ p_pending_poll_count <$> w_ports w' = p_pending_poll_count <$> w_ports w.

#[export] Instance tally_preorder : PreOrder tally.
Proof. split; [by intros w|]. intros w1 w2 w3 [? ?] [? ?]. split; congruence. Qed.

Lemma core_tally w w' : core w w' -> tally w w'.
Proof.
  intros [[Hs Hp] _]. split.
  - apply (f_equal (fmap (fun c => (c.1.1.1.1.1.1.1.1.1, c.1.1.1.1.2)))) in Hs.
    rewrite <- !map_fmap_compose in Hs. exact Hs.
  - apply (f_equal (fmap (fun c => c.1.1.1))) in Hp. rewrite <- !map_fmap_compose in Hp. exact Hp.
Qed.
#[export] Instance core_keeps_tally {A} (m : MW A) : Keeps core m -> Keeps tally m | 100.
Proof. intros Hm w r w' H. by eapply core_tally, Hm. Qed.

Lemma wr_socks_tally {T} p (f : ep_sock -> T) `{!Setter f} v :
  (forall s, (s_port (s <| f := v |>), s_poll_status (s <| f := v |>)) = (s_port s, s_poll_status s)) ->
  Keeps tally (wr w_socks p f v).
Proof.
  intros Hf w r w' (a & s & -> & Hs & ->)%wr_inv. split; [|done]. unfold view. sget.
  by apply (fmap_insert_same (fun s => (s_port s, s_poll_status s)) _ _ s).
Qed.
Lemma wr_ports_tally {T} p (f : ep_port -> T) `{!Setter f} v :
  (forall q, p_pending_poll_count (q <| f := v |>) = p_pending_poll_count q) -> Keeps tally (wr w_ports p f v).
Proof.
  intros Hf w r w' (a & s & -> & Hs & ->)%wr_inv. split; [done|]. sget.
  by apply (fmap_insert_same p_pending_poll_count _ _ s).
Qed.
#[export] Hint Extern 1 (Keeps tally (wr w_socks _ _ _)) =>
  (notypeclasses refine (wr_socks_tally _ _ _ _); intros ?; reflexivity) : typeclass_instances.
#[export] Hint Extern 1 (Keeps tally (wr w_ports _ _ _)) =>
  (notypeclasses refine (wr_ports_tally _ _ _ _); intros ?; reflexivity) : typeclass_instances.
#[export] Instance wr_nodes_tally {T} p (f : ep_ready_node -> T) `{!Setter f} v : Keeps tally (wr w_nodes p f v).
Proof. intros w r w' (a & s & -> & Hs & ->)%wr_inv. done. Qed.
#[export] Instance put_nodes_tally v : Keeps tally (put w_nodes v).
Proof. by intros w r w' ->%put_inv. Qed.
#[export] Hint Opaque tally : typeclass_instances.

(** The ready queue and its nodes are no part of the tally. *)
#[export] Instance ep_ready_link_tally q n b : Keeps tally (ep_ready_link q n b).
Proof. unfold ep_ready_link. keeping. Qed.
#[export] Instance ep_ready_push_tally q n : Keeps tally (ep_ready_push q n).
Proof. unfold ep_ready_push. keeping. Qed.
#[export] Instance ep_ready_node_alloc_tally p : Keeps tally (ep_ready_node_alloc p).
Proof. unfold ep_ready_node_alloc. keeping. Qed.
#[export] Instance new_node_tally p : Keeps tally (new_node p).
Proof. unfold new_node. keeping. Qed.
#[export] Instance drop_node_tally p n : Keeps tally (drop_node p n).
Proof. unfold drop_node. keeping. Qed.
#[export] Instance fill_node_tally n s d : Keeps tally (fill_node n s d).
Proof. unfold fill_node. keeping. Qed.
#[export] Instance stamp_node_tally p n : Keeps tally (stamp_node p n).
Proof. unfold stamp_node. keeping. Qed.
#[export] Instance next_generation_tally p s : Keeps tally (next_generation p s).
Proof. unfold next_generation. keeping. Qed.
#[export] Instance publish_tally p s n d : Keeps tally (publish p s n d).
Proof. unfold publish. keeping. Qed.
#[export] Instance disarm_delivered_tally s d : Keeps tally (disarm_delivered s d).
Proof. unfold disarm_delivered. keeping. Qed.
#[export] Instance disarm_aux_tally s : Keeps tally (disarm_aux s).
Proof. unfold disarm_aux. keeping. Qed.
#[export] Instance release_exclusive_tally s : Keeps tally (release_exclusive s).
Proof. unfold release_exclusive. keeping. Qed.
#[export] Instance refuse_exclusive_tally p s n : Keeps tally (refuse_exclusive p s n).
Proof. unfold refuse_exclusive. keeping. Qed.
#[export] Instance claim_delivery_tally s d : Keeps tally (claim_delivery s d).
Proof. unfold claim_delivery. keeping. Qed.
#[export] Instance local_shutdown_level_tally s : Keeps tally (ep_sock_local_shutdown_level_locked s).
Proof. unfold ep_sock_local_shutdown_level_locked. keeping. Qed.
#[export] Instance queue_local_shutdown_tally s n : Keeps tally (ep_sock_queue_local_shutdown_locked s n).
Proof. unfold ep_sock_queue_local_shutdown_locked. keeping. Qed.

(** ** The invariant *)

(** The registrations of [port] with a request in flight. *)
Definition in_flight (port : addr) (m : gmap addr (ptr * ep_poll_status)) : nat :=
  size (filter (fun kv => kv.2.1 = Some port /\ kv.2.2 <> EP_POLL_IDLE) m).

(** A port's counter (a [size_t]) agrees with the number of its requests in
    flight; a port that is not allocated has none. *)
Definition agrees (port : option ep_port) (n : nat) : Prop :=
  match port with Some p => p_pending_poll_count p = u64 (Z.of_nat n) | None => n = 0%nat end.
Definition counts (m : gmap addr (ptr * ep_poll_status)) (w : world) : Prop :=
  forall port, agrees (w_ports w !! port) (in_flight port m).
(** Registrations have 64-bit addresses. *)
Definition addressed (w : world) : Prop := forall a, is_Some (view w !! a) -> Z.pos a <= UINT64_MAX.
Definition accounted (w : world) : Prop := counts (view w) w /\ addressed w.
(** The same, when registration [a] is left out. *)
Definition accounted_but (a : addr) (w : world) : Prop := counts (delete a (view w)) w /\ addressed w.

Definition status_is (a : addr) (st : ep_poll_status) (w : world) : Prop :=
  exists port, view w !! a = Some (port, st).
Definition owner (a : addr) (port : ptr) (w : world) : Prop :=
  forall x, view w !! a = Some x -> x.1 = port.

Lemma pending_insert port a x m :
  in_flight port (<[a := x]> m) =
  (in_flight port (delete a m) + if bool_decide (x.1 = Some port /\ x.2 <> EP_POLL_IDLE) then 1 else 0)%nat.
Proof.
  unfold in_flight. rewrite <- insert_delete_eq. case_bool_decide as Hx.
  - rewrite map_filter_insert_True by done. rewrite map_size_insert_None; [lia|].
    apply map_lookup_filter_None_2. left. apply lookup_delete_eq.
  - rewrite map_filter_insert_False by done. rewrite delete_delete_eq. lia.
Qed.
Lemma in_flight_lookup port a x m : m !! a = Some x ->
  in_flight port m =
  (in_flight port (delete a m) + if bool_decide (x.1 = Some port /\ x.2 <> EP_POLL_IDLE) then 1 else 0)%nat.
Proof. intros Hm. rewrite <- (pending_insert port a x m). by rewrite insert_id. Qed.

(** Predicates of the tally. *)
Class Tallied (P : world -> Prop) : Prop := tallied w w' : tally w w' -> P w -> P w'.
Lemma counts_tally m w w' : tally w w' -> counts m w -> counts m w'.
Proof.
  intros [_ Hp] Hc port. specialize (Hc port). revert Hc.
  apply (f_equal (fun m => m !! port)) in Hp. rewrite !lookup_fmap in Hp. unfold agrees.
  destruct (w_ports w !! port), (w_ports w' !! port); simplify_eq/=; congruence.
Qed.
#[export] Instance accounted_tallied : Tallied accounted.
Proof.
  intros w w' Ht [Ha Hd]. unfold accounted, addressed. rewrite (proj1 Ht). split; [by eapply counts_tally|exact Hd].
Qed.
#[export] Instance accounted_but_tallied a : Tallied (accounted_but a).
Proof.
  intros w w' Ht [Ha Hd]. unfold accounted_but, addressed. rewrite (proj1 Ht). split; [by eapply counts_tally|exact Hd].
Qed.
#[export] Instance status_is_tallied a st : Tallied (status_is a st).
Proof. intros w w' Ht. unfold status_is. by rewrite (proj1 Ht). Qed.
#[export] Instance owner_tallied a port : Tallied (owner a port).
Proof. intros w w' Ht. unfold owner. by rewrite (proj1 Ht). Qed.
#[export] Instance and_tallied P Q : Tallied P -> Tallied Q -> Tallied (fun w => P w /\ Q w).
Proof. intros HP HQ w w' Ht [? ?]. split; [by eapply HP|by eapply HQ]. Qed.
#[export] Instance or_tallied P Q : Tallied P -> Tallied Q -> Tallied (fun w => P w \/ Q w).
Proof. intros HP HQ w w' Ht [?|?]; [left; by eapply HP|right; by eapply HQ]. Qed.
#[export] Instance impl_tallied (X : Prop) P : Tallied P -> Tallied (fun w => X -> P w).
Proof. intros HP w w' Ht HX Hx. eapply HP; eauto. Qed.
#[export] Instance tallied_stable P {A} (m : MW A) : Tallied P -> Keeps tally m -> Stable P m | 10.
Proof. intros HP Hm w r w' Hw H. eapply HP; [by eapply Hm|done]. Qed.
#[export] Hint Opaque accounted accounted_but status_is owner : typeclass_instances.

(** Registration [a] is idle: leaving it out changes nothing. *)
Lemma in_flight_idle port a x m : m !! a = Some x -> x.2 = EP_POLL_IDLE -> in_flight port m = in_flight port (delete a m).
Proof.
  intros Hm Hx. rewrite (in_flight_lookup port a x m Hm), bool_decide_eq_false_2; [lia|]. by intros [_ ?].
Qed.
Lemma accounted_idle a w : status_is a EP_POLL_IDLE w -> accounted w <-> accounted_but a w.
Proof.
  intros (port & Hv). assert (E : forall q, in_flight q (view w) = in_flight q (delete a (view w)))
    by (intros q; by eapply in_flight_idle).
  split; intros [Hc Hb]; (split; [|exact Hb]); intros q; [rewrite <- E|rewrite E]; apply Hc.
Qed.
Lemma view_lookup w a s : w_socks w !! a = Some s -> view w !! a = Some (s_port s, s_poll_status s).
Proof. intros Hs. unfold view. by rewrite lookup_fmap, Hs. Qed.
Lemma addressed_insert w a x y : addressed w -> view w !! a = Some x ->
  forall b, is_Some (<[a := y]> (view w) !! b) -> Z.pos b <= UINT64_MAX.
Proof. intros Hd Ha b. rewrite lookup_insert_is_Some'. intros [<-|?]; [|by apply Hd]. apply Hd. by eexists. Qed.
Lemma view_wr_status w a s st : w_socks w !! a = Some s ->
  view (w <| w_socks := <[a := s <| s_poll_status := st |>]> (w_socks w) |>) = <[a := (s_port s, st)]> (view w).
Proof. intros Hs. unfold view. sget. by rewrite fmap_insert. Qed.

(** Writing the status of the registration that is left out. *)
Lemma wr_status_but a st port :
  hoare (fun w => accounted_but a w /\ owner a port w) (wr w_socks (Some a) s_poll_status st)
    (fun _ w => (accounted_but a w /\ owner a port w) /\ status_is a st w).
Proof.
  intros w r w' [Hc Ho] (b & s & [= <-] & Hs & ->)%wr_inv.
  pose proof (view_wr_status w a s st Hs) as Hv. unfold accounted_but, addressed, owner, status_is. rewrite Hv.
  split_and!.
  - intros q. rewrite delete_insert_eq. by apply Hc.
  - eapply addressed_insert; [exact (proj2 Hc)|by eapply view_lookup].
  - intros x. rewrite lookup_insert_eq. intros [= <-]. apply (Ho (s_port s, s_poll_status s)).
    unfold view. by rewrite lookup_fmap, Hs.
  - eexists. apply lookup_insert_eq.
Qed.

Lemma u64_succ n : u64 (u64 (Z.of_nat n) + 1) = u64 (Z.of_nat (n + 1)).
Proof. unfold u64. rewrite Zplus_mod_idemp_l. f_equal. lia. Qed.
Lemma u64_pred n : u64 (u64 (Z.of_nat (n + 1)) - 1) = u64 (Z.of_nat n).
Proof. unfold u64. rewrite Zminus_mod_idemp_l. f_equal. lia. Qed.

Lemma agrees_at m w port p : counts m w -> w_ports w !! port = Some p ->
  p_pending_poll_count p = u64 (Z.of_nat (in_flight port m)).
Proof. intros Hc Hp. specialize (Hc port). by rewrite Hp in Hc. Qed.
Lemma counts_set m m' w P p v :
  w_ports w !! P = Some p -> counts m w -> (forall q, q <> P -> in_flight q m' = in_flight q m) ->
  v = u64 (Z.of_nat (in_flight P m')) ->
  counts m' (w <| w_ports := <[P := p <| p_pending_poll_count := v |>]> (w_ports w) |>).
Proof.
  intros HP Hc Hother -> q. sget. rewrite lookup_insert. case_decide as E.
  - by subst.
  - rewrite Hother by done. apply Hc.
Qed.

(** One more request of [P] in flight, and one less. *)
Lemma in_flight_one q P a st m : m !! a = Some (Some P, st) -> st <> EP_POLL_IDLE ->
  in_flight q m = (in_flight q (delete a m) + if bool_decide (q = P) then 1 else 0)%nat.
Proof.
  intros Hm Hst. rewrite (in_flight_lookup q a _ m Hm). f_equal. cbn [fst snd].
  repeat case_bool_decide; naive_solver.
Qed.

(** Counting it in. *)
Lemma count_in a st port : st <> EP_POLL_IDLE ->
  hoare (fun w => (accounted_but a w /\ owner a port w) /\ status_is a st w) (count (Some a) p_pending_poll_count)
    (fun _ w => (accounted w /\ owner a port w) /\ status_is a st w).
Proof.
  intros Hst w r w' [[Hc Ho] (q & Hv)] H. unfold count in H.
  apply bind_inv in H as (P & w1 & (b & s & [= <-] & Hs & -> & ->)%rd_inv & H).
  apply bind_inv in H as (n & w1 & (P & p & HP & Hp & -> & ->)%rd_inv & (P' & p' & HP' & Hp' & ->)%wr_inv).
  assert (P' = P) as -> by congruence. assert (p' = p) as -> by congruence.
  pose proof (view_lookup w a s Hs) as Hv'. rewrite Hv in Hv'. simplify_eq. rewrite HP in Hv.
  split; [split|]; [|exact Ho|by eexists].
  split; [|exact (proj2 Hc)]. eapply counts_set; [exact Hp|exact (proj1 Hc)| |].
  - intros q Hq. change (in_flight q (view w) = in_flight q (delete a (view w))).
    rewrite (in_flight_one q P a _ _ Hv Hst), bool_decide_eq_false_2 by done. lia.
  - change (u64 (p_pending_poll_count p + 1) = u64 (Z.of_nat (in_flight P (view w)))).
    rewrite (agrees_at _ _ _ _ (proj1 Hc) Hp), u64_succ, (in_flight_one P P a _ _ Hv Hst), bool_decide_eq_true_2 by done. done.
Qed.

(** Counting it out, before or after the status is written. *)
Lemma count_out a st w P p :
  accounted w -> view w !! a = Some (Some P, st) -> st <> EP_POLL_IDLE -> w_ports w !! P = Some p ->
  accounted_but a (w <| w_ports := <[P := p <| p_pending_poll_count := u64 (p_pending_poll_count p - 1) |>]> (w_ports w) |>).
Proof.
  intros [Hc Hd] Hv Hst Hp. split; [|exact Hd]. eapply counts_set; [exact Hp|exact Hc| |].
  - intros q Hq. change (in_flight q (delete a (view w)) = in_flight q (view w)).
    rewrite (in_flight_one q P a _ _ Hv Hst), bool_decide_eq_false_2 by done. lia.
  - change (u64 (p_pending_poll_count p - 1) = u64 (Z.of_nat (in_flight P (delete a (view w))))).
    rewrite (agrees_at _ _ _ _ Hc Hp), (in_flight_one P P a _ _ Hv Hst), bool_decide_eq_true_2 by done. apply u64_pred.
Qed.

(** The books are balanced, and what is known of registration [a]. *)
Abbreviation booked a port := (fun w => accounted w /\ owner a port w).
Abbreviation booked_in a port st := (fun w => (accounted w /\ owner a port w) /\ status_is a st w).
(** The same while [a] is left out. *)
Abbreviation unbooked_in a port st := (fun w => (accounted_but a w /\ owner a port w) /\ status_is a st w).

Lemma booked_idle a port w : booked_in a port EP_POLL_IDLE w <-> unbooked_in a port EP_POLL_IDLE w.
Proof.
  split; intros [[Ha Ho] Hs]; (split; [split|]; [|exact Ho|exact Hs]); by apply (accounted_idle a w Hs).
Qed.

Ltac hstep :=
  cbv zeta; lazymatch goal with
  | |- hoare _ (bind (assertM _) _) _ => apply hoare_assert; intros ?
  | |- hoare _ (bind _ _) _ => apply hoare_bind; [typeclasses eauto|intros ?]
  | |- hoare _ (if ?b then _ else _) _ => destruct b eqn:?
  | |- hoare _ (let '(_, _) := ?p in _) _ => destruct p
  | |- hoare _ (match ?o with _ => _ end) _ => destruct o eqn:?
  | |- hoare _ (ret _) _ => apply hoare_ret
  | |- hoare _ stuck _ => apply hoare_stuck
  end.
Ltac hwalk := repeat hstep.
(** A call with a specification. *)
Tactic Notation "hcall" uconstr(lem) := eapply hoare_seq; [apply lem|intros ?; cbv beta].

Lemma hoare_pre {A} (P P' : world -> Prop) (m : MW A) Q :
  hoare P' m Q -> (forall w, P w -> P' w) -> hoare P m Q.
Proof. intros Hm HP w r w' Hw H. eapply Hm; [|exact H]. by apply HP. Qed.
Lemma hoare_post {A} (P : world -> Prop) (m : MW A) (Q Q' : A -> world -> Prop) :
  hoare P m Q' -> (forall a w, Q' a w -> Q a w) -> hoare P m Q.
Proof. intros Hm HQ w r w' Hw H. apply HQ. by eapply Hm. Qed.

(** What reading a field of [a] tells. *)
Lemma hoare_rd_status {B} P a (k : ep_poll_status -> MW B) Q :
  (forall st, hoare (fun w => P w /\ status_is a st w) (k st) Q) ->
  hoare P (bind (rd w_socks (Some a) s_poll_status) k) Q.
Proof.
  intros Hk w r w' HP (st & w1 & (b & s & [= <-] & Hs & -> & ->)%rd_inv & H)%bind_inv.
  eapply Hk; [|exact H]. split; [done|]. exists (s_port s). by apply view_lookup.
Qed.
Lemma hoare_rd_port {B} P a (k : ptr -> MW B) Q :
  (forall port, hoare (fun w => P w /\ owner a port w) (k port) Q) ->
  hoare P (bind (rd w_socks (Some a) s_port) k) Q.
Proof.
  intros Hk w r w' HP (st & w1 & (b & s & [= <-] & Hs & -> & ->)%rd_inv & H)%bind_inv.
  eapply Hk; [|exact H]. split; [done|]. intros x. rewrite (view_lookup w a s Hs). by intros [= <-].
Qed.
Lemma hoare_rd_owner {B} (P : world -> Prop) a port (k : ptr -> MW B) Q :
  (forall w, P w -> owner a port w) -> hoare P (k port) Q -> hoare P (bind (rd w_socks (Some a) s_port) k) Q.
Proof.
  intros Ho Hk w r w' HP (q & w1 & (b & s & [= <-] & Hs & -> & ->)%rd_inv & H)%bind_inv.
  pose proof (Ho w HP _ (view_lookup w a s Hs)) as Hq. cbn in Hq. rewrite Hq in H. by eapply Hk.
Qed.
Lemma status_unique a st st' w : status_is a st w -> status_is a st' w -> st = st'.
Proof. intros [p H] [p' H']. congruence. Qed.

Lemma mark_pending_spec a port :
  hoare (booked_in a port EP_POLL_IDLE) (mark_pending a) (fun _ => booked_in a port EP_POLL_PENDING).
Proof.
  unfold mark_pending. hstep. eapply hoare_seq.
  { eapply hoare_pre; [apply (wr_status_but a EP_POLL_PENDING port)|]. intros w Hw.
    apply booked_idle in Hw. apply Hw. }
  intros ?. cbv beta. hstep. by apply count_in.
Qed.
Lemma unmark_pending_spec a port :
  hoare (booked_in a port EP_POLL_PENDING) (unmark_pending port a) (fun _ => booked_in a port EP_POLL_IDLE).
Proof.
  intros w r w' [[Ha Ho] (q & Hv)] H. unfold unmark_pending in H.
  apply bind_inv in H as (n & w1 & (P & p & -> & Hp & -> & ->)%rd_inv & H).
  apply bind_inv in H as ([] & w1 & [_ ->]%assertM_inv & H).
  apply bind_inv in H as ([] & w1 & (P' & p' & [= <-] & Hp' & ->)%wr_inv & H).
  assert (p' = p) as -> by congruence. pose proof (Ho _ Hv) as Hq. cbn in Hq. subst q.
  apply booked_idle. eapply (wr_status_but a EP_POLL_IDLE (Some P)); [|exact H].
  split; [by eapply count_out|]. exact Ho.
Qed.
Lemma complete_pending_spec a port :
  hoare (booked a port) (ep_sock_complete_pending_locked a) (fun _ => booked_in a port EP_POLL_IDLE).
Proof.
  intros w r w' [Ha Ho] H. unfold ep_sock_complete_pending_locked in H.
  apply bind_inv in H as (q & w1 & (b & s & [= <-] & Hs & -> & ->)%rd_inv & H).
  apply bind_inv in H as (st & w1 & (b & s' & [= <-] & Hs' & -> & ->)%rd_inv & H).
  assert (s' = s) as -> by congruence.
  apply bind_inv in H as (n & w1 & (P & p & HP & Hp & -> & ->)%rd_inv & H).
  destruct (bool_decide (s_poll_status s = EP_POLL_IDLE)) eqn:E; [done|]. apply bool_decide_eq_false in E.
  destruct (p_pending_poll_count p =? 0); [done|]. cbn [orb] in H.
  apply bind_inv in H as ([] & w1 & Hst & H).
  apply bind_inv in H as ([] & w2 & (P' & p' & HP' & Hp' & ->)%wr_inv & [-> ->]%ret_inv).
  assert (P' = P) as -> by congruence.
  pose proof (view_lookup w a s Hs) as Hv. rewrite HP in Hv.
  pose proof (Ho _ Hv) as Hport. cbn in Hport. subst port.
  assert (Hp1 : w_ports w1 = w_ports w) by (apply wr_inv in Hst as (? & ? & _ & _ & ->); done).
  assert (p' = p) as -> by congruence.
  pose proof (count_out a _ w P p Ha Hv E Hp) as Hout.
  apply booked_idle.
  apply wr_inv in Hst as (b & s0 & [= <-] & Hs0 & ->). assert (s0 = s) as -> by congruence.
  eapply (wr_status_but a EP_POLL_IDLE (Some P)
    (w <| w_ports := <[P := p <| p_pending_poll_count := u64 (p_pending_poll_count p - 1) |>]> (w_ports w) |>) tt);
    [split; [exact Hout|exact Ho]|].
  unfold wr. sget. by rewrite Hs.
Qed.

(** ** Requests *)

Definition submit_post (a : addr) (port : ptr) (r : Z * bool) (w : world) : Prop :=
  if r.2 then r.1 = 0 /\ unbooked_in a port EP_POLL_PENDING w else booked_in a port EP_POLL_IDLE w.

(** The status of a request that does not stay in flight goes back to idle. *)
Lemma retire_request a port {B} (k : unit -> MW B) Q :
  hoare (booked_in a port EP_POLL_IDLE) (k tt) Q ->
  hoare (unbooked_in a port EP_POLL_PENDING) (bind (wr w_socks (Some a) s_poll_status EP_POLL_IDLE) k) Q.
Proof.
  intros Hk. eapply hoare_seq; [eapply hoare_pre; [apply (wr_status_but a EP_POLL_IDLE port)|]; by intros w [? _]|].
  intros []. eapply hoare_pre; [exact Hk|]. intros w. apply booked_idle.
Qed.

Lemma submit_request_tally a port afd ev dup :
  hoare (booked_in a port EP_POLL_IDLE) (submit_request afd (Some a) ev dup) (submit_post a port).
Proof.
  unfold submit_request. do 6 hstep. eapply hoare_seq.
  { eapply hoare_pre; [apply (wr_status_but a EP_POLL_PENDING port)|]. intros w Hw. apply booked_idle in Hw. apply Hw. }
  intros ?. cbv beta. hstep. hstep.
  { hstep. apply retire_request. hwalk. by intros w Hw. }
  hstep. hstep.
  { apply retire_request. hwalk. by intros w Hw. }
  destruct (_ =? STATUS_PENDING).
  - apply hoare_bind; [|intros ?; hwalk; by intros w Hw]. apply tallied_stable; [apply _|keeping].
  - eapply hoare_seq with (Q := fun _ => booked_in a port EP_POLL_IDLE); [|intros ?; hwalk; by intros w Hw].
    hstep. apply retire_request. apply (stable (P := booked_in a port EP_POLL_IDLE)).
Qed.

Lemma poll_submit_spec a port ev :
  hoare (booked_in a port EP_POLL_IDLE) (ep_afd_poll_submit (Some a) ev) (submit_post a port).
Proof.
  unfold ep_afd_poll_submit. hwalk; try by (intros w Hw). apply submit_request_tally.
Qed.

(** A request in flight stays in flight when it is marked cancelled. *)
Lemma wr_status_busy a st st' port : st <> EP_POLL_IDLE -> st' <> EP_POLL_IDLE ->
  hoare (booked_in a port st) (wr w_socks (Some a) s_poll_status st') (fun _ => booked_in a port st').
Proof.
  intros Hst Hst' w r w' [[Ha Ho] (q & Hv)] (b & s & [= <-] & Hs & ->)%wr_inv.
  pose proof (view_lookup w a s Hs) as Hv'. rewrite Hv in Hv'. simplify_eq.
  pose proof (view_wr_status w a s st' Hs) as Hview. unfold accounted, addressed, owner, status_is. rewrite Hview.
  split_and!.
  - intros P. specialize (proj1 Ha P). rewrite pending_insert, (in_flight_lookup P a _ _ Hv).
    replace (if bool_decide _ then _ else _) with (if bool_decide (s_port s = Some P /\ st' <> EP_POLL_IDLE) then 1 else 0)%nat; [done|].
    cbn [fst snd]. repeat case_bool_decide; naive_solver.
  - eapply addressed_insert; [exact (proj2 Ha)|exact Hv].
  - intros x. rewrite lookup_insert_eq. intros [= <-]. by apply (Ho _ Hv).
  - eexists. apply lookup_insert_eq.
Qed.

Lemma hoare_last {A} (P : world -> Prop) (m : MW A) Q :
  Stable P m -> (forall a w, P w -> Q a w) -> hoare P m Q.
Proof. intros Hm HQ w r w' Hw H. eapply HQ, Hm; [exact Hw|exact H]. Qed.
Ltac done_ret :=
  lazymatch goal with
  | |- hoare _ _ _ => try (apply hoare_last; [typeclasses eauto|]; by (intros ? ? ?; cbn [fst snd]; intuition))
  | |- _ => try by (intros ? ?; cbn [fst snd]; intuition)
  end.

Lemma afd_cancel_spec a port :
  hoare (booked a port) (ep_afd_cancel (Some a)) (fun _ => booked a port).
Proof.
  unfold ep_afd_cancel. hstep. hstep; [hwalk; done_ret|]. apply hoare_rd_status. intros st. hstep.
  hstep; [hwalk; done_ret|]. apply orb_false_iff in Heqb0 as [E _].
  apply negb_false_iff, bool_decide_eq_true in E. subst st. hwalk; done_ret.
  eapply hoare_seq; [by apply (wr_status_busy a EP_POLL_PENDING EP_POLL_CANCELLED)|]. intros ?. hwalk. done_ret.
Qed.

Lemma cancel_spec a port :
  hoare (booked a port) (ep_sock_cancel_locked a) (fun _ => booked a port).
Proof.
  unfold ep_sock_cancel_locked. apply hoare_rd_status. intros st. hstep; [hwalk; done_ret|].
  apply negb_false_iff, bool_decide_eq_true in Heqb. subst st. hstep. hstep.
  - hstep. hstep; [hwalk; done_ret|]. hstep. hstep. hstep.
    + eapply hoare_seq; [by apply (wr_status_busy a EP_POLL_PENDING EP_POLL_CANCELLED)|]. intros ?. hwalk. done_ret.
    + do 4 hstep. eapply hoare_seq.
      { eapply hoare_pre; [apply (complete_pending_spec a port)|]. done_ret. }
      intros ?. cbv beta. hwalk; done_ret.
  - eapply hoare_seq; [eapply hoare_pre; [apply (afd_cancel_spec a port)|]; done_ret|].
    intros ?. cbv beta. hwalk; done_ret.
Qed.

(** ** Release *)

Lemma del_idle a port : hoare (booked_in a port EP_POLL_IDLE) (del w_socks (Some a)) (fun _ => accounted).
Proof.
  intros w r w' Hw H. apply booked_idle in Hw as [[Ha _] _]. unfold del in H.
  destruct (w_socks w !! a); [|done]. injection H as <- <-.
  assert (Hv : view (w <| w_socks := delete a (w_socks w) |>) = delete a (view w)) by (unfold view; sget; apply fmap_delete).
  unfold accounted, addressed. rewrite Hv. split; [exact (proj1 Ha)|].
  intros b [x Hb]. apply (proj2 Ha). rewrite lookup_delete_Some in Hb. destruct Hb. by eexists.
Qed.
Lemma free_spec a port q :
  hoare (booked_in a port EP_POLL_IDLE) (ep_sock_free_locked q a) (fun _ => accounted).
Proof.
  unfold ep_sock_free_locked. hwalk.
  all: try (apply hoare_bind; [|intros ?]); try (apply tallied_stable; [apply _|keeping]).
  all: apply del_idle.
Qed.

Lemma drop_closed_spec a port q :
  hoare (booked a port) (ep_sock_drop_closed_locked q a) (fun _ => accounted).
Proof.
  unfold ep_sock_drop_closed_locked. do 8 hstep. hstep. apply hoare_rd_status. intros st. hstep.
  - apply bool_decide_eq_true in Heqb. subst st. apply free_spec.
  - hwalk. done_ret.
Qed.

(** ** Submission *)

(** Balanced afterwards; an immediate snapshot leaves the registration idle, and
    so does a failure. *)
Abbreviation submitted_post a port :=
  (fun (r : Z * bool) w => accounted w /\ (r.2 || (r.1 <? 0) = true -> booked_in a port EP_POLL_IDLE w)).
(** The same for a registration with a request in flight, which may stay so. *)
Abbreviation resubmitted_post a port :=
  (fun (r : Z * bool) w => accounted w /\ (r.2 = true -> booked_in a port EP_POLL_IDLE w)).

Lemma drop_and_report_spec a port q e :
  hoare (booked a port) (drop_and_report q a e) (submitted_post a port).
Proof. unfold drop_and_report. hcall drop_closed_spec. hwalk; done_ret. Qed.
Lemma post_pending_spec a port :
  hoare (booked_in a port EP_POLL_IDLE) (post_pending a) (submitted_post a port).
Proof.
  unfold post_pending. hwalk; done_ret. hcall (mark_pending_spec a port). hwalk; done_ret.
Qed.
Lemma submit_waitable_spec a port q :
  hoare (booked_in a port EP_POLL_IDLE) (submit_waitable q a) (submitted_post a port).
Proof.
  unfold submit_waitable. hwalk; done_ret; try apply (post_pending_spec a port).
  - eapply hoare_pre; [apply (drop_and_report_spec a port)|]. done_ret.
  - hcall (mark_pending_spec a port). hwalk; done_ret.
Qed.
Lemma submit_pipe_spec a port q :
  hoare (booked_in a port EP_POLL_IDLE) (submit_pipe q a) (submitted_post a port).
Proof.
  unfold submit_pipe. hwalk; done_ret.
  - eapply hoare_pre; [apply (drop_and_report_spec a port)|]. done_ret.
  - hcall (mark_pending_spec a port). hwalk; done_ret.
Qed.
Lemma submit_immediate_spec a port b :
  hoare (booked_in a port EP_POLL_IDLE) (submit_immediate port a b) (submitted_post a port).
Proof.
  unfold submit_immediate. hwalk; done_ret. hcall (mark_pending_spec a port). hwalk; done_ret.
  hcall (unmark_pending_spec a port). hwalk; done_ret.
Qed.
Lemma submit_afd_spec a port ev b :
  hoare (booked_in a port EP_POLL_IDLE) (submit_afd port a ev b) (submitted_post a port).
Proof.
  unfold submit_afd. hstep. hstep; [hwalk; done_ret|]. do 3 hstep. hcall (poll_submit_spec a port).
  destruct a4 as [failed pending]. unfold submit_post. cbn [fst snd]. destruct pending.
  - hstep; [intros w r w' [E _] _; subst; discriminate|]. apply (hoare_pre _ (unbooked_in a port EP_POLL_PENDING));
      [|by intros w [_ ?]]. do 3 hstep. eapply hoare_seq; [by apply (count_in a EP_POLL_PENDING port)|].
    intros ?. cbv beta. hwalk. done_ret.
  - hwalk; done_ret; [|apply submit_immediate_spec].
    eapply hoare_pre; [apply (drop_and_report_spec a port)|]. done_ret.
Qed.
Lemma submit_socket_spec a port b :
  hoare (booked_in a port EP_POLL_IDLE) (submit_socket port a b) (submitted_post a port).
Proof.
  unfold submit_socket, probe_fired. hwalk; done_ret; [|apply submit_afd_spec].
  eapply hoare_pre; [apply (drop_and_report_spec a port)|]. done_ret.
Qed.
Lemma submit_kind_spec a port v b :
  hoare (booked_in a port EP_POLL_IDLE) (submit_kind port a v b) (submitted_post a port).
Proof.
  unfold submit_kind. hwalk; done_ret; auto using submit_waitable_spec, submit_pipe_spec, submit_socket_spec.
  all: eapply hoare_pre; [apply (drop_and_report_spec a port)|]; done_ret.
Qed.

Lemma submit_retire_aux_spec a port :
  hoare (booked a port) (submit_retire_aux port a)
    (fun r w => match r with inl st => booked_in a port st w /\ st = EP_POLL_IDLE | inr _ => accounted w end).
Proof.
  unfold submit_retire_aux. hcall cancel_spec. hstep.
  - hstep. hcall drop_closed_spec. hwalk; done_ret.
  - apply hoare_rd_status. intros st. hwalk; done_ret. apply negb_false_iff, bool_decide_eq_true in Heqb0. done_ret.
Qed.
Lemma submit_dormant_spec a port :
  hoare (booked a port) (submit_dormant a) (resubmitted_post a port).
Proof.
  unfold submit_dormant. hstep. eapply (hoare_seq _ (fun _ => booked a port)).
  { destruct (bool_decide _); [apply cancel_spec|hwalk; done_ret]. }
  intros ?. hwalk; done_ret.
Qed.

Lemma submit_dormant_idle_spec a port :
  hoare (booked_in a port EP_POLL_IDLE) (submit_dormant a) (submitted_post a port).
Proof.
  unfold submit_dormant. apply hoare_rd_status. intros st. case_bool_decide as E.
  - subst st. intros w r w' [[_ Hs] Hs']. by pose proof (status_unique _ _ _ _ Hs Hs').
  - apply (hoare_pre _ (booked_in a port EP_POLL_IDLE)); [|by intros w [Hw _]]. hwalk; done_ret.
Qed.
Lemma submit_spec a port v b :
  hoare (booked a port) (ep_sock_submit_locked a v b) (resubmitted_post a port).
Proof.
  unfold ep_sock_submit_locked. eapply hoare_rd_owner; [by intros w [_ ?]|]. apply hoare_rd_status. intros st.
  do 3 hstep. hstep; [hwalk; done_ret|]. hstep. hstep.
  { eapply hoare_pre; [apply (submit_dormant_spec a port)|]. done_ret. }
  hstep. hstep.
  eapply (hoare_seq _ (fun r w => match r with inl st' => booked_in a port st' w | inr _ => accounted w end)).
  { destruct (_ && _ && _).
    - eapply hoare_pre; [eapply hoare_post; [apply (submit_retire_aux_spec a port)|]|]; [|done_ret].
      intros [st'|] w; [by intros [? _]|done].
    - hwalk. done_ret. }
  intros [st'|r]; hwalk; done_ret.
  match goal with H : negb (bool_decide (st' = _)) = false |- _ => apply negb_false_iff, bool_decide_eq_true in H; subst st' end.
  eapply hoare_post; [apply submit_kind_spec|]. intros r w [Hw Hi]. split; [done|]. intros Hr. apply Hi. by rewrite Hr.
Qed.
(** A registration without a request in flight. *)
Lemma submit_idle_spec a port v b :
  hoare (booked_in a port EP_POLL_IDLE) (ep_sock_submit_locked a v b) (submitted_post a port).
Proof.
  unfold ep_sock_submit_locked. eapply hoare_rd_owner; [by intros w [[_ ?] _]|]. apply hoare_rd_status. intros st.
  destruct (decide (st = EP_POLL_IDLE)) as [->|Hne].
  2: { intros w r w' [[_ Hs] Hs']. by pose proof (status_unique _ _ _ _ Hs Hs'). }
  apply (hoare_pre _ (booked_in a port EP_POLL_IDLE)); [|by intros w [Hw _]]. do 3 hstep. hstep; [hwalk; done_ret|]. hstep.
  hstep; [apply submit_dormant_idle_spec|]. do 2 hstep.
  rewrite (bool_decide_eq_false_2 (EP_POLL_IDLE = EP_POLL_PENDING)) by done. rewrite andb_false_r. cbn [andb].
  apply hoare_bind_ret. rewrite bool_decide_eq_true_2 by done. cbn [negb]. hwalk; done_ret. apply submit_kind_spec.
Qed.

(** ** Completion *)

Lemma resubmit_spec q port a : hoare (booked a port) (resubmit q a) (fun _ => accounted).
Proof. unfold resubmit, resubmit_failed. hcall (submit_spec a port). hwalk; done_ret. Qed.

Lemma disarm_failed_spec a port q :
  hoare (booked a port) (disarm_failed q a) (fun _ => accounted).
Proof.
  unfold disarm_failed. do 5 hstep. hstep; [|hwalk; done_ret].
  hcall cancel_spec. apply hoare_rd_status. intros st. hstep. hstep; [|hwalk; done_ret].
  apply andb_true_iff in Heqb0 as [[_ E]%andb_true_iff _]. apply bool_decide_eq_true in E. subst st. apply free_spec.
Qed.

Lemma completion_retire_spec a port st :
  hoare (booked a port) (completion_retire port a st)
    (fun go w => accounted w /\ (go = true -> booked_in a port EP_POLL_IDLE w)).
Proof.
  unfold completion_retire. hstep. hstep; [hwalk; done_ret|]. do 4 hstep.
  eapply (hoare_seq _ (fun go w => accounted w /\ (go = true -> booked a port w))).
  { destruct (is_aux _); [|hwalk; done_ret]. hstep. hstep; [|hwalk; done_ret].
    hcall (disarm_failed_spec a port). hwalk. done_ret. }
  intros go. destruct go; cbn [negb]; [|hwalk; done_ret].
  eapply hoare_seq; [eapply hoare_pre; [apply (complete_pending_spec a port)|]; intuition|]. intros failed. cbv beta.
  hwalk; done_ret.
  - eapply (hoare_seq _ (fun _ => accounted)); [hwalk; [apply (free_spec a port)|done_ret]|]. intros ?. hwalk. done_ret.
  - hcall (free_spec a port). hwalk. done_ret.
  - eapply hoare_seq; [eapply hoare_pre; [apply (resubmit_spec port port a)|]; done_ret|]. intros ?. cbv beta. hwalk. done_ret.
Qed.

#[export] Instance snapshot_entry_tally a : Keeps tally (snapshot_entry a).
Proof. unfold snapshot_entry. keeping. Qed.
#[export] Instance snapshot_outdated_tally p a st : Keeps tally (snapshot_outdated p a st).
Proof. unfold snapshot_outdated. keeping. Qed.

(** The outcome of a stage: balanced, and ready for the next stage if there is one. *)
Abbreviation staged a port go := (fun w => accounted w /\ (go -> booked_in a port EP_POLL_IDLE w)).
Lemma drop_stage {A} a port (x : A) (Q : A -> world -> Prop) : (forall w, accounted w -> Q x w) ->
  hoare (booked_in a port EP_POLL_IDLE) (ep_sock_drop_closed_locked port a ;; ret x) Q.
Proof.
  intros HQ. eapply hoare_seq; [eapply hoare_pre; [apply (drop_closed_spec a port)|]; done_ret|].
  intros ?. by apply hoare_ret.
Qed.

Lemma snapshot_live_spec a port st :
  hoare (booked_in a port EP_POLL_IDLE) (snapshot_live port a st) (fun go => staged a port (go = true)).
Proof.
  unfold snapshot_live. hwalk; done_ret.
  all: apply drop_stage; done_ret.
Qed.

Lemma snapshot_loop_spec a port st fuel :
  hoare (booked_in a port EP_POLL_IDLE) (snapshot_loop fuel port a st) (fun go => staged a port (go = true)).
Proof.
  induction fuel as [|fuel IH]; cbn [snapshot_loop]; hcall (snapshot_live_spec a port st);
    (destruct a0; cbn [negb]; [|hwalk; done_ret]);
    (apply (hoare_pre _ (booked_in a port EP_POLL_IDLE)); [|by intuition]);
    (hstep; hstep; [hwalk; done_ret|]); do 2 hstep;
    (eapply hoare_seq; [eapply hoare_pre; [apply (submit_spec a port)|]; done_ret|]);
    intros [res imm]; cbn [fst snd]; unfold resubmit_failed; (hstep; hstep; [|hwalk; done_ret]); [done|].
  apply andb_true_iff in Heqb0 as [_ ->]. eapply hoare_pre; [exact IH|]. intuition.
Qed.

#[export] Instance waitable_delivery_tally a st : Keeps tally (waitable_delivery a st).
Proof. unfold waitable_delivery. keeping. Qed.
#[export] Instance filter_disarmed_tally a d : Keeps tally (filter_disarmed a d).
Proof. unfold filter_disarmed. keeping. Qed.
#[export] Instance qualify_directions_tally a l d : Keeps tally (qualify_directions a l d).
Proof. unfold qualify_directions, sample_direction. keeping. Qed.
#[export] Instance qualify_tally a d : Keeps tally (qualify a d).
Proof. unfold qualify. keeping. Qed.
#[export] Instance edge_filter_tally a sn l : Keeps tally (edge_filter a sn l).
Proof. unfold edge_filter. keeping. Qed.
#[export] Instance deliver_tally p a o d : Keeps tally (deliver p a o d).
Proof. unfold deliver, deliver_failed. keeping. Qed.

Lemma udp_qualify_spec a port ev :
  hoare (booked_in a port EP_POLL_IDLE) (udp_qualify port a ev) (fun r => staged a port (is_Some r)).
Proof.
  unfold udp_qualify. hwalk; try done_ret. apply drop_stage. intros w Hw. split; [done|]. by intros [].
Qed.
Lemma observe_spec a port st :
  hoare (booked_in a port EP_POLL_IDLE) (observe port a st) (fun r => staged a port (is_Some r)).
Proof.
  unfold observe. apply hoare_bind; [apply tallied_stable; [apply _|keeping]|]. intros [i|].
  - unfold afd_delivery.
    eapply hoare_seq with (Q := fun r => staged a port (is_Some r)).
    { hstep. eapply (hoare_seq _ (fun r => staged a port (is_Some r))).
      - hstep; [apply udp_qualify_spec|]. hwalk. done_ret.
      - intros [[[ev parked] err]|]; hwalk.
        + intros w [Hw Hgo]. split; [done|]. intros _. by apply Hgo.
        + intros w [Hw _]. split; [done|]. by intros []. }
    intros [r|]; hwalk; intros w [Hw Hgo]; (split; [done|]); intros [? E]; [by apply Hgo|done].
  - hwalk; try done_ret. apply drop_stage. intros w Hw. split; [done|]. by intros [].
Qed.
Lemma deliver_nothing_spec a port b sn :
  hoare (booked_in a port EP_POLL_IDLE) (deliver_nothing port a b sn) (fun _ => accounted).
Proof.
  unfold deliver_nothing. hwalk; try done_ret.
  all: eapply hoare_pre; [apply (resubmit_spec port port a)|]; done_ret.
Qed.

Lemma handle_completion_spec a st : hoare accounted (ep_sock_handle_completion a st) (fun _ => accounted).
Proof.
  unfold ep_sock_handle_completion. apply hoare_rd_port. intros port.
  hcall (completion_retire_spec a port st). destruct a0; cbn [negb]; [|hwalk; done_ret].
  eapply hoare_seq; [eapply hoare_pre; [apply (snapshot_loop_spec a port st)|]; intuition|].
  intros []; cbn [negb]; [|hwalk; done_ret].
  eapply hoare_seq; [eapply hoare_pre; [apply (observe_spec a port st)|]; intuition|].
  intros [[[d parked] sn]|]; [|hwalk; done_ret].
  apply (hoare_pre _ (booked_in a port EP_POLL_IDLE)); [|intros w [_ Hgo]; by apply Hgo].
  hwalk; [apply deliver_nothing_spec|done_ret].
Qed.

(** ** Control and arming *)

Lemma retire_stale_spec a port q : hoare (booked a port) (ep_sock_retire_stale_locked q a) (fun _ => accounted).
Proof.
  unfold ep_sock_retire_stale_locked. do 2 hstep. eapply (hoare_seq _ (fun _ => booked a port)).
  { hwalk; [hcall cancel_spec; hwalk; done_ret|done_ret]. }
  intros ?. cbv beta. do 4 hstep. hcall drop_closed_spec. hwalk; done_ret.
Qed.
(** The owner of [a] is whatever it is. *)
Lemma hoare_booked {A} a (m : MW A) Q : (forall port, hoare (booked a port) m Q) -> hoare accounted m Q.
Proof.
  intros Hm w r w' Hw H. destruct (view w !! a) as [[port st]|] eqn:Hv.
  - eapply (Hm port); [|exact H]. split; [done|]. intros x. rewrite Hv. by intros [= <-].
  - eapply (Hm None); [|exact H]. split; [done|]. intros x. by rewrite Hv.
Qed.
Lemma validate_control_spec a q :
  hoare accounted (ep_sock_validate_control_locked q a) (fun _ => accounted).
Proof.
  pose proof (hoare_booked a _ _ (fun port => retire_stale_spec a port q)) as Hr.
  unfold ep_sock_validate_control_locked. hwalk; done_ret; hcall Hr; hwalk; done_ret.
Qed.
Lemma arm_loop_spec (visit : Z -> MW Z) n : forall e,
  (forall e, hoare accounted (visit e) (fun _ => accounted)) ->
  hoare accounted (arm_loop n visit e) (fun _ => accounted).
Proof.
  induction n as [|n IH]; intros e Hv; cbn [arm_loop]; [hwalk; done_ret|]. hcall Hv. by apply IH.
Qed.
Lemma submit_accounted a v b : hoare accounted (ep_sock_submit_locked a v b) (fun _ => accounted).
Proof.
  apply (hoare_booked a). intros port. eapply hoare_post; [apply (submit_spec a port)|]. by intros r w [? _].
Qed.
Lemma arm_pending_spec port : hoare accounted (ep_port_arm_pending_locked port) (fun _ => accounted).
Proof.
  assert (Hv : forall head flag visits (Sv : Setter visits) rotate q e, (forall v, Keeps tally (wr w_ports q visits v)) ->
    (forall p s, Keeps tally (rotate p s)) ->
    hoare accounted (@arm_visit head flag visits Sv rotate q e) (fun _ => accounted)).
  { intros head flag visits Sv rotate q e Hw Hr. unfold arm_visit. hwalk; done_ret; hcall submit_accounted; hwalk; done_ret. }
  unfold ep_port_arm_pending_locked. do 2 hstep. eapply hoare_seq; [apply arm_loop_spec|].
  { intros e. apply Hv; intros; typeclasses eauto. }
  intros ?. cbv beta. eapply hoare_seq; [apply arm_loop_spec|].
  { intros e. apply Hv; intros; typeclasses eauto. }
  intros ?. cbv beta. hwalk; done_ret.
Qed.

(** ** Allocation *)

Abbreviation idle_in a := (fun w => accounted w /\ status_is a EP_POLL_IDLE w).

Lemma alloc_idle n :
  hoare accounted (alloc w_socks n zero_sock)
    (fun r w => match r with Some a => idle_in a w | None => accounted w end).
Proof.
  intros w r w' Hw H. unfold alloc in H. apply bind_inv in H as (z & w1 & Hos & H).
  assert (accounted w1) as H1 by (by apply (tallied_stable accounted (os (Malloc n)) _ _ w z w1 Hw Hos)).
  destruct ((z <=? 0) || (UINT64_MAX <? z)) eqn:Hz; [injection H as <- <-; done|].
  destruct (w_socks w1 !! Z.to_pos z) eqn:E; injection H as <- <-; [done|].
  assert (Hv : view (w1 <| w_socks := <[Z.to_pos z := zero_sock]> (w_socks w1) |>) =
    <[Z.to_pos z := (None, EP_POLL_IDLE)]> (view w1)) by (unfold view; sget; by rewrite fmap_insert).
  assert (Hn : view w1 !! Z.to_pos z = None) by (unfold view; by rewrite lookup_fmap, E).
  split; [|exists None; by rewrite Hv, lookup_insert_eq].
  unfold accounted, addressed. rewrite Hv. split.
  - intros port. rewrite pending_insert, delete_id by done. rewrite bool_decide_eq_false_2 by (by intros [? _]).
    rewrite Nat.add_0_r. apply (proj1 H1).
  - apply orb_false_iff in Hz as [? ?]. intros b. rewrite lookup_insert_is_Some'. intros [<-|Hb]; [lia|by apply (proj2 H1)].
Qed.
(** The owner of an idle registration may be set. *)
Lemma wr_view_idle {T} a (f : ep_sock -> T) `{!Setter f} v :
  (forall s, s_poll_status s = EP_POLL_IDLE -> s_poll_status (s <| f := v |>) = EP_POLL_IDLE) ->
  hoare (idle_in a) (wr w_socks (Some a) f v) (fun _ => idle_in a).
Proof.
  intros Hf w r w' [Ha Hi] (b & s & [= <-] & Hs & ->)%wr_inv.
  pose proof Hi as [q Hv]. pose proof (view_lookup w a s Hs) as Hv'. rewrite Hv in Hv'.
  assert (Hst : s_poll_status s = EP_POLL_IDLE) by congruence. specialize (Hf s Hst).
  assert (Hview : view (w <| w_socks := <[a := s <| f := v |>]> (w_socks w) |>) =
    <[a := (s_port (s <| f := v |>), EP_POLL_IDLE)]> (view w)).
  { unfold view. sget. by rewrite fmap_insert, Hf. }
  apply (accounted_idle a w Hi) in Ha.
  assert (Hi' : status_is a EP_POLL_IDLE (w <| w_socks := <[a := s <| f := v |>]> (w_socks w) |>))
    by (eexists; by rewrite Hview, lookup_insert_eq).
  split; [|exact Hi']. apply (accounted_idle a _ Hi'). unfold accounted_but, addressed. rewrite Hview, delete_insert_eq.
  split; [exact (proj1 Ha)|]. eapply addressed_insert; [exact (proj2 Ha)|exact Hv].
Qed.
Lemma del_fresh a : hoare (idle_in a) (del w_socks (Some a)) (fun _ => accounted).
Proof.
  intros w r w' [Ha Hi] H. pose proof Hi as [q Hv]. eapply (del_idle a q); [|exact H].
  split; [split; [done|]|done]. intros x. rewrite Hv. by intros [= <-].
Qed.
Lemma alloc_fields_spec a port fd :
  hoare (idle_in a) (alloc_socket_fields port a fd)
    (fun ok w => if ok : bool then idle_in a w else accounted w).
Proof.
  unfold alloc_socket_fields. hwalk; done_ret; eapply hoare_seq; try apply del_fresh; intros ?; hwalk; done_ret.
Qed.
Lemma alloc_locked_spec port fd t :
  hoare accounted (ep_sock_alloc_locked port fd t)
    (fun r w => match r with Some a => idle_in a w | None => accounted w end).
Proof.
  unfold ep_sock_alloc_locked. hwalk; done_ret. hcall alloc_idle. destruct a as [a|]; [|hwalk; done_ret].
  do 4 hstep. eapply (hoare_seq _ (fun (ok : bool) w => if ok then idle_in a w else accounted w)).
  { hstep; [hwalk; done_ret|]. hstep; [hwalk; done_ret|]. apply alloc_fields_spec. }
  intros []; cbn [negb]; [|hwalk; done_ret]. cbv beta iota. hstep.
  eapply hoare_seq; [by apply (wr_view_idle a s_port)|]. intros ?. cbv beta. do 2 hstep.
  eapply hoare_seq; [by apply (wr_view_idle a s_poll_status)|]. intros ?. cbv beta. hwalk. done_ret.
Qed.
