(* ===== verification/Control.v ===== *)
(** * Control operations

    [src/wepoll_ex_port.c], 4889-5944: [epoll_ctl]'s ADD, MOD and DEL, local
    shutdown and re-arming.  Each operation is one critical section under
    [fd_table_lock]; the wake-up packet some of them post is sent after it. *)
From S2P Require Import Prelude Codes Types Errno Fault Links Pool ReadyQueue Quiet Readiness.
From S2P Require Import Exclusive FdTable Worklists Timeout Iocp Provider PollKeys AfdOps Groups Pipe.
From S2P Require Import Targets Levels Registration.

(** ** Steps the operations share *)

(** [ep_set_errno(error); return -1]. *)
Definition fail_with (error : Z) : MW Z := ep_set_errno error ;; ret (-1).

(** [atomic_fetch_add(&port->generation, 1)]. *)
Definition bump_generation (port : ptr) : MW unit :=
  generation <- rd w_ports port p_generation ;;
  wr w_ports port p_generation (u64 (generation + 1)).

(** A waiter is blocked and not yet returning a batch. *)
Definition waiter_listening (port : ptr) : MW bool :=
  active <- rd w_ports port p_waiter_active ;;
  coalescing <- rd w_ports port p_waiter_coalescing ;;
  ret (active && negb coalescing).

(** After the critical section: wake the waiter for a node queued by it. *)
Definition wake_waiter (port : ptr) (wake : bool) : MW Z :=
  if wake then
    post <- ep_port_post_iocp port 0 OvNull EP_FAULT_IOCP_POST ;;
    let (posted, post_error) := post : bool * Z in
    if posted then ret 0
    else ep_port_fail_iocp_post port post_error ;; ep_set_win32_error post_error ;; ret (-1)
  else ret 0.

(** [wake_ready_waiter] after a submission that returned 0. *)
Definition shutdown_ready (sock : addr) : MW bool :=
  local_shutdown <- rd w_socks (Some sock) s_local_shutdown ;;
  ready <- rd w_socks (Some sock) s_ready_queued ;;
  ret (negb (local_shutdown =? 0) && ready).

(** The observation state MOD and re-arm put back when a submission fails. *)
Definition restore_observation (sock : addr) (old : ep_sock) : MW unit :=
  wr w_socks (Some sock) s_pending_events (s_pending_events old) ;;
  wr w_socks (Some sock) s_observed_events (s_observed_events old) ;;
  ep_sock_restore_worklist_state_locked (Some sock) (s_needs_rearm old) (s_oneshot_fired old) ;;
  wr w_socks (Some sock) s_pipe_terminal_delivered (s_pipe_terminal_delivered old) ;;
  wr w_socks (Some sock) s_et_holdoff (s_et_holdoff old) ;;
  wr w_socks (Some sock) s_udp_readless_receive_parked (s_udp_readless_receive_parked old) ;;
  wr w_socks (Some sock) s_waitable_notification_owned (s_waitable_notification_owned old) ;;
  wr w_socks (Some sock) s_base_socket (s_base_socket old) ;;
  wr w_socks (Some sock) s_endpoint_id (s_endpoint_id old) ;;
  wr w_socks (Some sock) s_endpoint_id_state (s_endpoint_id_state old) ;;
  wr w_socks (Some sock) s_generation (s_generation old) ;;
  wr w_socks (Some sock) s_ready_queued (s_ready_queued old) ;;
  wr w_socks (Some sock) s_state (s_state old).

(** ** ADD *)

(** The registration already in the table: whether ADD may go on. *)
Definition register_existing (port : ptr) (fd : Z) : MW bool :=
  existing <- ep_fd_table_lookup port fd ;;
  match existing with
  | None => ret true
  | Some a =>
    identity_result <- ep_sock_validate_control_locked port a ;;
    if identity_result =? 0 then ep_set_errno EEXIST ;; ret false
    else
      error <- ep_last_err ;;
      ret (negb ((identity_result <? 0) || negb (error =? ENOENT)))
  end.

(** A registration that never reached the table is given back. *)
Definition discard_sock (port : ptr) (sock : addr) : MW unit :=
  info <- rd w_socks (Some sock) s_afd_info ;;
  match info with
  | Some _ => pool <- rd w_ports port p_afd_info_pool ;; ep_afd_pool_give pool info
  | None => ret tt
  end ;;
  del w_socks (Some sock).

(** The errno with which the kind of the object refuses the flags, or 0. *)
Definition register_refusal (explicit_rearm : bool) (s : ep_sock) (events flags : Z) : Z :=
  if explicit_rearm && has flags EPOLLET && negb (bool_decide (s_kind s = EP_REG_SOCKET)) then EOPNOTSUPP
  else if explicit_rearm && has flags EPOLLET && has flags EPOLLEXCLUSIVE then EINVAL
  else if is_aux (s_kind s) && has flags EPOLLEXCLUSIVE then EINVAL
  else if bool_decide (s_kind s = EP_REG_WAITABLE) && has flags EPOLLET &&
          negb (ep_waitable_interest_events events =? 0) &&
          bool_decide (s_waitable_semantics s = EP_WAITABLE_ET_UNSUPPORTED) then EINVAL
  else 0.

Definition register_fields (sock : addr) (events flags data ctx : Z) : MW unit :=
  wr w_socks (Some sock) s_user_events events ;;
  wr w_socks (Some sock) s_user_flags flags ;;
  wr w_socks (Some sock) s_user_data data ;;
  wr w_socks (Some sock) s_user_ctx ctx ;;
  wr w_socks (Some sock) s_observed_events 0 ;;
  wr w_socks (Some sock) s_explicit_disarmed_classes 0 ;;
  wr w_socks (Some sock) s_pipe_terminal_delivered false ;;
  wr w_socks (Some sock) s_et_holdoff false.

(** The first submission: a socket at once, an auxiliary object only for a
    listening waiter. *)
Definition register_submit (port : ptr) (sock : addr) : MW Z :=
  s <- rd w_socks (Some sock) (fun s => s) ;;
  listening <- waiter_listening port ;;
  submit_result <-
    (if negb (ep_waitable_is_dormant s) && (bool_decide (s_kind s = EP_REG_SOCKET) || listening)
     then r <- ep_sock_submit_locked sock true false ;; ret r.1 else ret 0) ;;
  if submit_result <? 0 then
    saved_error <- ep_get_last_error_info ;;
    ep_fd_table_remove port (Some sock) ;;
    ep_sock_free_locked port sock ;;
    ep_restore_last_error_info saved_error ;;
    ret (-1)
  else if 0 <? submit_result then
    saved_error <- ep_get_last_error_info ;;
    ep_restore_last_error_info saved_error ;;
    ret (-1)
  else bump_generation port ;; ret 0.

(** The new registration enters the table and the list. *)
Definition register_insert (port : ptr) (sock : addr) : MW Z :=
  failed <- ep_fd_table_insert port (Some sock) ;;
  if negb (failed =? 0) then discard_sock port sock ;; ret (-1)
  else
    ep_sock_list_add_locked port (Some sock) ;;
    dormant <- rd w_socks (Some sock) ep_waitable_is_dormant ;;
    (if negb dormant then ep_sock_set_needs_rearm_locked (Some sock) true else ret tt) ;;
    register_submit port sock.

Definition ep_port_register (port : ptr) (fd events flags data ctx : Z) : MW Z :=
  if fd =? INVALID_SOCKET then fail_with EBADF
  else
  closing <- rd w_ports port p_closing ;;
  if closing : bool then fail_with EBADF
  else
  go_on <- register_existing port fd ;;
  if negb go_on then ret (-1)
  else
  r <- ep_target_probe fd ;;
  let '(probe_result, target) := r in
  if negb (probe_result =? 0) then ret (-1)
  else
  sock <- ep_sock_alloc_locked port fd target ;;
  match sock with
  | None => ret (-1)
  | Some a =>
    register_fields a events flags data ctx ;;
    explicit_rearm <- rd w_ports port p_explicit_rearm ;;
    s <- rd w_socks sock (fun s => s) ;;
    let refusal := register_refusal explicit_rearm s events flags in
    if negb (refusal =? 0) then discard_sock port a ;; fail_with refusal
    else register_insert port a
  end.

(** ** MOD *)

(** A request in flight when the interest changes: cancelled, or kept because
    it covers the new interest.  [None]: the cancellation failed. *)
Definition modify_pending (sock : addr) (new_waitable_dormant : bool) (new_afd_events : Z) : MW (option bool) :=
  s <- rd w_socks (Some sock) (fun s => s) ;;
  let cancel := failed <- ep_sock_cancel_locked sock ;;
                ret (if negb (failed =? 0) then None else Some false) in
  if negb (bool_decide (s_poll_status s = EP_POLL_PENDING)) then ret (Some false)
  else if bool_decide (s_kind s = EP_REG_WAITABLE) && new_waitable_dormant then cancel
  else if is_aux (s_kind s) then ret (Some true)
  else if negb (s_local_shutdown s =? 0) then cancel
  else if Z.ldiff new_afd_events (s_submitted_afd_events s) =? 0 then ret (Some true)
  else cancel.

(** A queued node of a consumptive waitable carries a consumed notification. *)
Definition holds_notification (s : ep_sock) : bool :=
  s_ready_queued s && bool_decide (s_kind s = EP_REG_WAITABLE) &&
  negb (bool_decide (s_waitable_semantics s = EP_WAITABLE_PERSISTENT)) &&
  negb (bool_decide (s_waitable_semantics s = EP_WAITABLE_TERMINAL)) &&
  negb (Z.ldiff (s_pending_events s) (EPOLLERR ||| EPOLLHUP) =? 0).

(** The new interest is stored and the observation state starts afresh. *)
Definition modify_fields (port : ptr) (sock : addr) (events flags data ctx : Z)
    (replacement : option Z) (transfer covered dormant : bool) : MW unit :=
  wr w_socks (Some sock) s_user_events events ;;
  wr w_socks (Some sock) s_user_flags flags ;;
  wr w_socks (Some sock) s_user_data data ;;
  wr w_socks (Some sock) s_user_ctx ctx ;;
  wr w_socks (Some sock) s_pending_events (default 0 replacement) ;;
  wr w_socks (Some sock) s_observed_events 0 ;;
  wr w_socks (Some sock) s_explicit_disarmed_classes 0 ;;
  wr w_socks (Some sock) s_pipe_terminal_delivered false ;;
  wr w_socks (Some sock) s_et_holdoff false ;;
  wr w_socks (Some sock) s_udp_readless_receive_parked false ;;
  ep_sock_set_oneshot_fired_locked (Some sock) false ;;
  (if transfer then wr w_socks (Some sock) s_waitable_notification_owned true else ret tt) ;;
  (if dormant || bool_decide (is_Some replacement) then ep_sock_set_needs_rearm_locked (Some sock) false
   else if negb covered then ep_sock_set_needs_rearm_locked (Some sock) true
   else ret tt) ;;
  wr w_socks (Some sock) s_ready_queued (bool_decide (is_Some replacement)) ;;
  next_generation port sock.

(** The notification the old node carried is queued again under the new
    generation. *)
Definition modify_requeue (port : ptr) (sock node : addr) (replacement_events flags : Z) : MW unit :=
  (if has flags EPOLLET then wr w_socks (Some sock) s_observed_events replacement_events else ret tt) ;;
  (if has flags EPOLLONESHOT then ep_sock_set_oneshot_fired_locked (Some sock) true else ret tt) ;;
  wr w_socks (Some sock) s_state EP_SOCK_READY ;;
  fill_node node sock replacement_events ;;
  stamp_node port node ;;
  queue <- rd w_ports port p_ready_queue ;;
  ep_ready_push queue (Some node).

Definition modify_restore (sock : addr) (old : ep_sock) : MW unit :=
  wr w_socks (Some sock) s_user_events (s_user_events old) ;;
  wr w_socks (Some sock) s_user_flags (s_user_flags old) ;;
  wr w_socks (Some sock) s_user_data (s_user_data old) ;;
  wr w_socks (Some sock) s_user_ctx (s_user_ctx old) ;;
  wr w_socks (Some sock) s_explicit_disarmed_classes (s_explicit_disarmed_classes old) ;;
  restore_observation sock old.

(** The submission for a listening waiter: [Some wake], or [None] when MOD
    fails. *)
Definition modify_submit (port : ptr) (sock : addr) (old : ep_sock) (dormant : bool) : MW (option bool) :=
  poll_status <- rd w_socks (Some sock) s_poll_status ;;
  listening <- waiter_listening port ;;
  if negb dormant && bool_decide (poll_status = EP_POLL_IDLE) && listening then
    r <- ep_sock_submit_locked sock true false ;;
    let submit_result := r.1 in
    if 0 <? submit_result then
      saved_error <- ep_get_last_error_info ;;
      ep_restore_last_error_info saved_error ;;
      ret None
    else if submit_result <? 0 then
      saved_error <- ep_get_last_error_info ;;
      modify_restore sock old ;;
      ep_restore_last_error_info saved_error ;;
      ret None
    else wake <- shutdown_ready sock ;; ret (Some wake)
  else ret (Some false).

(** From the point at which the old state is saved. *)
Definition modify_apply (port : ptr) (sock : addr) (events flags data ctx : Z) (covered : bool)
    (new_waitable_interest : Z) (dormant : bool) : MW Z :=
  old <- rd w_socks (Some sock) (fun s => s) ;;
  let preserve := holds_notification old && negb (new_waitable_interest =? 0) in
  let transfer := holds_notification old && (new_waitable_interest =? 0) in
  node <- (if preserve then ep_ready_node_alloc port else ret NULL) ;;
  if preserve && bool_decide (node = NULL) then ret (-1)
  else
    modify_fields port sock events flags data ctx
      (if preserve then Some new_waitable_interest else None) transfer covered dormant ;;
    match node with
    | Some n => modify_requeue port sock n new_waitable_interest flags
    | None => if dormant then wr w_socks (Some sock) s_state EP_SOCK_REGISTERED else ret tt
    end ;;
    wake <- modify_submit port sock old dormant ;;
    match wake with
    | None => ret (-1)
    | Some wake => bump_generation port ;; wake_waiter port wake
    end.

Definition modify_refusal (explicit_rearm : bool) (s : ep_sock) (events flags : Z) : Z :=
  if has (s_user_flags s) EPOLLEXCLUSIVE then EINVAL
  else if bool_decide (s_kind s = EP_REG_WAITABLE) && has flags EPOLLET &&
          negb (ep_waitable_interest_events events =? 0) &&
          bool_decide (s_waitable_semantics s = EP_WAITABLE_ET_UNSUPPORTED) then EINVAL
  else if explicit_rearm && has flags EPOLLET && negb (bool_decide (s_kind s = EP_REG_SOCKET)) then EOPNOTSUPP
  else 0.

Definition modify_sock (port : ptr) (sock : addr) (events flags data ctx : Z) : MW Z :=
  explicit_rearm <- rd w_ports port p_explicit_rearm ;;
  s <- rd w_socks (Some sock) (fun s => s) ;;
  let refusal := modify_refusal explicit_rearm s events flags in
  if negb (refusal =? 0) then fail_with refusal
  else
    let waitable := bool_decide (s_kind s = EP_REG_WAITABLE) in
    let interest := if waitable then ep_waitable_interest_events events else 0 in
    let dormant := waitable && (interest =? 0) in
    new_afd_events <- ep_sock_afd_events_for_state_locked (Some sock) events false 0 ;;
    covered <- modify_pending sock dormant new_afd_events ;;
    match covered with
    | None => ret (-1)
    | Some covered => modify_apply port sock events flags data ctx covered interest dormant
    end.

(** The control operations on a registered descriptor: look it up and check
    that it still names the same object. *)
Definition with_registered (port : ptr) (fd : Z) (body : addr -> MW Z) : MW Z :=
  sock <- ep_fd_table_lookup port fd ;;
  match sock with
  | None => ep_target_fail_absent fd
  | Some a =>
    invalid <- ep_sock_validate_control_locked port a ;;
    if negb (invalid =? 0) then ret (-1) else body a
  end.

Definition ep_port_modify (port : ptr) (fd events flags data ctx : Z) : MW Z :=
  with_registered port fd (fun sock => modify_sock port sock events flags data ctx).

(** ** DEL *)

Definition unregister_sock (port : ptr) (sock : addr) (saved_errno : Z) : MW Z :=
  release_exclusive sock ;;
  poll_status <- rd w_socks (Some sock) s_poll_status ;;
  (if bool_decide (poll_status = EP_POLL_PENDING)
   then ep_sock_cancel_locked sock ;; ret tt else ret tt) ;;
  ep_fd_table_remove port (Some sock) ;;
  wr w_socks (Some sock) s_delete_pending true ;;
  wr w_socks (Some sock) s_state EP_SOCK_DELETED ;;
  ep_sock_set_needs_rearm_locked (Some sock) false ;;
  next_generation port sock ;;
  bump_generation port ;;
  poll_status <- rd w_socks (Some sock) s_poll_status ;;
  (if bool_decide (poll_status = EP_POLL_IDLE) then ep_sock_free_locked port sock else ret tt) ;;
  ep_set_errno saved_errno ;;
  ret 0.

Definition ep_port_unregister (port : ptr) (fd : Z) : MW Z :=
  saved_errno <- ep_last_err ;;
  with_registered port fd (fun sock => unregister_sock port sock saved_errno).

(** ** Local shutdown *)

Definition native_shutdown (fd how : Z) : MW bool :=
  r <- os (ShutdownSocket fd how) ;;
  ret (negb (r =? SOCKET_ERROR)).

(** [ep_set_winsock_error(WSAGetLastError()); return -1]. *)
Definition fail_winsock : MW Z :=
  error <- os WSAGetLastError ;; ep_set_winsock_error (u32 error) ;; ret (-1).

(** A descriptor that is not registered with this port. *)
Definition shutdown_unregistered (fd how : Z) : MW Z :=
  r <- ep_target_probe fd ;;
  let '(probe_result, target) := r in
  if negb (probe_result =? 0) then ret (-1)
  else if negb (bool_decide (t_kind target = EP_TARGET_SOCKET)) then
    fail_with (if bool_decide (t_kind target = EP_TARGET_INVALID) then EBADF else ENOTSOCK)
  else
    mask <- ep_local_shutdown_mask how ;;
    match mask with
    | None => ret (-1)
    | Some _ =>
      done <- native_shutdown fd how ;;
      if done : bool then ret 0 else fail_winsock
    end.

(** The publication after the native shutdown: an error, or whether a waiter
    must be woken and the node that was not used. *)
Definition shutdown_publish (port : ptr) (sock : addr) (reserved_node : ptr) : MW (option (bool * ptr)) :=
  poll_status <- rd w_socks (Some sock) s_poll_status ;;
  cancelled <-
    (if bool_decide (poll_status = EP_POLL_PENDING) then
       ep_sock_set_needs_rearm_locked (Some sock) true ;;
       failed <- ep_sock_cancel_locked sock ;;
       if negb (failed =? 0) then
         saved_error <- ep_get_last_error_info ;;
         drop_node port reserved_node ;;
         bump_generation port ;;
         ep_restore_last_error_info saved_error ;;
         ret None
       else poll_status <- rd w_socks (Some sock) s_poll_status ;; ret (Some poll_status)
     else ret (Some poll_status)) ;;
  match cancelled with
  | None => ret None
  | Some poll_status =>
    ready <- rd w_socks (Some sock) s_ready_queued ;;
    if bool_decide (poll_status = EP_POLL_IDLE) || ready then
      queue_result <- ep_sock_queue_local_shutdown_locked sock reserved_node ;;
      if queue_result <? 0 then
        saved_error <- ep_get_last_error_info ;;
        ep_sock_set_needs_rearm_locked (Some sock) true ;;
        bump_generation port ;;
        ep_restore_last_error_info saved_error ;;
        ret None
      else
        listening <- waiter_listening port ;;
        ret (Some ((0 <? queue_result) && listening, NULL))
    else ret (Some (false, reserved_node))
  end.

(** [Some node]: the reserved node (or none is needed); [None]: no memory. *)
Definition shutdown_reserve (port : ptr) (s : ep_sock) (publication_required : bool) : MW (option ptr) :=
  if publication_required &&
     (bool_decide (s_poll_status s = EP_POLL_IDLE) || s_ready_queued s) &&
     (s_ready_queued s || negb (s_oneshot_fired s)) then
    node <- new_node port ;;
    match node with
    | Some _ => ret (Some node)
    | None =>
      error <- ep_last_err ;;
      (if error =? 0 then ep_set_errno ENOMEM else ret tt) ;;
      ret None
    end
  else ret (Some NULL).

Definition shutdown_registered (port : ptr) (sock : addr) (fd how requested_shutdown : Z) : MW Z :=
  s <- rd w_socks (Some sock) (fun s => s) ;;
  let tcp := bool_decide (s_socket_protocol s = EP_SOCKET_PROTOCOL_TCP) in
  let proposed_shutdown := s_local_shutdown s ||| requested_shutdown in
  let state_changed := tcp && negb (proposed_shutdown =? s_local_shutdown s) in
  let publication_required := tcp && (state_changed || s_needs_rearm s) in
  reserved <- shutdown_reserve port s publication_required ;;
  match reserved with
  | None => ret (-1)
  | Some reserved_node =>
    done <- (if negb tcp || state_changed then native_shutdown fd how else ret true) ;;
    if negb done then
      error <- os WSAGetLastError ;;
      drop_node port reserved_node ;;
      ep_set_winsock_error (u32 error) ;;
      ret (-1)
    else
      (if state_changed then wr w_socks (Some sock) s_local_shutdown proposed_shutdown else ret tt) ;;
      published <- (if publication_required then shutdown_publish port sock reserved_node
                    else ret (Some (false, reserved_node))) ;;
      match published with
      | None => ret (-1)
      | Some (wake, unused) =>
        drop_node port unused ;;
        (if state_changed then bump_generation port else ret tt) ;;
        wake_waiter port wake
      end
  end.

Definition ep_port_shutdown_socket (port : ptr) (fd how : Z) : MW Z :=
  sock <- ep_fd_table_lookup port fd ;;
  match sock with
  | None => shutdown_unregistered fd how
  | Some a =>
    invalid <- ep_sock_validate_control_locked port a ;;
    if negb (invalid =? 0) then ret (-1)
    else
      kind <- rd w_socks sock s_kind ;;
      if negb (bool_decide (kind = EP_REG_SOCKET)) then fail_with ENOTSOCK
      else
        mask <- ep_local_shutdown_mask how ;;
        match mask with
        | None => ret (-1)
        | Some requested_shutdown => shutdown_registered port a fd how requested_shutdown
        end
  end.

(** ** Re-arming *)

(** A fired one-shot of which only some classes were acknowledged. *)
Definition rearm_partial (port : ptr) (sock : addr) (classes new_disarmed : Z) : MW unit :=
  wr w_socks (Some sock) s_explicit_disarmed_classes new_disarmed ;;
  observed <- rd w_socks (Some sock) s_observed_events ;;
  wr w_socks (Some sock) s_observed_events (ep_readiness_filter_classes observed classes) ;;
  wr w_socks (Some sock) s_et_holdoff false ;;
  bump_generation port.

(** The request in flight: cancelled, or kept ([Some true]). *)
Definition rearm_pending (sock : addr) (old_parked rearm_oneshot : bool) (new_afd_events : Z) : MW (option bool) :=
  s <- rd w_socks (Some sock) (fun s => s) ;;
  let cancel :=
    failed <- ep_sock_cancel_locked sock ;;
    if negb (failed =? 0) then
      wr w_socks (Some sock) s_udp_readless_receive_parked old_parked ;; ret None
    else ret (Some false) in
  if negb (bool_decide (s_poll_status s = EP_POLL_PENDING)) then ret (Some false)
  else if rearm_oneshot then cancel
  else if negb (s_local_shutdown s =? 0) then cancel
  else if Z.ldiff new_afd_events (s_submitted_afd_events s) =? 0 then ret (Some true)
  else cancel.

(** The classes are armed again; a completed one-shot starts a new generation. *)
Definition rearm_apply (port : ptr) (sock : addr) (classes new_disarmed : Z) (rearm_oneshot : bool) : MW unit :=
  wr w_socks (Some sock) s_explicit_disarmed_classes new_disarmed ;;
  (if rearm_oneshot then
     wr w_socks (Some sock) s_pending_events 0 ;;
     wr w_socks (Some sock) s_observed_events 0 ;;
     ep_sock_set_oneshot_fired_locked (Some sock) false ;;
     next_generation port sock ;;
     wr w_socks (Some sock) s_state EP_SOCK_REGISTERED
   else
     observed <- rd w_socks (Some sock) s_observed_events ;;
     wr w_socks (Some sock) s_observed_events (ep_readiness_filter_classes observed classes)) ;;
  wr w_socks (Some sock) s_et_holdoff false.

Definition rearm_classes_restore (sock : addr) (old : ep_sock) : MW unit :=
  wr w_socks (Some sock) s_explicit_disarmed_classes (s_explicit_disarmed_classes old) ;;
  wr w_socks (Some sock) s_pending_events (s_pending_events old) ;;
  wr w_socks (Some sock) s_observed_events (s_observed_events old) ;;
  ep_sock_restore_worklist_state_locked (Some sock) (s_needs_rearm old) (s_oneshot_fired old) ;;
  wr w_socks (Some sock) s_et_holdoff (s_et_holdoff old) ;;
  wr w_socks (Some sock) s_udp_readless_receive_parked (s_udp_readless_receive_parked old) ;;
  wr w_socks (Some sock) s_generation (s_generation old) ;;
  wr w_socks (Some sock) s_state (s_state old).

(** The submission for a listening waiter ([armable]: there is something to
    wait for): [Some wake], or [None] when re-arming fails. *)
Definition rearm_submit (port : ptr) (sock : addr) (old : ep_sock) (armable : bool) : MW (option bool) :=
  poll_status <- rd w_socks (Some sock) s_poll_status ;;
  listening <- waiter_listening port ;;
  if bool_decide (poll_status = EP_POLL_IDLE) && armable && listening then
    r <- ep_sock_submit_locked sock true false ;;
    let submit_result := r.1 in
    if 0 <? submit_result then
      saved_error <- ep_get_last_error_info ;;
      ep_restore_last_error_info saved_error ;;
      ret None
    else if submit_result <? 0 then
      saved_error <- ep_get_last_error_info ;;
      rearm_classes_restore sock old ;;
      ep_restore_last_error_info saved_error ;;
      ret None
    else wake <- shutdown_ready sock ;; ret (Some wake)
  else ret (Some false).

(** The result and [*wake_ready_waiter_out]. *)
Definition ep_sock_rearm_classes_locked (port : ptr) (sock : addr) (classes : Z) : MW (Z * bool) :=
  old <- rd w_socks (Some sock) (fun s => s) ;;
  let new_disarmed := Z.ldiff (s_explicit_disarmed_classes old) classes in
  if s_ready_queued old then ep_set_errno EBUSY ;; ret (-1, false)
  else if new_disarmed =? s_explicit_disarmed_classes old then ret (0, false)
  else
  let rearm_oneshot := s_oneshot_fired old && (new_disarmed =? 0) in
  (if has classes (EP_READINESS_CLASS_READ ||| EP_READINESS_CLASS_TERMINAL)
   then wr w_socks (Some sock) s_udp_readless_receive_parked false else ret tt) ;;
  if s_oneshot_fired old && negb rearm_oneshot then
    rearm_partial port sock classes new_disarmed ;; ret (0, false)
  else
  (if rearm_oneshot then wr w_socks (Some sock) s_udp_readless_receive_parked false else ret tt) ;;
  parked <- rd w_socks (Some sock) s_udp_readless_receive_parked ;;
  new_afd_events <- ep_sock_afd_events_for_state_locked (Some sock) (s_user_events old) parked new_disarmed ;;
  covered <- rearm_pending sock (s_udp_readless_receive_parked old) rearm_oneshot new_afd_events ;;
  match covered with
  | None => ret (-1, false)
  | Some covered =>
    rearm_apply port sock classes new_disarmed rearm_oneshot ;;
    local_shutdown <- rd w_socks (Some sock) s_local_shutdown ;;
    let armable := negb (new_afd_events =? 0) || negb (local_shutdown =? 0) in
    (if negb covered then ep_sock_set_needs_rearm_locked (Some sock) armable else ret tt) ;;
    wake <- rearm_submit port sock old armable ;;
    match wake with
    | None => ret (-1, false)
    | Some wake => bump_generation port ;; ret (0, wake)
    end
  end.

Definition WEPOLL_EX_REARM_ALL : Z :=
  EP_READINESS_CLASS_READ ||| EP_READINESS_CLASS_WRITE ||| EP_READINESS_CLASS_TERMINAL.

(** A mask of classes the caller may name. *)
Definition valid_classes (classes : Z) : bool :=
  negb (classes =? 0) && (Z.ldiff classes WEPOLL_EX_REARM_ALL =? 0).

(** [result == 0 && wake_ready_waiter && !post...]. *)
Definition finish_rearm (port : ptr) (r : Z * bool) : MW Z :=
  if r.1 =? 0 then wake_waiter port r.2 else ret r.1.

Definition ep_port_rearm_classes (port : ptr) (fd classes : Z) : MW Z :=
  if negb (valid_classes classes) then fail_with EINVAL
  else
    with_registered port fd (fun sock =>
      explicit <- ep_sock_explicit_rearm_enabled (Some sock) ;;
      if negb explicit then fail_with EOPNOTSUPP
      else r <- ep_sock_rearm_classes_locked port sock (u8 classes) ;; finish_rearm port r).

(** One entry of a batch: its result and whether a waiter must be woken. *)
Definition rearm_entry (port : ptr) (fd classes : Z) : MW (Z * bool) :=
  let refuse error := ep_set_errno error ;; ret (-1, false) in
  closing <- rd w_ports port p_closing ;;
  if closing : bool then refuse EBADF
  else if fd =? EPOLL_FD_INVALID then refuse EBADF
  else if negb (valid_classes classes) then refuse EINVAL
  else
    sock <- ep_fd_table_lookup port fd ;;
    match sock with
    | None => ep_target_fail_absent fd ;; ret (-1, false)
    | Some a =>
      invalid <- ep_sock_validate_control_locked port a ;;
      if negb (invalid =? 0) then ret (-1, false)
      else
        explicit <- ep_sock_explicit_rearm_enabled sock ;;
        if negb explicit then refuse EOPNOTSUPP
        else ep_sock_rearm_classes_locked port a (u8 classes)
    end.

(** The entries of one chunk, in order: the errors, the first failure and
    whether a waiter must be woken. *)
Fixpoint rearm_chunk (port : ptr) (entries : list (Z * Z)) (first : option wepoll_ex_error_info) (wake : bool)
    : MW (list Z * option wepoll_ex_error_info * bool) :=
  match entries with
  | [] => ret ([], first, wake)
  | (fd, classes) :: entries =>
    r <- rearm_entry port fd classes ;;
    error <- (if r.1 =? 0 then ret 0 else ep_last_err) ;;
    first <- (if negb (r.1 =? 0) && bool_decide (first = None)
              then e <- ep_get_last_error_info ;; ret (Some e) else ret first) ;;
    rest <- rearm_chunk port entries first (wake || r.2) ;;
    let '(errors, first, wake) := rest in
    ret (error :: errors, first, wake)
  end.

Definition REARM_CHUNK_SIZE : nat := 64.

(** Chunk by chunk; every chunk posts at most one wake-up. *)
Fixpoint rearm_chunks (fuel : nat) (port : ptr) (entries : list (Z * Z)) (first : option wepoll_ex_error_info)
    : MW (list Z * option wepoll_ex_error_info) :=
  match fuel, entries with
  | _, [] => ret ([], first)
  | O, _ => stuck
  | S fuel, _ =>
    r <- rearm_chunk port (take REARM_CHUNK_SIZE entries) first false ;;
    let '(errors, first, wake) := r in
    woken <- wake_waiter port wake ;;
    first <- (if negb (woken =? 0) && bool_decide (first = None)
              then e <- ep_get_last_error_info ;; ret (Some e) else ret first) ;;
    rest <- rearm_chunks fuel port (drop REARM_CHUNK_SIZE entries) first ;;
    ret (errors ++ rest.1, rest.2)
  end.

(** The result and [errors[]]. *)
Definition ep_port_rearm_classes_batch (port : ptr) (entries : list (Z * Z)) : MW (Z * list Z) :=
  r <- rearm_chunks (length entries) port entries None ;;
  match r.2 with
  | None => ret (0, r.1)
  | Some first_error => ep_restore_last_error_info first_error ;; ret (-1, r.1)
  end.

(** A fired one-shot without explicit re-arm starts a new generation. *)
Definition rearm_reset (port : ptr) (sock : addr) (old : ep_sock) : MW unit :=
  (if s_ready_queued old && ep_waitable_may_consume old &&
      negb (Z.ldiff (s_pending_events old) (EPOLLERR ||| EPOLLHUP) =? 0)
   then wr w_socks (Some sock) s_waitable_notification_owned true else ret tt) ;;
  ep_sock_set_oneshot_fired_locked (Some sock) false ;;
  wr w_socks (Some sock) s_pending_events 0 ;;
  wr w_socks (Some sock) s_observed_events 0 ;;
  wr w_socks (Some sock) s_pipe_terminal_delivered false ;;
  wr w_socks (Some sock) s_et_holdoff false ;;
  wr w_socks (Some sock) s_udp_readless_receive_parked false ;;
  ep_sock_set_needs_rearm_locked (Some sock) true ;;
  wr w_socks (Some sock) s_ready_queued false ;;
  next_generation port sock.

Definition rearm_fired (port : ptr) (sock : addr) : MW Z :=
  old <- rd w_socks (Some sock) (fun s => s) ;;
  rearm_reset port sock old ;;
  listening <- waiter_listening port ;;
  result <- (if listening : bool then r <- ep_sock_submit_locked sock true false ;; ret r.1 else ret 0) ;;
  if 0 <? result then
    saved_error <- ep_get_last_error_info ;;
    ep_restore_last_error_info saved_error ;;
    ret (-1)
  else if result <? 0 then
    saved_error <- ep_get_last_error_info ;;
    restore_observation sock old ;;
    ep_restore_last_error_info saved_error ;;
    ret result
  else
    wake <- (if listening : bool then shutdown_ready sock else ret false) ;;
    bump_generation port ;;
    wake_waiter port wake.

Definition ep_port_rearm (port : ptr) (fd : Z) : MW Z :=
  with_registered port fd (fun sock =>
    explicit <- ep_sock_explicit_rearm_enabled (Some sock) ;;
    if explicit : bool then
      r <- ep_sock_rearm_classes_locked port sock WEPOLL_EX_REARM_ALL ;; finish_rearm port r
    else
      fired <- rd w_socks (Some sock) s_oneshot_fired ;;
      if negb fired then ret 0 else rearm_fired port sock).
