(* ===== verification/Wait.v ===== *)
(** * Waiting

    [src/wepoll_ex_port.c], 4544-4577 and 5950-6689: dispatch of completion
    packets, the drain of the ready queue into the caller's buffer and the wait
    loop.

    A wait holds no lock between its critical sections.  The [Section] variable
    [others] is what the other threads do there: it runs before every critical
    section and every access to the shared atomics, and may be any computation
    on the process state.  The ready queue is drained under [wait_lock], so
    this thread is its only consumer. *)
From S2P Require Import Prelude Codes Types Errno Fault Links Pool ReadyQueue Quiet Readiness.
From S2P Require Import Exclusive FdTable Worklists Timeout Iocp Provider PollKeys AfdOps Groups Pipe.
From S2P Require Import Targets Levels Registration Completion Control.

Definition EP_ZERO_TIMEOUT_DRAIN_BUDGET_MS : Z := 10.
Definition EP_ZERO_TIMEOUT_MIN_DEQUEUES : Z := 16.
Definition EP_WAIT_COALESCE_THRESHOLD : Z := 4096.
Definition EP_WAIT_COALESCE_BUDGET_MS : Z := 10.
Definition EP_WAIT_COALESCE_MIN_DEQUEUES : Z := 64.
Definition EP_WAIT_COALESCE_MAX_DEQUEUES : Z := 128.
Definition EP_DEFERRED_REARM_RETRY_MS : Z := 1.

(** One record of the caller's buffer. *)
Inductive out_event :=
| OutBasic (events data : Z)
| OutExtended (events data flags timestamp user_ctx : Z).

Definition out_of_wake (o : wake_out) : out_event :=
  match o with
  | WakeBasic events data => OutBasic events data
  | WakeExtended events data flags timestamp => OutExtended events data flags timestamp 0
  end.

Definition out_of_node (basic_events : bool) (n : ep_ready_node) : out_event :=
  if basic_events then OutBasic (n_events n) (n_data n)
  else OutExtended (n_events n) (n_data n) (n_flags n) (n_timestamp n) (n_user_ctx n).

(** ** Draining *)

(** The registration of a delivered node leaves the ready state and is queued
    for re-arming, unless its object cannot become ready again. *)
Definition drain_accept (port : ptr) (sock : addr) (events : Z) : MW unit :=
  s <- rd w_socks (Some sock) (fun s => s) ;;
  let et := has (s_user_flags s) EPOLLET in
  let pipe_et := bool_decide (s_kind s = EP_REG_PIPE) && et in
  snapshot <- (if pipe_et then ep_pipe_snapshot s else ret no_snapshot) ;;
  let final_pipe_et := pipe_et && ps_valid snapshot && negb (ps_local_closed snapshot) &&
    (ps_events snapshot =? events) && ep_pipe_et_snapshot_is_final s events snapshot in
  wr w_socks (Some sock) s_pending_events 0 ;;
  wr w_socks (Some sock) s_ready_queued false ;;
  wr w_socks (Some sock) s_state EP_SOCK_REGISTERED ;;
  (if pipe_et then
     wr w_socks (Some sock) s_pipe_terminal_delivered (ep_pipe_et_events_have_final_shape s events)
   else ret tt) ;;
  (if bool_decide (s_kind s = EP_REG_WAITABLE) && et &&
      bool_decide (s_waitable_semantics s = EP_WAITABLE_CONSUMPTIVE)
   then wr w_socks (Some sock) s_observed_events 0
   else if pipe_et && ps_valid snapshot && negb (ps_local_closed snapshot) && (ps_events snapshot =? 0)
   then wr w_socks (Some sock) s_observed_events 0
   else ret tt) ;;
  if negb (s_oneshot_fired s) &&
     negb (bool_decide (s_kind s = EP_REG_WAITABLE) && et &&
           bool_decide (s_waitable_semantics s = EP_WAITABLE_TERMINAL)) &&
     negb final_pipe_et then
    wr w_socks (Some sock) s_et_holdoff false ;;
    explicit <- ep_sock_explicit_rearm_enabled (Some sock) ;;
    afd_events <- (if explicit : bool then ep_sock_afd_events_locked (Some sock) (s_user_events s) else ret 0) ;;
    ep_sock_set_needs_rearm_locked (Some sock) (negb (explicit && (afd_events =? 0)))
  else ret tt.

(** Whether the node is delivered: its registration is the one that queued it
    and still names the same object. *)
Definition drain_node (port : ptr) (node : addr) (first : bool) (maxevents : Z) : MW bool :=
  n <- rd w_nodes (Some node) (fun n => n) ;;
  sock <- ep_fd_table_lookup port (n_fd n) ;;
  live <- match sock with
          | None => ret false
          | Some _ =>
            s <- rd w_socks sock (fun s => s) ;;
            ret ((s_generation s =? n_sock_generation n) && negb (s_delete_pending s))
          end ;;
  match sock, live with
  | Some a, true =>
    check <- ep_sock_validate_identity_for_delivery_locked port sock ;;
    match check with
    | EP_IDENTITY_STALE | EP_IDENTITY_CLOSED => ep_sock_retire_stale_locked port a ;; ret false
    | EP_IDENTITY_ERROR | EP_IDENTITY_MATCH =>
      drain_accept port a (n_events n) ;;
      (if first && (EP_WAIT_COALESCE_THRESHOLD <? maxevents)
       then wr w_ports port p_waiter_coalescing true else ret tt) ;;
      ret true
    end
  | _, _ =>
    dropped <- rd w_ports port p_stale_events_dropped ;;
    wr w_ports port p_stale_events_dropped (u64 (dropped + 1)) ;;
    ret false
  end.

(** A node that was taken off the queue: delivered or dropped, then freed. *)
Definition drain_one (port : ptr) (node : addr) (basic_events : bool) (first : bool) (maxevents : Z)
    : MW (list out_event) :=
  valid <- drain_node port node first maxevents ;;
  n <- rd w_nodes (Some node) (fun n => n) ;;
  ep_ready_node_free port (Some node) ;;
  ret (if valid then [out_of_node basic_events n] else []).

(** The rest of the loop, under the lock: [room] records are left. *)
Fixpoint drain_loop (fuel : nat) (port : ptr) (room : nat) (basic_events : bool) (first : bool) (maxevents : Z)
    : MW (list out_event) :=
  match room, fuel with
  | O, _ => ret []
  | S _, O => stuck
  | S room', S fuel =>
    queue <- rd w_ports port p_ready_queue ;;
    node <- ep_ready_drain queue 1 ;;
    match node with
    | None => ret []
    | Some a =>
      out <- drain_one port a basic_events first maxevents ;;
      match out with
      | [] => drain_loop fuel port room basic_events first maxevents
      | _ => rest <- drain_loop fuel port room' basic_events false maxevents ;; ret (out ++ rest)
      end
    end
  end.

(** Enough for every node that can be in the queue. *)
Definition drain_fuel (w : world) : nat := S (size (w_nodes w)).

Section Waiting.
Context (others : MW unit).

(** An access to the shared state made after other threads have run. *)
Definition shared {A} (m : MW A) : MW A := others ;; m.

(** The first node is taken before the lock is. *)
Definition ep_drain_to_buffer (port : ptr) (maxevents : Z) (basic_events : bool) : MW (list out_event) :=
  queue <- rd w_ports port p_ready_queue ;;
  node <- shared (ep_ready_drain queue 1) ;;
  match node with
  | None => ret []
  | Some a =>
    shared (
      out <- drain_one port a basic_events true maxevents ;;
      fuel <- get drain_fuel ;;
      rest <- drain_loop fuel port (Z.to_nat maxevents - length out) basic_events
                (bool_decide (out = [])) maxevents ;;
      ret (out ++ rest))
  end.

(** ** Dispatch *)

Definition ep_port_pending_count (port : ptr) : MW Z :=
  shared (rd w_ports port p_pending_poll_count).

(** The status block of an AFD request is written by the kernel, that of an
    auxiliary wait by [ep_aux_post_completion]. *)
Definition completion_status (sock : addr) : MW Z :=
  kind <- rd w_socks (Some sock) s_kind ;;
  match kind with
  | EP_REG_SOCKET =>
    status <- os (IoStatus sock) ;;
    wr w_socks (Some sock) s_iosb_status (i32 status) ;; ret (i32 status)
  | _ => rd w_socks (Some sock) s_iosb_status
  end.

(** Entry [i] of [port->iocp_entries]; the registration of a packet is found
    from the address of its status block. *)
Definition ep_port_dispatch_iocp_entry (port : ptr) (i timeout_generation : Z) : MW bool :=
  ov <- os (DequeuedOverlapped i) ;;
  if ov <=? 0 then ret false
  else if ov =? 1 then
    key <- os (DequeuedKey i) ;;
    ret (negb (timeout_generation =? 0) && (u64 key =? timeout_generation))
  else
    let completed := Z.to_pos (ov - 1) in
    shared (status <- completion_status completed ;; ep_sock_handle_completion completed status) ;;
    ret false.

(** [for (i = 0; i < removed; i++)]: whether a timeout packet was among them. *)
Fixpoint dispatch_loop (removed : nat) (port : ptr) (i timeout_generation : Z) : MW bool :=
  match removed with
  | O => ret false
  | S removed =>
    packet <- ep_port_dispatch_iocp_entry port i timeout_generation ;;
    rest <- dispatch_loop removed port (i + 1) timeout_generation ;;
    ret (packet || rest)
  end.

(** [GetQueuedCompletionStatusEx]: [None] when it fails, else the number of
    entries removed.  Other threads run while it blocks. *)
Definition dequeue (port : ptr) (wait_ms : Z) : MW (option Z) :=
  iocp <- rd w_ports port p_iocp ;;
  ok <- os (GetQueuedCompletionStatusEx iocp wait_ms) ;;
  others ;;
  if ok =? 0 then ret None else removed <- os DequeuedCount ;; ret (Some (u32 removed)).

(** ** The wait loop *)

Definition take_post_error (port : ptr) : MW Z := shared (ep_port_take_iocp_post_error port).

Definition take_async_error (port : ptr) : MW Z := shared (ep_port_take_async_error_locked port).

Definition port_closing (port : ptr) : MW bool := shared (rd w_ports port p_closing).

Definition record_error (port : ptr) (error : Z) : MW unit :=
  shared (ep_port_record_async_error_locked port error).

(** A failed completion port or a closed port ends the wait: [true] when the
    error was set. *)
Definition wait_post_failed (port : ptr) : MW bool :=
  post_error <- take_post_error port ;;
  if negb (post_error =? 0) then ep_set_errno post_error ;; ret true else ret false.

Definition wait_closed (port : ptr) : MW bool :=
  closing <- port_closing port ;;
  if closing : bool then
    post_error <- take_post_error port ;;
    ep_set_errno (if negb (post_error =? 0) then post_error else EBADF) ;; ret true
  else ret false.

Definition wait_async_failed (port : ptr) : MW bool :=
  error <- take_async_error port ;;
  if negb (error =? 0) then ep_set_errno error ;; ret true else ret false.

(** The first of the checks that ends the wait. *)
Definition either (a b : MW bool) : MW bool := failed <- a ;; if failed : bool then ret true else b.

(** What the loop works with: the deadline, the budget of a zero-timeout wait
    and its packet count. *)
Record wait_vars := mk_wait_vars { v_state : ep_wait_state; v_deadline : Z; v_dequeues : Z }.

Definition set_precise (state : ep_wait_state) (enabled attempted : bool) (generation : Z) : ep_wait_state :=
  mk_wait_state (ws_timeout state) (ws_start_ms state) (ws_start_100ns state) generation
    (ws_precise_clock state) enabled attempted.

(** [!timeout->infinite && timeout->milliseconds == 0], and its positive twin. *)
Definition zero_timeout (t : ep_wait_timeout) : bool := negb (t_infinite t) && (t_milliseconds t =? 0).
Definition finite_timeout (t : ep_wait_timeout) : bool := negb (t_infinite t) && negb (t_milliseconds t =? 0).

(** A zero-timeout wait has used up its budget. *)
Definition zero_budget_spent (port : ptr) (v : wait_vars) : MW bool :=
  if zero_timeout (ws_timeout (v_state v)) && (EP_ZERO_TIMEOUT_MIN_DEQUEUES <=? v_dequeues v) then
    now <- os GetTickCount64 ;;
    if v_deadline v <=? u64 now then
      shared (hits <- rd w_ports port p_zero_timeout_budget_hits ;;
              wr w_ports port p_zero_timeout_budget_hits (u64 (hits + 1))) ;;
      ret true
    else ret false
  else ret false.

Definition count_dequeue (v : wait_vars) : wait_vars :=
  if zero_timeout (ws_timeout (v_state v))
  then mk_wait_vars (v_state v) (v_deadline v) (u32 (v_dequeues v + 1)) else v.

(** The batch [out] is ready: append what is already queued, within bounds.
    [budget] is [EP_WAIT_COALESCE_MAX_DEQUEUES - coalesce_dequeues]. *)
Fixpoint coalesce_loop (budget : nat) (port : ptr) (maxevents : Z) (basic_events : bool) (deadline : Z)
    (v : wait_vars) (out : list out_event) : MW (list out_event) :=
  match budget with
  | O => ret out
  | S budget =>
    if negb ((EP_WAIT_COALESCE_THRESHOLD <? maxevents) && (Z.of_nat (length out) <? maxevents)) then ret out
    else
    fault <- ep_fault_hit EP_FAULT_IOCP_DEQUEUE ;;
    if negb (fault =? 0) then error <- ep_last_err ;; record_error port error ;; ret out
    else
    r <- dequeue port 0 ;;
    match r with
    | None =>
      error <- os GetLastError ;;
      (if negb (u32 error =? WAIT_TIMEOUT) then record_error port (ep_winerr_to_errno (u32 error)) else ret tt) ;;
      ret out
    | Some coalesced =>
      if coalesced =? 0 then ret out
      else
        dispatch_loop (Z.to_nat coalesced) port 0 (ws_timeout_generation (v_state v)) ;;
        more <- ep_drain_to_buffer port (maxevents - Z.of_nat (length out)) basic_events ;;
        let out := out ++ more in
        let v := count_dequeue v in
        spent <- zero_budget_spent port v ;;
        if spent : bool then ret out
        else
          closing <- port_closing port ;;
          if closing : bool then ret out
          else
            late <- (if EP_WAIT_COALESCE_MIN_DEQUEUES <=? EP_WAIT_COALESCE_MAX_DEQUEUES - Z.of_nat budget
                     then now <- os GetTickCount64 ;; ret (deadline <=? u64 now) else ret false) ;;
            if late : bool then ret out
            else coalesce_loop budget port maxevents basic_events deadline v out
    end
  end.

Definition coalesce (port : ptr) (maxevents : Z) (basic_events : bool) (v : wait_vars) (out : list out_event)
    : MW (list out_event) :=
  now <- os GetTickCount64 ;;
  coalesce_loop (Z.to_nat EP_WAIT_COALESCE_MAX_DEQUEUES) port maxevents basic_events
    (u64 (u64 now + EP_WAIT_COALESCE_BUDGET_MS)) v out.

(** How an iteration ends: the wait returns [result] and the records, it
    continues, or the batch is coalesced. *)
Inductive wait_step :=
| WReturn (v : wait_vars) (result : Z) (out : list out_event)
| WAgain (v : wait_vars)
| WReady (v : wait_vars) (out : list out_event).

Definition fails (v : wait_vars) : wait_step := WReturn v (-1) [].
Definition expires (v : wait_vars) : wait_step := WReturn v 0 [].

(** A pending wake-up becomes the result. *)
Definition take_wake (port : ptr) (basic_events : bool) (v : wait_vars) (otherwise : MW wait_step) : MW wait_step :=
  woken <- shared (ep_port_take_wake port basic_events) ;;
  match woken with
  | Some (result, event) => ret (WReturn v result (match event with Some e => [out_of_wake e] | None => [] end))
  | None => otherwise
  end.

(** Arm the registrations that wait for it; an error is reported unless events
    are ready. *)
Definition wait_arm (port : ptr) (maxevents : Z) (basic_events : bool) (v : wait_vars) : MW (option wait_step) :=
  r <- shared (async_error <- ep_port_take_async_error_locked port ;;
               arm_result <- (if async_error =? 0 then ep_port_arm_pending_locked port else ret 0) ;;
               ret (async_error, arm_result)) ;;
  let '(async_error, arm_result) := r in
  if negb (async_error =? 0) then ep_set_errno async_error ;; ret (Some (fails v))
  else if negb (arm_result =? 0) then
    arm_error <- ep_last_err ;;
    out <- ep_drain_to_buffer port maxevents basic_events ;;
    if bool_decide (out = []) then
      post_error <- take_post_error port ;;
      reported_error <- take_async_error port ;;
      ep_set_errno (if negb (reported_error =? 0) then reported_error
                    else if negb (post_error =? 0) then post_error else arm_error) ;;
      ret (Some (fails v))
    else ret (Some (WReturn v (Z.of_nat (length out)) out))
  else ret None.

(** The precise timer is prepared once and armed with the remaining time. *)
Definition wait_precise_init (port : ptr) (v : wait_vars) : MW wait_vars :=
  let state := v_state v in
  let t := ws_timeout state in
  if t_precise t && negb (t_infinite t) && negb (t_intervals_100ns t =? 0) && negb (ws_precise_attempted state) then
    enabled <- (if ws_precise_clock state then ep_port_precise_timeout_initialize port else ret false) ;;
    ret (mk_wait_vars (set_precise state (enabled || ws_precise_enabled state) true (ws_timeout_generation state))
           (v_deadline v) (v_dequeues v))
  else ret v.

(** [None]: the deadline has passed. *)
Definition wait_precise_arm (port : ptr) (v : wait_vars) : MW (option wait_vars) :=
  let state := v_state v in
  if ws_precise_enabled state && (ws_timeout_generation state =? 0) then
    remaining_100ns <- ep_wait_remaining_100ns state ;;
    if remaining_100ns =? 0 then ret None
    else
      generation <- ep_port_precise_timeout_arm port remaining_100ns ;;
      if generation =? 0 then
        let state := set_precise state false (ws_precise_attempted state) 0 in
        expired <- (if finite_timeout (ws_timeout state) then ep_wait_expired state else ret false) ;;
        ret (if expired : bool then None else Some (mk_wait_vars state (v_deadline v) (v_dequeues v)))
      else ret (Some (mk_wait_vars (set_precise state true (ws_precise_attempted state) generation)
                        (v_deadline v) (v_dequeues v)))
  else ret (Some v).

(** How long to block, and whether only until the deferred re-arms are due. *)
Definition wait_duration (port : ptr) (v : wait_vars) (deferred_rearm : bool) : MW (Z * bool) :=
  let t := ws_timeout (v_state v) in
  wait_ms <- ep_wait_backstop_milliseconds (v_state v) ;;
  let deferred := deferred_rearm && (t_infinite t || negb (t_milliseconds t =? 0)) &&
    ((wait_ms =? INFINITE) || (EP_DEFERRED_REARM_RETRY_MS <? wait_ms)) in
  wake_pending <- shared (rd w_ports port p_wake_pending) ;;
  ret (if negb (wake_pending =? 0) then (0, false)
       else if deferred then (EP_DEFERRED_REARM_RETRY_MS, true) else (wait_ms, false)).

(** The dequeue failed. *)
Definition wait_dequeue_failed (port : ptr) (basic_events : bool) (v : wait_vars) (deferred_wait : bool)
    : MW wait_step :=
  error <- os GetLastError ;;
  failed <- wait_post_failed port ;;
  if failed : bool then ret (fails v)
  else if u32 error =? WAIT_TIMEOUT then
    take_wake port basic_events v
      (if deferred_wait then shared (ep_port_release_deferred_rearms_locked port) ;; ret (WAgain v)
       else
         expired <- ep_wait_expired (v_state v) ;;
         if expired : bool then ret (expires v)
         else os (Sleep (if ws_precise_enabled (v_state v) then 0 else 1)) ;; ret (WAgain v))
  else ep_set_win32_error (u32 error) ;; ret (fails v).

(** Packets were dispatched and nothing became ready. *)
Definition wait_empty (port : ptr) (basic_events : bool) (v : wait_vars) (timeout_packet : bool) : MW wait_step :=
  failed <- either (wait_post_failed port) (either (wait_async_failed port) (wait_closed port)) ;;
  if failed : bool then ret (fails v)
  else
    take_wake port basic_events v
      (expired <- (if timeout_packet then ep_wait_expired (v_state v) else ret false) ;;
       if expired : bool then ret (expires v)
       else
         spent <- zero_budget_spent port v ;;
         if spent : bool then ret (expires v)
         else
           expired <- (if finite_timeout (ws_timeout (v_state v)) then ep_wait_expired (v_state v) else ret false) ;;
           ret (if expired : bool then expires v else WAgain v)).

(** From the dequeue on. *)
Definition wait_block (port : ptr) (maxevents : Z) (basic_events : bool) (v : wait_vars) (wait_ms : Z)
    (deferred_wait : bool) : MW wait_step :=
  fault <- ep_fault_hit EP_FAULT_IOCP_DEQUEUE ;;
  if negb (fault =? 0) then ret (fails v)
  else
  r <- dequeue port wait_ms ;;
  match r with
  | None => wait_dequeue_failed port basic_events v deferred_wait
  | Some removed =>
    if removed =? 0 then
      take_wake port basic_events v
        (expired <- ep_wait_expired (v_state v) ;; ret (if expired : bool then expires v else WAgain v))
    else
      timeout_packet <- dispatch_loop (Z.to_nat removed) port 0 (ws_timeout_generation (v_state v)) ;;
      let v := count_dequeue v in
      out <- ep_drain_to_buffer port maxevents basic_events ;;
      if bool_decide (out = []) then wait_empty port basic_events v timeout_packet
      else ret (WReady v out)
  end.

(** One iteration of the [for (;;)]. *)
Definition wait_iteration (port : ptr) (maxevents : Z) (basic_events : bool) (v : wait_vars) : MW wait_step :=
  failed <- either (wait_post_failed port) (wait_closed port) ;;
  if failed : bool then ret (fails v)
  else
  out <- ep_drain_to_buffer port maxevents basic_events ;;
  if negb (bool_decide (out = [])) then ret (WReady v out)
  else
  armed <- wait_arm port maxevents basic_events v ;;
  match armed with
  | Some result => ret result
  | None =>
    out <- ep_drain_to_buffer port maxevents basic_events ;;
    if negb (bool_decide (out = [])) then ret (WReady v out)
    else
    deferred_rearm <- shared (ep_port_has_deferred_rearm_locked port) ;;
    v <- wait_precise_init port v ;;
    expired <- (if finite_timeout (ws_timeout (v_state v)) then ep_wait_expired (v_state v) else ret false) ;;
    if expired : bool then ret (expires v)
    else
    armed <- wait_precise_arm port v ;;
    match armed with
    | None => ret (expires v)
    | Some v =>
      duration <- wait_duration port v deferred_rearm ;;
      let '(wait_ms, deferred_wait) := duration in
      wait_block port maxevents basic_events v wait_ms deferred_wait
    end
  end.

Fixpoint wait_loop (fuel : nat) (port : ptr) (maxevents : Z) (basic_events : bool) (v : wait_vars)
    : MW (wait_vars * Z * list out_event) :=
  match fuel with
  | O => stuck
  | S fuel =>
    step <- wait_iteration port maxevents basic_events v ;;
    match step with
    | WReturn v result out => ret (v, result, out)
    | WAgain v => wait_loop fuel port maxevents basic_events v
    | WReady v out =>
      out <- coalesce port maxevents basic_events v out ;;
      ret (v, Z.of_nat (length out), out)
    end
  end.

(** The epoch of this wait is published with the waiter. *)
Definition wait_begin (port : ptr) : MW unit :=
  epoch <- rd w_ports port p_next_wait_epoch ;;
  let epoch := u64 (epoch + 1) in
  let epoch := if epoch =? 0 then 1 else epoch in
  wr w_ports port p_next_wait_epoch epoch ;;
  wr w_ports port p_active_wait_epoch epoch ;;
  wr w_ports port p_waiter_active true.

Definition wait_done (port : ptr) (v : wait_vars) : MW unit :=
  (if negb (ws_timeout_generation (v_state v) =? 0) then ep_port_precise_timeout_disarm port else ret tt) ;;
  wr w_ports port p_waiter_coalescing false ;;
  wr w_ports port p_waiter_active false ;;
  wr w_ports port p_active_wait_epoch 0.

(** Errors deferred by an earlier wait come first. *)
Definition wait_start_failed (port : ptr) : MW bool :=
  either (either (wait_post_failed port) (wait_closed port))
    (error <- shared (ep_port_release_deferred_rearms_locked port ;; ep_port_take_async_error_locked port) ;;
     if negb (error =? 0) then ep_set_errno error ;; ret true else ret false).

(** The result and the records stored in [out]; [None] is a NULL argument. *)
Definition ep_port_wait_timeout_impl (fuel : nat) (port : ptr) (out : bool) (maxevents : Z)
    (timeout : option ep_wait_timeout) (basic_events : bool) : MW (Z * list out_event) :=
  let fail error := ep_set_errno error ;; ret (-1, []) in
  match timeout with
  | None => fail EFAULT
  | Some t =>
    if negb out then fail EFAULT
    else if (maxevents <=? 0) ||
            ((if basic_events then WEPOLL_EPOLL_MAX_EVENTS else WEPOLL_EPOLL_EX_MAX_EVENTS) <? maxevents)
    then fail EINVAL
    else
      state <- ep_wait_state_initialize port t ;;
      deadline <- (if zero_timeout t then
                     now <- os GetTickCount64 ;; ret (u64 (u64 now + EP_ZERO_TIMEOUT_DRAIN_BUDGET_MS))
                   else ret 0) ;;
      lock_result <- ep_wait_lock_acquire fuel port state ;;
      if lock_result <=? 0 then ret ((if lock_result =? 0 then 0 else -1), [])
      else
        wait_begin port ;;
        let v := mk_wait_vars state deadline 0 in
        failed <- wait_start_failed port ;;
        r <- (if failed : bool then ret (v, -1, []) else wait_loop fuel port maxevents basic_events v) ;;
        let '(v, result, events) := r in
        wait_done port v ;;
        ret (result, events)
  end.

Definition ep_port_wait_timeout fuel port out maxevents timeout := ep_port_wait_timeout_impl fuel port out maxevents timeout false.

Definition ep_port_wait_basic_timeout fuel port out maxevents timeout := ep_port_wait_timeout_impl fuel port out maxevents timeout true.

Definition ep_port_wait fuel port out maxevents timeout_ms :=
  ep_port_wait_timeout fuel port out maxevents (Some (ep_wait_timeout_from_milliseconds timeout_ms)).

End Waiting.
