(* ===== verification/Lifecycle.v ===== *)
(** * Port lifecycle

    [src/wepoll_ex_global.c], and [src/wepoll_ex_port.c], 2032-2104 and
    4278-4883: process-wide initialisation, creation of a port, the two-phase
    close, the drain of outstanding requests and the quarantine of a port whose
    requests do not finish in time.

    The C structure embeds the ready queue, the two pools and the first AFD
    group; here they are objects at fixed offsets from the port's address, and
    the allocation of a port allocates all of them. *)
From S2P Require Import Prelude Codes Types Errno Fault Links Pool ReadyQueue Quiet Readiness.
From S2P Require Import Exclusive FdTable Worklists Timeout Iocp Provider PollKeys AfdOps Groups Pipe.
From S2P Require Import Targets Levels Registration Completion Control Wait.

Definition EP_CLOSE_DRAIN_TIMEOUT_MS : Z := 5000.
Definition EP_QUARANTINE_DRAIN_TIMEOUT_MS : Z := 60000.
Definition EP_CLOSE_DRAIN_SLICE_MS : Z := 100.
Definition EP_MAX_ACTIVE_QUARANTINES : Z := 4.
Definition EP_MAX_SIZE_HINT : Z := 4096.
Definition sizeof_ep_port : Z := 1024.
Definition sizeof_afd_poll_info : Z := 32.
Definition sizeof_overlapped_entry : Z := 32.

(** ** Process-wide initialisation *)

Definition get_proc (module name : Z) : MW bool :=
  proc <- os (GetProcAddress module name) ;; ret (negb (proc =? 0)).

Definition api_put {T} (f : api_state -> T) `{!Setter f} (v : T) : MW unit :=
  api <- get w_api ;; put w_api (api <| f := v |>).

(** Names 1-7: NtDeviceIoControlFile, NtCreateFile, NtCancelIoFileEx,
    NtQueryObject, NtQueryEvent, NtQueryInformationFile, RtlNtStatusToDosError. *)
Definition ep_global_init_once : MW unit :=
  ntdll <- os (GetModuleHandleW 1) ;;
  if ntdll =? 0 then ret tt
  else
    ioctl <- get_proc ntdll 1 ;;
    create <- get_proc ntdll 2 ;;
    cancel <- get_proc ntdll 3 ;;
    query_object <- get_proc ntdll 4 ;;
    query_event <- get_proc ntdll 5 ;;
    put w_nt_query_event query_event ;;
    query_file <- get_proc ntdll 6 ;;
    put w_nt_query_information_file query_file ;;
    rtl <- get_proc ntdll 7 ;;
    put w_rtl_resolved rtl ;;
    started <- os WSAStartup ;;
    (if started =? 0 then api_put a_wsa_initialized true else ret tt) ;;
    api <- get w_api ;;
    put w_ntdll_initialized (ioctl && create && cancel && query_object && rtl && a_wsa_initialized api).

Definition ep_global_init : MW Z :=
  api <- get w_api ;;
  (if a_init_done api then ret tt else api_put a_init_done true ;; ep_global_init_once) ;;
  initialized <- get w_ntdll_initialized ;;
  if negb initialized then ep_set_errno ENOSYS ;; ret (-1) else ret 0.

Definition ep_global_fini : MW unit :=
  api <- get w_api ;;
  (if a_wsa_initialized api then os WSACleanup ;; api_put a_wsa_initialized false else ret tt) ;;
  put w_ntdll_initialized false.

(** ** Creation *)

Definition queue_offset : positive := 1.
Definition group_offset : positive := 2.
Definition info_pool_offset : positive := 3.
Definition node_pool_offset : positive := 4.

(** The zeroed port with its embedded objects. *)
Definition new_port (a : addr) : ep_port :=
  zero_port <| p_ready_queue := Some (a + queue_offset)%positive |>
            <| p_afd_group := Some (a + group_offset)%positive |>
            <| p_afd_info_pool := Some (a + info_pool_offset)%positive |>
            <| p_ready_node_pool := Some (a + node_pool_offset)%positive |>.

(** [calloc(1, sizeof(ep_port_t))]: NULL unless the whole block is free. *)
Definition alloc_port : MW ptr :=
  z <- os (Malloc sizeof_ep_port) ;;
  fun w =>
    let a := Z.to_pos z in
    if (z <=? 0) || bool_decide (is_Some (w_ports w !! a)) ||
       bool_decide (is_Some (w_queues w !! (a + queue_offset)%positive)) ||
       bool_decide (is_Some (w_groups w !! (a + group_offset)%positive)) ||
       bool_decide (is_Some (w_pools w !! (a + info_pool_offset)%positive)) ||
       bool_decide (is_Some (w_pools w !! (a + node_pool_offset)%positive))
    then Some (NULL, w)
    else Some (Some a,
      w <| w_ports := <[a := new_port a]> (w_ports w) |>
        <| w_queues := <[(a + queue_offset)%positive := mk_ready_queue NULL NULL NULL 0 false]> (w_queues w) |>
        <| w_groups := <[(a + group_offset)%positive := zero_group]> (w_groups w) |>
        <| w_pools := <[(a + node_pool_offset)%positive := zero_pool]>
                        (<[(a + info_pool_offset)%positive := zero_pool]> (w_pools w)) |>).

(** [free(port)]. *)
Definition free_port (port : ptr) : MW unit :=
  p <- rd w_ports port (fun p => p) ;;
  del w_queues (p_ready_queue p) ;;
  del w_groups (p_afd_group p) ;;
  del w_pools (p_afd_info_pool p) ;;
  del w_pools (p_ready_node_pool p) ;;
  del w_ports port.

(** What creation has initialised when it fails. *)
Record create_flags := mk_create_flags { c_ready : bool; c_afd_pool : bool; c_node_pool : bool }.

(** The mutexes one after the other, up to the first that fails; [held] are
    those whose [_initialized] flag is set. *)
Fixpoint init_locks (todo held : list port_lock) : MW (bool * list port_lock) :=
  match todo with
  | [] => ret (true, held)
  | lock :: todo =>
    mutex_error <- os (PortLockInit lock) ;;
    if negb (mutex_error =? 0) then ep_set_errno mutex_error ;; ret (false, held)
    else init_locks todo (lock :: held)
  end.
Definition port_locks : list port_lock := [FD_TABLE_LOCK; WAIT_LOCK; WAKE_LOCK; IOCP_POST_LOCK].
Definition destroy_lock (held : list port_lock) (lock : port_lock) : MW unit :=
  if bool_decide (lock ∈ held) then os (PortLockDestroy lock) ;; ret tt else ret tt.

Definition create_table (port : ptr) (size_hint : Z) : MW bool :=
  if 0 <? size_hint then
    let capacity_hint := Z.min size_hint EP_MAX_SIZE_HINT in
    if SIZE_MAX / 2 <? capacity_hint then ep_set_errno ENOMEM ;; ret false
    else
      failed <- ep_fd_table_grow port (Z.max (capacity_hint * 2) WEPOLL_INITIAL_FDS) ;;
      ret (failed =? 0)
  else ret true.

Definition pool_capacity_hint (size_hint : Z) : Z :=
  if 0 <? size_hint then Z.max WEPOLL_AFD_POOL_SIZE (Z.min size_hint EP_MAX_SIZE_HINT) else WEPOLL_AFD_POOL_SIZE.

(** Names 8 and 9: CreateWaitableTimerExW, QueryUnbiasedInterruptTimePrecise. *)
Definition create_procs (port : ptr) : MW unit :=
  wr w_ports port p_udp_probe_read true ;;
  kernel32 <- os (GetModuleHandleW 2) ;;
  (if negb (kernel32 =? 0) then
     timer <- get_proc kernel32 8 ;;
     wr w_ports port p_create_timer timer ;;
     query <- get_proc kernel32 9 ;;
     wr w_ports port p_query_precise query
   else ret tt) ;;
  query <- rd w_ports port p_query_precise ;;
  if query : bool then ret tt
  else
    kernelbase <- os (GetModuleHandleW 3) ;;
    if negb (kernelbase =? 0) then
      query <- get_proc kernelbase 9 ;; wr w_ports port p_query_precise query
    else ret tt.

(** The completion port and its first AFD handle. *)
Definition create_iocp (port : ptr) : MW bool :=
  fault <- ep_fault_hit EP_FAULT_IOCP_CREATE ;;
  if negb (fault =? 0) then ret false
  else
    iocp <- os (CreateIoCompletionPort INVALID_HANDLE_VALUE 0) ;;
    wr w_ports port p_iocp iocp ;;
    if iocp =? 0 then error <- os GetLastError ;; ep_set_win32_error (u32 error) ;; ret false
    else
      wr w_ports port p_iocp_post_handle iocp ;;
      r <- ep_afd_open iocp ;;
      let '(failed, afd) := r in
      if negb (failed =? 0) then ret false
      else
        group <- rd w_ports port p_afd_group ;;
        wr w_groups group g_afd afd ;;
        wr w_ports port p_afd_available group ;;
        ret true.

(** The optional event of the UDP probe, without a trace in the error state. *)
Definition create_probe_event (port : ptr) : MW unit :=
  saved_errno <- ep_last_err ;;
  saved_wsa_error <- os WSAGetLastError ;;
  saved_last_error <- os GetLastError ;;
  event <- os CreateEventW ;;
  wr w_ports port p_udp_probe_event event ;;
  os (WSASetLastError saved_wsa_error) ;;
  os (SetLastError saved_last_error) ;;
  ep_set_errno saved_errno.

Definition create_finish (port : ptr) (flags : Z) : MW unit :=
  wr w_ports port p_close_on_exec (has flags EPOLL_CLOEXEC) ;;
  wr w_ports port p_explicit_rearm (has flags WEPOLL_EX_CREATE_EXPLICIT_REARM) ;;
  wr w_ports port p_waiter_active false ;;
  wr w_ports port p_active_wait_epoch 0 ;;
  wr w_ports port p_waiter_coalescing false ;;
  wr w_ports port p_wake_pending 0 ;;
  wr w_ports port p_wake_requests 0 ;;
  wr w_ports port p_wake_coalesced 0 ;;
  wr w_ports port p_wake_returns 0 ;;
  wr w_ports port p_closing false ;;
  wr w_ports port p_iocp_closed false ;;
  wr w_ports port p_iocp_post_error 0 ;;
  wr w_ports port p_iocp_post_failures 0 ;;
  wr w_ports port p_precise_timeout_active_generation 0 ;;
  wr w_ports port p_precise_timeout_armed false ;;
  wr w_ports port p_precise_timeout_post_failures 0 ;;
  wr w_ports port p_generation 0 ;;
  wr w_ports port p_close_drain_timeout_ms EP_CLOSE_DRAIN_TIMEOUT_MS ;;
  wr w_ports port p_quarantine_drain_timeout_ms EP_QUARANTINE_DRAIN_TIMEOUT_MS ;;
  wr w_ports port p_next_sock_generation 0.

(** The stages up to the completion port: whether all of them succeeded, and
    what must be undone. *)
Definition create_stages (port : ptr) (size_hint : Z) : MW (bool * create_flags) :=
  let none := mk_create_flags false false false in
  p <- rd w_ports port (fun p => p) ;;
  ep_ready_init (p_ready_queue p) ;;
  ready <- rd w_queues (p_ready_queue p) q_initialized ;;
  if negb ready then ret (false, none)
  else
  table <- create_table port size_hint ;;
  if negb table then ret (false, mk_create_flags true false false)
  else
  failed <- ep_afd_pool_init (p_afd_info_pool p) sizeof_afd_poll_info (pool_capacity_hint size_hint) ;;
  if negb (failed =? 0) then ret (false, mk_create_flags true false false)
  else
  failed <- ep_afd_pool_init (p_ready_node_pool p) sizeof_ready_node (pool_capacity_hint size_hint) ;;
  if negb (failed =? 0) then ret (false, mk_create_flags true true false)
  else
  wr w_ports port p_iocp_batch_size 64 ;;
  entries <- os (CallocArray 64 sizeof_overlapped_entry) ;;
  wr w_ports port p_iocp_entries (Z.max entries 0) ;;
  if entries <=? 0 then ep_set_errno ENOMEM ;; ret (false, mk_create_flags true true true)
  else
  create_procs port ;;
  opened <- create_iocp port ;;
  ret (opened, mk_create_flags true true true).

(** The [fail] label. *)
Definition create_undo (port : ptr) (held : list port_lock) (made : create_flags) : MW unit :=
  saved_error <- ep_get_last_error_info ;;
  ep_port_close_afd_groups port ;;
  p <- rd w_ports port (fun p => p) ;;
  (if negb (p_udp_probe_event p =? 0) then os (CloseHandle (p_udp_probe_event p)) ;; ret tt else ret tt) ;;
  (if negb (p_iocp p =? 0) then os (CloseHandle (p_iocp p)) ;; ret tt else ret tt) ;;
  os (FreeArray (p_iocp_entries p)) ;;
  os (FreeArray (p_fd_table_block p)) ;;
  (if c_node_pool made then ep_afd_pool_destroy (p_ready_node_pool p) else ret tt) ;;
  (if c_afd_pool made then ep_afd_pool_destroy (p_afd_info_pool p) else ret tt) ;;
  (if c_ready made then ep_ready_destroy (p_ready_queue p) else ret tt) ;;
  destroy_lock held WAIT_LOCK ;;
  destroy_lock held WAKE_LOCK ;;
  destroy_lock held IOCP_POST_LOCK ;;
  destroy_lock held FD_TABLE_LOCK ;;
  free_port port ;;
  ep_restore_last_error_info saved_error.

(** The result and [*out]; [out] says whether it is not NULL. *)
Definition ep_port_create (size_hint flags : Z) (out : bool) : MW (Z * ptr) :=
  if negb out then ep_set_errno EFAULT ;; ret (-1, NULL)
  else
  failed <- ep_global_init ;;
  if negb (failed =? 0) then ret (-1, NULL)
  else
  port <- alloc_port ;;
  match port with
  | None => ep_set_errno ENOMEM ;; ret (-1, NULL)
  | Some _ =>
    frequency <- os QueryPerformanceFrequency ;;
    wr w_ports port p_qpc_frequency frequency ;;
    locks <- init_locks port_locks [] ;;
    r <- (if negb locks.1 then ret (false, mk_create_flags false false false) else create_stages port size_hint) ;;
    let '(ok, made) := r in
    if negb ok then create_undo port locks.2 made ;; ret (-1, NULL)
    else
      create_probe_event port ;;
      create_finish port flags ;;
      ret (0, port)
  end.

(** ** Closing *)

Definition ep_port_begin_close (port : ptr) : MW unit :=
  match port with
  | None => ret tt
  | Some _ =>
    closing <- rd w_ports port p_closing ;;
    wr w_ports port p_closing true ;;
    if closing : bool then ret tt
    else
      handle <- rd w_ports port p_iocp_post_handle ;;
      posted <-
        (if handle =? 0 then ret false
         else
           fault <- ep_fault_hit EP_FAULT_IOCP_POST ;;
           if negb (fault =? 0) then ret false
           else ok <- os (PostQueuedCompletionStatus handle 0 OvNull) ;; ret (negb (ok =? 0))) ;;
      if posted : bool then ret tt
      else
        wr w_ports port p_iocp_post_handle 0 ;;
        wr w_ports port p_iocp_closed true ;;
        if negb (handle =? 0) then os (CloseHandle handle) ;; ret tt else ret tt
  end.

(** [if (port->udp_probe_event != NULL)] and the rest of what both ends of a
    port's life close. *)
Definition close_handles_of (port : ptr) : MW unit :=
  ep_port_close_afd_groups port ;;
  event <- rd w_ports port p_udp_probe_event ;;
  (if negb (event =? 0) then os (CloseHandle event) ;; wr w_ports port p_udp_probe_event 0 else ret tt) ;;
  ep_port_precise_timeout_destroy port ;;
  iocp_to_close <- ep_port_revoke_iocp_posts port ;;
  (if negb (iocp_to_close =? 0) then os (CloseHandle iocp_to_close) ;; ret tt else ret tt) ;;
  wr w_ports port p_iocp 0.

(** [for (sock = head; sock != NULL; sock = next)] with [next] read first. *)
Fixpoint each_sock (fuel : nat) (sock : ptr) (visit : addr -> MW unit) : MW unit :=
  match sock, fuel with
  | None, _ => ret tt
  | Some _, O => stuck
  | Some a, S fuel =>
    next <- rd w_socks sock s_next ;;
    visit a ;;
    each_sock fuel next visit
  end.

Definition for_each_sock (port : ptr) (visit : addr -> MW unit) : MW unit :=
  head <- rd w_ports port p_sock_list_head ;;
  fuel <- get walk_fuel ;;
  each_sock fuel head visit.

(** The chain a drain returned is freed. *)
Fixpoint free_nodes (fuel : nat) (port node : ptr) : MW unit :=
  match node, fuel with
  | None, _ => ret tt
  | Some _, O => stuck
  | Some _, S fuel =>
    next <- rd w_nodes node n_next ;;
    ep_ready_node_free port node ;;
    free_nodes fuel port next
  end.

(** A drain of at most [INT_MAX] nodes, which is at most the allocated ones. *)
Fixpoint free_ready (fuel : nat) (port : ptr) : MW unit :=
  match fuel with
  | O => stuck
  | S fuel =>
    queue <- rd w_ports port p_ready_queue ;;
    n <- get drain_fuel ;;
    node <- ep_ready_drain queue (Z.min INT_MAX (Z.of_nat n)) ;;
    match node with
    | None => ret tt
    | Some _ => free_nodes n port node ;; free_ready fuel port
    end
  end.

Definition ep_port_finish_destroy_locked (port : ptr) : MW unit :=
  for_each_sock port (ep_sock_free_locked port) ;;
  fuel <- get drain_fuel ;;
  free_ready fuel port ;;
  p <- rd w_ports port (fun p => p) ;;
  ep_ready_destroy (p_ready_queue p) ;;
  close_handles_of port ;;
  ep_afd_pool_destroy (p_afd_info_pool p) ;;
  ep_afd_pool_destroy (p_ready_node_pool p) ;;
  os (FreeArray (p_fd_table_block p)) ;;
  os (FreeArray (p_iocp_entries p)) ;;
  os (PortLockDestroy WAIT_LOCK) ;;
  os (PortLockDestroy WAKE_LOCK) ;;
  os (PortLockDestroy IOCP_POST_LOCK) ;;
  os (PortLockDestroy FD_TABLE_LOCK) ;;
  free_port port.

(** The port stays allocated: the kernel may still complete its requests. *)
Definition ep_port_abandon_locked (port : ptr) : MW unit :=
  close_handles_of port ;;
  n <- get w_irrecoverable_ports ;;
  put w_irrecoverable_ports (u64 (n + 1)).

Definition ep_port_reaper_admit : MW bool :=
  active <- get w_active_quarantines ;;
  if active <? EP_MAX_ACTIVE_QUARANTINES then put w_active_quarantines (u64 (active + 1)) ;; ret true
  else ret false.

(** [None]: the module could not be pinned; 0: it needs no pin. *)
Definition ep_port_pin_containing_module : MW (option Z) :=
  found <- os (GetModuleHandleExW false) ;;
  if found =? 0 then ret None
  else
    module <- os ModuleHandle ;;
    process <- os (GetModuleHandleW 0) ;;
    if module =? process then ret (Some 0)
    else
      pinned <- os (GetModuleHandleExW true) ;;
      if pinned =? 0 then ret None else module <- os ModuleHandle ;; ret (Some module).

Definition leave_quarantine : MW unit :=
  active <- get w_active_quarantines ;; put w_active_quarantines (u64 (active - 1)).

Definition count_quarantined : MW unit :=
  n <- get w_quarantined_ports ;; put w_quarantined_ports (u64 (n + 1)).

(** The reaper thread is started ([CreateThread] answers a handle), or the port
    is abandoned. *)
Definition ep_port_quarantine_recoverable_locked (port : ptr) (error : Z) : MW Z :=
  context <- os (Malloc 16) ;;
  count_quarantined ;;
  admitted <- ep_port_reaper_admit ;;
  if negb admitted then ep_port_abandon_locked port ;; ep_set_errno error ;; ret (-1)
  else
    module <- (if 0 <? context then ep_port_pin_containing_module else ret None) ;;
    thread <- match module with Some _ => os CreateThread | None => ret 0 end ;;
    (if thread =? 0 then
       match module with
       | Some m => if negb (m =? 0) then os (FreeLibrary m) ;; ret tt else ret tt
       | None => ret tt
       end ;;
       leave_quarantine ;;
       ep_port_abandon_locked port
     else os (CloseHandle thread) ;; ret tt) ;;
    ep_set_errno error ;;
    ret (-1).

Section Draining.
Context (others : MW unit).

(** 0: nothing is pending; 1: the deadline has passed; -1: the completion port
    failed. *)
Fixpoint ep_port_drain_pending_until (fuel : nat) (port : ptr) (deadline : Z) : MW Z :=
  match fuel with
  | O => stuck
  | S fuel =>
    pending <- ep_port_pending_count others port ;;
    if pending =? 0 then ret 0
    else
    closed <- rd w_ports port p_iocp_closed ;;
    if closed : bool then ep_set_errno EIO ;; ret (-1)
    else
    now <- os GetTickCount64 ;;
    let now := u64 now in
    if deadline <=? now then ep_set_errno ETIMEDOUT ;; ret 1
    else
    fault <- ep_fault_hit EP_FAULT_IOCP_DEQUEUE ;;
    if negb (fault =? 0) then ret (-1)
    else
    r <- dequeue others port (Z.min (deadline - now) EP_CLOSE_DRAIN_SLICE_MS) ;;
    match r with
    | None =>
      error <- os GetLastError ;;
      if u32 error =? WAIT_TIMEOUT then ep_port_drain_pending_until fuel port deadline
      else ep_set_win32_error (u32 error) ;; ret (-1)
    | Some removed =>
      dispatch_loop others (Z.to_nat removed) port 0 0 ;;
      ep_port_drain_pending_until fuel port deadline
    end
  end.

(** The body of the reaper thread. *)
Definition ep_port_reaper_thread (fuel : nat) (port : ptr) : MW unit :=
  timeout <- rd w_ports port p_quarantine_drain_timeout_ms ;;
  now <- os GetTickCount64 ;;
  drain_result <- ep_port_drain_pending_until fuel port (u64 (u64 now + timeout)) ;;
  (if drain_result =? 0 then
     ep_port_finish_destroy_locked port ;;
     n <- get w_reaped_ports ;;
     put w_reaped_ports (u64 (n + 1))
   else ep_port_abandon_locked port) ;;
  leave_quarantine.

(** A registration of a closing port. *)
Definition destroy_visit (sock : addr) : MW bool :=
  release_exclusive sock ;;
  wr w_socks (Some sock) s_delete_pending true ;;
  wr w_socks (Some sock) s_state EP_SOCK_DELETED ;;
  ep_sock_set_needs_rearm_locked (Some sock) false ;;
  ep_sock_set_oneshot_fired_locked (Some sock) false ;;
  failed <- ep_sock_cancel_locked sock ;;
  ret (negb (failed =? 0)).

(** [for (sock = head; sock != NULL; sock = sock->next)]: whether a
    cancellation failed. *)
Fixpoint destroy_cancel_loop (fuel : nat) (sock : ptr) (cancel_failed : bool) : MW bool :=
  match sock, fuel with
  | None, _ => ret cancel_failed
  | Some _, O => stuck
  | Some a, S fuel =>
    failed <- destroy_visit a ;;
    next <- rd w_socks sock s_next ;;
    destroy_cancel_loop fuel next (cancel_failed || failed)
  end.

Definition free_if_idle (port : ptr) (sock : addr) : MW unit :=
  poll_status <- rd w_socks (Some sock) s_poll_status ;;
  if bool_decide (poll_status = EP_POLL_IDLE) then ep_sock_free_locked port sock else ret tt.

(** The critical section of destruction: every registration is deleted, and
    those without a request in flight are freed. *)
Definition destroy_registrations (port : ptr) : MW unit :=
  head <- rd w_ports port p_sock_list_head ;;
  fuel <- get walk_fuel ;;
  cancel_failed <- destroy_cancel_loop fuel head false ;;
  (if cancel_failed : bool then ep_port_close_afd_groups port else ret tt) ;;
  table <- rd w_ports port p_fd_table ;;
  wr w_ports port p_fd_table (replicate (length table) NULL) ;;
  wr w_ports port p_fd_table_count 0 ;;
  for_each_sock port (free_if_idle port).

Definition ep_port_destroy (fuel : nat) (port : ptr) : MW Z :=
  match port with
  | None => ret 0
  | Some _ =>
    ep_port_begin_close port ;;
    shared others (destroy_registrations port) ;;
    timeout <- rd w_ports port p_close_drain_timeout_ms ;;
    now <- os GetTickCount64 ;;
    drain_result <- ep_port_drain_pending_until fuel port (u64 (u64 now + timeout)) ;;
    if drain_result =? 0 then ep_port_finish_destroy_locked port ;; ret 0
    else
      error <- ep_last_err ;;
      closed <- rd w_ports port p_iocp_closed ;;
      if (0 <? drain_result) && negb closed then ep_port_quarantine_recoverable_locked port error
      else
        count_quarantined ;;
        ep_port_abandon_locked port ;;
        ep_set_errno error ;;
        ret (-1)
  end.

End Draining.

(** ** Statistics *)

Record wepoll_ex_stats := mk_stats {
  st_version : Z; st_socket_lifetime_policy : Z;
  st_active_registrations : Z; st_pending_polls : Z; st_rearm_queue_depth : Z; st_oneshot_probe_queue_depth : Z;
  st_ready_queue_depth : Z; st_afd_pool_in_use : Z; st_afd_pool_peak : Z; st_ready_pool_in_use : Z;
  st_ready_pool_peak : Z; st_rearm_work_items : Z; st_stale_events_dropped : Z; st_identity_failures : Z;
  st_asynchronous_errors : Z; st_zero_timeout_budget_hits : Z; st_wake_requests : Z; st_wake_coalesced : Z;
  st_wake_returns : Z; st_tcp_current_level_probes : Z; st_tcp_current_level_fallbacks : Z }.

Definition ep_port_get_stats (port : ptr) (out : bool) : MW (option wepoll_ex_stats) :=
  match port with
  | Some _ =>
    if negb out then ep_set_errno EFAULT ;; ret None
    else
      p <- rd w_ports port (fun p => p) ;;
      queued <- rd w_queues (p_ready_queue p) q_queued ;;
      infos <- rd w_pools (p_afd_info_pool p) (fun l => l) ;;
      nodes <- rd w_pools (p_ready_node_pool p) (fun l => l) ;;
      ret (Some (mk_stats 1 0
        (p_fd_table_count p) (p_pending_poll_count p) (p_needs_rearm_count p) (p_oneshot_fired_count p)
        queued (pool_in_use infos) (pool_peak infos) (pool_in_use nodes) (pool_peak nodes)
        (u64 (p_rearm_work_visits p + p_oneshot_probe_visits p)) (p_stale_events_dropped p) (p_identity_failures p)
        (u64 (p_asynchronous_errors p + p_iocp_post_failures p)) (p_zero_timeout_budget_hits p)
        (p_wake_requests p) (p_wake_coalesced p) (p_wake_returns p)
        (p_tcp_current_level_probes p) (p_tcp_current_level_fallbacks p)))
  | None => ep_set_errno EFAULT ;; ret None
  end.

Record wepoll_ex_global_stats := mk_global_stats {
  gs_version : Z; gs_quarantined_ports : Z; gs_reaped_ports : Z; gs_irrecoverable_ports : Z;
  gs_api_close_timeouts : Z; gs_active_quarantines : Z }.

Definition ep_get_global_stats : MW wepoll_ex_global_stats :=
  get (fun w => mk_global_stats 1 (w_quarantined_ports w) (w_reaped_ports w) (w_irrecoverable_ports w)
                  (a_close_timeouts (w_api w)) (w_active_quarantines w)).
