(* ===== verification/Api.v ===== *)
(** * Public interface

    [src/wepoll_ex_api.c]: the table of public descriptors, the references the
    operations hold on a port, and the exported functions.  The critical
    sections under [g_epfd_lock] are the functions [find_epfd] ... [put_shared],
    [close_shared] and [detach_shared]; the last three are pure functions of
    the shared record. *)
From S2P Require Import Prelude Codes Types Errno Fault Links Pool ReadyQueue Quiet Readiness.
From S2P Require Import Exclusive FdTable Worklists Timeout Iocp Provider PollKeys AfdOps Groups Pipe.
From S2P Require Import Targets Levels Registration Completion Control Wait Lifecycle.

Definition EPFD_BUCKET_COUNT : Z := 64.
Definition sizeof_epfd_shared : Z := 32.
Definition sizeof_epfd_entry : Z := 24.

(** ** The descriptor table *)

Definition epfd_bucket (fd : Z) : Z := u32 fd mod EPFD_BUCKET_COUNT.

Definition epfd_head (bucket : Z) (w : world) : ptr :=
  default NULL (a_epfd_buckets (w_api w) !! Z.to_nat bucket).
Definition set_epfd_head (bucket : Z) (p : ptr) : MW unit :=
  api <- get w_api ;;
  put w_api (api <| a_epfd_buckets := <[Z.to_nat bucket := p]> (a_epfd_buckets api) |>).

Fixpoint epfd_find_loop (fuel : nat) (entry : ptr) (fd : Z) : MW ptr :=
  match entry, fuel with
  | None, _ => ret NULL
  | Some _, O => stuck
  | Some _, S fuel =>
    entry_fd <- rd w_epfds entry f_fd ;;
    if entry_fd =? fd then ret entry
    else next <- rd w_epfds entry f_next ;; epfd_find_loop fuel next fd
  end.
Definition epfd_fuel (w : world) : nat := size (w_epfds w).

Definition epfd_find_locked (fd : Z) : MW ptr :=
  if fd <=? 0 then ret NULL
  else
    head <- get (epfd_head (epfd_bucket fd)) ;;
    fuel <- get epfd_fuel ;;
    epfd_find_loop fuel head fd.

(** The search for a free number; one of as many candidates as there are
    descriptors plus one is free, so the [INT_MAX] attempts of the code are
    never used up. *)
Fixpoint allocate_id_loop (attempts : nat) : MW Z :=
  match attempts with
  | O => ret (-1)
  | S attempts =>
    api <- get w_api ;;
    let candidate := a_next_fd api in
    put w_api (api <| a_next_fd := if candidate =? INT_MAX then 1 else candidate + 1 |>) ;;
    unused <- (if 0 <? candidate then found <- epfd_find_locked candidate ;; ret (bool_decide (found = NULL))
               else ret false) ;;
    if unused : bool then ret candidate else allocate_id_loop attempts
  end.
Definition epfd_allocate_id_locked : MW Z :=
  descriptors <- get epfd_fuel ;;
  allocate_id_loop (Z.to_nat (Z.min INT_MAX (Z.of_nat (S descriptors)))).

Definition epfd_insert_locked (entry : addr) (fd : Z) : MW unit :=
  wr w_epfds (Some entry) f_fd fd ;;
  head <- get (epfd_head (epfd_bucket fd)) ;;
  wr w_epfds (Some entry) f_next head ;;
  set_epfd_head (epfd_bucket fd) (Some entry).

(** [prev] is the entry whose link is followed, NULL for the bucket head. *)
Fixpoint epfd_unlink_loop (fuel : nat) (bucket : Z) (prev current : ptr) (entry : addr) : MW unit :=
  match current, fuel with
  | None, _ => ret tt
  | Some _, O => stuck
  | Some a, S fuel =>
    next <- rd w_epfds current f_next ;;
    if bool_decide (a = entry) then
      match prev with
      | None => set_epfd_head bucket next
      | Some _ => wr w_epfds prev f_next next
      end
    else epfd_unlink_loop fuel bucket current next entry
  end.
Definition epfd_unlink_locked (entry : addr) : MW unit :=
  fd <- rd w_epfds (Some entry) f_fd ;;
  head <- get (epfd_head (epfd_bucket fd)) ;;
  fuel <- get epfd_fuel ;;
  epfd_unlink_loop fuel (epfd_bucket fd) NULL head entry.

Definition zero_shared : epfd_shared := mk_shared NULL 0 0 false false 0.

Definition epfd_alloc (port : ptr) : MW Z :=
  shared <- alloc w_shareds sizeof_epfd_shared zero_shared ;;
  match shared with
  | None => fail_with ENOMEM
  | Some _ =>
    entry <- alloc w_epfds sizeof_epfd_entry (mk_epfd 0 NULL NULL) ;;
    match entry with
    | None => del w_shareds shared ;; fail_with ENOMEM
    | Some e =>
      event <- os CreateEventW ;;
      wr w_shareds shared sh_refs_drained_event event ;;
      if event =? 0 then
        error <- os GetLastError ;;
        del w_epfds entry ;; del w_shareds shared ;;
        ep_set_win32_error (u32 error) ;; ret (-1)
      else
        wr w_shareds shared sh_port port ;;
        wr w_shareds shared sh_aliases 1 ;;
        wr w_epfds entry f_shared shared ;;
        fd <- epfd_allocate_id_locked ;;
        (if 0 <? fd then epfd_insert_locked e fd else ret tt) ;;
        (if fd <? 0 then
           os (CloseHandle event) ;; del w_epfds entry ;; del w_shareds shared ;; ep_set_errno EMFILE
         else ret tt) ;;
        ret fd
    end
  end.

(** The descriptor's record, unless its port is being closed. *)
Definition find_epfd (fd : Z) : MW ptr :=
  entry <- epfd_find_locked fd ;;
  match entry with
  | None => ret NULL
  | Some _ =>
    shared <- rd w_epfds entry f_shared ;;
    closing <- rd w_shareds shared sh_closing ;;
    ret (if closing : bool then NULL else shared)
  end.

Definition epfd_duplicate (fd : Z) : MW Z :=
  entry <- alloc w_epfds sizeof_epfd_entry (mk_epfd 0 NULL NULL) ;;
  match entry with
  | None => fail_with ENOMEM
  | Some e =>
    source <- find_epfd fd ;;
    match source with
    | None => del w_epfds entry ;; fail_with EBADF
    | Some _ =>
      duplicate_fd <- epfd_allocate_id_locked ;;
      (if 0 <? duplicate_fd then
         wr w_epfds entry f_shared source ;;
         aliases <- rd w_shareds source sh_aliases ;;
         wr w_shareds source sh_aliases (u32 (aliases + 1)) ;;
         epfd_insert_locked e duplicate_fd
       else ret tt) ;;
      (if duplicate_fd <? 0 then del w_epfds entry ;; ep_set_errno EMFILE else ret tt) ;;
      ret duplicate_fd
    end
  end.

(** ** References *)

Definition acquire_shared (s : epfd_shared) : epfd_shared := s <| sh_refs := u32 (sh_refs s + 1) |>.

Definition epfd_acquire (fd : Z) : MW ptr :=
  shared <- find_epfd fd ;;
  match shared with
  | None => ret NULL
  | Some _ =>
    s <- rd w_shareds shared (fun s => s) ;;
    st w_shareds shared (acquire_shared s) ;;
    ret shared
  end.

Definition epfd_require (fd : Z) : MW ptr :=
  shared <- epfd_acquire fd ;;
  (if bool_decide (shared = NULL) then ep_set_errno EBADF else ret tt) ;;
  ret shared.

(** What the thread that gives a reference back must do. *)
Inductive put_action := PutNothing | PutSignal | PutDestroy.

Definition put_shared (s : epfd_shared) : epfd_shared * put_action :=
  let s := if 0 <? sh_refs s then s <| sh_refs := sh_refs s - 1 |> else s in
  (s, if sh_closing s && (sh_refs s =? 0) then if sh_detached s then PutDestroy else PutSignal else PutNothing).

(** The first critical section of a close: one alias fewer; [true] when it was
    the last. *)
Definition close_shared (s : epfd_shared) : epfd_shared * bool :=
  let s := s <| sh_aliases := u32 (sh_aliases s - 1) |> in
  let final_alias := sh_aliases s =? 0 in
  (if final_alias then s <| sh_closing := true |> else s, final_alias).

(** The last one: with references left the port is handed to the last of
    them ([true]), otherwise the closer destroys it. *)
Definition detach_shared (s : epfd_shared) : epfd_shared * bool :=
  if negb (sh_refs s =? 0) then (s <| sh_detached := true |>, true) else (s, false).

Section Api.
Context (others : MW unit) (fuel : nat).

Definition epfd_destroy (shared : ptr) : MW Z :=
  port <- rd w_shareds shared sh_port ;;
  result <- ep_port_destroy others fuel port ;;
  saved_error <- ep_get_last_error_info ;;
  event <- rd w_shareds shared sh_refs_drained_event ;;
  os (CloseHandle event) ;;
  del w_shareds shared ;;
  (if negb (result =? 0) then ep_restore_last_error_info saved_error else ret tt) ;;
  ret result.

(** The operation has already set its own error: destruction leaves no trace
    in the error channel. *)
Definition epfd_put (shared : ptr) : MW unit :=
  s <- rd w_shareds shared (fun s => s) ;;
  st w_shareds shared (put_shared s).1 ;;
  match (put_shared s).2 with
  | PutNothing => ret tt
  | PutSignal => os (SetEvent (sh_refs_drained_event s)) ;; ret tt
  | PutDestroy =>
    operation_errno <- ep_last_err ;;
    operation_error <- ep_get_last_error_info ;;
    destroy_result <- epfd_destroy shared ;;
    (if destroy_result =? 0 then
       api <- get w_api ;; api_put a_deferred_destroys (u64 (a_deferred_destroys api + 1))
     else ret tt) ;;
    ep_restore_last_error_info operation_error ;;
    put w_errno operation_errno
  end.

(** *** Diagnostics and test hooks *)

Definition ep_api_close_timeout_count : MW Z := api <- get w_api ;; ret (a_close_timeouts api).
Definition ep_test_set_api_close_timeout_ms (timeout_ms : Z) : MW unit := api_put a_close_timeout_ms timeout_ms.
Definition ep_test_api_ref_hold (epfd : Z) : MW ptr := epfd_require epfd.
Definition ep_test_api_ref_release (reference : ptr) : MW unit :=
  if bool_decide (reference = NULL) then ret tt else epfd_put reference.
Definition ep_test_api_deferred_destroy_count : MW Z := api <- get w_api ;; ret (a_deferred_destroys api).

(** The shape of a public operation: a reference is held while [body] runs on
    the port. *)
Definition with_port {A} (epfd : Z) (refused : A) (body : ptr -> MW A) : MW A :=
  entry <- epfd_require epfd ;;
  match entry with
  | None => ret refused
  | Some _ =>
    port <- rd w_shareds entry sh_port ;;
    result <- body port ;;
    epfd_put entry ;;
    ret result
  end.

(** ** Creation and control *)

Definition epoll_create_ex (size flags : Z) : MW Z :=
  if (size <? 0) || negb (Z.ldiff flags (EPOLL_CLOEXEC ||| WEPOLL_EX_CREATE_EXPLICIT_REARM) =? 0)
  then fail_with EINVAL
  else
    failed <- ep_global_init ;;
    if negb (failed =? 0) then ret (-1)
    else
      r <- ep_port_create size flags true ;;
      let '(failed, port) := r in
      if negb (failed =? 0) then ret (-1)
      else
        fd <- epfd_alloc port ;;
        (if fd <? 0 then
           saved_error <- ep_get_last_error_info ;;
           ep_port_begin_close port ;;
           ep_port_destroy others fuel port ;;
           ep_restore_last_error_info saved_error
         else ret tt) ;;
        ret fd.

Definition epoll_create (size : Z) : MW Z :=
  if size <=? 0 then fail_with EINVAL else epoll_create_ex 0 0.

Definition epoll_create1 (flags : Z) : MW Z :=
  if negb (Z.ldiff flags EPOLL_CLOEXEC =? 0) then fail_with EINVAL else epoll_create_ex 0 flags.

(** [struct epoll_event]: events and data. *)
Definition exclusive_allowed : Z :=
  EPOLLIN ||| EPOLLOUT ||| EPOLLWAKEUP ||| EPOLLET ||| EPOLLERR ||| EPOLLHUP ||| EPOLLEXCLUSIVE.

(** The EPOLLEXCLUSIVE rules of ADD: 0 when they are met. *)
Definition ctl_add_exclusive (port : ptr) (fd events : Z) : MW Z :=
  if has events EPOLLEXCLUSIVE then
    invalid <- ep_port_validate_target port fd EP_TARGET_VALIDATE_ADD ;;
    if negb (invalid =? 0) then ret (-1)
    else if negb (Z.ldiff events exclusive_allowed =? 0) then fail_with EINVAL
    else ret 0
  else ret 0.

Definition epoll_ctl_port (port : ptr) (op fd : Z) (event : option (Z * Z)) (user_ctx : Z) : MW Z :=
  if fd =? EPOLL_FD_INVALID then fail_with EBADF
  else if op =? EPOLL_CTL_ADD then
    match event with
    | None => fail_with EFAULT
    | Some (events, data) =>
      refused <- ctl_add_exclusive port fd events ;;
      if negb (refused =? 0) then ret (-1)
      else ep_port_register port fd events
             (Z.land events (EPOLLONESHOT ||| EPOLLEXCLUSIVE ||| EPOLLET)) data user_ctx
    end
  else if op =? EPOLL_CTL_MOD then
    match event with
    | None => fail_with EFAULT
    | Some (events, data) =>
      if has events EPOLLEXCLUSIVE then
        invalid <- ep_port_validate_target port fd EP_TARGET_VALIDATE_CONTROL ;;
        if negb (invalid =? 0) then ret (-1) else fail_with EINVAL
      else ep_port_modify port fd events (Z.land events (EPOLLONESHOT ||| EPOLLET)) data user_ctx
    end
  else if op =? EPOLL_CTL_DEL then ep_port_unregister port fd
  else
    invalid <- ep_port_validate_target port fd EP_TARGET_VALIDATE_CONTROL ;;
    if negb (invalid =? 0) then ret (-1) else fail_with EINVAL.

Definition epoll_ctl_ctx (epfd op fd : Z) (event : option (Z * Z)) (user_ctx : Z) : MW Z :=
  if negb (op =? EPOLL_CTL_DEL) && bool_decide (event = None) then fail_with EFAULT
  else if fd =? EPOLL_FD_INVALID then fail_with EBADF
  else
    with_port epfd (-1) (fun port =>
      epoll_ctl_port port op fd (if op =? EPOLL_CTL_DEL then None else event) user_ctx).

Definition epoll_ctl (epfd op fd : Z) (event : option (Z * Z)) : MW Z := epoll_ctl_ctx epfd op fd event 0.

(** *** Batches *)

(** The validation before any operation runs: 0 or the errno. *)
Fixpoint batch_invalid (ops : list (Z * Z)) (events : bool) : Z :=
  match ops with
  | [] => 0
  | (op, fd) :: ops =>
    if negb ((op =? EPOLL_CTL_ADD) || (op =? EPOLL_CTL_MOD) || (op =? EPOLL_CTL_DEL)) then EINVAL
    else if negb (op =? EPOLL_CTL_DEL) && negb events then EFAULT
    else if fd =? EPOLL_FD_INVALID then EBADF
    else batch_invalid ops events
  end.

(** The additions already made are undone, latest first. *)
Fixpoint batch_undo (port : ptr) (applied : list (Z * Z)) : MW unit :=
  match applied with
  | [] => ret tt
  | (op, fd) :: applied =>
    (if op =? EPOLL_CTL_ADD then epoll_ctl_port port EPOLL_CTL_DEL fd None 0 ;; ret tt else ret tt) ;;
    batch_undo port applied
  end.

(** [applied] are the operations before, latest first. *)
Fixpoint batch_apply (port : ptr) (ops : list (Z * Z * option (Z * Z))) (applied : list (Z * Z)) : MW Z :=
  match ops with
  | [] => ret 0
  | (op, fd, event) :: ops =>
    failed <- epoll_ctl_port port op fd (if op =? EPOLL_CTL_DEL then None else event) 0 ;;
    if negb (failed =? 0) then
      saved_error <- ep_get_last_error_info ;;
      batch_undo port applied ;;
      ep_restore_last_error_info saved_error ;;
      ret (-1)
    else batch_apply port ops ((op, fd) :: applied)
  end.

(** [ops] and [fds] are given together ([None]: one of them is NULL); an event
    is [None] when the [events] array is NULL. *)
Definition epoll_ctl_batch (epfd : Z) (ops : option (list (Z * Z * option (Z * Z)))) (events : bool) (count : Z)
    : MW Z :=
  if count <=? 0 then fail_with EINVAL
  else
    match ops with
    | None => fail_with EFAULT
    | Some ops =>
      let invalid := batch_invalid ops.*1 events in
      if negb (invalid =? 0) then fail_with invalid
      else with_port epfd (-1) (fun port => batch_apply port ops [])
    end.

(** ** Waiting *)

Definition epoll_wait_basic_timeout (epfd : Z) (events : bool) (maxevents : Z) (timeout : ep_wait_timeout)
    : MW (Z * list out_event) :=
  let fail error := ep_set_errno error ;; ret (-1, []) in
  if (maxevents <=? 0) || (WEPOLL_EPOLL_MAX_EVENTS <? maxevents) then fail EINVAL
  else if negb events then fail EFAULT
  else with_port epfd (-1, []) (fun port =>
         ep_port_wait_basic_timeout others fuel port true maxevents (Some timeout)).

Definition epoll_pwait (epfd : Z) (events : bool) (maxevents timeout : Z) : MW (Z * list out_event) :=
  epoll_wait_basic_timeout epfd events maxevents (ep_wait_timeout_from_milliseconds timeout).

Definition epoll_wait (epfd : Z) (events : bool) (maxevents timeout : Z) : MW (Z * list out_event) :=
  epoll_pwait epfd events maxevents timeout.

Definition epoll_pwait2 (epfd : Z) (events : bool) (maxevents : Z) (timeout : option timespec)
    : MW (Z * list out_event) :=
  r <- ep_wait_timeout_from_timespec timeout true ;;
  if negb (r.1 =? 0) then ret (-1, []) else epoll_wait_basic_timeout epfd events maxevents r.2.

Definition epoll_drain (epfd : Z) (events : bool) (maxevents : Z) : MW (Z * list out_event) :=
  epoll_wait epfd events maxevents 0.

(** The argument checks of the extended waits. *)
Definition ex_wait_invalid (events : bool) (maxevents : Z) : Z :=
  if (maxevents <=? 0) || (WEPOLL_EPOLL_EX_MAX_EVENTS <? maxevents) then EINVAL
  else if negb events then EFAULT else 0.

Definition epoll_wait_ex (epfd : Z) (events : bool) (maxevents timeout : Z) : MW (Z * list out_event) :=
  let invalid := ex_wait_invalid events maxevents in
  if negb (invalid =? 0) then ep_set_errno invalid ;; ret (-1, [])
  else with_port epfd (-1, []) (fun port => ep_port_wait others fuel port true maxevents timeout).

Definition epoll_pwait2_ex (epfd : Z) (events : bool) (maxevents : Z) (timeout : option timespec)
    : MW (Z * list out_event) :=
  r <- ep_wait_timeout_from_timespec timeout true ;;
  if negb (r.1 =? 0) then ret (-1, [])
  else
    let invalid := ex_wait_invalid events maxevents in
    if negb (invalid =? 0) then ep_set_errno invalid ;; ret (-1, [])
    else with_port epfd (-1, []) (fun port =>
           ep_port_wait_timeout others fuel port true maxevents (Some r.2)).

(** ** The other operations *)

(** The checks of the re-arm entry points come after the reference is taken. *)
Definition epoll_rearm (epfd fd : Z) : MW Z :=
  entry <- epfd_require epfd ;;
  match entry with
  | None => ret (-1)
  | Some _ =>
    if fd =? EPOLL_FD_INVALID then epfd_put entry ;; fail_with EBADF
    else
      port <- rd w_shareds entry sh_port ;;
      result <- ep_port_rearm port fd ;;
      epfd_put entry ;;
      ret result
  end.

Definition epoll_rearm_classes (epfd fd classes : Z) : MW Z :=
  entry <- epfd_require epfd ;;
  match entry with
  | None => ret (-1)
  | Some _ =>
    if fd =? EPOLL_FD_INVALID then epfd_put entry ;; fail_with EBADF
    else if negb (valid_classes classes) then epfd_put entry ;; fail_with EINVAL
    else
      port <- rd w_shareds entry sh_port ;;
      result <- ep_port_rearm_classes port fd classes ;;
      epfd_put entry ;;
      ret result
  end.

(** [None]: one of the arrays is NULL. *)
Definition epoll_rearm_classes_batch (epfd : Z) (entries : option (list (Z * Z))) (count : Z) : MW (Z * list Z) :=
  if count <=? 0 then ep_set_errno EINVAL ;; ret (-1, [])
  else
    match entries with
    | None => ep_set_errno EFAULT ;; ret (-1, [])
    | Some entries => with_port epfd (-1, []) (fun port => ep_port_rearm_classes_batch port entries)
    end.

Definition epoll_fd_count (epfd : Z) : MW Z :=
  count <- with_port epfd None (fun port => n <- rd w_ports port p_fd_table_count ;; ret (Some n)) ;;
  match count with
  | None => ret (-1)
  | Some n => if INT_MAX <? n then fail_with EOVERFLOW else ret n
  end.

Definition wepoll_ex_wake (epfd : Z) : MW Z := with_port epfd (-1) ep_port_wake.

Definition wake_allowed : Z :=
  EPOLLIN ||| EPOLLPRI ||| EPOLLOUT ||| EPOLLERR ||| EPOLLHUP ||| EPOLLRDNORM ||| EPOLLRDBAND |||
  EPOLLWRNORM ||| EPOLLWRBAND ||| EPOLLMSG ||| EPOLLRDHUP.

Definition wepoll_ex_wake_event (epfd : Z) (event : option (Z * Z)) : MW Z :=
  match event with
  | None => fail_with EFAULT
  | Some (events, _) =>
    if (events =? 0) || negb (Z.ldiff events wake_allowed =? 0) then fail_with EINVAL
    else with_port epfd (-1) (fun port => ep_port_wake_event port event)
  end.

Definition wepoll_ex_dup (epfd : Z) : MW Z := epfd_duplicate epfd.

Definition close_socket_on (port : ptr) (fd : Z) : MW (Z * option Z) :=
  unregister_result <- ep_port_unregister port fd ;;
  unregister_error <- ep_last_err ;;
  if negb (unregister_result =? 0) && negb (unregister_error =? ENOENT) then ret (-1, None)
  else
    closed <- os (Closesocket fd) ;;
    if closed =? SOCKET_ERROR then error <- os WSAGetLastError ;; ret (-1, Some (u32 error))
    else ret (0, None).

Definition wepoll_ex_close_socket (epfd fd : Z) : MW Z :=
  if fd =? EPOLL_FD_INVALID then fail_with EBADF
  else
    r <- with_port epfd (-1, None) (fun port => close_socket_on port fd) ;;
    match r with
    | (result, Some error) => ep_set_winsock_error error ;; ret result
    | (result, None) => ret result
    end.

Definition wepoll_ex_shutdown_socket (epfd fd how : Z) : MW Z :=
  if fd =? EPOLL_FD_INVALID then fail_with EBADF
  else with_port epfd (-1) (fun port => ep_port_shutdown_socket port fd how).

(** ** Close *)

(** Wait for the references to drain: 0 or the errno of the wait. *)
Definition close_wait (event : Z) : MW Z :=
  api <- get w_api ;;
  wait_result <- os (WaitForSingleObject event (a_close_timeout_ms api)) ;;
  let wait_result := u32 wait_result in
  if wait_result =? WAIT_OBJECT_0 then ret 0
  else if wait_result =? WAIT_TIMEOUT then ret ETIMEDOUT
  else
    error <- os GetLastError ;;
    let error := ep_winerr_to_errno (u32 error) in
    ret (if error =? 0 then EIO else error).

(** The final alias is gone: wait, then destroy or hand over. *)
Definition close_final (shared : ptr) : MW Z :=
  port <- rd w_shareds shared sh_port ;;
  ep_port_begin_close port ;;
  s <- Wait.shared others (rd w_shareds shared (fun s => s)) ;;
  wait_error <- (if negb (sh_refs s =? 0) then e <- close_wait (sh_refs_drained_event s) ;; others ;; ret e
                 else ret 0) ;;
  s <- rd w_shareds shared (fun s => s) ;;
  st w_shareds shared (detach_shared s).1 ;;
  if (detach_shared s).2 then
    let wait_error := if wait_error =? 0 then ETIMEDOUT else wait_error in
    (if wait_error =? ETIMEDOUT then
       api <- get w_api ;; api_put a_close_timeouts (u64 (a_close_timeouts api + 1))
     else ret tt) ;;
    fail_with wait_error
  else epfd_destroy shared.

Definition wepoll_close (epfd : Z) : MW Z :=
  entry <- epfd_find_locked epfd ;;
  shared <- match entry with None => ret NULL | Some _ => rd w_epfds entry f_shared end ;;
  closing <- match shared with None => ret true | Some _ => rd w_shareds shared sh_closing end ;;
  match entry with
  | None => fail_with EBADF
  | Some e =>
    if closing : bool then fail_with EBADF
    else
      epfd_unlink_locked e ;;
      s <- rd w_shareds shared (fun s => s) ;;
      assertM (0 <? sh_aliases s) ;;
      st w_shareds shared (close_shared s).1 ;;
      del w_epfds entry ;;
      if negb (close_shared s).2 then ret 0 else close_final shared
  end.

(** ** Snapshots *)

(** [copy_versioned_snapshot]: how many bytes of the snapshot are copied, or
    [None] with the error set; the rest of the destination is zeroed. *)
Definition copy_versioned_snapshot (destination : bool) (destination_size snapshot_size : Z) : MW (option Z) :=
  if negb destination then ep_set_errno EFAULT ;; ret None
  else if destination_size <? 8 then ep_set_errno EINVAL ;; ret None
  else ret (Some (Z.min destination_size snapshot_size)).

(** The version, the size and the capability bits; the reserved words are 0. *)
Definition wepoll_ex_capabilities : Z * Z * Z :=
  (1, 32,
   Z.shiftl 1 1 ||| Z.shiftl 1 2 ||| Z.shiftl 1 3 ||| Z.shiftl 1 4 ||| Z.shiftl 1 7 ||| Z.shiftl 1 8 |||
   Z.shiftl 1 9 ||| Z.shiftl 1 10 ||| Z.shiftl 1 11 ||| Z.shiftl 1 12 ||| Z.shiftl 1 13 ||| Z.shiftl 1 14 |||
   Z.shiftl 1 15).
Definition wepoll_ex_get_capabilities (capabilities : bool) (size : Z) : MW (option (Z * Z * Z * Z)) :=
  n <- copy_versioned_snapshot capabilities size 32 ;;
  ret (pair wepoll_ex_capabilities <$> n).

Definition wepoll_ex_get_stats (epfd : Z) (stats : bool) (stats_size : Z) : MW (option (wepoll_ex_stats * Z)) :=
  if negb stats || (stats_size <? 8) then
    ep_set_errno (if negb stats then EFAULT else EINVAL) ;; ret None
  else
    snapshot <- with_port epfd None (fun port => ep_port_get_stats port true) ;;
    match snapshot with
    | None => ret None
    | Some s => n <- copy_versioned_snapshot stats stats_size 168 ;; ret (pair s <$> n)
    end.

Definition wepoll_ex_get_global_stats (stats : bool) (stats_size : Z) : MW (option (wepoll_ex_global_stats * Z)) :=
  if negb stats || (stats_size <? 8) then
    ep_set_errno (if negb stats then EFAULT else EINVAL) ;; ret None
  else
    s <- ep_get_global_stats ;;
    n <- copy_versioned_snapshot stats stats_size 48 ;;
    ret (pair s <$> n).

Definition wepoll_ex_get_last_error_info (error_info : bool) (size : Z) : MW (option (wepoll_ex_error_info * Z)) :=
  s <- ep_get_last_error_info ;;
  n <- copy_versioned_snapshot error_info size sizeof_error_info ;;
  ret (pair s <$> n).

Definition wepoll_ex_get_socket_lifetime_policy : Z := 0.

End Api.
