(* ===== verification/PortAccounting.v ===== *)
(** * Poll accounting of a whole port

    The invariant of [Accounting] through the control operations, waiting,
    draining and the end of a port, with other threads running between the
    critical sections. *)
From S2P Require Import Prelude Codes Types Errno Fault Links Pool ReadyQueue Quiet Readiness.
From S2P Require Import Exclusive FdTable Worklists Timeout Iocp Provider PollKeys AfdOps Groups Pipe.
From S2P Require Import Targets Levels Keeps Registration Completion Accounting Control Wait Lifecycle.

(** ** Helpers outside the tally *)

#[export] Instance fd_rehash_core l : forall t, Keeps core (fd_rehash l t).
Proof. induction l as [|[a|] l IH]; intros t; cbn [fd_rehash]; keeping. Qed.
#[export] Instance fd_grow_core p n : Keeps core (ep_fd_table_grow p n).
Proof. unfold ep_fd_table_grow. keeping. Qed.
#[export] Instance fd_insert_core p s : Keeps core (ep_fd_table_insert p s).
Proof. unfold ep_fd_table_insert, fd_insert_slot. keeping. Qed.
#[export] Instance target_fail_absent_core fd : Keeps core (ep_target_fail_absent fd).
Proof. unfold ep_target_fail_absent. keeping. Qed.
#[export] Instance local_shutdown_mask_core how : Keeps core (ep_local_shutdown_mask how).
Proof. unfold ep_local_shutdown_mask. cbn [switch]. keeping. Qed.
#[export] Instance restore_worklist_core s a b : Keeps core (ep_sock_restore_worklist_state_locked s a b).
Proof. unfold ep_sock_restore_worklist_state_locked. keeping. Qed.
#[export] Instance fail_with_core e : Keeps core (fail_with e).
Proof. unfold fail_with. keeping. Qed.
#[export] Instance bump_generation_core p : Keeps core (bump_generation p).
Proof. unfold bump_generation. keeping. Qed.
#[export] Instance waiter_listening_core p : Keeps core (waiter_listening p).
Proof. unfold waiter_listening. keeping. Qed.
#[export] Instance wake_waiter_core p b : Keeps core (wake_waiter p b).
Proof. unfold wake_waiter. keeping. Qed.
#[export] Instance shutdown_ready_core s : Keeps core (shutdown_ready s).
Proof. unfold shutdown_ready. keeping. Qed.
#[export] Instance native_shutdown_core f h : Keeps core (native_shutdown f h).
Proof. unfold native_shutdown. keeping. Qed.
#[export] Instance fail_winsock_core : Keeps core fail_winsock.
Proof. unfold fail_winsock. keeping. Qed.
#[export] Instance shutdown_unregistered_core f h : Keeps core (shutdown_unregistered f h).
Proof. unfold shutdown_unregistered. keeping. Qed.
#[export] Instance finish_rearm_core p r : Keeps core (finish_rearm p r).
Proof. unfold finish_rearm. keeping. Qed.
#[export] Instance restore_observation_tally s o : Keeps tally (restore_observation s o).
Proof. unfold restore_observation. keeping. Qed.
#[export] Instance register_fields_tally s e f d c : Keeps tally (register_fields s e f d c).
Proof. unfold register_fields. keeping. Qed.
#[export] Instance modify_fields_tally p s e f d c r t v m : Keeps tally (modify_fields p s e f d c r t v m).
Proof. unfold modify_fields. keeping. Qed.
#[export] Instance modify_requeue_tally p s n e f : Keeps tally (modify_requeue p s n e f).
Proof. unfold modify_requeue. keeping. Qed.
#[export] Instance modify_restore_tally s o : Keeps tally (modify_restore s o).
Proof. unfold modify_restore. keeping. Qed.
#[export] Instance shutdown_reserve_tally p s b : Keeps tally (shutdown_reserve p s b).
Proof. unfold shutdown_reserve. keeping. Qed.
#[export] Instance rearm_partial_tally p s c d : Keeps tally (rearm_partial p s c d).
Proof. unfold rearm_partial. keeping. Qed.
#[export] Instance rearm_apply_tally p s c d b : Keeps tally (rearm_apply p s c d b).
Proof. unfold rearm_apply. keeping. Qed.
#[export] Instance rearm_classes_restore_tally s o : Keeps tally (rearm_classes_restore s o).
Proof. unfold rearm_classes_restore. keeping. Qed.
#[export] Instance rearm_reset_tally p s o : Keeps tally (rearm_reset p s o).
Proof. unfold rearm_reset. keeping. Qed.

(** ** Balanced actions *)

Class Books {A} (m : MW A) : Prop := books : hoare accounted m (fun _ => accounted).
#[export] Hint Mode Books - ! : typeclass_instances.
#[export] Instance tally_books {A} (m : MW A) : Keeps tally m -> Books m | 50.
Proof. intros Hm. apply tallied_stable; apply _. Qed.
Lemma bind_books {A B} (m : MW A) (k : A -> MW B) : Books m -> (forall a, Books (k a)) -> Books (bind m k).
Proof. intros Hm Hk. eapply hoare_seq; [apply Hm|]. intros a. apply Hk. Qed.

Ltac balancing_step :=
  cbv zeta; lazymatch goal with
  | |- Books (bind _ _) => apply bind_books; [|intros ?]
  | |- Books (if ?b then _ else _) => destruct b
  | |- Books (let '(_, _) := ?p in _) => destruct p
  | |- Books (match ?o with _ => _ end) => destruct o
  | |- Books _ => typeclasses eauto
  end.
Ltac balancing := repeat balancing_step.
(** The same, down to the first call it does not know. *)
Ltac balancing_but :=
  repeat (cbv zeta; lazymatch goal with
  | |- Books (bind ?m _) => apply bind_books; [solve [balancing]|intros ?]
  | |- Books _ => first [solve [balancing] | balancing_step]
  end).
#[export] Hint Extern 60 (Books _) =>
  lazymatch goal with
  | |- Books (bind _ _) => solve [balancing]
  | |- Books (if _ then _ else _) => solve [balancing]
  | |- Books (match _ with _ => _ end) => solve [balancing]
  end : typeclass_instances.

#[export] Instance submit_books a v b : Books (ep_sock_submit_locked a v b).
Proof. apply submit_accounted. Qed.
#[export] Instance cancel_books a : Books (ep_sock_cancel_locked a).
Proof. apply (hoare_booked a). intros port. eapply hoare_post; [apply cancel_spec|]. by intros ? w [? _]. Qed.
#[export] Instance validate_control_books p a : Books (ep_sock_validate_control_locked p a).
Proof. apply validate_control_spec. Qed.
#[export] Instance retire_stale_books p a : Books (ep_sock_retire_stale_locked p a).
Proof. apply (hoare_booked a). intros port. apply retire_stale_spec. Qed.
#[export] Instance handle_completion_books a st : Books (ep_sock_handle_completion a st).
Proof. apply handle_completion_spec. Qed.
#[export] Instance arm_pending_books p : Books (ep_port_arm_pending_locked p).
Proof. apply arm_pending_spec. Qed.

(** ** Control operations *)

(** [if (poll_status == EP_POLL_IDLE) ep_sock_free_locked(port, sock)]. *)
Lemma free_if_idle_spec p a port st :
  hoare (fun w => (booked a port w) /\ status_is a st w)
    (if bool_decide (st = EP_POLL_IDLE) then ep_sock_free_locked p a else ret tt) (fun _ => accounted).
Proof. case_bool_decide as E; [subst; apply free_spec|hwalk; done_ret]. Qed.
#[export] Instance with_registered_books p fd body : (forall a, Books (body a)) -> Books (with_registered p fd body).
Proof. intros Hb. unfold with_registered. balancing. Qed.

(** A registration that was allocated and not yet submitted is idle. *)
Lemma hoare_idle {A} a (m : MW A) Q : (forall port, hoare (booked_in a port EP_POLL_IDLE) m Q) -> hoare (idle_in a) m Q.
Proof.
  intros Hm w r w' [Hw Hs]. pose proof Hs as [port Hv]. apply (Hm port). split; [split|]; [done| |done].
  intros x. rewrite Hv. by intros [= <-].
Qed.
Lemma booked_idle_in a port w : booked_in a port EP_POLL_IDLE w -> idle_in a w.
Proof. by intros [[? _] ?]. Qed.

Section Add.
Context (p : ptr) (a : addr).
Lemma discard_spec : hoare (idle_in a) (discard_sock p a) (fun _ => accounted).
Proof. unfold discard_sock. hwalk. apply del_fresh. Qed.
Lemma register_submit_spec : hoare (idle_in a) (register_submit p a) (fun _ => accounted).
Proof.
  unfold register_submit. do 2 hstep.
  eapply (hoare_seq _ (fun r w => accounted w /\ ((r <? 0) = true -> idle_in a w))).
  - hstep; [|hwalk; done_ret]. apply hoare_idle. intros port. eapply hoare_seq; [apply submit_idle_spec|].
    intros [r b]. hwalk. intros w [Hw Hi]. split; [done|]. intros Hr. eapply booked_idle_in, Hi. by rewrite Hr, orb_true_r.
  - intros r. hstep; [|hwalk; done_ret]. apply (hoare_pre _ (idle_in a)); [|intros w [_ Hi]; by apply Hi].
    do 2 hstep. eapply hoare_seq; [apply hoare_idle; intros port; apply free_spec|]. intros ?. hwalk; done_ret.
Qed.
Lemma register_insert_spec : hoare (idle_in a) (register_insert p a) (fun _ => accounted).
Proof.
  unfold register_insert. hstep. hstep.
  - eapply hoare_seq; [apply discard_spec|]. intros ?. hwalk; done_ret.
  - hwalk. apply register_submit_spec.
Qed.
End Add.

#[export] Instance register_books p fd e f d c : Books (ep_port_register p fd e f d c).
Proof.
  unfold ep_port_register, register_existing. balancing_but.
  eapply hoare_seq; [apply alloc_locked_spec|].
  intros [sock|]; [|apply hoare_ret; done]. hwalk; [|apply register_insert_spec].
  eapply hoare_seq; [apply discard_spec|]. intros ?. hwalk. done_ret.
Qed.
#[export] Instance modify_books p fd e f d c : Books (ep_port_modify p fd e f d c).
Proof.
  unfold ep_port_modify, modify_sock, modify_apply, modify_pending, modify_submit. balancing.
Qed.

#[export] Instance unregister_books p fd : Books (ep_port_unregister p fd).
Proof.
  unfold ep_port_unregister. apply bind_books; [typeclasses eauto|]. intros e. apply with_registered_books. intros a.
  unfold unregister_sock. apply (hoare_booked a). intros port. do 2 hstep. eapply (hoare_seq _ (fun _ => booked a port)).
  { hwalk; [hcall cancel_spec; hwalk; done_ret|done_ret]. }
  intros ?. cbv beta. do 6 hstep. apply hoare_rd_status. intros st. eapply (hoare_seq _ (fun _ => accounted)).
  - apply free_if_idle_spec.
  - intros ?. hwalk; done_ret.
Qed.
#[export] Instance shutdown_socket_books p fd h : Books (ep_port_shutdown_socket p fd h).
Proof. unfold ep_port_shutdown_socket, shutdown_registered, shutdown_publish. balancing. Qed.
#[export] Instance rearm_classes_locked_books p a c : Books (ep_sock_rearm_classes_locked p a c).
Proof. unfold ep_sock_rearm_classes_locked, rearm_pending, rearm_submit. balancing. Qed.
#[export] Instance rearm_classes_books p fd c : Books (ep_port_rearm_classes p fd c).
Proof. unfold ep_port_rearm_classes. balancing. Qed.
#[export] Instance rearm_chunk_books p l : forall f b, Books (rearm_chunk p l f b).
Proof. induction l as [|[fd c] l IH]; intros f b; cbn [rearm_chunk]; [|unfold rearm_entry]; balancing. Qed.
#[export] Instance rearm_chunks_books n p : forall l f, Books (rearm_chunks n p l f).
Proof. induction n as [|n IH]; intros [|x l] f; cbn [rearm_chunks]; balancing. Qed.
#[export] Instance rearm_batch_books p l : Books (ep_port_rearm_classes_batch p l).
Proof. unfold ep_port_rearm_classes_batch. balancing. Qed.
#[export] Instance rearm_books p fd : Books (ep_port_rearm p fd).
Proof. unfold ep_port_rearm, rearm_fired. balancing. Qed.

(** ** Waiting *)

#[export] Instance take_wake_core p b : Keeps core (ep_port_take_wake p b).
Proof. unfold ep_port_take_wake. keeping. Qed.
#[export] Instance take_async_error_core p : Keeps core (ep_port_take_async_error_locked p).
Proof. unfold ep_port_take_async_error_locked. keeping. Qed.
#[export] Instance take_iocp_post_error_core p : Keeps core (ep_port_take_iocp_post_error p).
Proof. unfold ep_port_take_iocp_post_error. keeping. Qed.
#[export] Instance precise_initialize_core p : Keeps core (ep_port_precise_timeout_initialize p).
Proof. unfold ep_port_precise_timeout_initialize, timeout_create, timeout_restore. keeping. Qed.
#[export] Instance precise_arm_core p d : Keeps core (ep_port_precise_timeout_arm p d).
Proof. unfold ep_port_precise_timeout_arm, next_timeout_generation, timeout_restore. keeping. Qed.
#[export] Instance precise_disarm_core p : Keeps core (ep_port_precise_timeout_disarm p).
Proof. unfold ep_port_precise_timeout_disarm. keeping. Qed.
#[export] Instance precise_destroy_core p : Keeps core (ep_port_precise_timeout_destroy p).
Proof. unfold ep_port_precise_timeout_destroy. keeping. Qed.
#[export] Instance release_deferred_loop_core n : forall s, Keeps core (release_deferred_loop n s).
Proof. induction n as [|n IH]; intros [s|]; cbn [release_deferred_loop]; keeping. Qed.
#[export] Instance release_deferred_core p : Keeps core (ep_port_release_deferred_rearms_locked p).
Proof. unfold ep_port_release_deferred_rearms_locked. keeping. Qed.
#[export] Instance has_deferred_loop_core n : forall s, Keeps core (has_deferred_loop n s).
Proof. induction n as [|n IH]; intros [s|]; cbn [has_deferred_loop]; keeping. Qed.
#[export] Instance has_deferred_core p : Keeps core (ep_port_has_deferred_rearm_locked p).
Proof. unfold ep_port_has_deferred_rearm_locked. keeping. Qed.
#[export] Instance remaining_100ns_core s : Keeps core (ep_wait_remaining_100ns s).
Proof. unfold ep_wait_remaining_100ns. keeping. Qed.
#[export] Instance remaining_ms_core s : Keeps core (ep_wait_remaining_milliseconds s).
Proof. unfold ep_wait_remaining_milliseconds. keeping. Qed.
#[export] Instance wait_expired_core s : Keeps core (ep_wait_expired s).
Proof. unfold ep_wait_expired. keeping. Qed.
#[export] Instance wait_backstop_core s : Keeps core (ep_wait_backstop_milliseconds s).
Proof. unfold ep_wait_backstop_milliseconds. keeping. Qed.
#[export] Instance wait_initialize_core p t : Keeps core (ep_wait_state_initialize p t).
Proof. unfold ep_wait_state_initialize. keeping. Qed.
#[export] Instance wait_lock_loop_core n p s : forall b, Keeps core (wait_lock_loop n p s b).
Proof. induction n as [|n IH]; intros b; cbn [wait_lock_loop]; keeping. Qed.
#[export] Instance wait_lock_core n p s : Keeps core (ep_wait_lock_acquire n p s).
Proof. unfold ep_wait_lock_acquire. keeping. Qed.
#[export] Instance ready_advance_tally q t n : Keeps tally (ready_advance q t n).
Proof. unfold ready_advance, ep_ready_account_pop. keeping. Qed.
#[export] Instance pop_from_tally q t n : Keeps tally (ready_pop_from q t n).
Proof. unfold ready_pop_from. keeping. Qed.
#[export] Instance pop_one_tally q : Keeps tally (ep_ready_pop_one q).
Proof. unfold ep_ready_pop_one. keeping. Qed.
#[export] Instance drain_queue_loop_tally q n : forall h t, Keeps tally (ready_drain_loop q n h t).
Proof. induction n as [|n IH]; intros h t; cbn [ready_drain_loop]; keeping. Qed.
#[export] Instance ready_drain_tally q n : Keeps tally (ep_ready_drain q n).
Proof. unfold ep_ready_drain. keeping. Qed.
#[export] Instance drain_accept_tally p a e : Keeps tally (drain_accept p a e).
Proof. unfold drain_accept. keeping. Qed.
#[export] Instance drain_one_books p n b f m : Books (drain_one p n b f m).
Proof. unfold drain_one, drain_node. balancing. Qed.
#[export] Instance drain_loop_books n p : forall r b f m, Books (drain_loop n p r b f m).
Proof. induction n as [|n IH]; intros [|r] b f m; cbn [drain_loop]; balancing. Qed.

Section Waiting.
(** The other threads keep the books too. *)
Context (others : MW unit) `{Hothers : !Books others}.

#[export] Instance shared_books {A} (m : MW A) : Books m -> Books (shared others m).
Proof. intros Hm. unfold shared. balancing. Qed.
#[export] Instance drain_books p m b : Books (ep_drain_to_buffer others p m b).
Proof. unfold ep_drain_to_buffer. balancing. Qed.
#[export] Instance dispatch_books p i g : Books (ep_port_dispatch_iocp_entry others p i g).
Proof. unfold ep_port_dispatch_iocp_entry, completion_status. balancing. Qed.
#[export] Instance dispatch_loop_books n p : forall i g, Books (dispatch_loop others n p i g).
Proof. induction n as [|n IH]; intros i g; cbn [dispatch_loop]; balancing. Qed.
#[export] Instance dequeue_books p ms : Books (dequeue others p ms).
Proof. unfold dequeue. balancing. Qed.
#[export] Instance record_error_books p e : Books (record_error others p e).
Proof. unfold record_error. balancing. Qed.
#[export] Instance wait_post_failed_books p : Books (wait_post_failed others p).
Proof. unfold wait_post_failed, take_post_error. balancing. Qed.
#[export] Instance port_closing_books p : Books (port_closing others p).
Proof. unfold port_closing. balancing. Qed.
#[export] Instance wait_closed_books p : Books (wait_closed others p).
Proof. unfold wait_closed, take_post_error. balancing. Qed.
#[export] Instance wait_async_failed_books p : Books (wait_async_failed others p).
Proof. unfold wait_async_failed, take_async_error. balancing. Qed.
#[export] Instance either_books a b : Books a -> Books b -> Books (either a b).
Proof. intros Ha Hb. unfold either. balancing. Qed.
#[export] Instance zero_budget_books p v : Books (zero_budget_spent others p v).
Proof. unfold zero_budget_spent. balancing. Qed.
#[export] Instance coalesce_loop_books n p m b d : forall v o, Books (coalesce_loop others n p m b d v o).
Proof. induction n as [|n IH]; intros v o; cbn [coalesce_loop]; balancing. Qed.
#[export] Instance coalesce_books p m b v o : Books (coalesce others p m b v o).
Proof. unfold coalesce. balancing. Qed.
#[export] Instance take_wake_books p b v m : Books m -> Books (take_wake others p b v m).
Proof. intros Hm. unfold take_wake. balancing. Qed.
#[export] Instance wait_arm_books p m b v : Books (wait_arm others p m b v).
Proof. unfold wait_arm, take_post_error, take_async_error. balancing. Qed.
#[export] Instance wait_precise_init_core p v : Keeps core (wait_precise_init p v).
Proof. unfold wait_precise_init. keeping. Qed.
#[export] Instance wait_precise_arm_core p v : Keeps core (wait_precise_arm p v).
Proof. unfold wait_precise_arm. keeping. Qed.
#[export] Instance wait_duration_books p v b : Books (wait_duration others p v b).
Proof. unfold wait_duration. balancing. Qed.
#[export] Instance wait_dequeue_failed_books p b v d : Books (wait_dequeue_failed others p b v d).
Proof. unfold wait_dequeue_failed. balancing. Qed.
#[export] Instance wait_empty_books p b v t : Books (wait_empty others p b v t).
Proof. unfold wait_empty. balancing. Qed.
#[export] Instance wait_block_books p m b v ms d : Books (wait_block others p m b v ms d).
Proof. unfold wait_block. balancing. Qed.
#[export] Instance wait_iteration_books p m b v : Books (wait_iteration others p m b v).
Proof. unfold wait_iteration. balancing. Qed.
#[export] Instance wait_loop_books n p m b : forall v, Books (wait_loop others n p m b v).
Proof. induction n as [|n IH]; intros v; cbn [wait_loop]; balancing. Qed.
#[export] Instance wait_start_failed_books p : Books (wait_start_failed others p).
Proof. unfold wait_start_failed. balancing. Qed.
#[export] Instance wait_begin_tally p : Keeps tally (wait_begin p).
Proof. unfold wait_begin. keeping. Qed.
#[export] Instance wait_done_tally p v : Keeps tally (wait_done p v).
Proof. unfold wait_done. keeping. Qed.
#[export] Instance wait_impl_books n p o m t b : Books (ep_port_wait_timeout_impl others n p o m t b).
Proof. unfold ep_port_wait_timeout_impl. balancing. Qed.
End Waiting.

(** ** Closing *)

#[export] Instance close_groups_loop_core n : forall g, Keeps core (close_groups_loop n g).
Proof. induction n as [|n IH]; intros [g|]; cbn [close_groups_loop]; keeping. Qed.
#[export] Instance close_afd_groups_core p : Keeps core (ep_port_close_afd_groups p).
Proof. unfold ep_port_close_afd_groups. keeping. Qed.
#[export] Instance begin_close_core p : Keeps core (ep_port_begin_close p).
Proof. unfold ep_port_begin_close. keeping. Qed.
#[export] Instance close_handles_of_core p : Keeps core (close_handles_of p).
Proof. unfold close_handles_of. keeping. Qed.
#[export] Instance abandon_core p : Keeps core (ep_port_abandon_locked p).
Proof. unfold ep_port_abandon_locked. keeping. Qed.
#[export] Instance quarantine_core p e : Keeps core (ep_port_quarantine_recoverable_locked p e).
Proof.
  unfold ep_port_quarantine_recoverable_locked, count_quarantined, ep_port_reaper_admit, ep_port_pin_containing_module,
    leave_quarantine. keeping.
Qed.
#[export] Instance destroy_visit_books a : Books (destroy_visit a).
Proof. unfold destroy_visit. balancing. Qed.
#[export] Instance destroy_cancel_loop_books n : forall s b, Books (destroy_cancel_loop n s b).
Proof. induction n as [|n IH]; intros [s|] b; cbn [destroy_cancel_loop]; balancing. Qed.
#[export] Instance free_if_idle_books p a : Books (free_if_idle p a).
Proof.
  apply (hoare_booked a). intros port. unfold free_if_idle. apply hoare_rd_status. intros st. apply free_if_idle_spec.
Qed.
#[export] Instance each_sock_books n v : (forall a, Books (v a)) -> forall s, Books (each_sock n s v).
Proof. intros Hv. induction n as [|n IH]; intros [s|]; cbn [each_sock]; balancing. Qed.
#[export] Instance destroy_registrations_books p : Books (destroy_registrations p).
Proof. unfold destroy_registrations, for_each_sock. balancing. Qed.

(** The counter does not wrap: there are fewer registrations than addresses. *)
Lemma addresses_bound {A} (m : gmap addr A) :
  (forall a, is_Some (m !! a) -> Z.pos a <= UINT64_MAX) -> Z.of_nat (size m) <= UINT64_MAX.
Proof.
  intros Hb. set (k := (map_to_list m).*1). assert (size m = length k) as ->.
  { unfold k. by rewrite length_fmap, length_map_to_list. }
  remember (Z.to_nat UINT64_MAX) as N eqn:HN.
  assert (length (Pos.to_nat <$> k) <= length (seq 1 N))%nat as Hlen.
  { apply submseteq_length, NoDup_submseteq.
    - apply NoDup_fmap_2_strong; [intros; lia|]. apply NoDup_fst_map_to_list.
    - intros x (a & -> & Ha)%list_elem_of_fmap. apply elem_of_seq.
      apply list_elem_of_fmap in Ha as ([b v] & -> & Hv%elem_of_map_to_list).
      specialize (Hb b (mk_is_Some _ _ Hv)). cbn. lia. }
  rewrite length_fmap, length_seq in Hlen. unfold UINT64_MAX in *. lia.
Qed.
Lemma counted_exactly w port p : accounted w -> w_ports w !! port = Some p ->
  p_pending_poll_count p = Z.of_nat (in_flight port (view w)).
Proof.
  intros [Hc Hd] Hp. rewrite (agrees_at _ _ _ _ Hc Hp). apply u64_small. split; [lia|].
  pose proof (addresses_bound (view w) Hd) as Hb.
  assert (in_flight port (view w) <= size (view w))%nat by apply map_subseteq_size, map_filter_subseteq.
  unfold UINT64_MAX in Hb. lia.
Qed.

Section Draining.
Context (others : MW unit) `{Hothers : !Books others}.

Abbreviation drained port := (fun (r : Z) w => accounted w /\ (r = 0 -> in_flight port (view w) = 0%nat)).

Lemma pending_count_spec port : hoare accounted (ep_port_pending_count others (Some port)) (drained port).
Proof.
  unfold ep_port_pending_count, shared. eapply hoare_seq; [apply Hothers|]. intros _ w r w' Hw (P & p & [= <-] & Hp & -> & ->)%rd_inv.
  split; [done|]. intros E. pose proof (counted_exactly _ _ _ Hw Hp). lia.
Qed.
(** After a successful drain no request of the port is in flight. *)
Lemma drain_spec n port d :
  hoare accounted (ep_port_drain_pending_until others n (Some port) d) (drained port).
Proof.
  induction n as [|n IH]; cbn [ep_port_drain_pending_until]; [hwalk|].
  eapply hoare_seq; [apply pending_count_spec|]. intros c. hstep; [apply Z.eqb_eq in Heqb; subst; hwalk; done_ret|].
  apply (hoare_pre _ accounted); [|by intros w [? _]].
  do 2 hstep; [hwalk; done_ret|]. do 2 hstep; [hwalk; done_ret|]. do 2 hstep; [hwalk; done_ret|].
  eapply hoare_seq; [apply (books (m := dequeue others (Some port) _))|]. intros [k|]; [|hwalk; done_ret; exact IH].
  eapply hoare_seq; [apply (books (m := dispatch_loop others _ (Some port) 0 0))|]. intros ?. exact IH.
Qed.
End Draining.

(** ** Schedules

    What any number of threads and the platform may do to the ports of the
    process: critical sections in any order, waits and drains interrupted by
    other schedules, choices that depend on the whole state. *)
Definition run {A} (m : MW A) : MW unit := m ;; ret tt.

Inductive schedule : MW unit -> Prop :=
| sch_nothing : schedule (ret tt)
| sch_then m k : schedule m -> schedule k -> schedule (m ;; k)
| sch_choice (f : world -> MW unit) : (forall w, schedule (f w)) -> schedule (fun w => f w w)
| sch_register port fd events flags data ctx : schedule (run (ep_port_register port fd events flags data ctx))
| sch_modify port fd events flags data ctx : schedule (run (ep_port_modify port fd events flags data ctx))
| sch_unregister port fd : schedule (run (ep_port_unregister port fd))
| sch_shutdown port fd how : schedule (run (ep_port_shutdown_socket port fd how))
| sch_rearm port fd : schedule (run (ep_port_rearm port fd))
| sch_rearm_classes port fd classes : schedule (run (ep_port_rearm_classes port fd classes))
| sch_rearm_batch port entries : schedule (run (ep_port_rearm_classes_batch port entries))
| sch_wake port event : schedule (run (ep_port_request_wake port event))
| sch_wait others fuel port out maxevents timeout basic : schedule others ->
    schedule (run (ep_port_wait_timeout_impl others fuel port out maxevents timeout basic))
| sch_complete sock status : schedule (ep_sock_handle_completion sock status)
| sch_begin_close port : schedule (ep_port_begin_close port)
| sch_destroy_registrations port : schedule (destroy_registrations port)
| sch_drain others fuel port deadline : schedule others ->
    schedule (run (ep_port_drain_pending_until others fuel (Some port) deadline))
| sch_quarantine port error : schedule (run (ep_port_quarantine_recoverable_locked port error))
| sch_abandon port : schedule (ep_port_abandon_locked port)
| sch_wait_callback sock : schedule (ep_waitable_callback sock)
| sch_timer_callback sock : schedule (ep_pipe_timer_callback sock)
| sch_kernel_output buffer output : schedule (put_info buffer output).

#[export] Instance run_books {A} (m : MW A) : Books m -> Books (run m).
Proof. intros Hm. unfold run. balancing. Qed.
#[export] Instance request_wake_core p e : Keeps core (ep_port_request_wake p e).
Proof. unfold ep_port_request_wake, wake_record. keeping. Qed.
#[export] Instance wait_callback_core s : Keeps core (ep_waitable_callback s).
Proof. unfold ep_waitable_callback. keeping. Qed.
#[export] Instance timer_callback_core s : Keeps core (ep_pipe_timer_callback s).
Proof. unfold ep_pipe_timer_callback. keeping. Qed.

Lemma schedule_books m : schedule m -> Books m.
Proof.
  induction 1 as [|m k _ Hm _ Hk|f _ Hf| | | | | | | | |o n p out mx t b _ Ho| | | |o n p d _ Ho| | | | |];
    try typeclasses eauto.
  - intros w r w' Hw H. by eapply (Hf w).
  - apply run_books. eapply hoare_post; [by apply drain_spec|]. by intros ? w [? _].
Qed.

(** C1: Whatever the threads of the process and the platform do - registrations,
    modifications, removals, local shutdowns, re-arms, wake-ups, waits and
    drains interleaved with all of these, completions, callbacks, the start of a
    close - the pending-poll counter of every port is exactly the number of its
    registrations whose poll is in flight (pending, or cancelled and not yet
    settled), and it never wraps. *)
Theorem pending_accounting m w w' port p :
  schedule m -> accounted w -> m w = Some (tt, w') -> w_ports w' !! port = Some p ->
  p_pending_poll_count p = Z.of_nat (in_flight port (view w')).
Proof.
  intros Hm Hw Hrun Hp. apply counted_exactly; [|done]. by eapply (schedule_books m Hm).
Qed.

(** C2: When the drain that precedes the destruction of a port reports success,
    no request of the port is in flight any more, whatever other threads did
    meanwhile: the kernel holds no reference to storage that is about to be
    freed. *)
Theorem drain_leaves_nothing others fuel port deadline w w' :
  schedule others -> accounted w ->
  ep_port_drain_pending_until others fuel (Some port) deadline w = Some (0, w') ->
  forall a s, w_socks w' !! a = Some s -> s_port s = Some port -> s_poll_status s = EP_POLL_IDLE.
Proof.
  intros Ho Hw Hrun a s Hs Hp. apply schedule_books in Ho.
  destruct (drain_spec others fuel port deadline w 0 w' Hw Hrun) as [_ Hz]. specialize (Hz eq_refl).
  destruct (decide (s_poll_status s = EP_POLL_IDLE)) as [|Hne]; [done|exfalso].
  assert (Hv : view w' !! a = Some (Some port, s_poll_status s)) by (rewrite <- Hp; by apply view_lookup).
  rewrite (in_flight_one port port a _ _ Hv Hne), bool_decide_eq_true_2 in Hz by done. lia.
Qed.

(** A process with one port; the platform keeps polls in flight, its first
    packet is for the registration allocated at 16400 and reports data. *)
Definition session_os (tr : list os_request) (r : os_request) : Z :=
  match r with
  | Malloc _ | CallocArray _ _ => 1000 + 100 * Z.of_nat (length tr)
  | NtCreateFile | CreateIoCompletionPort _ _ | SetFileCompletionNotificationModes _ | CreateEventW
  | DuplicatedHandle => 1000 + Z.of_nat (length tr)
  | DuplicateHandle _ | PostQueuedCompletionStatus _ _ _ => 1
  | GetModuleHandleW _ => 7
  | GetProcAddress _ _ => 8
  | WSAIoctlResult => 100
  | WSAIoctlBytes => 8
  | NtDeviceIoControlFile _ _ _ _ => STATUS_PENDING
  | GetQueuedCompletionStatusEx _ _ | DequeuedCount => 1
  | DequeuedOverlapped _ => 16401
  | _ => 0
  end.
Definition session_world : world := exec (ep_port_create 0 0 true) (empty_world <| w_os := session_os |>).
Definition session_port : ptr := Some 1000%positive.
Definition session_kernel : MW unit := put_info (Some 8180%positive) (mk_poll_info 0 1 false 100 AFD_POLL_RECEIVE 0).
Definition session : MW unit :=
  run (ep_port_register session_port 5 EPOLLIN 0 77 0) ;;
  run (ep_port_wait_timeout_impl session_kernel 5 session_port true 8
         (Some (ep_wait_timeout_from_milliseconds 100)) false) ;;
  run (ep_port_register session_port 6 EPOLLOUT 0 78 0).

Lemma session_accounted : accounted session_world.
Proof.
  split.
  - intros q. destruct (w_ports session_world !! q) as [p|] eqn:Hq; unfold agrees.
    + assert (q ∈ dom (w_ports session_world)) as Hd by (by apply elem_of_dom_2 in Hq).
      assert (dom (w_ports session_world) = {[ 1000%positive ]}) as Hdom by (vm_compute; reflexivity).
      rewrite Hdom in Hd. apply elem_of_singleton in Hd. subst q. revert Hq. vm_compute. by intros [= <-].
    + assert (view session_world = ∅) as -> by (vm_compute; reflexivity). done.
  - assert (view session_world = ∅) as E by (vm_compute; reflexivity). intros a. rewrite E, lookup_empty. by intros [].
Qed.

Lemma pending_accounting_witness :
  exists w' p, session session_world = Some (tt, w') /\ w_ports w' !! 1000%positive = Some p /\
    p_pending_poll_count p = Z.of_nat (in_flight 1000%positive (view w')) /\ p_pending_poll_count p = 1.
Proof.
  assert (Hr : is_Some (session session_world)) by (vm_compute; eexists; reflexivity).
  destruct (session session_world) as [[[] w']|] eqn:Hrun; [|by destruct Hr].
  assert (Hw' : w' = exec session session_world) by (unfold exec; by rewrite Hrun).
  assert (Hp : is_Some (w_ports w' !! 1000%positive)) by (rewrite Hw'; vm_compute; eexists; reflexivity).
  destruct (w_ports w' !! 1000%positive) as [p|] eqn:Hport; [|by destruct Hp].
  exists w', p. split; [reflexivity|]. split; [exact Hport|]. split.
  - apply (pending_accounting session session_world w' 1000%positive p); [|exact session_accounted|exact Hrun|exact Hport].
    repeat apply sch_then; constructor. apply sch_kernel_output.
  - revert Hport. rewrite Hw'. vm_compute. by intros [= <-].
Defined.

(** The port with its registration deleted while a poll is in flight: the drain
    takes the packet of the cancellation and succeeds. *)
Definition closing : MW unit :=
  run (ep_port_register session_port 5 EPOLLIN 0 77 0) ;; ep_port_begin_close session_port ;;
  destroy_registrations session_port.
Definition session_closing : world := exec closing session_world.
Definition session_drain : MW Z := ep_port_drain_pending_until (ret tt) 3 session_port 100.
Lemma closing_accounted : accounted session_closing.
Proof.
  assert (Hsch : schedule closing) by (repeat apply sch_then; constructor).
  assert (Hr : result closing session_world = Some tt) by (vm_compute; reflexivity).
  exact (schedule_books _ Hsch session_world tt session_closing session_accounted (run_exec closing session_world tt Hr)).
Qed.

Lemma drain_leaves_nothing_witness :
  session_drain session_closing = Some (0, exec session_drain session_closing) /\
  (forall a s, w_socks (exec session_drain session_closing) !! a = Some s -> s_port s = session_port ->
     s_poll_status s = EP_POLL_IDLE).
Proof.
  assert (Hr : result session_drain session_closing = Some 0) by (vm_compute; reflexivity).
  apply run_exec in Hr. split; [exact Hr|].
  apply (drain_leaves_nothing (ret tt) 3 1000%positive 100 session_closing (exec session_drain session_closing));
    [constructor|exact closing_accounted|exact Hr].
Defined.

(** ** A cancellation nobody asked for *)

(** When the platform reports [STATUS_CANCELLED] for a poll the port did not
    cancel, the handler asks for a new submission, but a submission of a
    registration that is not marked for re-arming does nothing: the live
    registration ends with no request in flight, no event queued and no re-arm
    mark. *)
Example unsolicited_cancel_lost :
  exists w' s, (run (ep_port_register session_port 5 EPOLLIN 0 77 0) ;;
                ep_sock_handle_completion 16400%positive STATUS_CANCELLED) session_world = Some (tt, w') /\
    w_socks w' !! 16400%positive = Some s /\ s_delete_pending s = false /\ s_poll_status s = EP_POLL_IDLE /\
    s_ready_queued s = false /\ s_needs_rearm s = false /\ s_state s = EP_SOCK_POLLING.
Proof.
  eexists _, _. split; [vm_compute; reflexivity|]. split; [vm_compute; reflexivity|]. vm_compute. done.
Qed.
