(* ===== verification/ApiSteps.v ===== *)
(** * References to a port

    The interleaving of public operations with the close of a descriptor
    ([src/wepoll_ex_api.c], 187-251 and 985-1060).  A state is one
    [epfd_shared_t] with the number of threads at each point of the protocol;
    a step is one critical section under [g_epfd_lock], computed by the
    functions of [Api], or the destruction that follows one. *)
From S2P Require Import Prelude Codes Types Lifecycle Api.

Record ref_state := mk_ref_state {
  r_shared : option epfd_shared;  (* [None]: freed *)
  r_holders : nat;      (* operations between [epfd_acquire] and [epfd_put] *)
  r_closers : nat;      (* closes of the final alias, before the last critical section *)
  r_destroyers : nat;   (* threads that will call [epfd_destroy] *)
  r_frees : nat         (* how often the record was freed *)
}.

(** The record made by [epfd_alloc]. *)
Definition ref_start (port : ptr) (event : Z) : ref_state :=
  mk_ref_state (Some (mk_shared port 0 1 false false event)) 0 0 0 0.

(** A descriptor is in the table as long as there are aliases. *)
Definition reachable_alias (s : epfd_shared) : bool := (0 <? sh_aliases s) && negb (sh_closing s).

Inductive ref_step : ref_state -> ref_state -> Prop :=
| ref_acquire s h c d f :
    reachable_alias s = true -> Z.of_nat (S h) < 2 ^ 32 ->
    ref_step (mk_ref_state (Some s) h c d f) (mk_ref_state (Some (acquire_shared s)) (S h) c d f)
| ref_dup s h c d f :
    reachable_alias s = true -> sh_aliases s < INT_MAX ->
    ref_step (mk_ref_state (Some s) h c d f)
      (mk_ref_state (Some (s <| sh_aliases := u32 (sh_aliases s + 1) |>)) h c d f)
| ref_put s h c d f :
    ref_step (mk_ref_state (Some s) (S h) c d f)
      (mk_ref_state (Some (put_shared s).1) h c
         (d + match (put_shared s).2 with PutDestroy => 1 | _ => 0 end) f)
| ref_close s h c d f :
    reachable_alias s = true ->
    ref_step (mk_ref_state (Some s) h c d f)
      (mk_ref_state (Some (close_shared s).1) h (c + if (close_shared s).2 then 1 else 0) d f)
| ref_detach s h c d f :
    ref_step (mk_ref_state (Some s) h (S c) d f)
      (mk_ref_state (Some (detach_shared s).1) h c (d + if (detach_shared s).2 then 0 else 1) f)
| ref_destroy s h c d f :
    ref_step (mk_ref_state (Some s) h c (S d) f) (mk_ref_state None h c d (S f)).

Definition ref_reachable (port : ptr) (event : Z) : ref_state -> Prop := rtc ref_step (ref_start port event).

(** ** Invariant *)

(** Before the final close; waiting for the references; handed over to the last
    reference; about to be destroyed. *)
Inductive ref_phase := Open | Waiting | Handed | Doomed.

Definition phase_ok (ph : ref_phase) (s : epfd_shared) (st : ref_state) : Prop :=
  match ph with
  | Open => sh_closing s = false /\ sh_detached s = false /\ 0 < sh_aliases s /\ r_closers st = 0%nat /\ r_destroyers st = 0%nat
  | Waiting => sh_closing s = true /\ sh_detached s = false /\ r_closers st = 1%nat /\ r_destroyers st = 0%nat
  | Handed => sh_closing s = true /\ sh_detached s = true /\ r_closers st = 0%nat /\ r_destroyers st = 0%nat /\ (0 < r_holders st)%nat
  | Doomed => sh_closing s = true /\ r_holders st = 0%nat /\ r_closers st = 0%nat /\ r_destroyers st = 1%nat
  end.

Definition ref_inv (st : ref_state) : Prop :=
  match r_shared st with
  | Some s => r_frees st = 0%nat /\ sh_refs s = Z.of_nat (r_holders st) /\ 0 <= sh_aliases s <= INT_MAX /\
              exists ph, phase_ok ph s st
  | None => r_frees st = 1%nat /\ r_holders st = 0%nat /\ r_closers st = 0%nat /\ r_destroyers st = 0%nat
  end.

Lemma ref_start_inv port event : ref_inv (ref_start port event).
Proof. unfold ref_inv. split_and!; [done|done|done|done|]. by exists Open. Qed.

Lemma u32_id x : 0 <= x < 2 ^ 32 -> u32 x = x.
Proof. apply Z.mod_small. Qed.

Ltac rsimpl := cbn [r_shared r_holders r_closers r_destroyers r_frees phase_ok fst snd negb andb] in *; sget.

Lemma ref_step_inv st st' : ref_inv st -> ref_step st st' -> ref_inv st'.
Proof.
  intros Hinv Hstep. destruct Hstep as [s h c d f Ha Hb|s h c d f Ha Hb|s h c d f|s h c d f Ha|s h c d f|s h c d f];
    unfold ref_inv, INT_MAX in *; rsimpl; destruct Hinv as (Hf & Hr & Hal & ph & Hph); unfold reachable_alias in *;
    try (apply andb_true_iff in Ha as [Hpos Hc%negb_true_iff];
         destruct ph; rsimpl; try (destruct Hph as [E _]; congruence); destruct Hph as (_ & E2 & _ & -> & ->)).
  - unfold acquire_shared. rsimpl. rewrite u32_id by lia. split_and!; try lia. exists Open. rsimpl. split_and!; (done || lia).
  - rewrite u32_id by lia. split_and!; try lia. exists Open. rsimpl. split_and!; (done || lia).
  - unfold put_shared. assert (0 <? sh_refs s = true) as -> by lia. rsimpl.
    assert (Hr' : (sh_refs s - 1 =? 0) = bool_decide (h = 0%nat)) by (case_bool_decide; lia). rewrite Hr'.
    split_and!; try lia. destruct ph; rsimpl.
    + destruct Hph as (E1 & E2 & ? & ? & ?). exists Open. rewrite E1. rsimpl. split_and!; (done || lia).
    + destruct Hph as (E1 & E2 & ? & ?). exists Waiting. rewrite E1, E2. case_bool_decide; rsimpl; split_and!; (done || lia).
    + destruct Hph as (E1 & E2 & ? & ? & ?). rewrite E1, E2. case_bool_decide; rsimpl;
        [exists Doomed|exists Handed]; rsimpl; split_and!; (done || lia).
    + lia.
  - unfold close_shared. rsimpl. rewrite (u32_id (sh_aliases s - 1)) by lia.
    destruct (sh_aliases s - 1 =? 0) eqn:Ez; rsimpl; (split_and!; try lia);
      [exists Waiting|exists Open]; rsimpl; rewrite ?u32_id by lia; split_and!; (done || lia).
  - destruct ph; rsimpl; try (exfalso; lia). destruct Hph as (E1 & E2 & [= ->] & ->). unfold detach_shared.
    destruct (sh_refs s =? 0) eqn:Ez; rsimpl; (split_and!; try lia); [exists Doomed|exists Handed]; rsimpl; split_and!; (done || lia).
  - destruct ph; rsimpl; try (exfalso; lia). destruct Hph as (_ & -> & -> & [= ->]). by rewrite Hf.
Qed.

Lemma ref_reachable_inv port event st : ref_reachable port event st -> ref_inv st.
Proof.
  intros H. unfold ref_reachable in H. remember (ref_start port event) as st0 eqn:E.
  assert (ref_inv st0) as H0 by (subst; apply ref_start_inv). clear E.
  induction H as [|x y z Hxy _ IH]; [done|]. apply IH. by eapply ref_step_inv.
Qed.

(** C3: However public operations, duplications and closes of one port
    interleave: the port is destroyed at most once, and never while an operation
    or a close still uses its record; once the last alias is closed and every
    operation and close has finished, it has been destroyed or a thread is about
    to destroy it. *)
Theorem port_destroyed_once port event st :
  ref_reachable port event st ->
  (r_frees st + r_destroyers st <= 1)%nat /\
  (r_shared st = None -> r_holders st = 0%nat /\ r_closers st = 0%nat /\ r_destroyers st = 0%nat) /\
  ((0 < r_destroyers st)%nat -> r_holders st = 0%nat /\ r_closers st = 0%nat) /\
  (forall s, r_shared st = Some s -> sh_closing s = true -> r_holders st = 0%nat -> r_closers st = 0%nat ->
     r_destroyers st = 1%nat).
Proof.
  intros H%ref_reachable_inv. unfold ref_inv in H. destruct (r_shared st) as [s|].
  - destruct H as (Hf & _ & _ & ph & Hph). rewrite Hf. split_and!; [|done| |].
    + destruct ph; rsimpl; lia.
    + destruct ph; rsimpl; lia.
    + intros s' [= <-] Hc Hh Hcl. destruct ph; rsimpl; intuition (congruence || lia).
  - destruct H as (-> & -> & -> & ->). split_and!; [lia|done|lia|done].
Qed.

(** A wait holds a reference; the last alias is closed, the close times out and
    hands the port over; the wait returns and destroys it. *)
Lemma port_destroyed_once_witness :
  exists st, ref_reachable (Some 9%positive) 7 st /\ r_shared st = None /\ r_frees st = 1%nat /\
    (r_frees st + r_destroyers st <= 1)%nat.
Proof.
  assert (H : ref_reachable (Some 9%positive) 7 (mk_ref_state None 0 0 0 1)).
  { unfold ref_reachable, ref_start.
    eapply rtc_l; [by apply ref_acquire|]. eapply rtc_l; [by apply ref_close|].
    eapply rtc_l; [apply ref_detach|]. eapply rtc_l; [apply ref_put|]. eapply rtc_l; [apply ref_destroy|]. apply rtc_refl. }
  eexists. split; [exact H|]. split; [reflexivity|]. split; [reflexivity|].
  apply (port_destroyed_once _ _ _ H).
Defined.
