(* ===== verification/WaitResults.v ===== *)
(** * What a wait returns

    The result and the records of [ep_port_wait_timeout_impl]
    ([src/wepoll_ex_port.c], 5950-6104 and 6248-6663), whatever other threads do
    while it runs: the caller's array of [maxevents] records is never
    overrun, also when several batches are coalesced, and the result is the
    number of records stored. *)
From S2P Require Import Prelude Codes Types Timeout Iocp Completion Control Wait Lifecycle Api PortAccounting.

(** Every value [m] can return satisfies [P]. *)
Definition yields {A} (m : MW A) (P : A -> Prop) : Prop := forall w a w', m w = Some (a, w') -> P a.

Section Yields.
Context {A B : Type}.
Implicit Types (P : A -> Prop) (Q : B -> Prop).

Lemma yields_ret (a : A) P : P a -> yields (ret a) P.
Proof. intros HP w b w' [= <- <-]. exact HP. Qed.
Lemma yields_stuck P : yields stuck P.
Proof. intros w a w' [=]. Qed.
Lemma yields_seq (m : MW A) (k : A -> MW B) P Q :
  yields m P -> (forall a, P a -> yields (k a) Q) -> yields (bind m k) Q.
Proof. intros Hm Hk w b w' (a & w1 & H1 & H2)%bind_inv. eapply Hk; [|exact H2]. by eapply Hm. Qed.
Lemma yields_bind (m : MW A) (k : A -> MW B) Q : (forall a, yields (k a) Q) -> yields (bind m k) Q.
Proof. intros Hk w b w' (a & w1 & H1 & H2)%bind_inv. by eapply Hk. Qed.
Lemma yields_if (b : bool) (m n : MW A) P : (b = true -> yields m P) -> (b = false -> yields n P) -> yields (if b then m else n) P.
Proof. destruct b; auto. Qed.
End Yields.

(** Walk through an action; what it calls is skipped, unless the database
    [yields] knows what it returns. *)
Create HintDb yields.
Ltac yielding_step :=
  match goal with
  | |- yields stuck _ => apply yields_stuck
  | |- yields (ret _) _ => apply yields_ret
  | |- yields (shared _ _) _ => unfold shared
  | |- yields (bind _ _) _ =>
    first [eapply yields_seq; [solve [eauto with yields nocore]|intros ? ?; cbv beta in *] | apply yields_bind; intros ?]
  | |- yields (if ?b then _ else _) _ => apply yields_if; intros ?
  | |- yields (match ?x with _ => _ end) _ => destruct x eqn:?
  end; cbv zeta.
Ltac yielding := repeat yielding_step.

(** ** Drains *)

Lemma drain_one_room port node basic first maxevents :
  yields (drain_one port node basic first maxevents) (fun out => (length out <= 1)%nat).
Proof. unfold drain_one. yielding. case_match; cbn; lia. Qed.
#[local] Hint Resolve drain_one_room : yields.

Lemma drain_loop_room port basic maxevents : forall fuel room first,
  yields (drain_loop fuel port room basic first maxevents) (fun out => (length out <= room)%nat).
Proof.
  induction fuel as [|fuel IH]; intros [|room] first; cbn [drain_loop]; yielding; cbn; try lia.
  - apply IH.
  - rewrite length_app. cbn in *. lia.
Qed.
#[local] Hint Resolve drain_loop_room : yields.

Lemma drain_to_buffer_room others port maxevents basic :
  0 < maxevents -> yields (ep_drain_to_buffer others port maxevents basic) (fun out => Z.of_nat (length out) <= maxevents).
Proof.
  intros Hm. unfold ep_drain_to_buffer. yielding; rewrite ?length_app; cbn [length]; lia.
Qed.
#[local] Hint Resolve drain_to_buffer_room : yields.
#[local] Hint Extern 1 (0 < _) => lia : yields.

Lemma coalesce_loop_room others port maxevents basic deadline : forall budget v out,
  Z.of_nat (length out) <= maxevents ->
  yields (coalesce_loop others budget port maxevents basic deadline v out) (fun out => Z.of_nat (length out) <= maxevents).
Proof.
  induction budget as [|budget IH]; intros v out Hout; cbn [coalesce_loop]; yielding; try done.
  all: try (rewrite length_app; lia). apply IH. rewrite length_app. lia.
Qed.

(** ** The loop *)

(** The call failed and stored nothing, or the result is the number of records
    stored, and they fit. *)
Definition fits (maxevents r : Z) (out : list out_event) : Prop :=
  (r = -1 /\ out = []) \/ (r = Z.of_nat (length out) /\ r <= maxevents).

Definition step_fits (maxevents : Z) (step : wait_step) : Prop :=
  match step with
  | WReturn _ r out => fits maxevents r out
  | WAgain _ => True
  | WReady _ out => Z.of_nat (length out) <= maxevents
  end.

Section Loop.
Context (others : MW unit) (port : ptr) (maxevents : Z) (basic : bool) (Hmax : 0 < maxevents).

Lemma fails_fit v : step_fits maxevents (fails v).
Proof. by left. Qed.
Lemma expires_fit v : step_fits maxevents (expires v).
Proof. right. cbn. lia. Qed.
Hint Resolve fails_fit expires_fit : core.

Lemma port_take_wake_fits :
  yields (ep_port_take_wake port basic) (fun o => match o with
    | Some (r, Some _) => r = 1 | Some (r, None) => r = 0 | None => True end).
Proof. unfold ep_port_take_wake. yielding; done. Qed.

Lemma take_wake_fits v m :
  yields m (step_fits maxevents) -> yields (take_wake others port basic v m) (step_fits maxevents).
Proof.
  intros Hm. unfold take_wake, shared. eapply yields_seq; [apply yields_bind; intros _; apply port_take_wake_fits|].
  intros [[r [e|]]|] Hr; [| |done]; apply yields_ret; right; cbn; lia.
Qed.

Lemma wait_arm_fits v :
  yields (wait_arm others port maxevents basic v) (fun o => match o with Some s => step_fits maxevents s | None => True end).
Proof.
  unfold wait_arm. yielding; auto. right. cbn. lia.
Qed.

Lemma wait_empty_fits v packet : yields (wait_empty others port basic v packet) (step_fits maxevents).
Proof.
  unfold wait_empty. apply yields_bind; intros failed. apply yields_if; intros _; [by apply yields_ret|].
  apply take_wake_fits. yielding; auto. case_match; auto. done.
Qed.

Lemma dequeue_failed_fits v deferred : yields (wait_dequeue_failed others port basic v deferred) (step_fits maxevents).
Proof.
  unfold wait_dequeue_failed. do 2 (apply yields_bind; intros ?). yielding; auto.
  apply take_wake_fits. yielding; auto; done.
Qed.

Lemma wait_block_fits v ms deferred : yields (wait_block others port maxevents basic v ms deferred) (step_fits maxevents).
Proof.
  unfold wait_block. do 2 (apply yields_bind; intros ?; try (apply yields_if; intros _; [by apply yields_ret|])).
  destruct a0 as [removed|]; [|apply dequeue_failed_fits]. apply yields_if; intros _.
  - apply take_wake_fits. yielding. case_match; auto. done.
  - apply yields_bind; intros packet. eapply yields_seq; [by apply drain_to_buffer_room|]. intros out Hout.
    apply yields_if; intros _; [apply wait_empty_fits|by apply yields_ret].
Qed.

Lemma wait_iteration_fits v : yields (wait_iteration others port maxevents basic v) (step_fits maxevents).
Proof.
  unfold wait_iteration. apply yields_bind; intros failed. apply yields_if; intros _; [by apply yields_ret|].
  eapply yields_seq; [by apply drain_to_buffer_room|]. intros out Hout. apply yields_if; intros _; [by apply yields_ret|].
  eapply yields_seq; [apply wait_arm_fits|]. intros [step|] Hs; [by apply yields_ret|].
  eapply yields_seq; [by apply drain_to_buffer_room|]. intros out' Hout'. yielding; auto; try done.
  apply wait_block_fits.
Qed.

Lemma wait_loop_fits : forall fuel v,
  yields (wait_loop others fuel port maxevents basic v) (fun r => fits maxevents r.1.2 r.2).
Proof.
  induction fuel as [|fuel IH]; intros v; cbn [wait_loop]; [apply yields_stuck|].
  eapply yields_seq; [apply wait_iteration_fits|]. intros [v' r out|v'|v' out] Hs; cbn in Hs.
  - by apply yields_ret.
  - apply IH.
  - eapply yields_seq; [unfold coalesce; apply yields_bind; intros now; by apply coalesce_loop_room|].
    intros out' Hout'. apply yields_ret. by right.
Qed.
End Loop.

(** C16: A wait, interleaved with any other threads, either fails and stores
    nothing, or returns the number of records it stored, which is at most
    [maxevents]: the caller's array is never overrun, not even when several
    batches of completions are coalesced into it. *)
Theorem wait_fills_buffer others fuel port out maxevents timeout basic w r records w' :
  ep_port_wait_timeout_impl others fuel port out maxevents timeout basic w = Some ((r, records), w') ->
  fits maxevents r records.
Proof.
  revert w r records w'. cut (yields (ep_port_wait_timeout_impl others fuel port out maxevents timeout basic)
    (fun o => fits maxevents o.1 o.2)).
  { intros H w r records w' Hrun. exact (H _ _ _ Hrun). }
  unfold ep_port_wait_timeout_impl. destruct timeout as [t|]; [|apply yields_bind; intros _; apply yields_ret; by left].
  repeat (apply yields_if; intros ?; [apply yields_bind; intros _; apply yields_ret; by left|]).
  assert (0 < maxevents) by (rewrite orb_false_iff in *; lia).
  do 3 (apply yields_bind; intros ?). apply yields_if; intros _.
  { apply yields_ret. destruct (_ =? 0); [right; cbn; lia|by left]. }
  do 2 (apply yields_bind; intros ?). eapply (yields_seq _ _ (fun r => fits maxevents r.1.2 r.2)).
  - apply yields_if; intros _; [apply yields_ret; by left|]. apply wait_loop_fits. lia.
  - intros [[v' r'] ev] Hf. apply yields_bind; intros _. apply yields_ret. cbn in Hf. destruct Hf as [Hf|[E Hf]]; [by left|right; cbn; lia].
Qed.

(** The wait of the session of [PortAccounting]: one record is stored in an array of 8. *)
Definition session_registered : world := exec (ep_port_register session_port 5 EPOLLIN 0 77 0) session_world.
Definition session_wait : MW (Z * list out_event) :=
  ep_port_wait_timeout_impl session_kernel 5 session_port true 8 (Some (ep_wait_timeout_from_milliseconds 100)) true.

Lemma wait_fills_buffer_witness :
  session_wait session_registered = Some ((1, [OutBasic EPOLLIN 77]), exec session_wait session_registered) /\
  fits 8 1 [OutBasic EPOLLIN 77].
Proof.
  assert (Hr : result session_wait session_registered = Some (1, [OutBasic EPOLLIN 77])) by (vm_compute; reflexivity).
  apply run_exec in Hr. split; [exact Hr|].
  apply (wait_fills_buffer _ _ _ _ _ _ _ _ _ _ _ Hr).
Defined.
