(* ===== verification/EpfdTable.v ===== *)
(** * The table of public descriptors

    [epfd_find_locked], [epfd_allocate_id_locked], [epfd_insert_locked] and
    [epfd_unlink_locked] ([src/wepoll_ex_api.c], 58-104 and 253-263): 64 buckets
    of singly linked entries.  [epfd_rep] relates the buckets to a finite map
    from descriptors to entries; the functions are the map's operations, and the
    search for a free number always ends with one. *)
From S2P Require Import Prelude Codes Types Errno Fault Links Quiet Control Lifecycle Api.

(** ** The represented map *)

Record epfd_rep (h : gmap addr epfd_entry) (B : list ptr) (t : gmap Z addr) : Prop := {
  er_buckets : length B = Z.to_nat EPFD_BUCKET_COUNT;
  er_entry fd a : t !! fd = Some a -> 0 < fd <= INT_MAX /\ exists e, h !! a = Some e /\ f_fd e = fd;
  er_chain b : 0 <= b < EPFD_BUCKET_COUNT -> exists l,
    chain (link f_next h) (default NULL (B !! Z.to_nat b)) l /\ NoDup l /\
    forall a, a ∈ l <-> exists fd, t !! fd = Some a /\ epfd_bucket fd = b
}.

(** The table of a process. *)
Definition table_rep (w : world) (t : gmap Z addr) : Prop :=
  epfd_rep (w_epfds w) (a_epfd_buckets (w_api w)) t.

Lemma epfd_bucket_range fd : 0 <= epfd_bucket fd < EPFD_BUCKET_COUNT.
Proof. apply Z.mod_pos_bound. done. Qed.

Lemma rep_inj h B t fd fd' a : epfd_rep h B t -> t !! fd = Some a -> t !! fd' = Some a -> fd = fd'.
Proof.
  intros HR H1 H2. destruct (er_entry _ _ _ HR _ _ H1) as (_ & e & He & <-).
  destruct (er_entry _ _ _ HR _ _ H2) as (_ & e' & He' & <-). congruence.
Qed.

(** Distinct descriptors have distinct entries. *)
Lemma rep_size h B t (l : list Z) :
  epfd_rep h B t -> NoDup l -> (forall fd, fd ∈ l -> is_Some (t !! fd)) -> (length l <= size h)%nat.
Proof.
  intros HR Hnd Hl. set (entry := fun fd => default 1%positive (t !! fd)).
  rewrite <- (length_fmap entry l), <- size_dom.
  rewrite <- (size_list_to_set (C := gset addr) (entry <$> l)).
  - apply subseteq_size. intros a Ha%elem_of_list_to_set. apply list_elem_of_fmap in Ha as (fd & -> & [a Ha]%Hl).
    unfold entry. rewrite Ha. destruct (er_entry _ _ _ HR _ _ Ha) as (_ & e & He & _). by apply elem_of_dom_2 in He.
  - apply NoDup_fmap_2_strong; [|done]. intros x y [a Ha]%Hl [b Hb]%Hl. unfold entry. rewrite Ha, Hb. intros E. cbn in E.
    subst b. by eapply rep_inj.
Qed.

(** ** Lookup *)

Lemma find_loop_run w fd l : forall fuel p,
  chain (link f_next (w_epfds w)) p l -> (length l <= fuel)%nat ->
  exists r, epfd_find_loop fuel p fd w = Some (r, w) /\
    match r with
    | Some a => a ∈ l /\ exists e, w_epfds w !! a = Some e /\ f_fd e = fd
    | None => forall a e, a ∈ l -> w_epfds w !! a = Some e -> f_fd e <> fd
    end.
Proof.
  induction l as [|a l IH]; intros fuel p Hc Hf.
  - cbn in Hc. subst p. exists None. split; [by destruct fuel|]. by intros a e ?%elem_of_nil.
  - destruct Hc as [-> (q & Hq & Hc)]. destruct fuel as [|fuel]; [cbn in Hf; lia|]. cbn [epfd_find_loop].
    unfold link in Hq. destruct (w_epfds w !! a) as [e|] eqn:He; [|done]. injection Hq as <-. repeat mstep.
    destruct (Z.eqb_spec (f_fd e) fd) as [E|E].
    + exists (Some a). split; [done|]. split; [by left|by exists e].
    + repeat mstep. destruct (IH fuel _ Hc) as (r & Hr & HQ); [cbn in Hf; lia|]. exists r. split; [exact Hr|].
      destruct r as [c|]; [destruct HQ as [? ?]; split; [by right|done]|].
      intros x ex [->|Hx]%elem_of_cons He'; [congruence|by eapply HQ].
Qed.

(** The search of the code is the map's lookup. *)
Lemma find_locked_run w t fd : table_rep w t -> epfd_find_locked fd w = Some (t !! fd, w).
Proof.
  intros HR. unfold epfd_find_locked. destruct (Z.leb_spec fd 0) as [Hle|Hlt].
  - destruct (t !! fd) as [a|] eqn:Ht; [|done]. destruct (er_entry _ _ _ HR _ _ Ht). lia.
  - repeat mstep. destruct (er_chain _ _ _ HR (epfd_bucket fd) (epfd_bucket_range fd)) as (l & Hc & Hnd & Hl).
    destruct (find_loop_run w fd l (epfd_fuel w) (epfd_head (epfd_bucket fd) w)) as (r & Hr & HQ);
      [exact Hc|by eapply chain_length|]. rewrite Hr. do 2 f_equal. destruct r as [a|].
    + destruct HQ as [(fd' & Ht & _)%Hl (e & He & E)]. destruct (er_entry _ _ _ HR _ _ Ht) as (_ & e' & He' & <-). congruence.
    + destruct (t !! fd) as [a|] eqn:Ht; [|done]. destruct (er_entry _ _ _ HR _ _ Ht) as (_ & e & He & E).
      exfalso. eapply HQ; [|exact He|exact E]. apply Hl. by exists fd.
Qed.

(** ** A free number *)

(** The [k]-th candidate after [c]. *)
Definition candidate (c k : Z) : Z := (c - 1 + k) mod INT_MAX + 1.

Lemma candidate_0 c : 1 <= c <= INT_MAX -> candidate c 0 = c.
Proof. intros Hc. unfold candidate. rewrite Z.mod_small; lia. Qed.
Lemma candidate_range c k : 1 <= candidate c k <= INT_MAX.
Proof. unfold candidate. pose proof (Z.mod_pos_bound (c - 1 + k) INT_MAX eq_refl). lia. Qed.
Lemma candidate_next c k :
  1 <= c <= INT_MAX -> candidate (if c =? INT_MAX then 1 else c + 1) k = candidate c (k + 1).
Proof.
  intros Hc. unfold candidate. f_equal. destruct (Z.eqb_spec c INT_MAX) as [->|]; [|f_equal; lia].
  replace (INT_MAX - 1 + (k + 1)) with (1 - 1 + k + 1 * INT_MAX) by lia. by rewrite Z.mod_add.
Qed.
Lemma candidate_inj c j k : 0 <= j < INT_MAX -> 0 <= k < INT_MAX -> candidate c j = candidate c k -> j = k.
Proof.
  intros Hj Hk E. unfold candidate in E. assert (Em : (c - 1 + j) mod INT_MAX = (c - 1 + k) mod INT_MAX) by lia.
  assert ((j - k) mod INT_MAX = 0).
  { replace (j - k) with ((c - 1 + j) - (c - 1 + k)) by lia. rewrite Zminus_mod, Em, Z.sub_diag. done. }
  apply Z.mod_divide in H as [q Hq]; [|done]. unfold INT_MAX in *. nia.
Qed.

Definition with_next_fd (w : world) (c : Z) : world := w <| w_api := (w_api w) <| a_next_fd := c |> |>.
Lemma same_next_fd w : w = with_next_fd w (a_next_fd (w_api w)).
Proof.
  unfold with_next_fd. assert ((w_api w) <| a_next_fd := a_next_fd (w_api w) |> = w_api w) as ->
    by (by destruct (w_api w)). by destruct w.
Qed.

Lemma allocate_loop_run t : forall attempts w,
  table_rep w t -> 1 <= a_next_fd (w_api w) <= INT_MAX ->
  exists c fd, allocate_id_loop attempts w = Some (fd, with_next_fd w c) /\ 1 <= c <= INT_MAX /\
    ((1 <= fd <= INT_MAX /\ t !! fd = None) \/
     (fd = -1 /\ forall k, 0 <= k < Z.of_nat attempts -> is_Some (t !! candidate (a_next_fd (w_api w)) k))).
Proof.
  induction attempts as [|attempts IH]; intros w HR Hn; cbn [allocate_id_loop].
  - exists (a_next_fd (w_api w)), (-1). split; [by rewrite <- same_next_fd|]. split; [done|]. right. split; [done|lia].
  - set (c := a_next_fd (w_api w)) in *. set (c' := if c =? INT_MAX then 1 else c + 1). repeat mstep. fold c. fold c'.
    change (w <| w_api := _ |>) with (with_next_fd w c').
    assert (Hc' : 1 <= c' <= INT_MAX) by (unfold c'; destruct (Z.eqb_spec c INT_MAX); unfold INT_MAX in *; lia).
    assert (0 <? c = true) as -> by lia. rewrite bind_assoc.
    rewrite (bind_some _ _ _ _ _ (find_locked_run (with_next_fd w c') t c HR)), bind_ret.
    destruct (t !! c) as [a|] eqn:Ht.
    + rewrite bool_decide_eq_false_2 by done.
      destruct (IH (with_next_fd w c') HR Hc') as (c2 & fd & Hr & Hc2 & HQ).
      exists c2, fd. split; [exact Hr|]. split; [done|]. destruct HQ as [HQ|[-> HQ]]; [by left|right].
      split; [done|]. intros k Hk. destruct (decide (k = 0)) as [->|Hk0]; [rewrite candidate_0 by done; by exists a|].
      specialize (HQ (k - 1) ltac:(lia)). change (a_next_fd _) with c' in HQ. unfold c' in HQ.
      rewrite candidate_next in HQ by done. by replace (k - 1 + 1) with k in HQ by lia.
    + rewrite bool_decide_eq_true_2 by done. exists c', c. split; [done|]. split; [done|]. by left.
Qed.

(** The search for a number for a new descriptor ends and finds one that
    no descriptor uses, from whatever number it starts, wrapping around at
    [INT_MAX]; nothing but the next number changes. *)
Theorem allocate_id_fresh w t :
  table_rep w t -> 1 <= a_next_fd (w_api w) <= INT_MAX -> Z.of_nat (size (w_epfds w)) < INT_MAX ->
  exists fd c, epfd_allocate_id_locked w = Some (fd, with_next_fd w c) /\
    0 < fd <= INT_MAX /\ t !! fd = None /\ 1 <= c <= INT_MAX.
Proof.
  intros HR Hn Hs. unfold epfd_allocate_id_locked. repeat mstep. unfold epfd_fuel.
  set (n := size (w_epfds w)) in *. replace (Z.to_nat _) with (S n) by lia.
  destruct (allocate_loop_run t (S n) w HR Hn) as (c & fd & Hr & Hc & [HQ|[-> HQ]]).
  - exists fd, c. split; [exact Hr|]. destruct HQ as [? ?]. split_and!; (done || lia).
  - exfalso. set (l := (fun k => candidate (a_next_fd (w_api w)) (Z.of_nat k)) <$> seq 0 (S n)).
    assert (Hle : (length l <= size (w_epfds w))%nat).
    { apply (rep_size _ _ _ _ HR).
      - apply NoDup_fmap_2_strong; [|apply NoDup_seq]. intros j k Hj%elem_of_seq Hk%elem_of_seq E.
        apply candidate_inj in E; lia.
      - intros fd (k & -> & Hk%elem_of_seq)%list_elem_of_fmap. apply HQ. lia. }
    unfold l in Hle. rewrite length_fmap, length_seq in Hle. lia.
Qed.

(** ** Insertion *)

(** The table of [w] replaced. *)
Definition with_table (w : world) (h : gmap addr epfd_entry) (B : list ptr) : world :=
  w <| w_api := (w_api w) <| a_epfds := h |> <| a_epfd_buckets := B |> |>.

Lemma with_table_epfds w h B : a_epfds (w_api (with_table w h B)) = h.
Proof. reflexivity. Qed.
Lemma with_table_buckets w h B : a_epfd_buckets (w_api (with_table w h B)) = B.
Proof. reflexivity. Qed.
Lemma with_table_shareds w h B : a_shareds (w_api (with_table w h B)) = a_shareds (w_api w).
Proof. reflexivity. Qed.
Lemma with_table_next w h B : a_next_fd (w_api (with_table w h B)) = a_next_fd (w_api w).
Proof. reflexivity. Qed.

Lemma rep_insert h B t fd a sh :
  epfd_rep h B t -> (forall fd', t !! fd' <> Some a) -> t !! fd = None -> 0 < fd <= INT_MAX ->
  let b := Z.to_nat (epfd_bucket fd) in
  epfd_rep (<[a := mk_epfd fd sh (default NULL (B !! b))]> h) (<[b := Some a]> B) (<[fd := a]> t).
Proof.
  intros HR Ha Hfd Hr b. pose proof (epfd_bucket_range fd) as Hb. split.
  - by rewrite length_insert, (er_buckets _ _ _ HR).
  - intros fd' a' [[<- <-]|[Hne Ht]]%lookup_insert_Some; [split; [done|]; by eexists; rewrite lookup_insert_eq|].
    destruct (er_entry _ _ _ HR _ _ Ht) as (? & e & He & E). split; [done|]. exists e.
    rewrite lookup_insert_ne; [done|]. intros ->. by eapply Ha.
  - intros b' Hb'. destruct (er_chain _ _ _ HR b' Hb') as (l & Hc & Hnd & Hl).
    assert (Hal : a ∉ l) by (intros (fd' & Ht & _)%Hl; by eapply Ha).
    assert (Hc' : chain (link f_next (<[a := mk_epfd fd sh (default NULL (B !! b))]> h)) (default NULL (B !! Z.to_nat b')) l).
    { eapply chain_ext; [|exact Hc]. intros x Hx. apply link_insert_ne. intros ->. done. }
    destruct (decide (b' = epfd_bucket fd)) as [->|Hne].
    + exists (a :: l). split_and!.
      * rewrite list_lookup_insert_eq by (rewrite (er_buckets _ _ _ HR); lia). cbn. split; [done|].
        exists (default NULL (B !! b)). by rewrite link_insert_eq.
      * by apply NoDup_cons.
      * intros x. rewrite elem_of_cons, Hl. split.
        -- intros [->|(fd' & Ht & E)]; [exists fd; by rewrite lookup_insert_eq|].
           exists fd'. rewrite lookup_insert_ne; [done|]. intros ->. congruence.
        -- intros (fd' & [[<- <-]|[? Ht]]%lookup_insert_Some & E); [by left|right; by exists fd'].
    + exists l. rewrite list_lookup_insert_ne by lia. split_and!; [done|done|]. intros x. rewrite Hl. split.
      * intros (fd' & Ht & E). exists fd'. rewrite lookup_insert_ne; [done|]. intros ->. congruence.
      * intros (fd' & [[<- <-]|[? Ht]]%lookup_insert_Some & E); [done|by exists fd'].
Qed.

Lemma insert_locked_run w a e fd :
  w_epfds w !! a = Some e ->
  let b := Z.to_nat (epfd_bucket fd) in
  epfd_insert_locked a fd w = Some (tt, with_table w
    (<[a := mk_epfd fd (f_shared e) (default NULL (a_epfd_buckets (w_api w) !! b))]> (w_epfds w))
    (<[b := Some a]> (a_epfd_buckets (w_api w)))).
Proof.
  intros He b. unfold epfd_insert_locked. repeat mstep. unfold epfd_head, set_epfd_head. sget.
  rewrite insert_insert_eq. reflexivity.
Qed.

(** ** Removal *)

Lemma rep_remove h B t fd a l1 l2 :
  epfd_rep h B t -> t !! fd = Some a ->
  let b := Z.to_nat (epfd_bucket fd) in
  chain (link f_next h) (default NULL (B !! b)) (l1 ++ a :: l2) -> NoDup (l1 ++ a :: l2) ->
  epfd_rep (upd h (last l1) (set f_next (fun _ => head l2))) (<[b := head (l1 ++ l2)]> B) (delete fd t).
Proof.
  intros HR Hfd b Hc Hnd. pose proof (epfd_bucket_range fd) as Hb. set (h' := upd h _ _).
  assert (Hlook : forall x e, h !! x = Some e -> exists e', h' !! x = Some e' /\ f_fd e' = f_fd e).
  { intros x e He. unfold h'. rewrite upd_lookup, He. case_decide; by eexists. }
  assert (Hlink : forall x, last l1 <> Some x -> link f_next h' x = link f_next h x).
  { intros x Hx. unfold link, h'. by rewrite upd_lookup, decide_False. }
  destruct (er_chain _ _ _ HR (epfd_bucket fd) Hb) as (l & Hcl & _ & Hl).
  rewrite (chain_det _ _ _ _ Hcl Hc) in Hl. clear Hcl l.
  assert (Ha : a ∉ l1 ++ l2).
  { apply NoDup_app in Hnd as (_ & Hd & [? _]%NoDup_cons). rewrite elem_of_app. intros [Hin|Hin]; [|done].
    apply (Hd a Hin). by left. }
  split.
  - by rewrite length_insert, (er_buckets _ _ _ HR).
  - intros fd' a' [Hne Ht]%lookup_delete_Some. destruct (er_entry _ _ _ HR _ _ Ht) as (? & e & He & E). split; [done|].
    destruct (Hlook _ _ He) as (e' & He' & E'). exists e'. split; congruence.
  - intros b' Hb'. destruct (decide (b' = epfd_bucket fd)) as [->|Hne].
    + exists (l1 ++ l2). split_and!.
      * rewrite list_lookup_insert_eq by (rewrite (er_buckets _ _ _ HR); lia). cbn.
        apply (chain_remove _ _ _ _ a _ Hnd Hc); [|intros x Hx Hlast; by apply Hlink].
        intros z Hz. unfold link, h'. rewrite upd_lookup, decide_True by done.
        destruct (chain_defined _ _ _ z Hc) as [q Hq]; [apply elem_of_app; left; by apply last_Some_elem_of|].
        unfold link in Hq. destruct (h !! z); done.
      * apply NoDup_app in Hnd as (H1 & H2 & [_ H3]%NoDup_cons). apply NoDup_app. split_and!; [done| |done].
        intros x Hx1 Hx2. apply (H2 x Hx1). by right.
      * intros x. assert (Hx : x ∈ l1 ++ l2 <-> x ∈ l1 ++ a :: l2 /\ x <> a)
          by (split; [intros Hx; split; [set_solver|by intros ->]|set_solver]).
        rewrite Hx, Hl. split.
        -- intros [(fd' & Ht & E) Hxa]. exists fd'. rewrite lookup_delete_ne; [done|]. intros ->. congruence.
        -- intros (fd' & [Hne Ht]%lookup_delete_Some & E). split; [by exists fd'|]. intros ->.
           by apply Hne, (rep_inj _ _ _ _ _ _ HR Hfd Ht).
    + destruct (er_chain _ _ _ HR b' Hb') as (l & Hcl & Hndl & Hll). exists l.
      rewrite list_lookup_insert_ne by lia. split_and!; [|done|].
      * eapply chain_ext; [|exact Hcl]. intros x (fd' & Ht & E)%Hll. apply Hlink. intros Hlast%last_Some_elem_of.
        assert (Hin : x ∈ l1 ++ a :: l2) by set_solver. apply Hl in Hin as (fd2 & Ht2 & E2).
        apply Hne. rewrite <- E, <- E2. f_equal. exact (rep_inj _ _ _ _ _ _ HR Ht Ht2).
      * intros x. rewrite Hll. split.
        -- intros (fd' & Ht & E). exists fd'. rewrite lookup_delete_ne; [done|]. intros ->. congruence.
        -- intros (fd' & [Hne' Ht]%lookup_delete_Some & E). by exists fd'.
Qed.

Lemma unlink_loop_run w b h0 a l2 : forall l1 l0 fuel,
  chain (link f_next (w_epfds w)) h0 (l0 ++ l1 ++ a :: l2) -> a ∉ l1 -> (length l1 < fuel)%nat ->
  epfd_unlink_loop fuel b (last l0) (head (l1 ++ a :: l2)) a w =
    match last (l0 ++ l1) with
    | None => set_epfd_head b (head l2) w
    | Some z => wr w_epfds (Some z) f_next (head l2) w
    end.
Proof.
  induction l1 as [|c l1 IH]; intros l0 fuel Hc Ha Hf; (destruct fuel as [|fuel]; [cbn in Hf; lia|]).
  - rewrite app_nil_r. cbn [app head epfd_unlink_loop].
    pose proof (chain_app_next _ _ (l0 ++ [a]) l2 a ltac:(by rewrite <- app_assoc) ltac:(by rewrite last_snoc)) as Hn.
    unfold link in Hn. destruct (w_epfds w !! a) as [e|] eqn:He; [|done]. injection Hn as Hn. repeat mstep.
    rewrite bool_decide_eq_true_2 by done. rewrite Hn. by destruct (last l0).
  - cbn [app head epfd_unlink_loop].
    pose proof (chain_app_next _ _ (l0 ++ [c]) (l1 ++ a :: l2) c ltac:(by rewrite <- app_assoc) ltac:(by rewrite last_snoc)) as Hn.
    unfold link in Hn. destruct (w_epfds w !! c) as [e|] eqn:He; [|done]. injection Hn as Hn. repeat mstep.
    rewrite bool_decide_eq_false_2 by set_solver. rewrite Hn.
    rewrite <- (last_snoc c l0) at 1.
    replace (l0 ++ c :: l1) with ((l0 ++ [c]) ++ l1) by (by rewrite <- app_assoc).
    apply IH; [by rewrite <- app_assoc|set_solver|cbn in Hf; lia].
Qed.

(** The entry leaves the table and stays allocated. *)
Lemma unlink_locked_run w t fd a :
  table_rep w t -> t !! fd = Some a ->
  exists h B, epfd_unlink_locked a w = Some (tt, with_table w h B) /\ epfd_rep h B (delete fd t) /\
    is_Some (h !! a) /\ (forall x, f_shared <$> (h !! x) = f_shared <$> (w_epfds w !! x)).
Proof.
  intros HR Ht. destruct (er_entry _ _ _ HR _ _ Ht) as (_ & e & He & Efd).
  pose proof (epfd_bucket_range fd) as Hb. set (b := epfd_bucket fd) in *.
  destruct (er_chain _ _ _ HR b Hb) as (l & Hc & Hnd & Hl).
  assert (Ha : a ∈ l) by (apply Hl; by exists fd). apply list_elem_of_split in Ha as (l1 & l2 & ->).
  pose proof (rep_remove _ _ _ _ _ _ _ HR Ht Hc Hnd) as HR'. fold b in HR'.
  exists (upd (w_epfds w) (last l1) (set f_next (fun _ => head l2))), (<[Z.to_nat b := head (l1 ++ l2)]> (a_epfd_buckets (w_api w))).
  split; [|split; [exact HR'|split]].
  - unfold epfd_unlink_locked. repeat mstep. rewrite Efd. fold b. unfold epfd_head.
    rewrite (chain_head _ _ _ Hc), (unlink_loop_run w b _ a l2 l1 [] _ Hc).
    + cbn [app]. destruct (last l1) as [z|] eqn:Ez.
      * rewrite wr_upd.
        -- unfold with_table. rewrite list_insert_id; [reflexivity|].
           destruct (lookup_lt_is_Some_2 (a_epfd_buckets (w_api w)) (Z.to_nat b)) as [q Hq];
             [rewrite (er_buckets _ _ _ HR); lia|].
           rewrite Hq in *. cbn in Hc. rewrite (chain_head _ _ _ Hc). by destruct l1.
        -- destruct (chain_defined _ _ _ z Hc) as [q Hq]; [apply elem_of_app; left; by apply last_Some_elem_of|].
           unfold link in Hq. by destruct (w_epfds w !! z).
      * apply last_None in Ez as ->. reflexivity.
    + apply NoDup_app in Hnd as (_ & Hd & _). intros Hin. apply (Hd a Hin). by left.
    + pose proof (chain_length _ _ _ _ Hnd Hc) as Hlen. rewrite length_app in Hlen. cbn in Hlen. unfold epfd_fuel. lia.
  - rewrite upd_lookup, He. case_decide; by eexists.
  - intros x. rewrite upd_lookup. case_decide; [by destruct (w_epfds w !! x)|done].
Qed.

(** ** Descriptors and ports

    The abstract state: which port record each descriptor names.  A record that
    is named is not closing and counts its names. *)

Definition named (s : addr) (d : gmap Z addr) : nat := size (filter (fun x => x.2 = s) d).

Record names (x : api_state) (d : gmap Z addr) : Prop := {
  nm_table : exists t, epfd_rep (a_epfds x) (a_epfd_buckets x) t /\ dom t = dom d /\
    (forall fd a, t !! fd = Some a -> exists e, a_epfds x !! a = Some e /\ f_shared e = d !! fd);
  nm_shared fd s : d !! fd = Some s -> exists r, a_shareds x !! s = Some r /\ sh_closing r = false /\
    sh_aliases r = Z.of_nat (named s d);
  nm_next : 1 <= a_next_fd x <= INT_MAX
}.

Lemma named_insert s s' fd d :
  d !! fd = None -> named s (<[fd := s']> d) = (named s d + if decide (s' = s) then 1 else 0)%nat.
Proof.
  intros Hd. unfold named. destruct (decide (s' = s)) as [->|Hne].
  - rewrite map_filter_insert_True by done. rewrite map_size_insert_None; [lia|].
    apply map_lookup_filter_None. by left.
  - rewrite map_filter_insert_False by done. rewrite delete_id by done. lia.
Qed.
Lemma named_delete s s' fd d :
  d !! fd = Some s' -> named s d = (named s (delete fd d) + if decide (s' = s) then 1 else 0)%nat.
Proof.
  intros Hd. rewrite <- (insert_delete_id d fd s' Hd) at 1. apply named_insert. by rewrite lookup_delete_eq.
Qed.
Lemma named_pos s fd d : d !! fd = Some s -> (0 < named s d)%nat.
Proof. intros Hd. rewrite (named_delete s s fd d Hd), decide_True by done. lia. Qed.
Lemma named_none s d : (forall fd, d !! fd <> Some s) -> named s d = 0%nat.
Proof.
  intros Hd. unfold named. apply map_size_empty_iff, map_empty. intros fd. apply map_lookup_filter_None.
  right. intros s' Hs' E. cbn in E. subst. by eapply Hd.
Qed.
Lemma named_bound s d : (named s d <= size d)%nat.
Proof. apply map_size_filter. Qed.

Lemma names_size x d : names x d -> (size d <= size (a_epfds x))%nat.
Proof.
  intros [(t & HR & Hdom & _) _ _]. rewrite <- size_dom, <- Hdom.
  apply (rep_size _ _ _ (elements (dom t)) HR (NoDup_elements _)). intros fd Hfd%elem_of_elements. by apply elem_of_dom.
Qed.

(** An entry that is not in the table does not matter. *)
Lemma rep_spare h B t a e : h !! a = None -> epfd_rep h B t -> epfd_rep (<[a := e]> h) B t.
Proof.
  intros Ha HR. assert (Hne : forall x, is_Some (h !! x) -> x <> a) by (intros x [? ?] ->; congruence). split.
  - apply (er_buckets _ _ _ HR).
  - intros fd x Ht. destruct (er_entry _ _ _ HR _ _ Ht) as (? & ex & Hx & E). split; [done|]. exists ex.
    rewrite lookup_insert_ne; [done|]. apply not_eq_sym, Hne. by exists ex.
  - intros b Hb. destruct (er_chain _ _ _ HR b Hb) as (l & Hc & Hnd & Hl). exists l. split_and!; [|done|done].
    eapply chain_ext; [|exact Hc]. intros x (fd & Ht & _)%Hl. destruct (er_entry _ _ _ HR _ _ Ht) as (_ & ex & Hx & _).
    apply link_insert_ne, not_eq_sym, Hne. by exists ex.
Qed.
Lemma rep_spare_delete h B t a : (forall fd, t !! fd <> Some a) -> epfd_rep h B t -> epfd_rep (delete a h) B t.
Proof.
  intros Ha HR. split.
  - apply (er_buckets _ _ _ HR).
  - intros fd x Ht. destruct (er_entry _ _ _ HR _ _ Ht) as (? & ex & Hx & E). split; [done|]. exists ex.
    rewrite lookup_delete_ne; [done|]. intros ->. by eapply Ha.
  - intros b Hb. destruct (er_chain _ _ _ HR b Hb) as (l & Hc & Hnd & Hl). exists l. split_and!; [|done|done].
    eapply chain_ext; [|exact Hc]. intros x (fd & Ht & _)%Hl. apply link_delete_ne. intros ->. by eapply Ha.
Qed.

(** The state of the table and the descriptors is in [w_api]; the rest of the
    world changes quietly. *)
Definition api_frame (w w' : world) : Prop := quiet (w <| w_api := w_api w' |>) w'.

Lemma quiet_api w w' : quiet w w' -> w_api w' = w_api w.
Proof. by intros (? & ? & ? & ? & ->). Qed.
Lemma api_frame_refl w : api_frame w w.
Proof. unfold api_frame. exists (w_errno w), (w_last_error w), (w_fault_slots w), (w_trace w). by destruct w. Qed.
Lemma api_frame_quiet w w1 w2 : api_frame w w1 -> quiet w1 w2 -> api_frame w w2.
Proof. unfold api_frame. intros H1 H2. rewrite (quiet_api _ _ H2). by etrans. Qed.
Lemma api_frame_put w w1 x : api_frame w w1 -> api_frame w (w1 <| w_api := x |>).
Proof.
  unfold api_frame. intros (e & i & sl & tr & E). exists e, i, sl, tr. rewrite E. sget. by destruct w.
Qed.
#[local] Hint Resolve api_frame_refl api_frame_quiet api_frame_put : core.

Lemma names_insert x x' d fd e s r :
  names x d -> d !! fd = None -> 0 < fd <= INT_MAX -> a_epfds x !! e = None ->
  let b := Z.to_nat (epfd_bucket fd) in
  a_epfds x' = <[e := mk_epfd fd (Some s) (default NULL (a_epfd_buckets x !! b))]> (a_epfds x) ->
  a_epfd_buckets x' = <[b := Some e]> (a_epfd_buckets x) ->
  a_shareds x' = <[s := r]> (a_shareds x) -> sh_closing r = false -> sh_aliases r = Z.of_nat (S (named s d)) ->
  1 <= a_next_fd x' <= INT_MAX ->
  names x' (<[fd := s]> d).
Proof.
  intros [(t & HR & Hdom & Hsh) Hnm _] Hfd Hr He b Ee Eb Es Hcl Hal Hnx.
  assert (Htfd : t !! fd = None) by (apply not_elem_of_dom; rewrite Hdom; by apply not_elem_of_dom).
  assert (Het : forall fd', t !! fd' <> Some e).
  { intros fd' Ht. destruct (er_entry _ _ _ HR _ _ Ht) as (_ & ? & ? & _). congruence. }
  split; [| |done].
  - exists (<[fd := e]> t). rewrite Ee, Eb. split_and!.
    + by apply rep_insert.
    + by rewrite !dom_insert_L, Hdom.
    + intros fd' a [[<- <-]|[Hne Ht]]%lookup_insert_Some.
      * eexists. rewrite !lookup_insert_eq. by split.
      * destruct (Hsh _ _ Ht) as (e' & He' & E). exists e'.
        rewrite !lookup_insert_ne; [done|done|]. intros ->. by eapply Het.
  - intros fd' s' Hd. rewrite Es, (named_insert s' s) by done. apply lookup_insert_Some in Hd as [[<- <-]|[Hne Hd]].
    + exists r. rewrite lookup_insert_eq, decide_True by done. split_and!; [done|done|lia].
    + destruct (Hnm _ _ Hd) as (r' & Hr' & Hc' & Ha'). destruct (decide (s = s')) as [->|Hs].
      * exists r. rewrite lookup_insert_eq. split_and!; [done|done|lia].
      * exists r'. rewrite lookup_insert_ne by done. split_and!; [done|done|lia].
Qed.

Lemma names_same x x' d :
  a_epfds x' = a_epfds x -> a_epfd_buckets x' = a_epfd_buckets x -> a_shareds x' = a_shareds x ->
  1 <= a_next_fd x' <= INT_MAX -> names x d -> names x' d.
Proof. intros E1 E2 E3 Hn [Ht Hs _]. split; rewrite ?E1, ?E2, ?E3; done. Qed.

(** What the failures of [epfd_alloc] have in common. *)
Definition unchanged (w : world) (d : gmap Z addr) (w' : world) : Prop :=
  api_frame w w' /\ names (w_api w') d /\ w_shareds w' = w_shareds w /\ w_epfds w' = w_epfds w.

Lemma unchanged_quiet w d w1 w2 : unchanged w d w1 -> quiet w1 w2 -> unchanged w d w2.
Proof.
  intros (Hf & Hn & Hs & He) Hq. unfold unchanged, w_shareds, w_epfds in *. rewrite (quiet_api _ _ Hq). eauto.
Qed.
Lemma quiet_unchanged w d w1 : names (w_api w) d -> quiet w w1 -> unchanged w d w1.
Proof. intros Hn Hq. eapply unchanged_quiet; [|exact Hq]. by split_and!. Qed.
Lemma unchanged_fail {A} w d w1 (m : MW A) (Q : Z -> world -> Prop) :
  QuietAction m -> unchanged w d w1 -> (forall w2, unchanged w d w2 -> Q (-1) w2) -> wp (m ;; ret (-1)) Q w1.
Proof.
  intros Hm Hu HQ. eapply wp_seq; [apply Hm|]. intros a w2 Hq. apply wp_ret, HQ. by eapply unchanged_quiet.
Qed.
Lemma unchanged_eq w d w1 :
  names (w_api w) d -> api_frame w w1 -> w_shareds w1 = w_shareds w -> w_epfds w1 = w_epfds w ->
  a_epfd_buckets (w_api w1) = a_epfd_buckets (w_api w) -> a_next_fd (w_api w1) = a_next_fd (w_api w) ->
  unchanged w d w1.
Proof.
  intros Hn Hf Hs He Hb Hx. split_and!; [done| |done|done]. eapply names_same; [..|exact Hn]; try done.
  rewrite Hx. apply (nm_next _ _ Hn).
Qed.
(** For a state written as updates of [w]. *)
Ltac framed_updates :=
  match goal with |- api_frame ?w ?w1 =>
    exists (w_errno w1), (w_last_error w1), (w_fault_slots w1), (w_trace w1); by destruct w end.

(** The last two steps of a new descriptor with the entry [e]: its number and
    its insertion. *)
Lemma new_number w w1 d e x :
  names (w_api w) d -> Z.of_nat (size (w_epfds w)) < INT_MAX - 1 -> w_epfds w !! e = None ->
  w_epfds w1 = <[e := x]> (w_epfds w) -> a_epfd_buckets (w_api w1) = a_epfd_buckets (w_api w) ->
  a_next_fd (w_api w1) = a_next_fd (w_api w) ->
  exists fd c, epfd_allocate_id_locked w1 = Some (fd, with_next_fd w1 c) /\ 0 < fd <= INT_MAX /\ d !! fd = None /\
    1 <= c <= INT_MAX.
Proof.
  intros Hn Hsize He E1 E2 E3. destruct (nm_table _ _ Hn) as (t & HR & Hdom & _).
  destruct (allocate_id_fresh w1 t) as (fd & c & Hr & Hfd & Htfd & Hc).
  { unfold table_rep. rewrite E1, E2. by apply rep_spare. }
  { rewrite E3. apply (nm_next _ _ Hn). }
  { rewrite E1, map_size_insert_None by done. lia. }
  exists fd, c. split_and!; [done|lia|lia| |lia|lia]. apply not_elem_of_dom. rewrite <- Hdom. by apply not_elem_of_dom.
Qed.

Lemma new_entry w w2 d e s r fd n :
  names (w_api w) d -> w_epfds w !! e = None -> d !! fd = None -> 0 < fd <= INT_MAX ->
  api_frame w w2 -> w_epfds w2 = <[e := mk_epfd 0 (Some s) n]> (w_epfds w) ->
  a_epfd_buckets (w_api w2) = a_epfd_buckets (w_api w) -> w_shareds w2 = <[s := r]> (w_shareds w) ->
  1 <= a_next_fd (w_api w2) <= INT_MAX -> sh_closing r = false -> sh_aliases r = Z.of_nat (S (named s d)) ->
  wp (epfd_insert_locked e fd) (fun _ w' => api_frame w w' /\
    w_shareds w' = <[s := r]> (w_shareds w) /\ names (w_api w') (<[fd := s]> d)) w2.
Proof.
  intros Hn He Hd Hfd Hf E1 E2 E3 Hx Hcl Hal.
  eapply wp_run; [apply (insert_locked_run _ _ (mk_epfd 0 (Some s) n)); rewrite E1; apply lookup_insert_eq|].
  split_and!; [by apply api_frame_put|exact E3|]. eapply (names_insert (w_api w) _ _ _ e _ r); try done.
  - by rewrite with_table_epfds, E1, E2, insert_insert_eq.
  - by rewrite with_table_buckets, E2.
Qed.

(** C17: A new descriptor either gets a number no descriptor had and names a
    new port record with one alias and no reference, or the call fails and
    leaves descriptors, entries and records as they were. *)
Theorem epfd_alloc_exact w d port :
  names (w_api w) d -> Z.of_nat (size (w_epfds w)) < INT_MAX - 1 ->
  wp (epfd_alloc port) (fun fd w' => api_frame w w' /\
    ((fd = -1 /\ unchanged w d w') \/
     (exists s event, 0 < fd <= INT_MAX /\ d !! fd = None /\ w_shareds w !! s = None /\
        w_shareds w' = <[s := mk_shared port 0 1 false false event]> (w_shareds w) /\
        names (w_api w') (<[fd := s]> d)))) w.
Proof.
  intros Hn Hsize. unfold epfd_alloc, fail_with. apply wp_bind, wp_alloc; [done|intros tr..].
  { eapply unchanged_fail; [apply _|apply quiet_unchanged; [done|apply quiet_trace]|]. intros w2 Hu.
    split; [by destruct Hu|by left]. }
  intros s Hs. apply wp_bind, wp_alloc; [done|intros tr'..].
  { apply wp_bind. eapply wp_del; [mlookup|].
    apply (unchanged_fail w d); [apply _|apply unchanged_eq; [done|framed_updates|..]; try done|].
    - sget. by rewrite delete_insert_id.
    - intros w2 Hu. split; [by destruct Hu|by left]. }
  intros e He. wsteps. set (event := w_os w _ _). wif.
  { wsteps. eapply wp_del; [mlookup|]. wsteps. eapply wp_del; [mlookup|].
    apply (unchanged_fail w d); [apply _|apply unchanged_eq; [done|framed_updates|..]; try done|].
    - sget. rewrite ?insert_insert_eq. by rewrite delete_insert_id.
    - sget. by rewrite delete_insert_id.
    - intros w2 Hu. split; [by destruct Hu|by left]. }
  wsteps. set (w1 := set w_epfds _ _).
  assert (E1 : w_epfds w1 = <[e := mk_epfd 0 (Some s) NULL]> (w_epfds w)) by reflexivity.
  assert (E2 : a_epfd_buckets (w_api w1) = a_epfd_buckets (w_api w)) by reflexivity.
  assert (E3 : w_shareds w1 = <[s := mk_shared port 0 1 false false event]> (w_shareds w)) by reflexivity.
  assert (Hf : api_frame w w1) by framed_updates.
  assert (E4 : a_next_fd (w_api w1) = a_next_fd (w_api w)) by reflexivity. clearbody w1.
  destruct (new_number w w1 d e _ Hn Hsize He E1 E2 E4) as (fd & c & Hr & Hfd & Hd & Hc).
  eapply wp_run; [exact Hr|]. assert (0 <? fd = true) as -> by lia. assert (fd <? 0 = false) as -> by lia.
  eapply wp_seq; [eapply (new_entry w _ d e s (mk_shared port 0 1 false false event)); try done|].
  { by apply api_frame_put. }
  { rewrite named_none; [done|]. intros fd' Hd'. destruct (nm_shared _ _ Hn _ _ Hd') as (r & Hr' & _).
    unfold w_shareds in Hs. congruence. }
  intros _ w2 (Hf2 & Es & Hn2). wsteps. split; [done|right]. by exists s, event.
Qed.

(** The entry of a descriptor. *)
Lemma names_entry w d fd :
  names (w_api w) d ->
  exists t, table_rep w t /\ dom t = dom d /\
    (forall fd a, t !! fd = Some a -> exists e, w_epfds w !! a = Some e /\ f_shared e = d !! fd) /\
    match t !! fd, d !! fd with
    | Some a, Some s => exists e r, w_epfds w !! a = Some e /\ f_shared e = Some s /\ w_shareds w !! s = Some r /\
                          sh_closing r = false /\ sh_aliases r = Z.of_nat (named s d)
    | None, None => True
    | _, _ => False
    end.
Proof.
  intros [(t & HR & Hdom & Hsh) Hnm _]. exists t. split_and!; [done|done|done|].
  destruct (t !! fd) as [a|] eqn:Ht, (d !! fd) as [s|] eqn:Hd; [| | |done].
  - destruct (Hsh _ _ Ht) as (e & He & E). destruct (Hnm _ _ Hd) as (r & Hr & Hc & Ha). exists e, r.
    rewrite Hd in E. by split_and!.
  - apply not_elem_of_dom in Hd. apply Hd. rewrite <- Hdom. by apply elem_of_dom_2 in Ht.
  - apply not_elem_of_dom in Ht. apply Ht. rewrite Hdom. by apply elem_of_dom_2 in Hd.
Qed.

(** What a public operation finds is the port record the descriptor names. *)
Lemma find_epfd_run w d fd : names (w_api w) d -> find_epfd fd w = Some (d !! fd, w).
Proof.
  intros Hn. destruct (names_entry w d fd Hn) as (t & HR & _ & _ & Hm). unfold find_epfd.
  rewrite (bind_some _ _ _ _ _ (find_locked_run w t fd HR)).
  destruct (t !! fd) as [a|], (d !! fd) as [s|]; try done.
  destruct Hm as (e & r & He & Es & Hr & Hc & _). repeat mstep. rewrite Es. repeat mstep. by rewrite Hc.
Qed.

Lemma names_spare x x' d e v :
  names x d -> a_epfds x !! e = None -> a_epfds x' = <[e := v]> (a_epfds x) ->
  a_epfd_buckets x' = a_epfd_buckets x -> a_shareds x' = a_shareds x -> a_next_fd x' = a_next_fd x -> names x' d.
Proof.
  intros [(t & HR & Hdom & Hsh) Hnm Hx] He E1 E2 E3 E4. split; rewrite ?E1, ?E2, ?E3, ?E4; [|done|done].
  exists t. split_and!; [by apply rep_spare|done|]. intros fd a Ht. destruct (Hsh _ _ Ht) as (ea & Ha & E).
  exists ea. rewrite lookup_insert_ne; [done|]. intros ->. congruence.
Qed.

(** C18: Duplicating a descriptor gives its port record one more name, a number
    no descriptor had, or fails and changes nothing; a number that names nothing
    cannot be duplicated. *)
Theorem epfd_duplicate_exact w d fd :
  names (w_api w) d -> Z.of_nat (size (w_epfds w)) < INT_MAX - 1 ->
  wp (epfd_duplicate fd) (fun r w' => api_frame w w' /\
    ((r = -1 /\ unchanged w d w') \/
     (exists s, d !! fd = Some s /\ 0 < r <= INT_MAX /\ d !! r = None /\ names (w_api w') (<[r := s]> d)))) w.
Proof.
  intros Hn Hsize. unfold epfd_duplicate, fail_with. apply wp_bind, wp_alloc; [done|intros tr..].
  { eapply unchanged_fail; [apply _|apply quiet_unchanged; [done|apply quiet_trace]|]. intros w2 Hu.
    split; [by destruct Hu|by left]. }
  intros e He. set (w1 := set w_epfds _ _).
  assert (E1 : w_epfds w1 = <[e := mk_epfd 0 NULL NULL]> (w_epfds w)) by reflexivity.
  assert (E2 : a_epfd_buckets (w_api w1) = a_epfd_buckets (w_api w)) by reflexivity.
  assert (E3 : w_shareds w1 = w_shareds w) by reflexivity.
  assert (Hf : api_frame w w1) by framed_updates.
  assert (E4 : a_next_fd (w_api w1) = a_next_fd (w_api w)) by reflexivity. clearbody w1.
  assert (Hn1 : names (w_api w1) d) by (by eapply names_spare).
  apply wp_bind. eapply wp_run; [by apply find_epfd_run|]. destruct (d !! fd) as [s|] eqn:Hd.
  - destruct (new_number w w1 d e _ Hn Hsize He E1 E2 E4) as (r & c & Hr & Hrange & Hnone & Hc).
    apply wp_bind. eapply wp_run; [exact Hr|]. assert (0 <? r = true) as -> by lia. assert (r <? 0 = false) as -> by lia.
    destruct (nm_shared _ _ Hn _ _ Hd) as (x & Hx & Hcl & Hal).
    assert (Hx' : w_shareds (with_next_fd w1 c) !! s = Some x) by (change (w_shareds w1 !! s = Some x); by rewrite E3).
    assert (He' : w_epfds (with_next_fd w1 c) !! e = Some (mk_epfd 0 NULL NULL))
      by (change (w_epfds (with_next_fd w1 c)) with (w_epfds w1); rewrite E1; apply lookup_insert_eq).
    wsteps. set (w2 := set w_shareds _ _). eapply wp_mono.
    { eapply (new_entry w w2 d e s (x <| sh_aliases := u32 (sh_aliases x + 1) |>) r); try done.
      - by repeat apply api_frame_put.
      - change (w_epfds w2) with (<[e := mk_epfd 0 (Some s) NULL]> (w_epfds w1)). by rewrite E1, insert_insert_eq.
      - change (w_shareds w2) with (<[s := x <| sh_aliases := u32 (sh_aliases x + 1) |>]> (w_shareds w1)). by rewrite E3.
      - sget. rewrite Hal. pose proof (named_bound s d). pose proof (names_size _ _ Hn) as Hsz.
        change (a_epfds (w_api w)) with (w_epfds w) in Hsz.
        unfold INT_MAX in *. unfold u32. rewrite Z.mod_small; lia. }
    intros _ w3 (Hf3 & _ & Hn3). wsteps. split; [done|right]. by exists s.
  - wsteps. eapply wp_del; [rewrite E1; apply lookup_insert_eq|].
    apply (unchanged_fail w d); [apply _|apply unchanged_eq; try done|].
    + by apply api_frame_put.
    + change (delete e (w_epfds w1) = w_epfds w). by rewrite E1, delete_insert_id.
    + intros w2 Hu. split; [by destruct Hu|by left].
Qed.

Lemma names_delete x x' d t fd a s r h B :
  names x d -> d !! fd = Some s -> t !! fd = Some a -> dom t = dom d ->
  (forall fd a, t !! fd = Some a -> exists e, a_epfds x !! a = Some e /\ f_shared e = d !! fd) ->
  epfd_rep (a_epfds x) (a_epfd_buckets x) t -> epfd_rep h B (delete fd t) ->
  (forall y, f_shared <$> (h !! y) = f_shared <$> (a_epfds x !! y)) ->
  a_epfds x' = delete a h -> a_epfd_buckets x' = B -> a_shareds x' = <[s := r]> (a_shareds x) ->
  a_next_fd x' = a_next_fd x -> sh_closing r = false -> sh_aliases r = Z.of_nat (named s (delete fd d)) ->
  names x' (delete fd d).
Proof.
  intros Hn Hd Ht Hdom Hent HR HR' Hsh E1 E2 E3 E4 Hcl Hal.
  assert (Ha : forall fd', delete fd t !! fd' <> Some a).
  { intros fd' [Hne Ht']%lookup_delete_Some. apply Hne. exact (rep_inj _ _ _ _ _ _ HR Ht Ht'). }
  split; rewrite ?E1, ?E2, ?E3, ?E4; [| |apply (nm_next _ _ Hn)].
  - exists (delete fd t). split_and!; [by apply rep_spare_delete|by rewrite !dom_delete_L, Hdom|].
    intros fd' a' Ht'. destruct (er_entry _ _ _ HR' _ _ Ht') as (_ & e' & He' & _). exists e'.
    assert (a' <> a) by (intros ->; by eapply Ha). rewrite lookup_delete_ne by done. split; [done|].
    apply lookup_delete_Some in Ht' as [Hne Ht']. rewrite lookup_delete_ne by done.
    destruct (Hent _ _ Ht') as (e & He & <-). specialize (Hsh a'). rewrite He', He in Hsh. by injection Hsh.
  - intros fd' s' [Hne Hd']%lookup_delete_Some. destruct (decide (s' = s)) as [->|Hs].
    + exists r. by rewrite lookup_insert_eq.
    + destruct (nm_shared _ _ Hn _ _ Hd') as (r' & Hr' & Hc' & Ha'). exists r'. rewrite lookup_insert_ne by done.
      split_and!; [done|done|]. rewrite Ha', (named_delete s' s fd d Hd), decide_False by done. lia.
Qed.

(** C19: Closing one of several descriptors of a port removes that descriptor
    and nothing else: the call succeeds, the other descriptors keep naming the
    port record, which is not closing, and the port is not touched, so a wait
    issued through another descriptor goes on. *)
Theorem close_alias_exact others fuel w d fd s :
  names (w_api w) d -> d !! fd = Some s -> (1 < named s d)%nat -> Z.of_nat (size (w_epfds w)) < INT_MAX ->
  wp (wepoll_close others fuel fd) (fun r w' => r = 0 /\ api_frame w w' /\ names (w_api w') (delete fd d)) w.
Proof.
  intros Hn Hd Hmany Hsize. destruct (names_entry w d fd Hn) as (t & HR & Hdom & Hent & Hm). rewrite Hd in Hm.
  destruct (t !! fd) as [a|] eqn:Ht; [|done]. destruct Hm as (e & r & He & Es & Hr & Hcl & Hal).
  destruct (unlink_locked_run w t fd a HR Ht) as (h & B & Hu & HR' & [e' He'] & Hsh).
  unfold wepoll_close. apply wp_bind. eapply wp_run; [by apply find_locked_run|]. rewrite Ht.
  wsteps. rewrite Es. wsteps. rewrite Hcl. apply wp_bind. eapply wp_run; [exact Hu|].
  assert (Hr' : w_shareds (with_table w h B) !! s = Some r) by exact Hr. wsteps.
  apply wp_assert; [lia|]. apply wp_bind. eapply wp_run; [by eapply st_some|].
  pose proof (named_bound s d) as Hb1. pose proof (names_size _ _ Hn) as Hb2. change (a_epfds (w_api w)) with (w_epfds w) in Hb2.
  assert (Hu32 : u32 (sh_aliases r - 1) = Z.of_nat (named s d) - 1).
  { unfold u32, INT_MAX in *. rewrite Z.mod_small; lia. }
  unfold close_shared. sget. rewrite Hu32. assert (Z.of_nat (named s d) - 1 =? 0 = false) as -> by lia. cbn [fst snd negb].
  apply wp_bind. eapply wp_del; [exact He'|]. wsteps. split_and!; [done|by repeat apply api_frame_put|].
  pose proof (named_delete s s fd d Hd) as Hcount. rewrite decide_True in Hcount by done.
  eapply (names_delete (w_api w) _ d t fd a s _ h B); try done.
  sget. lia.
Qed.

(** ** A process with no, one and two descriptors *)

Definition table_os (tr : list os_request) (r : os_request) : Z :=
  match r with Malloc _ => 1000 + 100 * Z.of_nat (length tr) | CreateEventW => 7 | _ => 0 end.
Definition no_fds : world := empty_world <| w_os := table_os |>.
Definition one_fd : world := exec (epfd_alloc (Some 9%positive)) no_fds.
Definition two_fds : world := exec (epfd_duplicate 1) one_fd.

Lemma no_fds_rep : table_rep no_fds ∅.
Proof.
  split; [done|by intros fd a|]. intros b Hb. exists []. split_and!; [|constructor|].
  - change (default NULL (replicate 64 (NULL : ptr) !! Z.to_nat b) = NULL).
    destruct (replicate 64 (NULL : ptr) !! Z.to_nat b) as [q|] eqn:Hq; [by apply lookup_replicate in Hq as [-> _]|done].
  - intros a. split; [by intros ?%elem_of_nil|]. by intros (fd & ? & _).
Qed.
Lemma no_fds_names : names (w_api no_fds) ∅.
Proof. split; [|done|done]. exists ∅. split_and!; [exact no_fds_rep|done|done]. Qed.
Lemma one_fd_names : names (w_api one_fd) {[ 1 := 1000%positive ]}.
Proof.
  apply (names_insert (w_api no_fds) (w_api one_fd) ∅ 1 1100%positive 1000%positive (mk_shared (Some 9%positive) 0 1 false false 7)); [exact no_fds_names|..];
    vm_compute; first [reflexivity|split; first [reflexivity|discriminate]].
Qed.
Lemma two_fds_names : names (w_api two_fds) (<[2 := 1000%positive]> {[ 1 := 1000%positive ]}).
Proof.
  apply (names_insert (w_api one_fd) (w_api two_fds) {[ 1 := 1000%positive ]} 2 1300%positive 1000%positive
    (mk_shared (Some 9%positive) 0 2 false false 7)); [exact one_fd_names|..];
    vm_compute; first [reflexivity|split; first [reflexivity|discriminate]].
Qed.

Lemma allocate_id_fresh_witness :
  exists fd c, epfd_allocate_id_locked no_fds = Some (fd, with_next_fd no_fds c) /\
    0 < fd <= INT_MAX /\ (∅ : gmap Z addr) !! fd = None /\ 1 <= c <= INT_MAX.
Proof. apply (allocate_id_fresh no_fds ∅); [exact no_fds_rep|done|done]. Defined.

Lemma epfd_alloc_exact_witness :
  wp (epfd_alloc (Some 9%positive)) (fun fd w' => api_frame no_fds w' /\
    ((fd = -1 /\ unchanged no_fds ∅ w') \/
     (exists s event, 0 < fd <= INT_MAX /\ (∅ : gmap Z addr) !! fd = None /\ w_shareds no_fds !! s = None /\
        w_shareds w' = <[s := mk_shared (Some 9%positive) 0 1 false false event]> (w_shareds no_fds) /\
        names (w_api w') (<[fd := s]> ∅)))) no_fds.
Proof. apply (epfd_alloc_exact no_fds ∅); [exact no_fds_names|done]. Defined.

Lemma epfd_duplicate_exact_witness :
  wp (epfd_duplicate 1) (fun r w' => api_frame one_fd w' /\
    ((r = -1 /\ unchanged one_fd {[ 1 := 1000%positive ]} w') \/
     (exists s, ({[ 1 := 1000%positive ]} : gmap Z addr) !! 1 = Some s /\ 0 < r <= INT_MAX /\
        ({[ 1 := 1000%positive ]} : gmap Z addr) !! r = None /\
        names (w_api w') (<[r := s]> {[ 1 := 1000%positive ]})))) one_fd.
Proof. apply (epfd_duplicate_exact one_fd); [exact one_fd_names|vm_compute; done]. Defined.

Lemma close_alias_exact_witness :
  wp (wepoll_close (ret tt) 5 1) (fun r w' => r = 0 /\ api_frame two_fds w' /\
    names (w_api w') (delete 1 (<[2 := 1000%positive]> {[ 1 := 1000%positive ]}))) two_fds.
Proof.
  apply (close_alias_exact (ret tt) 5 two_fds _ 1 1000%positive);
    [exact two_fds_names|vm_compute; reflexivity|vm_compute; lia|vm_compute; done].
Defined.
