(* ===== verification/Resources.v ===== *)
(** * What a port acquires from the platform

    The handles, arrays and mutexes that the calls made so far acquired and
    released, and which of them creation ([ep_port_create]) holds at every stage:
    exactly those the port's fields name.  Runs are followed with triples. *)
From S2P Require Import Prelude Codes Types Errno Fault Links Pool ReadyQueue Quiet FdTable.
From S2P Require Import Provider PollKeys AfdOps Groups Iocp Pipe Targets Keeps Accounting Lifecycle.

Inductive resource := RHandle (handle : Z) | RBlock (block : Z) | RLock (lock : port_lock).
#[export] Instance resource_eq : EqDecision resource.
Proof. solve_decision. Defined.

Definition handle_of (h : Z) : list resource := if h =? 0 then [] else [RHandle h].
Definition block_of (b : Z) : list resource := if b =? 0 then [] else [RBlock b].

(** What a call acquires, given the calls before it, and what it releases.  A
    file is acquired by a creation whose status is success. *)
Definition acquired (o : list os_request -> os_request -> Z) (tr : list os_request) (r : os_request) : list resource :=
  match r with
  | CallocArray _ _ => block_of (Z.max (o tr r) 0)
  | PortLockInit lock => if o tr r =? 0 then [RLock lock] else []
  | CreateIoCompletionPort handle iocp =>
    if (handle =? INVALID_HANDLE_VALUE) && (iocp =? 0) then handle_of (o tr r) else []
  | CreateEventW => handle_of (o tr r)
  | NtCreateFileStatus =>
    match tr with
    | NtCreateFile :: tr' => if i32 (o tr r) =? STATUS_SUCCESS then handle_of (o tr' NtCreateFile) else []
    | _ => []
    end
  | _ => []
  end.
Definition released (r : os_request) : list resource :=
  match r with
  | CloseHandle h => handle_of h
  | FreeArray b => block_of b
  | PortLockDestroy lock => [RLock lock]
  | _ => []
  end.

Fixpoint times (x : resource) (l : list resource) : Z :=
  match l with [] => 0 | y :: l => (if decide (y = x) then 1 else 0) + times x l end.
(** How often [x] was acquired, less how often it was released. *)
Fixpoint balance (o : list os_request -> os_request -> Z) (tr : list os_request) (x : resource) : Z :=
  match tr with
  | [] => 0
  | r :: tr => balance o tr x + times x (acquired o tr r) - times x (released r)
  end.
Definition outstanding (w : world) (x : resource) : Z := balance (w_os w) (w_trace w) x.

Lemma times_app x l l' : times x (l ++ l') = times x l + times x l'.
Proof. induction l as [|y l IH]; cbn; lia. Qed.
Lemma times_perm x l l' : l ≡ₚ l' -> times x l = times x l'.
Proof. induction 1; cbn; lia. Qed.

(** ** Calls without a part in it *)

Definition plain (r : os_request) : bool :=
  match r with
  | CallocArray _ _ | FreeArray _ | PortLockInit _ | PortLockDestroy _ | CreateIoCompletionPort _ _ | CreateEventW
  | NtCreateFileStatus | CloseHandle _ => false
  | _ => true
  end.

Record neutral (w w' : world) : Prop := {
  nt_os : w_os w' = w_os w;
  nt_outstanding x : outstanding w' x = outstanding w x;
  nt_ports : w_ports w' = w_ports w;
  nt_groups : w_groups w' = w_groups w
}.
#[export] Instance neutral_preorder : PreOrder neutral.
Proof. split; [by intros w|]. intros w1 w2 w3 [? ? ? ?] [? ? ? ?]. split; congruence. Qed.

Lemma os_neutral r w z w' : plain r = true -> os r w = Some (z, w') -> neutral w w'.
Proof.
  intros Hr [= <- <-]. split; try done. intros x.
  change (balance (w_os w) (r :: w_trace w) x = balance (w_os w) (w_trace w) x).
  destruct r; try done; cbn [balance acquired released times]; lia.
Qed.
#[export] Instance os_plain r : TCEq (plain r) true -> Keeps neutral (os r).
Proof. intros Hr%TCEq_eq w z w'. by apply os_neutral. Qed.

Class Aside {T} (f : world -> T) `{!Setter f} : Prop := aside w v : neutral w (w <| f := v |>).
#[export] Hint Extern 1 (Aside _) => (intros ? ?; split; [reflexivity|intros ?; reflexivity|reflexivity|reflexivity]) : typeclass_instances.
Section Aside.
Context {R T : Type} (H : world -> gmap addr R) `{!Setter H} `{HO : !Aside H}.
#[export] Instance wr_aside p (f : R -> T) `{!Setter f} v : Keeps neutral (wr H p f v).
Proof. intros w r w' (a & s & -> & Hs & ->)%wr_inv. apply HO. Qed.
#[export] Instance st_aside p v : Keeps neutral (st H p v).
Proof. intros w r w'. unfold st. destruct p; [|done]. case_match; [|done]. intros [= <- <-]. apply HO. Qed.
#[export] Instance del_aside p : Keeps neutral (del H p).
Proof.
  intros w r w'. unfold del. destruct p; [|intros [= <- <-]; reflexivity].
  case_match; [|done]. intros [= <- <-]. apply HO.
Qed.
End Aside.
#[export] Instance put_aside {T} (f : world -> T) `{!Setter f} `{!Aside f} v : Keeps neutral (put f v).
Proof. intros w r w' ->%put_inv. apply aside. Qed.
#[export] Instance alloc_aside {R} (H : world -> gmap addr R) `{!Setter H} `{HO : !Aside H} n v : Keeps neutral (alloc H n v).
Proof.
  unfold alloc. apply bind_keeps; [apply _|apply _|]. intros a w r w'.
  case_match; [intros [= <- <-]; reflexivity|]. case_match; intros [= <- <-]; [reflexivity|apply HO].
Qed.

#[export] Instance ep_set_errno_neutral e : Keeps neutral (ep_set_errno e).
Proof. unfold ep_set_errno. keeping. Qed.
#[export] Instance ep_set_native_error_neutral a b c : Keeps neutral (ep_set_native_error a b c).
Proof. unfold ep_set_native_error, upd_last_error. keeping. Qed.
#[export] Instance ep_set_win32_error_neutral e : Keeps neutral (ep_set_win32_error e).
Proof. unfold ep_set_win32_error. keeping. Qed.
#[export] Instance ep_set_ntstatus_error_neutral s : Keeps neutral (ep_set_ntstatus_error s).
Proof. unfold ep_set_ntstatus_error, ep_status_to_errno, ep_ntstatus_to_winerr. keeping. Qed.
#[export] Instance ep_last_err_neutral : Keeps neutral ep_last_err.
Proof. unfold ep_last_err. keeping. Qed.
#[export] Instance ep_get_last_error_info_neutral : Keeps neutral ep_get_last_error_info.
Proof. unfold ep_get_last_error_info. keeping. Qed.
#[export] Instance ep_restore_last_error_info_neutral i : Keeps neutral (ep_restore_last_error_info i).
Proof. unfold ep_restore_last_error_info. keeping. Qed.
#[export] Instance ep_fault_hit_neutral p : Keeps neutral (ep_fault_hit p).
Proof. unfold ep_fault_hit, fault_count_hit, fault_slot, put_fault_slot. keeping. Qed.
#[export] Instance ep_global_init_neutral : Keeps neutral ep_global_init.
Proof. unfold ep_global_init, ep_global_init_once, api_put, get_proc. keeping. Qed.
#[export] Instance get_proc_neutral m n : Keeps neutral (get_proc m n).
Proof. unfold get_proc. keeping. Qed.
#[export] Instance ep_ready_init_neutral q : Keeps neutral (ep_ready_init q).
Proof. unfold ep_ready_init. keeping. Qed.
#[export] Instance ep_ready_destroy_neutral q : Keeps neutral (ep_ready_destroy q).
Proof. unfold ep_ready_destroy. keeping. Qed.
#[export] Instance free_loop_neutral : forall fuel e, Keeps neutral (pool_entries_free_loop fuel e).
Proof. induction fuel as [|fuel IH]; intros [e|]; cbn [pool_entries_free_loop]; keeping. Qed.
#[export] Instance entries_free_neutral e : Keeps neutral (ep_pool_entries_free e).
Proof. intros w r w' Hrun. by eapply free_loop_neutral. Qed.
#[export] Instance pool_loop_neutral p : forall n, Keeps neutral (pool_init_loop p n).
Proof. induction n as [|n IH]; cbn [pool_init_loop]; [keeping|]. unfold pool_init_step, ep_pool_entry_alloc. keeping. Qed.
#[export] Instance pool_init_neutral p size capacity : Keeps neutral (ep_afd_pool_init p size capacity).
Proof. unfold ep_afd_pool_init. keeping. Qed.
#[export] Instance pool_destroy_neutral p : Keeps neutral (ep_afd_pool_destroy p).
Proof. unfold ep_afd_pool_destroy. keeping. Qed.
#[export] Instance fd_rehash_neutral : forall old t, Keeps neutral (fd_rehash old t).
Proof. induction old as [|[s|] old IH]; intros t; cbn [fd_rehash]; unfold fd_place; keeping. Qed.

(** ** The stock of a port that is being made *)

Section Stock.
Context (w0 : world) (a : addr).
Let G := (a + group_offset)%positive.

(** The port and its embedded group, and what was acquired since [w0] and not
    released. *)
Record stocked (p : ep_port) (g : ep_afd_group) (R : list resource) (w : world) : Prop := {
  sk_os : w_os w = w_os w0;
  sk_port : w_ports w !! a = Some p;
  sk_group : w_groups w !! G = Some g;
  sk_outstanding x : outstanding w x = outstanding w0 x + times x R
}.

Lemma stocked_neutral p g R w w' : neutral w w' -> stocked p g R w -> stocked p g R w'.
Proof. intros [H1 H2 H3 H4] [? ? ? ?]. split; [congruence|by rewrite H3|by rewrite H4|]. intros x. by rewrite H2. Qed.
#[export] Instance stocked_stable p g R {A} (m : MW A) : Keeps neutral m -> Stable (stocked p g R) m.
Proof. intros Hm w r w' Hw Hrun. eapply stocked_neutral; [|exact Hw]. by eapply Hm. Qed.
Lemma stocked_perm p g R R' w : R ≡ₚ R' -> stocked p g R w -> stocked p g R' w.
Proof. intros HR [? ? ? H]. split; try done. intros x. by rewrite H, (times_perm x _ _ HR). Qed.

Section Steps.
Context {B : Type} (p : ep_port) (g : ep_afd_group) (R : list resource) (Q : B -> world -> Prop).

Lemma step_rd {T} (f : ep_port -> T) k :
  hoare (stocked p g R) (k (f p)) Q -> hoare (stocked p g R) (bind (rd w_ports (Some a) f) k) Q.
Proof.
  intros Hk w r w' Hw (x & w1 & (c & s & [= <-] & Hs & -> & ->)%rd_inv & H)%bind_inv.
  rewrite (sk_port _ _ _ _ Hw) in Hs. injection Hs as <-. by eapply Hk.
Qed.
Lemma step_wr {T} (f : ep_port -> T) `{!Setter f} v k :
  hoare (stocked (p <| f := v |>) g R) (k tt) Q -> hoare (stocked p g R) (bind (wr w_ports (Some a) f v) k) Q.
Proof.
  intros Hk w r w' [H1 H2 H3 H4] ([] & w1 & (c & s & [= <-] & Hs & ->)%wr_inv & H)%bind_inv.
  rewrite H2 in Hs. injection Hs as <-. eapply Hk; [|exact H]. split; try done. apply lookup_insert_eq.
Qed.
Lemma step_wr_group {T} (f : ep_afd_group -> T) `{!Setter f} v k :
  hoare (stocked p (g <| f := v |>) R) (k tt) Q -> hoare (stocked p g R) (bind (wr w_groups (Some G) f v) k) Q.
Proof.
  intros Hk w r w' [H1 H2 H3 H4] ([] & w1 & (c & s & [= <-] & Hs & ->)%wr_inv & H)%bind_inv.
  rewrite H3 in Hs. injection Hs as <-. eapply Hk; [|exact H]. split; try done. apply lookup_insert_eq.
Qed.
Lemma step_rd_group {T} (f : ep_afd_group -> T) k :
  hoare (stocked p g R) (k (f g)) Q -> hoare (stocked p g R) (bind (rd w_groups (Some G) f) k) Q.
Proof.
  intros Hk w r w' Hw (x & w1 & (c & s & [= <-] & Hs & -> & ->)%rd_inv & H)%bind_inv.
  rewrite (sk_group _ _ _ _ Hw) in Hs. injection Hs as <-. by eapply Hk.
Qed.
Lemma step_acquire r (f : Z -> list resource) k :
  (forall o tr, acquired o tr r = f (o tr r)) -> released r = [] ->
  (forall z, hoare (stocked p g (f z ++ R)) (k z) Q) -> hoare (stocked p g R) (bind (os r) k) Q.
Proof.
  intros Ha Hr Hk w x w' [H1 H2 H3 H4] (z & w1 & [= <- <-] & H)%bind_inv. eapply Hk; [|exact H]. split; try done. intros y.
  change (balance (w_os w) (r :: w_trace w) y = outstanding w0 y + times y (f (w_os w (w_trace w) r) ++ R)).
  cbn [balance]. rewrite Ha, Hr, times_app. specialize (H4 y). unfold outstanding in *. cbn [times]. lia.
Qed.
Lemma step_release r R' k :
  (forall o tr, acquired o tr r = []) -> R ≡ₚ released r ++ R' ->
  (forall z, hoare (stocked p g R') (k z) Q) -> hoare (stocked p g R) (bind (os r) k) Q.
Proof.
  intros Ha Hr Hk w x w' [H1 H2 H3 H4] (z & w1 & [= <- <-] & H)%bind_inv. eapply Hk; [|exact H]. split; try done. intros y.
  change (balance (w_os w) (r :: w_trace w) y = outstanding w0 y + times y R').
  cbn [balance]. rewrite Ha. specialize (H4 y). unfold outstanding in *. rewrite (times_perm y _ _ Hr), times_app in H4. cbn [times]. lia.
Qed.
(** A file and the status of its creation. *)
Lemma step_file k :
  (forall h status, hoare (stocked p g ((if i32 status =? STATUS_SUCCESS then handle_of h else []) ++ R)) (k h status) Q) ->
  hoare (stocked p g R) (h <- os NtCreateFile ;; status <- os NtCreateFileStatus ;; k h status) Q.
Proof.
  intros Hk w x w' [H1 H2 H3 H4] (h & w1 & [= <- <-] & (status & w2 & [= <- <-] & H)%bind_inv)%bind_inv.
  eapply Hk; [|exact H]. split; try done. intros y.
  match goal with |- outstanding ?w2 y = _ =>
    change (outstanding w2 y) with (balance (w_os w) (NtCreateFileStatus :: NtCreateFile :: w_trace w) y) end.
  cbn [balance acquired released times]. rewrite times_app. specialize (H4 y). unfold outstanding in *.
  change (w_os (set w_trace _ w)) with (w_os w). change (w_trace (set w_trace (cons NtCreateFile) w)) with (NtCreateFile :: w_trace w). lia.
Qed.
End Steps.
End Stock.

Lemma hoare_assoc {A B C} P (m : MW A) (k : A -> MW B) (k' : B -> MW C) Q :
  hoare P (bind m (fun x => bind (k x) k')) Q -> hoare P (bind (bind m k) k') Q.
Proof. intros H w r w' HP Hrun. eapply H; [exact HP|]. by rewrite <- bind_assoc. Qed.

Lemma hoare_then_ret {A} P (m : MW A) Q : hoare P (bind m ret) Q -> hoare P m Q.
Proof. intros H w r w' HP Hrun. eapply H; [exact HP|]. unfold bind. by rewrite Hrun. Qed.
Section Cases.
Context {A : Type} (m : MW A) (Q : A -> world -> Prop).
Lemma hoare_or P1 P2 : hoare P1 m Q -> hoare P2 m Q -> hoare (fun w => P1 w \/ P2 w) m Q.
Proof. intros H1 H2 w r w' [?|?] Hrun; [by eapply H1|by eapply H2]. Qed.
Lemma hoare_ex {T} (P : T -> world -> Prop) : (forall x, hoare (P x) m Q) -> hoare (fun w => exists x, P x w) m Q.
Proof. intros H w r w' [x Hx] Hrun. by eapply H. Qed.
Lemma hoare_fact (f : Prop) P : (f -> hoare P m Q) -> hoare (fun w => f /\ P w) m Q.
Proof. intros H w r w' [Hf Hw] Hrun. by eapply H. Qed.
End Cases.

Ltac stock_step :=
  cbv zeta; lazymatch goal with
  | |- hoare _ (bind (rd w_ports _ _) _) _ => apply step_rd
  | |- hoare _ (bind (wr w_ports _ _ _) _) _ => apply step_wr
  | |- hoare _ (bind (bind _ _) _) _ => apply hoare_assoc
  | |- hoare _ (bind (ret _) _) _ => apply hoare_bind_ret
  | |- hoare _ (bind _ _) _ => apply hoare_bind; [typeclasses eauto|intros ?]
  end.

Section Making.
Context (w0 : world) (a : addr).
Let G := (a + group_offset)%positive.
Notation stocked := (stocked w0 a).

(** What the fields of a port and of its first group name. *)
Definition parts (p : ep_port) (g : ep_afd_group) : list resource :=
  handle_of (p_iocp p) ++ handle_of (p_udp_probe_event p) ++ handle_of (g_afd g) ++
  block_of (p_iocp_entries p) ++ block_of (p_fd_table_block p).
(** A port with its table, its array of entries and its handles. *)
Definition port_with (frequency : Z) (t : list ptr) (block : Z) : ep_port :=
  (new_port a) <| p_qpc_frequency := frequency |> <| p_fd_table := t |> <| p_fd_table_block := block |>.
Definition port_entries (p : ep_port) (entries : Z) : ep_port := p <| p_iocp_batch_size := 64 |> <| p_iocp_entries := entries |>.
Definition port_procs (p : ep_port) (timer query : bool) : ep_port :=
  p <| p_udp_probe_read := true |> <| p_create_timer := timer |> <| p_query_precise := query |>.
Definition port_iocp (p : ep_port) (iocp : Z) : ep_port := p <| p_iocp := iocp |> <| p_iocp_post_handle := iocp |>.

Lemma afd_open_stock p g R iocp : iocp <> 0 ->
  hoare (stocked p g R) (ep_afd_open iocp) (fun r w => (r = (-1, 0) /\ stocked p g R w) \/ (r.1 = 0 /\ stocked p g (handle_of r.2 ++ R) w)).
Proof.
  intros Hi. unfold ep_afd_open. stock_step. destruct (_ || _); [stock_step; apply hoare_ret; by left|].
  stock_step. destruct (negb _); [apply hoare_ret; by left|]. apply step_file. intros h status.
  destruct (i32 status =? STATUS_SUCCESS); cbn [negb app]; [|stock_step; apply hoare_ret; by left].
  assert (Ha : forall o tr, acquired o tr (CreateIoCompletionPort h iocp) = []).
  { intros o tr. cbn [acquired]. by rewrite (proj2 (Z.eqb_neq iocp 0)), andb_false_r by done. }
  assert (Hclose : hoare (stocked p g (handle_of h ++ R)) (os (CloseHandle h) ;; ret (-1, 0)) (fun r w => (r = (-1, 0) /\ stocked p g R w) \/ (r.1 = 0 /\ stocked p g (handle_of r.2 ++ R) w))).
  { apply (step_release _ _ _ _ _ _ _ R); [done|done|]. intros _. apply hoare_ret. by left. }
  apply (step_release _ _ _ _ _ _ _ (handle_of h ++ R)); [exact Ha|done|]. intros associated.
  destruct (associated =? 0); [do 2 stock_step; exact Hclose|].
  stock_step. destruct (_ =? 0); [do 2 stock_step; exact Hclose|]. apply hoare_ret. intros w Hw. by right.
Qed.

Lemma grow_stock f g R size :
  hoare (stocked (port_with f [] 0) g R) (ep_fd_table_grow (Some a) size) (fun r w =>
    (r = -1 /\ stocked (port_with f [] 0) g R w) \/
    (r = 0 /\ exists block, 0 < block /\ stocked (port_with f (replicate (Z.to_nat size) NULL) block) g (block_of block ++ R) w)).
Proof.
  unfold ep_fd_table_grow. destruct (_ || _); [stock_step; apply hoare_ret; by left|].
  apply (step_acquire _ _ _ _ _ _ _ (fun z => block_of (Z.max z 0))); [done|done|]. intros block.
  destruct (Z.leb_spec block 0) as [Hle|Hlt].
  { rewrite Z.max_r by done. cbn [block_of Z.eqb app]. stock_step. apply hoare_ret. by left. }
  rewrite Z.max_l by lia. stock_step. change (p_fd_table (port_with f [] 0)) with (@nil ptr). cbn [fd_rehash]. stock_step. stock_step.
  apply (step_release _ _ _ _ _ _ _ (block_of block ++ R)); [done|done|]. intros _. do 2 stock_step. apply hoare_ret. intros w Hw. right. split; [done|]. exists block. split; [lia|exact Hw].
Qed.

(** The table of a size hint. *)
Definition table_for (size_hint : Z) : list ptr :=
  if 0 <? size_hint then replicate (Z.to_nat (Z.max (Z.min size_hint EP_MAX_SIZE_HINT * 2) WEPOLL_INITIAL_FDS)) NULL else [].
Lemma table_stock f g R size_hint :
  hoare (stocked (port_with f [] 0) g R) (create_table (Some a) size_hint) (fun ok w =>
    (ok = false /\ stocked (port_with f [] 0) g R w) \/
    (ok = true /\ exists block, (0 < block <-> 0 < size_hint) /\ 0 <= block /\ stocked (port_with f (table_for size_hint) block) g (block_of block ++ R) w)).
Proof.
  unfold create_table, table_for. destruct (Z.ltb_spec 0 size_hint) as [Hs|Hs].
  - cbv zeta. destruct (_ <? _); [stock_step; apply hoare_ret; by left|].
    eapply hoare_seq; [apply grow_stock|]. intros r. apply hoare_ret. intros w [[-> H]|(-> & block & Hb & H)]; [by left|right].
    split; [done|]. exists block. split; [lia|]. split; [lia|done].
  - apply hoare_ret. intros w H. right. split; [done|]. exists 0. split; [lia|]. split; [lia|exact H].
Qed.

Lemma procs_none p : p_query_precise p = false -> p_create_timer p = false -> port_procs p false false = p <| p_udp_probe_read := true |>.
Proof. destruct p. cbn. by intros -> ->. Qed.
Lemma iocp_none p : p_iocp p = 0 -> p_iocp_post_handle p = 0 -> port_iocp p 0 = p.
Proof. destruct p. cbn. by intros -> ->. Qed.

Section Procs.
Context (p : ep_port) (g : ep_afd_group) (R : list resource).
Definition resolved (w : world) : Prop := exists timer query, stocked (port_procs p timer query) g R w.
#[local] Instance resolved_neutral {A} (m : MW A) : Keeps neutral m -> Stable resolved m.
Proof. intros Hm w r w' (timer & query & H) Hrun. exists timer, query. eapply stocked_neutral; [|exact H]. by eapply Hm. Qed.
#[local] Instance resolved_timer v : Stable resolved (wr w_ports (Some a) p_create_timer v).
Proof.
  intros w r w' (timer & query & [H1 H2 H3 H4]) (c & s & [= <-] & Hs & ->)%wr_inv. rewrite H2 in Hs. injection Hs as <-.
  exists v, query. split; try done. sget. by rewrite lookup_insert_eq.
Qed.
#[local] Instance resolved_query v : Stable resolved (wr w_ports (Some a) p_query_precise v).
Proof.
  intros w r w' (timer & query & [H1 H2 H3 H4]) (c & s & [= <-] & Hs & ->)%wr_inv. rewrite H2 in Hs. injection Hs as <-.
  exists timer, v. split; try done. sget. by rewrite lookup_insert_eq.
Qed.
Lemma procs_stock : p_query_precise p = false -> p_create_timer p = false ->
  hoare (stocked p g R) (create_procs (Some a)) (fun _ => resolved).
Proof.
  intros Hq Ht. unfold create_procs. stock_step.
  eapply (hoare_conseq _ resolved _ (fun _ => resolved)); [|intros w Hw; exists false, false; by rewrite (procs_none p Hq Ht)|done].
  apply hoare_bind; [apply _|intros kernel32]. apply hoare_bind.
  { destruct (negb _); [|apply _]. apply hoare_bind; [apply _|intros timer]. apply hoare_bind; [apply _|intros []].
    apply hoare_bind; [apply _|intros query]. apply resolved_query. }
  intros []. apply hoare_bind; [apply _|intros query]. destruct query; [by apply hoare_ret|].
  apply hoare_bind; [apply _|intros kernelbase]. destruct (negb _); [|by apply hoare_ret].
  apply hoare_bind; [apply _|intros q]. apply resolved_query.
Qed.
End Procs.

(** What opening the completion port and the first AFD handle leaves. *)
Definition iocp_made (p : ep_port) (g : ep_afd_group) (R : list resource) (ok : bool) (w : world) : Prop :=
  if ok then exists iocp afd, iocp <> 0 /\
    stocked ((port_iocp p iocp) <| p_afd_available := Some G |>) (g <| g_afd := afd |>) (handle_of iocp ++ handle_of afd ++ R) w
  else exists iocp, stocked (port_iocp p iocp) g (handle_of iocp ++ R) w.
Lemma group_stock p g R iocp afd : iocp <> 0 -> p_afd_group p = Some G ->
  hoare (stocked (port_iocp p iocp) g (handle_of afd ++ handle_of iocp ++ R))
    (group <- rd w_ports (Some a) p_afd_group ;; wr w_groups group g_afd afd ;; wr w_ports (Some a) p_afd_available group ;; ret true)
    (iocp_made p g R).
Proof.
  intros Hi Hg. stock_step. change (p_afd_group (port_iocp p iocp)) with (p_afd_group p). rewrite Hg. apply step_wr_group. stock_step.
  apply hoare_ret. intros w Hw. exists iocp, afd. split; [done|]. eapply stocked_perm; [|exact Hw]. solve_Permutation.
Qed.
Lemma iocp_stock p g R : p_iocp p = 0 -> p_iocp_post_handle p = 0 -> p_afd_group p = Some G ->
  hoare (stocked p g R) (create_iocp (Some a)) (iocp_made p g R).
Proof.
  intros Hi Hph Hg. unfold create_iocp. stock_step. pose proof (iocp_none p Hi Hph) as Hsame.
  destruct (negb _); [apply hoare_ret; intros w Hw; exists 0; by rewrite Hsame|].
  apply (step_acquire _ _ _ _ _ _ _ handle_of); [done|done|]. intros iocp. stock_step.
  destruct (Z.eqb_spec iocp 0) as [->|Hne].
  { do 2 stock_step. apply hoare_ret. intros w Hw. exists 0. rewrite Hsame. rewrite <- Hsame in Hw at 1. rewrite <- Hsame. exact Hw. }
  stock_step. eapply hoare_seq; [by apply afd_open_stock|]. intros [failed afd] w r w' Hw Hrun. cbn [fst snd] in Hw.
  destruct Hw as [[[= -> ->] Hw]|[-> Hw]]; cbn [Z.eqb negb] in Hrun.
  - apply ret_inv in Hrun as [-> ->]. by exists iocp.
  - by eapply group_stock in Hrun.
Qed.

(** *** The stages *)

Definition stage_port (frequency size_hint block entries : Z) (timer query : bool) (iocp : Z) : ep_port :=
  (port_iocp (port_procs (port_entries (port_with frequency (table_for size_hint) block) entries) timer query) iocp)
    <| p_afd_available := Some G |>.
(** Whatever failed, the port names what it holds; a success made it all. *)
Definition staged (R : list resource) (frequency size_hint : Z) (ok : bool) (w : world) : Prop :=
  if ok then exists block entries timer query iocp afd,
    (0 < block <-> 0 < size_hint) /\ 0 <= block /\ 0 < entries /\ iocp <> 0 /\
    stocked (stage_port frequency size_hint block entries timer query iocp) (zero_group <| g_afd := afd |>)
      (handle_of iocp ++ handle_of afd ++ block_of entries ++ block_of block ++ R) w
  else exists p g, p_afd_group p = Some G /\ g_next g = NULL /\ stocked p g (parts p g ++ R) w.

Lemma staged_fail R f size_hint p g R' w : p_afd_group p = Some G -> g_next g = NULL -> R' ≡ₚ parts p g ++ R ->
  stocked p g R' w -> staged R f size_hint false w.
Proof. intros Hp Hg HR Hw. exists p, g. split_and!; try done. by eapply stocked_perm. Qed.

Ltac parts_here := unfold parts; rewrite <- ?app_assoc; apply Permutation_refl'; reflexivity.
Lemma stages_stock R f size_hint :
  hoare (stocked (port_with f [] 0) zero_group R) (create_stages (Some a) size_hint) (fun r => staged R f size_hint r.1).
Proof.
  assert (Hfail : forall p g R' (c : create_flags), p_afd_group p = Some G -> g_next g = NULL -> R' ≡ₚ parts p g ++ R ->
    hoare (stocked p g R') (ret (false, c)) (fun r => staged R f size_hint r.1)).
  { intros p g R' c Hp Hg HR. apply hoare_ret. intros w. by eapply staged_fail. }
  unfold create_stages. stock_step. stock_step. apply hoare_bind; [apply _|intros ready].
  destruct ready; cbn [negb]; [|apply Hfail; [done|done|by parts_here]].
  eapply hoare_seq; [apply table_stock|]. intros table. apply hoare_or; apply hoare_fact; intros ->; cbn [negb]; [apply Hfail; [done|done|by parts_here]|].
  apply hoare_ex. intros block. apply hoare_fact. intros Hb. apply hoare_fact. intros Hb0.
  set (p1 := port_with f (table_for size_hint) block).
  stock_step. destruct (negb _); [apply Hfail; [done|done|by parts_here]|]. stock_step. destruct (negb _); [apply Hfail; [done|done|by parts_here]|]. stock_step.
  apply (step_acquire _ _ _ _ _ _ _ (fun z => block_of (Z.max z 0))); [done|done|]. intros entries. stock_step.
  change ((p1 <| p_iocp_batch_size := 64 |>) <| p_iocp_entries := Z.max entries 0 |>) with (port_entries p1 (Z.max entries 0)).
  destruct (Z.leb_spec entries 0) as [Hle|Hlt].
  { rewrite Z.max_r by done. stock_step. apply Hfail; [done|done|by parts_here]. }
  rewrite Z.max_l by lia. eapply hoare_seq; [by apply procs_stock|]. intros []. apply hoare_ex. intros timer. apply hoare_ex. intros query.
  eapply hoare_seq; [by apply iocp_stock|]. intros opened. apply hoare_ret. intros w Hw. destruct opened.
  - destruct Hw as (iocp & afd & Hi & Hw). exists block, entries, timer, query, iocp, afd. split_and!; try done; lia.
  - destruct Hw as (iocp & Hw). eapply staged_fail; [..|exact Hw]; [done|done|]. by parts_here.
Qed.

(** The mutexes initialised so far. *)
Definition some_locks (held : list port_lock) : Prop :=
  held ∈ [[]; [FD_TABLE_LOCK]; [WAIT_LOCK; FD_TABLE_LOCK]; [WAKE_LOCK; WAIT_LOCK; FD_TABLE_LOCK]; rev port_locks].
Lemma lock_stock p g {B} lock todo held (Q : B -> world -> Prop) k :
  hoare (stocked p g (RLock <$> held)) (k (false, held)) Q ->
  hoare (stocked p g (RLock <$> lock :: held)) (bind (init_locks todo (lock :: held)) k) Q ->
  hoare (stocked p g (RLock <$> held)) (bind (init_locks (lock :: todo) held) k) Q.
Proof.
  intros Hno Hyes. cbn [init_locks]. stock_step. apply (step_acquire _ _ _ _ _ _ _ (fun z => if z =? 0 then [RLock lock] else [])); [done|done|].
  intros z. destruct (z =? 0); cbn [negb app]; [exact Hyes|]. repeat stock_step. exact Hno.
Qed.
Lemma locks_stock p g :
  hoare (stocked p g []) (init_locks port_locks []) (fun r w => some_locks r.2 /\ (r.1 = true -> r.2 = rev port_locks) /\ stocked p g (RLock <$> r.2) w).
Proof.
  assert (Hret : forall ok held, some_locks held -> (ok = true -> held = rev port_locks) -> hoare (stocked p g (RLock <$> held)) (ret (ok, held))
    (fun r w => some_locks r.2 /\ (r.1 = true -> r.2 = rev port_locks) /\ stocked p g (RLock <$> r.2) w)) by (intros ok held H1 H2; by apply hoare_ret).
  apply hoare_then_ret. change [] with (RLock <$> []) at 1. unfold port_locks. do 4 (apply lock_stock; [apply Hret; [unfold some_locks; set_solver|done]|]).
  cbn [init_locks]. stock_step. apply Hret; [unfold some_locks, port_locks; set_solver|done].
Qed.

(** *** Success *)

Definition created_port (frequency size_hint flags block entries : Z) (timer query : bool) (iocp event : Z) : ep_port :=
  (new_port a) <| p_iocp := iocp |> <| p_iocp_post_handle := iocp |> <| p_afd_available := Some G |>
    <| p_udp_probe_event := event |> <| p_udp_probe_read := true |>
    <| p_fd_table := table_for size_hint |> <| p_fd_table_block := block |>
    <| p_iocp_batch_size := 64 |> <| p_iocp_entries := entries |>
    <| p_create_timer := timer |> <| p_query_precise := query |>
    <| p_close_on_exec := has flags EPOLL_CLOEXEC |> <| p_explicit_rearm := has flags WEPOLL_EX_CREATE_EXPLICIT_REARM |>
    <| p_close_drain_timeout_ms := EP_CLOSE_DRAIN_TIMEOUT_MS |> <| p_quarantine_drain_timeout_ms := EP_QUARANTINE_DRAIN_TIMEOUT_MS |>
    <| p_qpc_frequency := frequency |>.
(** The port is complete, and holds what its fields name and its mutexes. *)
Definition created (size_hint flags : Z) (w : world) : Prop :=
  exists frequency block entries timer query iocp event afd,
    let p := created_port frequency size_hint flags block entries timer query iocp event in
    let g := zero_group <| g_afd := afd |> in
    (0 < block <-> 0 < size_hint) /\ 0 <= block /\ 0 < entries /\ iocp <> 0 /\
    w_ports w !! a = Some p /\ w_groups w !! G = Some g /\
    forall x, outstanding w x = outstanding w0 x + times x (parts p g ++ (RLock <$> port_locks)).

Lemma finish_stock frequency size_hint flags :
  hoare (staged (RLock <$> rev port_locks) frequency size_hint true) (create_probe_event (Some a) ;; create_finish (Some a) flags)
    (fun _ => created size_hint flags).
Proof.
  do 6 (apply hoare_ex; intros ?). do 4 (apply hoare_fact; intros ?). rename x into block, x0 into entries, x1 into timer, x2 into query, x3 into iocp, x4 into afd.
  unfold create_probe_event. repeat stock_step. apply (step_acquire _ _ _ _ _ _ _ handle_of); [done|done|]. intros event.
  repeat stock_step. unfold create_finish. do 19 stock_step.
  intros w r w' Hw (c & s & [= <-] & Hs & ->)%wr_inv. destruct Hw as [H1' H2' H3' H4']. rewrite H2' in Hs. injection Hs as <-.
  exists frequency, block, entries, timer, query, iocp, event, afd. cbv zeta. split_and!; try done.
  - sget. rewrite lookup_insert_eq. f_equal.
  - intros x. change (outstanding (set w_ports _ w) x) with (outstanding w x). rewrite H4'. f_equal. apply times_perm.
    unfold parts. cbn. solve_Permutation.
Qed.

(** *** Failure *)

(** Nothing is held that was not held before. *)
Definition level (w : world) : Prop := w_os w = w_os w0 /\ forall x, outstanding w x = outstanding w0 x.
#[export] Instance level_neutral {A} (m : MW A) : Keeps neutral m -> Stable level m.
Proof. intros Hm w r w' [H1 H2] Hrun. destruct (Hm w r w' Hrun) as [E1 E2 _ _]. split; [congruence|]. intros x. by rewrite E2. Qed.
Lemma level_del {T} (H : world -> gmap addr T) `{!Setter H} p :
  (forall w v, w_os (w <| H := v |>) = w_os w /\ w_trace (w <| H := v |>) = w_trace w) -> Stable level (del H p).
Proof.
  intros HH w r w' Hw. unfold del. destruct p as [b|]; [|by intros [= <- <-]]. case_match; [|done]. intros [= <- <-].
  destruct (HH w (delete b (H w))) as [E1 E2]. unfold level, outstanding in *. by rewrite E1, E2.
Qed.
Lemma free_port_level port : Stable level (free_port port).
Proof.
  unfold free_port. apply hoare_bind; [apply _|intros p]. repeat (apply hoare_bind; [by apply level_del|intros ?]). by apply level_del.
Qed.

Lemma close_groups_stock p g R {B} (k : unit -> MW B) (Q : B -> world -> Prop) :
  p_afd_group p = Some G -> g_next g = NULL -> hoare (stocked p (g <| g_afd := 0 |>) R) (k tt) Q ->
  hoare (stocked p g (handle_of (g_afd g) ++ R)) (bind (ep_port_close_afd_groups (Some a)) k) Q.
Proof.
  intros Hp Hg Hk. unfold ep_port_close_afd_groups. stock_step. stock_step. rewrite Hp. stock_step. stock_step.
  match goal with |- context [close_groups_loop ?n _] => destruct n as [|fuel] end; cbn [close_groups_loop]; [done|].
  stock_step. apply step_rd_group. stock_step. destruct (Z.eqb_spec (g_afd g) 0) as [Hz|Hz]; cbn [negb].
  - rewrite Hz. stock_step. stock_step. apply step_rd_group. rewrite Hg. replace (g <| g_afd := 0 |>) with g in Hk by (destruct g; cbn in *; by subst).
    destruct fuel; cbn [close_groups_loop]; stock_step; exact Hk.
  - stock_step. apply (step_release _ _ _ _ _ _ _ R); [done|done|]. intros _. apply step_wr_group. stock_step. apply step_rd_group.
    change (g_next (g <| g_afd := 0 |>)) with (g_next g). rewrite Hg. destruct fuel; cbn [close_groups_loop]; stock_step; exact Hk.
Qed.

Lemma destroy_step p g {B} lock held l l' (k : unit -> MW B) Q :
  lock ∈ held /\ l ≡ₚ lock :: l' \/ lock ∉ held /\ l = l' -> hoare (stocked p g (RLock <$> l')) (k tt) Q ->
  hoare (stocked p g (RLock <$> l)) (bind (destroy_lock held lock) k) Q.
Proof.
  intros Hl Hk. unfold destroy_lock. destruct Hl as [[Hin Hp]|[Hin ->]].
  - rewrite bool_decide_eq_true_2 by done. stock_step. apply (step_release _ _ _ _ _ _ _ (RLock <$> l')); [done|by rewrite Hp|].
    intros _. stock_step. exact Hk.
  - rewrite bool_decide_eq_false_2 by done. stock_step. exact Hk.
Qed.
Lemma locks_level p g {B} held (k : unit -> MW B) Q :
  some_locks held -> hoare level (k tt) Q ->
  hoare (stocked p g (RLock <$> held))
    (destroy_lock held WAIT_LOCK ;; destroy_lock held WAKE_LOCK ;; destroy_lock held IOCP_POST_LOCK ;; bind (destroy_lock held FD_TABLE_LOCK) k) Q.
Proof.
  intros Hh Hk. assert (Hk' : hoare (stocked p g (RLock <$> [])) (k tt) Q).
  { eapply hoare_conseq; [exact Hk| |done]. intros w [H1 _ _ H4]. split; [done|]. intros x. rewrite H4. cbn. lia. }
  unfold some_locks, port_locks in Hh. rewrite !elem_of_cons, elem_of_nil in Hh. cbn [rev app] in Hh.
  destruct Hh as [->|[->|[->|[->|[->|[]]]]]];
    (repeat match goal with |- hoare (stocked _ _ (RLock <$> ?l)) (bind (destroy_lock _ ?lock) _) _ =>
       let l' := eval vm_compute in (filter (fun x => x <> lock) l) in
       apply (destroy_step p g lock _ l l');
         [first [left; split; [set_solver|solve_Permutation]|right; split; [set_solver|reflexivity]]|] end); exact Hk'.
Qed.

Lemma undo_level p g held c :
  some_locks held -> p_afd_group p = Some G -> g_next g = NULL ->
  hoare (stocked p g (parts p g ++ (RLock <$> held))) (create_undo (Some a) held c) (fun _ => level).
Proof.
  intros Hh Hp Hg. unfold create_undo. stock_step.
  eapply (hoare_conseq _ (stocked p g (handle_of (g_afd g) ++ handle_of (p_udp_probe_event p) ++ handle_of (p_iocp p) ++
    block_of (p_iocp_entries p) ++ block_of (p_fd_table_block p) ++ (RLock <$> held))) (fun _ => level) (fun _ => level)); [|intros w; apply stocked_perm; unfold parts; solve_Permutation|done].
  apply close_groups_stock; [done|done|]. stock_step.
  assert (Hclose : forall h R (k : unit -> MW unit) Q, hoare (stocked p (g <| g_afd := 0 |>) R) (k tt) Q ->
    hoare (stocked p (g <| g_afd := 0 |>) (handle_of h ++ R)) (bind (if negb (h =? 0) then os (CloseHandle h) ;; ret tt else ret tt) k) Q).
  { intros h R k Q Hk. unfold handle_of. destruct (h =? 0) eqn:E; cbn [negb]; stock_step; [exact Hk|].
    apply (step_release _ _ _ _ _ _ _ R); [done|cbn [released]; unfold handle_of; by rewrite E|]. intros _. stock_step. exact Hk. }
  apply Hclose, Hclose.
  do 2 (eapply step_release; [done|cbn [released]; reflexivity|intros _]).
  do 3 (apply hoare_bind; [destruct (_ : bool); apply _|intros []]).
  apply locks_level; [done|]. apply hoare_bind; [apply free_port_level|intros []]. apply stable.
Qed.
End Making.

(** ** The whole creation *)

Lemma alloc_port_stock w0 :
  hoare (level w0) alloc_port (fun r w => match r with
    | None => level w0 w
    | Some a => stocked w0 a (port_with a 0 [] 0) zero_group [] w end).
Proof.
  unfold alloc_port. apply hoare_bind; [apply _|intros z]. intros w r w' [H1 H2]. cbv zeta. case_match; intros [= <- <-]; [done|].
  split; [done|sget; apply lookup_insert_eq|sget; apply lookup_insert_eq|]. intros x. cbn [times]. rewrite Z.add_0_r. apply H2.
Qed.

Lemma create_resources w0 size_hint flags out :
  hoare (level w0) (ep_port_create size_hint flags out) (fun r w =>
    r = (-1, NULL) /\ level w0 w \/ exists a, r = (0, Some a) /\ created w0 a size_hint flags w).
Proof.
  assert (Hbad : hoare (level w0) (ret (-1, NULL)) (fun r w => r = (-1, NULL) /\ level w0 w \/ exists a, r = (0, Some a) /\ created w0 a size_hint flags w))
    by (apply hoare_ret; by left).
  unfold ep_port_create. destruct (negb out); [apply hoare_bind; [apply _|intros []]; exact Hbad|].
  apply hoare_bind; [apply _|intros failed]. destruct (negb _); [exact Hbad|].
  eapply hoare_seq; [apply alloc_port_stock|]. intros [a|]; [|apply hoare_bind; [apply _|intros []]; exact Hbad].
  cbv beta iota. change (fun w => stocked w0 a (port_with a 0 [] 0) zero_group [] w) with (stocked w0 a (port_with a 0 [] 0) zero_group []).
  stock_step. stock_step. rename a0 into frequency.
  change ((port_with a 0 [] 0) <| p_qpc_frequency := frequency |>) with (port_with a frequency [] 0).
  eapply hoare_seq; [apply locks_stock|]. intros [locked held]. cbn [fst snd]. apply hoare_fact. intros Hh. apply hoare_fact. intros Hall.
  eapply (hoare_seq _ (fun r w => (r.1 = true -> held = rev port_locks) /\ staged w0 a (RLock <$> held) frequency size_hint r.1 w)).
  { destruct locked; cbn [negb].
    - eapply hoare_conseq; [apply stages_stock|done|]. intros r w Hw. split; [by intros _; apply Hall|exact Hw].
    - apply hoare_ret. intros w Hw. split; [done|]. exists (port_with a frequency [] 0), zero_group. split_and!; [done|done|exact Hw]. }
  intros [ok c]. cbn [fst]. apply hoare_fact. intros Hok. destruct ok; cbn [negb].
  - rewrite (Hok eq_refl). intros w r w' Hw ([] & w1 & H1 & ([] & w2 & H2 & [-> ->]%ret_inv)%bind_inv)%bind_inv.
    right. exists a. split; [done|]. eapply finish_stock; [exact Hw|]. unfold bind. rewrite H1. exact H2.
  - apply hoare_ex. intros p. apply hoare_ex. intros g. apply hoare_fact. intros Hp. apply hoare_fact. intros Hg.
    eapply hoare_seq; [by apply undo_level|]. intros []. exact Hbad.
Qed.
