(* ===== verification/Creation.v ===== *)
(** * Creation of a port: all or nothing

    [ep_port_create] ([src/wepoll_ex_port.c], 4278-4507) makes a port out of
    many parts and gives the parts back when one of them cannot be made.
    [made] says which parts exist at a stage; every stage keeps it or adds its
    part, and the undo path of the code frees exactly those parts. *)
From S2P Require Import Prelude Codes Types Errno Fault Links Pool ReadyQueue Quiet FdTable.
From S2P Require Import AfdOps Groups Keeps Lifecycle Resources.

(** ** Pools side by side *)

(** Two entry heaps agree on the entries of pool [p]. *)
Definition agree (p : addr) (h h' : gmap addr ep_pool_entry) : Prop :=
  forall e en, e_owner en = Some p -> h !! e = Some en <-> h' !! e = Some en.

Lemma agree_inv p r h h' all free out :
  agree p h h' -> pool_inv p r h all free out -> pool_inv p r h' all free out.
Proof.
  intros Ha [Hst Hall Hperm Hnd Hfree Hout Hown Hal Huse Hpk].
  assert (Hentry : forall b e, pool_entry_is p b h e -> pool_entry_is p b h' e).
  { intros b e (en & He & Ho & ?). exists en. split; [by apply Ha|done]. }
  assert (Hin : forall e, e ∈ free ++ out -> h' !! e = h !! e).
  { intros e He. assert (exists en, h !! e = Some en /\ e_owner en = Some p) as (en & Hen & Ho).
    { rewrite Forall_forall in Hfree, Hout. apply elem_of_app in He as [He|He];
        [destruct (Hfree e He) as (en & ? & ? & _)|destruct (Hout e He) as (en & ? & ? & _)]; by exists en. }
    rewrite Hen. by apply Ha. }
  split; try done.
  - eapply chain_ext; [|exact Hst]. intros e He. unfold link. rewrite Hin; [done|]. apply elem_of_app. by left.
  - eapply chain_ext; [|exact Hall]. intros e He. unfold link. rewrite Hin; [done|]. by rewrite <- Hperm.
  - eapply Forall_impl; [exact Hfree|]. apply Hentry.
  - eapply Forall_impl; [exact Hout|]. apply Hentry.
  - intros e en He Ho. eapply Hown; [|exact Ho]. by apply Ha.
Qed.

Lemma agree_rep p w w' free out :
  agree p (w_entries w) (w_entries w') -> w_pools w' !! p = w_pools w !! p ->
  pool_rep w p free out -> pool_rep w' p free out.
Proof.
  intros Ha Hp (r & all & Hr & Hi & Hinv). exists r, all. rewrite Hp. split_and!; [done|done|by eapply agree_inv].
Qed.

(** A new pool's entries are all of that pool: those of any other owner are as
    before. *)
Lemma grown_other p r h h' all free out e en :
  Pool.grown h h' free -> pool_inv p r h' all free out -> e_owner en <> Some p ->
  h' !! e = Some en <-> h !! e = Some en.
Proof.
  intros Hg Hinv Hne. destruct (Hg e) as [Hin Hout]. destruct (decide (e ∈ free)) as [He|He]; [|by rewrite (Hout He)].
  rewrite (Hin He). split; [|done]. intros Hen. pose proof (pi_free _ _ _ _ _ _ Hinv) as Hf.
  rewrite Forall_forall in Hf. destruct (Hf e He) as (x & Hx & Hox & _). congruence.
Qed.

(** ** Operations of one pool leave the others alone *)

Definition other_pools (p : addr) (w w' : world) : Prop := delete p (w_pools w') = delete p (w_pools w).
#[export] Instance other_pools_preorder p : PreOrder (other_pools p).
Proof. split; [by intros w|]. intros w1 w2 w3 H1 H2. unfold other_pools in *. congruence. Qed.

Lemma other_pools_lookup p w w' q : other_pools p w w' -> q <> p -> w_pools w' !! q = w_pools w !! q.
Proof.
  intros H Hne. assert (E : delete p (w_pools w') !! q = delete p (w_pools w) !! q) by (by rewrite H).
  by rewrite !lookup_delete_ne in E by done.
Qed.

#[local] Instance wr_this_pool {T} p (f : ep_afd_pool -> T) `{!Setter f} v : Keeps (other_pools p) (wr w_pools (Some p) f v).
Proof. intros w r w' (a & s & [= <-] & Hs & ->)%wr_inv. unfold other_pools. sget. by rewrite delete_insert_eq. Qed.
#[local] Instance st_this_pool p v : Keeps (other_pools p) (st w_pools (Some p) v).
Proof.
  intros w r w'. unfold st. case_match; [|done]. intros [= <- <-]. unfold other_pools. sget. by rewrite delete_insert_eq.
Qed.
#[local] Instance wr_entries_pools {T} p q (f : ep_pool_entry -> T) `{!Setter f} v : Keeps (other_pools p) (wr w_entries q f v).
Proof. by intros w r w' (a & s & -> & Hs & ->)%wr_inv. Qed.
#[local] Instance del_entries_pools p q : Keeps (other_pools p) (del w_entries q).
Proof. intros w r w'. unfold del. destruct q; [|by intros [= <- <-]]. case_match; [|done]. by intros [= <- <-]. Qed.
#[local] Instance quiet_pools_kept p {A} (m : MW A) : QuietAction m -> Keeps (other_pools p) m | 50.
Proof.
  intros Hm w r w' Hrun. destruct (Hm w) as (r2 & w2 & Hrun2 & Hq). rewrite Hrun in Hrun2. injection Hrun2 as <- <-.
  unfold other_pools. by rewrite (quiet_pools _ _ Hq).
Qed.
#[local] Instance alloc_entries_pools p n v : Keeps (other_pools p) (alloc w_entries n v).
Proof.
  unfold alloc. apply bind_keeps; [apply _|apply _|]. intros a w r w'.
  case_match; [by intros [= <- <-]|]. case_match; by intros [= <- <-].
Qed.

#[local] Instance pool_entries_free_loop_keeps p : forall fuel e, Keeps (other_pools p) (pool_entries_free_loop fuel e).
Proof. induction fuel as [|fuel IH]; intros [e|]; cbn [pool_entries_free_loop]; keeping. Qed.
#[local] Instance pool_entries_free_keeps p e : Keeps (other_pools p) (ep_pool_entries_free e).
Proof. intros w r w' Hrun. by eapply pool_entries_free_loop_keeps. Qed.
#[local] Instance pool_init_loop_keeps p : forall n, Keeps (other_pools p) (pool_init_loop (Some p) n).
Proof.
  induction n as [|n IH]; cbn [pool_init_loop]; [keeping|].
  unfold pool_init_step, ep_pool_entry_alloc. keeping.
Qed.
Lemma pool_init_others p buf_size capacity : Keeps (other_pools p) (ep_afd_pool_init (Some p) buf_size capacity).
Proof. unfold ep_afd_pool_init. keeping. Qed.
Lemma pool_destroy_others p : Keeps (other_pools p) (ep_afd_pool_destroy (Some p)).
Proof. unfold ep_afd_pool_destroy. keeping. Qed.

(** ** The parts of a port *)

(** Every pool entry belongs to a pool. *)
Definition owners_known (w : world) : Prop :=
  forall e en, w_entries w !! e = Some en -> exists p, e_owner en = Some p /\ is_Some (w_pools w !! p).
Definition unowned (p : addr) (w : world) : Prop := forall e en, w_entries w !! e = Some en -> e_owner en <> Some p.

(** The heaps. *)
Definition same_heaps (w w' : world) : Prop :=
  w_ports w' = w_ports w /\ w_queues w' = w_queues w /\ w_nodes w' = w_nodes w /\ w_groups w' = w_groups w /\
  w_pools w' = w_pools w /\ w_entries w' = w_entries w /\ w_socks w' = w_socks w /\ w_afd_infos w' = w_afd_infos w.

Definition embedded (p : ep_port) : ptr * ptr * ptr * ptr * list ptr :=
  (p_ready_queue p, p_afd_group p, p_afd_info_pool p, p_ready_node_pool p, p_fd_table p).

Section Made.
Context (w0 : world) (a : addr).
Let Q := (a + queue_offset)%positive.
Let G := (a + group_offset)%positive.
Let IP := (a + info_pool_offset)%positive.
Let NP := (a + node_pool_offset)%positive.

(** The parts [c] of the port at [a] exist, and nothing else was made since
    [w0]. *)
Record made (c : create_flags) (w : world) : Prop := {
  md_port : exists p t, w_ports w = <[a := p]> (w_ports w0) /\ embedded p = (Some Q, Some G, Some IP, Some NP, t) /\
    Forall (fun slot => slot = NULL) t;
  md_queue : exists q, w_queues w = <[Q := q]> (w_queues w0) /\
    (if c_ready c
     then q_initialized q = true /\ q_queued q = 0 /\ exists stub n, q_stub q = Some stub /\
            w_nodes w0 !! stub = None /\ w_nodes w = <[stub := n]> (w_nodes w0)
     else w_nodes w = w_nodes w0);
  md_group : exists g, w_groups w = <[G := g]> (w_groups w0) /\ g_next g = NULL;
  md_pools : exists i n, w_pools w = <[NP := n]> (<[IP := i]> (w_pools w0));
  md_info : if c_afd_pool c then exists l, pool_rep w IP l [] else unowned IP w;
  md_node : if c_node_pool c then exists l, pool_rep w NP l [] else unowned NP w;
  md_entries e en : e_owner en <> Some IP -> e_owner en <> Some NP ->
    w_entries w !! e = Some en <-> w_entries w0 !! e = Some en;
  md_rest : w_socks w = w_socks w0 /\ w_afd_infos w = w_afd_infos w0 /\ w_os w = w_os w0
}.

Lemma made_quiet c w w' : quiet w w' -> made c w -> made c w'.
Proof. intros (e & i & sl & tr & ->) [H1 H2 H3 H4 H5 H6 H7 H8]. split; done. Qed.

Definition anything (w w' : world) : Prop := True.
#[local] Instance anything_preorder : PreOrder anything.
Proof. done. Qed.
#[local] Instance made_quiet_within c : QuietWithin (made c) anything.
Proof. intros w w' Hq Hm. split; [by eapply made_quiet|done]. Qed.

(** A field of the port other than its embedded objects. *)
Lemma made_wr_port {T} c (f : ep_port -> T) `{!Setter f} v :
  (forall p, embedded (p <| f := v |>) = embedded p) -> Framed (made c) anything (wr w_ports (Some a) f v).
Proof.
  intros Hf w [(p & t & Hp & He) H2 H3 H4 H5 H6 H7 H8]. eapply wp_wr; [rewrite Hp; apply lookup_insert_eq|].
  split; [|done]. split; try done. exists (p <| f := v |>), t. sget. rewrite Hp, insert_insert_eq, Hf. done.
Qed.
#[local] Hint Extern 1 (Framed (made _) _ (wr w_ports _ _ _)) =>
  (notypeclasses refine (made_wr_port _ _ _ _); intros ?; reflexivity) : typeclass_instances.
Lemma made_rd_port {T} c (f : ep_port -> T) : Framed (made c) anything (rd w_ports (Some a) f).
Proof.
  intros w Hm. destruct (md_port _ _ Hm) as (p & t & Hp & He). eapply wp_rd; [rewrite Hp; apply lookup_insert_eq|]. done.
Qed.
#[local] Existing Instance made_rd_port.

Lemma create_procs_made c : Framed (made c) anything (create_procs (Some a)).
Proof. unfold create_procs, get_proc. framed. Qed.
Lemma create_finish_made c flags : Framed (made c) anything (create_finish (Some a) flags).
Proof. unfold create_finish. framed. Qed.
Lemma create_probe_event_made c : Framed (made c) anything (create_probe_event (Some a)).
Proof. unfold create_probe_event. framed. Qed.

Lemma made_group_afd c w g v :
  made c w -> w_groups w !! G = Some g -> made c (w <| w_groups := <[G := g <| g_afd := v |>]> (w_groups w) |>).
Proof.
  intros [H1 H2 (g0 & Hgs & Hnx) H4 H5 H6 H7 H8] Hg. rewrite Hgs, lookup_insert_eq in Hg. injection Hg as ->.
  split; try done. exists (g <| g_afd := v |>). sget. by rewrite Hgs, insert_insert_eq.
Qed.
Lemma first_group_made c afd :
  Framed (made c) anything
    (group <- rd w_ports (Some a) p_afd_group ;; wr w_groups group g_afd afd ;;
     wr w_ports (Some a) p_afd_available group ;; ret true).
Proof.
  intros w Hm. destruct (md_port _ _ Hm) as (p & t & Hp & [= Hq Hg Hi Hn Ht] & _). destruct (md_group _ _ Hm) as (g & Hgs & Hnx).
  apply wp_bind. eapply wp_rd; [rewrite Hp; apply lookup_insert_eq|]. rewrite Hg. apply wp_bind.
  eapply wp_wr; [rewrite Hgs; apply lookup_insert_eq|].
  assert (Hm' : made c (w <| w_groups := <[G := g <| g_afd := afd |>]> (w_groups w) |>))
    by (apply made_group_afd; [done|rewrite Hgs; apply lookup_insert_eq]).
  assert (HF : Framed (made c) anything (wr w_ports (Some a) p_afd_available (Some G) ;; ret true)) by framed.
  exact (HF _ Hm').
Qed.
Lemma create_iocp_made c : Framed (made c) anything (create_iocp (Some a)).
Proof. unfold create_iocp. repeat first [apply first_group_made|framed_step; cbv zeta]. Qed.

(** *** The ready queue *)

(** Only the queue and its nodes changed. *)
Lemma made_queue (b ready i n : bool) w w' q :
  made (mk_create_flags b i n) w ->
  w_ports w' = w_ports w -> w_groups w' = w_groups w -> w_pools w' = w_pools w -> w_entries w' = w_entries w ->
  w_socks w' = w_socks w -> w_afd_infos w' = w_afd_infos w -> w_os w' = w_os w ->
  w_queues w' = <[Q := q]> (w_queues w0) ->
  (if ready then q_initialized q = true /\ q_queued q = 0 /\ exists stub nd, q_stub q = Some stub /\
            w_nodes w0 !! stub = None /\ w_nodes w' = <[stub := nd]> (w_nodes w0)
   else w_nodes w' = w_nodes w0) ->
  made (mk_create_flags ready i n) w'.
Proof.
  intros [H1 H2 H3 H4 H5 H6 H7 H8] E1 E2 E3 E4 E5 E6 E7 Hq Hr.
  split; unfold unowned, pool_rep in *; rewrite ?E1, ?E2, ?E3, ?E4, ?E5, ?E6, ?E7; try done. by exists q.
Qed.

Lemma ready_init_made i n w :
  made (mk_create_flags false i n) w ->
  wp (ep_ready_init (Some Q) ;; rd w_queues (Some Q) q_initialized)
    (fun ready w' => made (mk_create_flags ready i n) w') w.
Proof.
  intros Hm. destruct (md_queue _ _ Hm) as (q & Hq & Hnodes). cbn in Hnodes. unfold ep_ready_init. apply wp_bind, wp_bind.
  eapply wp_run; [eapply st_some; rewrite Hq; apply lookup_insert_eq|]. apply wp_bind, wp_alloc; [done|intros tr..].
  - wsteps. eapply wp_mono; [apply set_errno_quiet|]. intros _ w1 [Hqt _].
    assert (Hm1 : made (mk_create_flags false i n) w1).
    { eapply made_quiet; [exact Hqt|].
      eapply (made_queue false false i n w _ (mk_ready_queue NULL NULL NULL 0 false)); try done.
      sget. by rewrite Hq, !insert_insert_eq. }
    assert (Hq1 : w_queues w1 !! Q = Some (mk_ready_queue NULL NULL NULL 0 false)).
    { destruct Hqt as (? & ? & ? & ? & ->). sget. apply lookup_insert_eq. }
    by wsteps.
  - intros stub Hs. change (w_nodes w !! stub = None) in Hs. wsteps. rewrite Hnodes in Hs. eapply (made_queue false true i n w); try done.
    + sget. by rewrite Hq, !insert_insert_eq.
    + split_and!; [done|done|]. eexists stub, _. split_and!; [done|done|]. sget. rewrite ?insert_insert_eq, Hnodes. reflexivity.
Qed.

Lemma ready_init_stage i n w :
  made (mk_create_flags false i n) w ->
  wp (ep_ready_init (Some Q)) (fun _ w' => exists q, w_queues w' !! Q = Some q /\
    made (mk_create_flags (q_initialized q) i n) w') w.
Proof.
  intros Hm. destruct (ready_init_made i n w Hm) as (ready & w' & (u & w1 & H1 & H2)%bind_inv & Hm').
  apply rd_inv in H2 as (? & q & [= <-] & Hq & -> & ->). eapply wp_run; [exact H1|]. by exists q.
Qed.

(** *** The pools *)

Lemma made_pools c c' w w' :
  made c w -> pool_frame w w' -> c_ready c' = c_ready c ->
  (exists i n, w_pools w' = <[NP := n]> (<[IP := i]> (w_pools w0))) ->
  (if c_afd_pool c' then exists l, pool_rep w' IP l [] else unowned IP w') ->
  (if c_node_pool c' then exists l, pool_rep w' NP l [] else unowned NP w') ->
  (forall e en, e_owner en <> Some IP -> e_owner en <> Some NP -> w_entries w' !! e = Some en <-> w_entries w !! e = Some en) ->
  made c' w'.
Proof.
  intros [H1 H2 H3 H4 H5 H6 H7 H8] Hf Hc Hp Hi Hn He. unfold pool_frame in Hf.
  assert (E1 : w_ports w' = w_ports w) by (rewrite Hf; reflexivity).
  assert (E2 : w_queues w' = w_queues w) by (rewrite Hf; reflexivity).
  assert (E3 : w_nodes w' = w_nodes w) by (rewrite Hf; reflexivity).
  assert (E4 : w_groups w' = w_groups w) by (rewrite Hf; reflexivity).
  assert (E5 : w_socks w' = w_socks w) by (rewrite Hf; reflexivity).
  assert (E6 : w_afd_infos w' = w_afd_infos w) by (rewrite Hf; reflexivity).
  assert (E7 : w_os w' = w_os w) by (rewrite Hf; reflexivity). clear Hf.
  split; try done; rewrite ?E1, ?E2, ?E3, ?E4, ?E5, ?E6, ?E7, ?Hc; try done.
  intros e en Ho1 Ho2. by rewrite He, H7.
Qed.

Lemma pools_of p w w' r :
  p = IP \/ p = NP -> (exists i n, w_pools w = <[NP := n]> (<[IP := i]> (w_pools w0))) ->
  other_pools p w w' -> w_pools w' !! p = Some r -> exists i n, w_pools w' = <[NP := n]> (<[IP := i]> (w_pools w0)).
Proof.
  intros Hp (i & n & Hpools) Ho Hr. assert (Hne : NP <> IP) by (unfold NP, IP, node_pool_offset, info_pool_offset; lia).
  assert (E : w_pools w' = <[p := r]> (w_pools w)).
  { rewrite <- (insert_delete_id (w_pools w') p r Hr), Ho. by rewrite insert_delete_eq. }
  rewrite E, Hpools. destruct Hp as [-> | ->].
  - exists r, n. by rewrite insert_insert_ne, insert_insert_eq.
  - exists i, r. by rewrite insert_insert_eq.
Qed.

(** What an operation of pool [p] does to the rest of the port under
    construction; [p'] is the other pool. *)
Record beside (p p' : addr) (w w' : world) : Prop := {
  bs_frame : pool_frame w w';
  bs_pools : exists i n, w_pools w' = <[NP := n]> (<[IP := i]> (w_pools w0));
  bs_other : w_pools w' !! p' = w_pools w !! p';
  bs_entries e en : e_owner en <> Some p -> w_entries w' !! e = Some en <-> w_entries w !! e = Some en
}.

Lemma beside_unowned p p' w w' : beside p p' w w' -> p' <> p -> unowned p' w -> unowned p' w'.
Proof.
  intros Hb Hne Hu e en He Ho. apply (Hu e en); [|done]. apply (bs_entries _ _ _ _ Hb); [|done]. congruence.
Qed.
Lemma beside_rep p p' w w' l : beside p p' w w' -> p' <> p -> pool_rep w p' l [] -> pool_rep w' p' l [].
Proof.
  intros Hb Hne. apply agree_rep; [|apply (bs_other _ _ _ _ Hb)]. intros e en Ho. symmetry.
  apply (bs_entries _ _ _ _ Hb). congruence.
Qed.
Lemma beside_part (b : bool) p p' w w' :
  beside p p' w w' -> p' <> p -> (if b then exists l, pool_rep w p' l [] else unowned p' w) ->
  if b then exists l, pool_rep w' p' l [] else unowned p' w'.
Proof.
  intros Hb Hne. destruct b; [|by apply beside_unowned with p]. intros [l Hl]. exists l. by eapply beside_rep.
Qed.

Lemma pool_init_beside p p' c w bs cap :
  p = IP \/ p = NP -> p' <> p -> made c w -> unowned p w -> 0 < bs -> 0 < cap < 2 ^ 64 ->
  wp (ep_afd_pool_init (Some p) bs cap) (fun z w' => beside p p' w w' /\
    ((z = 0 /\ exists l, pool_rep w' p l []) \/ (z = -1 /\ unowned p w'))) w.
Proof.
  intros Hp Hne Hm Hu Hbs Hcap. destruct (md_pools _ _ Hm) as (i & n & Hpools).
  assert (exists r0, w_pools w !! p = Some r0) as [r0 Hr0].
  { rewrite Hpools. destruct Hp as [-> | ->]; [|rewrite lookup_insert_eq; by eexists].
    rewrite lookup_insert_ne, lookup_insert_eq; [by eexists|]. unfold NP, IP, node_pool_offset, info_pool_offset. lia. }
  destruct (pool_init_all_or_nothing w p r0 bs cap Hr0 Hu Hbs Hcap) as (z & w' & Hrun & Hf & Hres).
  pose proof (pool_init_others p bs cap w z w' Hrun) as Ho. eapply wp_run; [exact Hrun|].
  assert (Hbe : (exists r, w_pools w' !! p = Some r) ->
    (forall e en, e_owner en <> Some p -> w_entries w' !! e = Some en <-> w_entries w !! e = Some en) -> beside p p' w w').
  { intros [r Hr] He. split; [done| |by eapply other_pools_lookup|done]. eapply pools_of; eauto using md_pools. }
  destruct Hres as [(-> & free & (r & all & Hr & Hi & Hinv) & _ & Hg)|(-> & He & r & Hr & _)].
  - split; [apply Hbe; [by exists r|intros e en; by eapply grown_other]|]. left. split; [done|]. by exists free, r, all.
  - split; [apply Hbe; [by exists r|by rewrite He]|]. right. split; [done|]. unfold unowned. by rewrite He.
Qed.

Lemma pool_destroy_beside p p' c w l :
  p = IP \/ p = NP -> p' <> p -> made c w -> pool_rep w p l [] -> (forall k, w_os w0 k PthreadMutexLock = 0) ->
  wp (ep_afd_pool_destroy (Some p)) (fun _ w' => beside p p' w w' /\ unowned p w') w.
Proof.
  intros Hp Hne Hm Hl Hlock. destruct (pool_destroy_outcome w p l [] Hl) as (w' & Hrun & Hf & Hres). cbv zeta in Hres.
  pose proof (pool_destroy_others p w tt w' Hrun) as Ho. eapply wp_run; [exact Hrun|].
  destruct (md_rest _ _ Hm) as (_ & _ & Hos). rewrite Hos, Hlock, decide_True in Hres by done.
  destruct Hres as (He & r & Hr & _). split.
  - split; [done| |by eapply other_pools_lookup|]; [eapply pools_of; eauto using md_pools|].
    intros e en Hown. rewrite He. tauto.
  - intros e en Hen. by apply He in Hen as [_ Hen].
Qed.

Lemma made_beside c c' p p' w w' :
  (p = IP /\ p' = NP) \/ (p = NP /\ p' = IP) -> made c w -> beside p p' w w' -> c_ready c' = c_ready c ->
  (if c_afd_pool c' then exists l, pool_rep w' IP l [] else unowned IP w') ->
  (if c_node_pool c' then exists l, pool_rep w' NP l [] else unowned NP w') -> made c' w'.
Proof.
  intros Hp Hm [Hf Hpools _ He] Hc Hi Hn. eapply made_pools; try done. intros e en Ho1 Ho2. apply He.
  destruct Hp as [[-> _]|[-> _]]; done.
Qed.

Lemma pools_differ : NP <> IP.
Proof. unfold NP, IP, node_pool_offset, info_pool_offset. lia. Qed.

Lemma info_init_made r n w bs cap :
  made (mk_create_flags r false n) w -> 0 < bs -> 0 < cap < 2 ^ 64 ->
  wp (ep_afd_pool_init (Some IP) bs cap) (fun z w' =>
    (z = 0 /\ made (mk_create_flags r true n) w') \/ (z = -1 /\ made (mk_create_flags r false n) w')) w.
Proof.
  intros Hm Hbs Hcap. pose proof pools_differ as Hne.
  eapply wp_mono; [eapply (pool_init_beside IP NP); try done; [by left|apply (md_info _ _ Hm)]|].
  intros z w' [Hb [[-> Hl]|[-> Hu]]]; [left|right]; (split; [done|]);
    (eapply (made_beside _ _ IP NP w); [by left|exact Hm|exact Hb|done|done|]); exact (beside_part n _ _ _ _ Hb Hne (md_node _ _ Hm)).
Qed.
Lemma node_init_made r i w bs cap :
  made (mk_create_flags r i false) w -> 0 < bs -> 0 < cap < 2 ^ 64 ->
  wp (ep_afd_pool_init (Some NP) bs cap) (fun z w' =>
    (z = 0 /\ made (mk_create_flags r i true) w') \/ (z = -1 /\ made (mk_create_flags r i false) w')) w.
Proof.
  intros Hm Hbs Hcap. pose proof (not_eq_sym pools_differ) as Hne.
  eapply wp_mono; [eapply (pool_init_beside NP IP); try done; [by right|apply (md_node _ _ Hm)]|].
  intros z w' [Hb [[-> Hl]|[-> Hu]]]; [left|right]; (split; [done|]);
    (eapply (made_beside _ _ NP IP w); [by right|exact Hm|exact Hb|done| |done]); exact (beside_part i _ _ _ _ Hb Hne (md_info _ _ Hm)).
Qed.

(** *** The table *)

Lemma rehash_empty old t w : Forall (fun slot => slot = NULL) old -> fd_rehash old t w = Some (t, w).
Proof. intros H. induction H as [|x old -> _ IH]; [done|exact IH]. Qed.

Lemma table_grow_made c size : Framed (made c) anything (ep_fd_table_grow (Some a) size).
Proof.
  unfold ep_fd_table_grow. framed_step; [framed|]. framed_step; [typeclasses eauto|]. framed_step; [framed|].
  intros w Hm. destruct (md_port _ _ Hm) as (p & t & Hp & Hemb & Ht). apply wp_bind.
  eapply wp_rd; [rewrite Hp; apply lookup_insert_eq|]. injection Hemb as Hq Hg Hi Hn Htab. rewrite Htab.
  apply wp_bind. eapply wp_run; [by apply rehash_empty|]. apply wp_bind. eapply wp_rd; [rewrite Hp; apply lookup_insert_eq|].
  apply wp_bind, wp_os. apply wp_bind. eapply wp_wr; [sget; rewrite Hp; apply lookup_insert_eq|]. apply wp_bind.
  eapply wp_wr; [sget; apply lookup_insert_eq|]. apply wp_ret. split; [|done].
  destruct Hm as [_ H2 H3 H4 H5 H6 H7 H8]. split; try done. eexists _, (replicate (Z.to_nat size) NULL). sget.
  rewrite Hp, !insert_insert_eq. split; [done|]. unfold embedded. sget. rewrite Hq, Hg, Hi, Hn. split; [done|].
  apply Forall_replicate. done.
Qed.
#[local] Existing Instance table_grow_made.
Lemma create_table_made c size_hint : Framed (made c) anything (create_table (Some a) size_hint).
Proof. unfold create_table. framed. Qed.

(** *** Undoing *)

Lemma close_groups_made c : Framed (made c) anything (ep_port_close_afd_groups (Some a)).
Proof.
  intros w Hm. destruct (md_port _ _ Hm) as (p & t & Hp & Hemb & Ht). destruct (md_group _ _ Hm) as (g & Hgs & Hnx).
  unfold ep_port_close_afd_groups. apply wp_bind. eapply wp_rd; [rewrite Hp; apply lookup_insert_eq|].
  injection Hemb as Hq Hg Hi Hn Htab. rewrite Hg. wsteps.
  assert (Hg' : w_groups w !! G = Some g) by (rewrite Hgs; apply lookup_insert_eq).
  assert (exists k, size (w_groups w) = S k) as [k ->].
  { rewrite <- (insert_delete_id _ _ _ Hg'), map_size_insert_None by apply lookup_delete_eq. by eexists. }
  cbn [close_groups_loop]. wsteps. wif; wsteps; rewrite Hnx; destruct k; apply wp_ret; (split; [|done]); try done.
  all: pose proof (made_group_afd c (w <| w_trace ::= cons (CloseHandle (g_afd g)) |>) g 0) as Hmg; sget_in Hmg;
    apply Hmg; [|done]; eapply made_quiet; [apply (quiet_trace w (_ :: w_trace w))|done].
Qed.

Hypothesis Hlock : forall k, w_os w0 k PthreadMutexLock = 0.

Lemma node_destroy_made r i n w :
  made (mk_create_flags r i n) w ->
  wp (if n then ep_afd_pool_destroy (Some NP) else ret tt) (fun _ w' => made (mk_create_flags r i false) w') w.
Proof.
  intros Hm. destruct n; [|by apply wp_ret]. pose proof (not_eq_sym pools_differ) as Hne.
  destruct (md_node _ _ Hm) as [l Hl]. eapply wp_mono; [eapply (pool_destroy_beside NP IP); try done; by right|].
  intros _ w' [Hb Hu]. eapply (made_beside _ _ NP IP w); [by right|exact Hm|exact Hb|done| |done].
  exact (beside_part i _ _ _ _ Hb Hne (md_info _ _ Hm)).
Qed.
Lemma info_destroy_made r i n w :
  made (mk_create_flags r i n) w ->
  wp (if i then ep_afd_pool_destroy (Some IP) else ret tt) (fun _ w' => made (mk_create_flags r false n) w') w.
Proof.
  intros Hm. destruct i; [|by apply wp_ret]. pose proof pools_differ as Hne.
  destruct (md_info _ _ Hm) as [l Hl]. eapply wp_mono; [eapply (pool_destroy_beside IP NP); try done; by left|].
  intros _ w' [Hb Hu]. eapply (made_beside _ _ IP NP w); [by left|exact Hm|exact Hb|done|done|].
  exact (beside_part n _ _ _ _ Hb Hne (md_node _ _ Hm)).
Qed.
Lemma ready_destroy_made r i n w :
  made (mk_create_flags r i n) w ->
  wp (if r then ep_ready_destroy (Some Q) else ret tt) (fun _ w' => made (mk_create_flags false i n) w') w.
Proof.
  intros Hm. destruct r; [|by apply wp_ret]. destruct (md_queue _ _ Hm) as (q & Hq & Hi & Hz & stub & nd & Hs & Hfree & Hn).
  assert (Hq' : w_queues w !! Q = Some q) by (rewrite Hq; apply lookup_insert_eq).
  unfold ep_ready_destroy. wsteps. rewrite Hi. cbn [negb]. wsteps. rewrite Hz. cbn [negb Z.eqb]. wsteps. rewrite Hs.
  eapply wp_del; [sget; rewrite Hn; apply lookup_insert_eq|]. wsteps.
  eapply (made_queue true false i n w); try done.
  - sget. rewrite ?insert_insert_eq, Hq, ?insert_insert_eq. reflexivity.
  - sget. by rewrite Hn, delete_insert_id.
Qed.

Lemma destroyed_entries w :
  owners_known w0 -> w_pools w0 !! IP = None -> w_pools w0 !! NP = None ->
  made (mk_create_flags false false false) w -> w_entries w = w_entries w0.
Proof.
  intros Hk Hi Hn Hm. pose proof (md_info _ _ Hm) as Hui. pose proof (md_node _ _ Hm) as Hun. cbn in Hui, Hun.
  assert (H0 : forall e en, w_entries w0 !! e = Some en -> e_owner en <> Some IP /\ e_owner en <> Some NP).
  { intros e en He. destruct (Hk e en He) as (q & -> & [r Hr]). split; intros [= ->]; congruence. }
  apply map_eq. intros e. apply option_eq. intros en. split; intros He.
  - apply (md_entries _ _ Hm); [by eapply Hui|by eapply Hun|done].
  - destruct (H0 e en He). by apply (md_entries _ _ Hm).
Qed.

Hypothesis Hfresh : w_ports w0 !! a = None /\ w_queues w0 !! Q = None /\ w_groups w0 !! G = None /\
  w_pools w0 !! IP = None /\ w_pools w0 !! NP = None.
Hypothesis Hknown : owners_known w0.

Lemma free_port_made w :
  made (mk_create_flags false false false) w -> wp (free_port (Some a)) (fun _ w' => same_heaps w0 w') w.
Proof.
  intros Hm. destruct Hfresh as (F1 & F2 & F3 & F4 & F5). pose proof (destroyed_entries w Hknown F4 F5 Hm) as He.
  destruct (md_port _ _ Hm) as (p & t & Hp & [= Eq Eg Ei En _] & _). destruct (md_queue _ _ Hm) as (q & Hq & Hnodes).
  destruct (md_group _ _ Hm) as (g & Hg & _). destruct (md_pools _ _ Hm) as (i & n & Hpools).
  destruct (md_rest _ _ Hm) as (Hs & Hinfo & _). pose proof pools_differ as Hne.
  assert (Hp' : w_ports w !! a = Some p) by (rewrite Hp; apply lookup_insert_eq).
  unfold free_port. wsteps. rewrite Eq, Eg, Ei, En. eapply wp_del; [rewrite Hq; apply lookup_insert_eq|]. wsteps.
  eapply wp_del; [sget; rewrite Hg; apply lookup_insert_eq|]. wsteps.
  eapply wp_del; [sget; rewrite Hpools, lookup_insert_ne by done; apply lookup_insert_eq|]. wsteps.
  eapply wp_del; [sget; rewrite Hpools, lookup_delete_ne by done; apply lookup_insert_eq|].
  eapply wp_del; [sget; exact Hp'|]. unfold same_heaps. sget.
  rewrite Hp, Hq, Hg, Hpools, !delete_insert_id by done. split_and!; try done.
  apply map_eq. intros x. destruct (decide (x = NP)) as [->|]; [by rewrite lookup_delete_eq|].
  rewrite lookup_delete_ne by done. destruct (decide (x = IP)) as [->|]; [by rewrite lookup_delete_eq|].
  by rewrite lookup_delete_ne, !lookup_insert_ne by done.
Qed.

Lemma destroy_lock_made c held lock : Framed (made c) anything (destroy_lock held lock).
Proof. unfold destroy_lock. framed. Qed.
Lemma init_locks_made c : forall todo held, Framed (made c) anything (init_locks todo held).
Proof. induction todo as [|lock todo IH]; intros held; cbn [init_locks]; framed. Qed.

Lemma create_undo_made held c w : made c w -> wp (create_undo (Some a) held c) (fun _ w' => same_heaps w0 w') w.
Proof.
  intros Hm. destruct c as [r i n]. unfold create_undo. cbn [c_ready c_afd_pool c_node_pool].
  eapply wp_seq; [apply (get_last_error_info_quiet w)|]. intros saved w1 Hq1. eapply made_quiet in Hm; [|exact Hq1].
  eapply wp_seq; [by apply close_groups_made|]. intros _ w2 [Hm2 _].
  destruct (md_port _ _ Hm2) as (p & t & Hp & [= Eq Eg Ei En _] & _). apply wp_bind.
  eapply wp_rd; [rewrite Hp; apply lookup_insert_eq|]. rewrite Eq, Ei, En.
  assert (HF1 : Framed (made (mk_create_flags r i n)) anything
    (if negb (p_udp_probe_event p =? 0) then os (CloseHandle (p_udp_probe_event p)) ;; ret tt else ret tt)) by framed.
  assert (HF2 : Framed (made (mk_create_flags r i n)) anything
    (if negb (p_iocp p =? 0) then os (CloseHandle (p_iocp p)) ;; ret tt else ret tt)) by framed.
  eapply wp_seq; [by apply HF1|]. intros _ w3 [Hm3 _]. eapply wp_seq; [by apply HF2|]. intros _ w4' [Hm4' _].
  eapply wp_seq; [apply os_quiet|]. intros ? w4'' Hq4. eapply made_quiet in Hm4'; [|exact Hq4].
  eapply wp_seq; [apply os_quiet|]. intros ? w4 Hq5. eapply made_quiet in Hm4'; [|exact Hq5]. rename Hm4' into Hm4.
  eapply wp_seq; [by apply node_destroy_made|]. intros [] w5 Hm5. eapply wp_seq; [by apply info_destroy_made|]. intros [] w6 Hm6.
  eapply wp_seq; [by apply ready_destroy_made|]. intros [] w7 Hm7. do 4 (eapply wp_seq; [by apply destroy_lock_made|]; clear Hm7; intros [] ? [Hm7 _]).
  eapply wp_seq; [by apply free_port_made|]. intros [] w8 Hs8.
  eapply wp_mono; [apply (restore_last_error_info_quiet saved w8)|]. intros _ w9 (? & ? & ? & ? & ->). exact Hs8.
Qed.

Lemma pool_capacity_range size_hint : 0 < pool_capacity_hint size_hint < 2 ^ 64.
Proof. unfold pool_capacity_hint, WEPOLL_AFD_POOL_SIZE, EP_MAX_SIZE_HINT. destruct (0 <? size_hint); lia. Qed.

Lemma create_stages_made size_hint w :
  made (mk_create_flags false false false) w ->
  wp (create_stages (Some a) size_hint) (fun r w' => made r.2 w' /\ (r.1 = true -> r.2 = mk_create_flags true true true)) w.
Proof.
  intros Hm. unfold create_stages. cbv zeta.
  destruct (md_port _ _ Hm) as (p & t & Hp & [= Eq Eg Ei En _] & _). apply wp_bind.
  eapply wp_rd; [rewrite Hp; apply lookup_insert_eq|]. rewrite Eq, Ei, En.
  eapply wp_seq; [by apply ready_init_stage|]. intros [] w2 (q & Hq & Hm2). apply wp_bind. eapply wp_rd; [exact Hq|].
  destruct (q_initialized q); cbn [negb]; [|by apply wp_ret].
  eapply wp_seq; [by apply create_table_made|]. intros table w3 [Hm3 _]. destruct table; cbn [negb]; [|by apply wp_ret].
  pose proof (pool_capacity_range size_hint) as Hcap.
  eapply wp_seq; [by apply info_init_made|]. intros z w4 [[-> Hm4]|[-> Hm4]]; cbn [Z.eqb negb]; [|by apply wp_ret].
  eapply wp_seq; [by apply node_init_made|]. intros z w5 [[-> Hm5]|[-> Hm5]]; cbn [Z.eqb negb]; [|by apply wp_ret].
  eapply wp_seq; [by apply made_wr_port|]. intros [] w6 [Hm6 _].
  eapply wp_seq; [apply os_quiet|]. intros entries w7 Hq7. eapply made_quiet in Hm6; [|exact Hq7].
  eapply wp_seq; [by apply made_wr_port|]. intros [] w7' [Hm6' _]. clear w6 w7 Hm6 Hq7. rename w7' into w7, Hm6' into Hm6. destruct (entries <=? 0).
  { eapply wp_seq; [apply set_errno_quiet|]. intros [] w8 [Hq8 _]. eapply made_quiet in Hm6; [|exact Hq8]. by apply wp_ret. }
  eapply wp_seq; [by apply create_procs_made|]. intros [] w8 [Hm8 _].
  eapply wp_seq; [by apply create_iocp_made|]. intros opened w9 [Hm9 _]. by apply wp_ret.
Qed.
End Made.

(** ** The whole creation *)

Lemma alloc_port_made w :
  wp alloc_port (fun r w' => (r = NULL /\ quiet w w') \/
    exists a, r = Some a /\ (w_ports w !! a = None /\ w_queues w !! (a + queue_offset)%positive = None /\
      w_groups w !! (a + group_offset)%positive = None /\ w_pools w !! (a + info_pool_offset)%positive = None /\
      w_pools w !! (a + node_pool_offset)%positive = None) /\
      (owners_known w -> made w a (mk_create_flags false false false) w')) w.
Proof.
  unfold alloc_port. apply wp_bind, wp_os. cbv zeta. set (a := Z.to_pos _). set (w1 := set w_trace _ w).
  unfold wp. case_match eqn:Hb.
  - eexists _, _. split; [reflexivity|]. left. split; [done|apply quiet_trace].
  - eexists _, _. split; [reflexivity|]. right. exists a. split; [done|]. rewrite !orb_false_iff, !bool_decide_eq_false in Hb.
    destruct Hb as (((((_ & F1) & F2) & F3) & F4) & F5).
    assert (F : forall (T : Type) (o : option T), ~ is_Some o -> o = None) by (intros T [x|] Hn; [|done]; by destruct Hn; exists x).
    apply F in F1, F2, F3, F4, F5. split; [done|]. intros Hk.
    assert (Hun : forall q, w_pools w !! q = None -> unowned q w).
    { intros q Hq e en He Ho. destruct (Hk e en He) as (q' & Eq & [r Hr]). congruence. }
    split; try done.
    + eexists _, []. split; [reflexivity|]. split; [reflexivity|constructor].
    + eexists. split; [reflexivity|done].
    + eexists. split; [reflexivity|done].
    + eexists _, _. reflexivity.
    + exact (Hun _ F4).
    + exact (Hun _ F5).
Qed.

(** Initialisation of the process touches no heap. *)
Definition quiet_global (w w' : world) : Prop := same_heaps w w' /\ w_os w' = w_os w.
#[local] Instance quiet_global_preorder : PreOrder quiet_global.
Proof.
  split; [by intros w|]. unfold quiet_global, same_heaps. intros w1 w2 w3 H1 H2. destruct_and!. split_and!; congruence.
Qed.
#[local] Instance quiet_global_within : QuietWithin (fun _ => True) quiet_global.
Proof. intros w w' (e & i & sl & tr & ->) _. by split. Qed.
Lemma put_global {T} (f : world -> T) `{!Setter f} v :
  (forall w, quiet_global w (w <| f := v |>)) -> Framed (fun _ => True) quiet_global (put f v).
Proof. intros Hf w _. apply wp_put. split; [done|apply Hf]. Qed.
#[local] Hint Extern 1 (Framed _ _ (put _ _)) => (notypeclasses refine (put_global _ _ _); intros ?; by split) : typeclass_instances.
Lemma global_init_heaps : Framed (fun _ => True) quiet_global ep_global_init.
Proof. unfold ep_global_init, ep_global_init_once, api_put, get_proc. framed. Qed.

Lemma made_base w w1 a c w' : quiet_global w w1 -> made w1 a c w' -> made w a c w'.
Proof.
  intros [(E1 & E2 & E3 & E4 & E5 & E6 & E7 & E8) E9] [H1 H2 H3 H4 H5 H6 H7 H8].
  split; rewrite <- ?E1, <- ?E2, <- ?E3, <- ?E4, <- ?E5, <- ?E6, <- ?E7, <- ?E8, <- ?E9; done.
Qed.

Lemma port_create_heaps w size_hint flags out :
  owners_known w -> (forall k, w_os w k PthreadMutexLock = 0) ->
  wp (ep_port_create size_hint flags out) (fun r w' =>
    (r = (-1, NULL) /\ same_heaps w w') \/
    (exists a, r = (0, Some a) /\ w_ports w !! a = None /\ made w a (mk_create_flags true true true) w')) w.
Proof.
  intros Hk Hlock. unfold ep_port_create. destruct out; cbn [negb].
  2:{ eapply wp_seq; [apply set_errno_quiet|]. intros [] w1 [Hq _]. apply wp_ret. left. split; [done|].
      by destruct Hq as (? & ? & ? & ? & ->). }
  eapply wp_seq; [by apply global_init_heaps|]. intros failed w1 [_ Hg]. pose proof Hg as [Hs Hos].
  destruct (negb (failed =? 0)); [apply wp_ret; by left|].
  assert (Hk1 : owners_known w1) by (unfold owners_known; destruct Hs as (_ & _ & _ & _ & -> & -> & _); done).
  assert (Hlock1 : forall k, w_os w1 k PthreadMutexLock = 0) by (intros k; by rewrite Hos).
  eapply wp_seq; [apply alloc_port_made|]. intros port w2 [[-> Hq]|(a & -> & Hfresh & Hm)].
  { eapply wp_seq; [apply set_errno_quiet|]. intros [] w3 [Hq3 _]. apply wp_ret. left. split; [done|].
    assert (Hq13 : quiet w1 w3) by (by etrans). destruct Hq13 as (? & ? & ? & ? & ->). exact Hs. }
  specialize (Hm Hk1). eapply wp_seq; [apply os_quiet|]. intros frequency w3 Hq3. eapply made_quiet in Hm; [|exact Hq3].
  eapply wp_seq; [by apply made_wr_port|]. intros [] w4 [Hm4 _].
  eapply wp_seq; [by apply init_locks_made|]. intros [locked held] w4' [Hm4' _]. cbn [fst snd].
  eapply (wp_seq _ _ (fun r w' => made w1 a r.2 w' /\ (r.1 = true -> r.2 = mk_create_flags true true true))).
  { destruct locked; cbn [negb]; [by apply create_stages_made|by apply wp_ret]. }
  intros [ok c] w5 [Hm5 Hok]. cbn in Hm5, Hok. destruct ok; cbn [negb].
  - rewrite (Hok eq_refl) in Hm5. eapply wp_seq; [by apply create_probe_event_made|]. intros [] w6 [Hm6 _].
    eapply wp_seq; [by apply create_finish_made|]. intros [] w7 [Hm7 _]. apply wp_ret. right. exists a. split; [done|].
    split; [|by eapply made_base]. destruct Hs as (<- & _). apply Hfresh.
  - eapply wp_seq; [by apply (create_undo_made w1 a)|]. intros [] w6 Hs6. apply wp_ret. left. split; [done|].
    unfold same_heaps in *. destruct_and!. split_and!; congruence.
Qed.


(** A platform whose completion port cannot be created: creation fails after the
    locks, the queue, the table and both pools were made. *)
Definition no_iocp_os (tr : list os_request) (r : os_request) : Z :=
  match r with
  | Malloc _ | CallocArray _ _ => 1000 + 100 * Z.of_nat (length tr)
  | GetModuleHandleW _ | GetProcAddress _ _ => 7
  | _ => 0
  end.
Definition no_iocp_world : world := empty_world <| w_os := no_iocp_os |>.

(** One that answers every call. *)
Definition good_os (tr : list os_request) (r : os_request) : Z :=
  match r with
  | NtCreateFile | CreateIoCompletionPort _ _ | SetFileCompletionNotificationModes _ | CreateEventW => 500 + Z.of_nat (length tr)
  | _ => no_iocp_os tr r
  end.
Definition good_world : world := empty_world <| w_os := good_os |>.

