(* ===== verification/PosixTypes.v ===== *)
(** * Data of the POSIX backend

    The structures of [src/wepoll_ex_posix.c], the bytes of the two event
    records, and the platform: the system calls and library functions the backend
    uses are the operations of a class, with an abstract kernel state.  Errors are
    returned as negative numbers by the calls of [Linux] and become [errno] in the
    library layer ([libc]), as on Linux. *)
From S2P Require Import Prelude Codes Errno Timeout.

(** ** Linux error numbers that differ from those of the Microsoft runtime *)

Definition LINUX_EINTR : Z := 4.
Definition LINUX_ENOSYS : Z := 38.
Definition LINUX_EOVERFLOW : Z := 75.
Definition LINUX_EOPNOTSUPP : Z := 95.

Definition POSIX_PORT_MAP_SIZE : Z := 1024.
Definition POSIX_WAKE_TOKEN : Z := 0x5745504f4c4c4558.
Definition POSIX_N_BUCKETS : Z := 1024.
Definition S_IFMT : Z := 0xF000.

(** ** Structures *)

(** [struct epoll_event]; [data] is the [u64] member of the union. *)
Record epoll_event := mk_event {
  ev_events : Z;
  ev_data : Z
}.
#[export] Instance eta_epoll_event : Eta epoll_event := fun r =>
  mk_event (ev_events r) (ev_data r).
#[export] Instance set_ev_events : Setter ev_events := ltac:(derive_setter).
#[export] Instance set_ev_data : Setter ev_data := ltac:(derive_setter).
#[export] Instance epoll_event_eq : EqDecision epoll_event.
Proof. solve_decision. Defined.

(** [struct epoll_event_ex]; a context pointer is the number of its bits. *)
Record epoll_event_ex := mk_event_ex {
  ex_events : Z;
  ex_data : Z;
  ex_flags : Z;
  ex_timestamp : Z;
  ex_user_ctx : Z
}.
#[export] Instance eta_epoll_event_ex : Eta epoll_event_ex := fun r =>
  mk_event_ex (ex_events r) (ex_data r) (ex_flags r) (ex_timestamp r) (ex_user_ctx r).
#[export] Instance set_ex_events : Setter ex_events := ltac:(derive_setter).
#[export] Instance set_ex_data : Setter ex_data := ltac:(derive_setter).
#[export] Instance set_ex_flags : Setter ex_flags := ltac:(derive_setter).
#[export] Instance set_ex_timestamp : Setter ex_timestamp := ltac:(derive_setter).
#[export] Instance set_ex_user_ctx : Setter ex_user_ctx := ltac:(derive_setter).

(** What [fstat] says of a descriptor, as far as the backend looks at it. *)
Record posix_stat := mk_stat { st_dev : Z; st_ino : Z; st_mode : Z; st_rdev : Z }.

Record posix_fd_identity := mk_identity {
  id_device : Z;
  id_inode : Z;
  id_mode : Z;
  id_rdevice : Z
}.
#[export] Instance posix_fd_identity_eq : EqDecision posix_fd_identity.
Proof. solve_decision. Defined.

Record posix_sock_node := mk_posix_node {
  pn_fd : Z;
  pn_identity : posix_fd_identity;
  pn_user_ctx : Z;
  pn_event : epoll_event;
  pn_next : ptr;
  pn_data_next : ptr;
  pn_data_key : Z
}.
#[export] Instance eta_posix_sock_node : Eta posix_sock_node := fun r =>
  mk_posix_node (pn_fd r) (pn_identity r) (pn_user_ctx r) (pn_event r) (pn_next r) (pn_data_next r) (pn_data_key r).
#[export] Instance set_pn_fd : Setter pn_fd := ltac:(derive_setter).
#[export] Instance set_pn_identity : Setter pn_identity := ltac:(derive_setter).
#[export] Instance set_pn_user_ctx : Setter pn_user_ctx := ltac:(derive_setter).
#[export] Instance set_pn_event : Setter pn_event := ltac:(derive_setter).
#[export] Instance set_pn_next : Setter pn_next := ltac:(derive_setter).
#[export] Instance set_pn_data_next : Setter pn_data_next := ltac:(derive_setter).
#[export] Instance set_pn_data_key : Setter pn_data_key := ltac:(derive_setter).

(** [posix_sock_snapshot_t]. *)
Record posix_sock_snapshot := mk_snapshot { sn_user_ctx : Z; sn_event : epoll_event }.

(** [posix_port_t].  The mutex and the condition variable are not part of the
    state: a critical section is one definition.  [buckets] and [data_buckets]
    point to arrays. *)
Record posix_port := mk_posix_port {
  pp_epfd : Z;
  pp_buckets : ptr;
  pp_data_buckets : ptr;
  pp_n_buckets : Z;
  pp_count : Z;
  pp_refs : Z;
  pp_aliases : Z;
  pp_retired : bool;
  pp_close_waiter : bool;
  pp_metadata_generation : Z;
  pp_closing : bool;
  pp_control_epfd : Z;
  pp_identity_fd : Z;
  pp_identity_event : epoll_event
}.
#[export] Instance eta_posix_port : Eta posix_port := fun r =>
  mk_posix_port (pp_epfd r) (pp_buckets r) (pp_data_buckets r) (pp_n_buckets r) (pp_count r) (pp_refs r) (pp_aliases r) (pp_retired r) (pp_close_waiter r) (pp_metadata_generation r) (pp_closing r) (pp_control_epfd r) (pp_identity_fd r) (pp_identity_event r).
#[export] Instance set_pp_epfd : Setter pp_epfd := ltac:(derive_setter).
#[export] Instance set_pp_buckets : Setter pp_buckets := ltac:(derive_setter).
#[export] Instance set_pp_data_buckets : Setter pp_data_buckets := ltac:(derive_setter).
#[export] Instance set_pp_n_buckets : Setter pp_n_buckets := ltac:(derive_setter).
#[export] Instance set_pp_count : Setter pp_count := ltac:(derive_setter).
#[export] Instance set_pp_refs : Setter pp_refs := ltac:(derive_setter).
#[export] Instance set_pp_aliases : Setter pp_aliases := ltac:(derive_setter).
#[export] Instance set_pp_retired : Setter pp_retired := ltac:(derive_setter).
#[export] Instance set_pp_close_waiter : Setter pp_close_waiter := ltac:(derive_setter).
#[export] Instance set_pp_metadata_generation : Setter pp_metadata_generation := ltac:(derive_setter).
#[export] Instance set_pp_closing : Setter pp_closing := ltac:(derive_setter).
#[export] Instance set_pp_control_epfd : Setter pp_control_epfd := ltac:(derive_setter).
#[export] Instance set_pp_identity_fd : Setter pp_identity_fd := ltac:(derive_setter).
#[export] Instance set_pp_identity_event : Setter pp_identity_event := ltac:(derive_setter).

(** ** The platform *)

(** The calls into the kernel and the C library.  A result below 0 is the
    negated error number; [inl] is an error number. *)
Class Linux (K : Type) := {
  sys_epoll_create1 : Z -> K -> Z * K;
  sys_epoll_ctl : Z -> Z -> Z -> option epoll_event -> K -> Z * K;
  (** [epoll_wait] ([None]) and [epoll_pwait] with a mask: instance, room,
      milliseconds. *)
  sys_epoll_wait : Z -> Z -> Z -> option Z -> K -> (Z + list epoll_event) * K;
  sys_epoll_pwait2 : Z -> Z -> option timespec -> option Z -> K -> (Z + list epoll_event) * K;
  sys_fcntl_getfd : Z -> K -> Z * K;
  sys_fcntl_dupfd : Z -> K -> Z * K;
  sys_pipe2 : K -> (Z + Z * Z) * K;
  sys_close : Z -> K -> Z * K;
  sys_eventfd : K -> Z * K;
  sys_write : Z -> K -> Z * K;
  sys_fstat : Z -> K -> (Z + posix_stat) * K;
  sys_shutdown : Z -> Z -> K -> Z * K;
  sys_clock_gettime : K -> (Z + timespec) * K;
  (** The address [calloc] proposes for so many bytes; 0 is NULL. *)
  sys_calloc : Z -> K -> Z * K;
  sys_mutex_init : K -> Z * K;   (* an error number or 0 *)
  sys_cond_init : K -> Z * K;
  sys_sigmask : Z -> K -> (Z + Z) * K;   (* the previous mask *)
  sys_sigfillset : K -> (Z + Z) * K
}.

(** ** The process *)

Record posix_world (K : Type) := mk_posix_world {
  x_errno : Z;
  x_ports : gmap addr posix_port;
  x_nodes : gmap addr posix_sock_node;
  x_arrays : gmap addr (list ptr);  (* the bucket arrays *)
  x_map : list ptr;  (* g_posix_map *)
  x_map_epfd : list Z;  (* g_posix_map_epfd *)
  x_kernel : K
}.
Arguments mk_posix_world {K}.
Arguments x_errno {K}.
Arguments x_ports {K}.
Arguments x_nodes {K}.
Arguments x_arrays {K}.
Arguments x_map {K}.
Arguments x_map_epfd {K}.
Arguments x_kernel {K}.
#[export] Instance eta_posix_world {K : Type} : Eta (posix_world K) := fun r =>
  mk_posix_world (x_errno r) (x_ports r) (x_nodes r) (x_arrays r) (x_map r) (x_map_epfd r) (x_kernel r).
#[export] Instance set_x_errno {K : Type} : Setter (@x_errno K) := ltac:(derive_setter).
#[export] Instance set_x_ports {K : Type} : Setter (@x_ports K) := ltac:(derive_setter).
#[export] Instance set_x_nodes {K : Type} : Setter (@x_nodes K) := ltac:(derive_setter).
#[export] Instance set_x_arrays {K : Type} : Setter (@x_arrays K) := ltac:(derive_setter).
#[export] Instance set_x_map {K : Type} : Setter (@x_map K) := ltac:(derive_setter).
#[export] Instance set_x_map_epfd {K : Type} : Setter (@x_map_epfd K) := ltac:(derive_setter).
#[export] Instance set_x_kernel {K : Type} : Setter (@x_kernel K) := ltac:(derive_setter).

Abbreviation PM K := (M (posix_world K)).

(** What surrounds a thread of the backend: the steps of the other threads at a
    point where this one holds no lock, and how often the loops that wait for
    something outside (an interrupted write, the end of a reference, a stale
    descriptor, the chunks of a long wait) go round. *)
Class Env (K : Type) := {
  others : PM K unit;
  wake_fuel : nat;
  wait_fuel : nat;
  acquire_fuel : nat;
  chunk_fuel : nat
}.

Section Libc.
Context {K : Type} `{!Linux K}.

(** A call that only answers. *)
Definition ask {A} (call : K -> A * K) : PM K A := fun w =>
  let '(a, k) := call (x_kernel w) in Some (a, w <| x_kernel := k |>).

Definition set_errno (e : Z) : PM K unit := put x_errno e.

(** The C library turns a negative answer into [errno] and -1. *)
Definition libc (call : K -> Z * K) : PM K Z :=
  r <- ask call ;;
  if r <? 0 then set_errno (- r) ;; ret (-1) else ret r.

(** The same for a call with a structured result. *)
Definition libc_sum {A} (call : K -> (Z + A) * K) : PM K (option A) :=
  r <- ask call ;;
  match r with
  | inl e => set_errno e ;; ret None
  | inr a => ret (Some a)
  end.

(** [calloc] of an object of heap [H]. *)
Definition calloc {R} (H : posix_world K -> gmap addr R) `{!Setter H} (size : Z) (r : R) : PM K ptr :=
  a <- ask (sys_calloc size) ;;
  fun w =>
    if (a <=? 0) || (UINT64_MAX <? a) then Some (NULL, w)
    else match H w !! Z.to_pos a with
         | Some _ => Some (NULL, w)
         | None => Some (Some (Z.to_pos a), w <| H := <[Z.to_pos a := r]> (H w) |>)
         end.

(** [p->array[i]] and [p->array[i] = v]. *)
Definition array_get (p : ptr) (i : Z) : PM K ptr :=
  l <- rd x_arrays p id ;;
  match l !! Z.to_nat i with Some v => ret v | None => stuck end.
Definition array_set (p : ptr) (i : Z) (v : ptr) : PM K unit :=
  l <- rd x_arrays p id ;;
  if (i <? 0) || (Z.of_nat (length l) <=? i) then stuck
  else st x_arrays p (<[Z.to_nat i := v]> l).

(** Fail with an error number. *)
Definition fail_errno (e : Z) : PM K Z := set_errno e ;; ret (-1).
End Libc.

(** ** Bytes *)

Fixpoint le_bytes (n : nat) (z : Z) : list Z :=
  match n with O => [] | S n => z mod 256 :: le_bytes n (z / 256) end.
Fixpoint le_value (l : list Z) : Z :=
  match l with [] => 0 | b :: l => b + 256 * le_value l end.

(** [struct epoll_event] is packed to 12 bytes on x86-64;
    [struct epoll_event_ex] has the natural alignment and 40 bytes. *)
Definition sizeof_event : nat := 12.
Definition sizeof_event_ex : nat := 40.

Definition encode_event (e : epoll_event) : list Z := le_bytes 4 (ev_events e) ++ le_bytes 8 (ev_data e).
Definition decode_event (l : list Z) : epoll_event :=
  mk_event (le_value (take 4 l)) (le_value (take 8 (drop 4 l))).
Definition encode_event_ex (e : epoll_event_ex) : list Z :=
  le_bytes 4 (ex_events e) ++ replicate 4 0 ++ le_bytes 8 (ex_data e) ++ le_bytes 4 (ex_flags e) ++
  replicate 4 0 ++ le_bytes 8 (ex_timestamp e) ++ le_bytes 8 (ex_user_ctx e).
Definition decode_event_ex (l : list Z) : epoll_event_ex :=
  mk_event_ex (le_value (take 4 l)) (le_value (take 8 (drop 8 l))) (le_value (take 4 (drop 16 l)))
    (le_value (take 8 (drop 24 l))) (le_value (take 8 (drop 32 l))).

Lemma length_le_bytes n z : length (le_bytes n z) = n.
Proof. revert z. induction n as [|n IH]; intros z; cbn; [done|]. by rewrite IH. Qed.

Lemma le_value_bytes n z : le_value (le_bytes n z) = z mod 2 ^ (8 * Z.of_nat n).
Proof.
  revert z. induction n as [|n IH]; intros z.
  - cbn. by rewrite Z.mod_1_r.
  - cbn [le_bytes le_value]. rewrite IH. replace (8 * Z.of_nat (S n)) with (8 + 8 * Z.of_nat n) by lia.
    rewrite Z.pow_add_r by lia. change (2 ^ 8) with 256. rewrite Z.rem_mul_r by lia. lia.
Qed.

(** The fields are within their machine types. *)
Definition event_wf (e : epoll_event) : Prop := 0 <= ev_events e < 2 ^ 32 /\ 0 <= ev_data e < 2 ^ 64.
Definition event_ex_wf (e : epoll_event_ex) : Prop :=
  0 <= ex_events e < 2 ^ 32 /\ 0 <= ex_data e < 2 ^ 64 /\ 0 <= ex_flags e < 2 ^ 32 /\
  0 <= ex_timestamp e < 2 ^ 64 /\ 0 <= ex_user_ctx e < 2 ^ 64.

Lemma length_encode_event e : length (encode_event e) = sizeof_event.
Proof. unfold encode_event. by rewrite length_app, !length_le_bytes. Qed.
Lemma length_encode_event_ex e : length (encode_event_ex e) = sizeof_event_ex.
Proof. unfold encode_event_ex. by rewrite !length_app, !length_replicate, !length_le_bytes. Qed.

Lemma le_value_bytes_wf n z : 0 <= z < 2 ^ (8 * Z.of_nat n) -> le_value (le_bytes n z) = z.
Proof. intros Hz. rewrite le_value_bytes. by apply Z.mod_small. Qed.

(** Cut the record at the boundaries of its fields. *)
Ltac cut_fields :=
  repeat first [ rewrite take_app_length' by (by rewrite ?length_le_bytes, ?length_replicate)
               | rewrite take_ge by (by rewrite ?length_le_bytes, ?length_replicate)
               | rewrite (drop_app_ge _ _) by (rewrite ?length_le_bytes, ?length_replicate; lia);
                 rewrite ?length_le_bytes, ?length_replicate; cbn [Nat.sub]; rewrite ?drop_0 ].

Lemma decode_encode_event e : event_wf e -> decode_event (encode_event e) = e.
Proof.
  intros [H1 H2]. destruct e as [ev d]. unfold decode_event, encode_event. cbn [ev_events ev_data] in *.
  cut_fields. by rewrite !le_value_bytes_wf.
Qed.
Lemma decode_encode_event_ex e : event_ex_wf e -> decode_event_ex (encode_event_ex e) = e.
Proof.
  intros (H1 & H2 & H3 & H4 & H5). destruct e as [ev d f t u]. unfold decode_event_ex, encode_event_ex.
  cbn [ex_events ex_data ex_flags ex_timestamp ex_user_ctx] in *.
  cut_fields. by rewrite !le_value_bytes_wf.
Qed.
