(* ===== verification/PosixPort.v ===== *)
(** * Ports and registrations of the POSIX backend

    [src/wepoll_ex_posix.c], 35-764: the registry of ports by descriptor, the
    references and the retirement of ports, and the two indexes of the
    registrations made through the extension interface.  The code between taking
    and releasing a lock is one definition; [others] is what the other threads do
    while this one waits for a lock or for a condition. *)
From S2P Require Import Prelude Codes Errno Timeout PosixTypes.

Definition sizeof_posix_port : Z := 184.
Definition sizeof_posix_sock_node : Z := 88.

Section Posix.
Context {K : Type} `{!Linux K} `{!Env K}.

(** ** The registry *)

(** [for (i ...) { body }] with early return; [None]: no iteration returned. *)
Fixpoint scan {A} (body : nat -> PM K (option A)) (i fuel : nat) : PM K (option A) :=
  match fuel with
  | O => ret None
  | S fuel =>
    r <- body i ;;
    match r with Some a => ret (Some a) | None => scan body (S i) fuel end
  end.
Definition scan_map {A} (body : nat -> PM K (option A)) : PM K (option A) :=
  scan body 0 (Z.to_nat POSIX_PORT_MAP_SIZE).

Definition map_port (i : nat) : PM K ptr := get (fun w => default NULL (x_map w !! i)).
Definition map_epfd (i : nat) : PM K Z := get (fun w => default 0 (x_map_epfd w !! i)).
Definition set_map (i : nat) (p : ptr) (epfd : Z) : PM K unit :=
  m <- get x_map ;; put x_map (<[i := p]> m) ;;
  e <- get x_map_epfd ;; put x_map_epfd (<[i := epfd]> e).

Definition port_lookup_locked (epfd : Z) : PM K ptr :=
  r <- scan_map (fun i =>
    p <- map_port i ;;
    e <- map_epfd i ;;
    ret (if bool_decide (p <> NULL) && (e =? epfd) then Some p else None)) ;;
  ret (default NULL r).

(** 0: [epfd] names the port's epoll instance; 1: another one; -1: an error. *)
Definition port_identity_check (p : ptr) (epfd : Z) : PM K Z :=
  identity_fd <- rd x_ports p pp_identity_fd ;;
  identity_event <- rd x_ports p pp_identity_event ;;
  r <- libc (sys_epoll_ctl epfd EPOLL_CTL_MOD identity_fd (Some identity_event)) ;;
  if r =? 0 then ret 0
  else
    e <- get x_errno ;;
    ret (if e =? ENOENT then 1 else -1).

Definition port_lookup_alias_locked (epfd : Z) : PM K ptr :=
  r <- scan_map (fun i =>
    p <- map_port i ;;
    match p with
    | None => ret None
    | Some _ =>
      closing <- rd x_ports p pp_closing ;;
      e <- map_epfd i ;;
      if closing || (e =? epfd) then ret None
      else
        r <- port_identity_check p epfd ;;
        ret (if r =? 0 then Some p else None)
    end) ;;
  ret (default NULL r).

(** One more, or one fewer, descriptor of a port. *)
Definition add_alias (r : posix_port) : posix_port := r <| pp_aliases := u64 (pp_aliases r + 1) |>.
Definition drop_alias (r : posix_port) : posix_port :=
  if negb (pp_aliases r =? 0) then r <| pp_aliases := u64 (pp_aliases r - 1) |> else r.

Definition port_add_alias_locked (p : ptr) (epfd : Z) : PM K Z :=
  r <- scan_map (fun i =>
    q <- map_port i ;;
    if bool_decide (q = NULL) then
      set_map i p epfd ;;
      r <- rd x_ports p id ;;
      st x_ports p (add_alias r) ;;
      ret (Some 0)
    else ret None) ;;
  match r with
  | Some r => ret r
  | None => fail_errno EMFILE
  end.

Definition port_remove_epfd_locked (p : ptr) (epfd : Z) : PM K Z :=
  r <- scan_map (fun i =>
    q <- map_port i ;;
    e <- map_epfd i ;;
    if bool_decide (q = p) && (e =? epfd) then
      set_map i NULL (-1) ;;
      r <- rd x_ports p id ;;
      st x_ports p (drop_alias r) ;;
      ret (Some 1)
    else ret None) ;;
  ret (default 0 r).

Definition port_remove_locked (p : ptr) : PM K unit :=
  scan_map (fun i =>
    q <- map_port i ;;
    (if bool_decide (q = p) then set_map i NULL (-1) else ret tt) ;;
    ret (@None unit)) ;;
  wr x_ports p pp_aliases 0.

Definition port_update_canonical_locked (p : ptr) : PM K unit :=
  r <- scan_map (fun i =>
    q <- map_port i ;;
    if bool_decide (q = p) then
      e <- map_epfd i ;;
      wr x_ports p pp_epfd e ;;
      ret (Some tt)
    else ret None) ;;
  match r with
  | Some _ => ret tt
  | None => wr x_ports p pp_epfd (-1)
  end.

(** ** Retirement *)

(** The eventfd write of a wake-up; an interrupted write is repeated at most
    [wake_fuel] times. *)
Fixpoint wake_loop (fuel : nat) (identity_fd : Z) : PM K unit :=
  match fuel with
  | O => stuck
  | S fuel =>
    result <- libc (sys_write identity_fd) ;;
    e <- get x_errno ;;
    if (result =? 8) || ((result <? 0) && (e =? EAGAIN)) then ret tt
    else if (result <? 0) && (e =? LINUX_EINTR) then wake_loop fuel identity_fd
    else ret tt
  end.
Definition port_wake_waiters_locked (p : ptr) : PM K unit :=
  saved_errno <- get x_errno ;;
  identity_fd <- rd x_ports p pp_identity_fd ;;
  wake_loop wake_fuel identity_fd ;;
  set_errno saved_errno.

Definition port_mark_closing_locked (p : ptr) : PM K unit :=
  wr x_ports p pp_closing true ;;
  port_wake_waiters_locked p ;;
  port_remove_locked p.

(** [while (n) { next = n->next; free(n); n = next; }] *)
Fixpoint free_chain (fuel : nat) (n : ptr) : PM K unit :=
  match n, fuel with
  | None, _ => ret tt
  | Some _, O => stuck
  | Some _, S fuel =>
    next <- rd x_nodes n pn_next ;;
    del x_nodes n ;;
    free_chain fuel next
  end.
Definition node_fuel (w : posix_world K) : nat := size (x_nodes w).
Fixpoint free_buckets (buckets : ptr) (b : Z) (todo : nat) : PM K unit :=
  match todo with
  | O => ret tt
  | S todo =>
    n <- array_get buckets b ;;
    fuel <- get node_fuel ;;
    free_chain fuel n ;;
    free_buckets buckets (b + 1) todo
  end.
Definition close_quietly (fd : Z) : PM K unit := libc (sys_close fd) ;; ret tt.
Definition port_free (p : ptr) : PM K unit :=
  n_buckets <- rd x_ports p pp_n_buckets ;;
  buckets <- rd x_ports p pp_buckets ;;
  data_buckets <- rd x_ports p pp_data_buckets ;;
  free_buckets buckets 0 (Z.to_nat n_buckets) ;;
  del x_arrays buckets ;;
  del x_arrays data_buckets ;;
  control_epfd <- rd x_ports p pp_control_epfd ;;
  (if 0 <=? control_epfd then close_quietly control_epfd else ret tt) ;;
  identity_fd <- rd x_ports p pp_identity_fd ;;
  (if 0 <=? identity_fd then close_quietly identity_fd else ret tt) ;;
  del x_ports p.

(** The closer is cancelled inside the condition wait: the critical section and
    the release that follows it. *)
Definition close_cancel_port (r : posix_port) : posix_port * bool :=
  let r := r <| pp_close_waiter := false |> in
  if pp_refs r =? 0 then (r <| pp_retired := false |>, true) else (r, false).
Definition posix_close_wait_cancel_cleanup (p : ptr) : PM K unit :=
  r <- rd x_ports p id ;;
  let '(r, free_now) := close_cancel_port r in
  st x_ports p r ;;
  if free_now : bool then port_free p else ret tt.

(** The waits of a closer; [others] runs while it waits. *)
Definition wait_begin_port (r : posix_port) : posix_port := r <| pp_retired := true |> <| pp_close_waiter := true |>.
Definition wait_end_port (r : posix_port) : posix_port := r <| pp_close_waiter := false |> <| pp_retired := false |>.
Fixpoint idle_loop (fuel : nat) (p : ptr) : PM K unit :=
  refs <- rd x_ports p pp_refs ;;
  if refs =? 0 then ret tt
  else match fuel with
       | O => stuck
       | S fuel => others ;; idle_loop fuel p
       end.
Definition port_wait_and_free (p : ptr) : PM K unit :=
  others ;;
  r <- rd x_ports p id ;;
  st x_ports p (wait_begin_port r) ;;
  idle_loop wait_fuel p ;;
  r <- rd x_ports p id ;;
  st x_ports p (wait_end_port r) ;;
  port_free p.

(** ** Acquiring a port *)

Definition fd_is_open (epfd : Z) : PM K bool :=
  r <- libc (sys_fcntl_getfd epfd) ;; ret (negb (r =? -1)).

Definition epfd_validate (epfd : Z) : PM K Z :=
  if epfd <? 0 then fail_errno EBADF
  else
    is_open <- fd_is_open epfd ;;
    if negb is_open then ret (-1)
    else
      saved_errno <- get x_errno ;;
      probe <- libc_sum sys_pipe2 ;;
      match probe with
      | None => ret (-1)
      | Some (probe0, probe1) =>
        result <- libc (sys_epoll_ctl epfd EPOLL_CTL_DEL probe0 None) ;;
        probe_errno <- get x_errno ;;
        close_quietly probe0 ;;
        close_quietly probe1 ;;
        if (result =? -1) && (probe_errno =? ENOENT) then set_errno saved_errno ;; ret 0
        else fail_errno (if result =? 0 then EINVAL else probe_errno)
      end.

(** [calloc(1, sizeof(posix_port_t))] and the assignments that follow. *)
Definition zero_event : epoll_event := mk_event 0 0.
Definition zero_identity : posix_fd_identity := mk_identity 0 0 0 0.
Definition blank_port (epfd : Z) : posix_port :=
  mk_posix_port epfd NULL NULL 0 0 0 0 false false 0 false (-1) (-1) zero_event.
Definition null_array (n : Z) : list ptr := replicate (Z.to_nat n) NULL.

Definition fail_null (e : Z) : PM K ptr := set_errno e ;; ret NULL.

(** The failure paths after the arrays exist: [port_free] and the saved error. *)
Definition abandon_port (p : ptr) : PM K ptr :=
  saved_errno <- get x_errno ;; port_free p ;; fail_null saved_errno.

(** From the duplicate descriptor on. *)
Definition port_attach (p : ptr) (epfd : Z) : PM K ptr :=
  control_epfd <- libc (sys_fcntl_dupfd epfd) ;;
  wr x_ports p pp_control_epfd control_epfd ;;
  if control_epfd <? 0 then abandon_port p
  else
    identity_fd <- libc sys_eventfd ;;
    wr x_ports p pp_identity_fd identity_fd ;;
    if identity_fd <? 0 then abandon_port p
    else
      let identity_event := mk_event EPOLLIN POSIX_WAKE_TOKEN in
      wr x_ports p pp_identity_event identity_event ;;
      r <- libc (sys_epoll_ctl control_epfd EPOLL_CTL_ADD identity_fd (Some identity_event)) ;;
      if negb (r =? 0) then abandon_port p
      else
        wr x_ports p pp_refs 1 ;;
        wr x_ports p pp_metadata_generation 1 ;;
        slot <- scan_map (fun i =>
          q <- map_port i ;;
          if bool_decide (q = NULL) then
            (set_map i p epfd ;; wr x_ports p pp_aliases 1) ;;
            ret (Some tt)
          else ret None) ;;
        match slot with
        | Some _ => ret p
        | None => port_free p ;; fail_null EMFILE
        end.

Definition port_create (epfd : Z) : PM K ptr :=
  p <- calloc x_ports sizeof_posix_port (blank_port epfd) ;;
  if bool_decide (p = NULL) then fail_null ENOMEM
  else
    mutex_error <- ask sys_mutex_init ;;
    if negb (mutex_error =? 0) then del x_ports p ;; fail_null mutex_error
    else
      cond_error <- ask sys_cond_init ;;
      if negb (cond_error =? 0) then del x_ports p ;; fail_null cond_error
      else
        wr x_ports p pp_n_buckets POSIX_N_BUCKETS ;;
        buckets <- calloc x_arrays (8 * POSIX_N_BUCKETS) (null_array POSIX_N_BUCKETS) ;;
        wr x_ports p pp_buckets buckets ;;
        if bool_decide (buckets = NULL) then del x_ports p ;; fail_null ENOMEM
        else
          data_buckets <- calloc x_arrays (8 * POSIX_N_BUCKETS) (null_array POSIX_N_BUCKETS) ;;
          wr x_ports p pp_data_buckets data_buckets ;;
          if bool_decide (data_buckets = NULL) then
            del x_arrays buckets ;; del x_ports p ;; fail_null ENOMEM
          else port_attach p epfd.

(** The port of a descriptor, adding the descriptor as an alias of a port whose
    instance it names; [None]: the registry is full. *)
Definition lookup_or_alias (epfd : Z) : PM K (option ptr) :=
  p <- port_lookup_locked epfd ;;
  match p with
  | Some _ => ret (Some p)
  | None =>
    p <- port_lookup_alias_locked epfd ;;
    match p with
    | None => ret (Some NULL)
    | Some _ =>
      r <- port_add_alias_locked p epfd ;;
      ret (if negb (r =? 0) then None else Some p)
    end
  end.

(** The integer no longer names the mapped instance. *)
Definition retire_stale (p : ptr) (epfd : Z) : PM K unit :=
  port_remove_epfd_locked p epfd ;;
  port_update_canonical_locked p ;;
  aliases <- rd x_ports p pp_aliases ;;
  if aliases =? 0 then port_mark_closing_locked p ;; port_wait_and_free p else ret tt.

Definition acquire_port (r : posix_port) : posix_port := r <| pp_refs := u64 (pp_refs r + 1) |>.

(** One round; [None]: [continue]. *)
Definition acquire_round (epfd : Z) : PM K (option ptr) :=
  others ;;
  p <- lookup_or_alias epfd ;;
  match p with
  | None => ret (Some NULL)
  | Some None =>
    valid <- epfd_validate epfd ;;
    if negb (valid =? 0) then ret (Some NULL)
    else p <- port_create epfd ;; ret (Some p)
  | Some (Some _ as p) =>
    closing <- rd x_ports p pp_closing ;;
    if closing : bool then p <- fail_null EBADF ;; ret (Some p)
    else
      identity_result <- port_identity_check p epfd ;;
      if identity_result <? 0 then ret (Some NULL)
      else if identity_result =? 0 then
        r <- rd x_ports p id ;;
        st x_ports p (acquire_port r) ;;
        ret (Some p)
      else retire_stale p epfd ;; ret None
  end.
Fixpoint acquire_loop (fuel : nat) (epfd : Z) : PM K ptr :=
  match fuel with
  | O => stuck
  | S fuel =>
    r <- acquire_round epfd ;;
    match r with Some p => ret p | None => acquire_loop fuel epfd end
  end.
Definition port_acquire_or_create (epfd : Z) : PM K ptr := acquire_loop acquire_fuel epfd.

(** The critical section of a release: the port afterwards, and whether the
    releasing thread frees it. *)
Definition release_port (r : posix_port) : posix_port * bool :=
  let r := r <| pp_refs := u64 (pp_refs r - 1) |> in
  if pp_retired r && (pp_aliases r =? 0) && (pp_refs r =? 0) && negb (pp_close_waiter r)
  then (r <| pp_retired := false |>, true) else (r, false).
Definition port_release (p : ptr) : PM K unit :=
  others ;;
  r <- rd x_ports p id ;;
  let '(r, free_now) := release_port r in
  st x_ports p r ;;
  if free_now : bool then port_free p else ret tt.

(** ** Registrations *)

Definition fd_identity_capture (fd : Z) : PM K (option posix_fd_identity) :=
  s <- libc_sum (sys_fstat fd) ;;
  ret ((fun s => mk_identity (u64 (st_dev s)) (u64 (st_ino s)) (u64 (Z.land (st_mode s) S_IFMT)) (u64 (st_rdev s))) <$> s).

Definition fd_identity_equal (a b : posix_fd_identity) : bool :=
  (id_device a =? id_device b) && (id_inode a =? id_inode b) &&
  (id_mode a =? id_mode b) && (id_rdevice a =? id_rdevice b).

Definition fd_slot (n_buckets fd : Z) : Z := u64 fd mod n_buckets.
Definition node_data_slot (n_buckets data_key : Z) : Z :=
  Z.lxor data_key (Z.shiftr data_key 32) mod n_buckets.

(** The matches of a bucket and the last of them. *)
Fixpoint find_identity_loop (fuel : nat) (n : ptr) (fd : Z) (identity : posix_fd_identity)
    (matches : Z) (found : ptr) : PM K (Z * ptr) :=
  match n, fuel with
  | None, _ => ret (matches, found)
  | Some _, O => stuck
  | Some _, S fuel =>
    node_fd <- rd x_nodes n pn_fd ;;
    node_identity <- rd x_nodes n pn_identity ;;
    next <- rd x_nodes n pn_next ;;
    if (node_fd =? fd) && fd_identity_equal node_identity identity
    then find_identity_loop fuel next fd identity (matches + 1) n
    else find_identity_loop fuel next fd identity matches found
  end.
(** The node, if the match is unique; the number of matches; the slot. *)
Definition node_find_identity_locked (p : ptr) (fd : Z) (identity : posix_fd_identity) : PM K (ptr * Z * Z) :=
  n_buckets <- rd x_ports p pp_n_buckets ;;
  buckets <- rd x_ports p pp_buckets ;;
  let slot := fd_slot n_buckets fd in
  head <- array_get buckets slot ;;
  fuel <- get node_fuel ;;
  r <- find_identity_loop fuel head fd identity 0 NULL ;;
  let '(matches, found) := r in
  ret (if matches =? 1 then found else NULL, matches, slot).

Definition node_data_insert_locked (p node : ptr) : PM K unit :=
  event <- rd x_nodes node pn_event ;;
  wr x_nodes node pn_data_key (ev_data event) ;;
  n_buckets <- rd x_ports p pp_n_buckets ;;
  data_buckets <- rd x_ports p pp_data_buckets ;;
  let slot := node_data_slot n_buckets (ev_data event) in
  head <- array_get data_buckets slot ;;
  wr x_nodes node pn_data_next head ;;
  array_set data_buckets slot node.

(** Removal through a pointer to a link: the array slot ([prev] is NULL) or the
    link field [f] of the previous node. *)
Section Unlink.
Context (f : posix_sock_node -> ptr) `{!Setter f} (array : ptr) (slot : Z).
Definition link_get (prev : ptr) : PM K ptr :=
  match prev with None => array_get array slot | Some _ => rd x_nodes prev f end.
Definition link_set (prev v : ptr) : PM K unit :=
  match prev with None => array_set array slot v | Some _ => wr x_nodes prev f v end.
(** Whether the node was found and unlinked. *)
Fixpoint unlink_loop (fuel : nat) (prev node : ptr) : PM K bool :=
  cur <- link_get prev ;;
  match cur, fuel with
  | None, _ => ret false
  | Some _, O => stuck
  | Some _, S fuel =>
    if bool_decide (cur = node) then
      next <- rd x_nodes node f ;;
      link_set prev next ;;
      ret true
    else unlink_loop fuel cur node
  end.
End Unlink.

Definition node_data_remove_locked (p node : ptr) : PM K unit :=
  n_buckets <- rd x_ports p pp_n_buckets ;;
  data_key <- rd x_nodes node pn_data_key ;;
  data_buckets <- rd x_ports p pp_data_buckets ;;
  fuel <- get node_fuel ;;
  found <- unlink_loop pn_data_next data_buckets (node_data_slot n_buckets data_key) fuel NULL node ;;
  if found : bool then wr x_nodes node pn_data_next NULL else ret tt.

Definition node_remove_ptr_locked (p node : ptr) : PM K bool :=
  fd <- rd x_nodes node pn_fd ;;
  n_buckets <- rd x_ports p pp_n_buckets ;;
  buckets <- rd x_ports p pp_buckets ;;
  fuel <- get node_fuel ;;
  found <- unlink_loop pn_next buckets (fd_slot n_buckets fd) fuel NULL node ;;
  if found : bool then
    node_data_remove_locked p node ;;
    del x_nodes node ;;
    count <- rd x_ports p pp_count ;;
    wr x_ports p pp_count (u64 (count - 1)) ;;
    ret true
  else ret false.

(** ** Control *)

Definition bump_metadata_generation (p : ptr) : PM K unit :=
  g <- rd x_ports p pp_metadata_generation ;;
  let g := u64 (g + 1) in
  wr x_ports p pp_metadata_generation (if g =? 0 then 1 else g).

Definition blank_node (fd : Z) (identity : posix_fd_identity) : posix_sock_node :=
  mk_posix_node fd identity 0 zero_event NULL NULL 0.

(** A new registration enters the fd index. *)
Definition node_link (p n : ptr) (fd : Z) (identity : posix_fd_identity) (slot : Z) : PM K unit :=
  wr x_nodes n pn_fd fd ;;
  wr x_nodes n pn_identity identity ;;
  buckets <- rd x_ports p pp_buckets ;;
  head <- array_get buckets slot ;;
  wr x_nodes n pn_next head ;;
  array_set buckets slot n ;;
  count <- rd x_ports p pp_count ;;
  wr x_ports p pp_count (u64 (count + 1)).

(** The metadata of a successful ADD or MOD. *)
Definition node_assign (p n : ptr) (event : epoll_event) (user_ctx : Z) : PM K unit :=
  node_data_remove_locked p n ;;
  wr x_nodes n pn_event event ;;
  wr x_nodes n pn_user_ctx user_ctx ;;
  node_data_insert_locked p n ;;
  bump_metadata_generation p.

Definition ctl_valid_op (op : Z) : bool :=
  (op =? EPOLL_CTL_ADD) || (op =? EPOLL_CTL_MOD) || (op =? EPOLL_CTL_DEL).

(** After the native call succeeded. *)
Definition ctl_commit (p : ptr) (op fd : Z) (identity : posix_fd_identity) (event : option epoll_event)
    (user_ctx : Z) (n reserved : ptr) (slot : Z) : PM K Z :=
  if op =? EPOLL_CTL_DEL then
    removed <- (if bool_decide (n = NULL) then ret false else node_remove_ptr_locked p n) ;;
    (if removed : bool then bump_metadata_generation p else ret tt) ;;
    del x_nodes reserved ;;
    ret 0
  else match event with
  | None => stuck
  | Some event =>
    if (op =? EPOLL_CTL_ADD) || bool_decide (n = NULL) then
      n <- (if bool_decide (reserved = NULL)
            then calloc x_nodes sizeof_posix_sock_node (blank_node 0 zero_identity) else ret reserved) ;;
      if bool_decide (n = NULL) then
        control_epfd <- rd x_ports p pp_control_epfd ;;
        libc (sys_epoll_ctl control_epfd EPOLL_CTL_DEL fd None) ;;
        fail_errno ENOMEM
      else
        node_link p n fd identity slot ;;
        node_assign p n event user_ctx ;;
        ret 0
    else
      node_assign p n event user_ctx ;;
      del x_nodes reserved ;;
      ret 0
  end.

Definition ctl_native (p : ptr) (op fd : Z) (identity : posix_fd_identity) (event : option epoll_event)
    (user_ctx : Z) (n reserved : ptr) (slot : Z) : PM K Z :=
  control_epfd <- rd x_ports p pp_control_epfd ;;
  r <- libc (sys_epoll_ctl control_epfd op fd (if op =? EPOLL_CTL_DEL then None else event)) ;;
  if negb (r =? 0) then
    saved_errno <- get x_errno ;;
    del x_nodes reserved ;;
    fail_errno saved_errno
  else ctl_commit p op fd identity event user_ctx n reserved slot.

(** One critical section under the port's lock. *)
Definition port_ctl_ctx (p : ptr) (op fd : Z) (event : option epoll_event) (user_ctx : Z) : PM K Z :=
  if negb (ctl_valid_op op) then fail_errno EINVAL
  else if negb (op =? EPOLL_CTL_DEL) && bool_decide (event = None) then fail_errno EFAULT
  else
    captured <- fd_identity_capture fd ;;
    match captured with
    | None => ret (-1)
    | Some identity =>
      found <-
        (if negb (op =? EPOLL_CTL_ADD) then node_find_identity_locked p fd identity
         else n_buckets <- rd x_ports p pp_n_buckets ;; ret (NULL, 0, fd_slot n_buckets fd)) ;;
      let '(n, identity_matches, slot) := found in
      if 1 <? identity_matches then fail_errno LINUX_EOPNOTSUPP
      else if (op =? EPOLL_CTL_MOD) && bool_decide (event <> None) && (0 <=? fd) && bool_decide (n = NULL) then
        reserved <- calloc x_nodes sizeof_posix_sock_node (blank_node fd identity) ;;
        if bool_decide (reserved = NULL) then fail_errno ENOMEM
        else ctl_native p op fd identity event user_ctx n reserved slot
      else ctl_native p op fd identity event user_ctx n NULL slot
    end.

(** ** Queries *)

(** The last match of the chain, and how many of the first two there are. *)
Fixpoint snapshot_data_loop (fuel : nat) (n : ptr) (data : Z) (matches : Z) (s : posix_sock_snapshot)
    : PM K (Z * posix_sock_snapshot) :=
  if negb (matches <? 2) then ret (matches, s)
  else match n, fuel with
       | None, _ => ret (matches, s)
       | Some _, O => stuck
       | Some _, S fuel =>
         data_key <- rd x_nodes n pn_data_key ;;
         next <- rd x_nodes n pn_data_next ;;
         if data_key =? data then
           user_ctx <- rd x_nodes n pn_user_ctx ;;
           event <- rd x_nodes n pn_event ;;
           snapshot_data_loop fuel next data (matches + 1) (mk_snapshot user_ctx event)
         else snapshot_data_loop fuel next data matches s
       end.
Definition node_snapshot_by_data_locked (p : ptr) (data : Z) : PM K (option posix_sock_snapshot) :=
  n_buckets <- rd x_ports p pp_n_buckets ;;
  data_buckets <- rd x_ports p pp_data_buckets ;;
  head <- array_get data_buckets (node_data_slot n_buckets data) ;;
  fuel <- get node_fuel ;;
  r <- snapshot_data_loop fuel head data 0 (mk_snapshot 0 zero_event) ;;
  let '(matches, s) := r in
  ret (if matches =? 1 then Some s else None).

Definition port_is_closing (p : ptr) : PM K bool := others ;; rd x_ports p pp_closing.

Definition port_count (p : ptr) : PM K Z :=
  count <- rd x_ports p pp_count ;;
  if INT_MAX <? count then fail_errno LINUX_EOVERFLOW else ret count.

Definition port_rearm (p : ptr) (fd : Z) : PM K Z :=
  if fd <? 0 then fail_errno EBADF
  else
    captured <- fd_identity_capture fd ;;
    match captured with
    | None => ret (-1)
    | Some identity =>
      found <- node_find_identity_locked p fd identity ;;
      let '(n, identity_matches, _) := found in
      if 1 <? identity_matches then fail_errno LINUX_EOPNOTSUPP
      else if bool_decide (n = NULL) then fail_errno ENOENT
      else
        event <- rd x_nodes n pn_event ;;
        control_epfd <- rd x_ports p pp_control_epfd ;;
        libc (sys_epoll_ctl control_epfd EPOLL_CTL_MOD fd (Some event))
    end.
End Posix.
