(* ===== verification/PosixNodes.v ===== *)
(** * The indexes of the POSIX backend

    A port keeps its registrations in two arrays of singly linked chains, by
    descriptor and by event data ([src/wepoll_ex_posix.c], 500-567).  [index] says
    that an array is the index of a set of nodes under a key; each list operation
    of the code is the corresponding operation of the set. *)
From S2P Require Import Prelude Codes Errno Timeout Links PosixTypes PosixPort.

Abbreviation nodes := (gmap addr posix_sock_node).

Definition bucket (l : list ptr) (i : Z) : ptr := default NULL (l !! Z.to_nat i).

Record index (f : posix_sock_node -> ptr) (key : posix_sock_node -> Z) (h : nodes) (l : list ptr) (S : gset addr) : Prop := {
  ix_length : length l = Z.to_nat POSIX_N_BUCKETS;
  ix_node a : a ∈ S -> is_Some (h !! a);
  ix_chain i : 0 <= i < POSIX_N_BUCKETS -> exists L,
    chain (link f h) (bucket l i) L /\ NoDup L /\
    forall a, a ∈ L <-> a ∈ S /\ exists n, h !! a = Some n /\ key n = i
}.

(** A link field and a key that is another field. *)
Class LinkField (f : posix_sock_node -> ptr) (key : posix_sock_node -> Z) `{!Setter f} := {
  lf_get n v : f (n <| f := v |>) = v;
  lf_key n v : key (n <| f := v |>) = key n;
  lf_range n : 0 <= key n < POSIX_N_BUCKETS
}.

(** ** What keeps an index *)

(** The link and the key of the nodes in [S] are the same in both heaps. *)
Definition same_links (f : posix_sock_node -> ptr) (key : posix_sock_node -> Z) (S : gset addr) (h h' : nodes) : Prop :=
  forall a n, a ∈ S -> h !! a = Some n -> exists n', h' !! a = Some n' /\ f n' = f n /\ key n' = key n.

Lemma bucket_set l i j (p : ptr) :
  0 <= i < Z.of_nat (length l) -> 0 <= j ->
  bucket (<[Z.to_nat i := p]> l) j = if decide (i = j) then p else bucket l j.
Proof.
  intros Hi Hj. unfold bucket. case_decide as E.
  - subst j. rewrite list_lookup_insert_eq by lia. done.
  - by rewrite list_lookup_insert_ne by lia.
Qed.

Section Index.
Context (f : posix_sock_node -> ptr) (key : posix_sock_node -> Z) `{!Setter f} `{HF : !LinkField f key}.

Lemma same_links_mem S h h' a i :
  (forall a, a ∈ S -> is_Some (h !! a)) -> same_links f key S h h' -> a ∈ S ->
  (exists n, h' !! a = Some n /\ key n = i) <-> (exists n, h !! a = Some n /\ key n = i).
Proof.
  intros Hn Hs Ha. destruct (Hn a Ha) as [n Hna]. destruct (Hs a n Ha Hna) as (n' & Hn' & _ & Hk).
  split; intros (m & Hm & <-); [exists n|exists n']; split; congruence.
Qed.

Lemma index_ext h h' l S : same_links f key S h h' -> index f key h l S -> index f key h' l S.
Proof.
  intros Hs [Hl Hn Hc]. split; [done| |].
  - intros a Ha. destruct (Hn a Ha) as [n Hna]. destruct (Hs a n Ha Hna) as (n' & Hn' & _). by exists n'.
  - intros i Hi. destruct (Hc i Hi) as (L & HL & Hnd & HM). exists L. split_and!; [|done|].
    + eapply chain_ext; [|exact HL]. intros a Ha. apply HM in Ha as [Ha (n & Hna & _)].
      destruct (Hs a n Ha Hna) as (n' & Hn' & Hf & _). unfold link. rewrite Hna, Hn'. cbn. by rewrite Hf.
    + intros a. rewrite HM. split; intros [Ha Hx]; (split; [done|]); by eapply (same_links_mem S h h').
Qed.

(** A node that is not indexed may change. *)
Lemma index_other h l S a n : a ∉ S -> index f key h l S -> index f key (<[a := n]> h) l S.
Proof.
  intros Ha. apply index_ext. intros b m Hb Hm. exists m. split; [|done]. rewrite lookup_insert_ne; [done|]. by intros ->.
Qed.

(** ** Insertion at the head of a chain *)

Lemma index_push h l S a n :
  a ∉ S -> f n = bucket l (key n) -> index f key h l S ->
  index f key (<[a := n]> h) (<[Z.to_nat (key n) := Some a]> l) ({[a]} ∪ S).
Proof.
  intros Ha Hf HI%(index_other h l S a n Ha). destruct HI as [Hl Hn Hc].
  pose proof (lf_range (f := f) n) as Hr. unfold POSIX_N_BUCKETS in *. split.
  - by rewrite length_insert.
  - intros b [->%elem_of_singleton|Hb]%elem_of_union; [rewrite lookup_insert_eq; by eexists|by apply Hn].
  - intros i Hi. destruct (Hc i Hi) as (L & HL & Hnd & HM). rewrite bucket_set by lia. case_decide as E.
    + exists (a :: L). split_and!.
      * split; [done|]. exists (bucket l i). rewrite link_insert_eq, Hf, E. done.
      * apply NoDup_cons. split; [|done]. intros HaL. apply HM in HaL as [? _]. done.
      * intros b. rewrite elem_of_cons, HM, elem_of_union, elem_of_singleton. split.
        -- intros [->|[Hb Hx]]; [|by auto]. split; [by left|]. exists n. by rewrite lookup_insert_eq.
        -- intros [[->|Hb] Hx]; auto.
    + exists L. split_and!; [done|done|]. intros b. rewrite HM, elem_of_union, elem_of_singleton. split.
      * intros [Hb Hx]. auto.
      * intros [[->|Hb] (m & Hm & <-)]; [|by eauto]. rewrite lookup_insert_eq in Hm. congruence.
Qed.

(** ** Removal *)

(** The heap and the array after the link before [a] was redirected. *)
Definition unlinked_heap (h : nodes) (l1 l2 : list addr) : nodes := upd h (last l1) (set f (fun _ => head l2)).
Definition unlinked_array (l : list ptr) (i : Z) (l1 l2 : list addr) : list ptr :=
  match last l1 with None => <[Z.to_nat i := head l2]> l | Some _ => l end.

Lemma unlinked_same h l1 l2 S :
  (forall z, last l1 = Some z -> z ∉ S) -> same_links f key S h (unlinked_heap h l1 l2).
Proof.
  intros Hz a n Ha Hn. unfold unlinked_heap. rewrite upd_lookup. case_decide as E; [|by exists n].
  by apply Hz in E.
Qed.

Lemma unlinked_lookup h l1 l2 a n :
  h !! a = Some n -> exists n', unlinked_heap h l1 l2 !! a = Some n' /\ key n' = key n.
Proof.
  intros Hn. unfold unlinked_heap. rewrite upd_lookup, Hn. case_decide; cbn; eexists; (split; [done|]); [apply lf_key|done].
Qed.
Lemma unlinked_lookup_inv h l1 l2 a n' :
  unlinked_heap h l1 l2 !! a = Some n' -> exists n, h !! a = Some n /\ key n' = key n.
Proof.
  unfold unlinked_heap. rewrite upd_lookup. destruct (h !! a) as [n|]; [|by case_decide].
  case_decide; cbn; intros [= <-]; exists n; (split; [done|]); [apply lf_key|done].
Qed.

Lemma index_unlink h l S a n l1 l2 :
  index f key h l S -> h !! a = Some n -> NoDup (l1 ++ a :: l2) ->
  chain (link f h) (bucket l (key n)) (l1 ++ a :: l2) ->
  (forall b, b ∈ l1 ++ a :: l2 <-> b ∈ S /\ exists m, h !! b = Some m /\ key m = key n) ->
  index f key (unlinked_heap h l1 l2) (unlinked_array l (key n) l1 l2) (S ∖ {[a]}).
Proof.
  intros [Hl Hn Hc] Ha Hnd HL HM. pose proof (lf_range (f := f) n) as Hr. unfold POSIX_N_BUCKETS in *. split.
  - unfold unlinked_array. destruct (last l1); [done|]. by rewrite length_insert.
  - intros b [Hb _]%elem_of_difference. destruct (Hn b Hb) as [m Hm].
    destruct (unlinked_lookup h l1 l2 b m Hm) as (m' & Hm' & _). by exists m'.
  - intros i Hi. assert (Hmem : forall b j, (exists m, unlinked_heap h l1 l2 !! b = Some m /\ key m = j) <->
                                  (exists m, h !! b = Some m /\ key m = j)).
    { intros b j. split; intros (m & Hm & <-).
      - destruct (unlinked_lookup_inv _ _ _ _ _ Hm) as (m0 & ? & ->). by exists m0.
      - destruct (unlinked_lookup h l1 l2 _ _ Hm) as (m0 & ? & <-). by exists m0. }
    assert (Hb' : bucket (unlinked_array l (key n) l1 l2) i =
                  if decide (key n = i) then head (l1 ++ l2) else bucket l i).
    { unfold unlinked_array. destruct (last l1) as [z|] eqn:Ez.
      - case_decide as E; [|done]. subst i. rewrite (chain_head _ _ _ HL). destruct l1; done.
      - rewrite bucket_set by lia. case_decide; [|done]. apply last_None in Ez as ->. done. }
    rewrite Hb'. case_decide as E.
    + subst i. exists (l1 ++ l2). pose proof Hnd as Hnd'. apply NoDup_app in Hnd' as (Hn1 & Hd & [Ha2 Hn2]%NoDup_cons).
      split_and!.
      * eapply chain_remove; [exact Hnd|exact HL| |].
        -- intros z Hz. destruct (proj1 (HM z)) as [_ (m & Hm & _)]; [apply last_Some_elem_of in Hz; set_solver|].
           unfold link, unlinked_heap. rewrite upd_lookup, Hm, decide_True by done. cbn. by rewrite lf_get.
        -- intros x Hx Hne. unfold link, unlinked_heap. by rewrite upd_lookup, decide_False.
      * apply NoDup_app. split_and!; [done| |done]. intros x Hx Hx2. apply (Hd x Hx). by right.
      * intros b. rewrite Hmem, elem_of_difference, elem_of_singleton. specialize (HM b).
        rewrite elem_of_app in HM |- *. rewrite elem_of_cons in HM. split.
        -- intros Hb. destruct (proj1 HM) as [? ?]; [tauto|]. split; [|done]. split; [done|]. intros ->.
           destruct Hb as [Hb|Hb]; [|done]. apply (Hd a Hb). by left.
        -- intros [[Hb Hne] Hx]. destruct (proj2 HM) as [?|[?|?]]; auto. done.
    + destruct (Hc i Hi) as (L & HLi & Hndi & HMi). exists L. split_and!; [|done|].
      * eapply chain_ext; [|exact HLi]. intros x Hx. unfold link, unlinked_heap. rewrite upd_lookup, decide_False; [done|].
        intros Hz. apply last_Some_elem_of in Hz. destruct (proj1 (HM x)) as [_ (m & Hm & Hk)]; [set_solver|].
        apply HMi in Hx as [_ (m' & Hm' & Hk')]. congruence.
      * intros b. rewrite Hmem, HMi, elem_of_difference, elem_of_singleton. split; [|tauto].
        intros [Hb Hx]. split; [|done]. split; [done|]. intros ->. destruct Hx as (m & Hm & Hk). congruence.
Qed.
End Index.

(** ** The loops of the code *)

#[export] Instance fd_link : LinkField pn_next (fun n => fd_slot POSIX_N_BUCKETS (pn_fd n)).
Proof. split; [done|done|]. intros n. by apply Z.mod_pos_bound. Qed.
#[export] Instance data_link : LinkField pn_data_next (fun n => node_data_slot POSIX_N_BUCKETS (pn_data_key n)).
Proof. split; [done|done|]. intros n. by apply Z.mod_pos_bound. Qed.

Section Runs.
Context {K : Type} `{!Linux K} `{!Env K}.
Implicit Types (w : posix_world K).

Lemma array_get_run w a l i :
  x_arrays w !! a = Some l -> 0 <= i < Z.of_nat (length l) -> array_get (Some a) i w = Some (bucket l i, w).
Proof.
  intros Ha Hi. unfold array_get. erewrite bind_some by by eapply rd_some. cbn.
  unfold bucket. destruct (lookup_lt_is_Some_2 l (Z.to_nat i)) as [v Hv]; [lia|]. by rewrite Hv.
Qed.
Lemma array_set_run w a l i v :
  x_arrays w !! a = Some l -> 0 <= i < Z.of_nat (length l) ->
  array_set (Some a) i v w = Some (tt, w <| x_arrays := <[a := <[Z.to_nat i := v]> l]> (x_arrays w) |>).
Proof.
  intros Ha Hi. unfold array_set. erewrite bind_some by by eapply rd_some. unfold id. cbv beta.
  destruct (Z.ltb_spec i 0); [lia|]. destruct (Z.leb_spec (Z.of_nat (length l)) i); [lia|]. cbn [orb].
  by eapply st_some.
Qed.

Section Unlinking.
Context (f : posix_sock_node -> ptr) `{!Setter f} (aa : addr) (slot : Z).

Definition unlinked_world w (l : list ptr) (l1 l2 : list addr) : posix_world K :=
  match last l1 with
  | None => w <| x_arrays := <[aa := <[Z.to_nat slot := head l2]> l]> (x_arrays w) |>
  | Some z => w <| x_nodes := upd (x_nodes w) (Some z) (set f (fun _ => head l2)) |>
  end.

(** Walking on from the link after [l0]. *)
Lemma unlink_loop_from w l L a : forall l' l0 fuel,
  x_arrays w !! aa = Some l -> 0 <= slot < Z.of_nat (length l) -> L = l0 ++ l' ->
  chain (link f (x_nodes w)) (bucket l slot) L -> (length l' <= fuel)%nat ->
  match decide (a ∈ l') with
  | left _ => exists l1 l2, l' = l1 ++ a :: l2 /\ a ∉ l1 /\
      unlink_loop f (Some aa) slot fuel (last l0) (Some a) w = Some (true, unlinked_world w l (l0 ++ l1) l2)
  | right _ => unlink_loop f (Some aa) slot fuel (last l0) (Some a) w = Some (false, w)
  end.
Proof.
  induction l' as [|b l' IH]; intros l0 fuel Ha Hs -> Hc Hf.
  - rewrite decide_False by apply not_elem_of_nil. rewrite app_nil_r in Hc.
    assert (Hg : link_get f (Some aa) slot (last l0) w = Some (NULL, w)).
    { destruct (last l0) as [z|] eqn:Ez; cbn [link_get].
      - pose proof (chain_last_end _ _ _ _ Hc Ez) as Hz. unfold link in Hz.
        destruct (x_nodes w !! z) as [n|] eqn:En; [|done]. injection Hz as Hz. rewrite (rd_some _ _ _ _ _ En). by rewrite Hz.
      - apply last_None in Ez as ->. rewrite (array_get_run _ _ _ _ Ha Hs). do 2 f_equal. exact Hc. }
    destruct fuel; cbn [unlink_loop]; by erewrite bind_some by exact Hg.
  - assert (Hg : link_get f (Some aa) slot (last l0) w = Some (Some b, w)).
    { destruct (last l0) as [z|] eqn:Ez; cbn [link_get].
      - pose proof (chain_app_next _ _ _ _ _ Hc Ez) as Hz. unfold link in Hz.
        destruct (x_nodes w !! z) as [n|] eqn:En; [|done]. injection Hz as Hz. rewrite (rd_some _ _ _ _ _ En). by rewrite Hz.
      - apply last_None in Ez as ->. rewrite (array_get_run _ _ _ _ Ha Hs). do 2 f_equal. by destruct Hc. }
    destruct fuel as [|fuel]; [cbn in Hf; lia|]. cbn [unlink_loop]. erewrite (bind_some _ _ _ _ _ Hg). cbv beta.
    destruct (decide (b = a)) as [->|Hne].
    + rewrite decide_True by by left. rewrite bool_decide_eq_true_2 by done. exists [], l'.
      split_and!; [done|apply not_elem_of_nil|]. rewrite app_nil_r.
      pose proof (chain_app_suffix _ _ _ _ Hc) as Hc'. destruct Hc' as [_ (q & Hq & Hc')]. unfold link in Hq.
      destruct (x_nodes w !! a) as [n|] eqn:En; [|done]. injection Hq as Hq. erewrite bind_some by by eapply rd_some.
      rewrite Hq, (chain_head _ _ _ Hc'). unfold unlinked_world.
      destruct (last l0) as [z|] eqn:Ez; cbn [link_set].
      * pose proof (chain_app_next _ _ _ _ _ Hc Ez) as Hz. unfold link in Hz.
        erewrite bind_some by (eapply wr_upd; destruct (x_nodes w !! z); [by eexists|done]). done.
      * by erewrite bind_some by by eapply array_set_run.
    + rewrite bool_decide_eq_false_2 by congruence.
      specialize (IH (l0 ++ [b]) fuel Ha Hs ltac:(by rewrite <- app_assoc) Hc ltac:(cbn in Hf; lia)).
      rewrite last_snoc in IH. destruct (decide (a ∈ l')) as [Hin|Hnin].
      * rewrite decide_True by by right. destruct IH as (l1 & l2 & -> & Hn1 & Hr). exists (b :: l1), l2.
        split_and!; [done| |].
        -- rewrite not_elem_of_cons. split; [congruence|done].
        -- rewrite Hr. by rewrite <- app_assoc.
      * rewrite decide_False; [done|]. rewrite not_elem_of_cons. split; [congruence|done].
Qed.

Lemma chain_unlink_run w l L a fuel :
  x_arrays w !! aa = Some l -> 0 <= slot < Z.of_nat (length l) ->
  chain (link f (x_nodes w)) (bucket l slot) L -> (length L <= fuel)%nat ->
  match decide (a ∈ L) with
  | left _ => exists l1 l2, L = l1 ++ a :: l2 /\ a ∉ l1 /\
      unlink_loop f (Some aa) slot fuel NULL (Some a) w = Some (true, unlinked_world w l l1 l2)
  | right _ => unlink_loop f (Some aa) slot fuel NULL (Some a) w = Some (false, w)
  end.
Proof. intros Ha Hs Hc Hf. apply (unlink_loop_from w l L a L [] fuel); done. Qed.

Lemma unlinked_world_eq w l l1 l2 :
  x_arrays w !! aa = Some l ->
  unlinked_world w l l1 l2 =
    w <| x_nodes := unlinked_heap f (x_nodes w) l1 l2 |>
      <| x_arrays := <[aa := unlinked_array l slot l1 l2]> (x_arrays w) |>.
Proof.
  intros Ha. unfold unlinked_world, unlinked_heap, unlinked_array. destruct (last l1) as [z|].
  - destruct w as [e P N A m me k]. cbn in Ha. unfold set. cbn. by rewrite (insert_id A).
  - by destruct w.
Qed.
End Unlinking.

(** The search and removal of a node is the removal from the index: it answers
    whether the node was indexed and changes at most one link of another indexed
    node. *)
Lemma index_remove_run (f : posix_sock_node -> ptr) (key : posix_sock_node -> Z) `{!Setter f} `{!LinkField f key}
    w aa l (S : gset addr) a n :
  x_arrays w !! aa = Some l -> index f key (x_nodes w) l S -> x_nodes w !! a = Some n ->
  wp (unlink_loop f (Some aa) (key n) (node_fuel w) NULL (Some a)) (fun found w' => exists z v l',
    found = bool_decide (a ∈ S) /\ (forall b, z = Some b -> b ∈ S /\ b <> a) /\
    w' = w <| x_nodes := upd (x_nodes w) z (set f (fun _ => v)) |> <| x_arrays := <[aa := l']> (x_arrays w) |> /\
    index f key (upd (x_nodes w) z (set f (fun _ => v))) l' (S ∖ {[a]})) w.
Proof.
  intros Hl HI Ha. destruct (ix_chain _ _ _ _ _ HI (key n)) as (L & HL & Hnd & HM); [apply lf_range|].
  pose proof (chain_unlink_run f aa (key n) w l L a (node_fuel w) Hl) as Hrun.
  rewrite (ix_length _ _ _ _ _ HI) in Hrun. specialize (Hrun (lf_range (f := f) n) HL ltac:(by eapply chain_length)).
  destruct (decide (a ∈ L)) as [Hin|Hnin].
  - destruct Hrun as (l1 & l2 & -> & Ha1 & Hrun). eapply wp_run; [exact Hrun|].
    rewrite unlinked_world_eq by done. exists (last l1), (head l2), (unlinked_array l (key n) l1 l2).
    split_and!; [|intros b Hb|done|by apply index_unlink].
    + rewrite bool_decide_eq_true_2; [done|]. by apply HM in Hin as [? _].
    + apply last_Some_elem_of in Hb. split; [|by intros ->]. apply (HM b). apply elem_of_app. by left.
  - assert (HaS : a ∉ S) by (intros HaS; apply Hnin, HM; split; [done|]; by exists n).
    eapply wp_run; [exact Hrun|]. exists NULL, NULL, l. cbn [upd]. split_and!.
    + by rewrite bool_decide_eq_false_2.
    + done.
    + destruct w as [e P N A m me k]. cbn in Hl. unfold set. cbn. by rewrite (insert_id A).
    + replace (S ∖ {[a]}) with S by set_solver. done.
Qed.
End Runs.
