(* ===== verification/PosixCtl.v ===== *)
(** * Control operations of the POSIX backend

    [port_rep] is the representation invariant of a port's two indexes.  The
    control operation [port_ctl_ctx] ([src/wepoll_ex_posix.c], 569-682) refines
    [abs_ctl], the same operation on a finite map of registrations without
    chains, arrays or links. *)
From S2P Require Import Prelude Codes Errno Timeout Links PosixTypes PosixPort PosixNodes.

Abbreviation fd_key := (fun n => fd_slot POSIX_N_BUCKETS (pn_fd n)).
Abbreviation data_key := (fun n => node_data_slot POSIX_N_BUCKETS (pn_data_key n)).

(** Run the first actions of a computation against a postcondition. *)
Ltac pstep :=
  lazymatch goal with
  | |- wp (bind _ _) _ _ => apply wp_bind
  | |- wp (ret _) _ _ => apply wp_ret
  | |- wp (get _) _ _ => apply wp_get
  | |- wp (put _ _) _ _ => apply wp_put
  | |- wp (rd _ _ _) _ _ => eapply wp_rd; [mlookup|]
  | |- wp (wr _ _ _ _) _ _ => eapply wp_wr; [mlookup|]; sget; scollapse
  end; cbv beta; sget.
Ltac psteps := repeat pstep.

Section PosixCtl.
Context {K : Type} `{!Linux K} `{!Env K}.
Implicit Types (w : posix_world K) (p a b : addr) (r : posix_port) (S SF SD : gset addr).

(** ** Representation *)

(** The fd index holds the nodes [SF], the data index the nodes [SD]. *)
Record port_rep w p r (ba da : addr) SF SD : Prop := {
  pr_port : x_ports w !! p = Some r;
  pr_n_buckets : pp_n_buckets r = POSIX_N_BUCKETS;
  pr_buckets : pp_buckets r = Some ba;
  pr_data_buckets : pp_data_buckets r = Some da;
  pr_distinct : ba <> da;
  pr_fd : exists l, x_arrays w !! ba = Some l /\ index pn_next fd_key (x_nodes w) l SF;
  pr_data : exists l, x_arrays w !! da = Some l /\ index pn_data_next data_key (x_nodes w) l SD
}.

(** A node without its links. *)
Definition core (n : posix_sock_node) : posix_sock_node := n <| pn_next := NULL |> <| pn_data_next := NULL |>.

(** List surgery: from [w] to [w'] only links of nodes in [S], the two arrays and
    the port [p] may have changed. *)
Record surgery p (ba da : addr) S w w' : Prop := {
  su_errno : x_errno w' = x_errno w;
  su_kernel : x_kernel w' = x_kernel w;
  su_map : x_map w' = x_map w /\ x_map_epfd w' = x_map_epfd w;
  su_ports q : q <> p -> x_ports w' !! q = x_ports w !! q;
  su_arrays c : c <> ba -> c <> da -> x_arrays w' !! c = x_arrays w !! c;
  su_nodes b : b ∉ S -> x_nodes w' !! b = x_nodes w !! b
}.

#[export] Instance surgery_refl p ba da S : Reflexive (surgery p ba da S).
Proof. intros w. by split. Qed.
#[export] Instance surgery_trans p ba da S : Transitive (surgery p ba da S).
Proof.
  intros w1 w2 w3 [? ? [? ?] Hp Ha Hn] [? ? [? ?] Hp' Ha' Hn']. split; try congruence.
  - split; congruence.
  - intros q Hq. rewrite Hp' by done. by apply Hp.
  - intros c Hb Hd. rewrite Ha' by done. by apply Ha.
  - intros b Hb. rewrite Hn' by done. by apply Hn.
Qed.
Lemma surgery_weaken p ba da S S' w w' : S ⊆ S' -> surgery p ba da S w w' -> surgery p ba da S' w w'.
Proof. intros HS [? ? ? ? ? Hn]. split; try done. intros b Hb. apply Hn. set_solver. Qed.

(** ** Primitive steps *)

Lemma core_lookup (h h' : nodes) a n' :
  core <$> h' = core <$> h -> h' !! a = Some n' -> exists n, h !! a = Some n /\ core n' = core n.
Proof.
  intros E Ha. apply (f_equal (fun m : nodes => m !! a)) in E. rewrite !lookup_fmap, Ha in E. cbn in E.
  destruct (h !! a) as [n|]; [|done]. apply (inj Some) in E. by exists n.
Qed.
Lemma core_lookup' (h h' : nodes) a n :
  core <$> h' = core <$> h -> h !! a = Some n -> exists n', h' !! a = Some n' /\ core n' = core n.
Proof. intros E Ha. symmetry in E. destruct (core_lookup _ _ _ _ E Ha) as (n' & ? & ?). by exists n'. Qed.

Lemma core_dom (h h' : nodes) : core <$> h' = core <$> h -> dom h' = dom h.
Proof. intros E. rewrite <- (dom_fmap_L core h'), <- (dom_fmap_L core h). by rewrite E. Qed.

Lemma slot_range n_buckets x : n_buckets = POSIX_N_BUCKETS -> 0 <= x mod n_buckets < POSIX_N_BUCKETS.
Proof. intros ->. by apply Z.mod_pos_bound. Qed.

(** Heaps that differ only in one kind of link. *)
Definition no_next (n : posix_sock_node) : posix_sock_node := n <| pn_next := NULL |>.
Definition no_data_next (n : posix_sock_node) : posix_sock_node := n <| pn_data_next := NULL |>.

Lemma core_no_next (h h' : nodes) : no_next <$> h' = no_next <$> h -> core <$> h' = core <$> h.
Proof.
  intros E. change core with (no_data_next ∘ no_next). by rewrite !map_fmap_compose, E.
Qed.
Lemma core_no_data_next (h h' : nodes) : no_data_next <$> h' = no_data_next <$> h -> core <$> h' = core <$> h.
Proof.
  intros E. change core with (no_next ∘ no_data_next). by rewrite !map_fmap_compose, E.
Qed.

Lemma same_links_fmap f key (e : posix_sock_node -> posix_sock_node) S (h h' : nodes) :
  e <$> h' = e <$> h -> (forall n, f (e n) = f n) -> (forall n, key (e n) = key n) -> same_links f key S h h'.
Proof.
  intros E Hf Hk b n _ Hn. destruct (fmap_same_lookup _ _ _ _ _ E Hn) as (n' & Hn' & En). exists n'.
  split; [done|]. rewrite <- (Hf n'), <- (Hk n'), En. by rewrite Hf, Hk.
Qed.

(** The data index changed, the fd index did not. *)
Lemma rep_data_change w w' p r ba da SF SD SD' l' :
  port_rep w p r ba da SF SD -> x_ports w' = x_ports w -> x_arrays w' = <[da := l']> (x_arrays w) ->
  same_links pn_next fd_key SF (x_nodes w) (x_nodes w') -> index pn_data_next data_key (x_nodes w') l' SD' ->
  port_rep w' p r ba da SF SD'.
Proof.
  intros [Hp Hn Hb Hd Hne (lf & Hlf & HF) Hdata] HP HA HN HI. split; try done.
  - by rewrite HP.
  - exists lf. rewrite HA, lookup_insert_ne by done. split; [done|]. by eapply index_ext.
  - exists l'. by rewrite HA, lookup_insert_eq.
Qed.

(** The fd index changed, the data index did not. *)
Lemma rep_fd_change w w' p r r' ba da SF SF' SD l' :
  port_rep w p r ba da SF SD -> x_ports w' !! p = Some r' -> x_arrays w' = <[ba := l']> (x_arrays w) ->
  same_links pn_data_next data_key SD (x_nodes w) (x_nodes w') -> index pn_next fd_key (x_nodes w') l' SF' ->
  pp_n_buckets r' = pp_n_buckets r -> pp_buckets r' = pp_buckets r -> pp_data_buckets r' = pp_data_buckets r ->
  port_rep w' p r' ba da SF' SD.
Proof.
  intros [Hp Hn Hb Hd Hne Hfd (ld & Hld & HD)] HP HA HN HI E1 E2 E3. split; try congruence.
  - exists l'. by rewrite HA, lookup_insert_eq.
  - exists ld. rewrite HA, lookup_insert_ne by done. split; [done|]. by eapply index_ext.
Qed.

(** [node_data_remove_locked] takes a node out of the data index, or finds it
    is not there. *)
Lemma data_remove_run w p r ba da SF SD a n :
  port_rep w p r ba da SF SD -> x_nodes w !! a = Some n ->
  wp (node_data_remove_locked (Some p) (Some a)) (fun _ w' =>
    port_rep w' p r ba da SF (SD ∖ {[a]}) /\ surgery p ba da SD w w' /\ x_ports w' = x_ports w /\
    no_data_next <$> x_nodes w' = no_data_next <$> x_nodes w) w.
Proof.
  intros HP Ha. unfold node_data_remove_locked. pose proof HP as [Hp Hn Hb Hd Hne Hfd (l & Hl & HD)]. psteps.
  rewrite Hn, Hd. eapply wp_mono; [by eapply (index_remove_run pn_data_next data_key)|].
  intros found w' (z & v & l' & -> & Hz & -> & HI).
  set (h1 := upd (x_nodes w) z _) in *.
  assert (Hc1 : no_data_next <$> h1 = no_data_next <$> x_nodes w) by (by apply fmap_upd_same).
  assert (Hs1 : forall b, b ∉ SD -> h1 !! b = x_nodes w !! b).
  { intros b Hb'. unfold h1. rewrite upd_lookup. case_decide as E; [|done]. by apply Hz in E as [? _]. }
  destruct (fmap_same_lookup _ _ _ _ _ Hc1 Ha) as (n1 & Hn1 & _).
  assert (Hfin : forall w', x_nodes w' = h1 \/ (a ∈ SD /\ x_nodes w' = <[a := n1 <| pn_data_next := NULL |>]> h1) ->
    x_ports w' = x_ports w -> x_arrays w' = <[da := l']> (x_arrays w) ->
    x_errno w' = x_errno w -> x_kernel w' = x_kernel w -> x_map w' = x_map w /\ x_map_epfd w' = x_map_epfd w ->
    port_rep w' p r ba da SF (SD ∖ {[a]}) /\ surgery p ba da SD w w' /\ x_ports w' = x_ports w /\
    no_data_next <$> x_nodes w' = no_data_next <$> x_nodes w).
  { intros w' HN HPo HA He Hk Hm.
    assert (Hc' : no_data_next <$> x_nodes w' = no_data_next <$> x_nodes w).
    { destruct HN as [->|[_ ->]]; [done|]. by rewrite (fmap_insert_same _ _ _ _ _ Hn1). }
    split_and!; [|split; try done|done|done].
    - eapply rep_data_change; [exact HP|done|exact HA|by eapply (same_links_fmap _ _ no_data_next)|]. destruct HN as [->|[_ ->]]; [done|].
      apply index_other; [|done]. set_solver.
    - by rewrite HPo.
    - intros c _ Hc. by rewrite HA, lookup_insert_ne.
    - intros b Hb'. destruct HN as [->|[HaS ->]]; [by apply Hs1|]. rewrite lookup_insert_ne by (by intros ->). by apply Hs1. }
  case_bool_decide as HaS; psteps; apply Hfin; auto.
Qed.

(** A node that is in neither index, or whose link and key stay. *)
Lemma same_links_insert f key S (h : nodes) a n n' :
  h !! a = Some n -> (a ∈ S -> f n' = f n /\ key n' = key n) -> same_links f key S h (<[a := n']> h).
Proof.
  intros Ha Hs b m Hb Hm. destruct (decide (b = a)) as [->|Hne].
  - exists n'. rewrite lookup_insert_eq. assert (m = n) as -> by congruence. by destruct (Hs Hb).
  - exists m. by rewrite lookup_insert_ne.
Qed.

Lemma data_insert_run w p r ba da SF SD a n :
  port_rep w p r ba da SF SD -> x_nodes w !! a = Some n -> a ∉ SD ->
  wp (node_data_insert_locked (Some p) (Some a)) (fun _ w' => exists head,
    port_rep w' p r ba da SF ({[a]} ∪ SD) /\ surgery p ba da {[a]} w w' /\ x_ports w' = x_ports w /\
    x_nodes w' = <[a := n <| pn_data_key := ev_data (pn_event n) |> <| pn_data_next := head |>]> (x_nodes w)) w.
Proof.
  intros HP Ha HaD. unfold node_data_insert_locked. pose proof HP as [Hp Hn Hb Hd Hne Hfd (l & Hl & HD)].
  pose proof (ix_length _ _ _ _ _ HD) as Hlen. psteps. rewrite Hn, Hd.
  set (slot := node_data_slot _ _). assert (Hslot : 0 <= slot < Z.of_nat (length l)) by (rewrite Hlen; by apply slot_range).
  eapply wp_run; [eapply array_get_run; [exact Hl|exact Hslot]|]. psteps.
  eapply wp_run; [eapply array_set_run; [exact Hl|exact Hslot]|].
  set (n' := set pn_data_next _ _). exists (bucket l slot).
  split_and!; [|split; try done|done|done].
  - eapply rep_data_change; [exact HP|done|done| |].
    + sget. by apply (same_links_insert _ _ _ _ _ n).
    + sget. by apply (index_push pn_data_next data_key (x_nodes w) l SD a n').
  - intros c _ Hc. sget. by rewrite lookup_insert_ne.
  - intros b Hb'. sget. rewrite lookup_insert_ne; [done|]. set_solver.
Qed.

Lemma node_link_run w p r ba da SF SD a n fd identity :
  port_rep w p r ba da SF SD -> x_nodes w !! a = Some n -> a ∉ SF -> a ∉ SD ->
  wp (node_link (Some p) (Some a) fd identity (fd_slot POSIX_N_BUCKETS fd)) (fun _ w' => exists head,
    port_rep w' p (r <| pp_count := u64 (pp_count r + 1) |>) ba da ({[a]} ∪ SF) SD /\
    surgery p ba da {[a]} w w' /\
    x_nodes w' = <[a := n <| pn_fd := fd |> <| pn_identity := identity |> <| pn_next := head |>]> (x_nodes w)) w.
Proof.
  intros HP Ha HaF HaD. unfold node_link. pose proof HP as [Hp Hn Hb Hd Hne (l & Hl & HF) Hdata].
  pose proof (ix_length _ _ _ _ _ HF) as Hlen. psteps. rewrite Hb.
  set (slot := fd_slot _ _). assert (Hslot : 0 <= slot < Z.of_nat (length l)) by (rewrite Hlen; by apply slot_range).
  eapply wp_run; [eapply array_get_run; [exact Hl|exact Hslot]|]. psteps.
  eapply wp_run; [eapply array_set_run; [exact Hl|exact Hslot]|]. psteps.
  set (n' := set pn_next _ _). exists (bucket l slot).
  split_and!; [|split; try done|done].
  - eapply rep_fd_change; [exact HP|sget; apply lookup_insert_eq|done| | |done|done|done].
    + sget. by apply (same_links_insert _ _ _ _ _ n).
    + sget. by apply (index_push pn_next fd_key (x_nodes w) l SF a n').
  - intros q Hq. sget. by rewrite lookup_insert_ne.
  - intros c Hc _. sget. by rewrite lookup_insert_ne.
  - intros b Hb'. sget. rewrite lookup_insert_ne; [done|]. set_solver.
Qed.

Definition next_metadata_generation (g : Z) : Z := let g := u64 (g + 1) in if g =? 0 then 1 else g.

(** Fields of the port outside the representation may change. *)
Lemma rep_port_field w w' p r r' ba da SF SD :
  port_rep w p r ba da SF SD -> x_ports w' !! p = Some r' -> x_nodes w' = x_nodes w -> x_arrays w' = x_arrays w ->
  pp_n_buckets r' = pp_n_buckets r -> pp_buckets r' = pp_buckets r -> pp_data_buckets r' = pp_data_buckets r ->
  port_rep w' p r' ba da SF SD.
Proof. intros [Hp Hn Hb Hd Hne Hfd Hdata] E0 EN EA E1 E2 E3. split; rewrite ?EN, ?EA; congruence || done. Qed.
Lemma surgery_port_field w p r' ba da S : surgery p ba da S w (w <| x_ports := <[p := r']> (x_ports w) |>).
Proof. split; try done. intros q Hq. sget. by rewrite lookup_insert_ne. Qed.

Lemma bump_run w p r ba da SF SD :
  port_rep w p r ba da SF SD ->
  wp (bump_metadata_generation (Some p)) (fun _ w' =>
    port_rep w' p (r <| pp_metadata_generation := next_metadata_generation (pp_metadata_generation r) |>) ba da SF SD /\
    surgery p ba da ∅ w w' /\ x_nodes w' = x_nodes w) w.
Proof.
  intros HP. unfold bump_metadata_generation. pose proof (pr_port _ _ _ _ _ _ _ HP) as Hp. psteps.
  split_and!; [eapply rep_port_field; try done; apply lookup_insert_eq|by apply surgery_port_field|done].
Qed.

(** A node of the data index, or of none, changes its payload. *)
Lemma rep_payload w p r ba da SF SD a n n' :
  port_rep w p r ba da SF SD -> x_nodes w !! a = Some n -> core n' = core n <| pn_event := pn_event n' |> <| pn_user_ctx := pn_user_ctx n' |> ->
  pn_next n' = pn_next n -> pn_data_next n' = pn_data_next n ->
  port_rep (w <| x_nodes := <[a := n']> (x_nodes w) |>) p r ba da SF SD.
Proof.
  intros [Hp Hn Hb Hd Hne (lf & Hlf & HF) (ld & Hld & HD)] Ha Hc E1 E2.
  assert (pn_fd n' = pn_fd n /\ pn_data_key n' = pn_data_key n) as [E3 E4].
  { split; [apply (f_equal pn_fd) in Hc|apply (f_equal pn_data_key) in Hc]; exact Hc. }
  split; try done.
  - exists lf. split; [done|]. eapply index_ext; [|exact HF]. eapply same_links_insert; [exact Ha|]. intros _. by rewrite E3.
  - exists ld. split; [done|]. eapply index_ext; [|exact HD]. eapply same_links_insert; [exact Ha|]. intros _. by rewrite E4.
Qed.

Lemma core_insert (h h' : nodes) a n n' :
  core <$> h' = core <$> h -> core n' = core n -> core <$> <[a := n']> h' = core <$> <[a := n]> h.
Proof. intros E Ec. by rewrite !fmap_insert, E, Ec. Qed.

Lemma node_assign_run w p r ba da SF SD a n event user_ctx :
  port_rep w p r ba da SF SD -> x_nodes w !! a = Some n ->
  wp (node_assign (Some p) (Some a) event user_ctx) (fun _ w' =>
    port_rep w' p (r <| pp_metadata_generation := next_metadata_generation (pp_metadata_generation r) |>) ba da SF ({[a]} ∪ SD) /\
    surgery p ba da ({[a]} ∪ SD) w w' /\
    core <$> x_nodes w' = core <$> <[a := n <| pn_event := event |> <| pn_user_ctx := user_ctx |> <| pn_data_key := ev_data event |>]> (x_nodes w)) w.
Proof.
  intros HP Ha. unfold node_assign. eapply wp_seq; [by eapply data_remove_run|].
  intros _ w1 (HP1 & Hs1 & _ & Hc1). destruct (fmap_same_lookup _ _ _ _ _ Hc1 Ha) as (n1 & Hn1 & Ec1). psteps.
  set (n2 := n1 <| pn_event := event |> <| pn_user_ctx := user_ctx |>). set (w2 := set x_nodes _ _).
  assert (HP2 : port_rep w2 p r ba da SF (SD ∖ {[a]})) by (by eapply rep_payload).
  assert (Hs2 : surgery p ba da {[a]} w1 w2).
  { split; try done. intros b Hb. unfold w2. sget. rewrite lookup_insert_ne; [done|]. set_solver. }
  eapply wp_mono; [eapply (data_insert_run w2 p r ba da SF (SD ∖ {[a]}) a n2); [done|unfold w2; sget; apply lookup_insert_eq|set_solver]|].
  intros _ w3 (head & HP3 & Hs3 & _ & Hn3). eapply wp_mono; [by apply bump_run|].
  intros _ w4 (HP4 & Hs4 & Hn4). replace ({[a]} ∪ SD ∖ {[a]}) with ({[a]} ∪ SD) in HP4 by (apply set_eq; intros x; destruct (decide (x = a)); set_solver).
  split_and!; [done| |].
  - transitivity w1; [eapply surgery_weaken; [|done]; set_solver|]. transitivity w2; [eapply surgery_weaken; [|done]; set_solver|].
    transitivity w3; (eapply surgery_weaken; [|done]; set_solver).
  - rewrite Hn4, Hn3. unfold w2. sget. rewrite insert_insert_eq. apply core_insert; [by apply core_no_data_next|].
    apply (f_equal no_next) in Ec1. change (core n1 = core n) in Ec1. unfold n2.
    change ((core n1) <| pn_event := event |> <| pn_user_ctx := user_ctx |> <| pn_data_key := ev_data event |> =
            (core n) <| pn_event := event |> <| pn_user_ctx := user_ctx |> <| pn_data_key := ev_data event |>). by rewrite Ec1.
Qed.

(** Deleting a node that is in neither index. *)
Lemma rep_delete w p r ba da SF SD a :
  port_rep w p r ba da SF SD -> a ∉ SF -> a ∉ SD ->
  port_rep (w <| x_nodes := delete a (x_nodes w) |>) p r ba da SF SD.
Proof.
  intros [Hp Hn Hb Hd Hne (lf & Hlf & HF) (ld & Hld & HD)] HaF HaD. split; try done; sget.
  - exists lf. split; [done|]. eapply index_ext; [|exact HF]. intros b m Hbm Hm. exists m.
    by rewrite lookup_delete_ne by (by intros ->).
  - exists ld. split; [done|]. eapply index_ext; [|exact HD]. intros b m Hbm Hm. exists m.
    by rewrite lookup_delete_ne by (by intros ->).
Qed.

Lemma remove_ptr_run w p r ba da SF SD a n :
  port_rep w p r ba da SF SD -> x_nodes w !! a = Some n -> a ∈ SF ->
  wp (node_remove_ptr_locked (Some p) (Some a)) (fun found w' => found = true /\
    port_rep w' p (r <| pp_count := u64 (pp_count r - 1) |>) ba da (SF ∖ {[a]}) (SD ∖ {[a]}) /\
    surgery p ba da (SF ∪ SD) w w' /\ core <$> x_nodes w' = core <$> delete a (x_nodes w)) w.
Proof.
  intros HP Ha HaF. unfold node_remove_ptr_locked. pose proof HP as [Hp Hn Hb Hd Hne (l & Hl & HF) Hdata]. psteps.
  rewrite Hn, Hb. eapply wp_mono; [by eapply (index_remove_run pn_next fd_key)|].
  intros found w1 (z & v & l' & -> & Hz & -> & HI). rewrite bool_decide_eq_true_2 by done.
  set (h1 := upd (x_nodes w) z _) in *. set (w1 := set x_arrays _ _).
  assert (Hc1 : no_next <$> h1 = no_next <$> x_nodes w) by (by apply fmap_upd_same).
  destruct (fmap_same_lookup _ _ _ _ _ Hc1 Ha) as (n1 & Hn1 & _).
  assert (Hs1 : surgery p ba da SF w w1).
  { split; try done; unfold w1; sget.
    - intros c Hc _. by rewrite lookup_insert_ne.
    - intros b Hb'. unfold h1. rewrite upd_lookup. case_decide as E; [|done]. by apply Hz in E as [? _]. }
  assert (HP1 : port_rep w1 p r ba da (SF ∖ {[a]}) SD).
  { eapply rep_fd_change; [exact HP|exact Hp|done| |exact HI|done|done|done]. by eapply (same_links_fmap _ _ no_next). }
  apply wp_bind. eapply wp_mono; [by eapply data_remove_run|]. intros _ w2 (HP2 & Hs2 & HPo2 & Hc2).
  destruct (fmap_same_lookup _ _ _ _ _ Hc2 Hn1) as (n2 & Hn2 & _).
  apply wp_bind. eapply wp_run; [by eapply del_some|]. pose proof (pr_port _ _ _ _ _ _ _ HP2) as Hp2. psteps.
  split_and!; [done| | |].
  - eapply (rep_port_field (w2 <| x_nodes := delete a (x_nodes w2) |>)); [apply rep_delete; [done|set_solver|set_solver]| |done|done|done|done|done].
    sget. apply lookup_insert_eq.
  - transitivity w1; [eapply surgery_weaken; [|done]; set_solver|]. transitivity w2; [eapply surgery_weaken; [|done]; set_solver|].
    split; try done; sget.
    + intros q Hq. by rewrite lookup_insert_ne.
    + intros b Hb'. rewrite lookup_delete_ne; [done|]. set_solver.
  - rewrite !fmap_delete. f_equal. rewrite (core_no_data_next _ _ Hc2). apply (core_no_next _ _ Hc1).
Qed.

(** ** Searches *)

(** A node that is a registration of [fd] with fingerprint [identity]. *)
Definition node_matches (fd : Z) (identity : posix_fd_identity) (h : nodes) a : Prop :=
  exists n, h !! a = Some n /\ pn_fd n = fd /\ pn_identity n = identity.
#[local] Instance node_matches_dec fd identity h a : Decision (node_matches fd identity h a).
Proof.
  unfold node_matches. destruct (h !! a) as [n|]; [|right; by intros (? & ? & _)].
  destruct (decide (pn_fd n = fd)); [|right; by intros (? & [= <-] & ? & _)].
  destruct (decide (pn_identity n = identity)); [left; by exists n|right; by intros (? & [= <-] & _ & ?)].
Defined.

Lemma fd_identity_equal_spec i j : fd_identity_equal i j = bool_decide (i = j).
Proof.
  unfold fd_identity_equal. destruct i as [d1 i1 m1 r1], j as [d2 i2 m2 r2]. cbn.
  apply eq_bool_prop_intro. rewrite !andb_True, bool_decide_spec, !Is_true_true, !Z.eqb_eq.
  split; [by intros [[[-> ->] ->] ->]|by intros [= -> -> -> ->]].
Qed.

Lemma find_identity_run w fd identity : forall L fuel q m0 f0,
  chain (link pn_next (x_nodes w)) q L -> (length L <= fuel)%nat ->
  let ML := filter (node_matches fd identity (x_nodes w)) L in
  find_identity_loop fuel q fd identity m0 f0 w =
    Some ((m0 + Z.of_nat (length ML), match last ML with Some a => Some a | None => f0 end), w).
Proof.
  induction L as [|a L IH]; intros fuel q m0 f0 Hc Hf ML; unfold ML.
  - cbn in Hc. subst q. cbn [filter list_filter length last]. rewrite Z.add_0_r. by destruct fuel.
  - destruct Hc as [-> (q' & Hq & Hc)]. destruct fuel as [|fuel]; [cbn in Hf; lia|]. cbn [find_identity_loop].
    unfold link in Hq. destruct (x_nodes w !! a) as [n|] eqn:Hn; [|done]. injection Hq as <-. repeat mstep.
    rewrite fd_identity_equal_spec. cbn in Hf. rewrite filter_cons. case_decide as Hm.
    + destruct Hm as (n' & Hn' & <- & <-). assert (n' = n) as -> by congruence.
      rewrite Z.eqb_refl, bool_decide_eq_true_2 by done. cbn [andb]. rewrite IH by (done || lia). do 2 f_equal. f_equal.
      * cbn [length]. lia.
      * by destruct (filter _ L) as [|b l] using rev_ind; [|rewrite app_comm_cons, !last_snoc].
    + assert ((pn_fd n =? fd) && bool_decide (pn_identity n = identity) = false) as ->.
      { apply not_true_is_false. intros [E1%Z.eqb_eq E2%bool_decide_eq_true]%andb_true_iff. apply Hm. by exists n. }
      by rewrite IH by (done || lia).
Qed.

(** The search for a registration finds the matches of the whole set. *)
Lemma node_find_run w p r ba da SF SD fd identity :
  port_rep w p r ba da SF SD ->
  exists ML, NoDup ML /\ (forall a, a ∈ ML <-> a ∈ SF /\ node_matches fd identity (x_nodes w) a) /\
    node_find_identity_locked (Some p) fd identity w =
      Some ((match ML with [a] => Some a | _ => NULL end, Z.of_nat (length ML), fd_slot POSIX_N_BUCKETS fd), w).
Proof.
  intros HP. pose proof HP as [Hp Hn Hb Hd Hne (l & Hl & HF) Hdata].
  destruct (ix_chain _ _ _ _ _ HF (fd_slot POSIX_N_BUCKETS fd)) as (L & HL & Hnd & HM); [by apply slot_range|].
  exists (filter (node_matches fd identity (x_nodes w)) L). split_and!.
  - by apply NoDup_filter.
  - intros a. rewrite list_elem_of_filter, HM. split; [tauto|]. intros [Ha (n & Hna & Hfd & Hid)].
    split; [by exists n|]. split; [done|]. exists n. by rewrite Hfd.
  - unfold node_find_identity_locked. repeat mstep. rewrite Hn, Hb.
    erewrite bind_some by (eapply array_get_run; [exact Hl|rewrite (ix_length _ _ _ _ _ HF); by apply slot_range]).
    repeat mstep. erewrite bind_some by (apply find_identity_run; [exact HL|by eapply chain_length]).
    cbv beta iota. unfold ret. do 2 f_equal. f_equal.
    destruct (filter _ L) as [|a [|b ML]]; [done|done|]. rewrite Z.add_0_l. destruct (Z.eqb_spec (Z.of_nat (length (a :: b :: ML))) 1) as [E|]; [|done].
    cbn [length] in E. lia.
Qed.
End PosixCtl.
