(* ===== verification/PosixWait.v ===== *)
(** * Waits of the POSIX backend

    [src/wepoll_ex_posix.c], 766-1064: the timeouts of the millisecond interface,
    waits longer than one call, and the extended wait, which expands the native
    records in place.  The caller's array is a list of bytes. *)
From S2P Require Import Prelude Codes Errno Timeout PosixTypes PosixPort.

Section PosixWait.
Context {K : Type} `{!Linux K} `{!Env K}.

(** ** Timeouts *)

Definition timespec_valid (t : timespec) : bool :=
  negb ((tv_sec t <? 0) || (tv_nsec t <? 0) || (1000000000 <=? tv_nsec t)).
Definition validate_timespec_timeout (timeout : option timespec) : PM K Z :=
  match timeout with
  | None => ret 0
  | Some t => if timespec_valid t then ret 0 else fail_errno EINVAL
  end.

(** The milliseconds of the next call and whether more follow. *)
Definition millisecond_chunk (t : timespec) : Z * bool :=
  let max_seconds := INT_MAX / 1000 in
  let max_nanoseconds := INT_MAX mod 1000 * 1000000 in
  if (max_seconds <? tv_sec t) || ((tv_sec t =? max_seconds) && (max_nanoseconds <? tv_nsec t))
  then (INT_MAX, true)
  else
    let milliseconds := tv_sec t * 1000 in
    let milliseconds :=
      if negb (tv_nsec t =? 0) then milliseconds + Z.quot (tv_nsec t + 999999) 1000000 else milliseconds in
    (i32 milliseconds, false).
Definition timeout_to_millisecond_chunk (timeout : option timespec) : PM K (option (Z * bool)) :=
  valid <- validate_timespec_timeout timeout ;;
  if negb (valid =? 0) then ret None
  else match timeout with
       | None => ret (Some (-1, false))
       | Some t => ret (Some (millisecond_chunk t))
       end.

Definition timeout_subtract_millisecond_chunk (t : timespec) (milliseconds : Z) : timespec :=
  let seconds := Z.quot milliseconds 1000 in
  let nanoseconds := Z.rem milliseconds 1000 * 1000000 in
  let sec := tv_sec t - seconds in
  if tv_nsec t <? nanoseconds
  then mk_timespec (sec - 1) (tv_nsec t + 1000000000 - nanoseconds)
  else mk_timespec sec (tv_nsec t - nanoseconds).

(** ** Native waits: the records delivered, or [None] for -1 *)

Definition posix_millisecond_wait (epfd maxevents timeout_ms : Z) (sigmask : option Z)
    : PM K (option (list epoll_event)) :=
  libc_sum (sys_epoll_wait epfd maxevents timeout_ms sigmask).

Fixpoint wait_chunks_loop (fuel : nat) (epfd maxevents : Z) (remaining : timespec) (sigmask : option Z)
    : PM K (option (list epoll_event)) :=
  match fuel with
  | O => stuck
  | S fuel =>
    chunk <- timeout_to_millisecond_chunk (Some remaining) ;;
    match chunk with
    | None => ret None
    | Some (timeout_ms, has_more) =>
      result <- posix_millisecond_wait epfd maxevents timeout_ms sigmask ;;
      if bool_decide (result <> Some []) || negb has_more then ret result
      else wait_chunks_loop fuel epfd maxevents (timeout_subtract_millisecond_chunk remaining timeout_ms) sigmask
    end
  end.
Definition posix_timespec_wait_chunks (epfd maxevents : Z) (remaining : timespec) (sigmask : option Z)
    : PM K (option (list epoll_event)) := wait_chunks_loop chunk_fuel epfd maxevents remaining sigmask.

(** The error of restoring the mask, or 0. *)
Definition posix_signal_mask_restore (previous : Z) : PM K Z :=
  r <- ask (sys_sigmask previous) ;;
  ret (match r with inl e => e | inr _ => 0 end).

(** A long wait with a mask: every signal is blocked between the chunks. *)
Definition masked_wait_chunks (epfd maxevents : Z) (t : timespec) (sigmask : option Z)
    : PM K (option (list epoll_event)) :=
  blocked_mask <- libc_sum sys_sigfillset ;;
  match blocked_mask with
  | None => ret None
  | Some blocked_mask =>
    previous <- ask (sys_sigmask blocked_mask) ;;
    match previous with
    | inl mask_error => set_errno mask_error ;; ret None
    | inr previous =>
      result <- posix_timespec_wait_chunks epfd maxevents t sigmask ;;
      saved_errno <- get x_errno ;;
      error <- posix_signal_mask_restore previous ;;
      if negb (error =? 0) then set_errno error ;; ret None
      else set_errno saved_errno ;; ret result
    end
  end.

Definition posix_timespec_wait_fallback (epfd maxevents : Z) (timeout : option timespec) (sigmask : option Z)
    : PM K (option (list epoll_event)) :=
  valid <- validate_timespec_timeout timeout ;;
  if negb (valid =? 0) then ret None
  else match timeout with
  | None => posix_millisecond_wait epfd maxevents (-1) sigmask
  | Some t =>
    chunk <- timeout_to_millisecond_chunk timeout ;;
    match chunk with
    | None => ret None
    | Some (timeout_ms, has_more) =>
      if negb has_more then posix_millisecond_wait epfd maxevents timeout_ms sigmask
      else match sigmask with
           | None => posix_timespec_wait_chunks epfd maxevents t None
           | Some _ => masked_wait_chunks epfd maxevents t sigmask
           end
    end
  end.

(** [have_pwait2] is [WEPOLL_EX_HAVE_EPOLL_PWAIT2]. *)
Definition posix_native_wait (have_pwait2 : bool) (epfd maxevents timeout_ms : Z) (timeout : option timespec)
    (use_timespec : bool) (sigmask : option Z) : PM K (option (list epoll_event)) :=
  if use_timespec then
    if have_pwait2 then
      result <- libc_sum (sys_epoll_pwait2 epfd maxevents timeout sigmask) ;;
      e <- get x_errno ;;
      if bool_decide (result <> None) || negb (e =? LINUX_ENOSYS) then ret result
      else posix_timespec_wait_fallback epfd maxevents timeout sigmask
    else posix_timespec_wait_fallback epfd maxevents timeout sigmask
  else posix_millisecond_wait epfd maxevents timeout_ms sigmask.

(** ** The extended wait *)

(** [memcpy] of [l] to the offset [off] of a buffer. *)
Definition store (off : nat) (l buffer : list Z) : PM K (list Z) :=
  if (off + length l <=? length buffer)%nat
  then ret (take off buffer ++ l ++ drop (off + length l) buffer)
  else stuck.

Definition expand_event (now_ns : Z) (native : epoll_event) (s : option posix_sock_snapshot) : epoll_event_ex :=
  let e := mk_event_ex (ev_events native) (ev_data native) 0 now_ns 0 in
  match s with
  | None => e
  | Some s =>
    let e := e <| ex_user_ctx := sn_user_ctx s |> in
    let e := if has (ev_events (sn_event s)) EPOLLET
             then e <| ex_flags := Z.lor (ex_flags e) (Z.lor WEPOLL_FLAG_ET_DELIVERED WEPOLL_FLAG_EDGE_ARMED) |>
             else e in
    if has (ev_events (sn_event s)) EPOLLONESHOT
    then e <| ex_flags := Z.lor (ex_flags e) WEPOLL_FLAG_ONESHOT_FIRED |>
    else e
  end.

(** The records are expanded from the last to the first. *)
Fixpoint expand_loop (p : ptr) (metadata_stable : bool) (now_ns : Z) (i : nat) (buffer : list Z) : PM K (list Z) :=
  match i with
  | O => ret buffer
  | S i =>
    let native := decode_event (take sizeof_event (drop (i * sizeof_event) buffer)) in
    s <- (if metadata_stable then node_snapshot_by_data_locked p (ev_data native) else ret None) ;;
    buffer <- store (i * sizeof_event_ex) (encode_event_ex (expand_event now_ns native s)) buffer ;;
    expand_loop p metadata_stable now_ns i buffer
  end.

Definition monotonic_ns : PM K Z :=
  ts <- libc_sum sys_clock_gettime ;;
  ret (match ts with None => 0 | Some ts => u64 (u64 (tv_sec ts) * 1000000000 + u64 (tv_nsec ts)) end).

(** Give the reference back and fail. *)
Definition release_and_fail (p : ptr) (e : Z) : PM K Z := port_release p ;; fail_errno e.

(** The critical section that decorates the events. *)
Definition decorate (p : ptr) (metadata_generation now_ns : Z) (n : nat) (buffer : list Z) : PM K (list Z) :=
  generation <- rd x_ports p pp_metadata_generation ;;
  expand_loop p (generation =? metadata_generation) now_ns n buffer.

(** The result and the caller's array. *)
Definition posix_wait_ex (have_pwait2 : bool) (epfd : Z) (events : option (list Z)) (maxevents timeout_ms : Z)
    (timeout : option timespec) (use_timespec : bool) (sigmask : option Z) : PM K (Z * list Z) :=
  if (maxevents <=? 0) || (WEPOLL_EPOLL_EX_MAX_EVENTS <? maxevents) then
    r <- fail_errno EINVAL ;; ret (r, default [] events)
  else match events with
  | None => r <- fail_errno EFAULT ;; ret (r, [])
  | Some buffer =>
    p <- port_acquire_or_create epfd ;;
    if bool_decide (p = NULL) then ret (-1, buffer)
    else
      others ;;
      metadata_generation <- rd x_ports p pp_metadata_generation ;;
      wait_epfd <- rd x_ports p pp_control_epfd ;;
      native <- posix_native_wait have_pwait2 wait_epfd maxevents timeout_ms timeout use_timespec sigmask ;;
      match native with
      | None =>
        saved_errno <- get x_errno ;;
        closing <- port_is_closing p ;;
        r <- release_and_fail p (if closing : bool then EBADF else saved_errno) ;;
        ret (r, buffer)
      | Some native =>
        (* the kernel's copy into the array *)
        buffer <- store 0 (concat (encode_event <$> native)) buffer ;;
        closing <- port_is_closing p ;;
        if closing : bool then r <- release_and_fail p EBADF ;; ret (r, buffer)
        else
          now_ns <- monotonic_ns ;;
          others ;;
          buffer <- decorate p metadata_generation now_ns (length native) buffer ;;
          closing <- port_is_closing p ;;
          if closing : bool then r <- release_and_fail p EBADF ;; ret (r, buffer)
          else port_release p ;; ret (Z.of_nat (length native), buffer)
      end
  end.

(** A wait that is cancelled inside the native call gives its reference back. *)
Definition posix_wait_cancel_cleanup (p : ptr) : PM K unit := port_release p.
End PosixWait.
