(* ===== verification/PosixApi.v ===== *)
(** * Public functions of the POSIX backend

    [src/wepoll_ex_posix.c], 1066-1532: the exported functions, each of which
    holds a reference on its port, the close of a descriptor, and the stubs of the
    Windows entry points. *)
From S2P Require Import Prelude Codes Errno Timeout PosixTypes PosixPort PosixWait.

Definition WEPOLL_EX_SOCKET_LIFETIME_NOT_APPLICABLE : Z := 3.

Section PosixApi.
Context {K : Type} `{!Linux K} `{!Env K}.

(** ** References *)

(** Acquire, operate, release; the operation's error is the caller's. *)
Definition with_posix_port (epfd : Z) (operation : ptr -> PM K Z) : PM K Z :=
  p <- port_acquire_or_create epfd ;;
  if bool_decide (p = NULL) then ret (-1)
  else
    others ;;
    result <- operation p ;;
    saved_errno <- get x_errno ;;
    port_release p ;;
    (if negb (result =? 0) then set_errno saved_errno else ret tt) ;;
    ret result.

Definition posix_epoll_create_ex (size flags : Z) : PM K Z :=
  if (size <? 0) || negb (Z.ldiff flags (Z.lor EPOLL_CLOEXEC WEPOLL_EX_CREATE_EXPLICIT_REARM) =? 0)
  then fail_errno EINVAL
  else if has flags WEPOLL_EX_CREATE_EXPLICIT_REARM then fail_errno LINUX_EOPNOTSUPP
  else
    epfd <- libc (sys_epoll_create1 flags) ;;
    if epfd <? 0 then ret (-1)
    else
      p <- port_acquire_or_create epfd ;;
      if bool_decide (p = NULL) then
        saved_errno <- get x_errno ;;
        close_quietly epfd ;;
        fail_errno saved_errno
      else port_release p ;; ret epfd.

Definition posix_epoll_ctl_ctx (epfd op fd : Z) (ev : option epoll_event) (user_ctx : Z) : PM K Z :=
  with_posix_port epfd (fun p => port_ctl_ctx p op fd ev user_ctx).

Definition posix_epoll_wait_ex (have_pwait2 : bool) (epfd : Z) (events : option (list Z)) (maxevents timeout : Z)
    : PM K (Z * list Z) :=
  posix_wait_ex have_pwait2 epfd events maxevents timeout None false None.

Definition posix_epoll_pwait2_ex (have_pwait2 : bool) (epfd : Z) (events : option (list Z)) (maxevents : Z)
    (timeout : option timespec) (sigmask : option Z) : PM K (Z * list Z) :=
  valid <- validate_timespec_timeout timeout ;;
  if negb (valid =? 0) then ret (-1, default [] events)
  else posix_wait_ex have_pwait2 epfd events maxevents 0 timeout true sigmask.

(** ** Batches *)

(** One entry of a batch: operation, descriptor and event. *)
Definition posix_batch_event (op : Z) (event : epoll_event) : option epoll_event :=
  if (op =? EPOLL_CTL_ADD) || (op =? EPOLL_CTL_MOD) then Some event else None.

Fixpoint posix_batch_invalid (entries : list (Z * Z * epoll_event)) (events : bool) : Z :=
  match entries with
  | [] => 0
  | (op, _, _) :: entries =>
    if negb (ctl_valid_op op) then EINVAL
    else if ((op =? EPOLL_CTL_ADD) || (op =? EPOLL_CTL_MOD)) && negb events then EFAULT
    else posix_batch_invalid entries events
  end.

(** Undo the ADDs of the applied entries, the latest first. *)
Fixpoint posix_batch_undo (p : ptr) (applied : list (Z * Z * epoll_event)) : PM K unit :=
  match applied with
  | [] => ret tt
  | (op, fd, _) :: applied =>
    (if op =? EPOLL_CTL_ADD then others ;; port_ctl_ctx p EPOLL_CTL_DEL fd None 0 ;; ret tt else ret tt) ;;
    posix_batch_undo p applied
  end.
Fixpoint posix_batch_apply (p : ptr) (entries applied : list (Z * Z * epoll_event)) : PM K Z :=
  match entries with
  | [] => port_release p ;; ret 0
  | (op, fd, event) :: entries =>
    others ;;
    r <- port_ctl_ctx p op fd (posix_batch_event op event) 0 ;;
    if r =? 0 then posix_batch_apply p entries ((op, fd, event) :: applied)
    else
      saved_errno <- get x_errno ;;
      posix_batch_undo p applied ;;
      port_release p ;;
      fail_errno saved_errno
  end.

(** [arrays]: [ops] and [fds] are not NULL; [events]: nor is the event array. *)
Definition posix_epoll_ctl_batch (epfd : Z) (arrays events : bool) (entries : list (Z * Z * epoll_event)) : PM K Z :=
  if bool_decide (entries = []) then fail_errno EINVAL
  else if negb arrays then fail_errno EFAULT
  else
    let invalid := posix_batch_invalid entries events in
    if negb (invalid =? 0) then fail_errno invalid
    else
      p <- port_acquire_or_create epfd ;;
      if bool_decide (p = NULL) then ret (-1) else posix_batch_apply p entries [].

(** ** Other operations *)

Definition posix_epoll_drain (epfd maxevents : Z) : PM K (option (list epoll_event)) :=
  libc_sum (sys_epoll_wait epfd maxevents 0 None).

Definition posix_epoll_rearm (epfd fd : Z) : PM K Z := with_posix_port epfd (fun p => port_rearm p fd).

Definition posix_epoll_rearm_classes (epfd fd classes : Z) : PM K Z := fail_errno LINUX_EOPNOTSUPP.
Definition posix_epoll_rearm_classes_batch (epfd count : Z) : PM K Z := fail_errno LINUX_EOPNOTSUPP.
Definition posix_wepoll_ex_wake (epfd : Z) : PM K Z := fail_errno LINUX_EOPNOTSUPP.
Definition posix_wepoll_ex_wake_event (epfd : Z) (event : option epoll_event) : PM K Z := fail_errno LINUX_EOPNOTSUPP.
Definition posix_wepoll_ex_dup (epfd : Z) : PM K Z := fail_errno LINUX_EOPNOTSUPP.

(** The saved error is the caller's only when the count is negative. *)
Definition posix_epoll_fd_count (epfd : Z) : PM K Z :=
  p <- port_acquire_or_create epfd ;;
  if bool_decide (p = NULL) then ret (-1)
  else
    others ;;
    result <- port_count p ;;
    saved_errno <- get x_errno ;;
    port_release p ;;
    (if result <? 0 then set_errno saved_errno else ret tt) ;;
    ret result.

Definition posix_wepoll_ex_close_socket (epfd fd : Z) : PM K Z :=
  if fd <? 0 then fail_errno EBADF
  else
    unregister_result <- posix_epoll_ctl_ctx epfd EPOLL_CTL_DEL fd None 0 ;;
    unregister_error <- get x_errno ;;
    if negb (unregister_result =? 0) && negb (unregister_error =? ENOENT) then fail_errno unregister_error
    else libc (sys_close fd).

Definition posix_wepoll_ex_shutdown_socket (epfd fd how : Z) : PM K Z :=
  if fd <? 0 then fail_errno EBADF
  else with_posix_port epfd (fun _ => libc (sys_shutdown fd how)).

(** ** Snapshots: the bytes of the caller's structure afterwards *)

Definition posix_copy_versioned_snapshot (destination : bool) (destination_size : Z) (snapshot : list Z)
    : PM K (option (list Z)) :=
  if negb destination then set_errno EFAULT ;; ret None
  else if destination_size <? 8 then set_errno EINVAL ;; ret None
  else
    let copied := take (Z.to_nat destination_size) snapshot in
    ret (Some (copied ++ replicate (Z.to_nat destination_size - length copied) 0)).

Definition posix_capabilities : list Z :=
  le_bytes 4 1 ++ le_bytes 4 32 ++
  le_bytes 8 (Z.lor (Z.shiftl 1 0) (Z.lor (Z.shiftl 1 5) (Z.lor (Z.shiftl 1 6)
    (Z.lor (Z.shiftl 1 10) (Z.lor (Z.shiftl 1 13) (Z.shiftl 1 14)))))) ++ replicate 16 0.
Definition posix_wepoll_ex_get_capabilities (capabilities : bool) (size : Z) : PM K (option (list Z)) :=
  posix_copy_versioned_snapshot capabilities size posix_capabilities.

Definition posix_stats (count : Z) : list Z :=
  le_bytes 4 1 ++ le_bytes 4 168 ++ le_bytes 4 WEPOLL_EX_SOCKET_LIFETIME_NOT_APPLICABLE ++ le_bytes 4 0 ++
  le_bytes 8 count ++ replicate 144 0.
Definition posix_wepoll_ex_get_stats (epfd : Z) (stats : bool) (stats_size : Z) : PM K (option (list Z)) :=
  if negb stats || (stats_size <? 8) then
    set_errno (if negb stats then EFAULT else EINVAL) ;; ret None
  else
    p <- port_acquire_or_create epfd ;;
    if bool_decide (p = NULL) then ret None
    else
      others ;;
      count <- rd x_ports p pp_count ;;
      port_release p ;;
      posix_copy_versioned_snapshot stats stats_size (posix_stats count).

Definition posix_global_stats : list Z := le_bytes 4 1 ++ le_bytes 4 48 ++ replicate 40 0.
Definition posix_wepoll_ex_get_global_stats (stats : bool) (stats_size : Z) : PM K (option (list Z)) :=
  if negb stats || (stats_size <? 8) then
    set_errno (if negb stats then EFAULT else EINVAL) ;; ret None
  else posix_copy_versioned_snapshot stats stats_size posix_global_stats.

Definition posix_error_info (e : Z) : list Z := le_bytes 4 1 ++ le_bytes 4 32 ++ le_bytes 4 e ++ replicate 20 0.
Definition posix_wepoll_ex_get_last_error_info (error_info : bool) (size : Z) : PM K (option (list Z)) :=
  e <- get x_errno ;;
  posix_copy_versioned_snapshot error_info size (posix_error_info e).

Definition posix_get_socket_lifetime_policy : Z := WEPOLL_EX_SOCKET_LIFETIME_NOT_APPLICABLE.

(** ** Close *)

(** The descriptor leaves the registry; whether it was the last of its port. *)
Definition close_detach (p : ptr) (epfd : Z) : PM K bool :=
  port_remove_epfd_locked p epfd ;;
  port_update_canonical_locked p ;;
  aliases <- rd x_ports p pp_aliases ;;
  if aliases =? 0 then
    wr x_ports p pp_closing true ;;
    port_wake_waiters_locked p ;;
    ret true
  else ret false.

(** The close of the public descriptor, and what follows outside the lock. *)
Definition close_finish (p : ptr) (epfd : Z) (close_public_fd free_port : bool) : PM K Z :=
  result <- (if close_public_fd then libc (sys_close epfd) else ret (-1)) ;;
  saved_errno <- get x_errno ;;
  (if bool_decide (p <> NULL) && free_port then port_wait_and_free p else ret tt) ;;
  (if negb close_public_fd then set_errno EBADF
   else if negb (result =? 0) then set_errno saved_errno else ret tt) ;;
  ret result.

Definition posix_wepoll_close (epfd : Z) : PM K Z :=
  others ;;
  p <- lookup_or_alias epfd ;;
  match p with
  | None => ret (-1)
  | Some None => close_finish NULL epfd true false
  | Some (Some _ as p) =>
    closing <- rd x_ports p pp_closing ;;
    if closing : bool then fail_errno EBADF
    else
      identity_result <- port_identity_check p epfd ;;
      identity_errno <- get x_errno ;;
      if negb (identity_result =? 0) then
        if (identity_result <? 0) && negb (identity_errno =? EBADF) && negb (identity_errno =? EINVAL)
        then fail_errno identity_errno
        else
          free_port <- close_detach p epfd ;;
          close_finish p epfd false free_port
      else
        free_port <- close_detach p epfd ;;
        close_finish p epfd true free_port
  end.

(** ** Stubs of the shared and the Windows entry points *)

Definition posix_ep_set_errno (e : Z) : PM K unit := set_errno e.
Definition posix_ep_last_err : PM K Z := get x_errno.
Definition posix_ep_winerr_to_errno (e : Z) : Z := EINVAL.
Definition posix_ep_status_to_errno (s : Z) : Z := EINVAL.
Definition posix_ep_set_native_error (e domain code : Z) : PM K unit := set_errno e.
Definition posix_ep_set_win32_error (e : Z) : PM K unit := set_errno (posix_ep_winerr_to_errno e).
Definition posix_ep_set_ntstatus_error (s : Z) : PM K unit := set_errno (posix_ep_status_to_errno s).
Definition posix_ep_restore_last_error_info (portable_error : Z) : PM K unit := set_errno portable_error.
Definition posix_ep_port_unsupported : PM K Z := fail_errno LINUX_ENOSYS.
End PosixApi.
