(* ===== verification/PosixKernel.v ===== *)
(** * A small Linux

    An executable kernel for the POSIX backend: descriptors that name open file
    descriptions, epoll instances whose interest lists are keyed by descriptor and
    description, eventfds, and a wait that reports what is ready.  It instantiates
    the platform of the theorems of the backend. *)
From S2P Require Import Prelude Codes Errno Timeout PosixTypes PosixPort.

(** An open file description: an epoll instance with its interest list, an
    eventfd with its counter, or something whose readiness is set from outside. *)
Inductive file :=
| FEpoll (interest : gmap (Z * positive) epoll_event)
| FEvent (counter : Z)
| FOther (ready : Z).

Record linux_state := mk_linux {
  k_fds : gmap Z positive;  (* descriptor table *)
  k_files : gmap positive file;  (* open file descriptions *)
  k_next : positive;  (* the next description *)
  k_memory : Z;  (* the next address *)
  k_clock : Z;  (* nanoseconds *)
  k_mask : Z  (* signal mask *)
}.
#[export] Instance eta_linux_state : Eta linux_state := fun r =>
  mk_linux (k_fds r) (k_files r) (k_next r) (k_memory r) (k_clock r) (k_mask r).
#[export] Instance set_k_fds : Setter k_fds := ltac:(derive_setter).
#[export] Instance set_k_files : Setter k_files := ltac:(derive_setter).
#[export] Instance set_k_next : Setter k_next := ltac:(derive_setter).
#[export] Instance set_k_memory : Setter k_memory := ltac:(derive_setter).
#[export] Instance set_k_clock : Setter k_clock := ltac:(derive_setter).
#[export] Instance set_k_mask : Setter k_mask := ltac:(derive_setter).

(** The lowest unused descriptor. *)
Definition lowest (m : gmap Z positive) : Z :=
  default 0 (head (filter (fun fd => m !! fd = None) (Z.of_nat <$> seq 3 (S (size m))))).

Definition open_file (f : file) (s : linux_state) : Z * linux_state :=
  let fd := lowest (k_fds s) in
  (fd, s <| k_fds := <[fd := k_next s]> (k_fds s) |> <| k_files := <[k_next s := f]> (k_files s) |>
         <| k_next := Pos.succ (k_next s) |>).

(** The description is gone with its last descriptor, and with it its entries in
    every interest list. *)
Definition forget (d : positive) (f : file) : file :=
  match f with FEpoll l => FEpoll (filter (fun x => x.1.2 <> d) l) | _ => f end.
Definition close_file (fd : Z) (s : linux_state) : Z * linux_state :=
  match k_fds s !! fd with
  | None => (- EBADF, s)
  | Some d =>
    let fds := delete fd (k_fds s) in
    if decide (map_Forall (fun _ d' => d' <> d) fds)
    then (0, s <| k_fds := fds |> <| k_files := forget d <$> delete d (k_files s) |>)
    else (0, s <| k_fds := fds |>)
  end.

Definition ctl_file (epfd op fd : Z) (ev : option epoll_event) (s : linux_state) : Z * linux_state :=
  match k_fds s !! epfd, k_fds s !! fd with
  | Some d, Some t =>
    match k_files s !! d with
    | Some (FEpoll l) =>
      let put l := s <| k_files := <[d := FEpoll l]> (k_files s) |> in
      match l !! (fd, t), ev with
      | None, Some e => if op =? EPOLL_CTL_ADD then (0, put (<[(fd, t) := e]> l)) else (- ENOENT, s)
      | None, None => (- ENOENT, s)
      | Some _, Some e => if op =? EPOLL_CTL_MOD then (0, put (<[(fd, t) := e]> l))
                          else if op =? EPOLL_CTL_DEL then (0, put (delete (fd, t) l)) else (- EEXIST, s)
      | Some _, None => if op =? EPOLL_CTL_DEL then (0, put (delete (fd, t) l)) else (- EFAULT, s)
      end
    | _ => (- EINVAL, s)
    end
  | _, _ => (- EBADF, s)
  end.

(** What is ready now. *)
Definition ready_of (f : file) : Z :=
  match f with FEvent c => if 0 <? c then EPOLLIN else 0 | FOther r => r | FEpoll _ => 0 end.
Definition report (s : linux_state) (x : Z * positive * epoll_event) : option epoll_event :=
  let '(_, d, e) := x in
  f ← k_files s !! d;
  let r := Z.land (ev_events e) (ready_of f) in
  if r =? 0 then None else Some (mk_event r (ev_data e)).
Definition wait_file (epfd maxevents : Z) (s : linux_state) : (Z + list epoll_event) * linux_state :=
  match k_fds s !! epfd ≫= (fun d => k_files s !! d) with
  | Some (FEpoll l) => (inr (take (Z.to_nat maxevents) (omap (report s) (map_to_list l))), s)
  | Some _ => (inl EINVAL, s)
  | None => (inl EBADF, s)
  end.

#[export] Instance small_linux : Linux linux_state := {|
  sys_epoll_create1 _ s := open_file (FEpoll ∅) s;
  sys_epoll_ctl := ctl_file;
  sys_epoll_wait epfd maxevents ms _ s :=
    let '(r, s) := wait_file epfd maxevents s in
    (r, match r with inr [] => s <| k_clock ::= Z.add (ms * 1000000) |> | _ => s end);
  sys_epoll_pwait2 _ _ _ _ s := (inl LINUX_ENOSYS, s);
  sys_fcntl_getfd fd s := (if decide (is_Some (k_fds s !! fd)) then 0 else - EBADF, s);
  sys_fcntl_dupfd fd s :=
    match k_fds s !! fd with
    | Some d => let fd' := lowest (k_fds s) in (fd', s <| k_fds := <[fd' := d]> (k_fds s) |>)
    | None => (- EBADF, s)
    end;
  sys_pipe2 s := let '(a, s) := open_file (FOther 0) s in let '(b, s) := open_file (FOther EPOLLOUT) s in (inr (a, b), s);
  sys_close := close_file;
  sys_eventfd s := open_file (FEvent 0) s;
  sys_write fd s :=
    match k_fds s !! fd ≫= (fun d => pair d <$> k_files s !! d) with
    | Some (d, FEvent c) => (8, s <| k_files := <[d := FEvent (c + 1)]> (k_files s) |>)
    | _ => (- EINVAL, s)
    end;
  sys_fstat fd s :=
    match k_fds s !! fd with
    | Some d => (inr (mk_stat 1 (Z.pos d) 0x1180 0), s)
    | None => (inl EBADF, s)
    end;
  sys_shutdown fd _ s := (if decide (is_Some (k_fds s !! fd)) then 0 else - EBADF, s);
  sys_clock_gettime s := (inr (mk_timespec (k_clock s / 1000000000) (k_clock s mod 1000000000)), s);
  sys_calloc _ s := (k_memory s, s <| k_memory := k_memory s + 1 |>);
  sys_mutex_init s := (0, s);
  sys_cond_init s := (0, s);
  sys_sigmask m s := (inr (k_mask s), s <| k_mask := m |>);
  sys_sigfillset s := (inr (2 ^ 64 - 1), s)
|}.

(** No other thread runs; the loops have some fuel. *)
#[export] Instance alone : Env linux_state := {|
  others := ret tt;
  wake_fuel := 4;
  wait_fuel := 4;
  acquire_fuel := 4;
  chunk_fuel := 64
|}.

(** A process with an epoll instance (3) and two other open files (4 and 5). *)
Definition boot_kernel : linux_state :=
  let '(_, s) := open_file (FEpoll ∅) (mk_linux ∅ ∅ 1 1 0 0) in
  let '(_, s) := open_file (FOther EPOLLIN) s in
  let '(_, s) := open_file (FOther EPOLLOUT) s in s.
Definition boot_world : posix_world linux_state :=
  mk_posix_world 0 ∅ ∅ ∅ (null_array POSIX_PORT_MAP_SIZE) (replicate (Z.to_nat POSIX_PORT_MAP_SIZE) 0) boot_kernel.
