(* ===== verification/PosixRefine.v ===== *)
(** * The registrations of a POSIX port, abstractly

    [abs_ctl] is the control operation on a finite map of registrations; it makes
    the same calls into the platform.  [ctl_refines]: the code implements it, and
    touches nothing of other ports. *)
From S2P Require Import Prelude Codes Errno Timeout Links PosixTypes PosixPort PosixNodes PosixCtl PosixKernel.

(** ** The abstract machine *)

(** One registration. *)
Record reg := mk_reg { g_fd : Z; g_identity : posix_fd_identity; g_user_ctx : Z; g_event : epoll_event }.

(** The kernel, the error number, the addresses in use for nodes, the
    registrations of the port and its generation. *)
Record abs_state (K : Type) := mk_abs {
  b_kernel : K;
  b_errno : Z;
  b_heap : gset addr;
  b_regs : gmap addr reg;
  b_generation : Z
}.
Arguments mk_abs {K}.
Arguments b_kernel {K}.
Arguments b_errno {K}.
Arguments b_heap {K}.
Arguments b_regs {K}.
Arguments b_generation {K}.
#[export] Instance eta_abs_state {K : Type} : Eta (abs_state K) := fun r =>
  mk_abs (b_kernel r) (b_errno r) (b_heap r) (b_regs r) (b_generation r).
#[export] Instance set_b_kernel {K : Type} : Setter (@b_kernel K) := ltac:(derive_setter).
#[export] Instance set_b_errno {K : Type} : Setter (@b_errno K) := ltac:(derive_setter).
#[export] Instance set_b_heap {K : Type} : Setter (@b_heap K) := ltac:(derive_setter).
#[export] Instance set_b_regs {K : Type} : Setter (@b_regs K) := ltac:(derive_setter).
#[export] Instance set_b_generation {K : Type} : Setter (@b_generation K) := ltac:(derive_setter).

Section Abstract.
Context {K : Type} `{!Linux K} (control : Z).

Definition abs_fail (e : Z) : M (abs_state K) Z := put b_errno e ;; ret (-1).
Definition abs_libc (call : K -> Z * K) : M (abs_state K) Z := fun s =>
  let '(r, k) := call (b_kernel s) in
  if r <? 0 then Some (-1, s <| b_kernel := k |> <| b_errno := - r |>) else Some (r, s <| b_kernel := k |>).
Definition abs_capture (fd : Z) : M (abs_state K) (option posix_fd_identity) := fun s =>
  let '(r, k) := sys_fstat fd (b_kernel s) in
  match r with
  | inl e => Some (None, s <| b_kernel := k |> <| b_errno := e |>)
  | inr t => Some (Some (mk_identity (u64 (st_dev t)) (u64 (st_ino t)) (u64 (Z.land (st_mode t) S_IFMT)) (u64 (st_rdev t))),
                   s <| b_kernel := k |>)
  end.
(** Memory for a node, or none. *)
Definition abs_alloc : M (abs_state K) ptr := fun s =>
  let '(a, k) := sys_calloc sizeof_posix_sock_node (b_kernel s) in
  let s := s <| b_kernel := k |> in
  if (a <=? 0) || (UINT64_MAX <? a) || bool_decide (Z.to_pos a ∈ b_heap s) then Some (NULL, s)
  else Some (Some (Z.to_pos a), s <| b_heap := {[Z.to_pos a]} ∪ b_heap s |>).
Definition abs_free (a : ptr) : M (abs_state K) unit := fun s =>
  match a with None => Some (tt, s) | Some a => Some (tt, s <| b_heap := b_heap s ∖ {[a]} |>) end.

(** Change the registrations; every change is a new generation. *)
Definition abs_update (u : gmap addr reg -> gmap addr reg) : M (abs_state K) unit := fun s =>
  Some (tt, s <| b_regs := u (b_regs s) |> <| b_generation := next_metadata_generation (b_generation s) |>).

Definition reg_matches (fd : Z) (identity : posix_fd_identity) (g : reg) : Prop := g_fd g = fd /\ g_identity g = identity.
(** The registrations of a descriptor. *)
Definition candidates (fd : Z) (identity : posix_fd_identity) (regs : gmap addr reg) : gmap addr reg :=
  filter (fun x => reg_matches fd identity x.2) regs.

Definition abs_commit (op fd : Z) (g : option reg) (target reserved : ptr) : M (abs_state K) Z :=
  if op =? EPOLL_CTL_DEL then
    match target with
    | None => ret 0
    | Some a => abs_free (Some a) ;; abs_update (delete a) ;; ret 0
    end
  else match g with
  | None => stuck
  | Some g =>
    match target with
    | Some a => abs_update (insert a g) ;; ret 0
    | None =>
      n <- match reserved with Some _ => ret reserved | None => abs_alloc end ;;
      match n with
      | None => abs_libc (sys_epoll_ctl control EPOLL_CTL_DEL fd None) ;; abs_fail ENOMEM
      | Some a => abs_update (insert a g) ;; ret 0
      end
    end
  end.

Definition abs_native (op fd : Z) (event : option epoll_event) (g : option reg) (target reserved : ptr) : M (abs_state K) Z :=
  r <- abs_libc (sys_epoll_ctl control op fd (if op =? EPOLL_CTL_DEL then None else event)) ;;
  if negb (r =? 0) then abs_free reserved ;; ret (-1) else abs_commit op fd g target reserved.

Definition abs_ctl (op fd : Z) (event : option epoll_event) (user_ctx : Z) : M (abs_state K) Z :=
  if negb (ctl_valid_op op) then abs_fail EINVAL
  else if negb (op =? EPOLL_CTL_DEL) && bool_decide (event = None) then abs_fail EFAULT
  else
    captured <- abs_capture fd ;;
    match captured with
    | None => ret (-1)
    | Some identity =>
      regs <- get b_regs ;;
      let found := if op =? EPOLL_CTL_ADD then ∅ else candidates fd identity regs in
      let g := mk_reg fd identity user_ctx <$> event in
      if 1 <? Z.of_nat (size found) then abs_fail LINUX_EOPNOTSUPP
      else
        let target := fst <$> head (map_to_list found) in
        if (op =? EPOLL_CTL_MOD) && (0 <=? fd) && bool_decide (target = NULL) then
          reserved <- abs_alloc ;;
          match reserved with
          | None => abs_fail ENOMEM
          | Some _ => abs_native op fd event g target reserved
          end
        else abs_native op fd event g target NULL
    end.
End Abstract.

(** ** The refinement relation *)

(** What a node of a registration holds besides its links. *)
Definition core_of (g : reg) : posix_sock_node :=
  mk_posix_node (g_fd g) (g_identity g) (g_user_ctx g) (g_event g) NULL NULL (ev_data (g_event g)).

Section Refine.
Context {K : Type} `{!Linux K} `{!Env K}.
Context (w0 : posix_world K) (R : gset addr) (p ba da : addr) (r0 : posix_port).
Implicit Types (w : posix_world K) (s : abs_state K).

(** What the port may change: its nodes in [w0], and memory that was free. *)
Definition own (b : addr) : Prop := b ∈ R \/ x_nodes w0 !! b = None.

(** [w] represents [s], and differs from [w0] only in what belongs to the port
    [p] (whose nodes in [w0] are [R]). *)
Record refines w s : Prop := {
  rf_kernel : x_kernel w = b_kernel s;
  rf_errno : x_errno w = b_errno s;
  rf_heap : dom (x_nodes w) = b_heap s;
  rf_port : port_rep w p (r0 <| pp_count := u64 (Z.of_nat (size (b_regs s))) |>
                             <| pp_metadata_generation := b_generation s |>) ba da (dom (b_regs s)) (dom (b_regs s));
  rf_regs a g : b_regs s !! a = Some g -> exists n, x_nodes w !! a = Some n /\ core n = core_of g;
  rf_map : x_map w = x_map w0 /\ x_map_epfd w = x_map_epfd w0;
  rf_ports q : q <> p -> x_ports w !! q = x_ports w0 !! q;
  rf_arrays c : c <> ba -> c <> da -> x_arrays w !! c = x_arrays w0 !! c;
  rf_nodes b n : b ∉ R -> x_nodes w0 !! b = Some n -> x_nodes w !! b = Some n;
  rf_fresh b : b ∈ dom (b_regs s) -> own b
}.

Lemma fresh_own w s a : refines w s -> x_nodes w !! a = None -> own a.
Proof.
  intros Hr Ha. unfold own. destruct (decide (a ∈ R)); [by left|right]. destruct (x_nodes w0 !! a) as [m|] eqn:E; [|done].
  rewrite (rf_nodes _ _ Hr a m) in Ha; done.
Qed.

(** The code's computation follows the abstract one. *)
Definition follows {A} (m : PM K A) (m' : M (abs_state K) A) w s : Prop :=
  wp m (fun a w' => exists s', m' s = Some (a, s') /\ refines w' s') w.

Lemma follows_bind {A B} (m : PM K A) m' (k : A -> PM K B) k' w s :
  follows m m' w s -> (forall a w' s', m' s = Some (a, s') -> refines w' s' -> follows (k a) (k' a) w' s') ->
  follows (bind m k) (bind m' k') w s.
Proof.
  intros Hm Hk. eapply wp_seq; [exact Hm|]. intros a w1 (s1 & Hs1 & Hr1).
  eapply wp_mono; [by eapply Hk|]. intros b w2 (s2 & Hs2 & Hr2). exists s2. split; [|done]. by erewrite bind_some.
Qed.
(** The same, with more known of the first step. *)
Lemma follows_bind_with {A B} (P : A -> posix_world K -> abs_state K -> Prop) (m : PM K A) m' (k : A -> PM K B) k' w s :
  wp m (fun a w' => exists s', m' s = Some (a, s') /\ refines w' s' /\ P a w' s') w ->
  (forall a w' s', refines w' s' -> P a w' s' -> follows (k a) (k' a) w' s') ->
  follows (bind m k) (bind m' k') w s.
Proof.
  intros Hm Hk. eapply wp_seq; [exact Hm|]. intros a w1 (s1 & Hs1 & Hr1 & HP1).
  eapply wp_mono; [by eapply Hk|]. intros b w2 (s2 & Hs2 & Hr2). exists s2. split; [|done]. by erewrite bind_some.
Qed.
Lemma follows_ret {A} (a : A) w s : refines w s -> follows (ret a) (ret a) w s.
Proof. intros Hr. apply wp_ret. by exists s. Qed.

(** The kernel and the error number are not part of the representation. *)
Lemma rep_ext w w' r SF SD :
  port_rep w p r ba da SF SD -> x_ports w' = x_ports w -> x_nodes w' = x_nodes w -> x_arrays w' = x_arrays w ->
  port_rep w' p r ba da SF SD.
Proof. intros HP E1 E2 E3. eapply rep_port_field; [exact HP|rewrite E1; apply HP|done|done|done|done|done]. Qed.

(** They may change in step. *)
Lemma refines_answer w s k e :
  refines w s -> refines (w <| x_kernel := k |> <| x_errno := e |>) (s <| b_kernel := k |> <| b_errno := e |>).
Proof. intros []. split; try done. by eapply rep_ext. Qed.
Lemma refines_kernel w s k : refines w s -> refines (w <| x_kernel := k |>) (s <| b_kernel := k |>).
Proof. intros []. split; try done. by eapply rep_ext. Qed.
Lemma refines_errno w s e : refines w s -> refines (w <| x_errno := e |>) (s <| b_errno := e |>).
Proof. intros []. split; try done. by eapply rep_ext. Qed.

Lemma fail_follows e w s : refines w s -> follows (fail_errno e) (abs_fail e) w s.
Proof. intros Hr. eexists _, _. split; [reflexivity|]. eexists. split; [reflexivity|]. by apply refines_errno. Qed.

Lemma libc_follows call w s : refines w s -> follows (libc call) (abs_libc call) w s.
Proof.
  intros Hr. unfold follows, libc, abs_libc. cbv beta. rewrite <- (rf_kernel _ _ Hr). apply wp_bind.
  destruct (call (x_kernel w)) as [x k] eqn:E. eapply wp_run; [unfold ask; by rewrite E|]. destruct (x <? 0).
  - eexists _, _. split; [reflexivity|]. eexists. split; [reflexivity|]. by apply refines_answer.
  - apply wp_ret. eexists. split; [reflexivity|]. by apply refines_kernel.
Qed.

Lemma capture_follows fd w s : refines w s -> follows (fd_identity_capture fd) (abs_capture fd) w s.
Proof.
  intros Hr. unfold follows, fd_identity_capture, libc_sum, abs_capture. cbv beta. rewrite <- (rf_kernel _ _ Hr). do 2 apply wp_bind.
  destruct (sys_fstat fd (x_kernel w)) as [x k] eqn:E. eapply wp_run; [unfold ask; by rewrite E|]. destruct x as [e|t].
  - eexists _, _. split; [reflexivity|]. apply wp_ret. eexists. split; [reflexivity|]. by apply refines_answer.
  - do 2 apply wp_ret. eexists. split; [reflexivity|]. by apply refines_kernel.
Qed.

(** Indexed nodes do not notice another node. *)
Lemma rep_fresh w r SF SD a n :
  port_rep w p r ba da SF SD -> x_nodes w !! a = None ->
  port_rep (w <| x_nodes := <[a := n]> (x_nodes w) |>) p r ba da SF SD.
Proof.
  intros [Hp Hn Hb Hd Hne (lf & Hlf & HF) (ld & Hld & HD)] Ha. split; try done; sget.
  - exists lf. split; [done|]. apply index_other; [|done]. intros H%(ix_node _ _ _ _ _ HF). rewrite Ha in H. by destruct H.
  - exists ld. split; [done|]. apply index_other; [|done]. intros H%(ix_node _ _ _ _ _ HD). rewrite Ha in H. by destruct H.
Qed.

(** A new node: its address was free, and it is none of the registrations. *)
Lemma calloc_follows w s n :
  refines w s ->
  wp (calloc x_nodes sizeof_posix_sock_node n) (fun q w' => exists s', abs_alloc s = Some (q, s') /\ refines w' s' /\
    b_regs s' = b_regs s /\ b_generation s' = b_generation s /\
    forall a, q = Some a -> x_nodes w !! a = None /\ x_nodes w' !! a = Some n) w.
Proof.
  intros Hr. unfold calloc, abs_alloc. rewrite <- (rf_kernel _ _ Hr). apply wp_bind.
  destruct (sys_calloc _ _) as [x k] eqn:E. eapply wp_run; [unfold ask; by rewrite E|]. apply (refines_kernel _ _ k) in Hr.
  set (w1 := w <| x_kernel := k |>) in *. set (s1 := s <| b_kernel := k |>) in *.
  destruct ((x <=? 0) || (UINT64_MAX <? x)) eqn:Ex; cbn [orb].
  - eexists _, _. split; [reflexivity|]. exists s1. split_and!; done.
  - destruct (x_nodes w1 !! Z.to_pos x) as [n'|] eqn:Hx.
    + eexists _, _. split; [by rewrite Hx|]. exists s1. rewrite bool_decide_eq_true_2; [by split_and!|].
      rewrite <- (rf_heap _ _ Hr). by apply elem_of_dom_2 in Hx.
    + eexists _, _. split; [by rewrite Hx|]. eexists. rewrite bool_decide_eq_false_2 by (rewrite <- (rf_heap _ _ Hr); by apply not_elem_of_dom).
      split_and!; [reflexivity| |done|done|intros a [= <-]; split; [exact Hx|sget; apply lookup_insert_eq]].
      destruct Hr as [Hk He Hh Hp Hg Hm Hq Ha Hn Hf]. split; sget; try done.
      * by rewrite dom_insert_L, Hh.
      * by apply rep_fresh.
      * intros a g Hag. destruct (Hg a g Hag) as (m & Hm' & Hc). exists m. split; [|done].
        rewrite lookup_insert_ne; [done|]. intros <-. congruence.
      * intros b m Hb Hbm. specialize (Hn b m Hb Hbm). rewrite lookup_insert_ne; [done|]. intros <-. congruence.
Qed.

(** List surgery on nodes of the port. *)
Lemma refines_surgery w s w' s' S :
  refines w s -> surgery p ba da S w w' ->
  (forall b, b ∈ S -> own b) ->
  b_kernel s' = b_kernel s -> b_errno s' = b_errno s -> dom (x_nodes w') = b_heap s' ->
  port_rep w' p (r0 <| pp_count := u64 (Z.of_nat (size (b_regs s'))) |>
                    <| pp_metadata_generation := b_generation s' |>) ba da (dom (b_regs s')) (dom (b_regs s')) ->
  (forall a g, b_regs s' !! a = Some g -> exists n, x_nodes w' !! a = Some n /\ core n = core_of g) ->
  (forall b, b ∈ dom (b_regs s') -> own b) ->
  refines w' s'.
Proof.
  intros [Hk He Hh Hp Hg [Hm1 Hm2] Hq Ha Hn Hf] [Se Sk [Sm1 Sm2] Sp Sa Sn] HS Ek Ee Eh HP Hregs Hdom.
  split; try congruence; try done.
  - split; congruence.
  - intros q Hqp. rewrite Sp by done. by apply Hq.
  - intros c Hb Hd. rewrite Sa by done. by apply Ha.
  - intros b n Hb Hbn. rewrite Sn; [by apply Hn|]. intros HbS. destruct (HS b HbS); [done|congruence].
Qed.

Lemma core_regs w (h : nodes) s a g :
  refines w s -> core <$> h = core <$> <[a := core_of g]> (x_nodes w) ->
  forall b g', <[a := g]> (b_regs s) !! b = Some g' -> exists n, h !! b = Some n /\ core n = core_of g'.
Proof.
  intros Hr Hc b g' Hb. destruct (decide (b = a)) as [->|Hne].
  - rewrite lookup_insert_eq in Hb. apply (inj Some) in Hb as <-.
    destruct (core_lookup' _ _ a _ Hc (lookup_insert_eq _ _ _)) as (n & Hn & En). by exists n.
  - rewrite lookup_insert_ne in Hb by done. destruct (rf_regs _ _ Hr _ _ Hb) as (m & Hm & Em).
    destruct (core_lookup' _ _ b m Hc) as (n & Hn & En); [by rewrite lookup_insert_ne|]. exists n. split; [done|congruence].
Qed.

(** Assigning to a node: of a registration, or fresh and already linked. *)
Lemma assign_follows w s a g r n :
  refines w s -> own a ->
  x_nodes w !! a = Some n -> pn_fd n = g_fd g -> pn_identity n = g_identity g ->
  forall w1, surgery p ba da {[a]} w w1 -> dom (x_nodes w1) = dom (x_nodes w) ->
  port_rep w1 p r ba da ({[a]} ∪ dom (b_regs s)) (dom (b_regs s)) ->
  r = r0 <| pp_count := u64 (Z.of_nat (size ({[a]} ∪ dom (b_regs s)))) |> <| pp_metadata_generation := b_generation s |> ->
  core <$> x_nodes w1 = core <$> x_nodes w ->
  wp (node_assign (Some p) (Some a) (g_event g) (g_user_ctx g))
    (fun _ w' => exists s', abs_update (insert a g) s = Some (tt, s') /\ refines w' s') w1.
Proof.
  intros Hr Hown Ha Efd Eid w1 Hs1 Hd1 HP1 -> Hc1. destruct (core_lookup' _ _ _ _ Hc1 Ha) as (n1 & Hn1 & Ec1).
  eapply wp_mono; [by eapply node_assign_run|]. intros _ w2 (HP2 & Hs2 & Hc2). eexists. split; [reflexivity|].
  assert (Hc3 : core <$> x_nodes w2 = core <$> <[a := core_of g]> (x_nodes w)).
  { rewrite Hc2, !fmap_insert, Hc1. f_equal. unfold core_of.
    apply (f_equal (fun x => mk_posix_node (pn_fd x) (pn_identity x) (g_user_ctx g) (g_event g) NULL NULL (ev_data (g_event g)))) in Ec1.
    rewrite <- Efd, <- Eid. exact Ec1. }
  assert (Hdr : dom (<[a := g]> (b_regs s)) = {[a]} ∪ dom (b_regs s)) by (by rewrite dom_insert_L).
  eapply (refines_surgery w s _ _ ({[a]} ∪ dom (b_regs s))); [done| | |done|done| | | |]; sget.
  - transitivity w1; (eapply surgery_weaken; [|done]; set_solver).
  - intros b [->%elem_of_singleton|?]%elem_of_union; [done|by apply (rf_fresh _ _ Hr)].
  - rewrite <- (rf_heap _ _ Hr). rewrite (core_dom _ _ Hc3). rewrite dom_insert_L. apply elem_of_dom_2 in Ha. set_solver.
  - rewrite <- (size_dom (<[a := g]> (b_regs s))), Hdr. replace ({[a]} ∪ ({[a]} ∪ dom (b_regs s))) with ({[a]} ∪ dom (b_regs s)) in HP2 by set_solver.
    exact HP2.
  - by eapply core_regs.
  - rewrite Hdr. intros b [->%elem_of_singleton|?]%elem_of_union; [done|by apply (rf_fresh _ _ Hr)].
Qed.

(** MOD of a known registration. *)
Lemma modify_follows w s a g g0 :
  refines w s -> b_regs s !! a = Some g0 -> g_fd g0 = g_fd g -> g_identity g0 = g_identity g ->
  wp (node_assign (Some p) (Some a) (g_event g) (g_user_ctx g))
    (fun _ w' => exists s', abs_update (insert a g) s = Some (tt, s') /\ refines w' s') w.
Proof.
  intros Hr Ha Efd Eid. destruct (rf_regs _ _ Hr _ _ Ha) as (n & Hn & Hc).
  apply elem_of_dom_2 in Ha. assert (Hd : {[a]} ∪ dom (b_regs s) = dom (b_regs s)) by set_solver.
  eapply (assign_follows w s a g _ n); try done; [by apply (rf_fresh _ _ Hr)| | |rewrite Hd, size_dom; apply (rf_port _ _ Hr)].
  - rewrite <- Efd. exact (f_equal pn_fd Hc).
  - rewrite <- Eid. exact (f_equal pn_identity Hc).
Qed.

(** ADD, or MOD of a registration the port did not know. *)
Lemma add_follows w s a g n :
  refines w s -> x_nodes w !! a = Some n -> a ∉ dom (b_regs s) -> own a ->
  wp (node_link (Some p) (Some a) (g_fd g) (g_identity g) (fd_slot POSIX_N_BUCKETS (g_fd g)) ;;
      node_assign (Some p) (Some a) (g_event g) (g_user_ctx g))
    (fun _ w' => exists s', abs_update (insert a g) s = Some (tt, s') /\ refines w' s') w.
Proof.
  intros Hr Ha Hna Hfresh. eapply wp_seq; [eapply node_link_run; [apply (rf_port _ _ Hr)|exact Ha|done|done]|].
  intros _ w1 (head & HP1 & Hs1 & Hn1).
  set (n1 := n <| pn_fd := g_fd g |> <| pn_identity := g_identity g |>).
  assert (Hr1 : refines (w <| x_nodes := <[a := n1]> (x_nodes w) |>) s).
  { eapply (refines_surgery w s _ s {[a]}); try done; sget.
    - split; try done. intros b Hb. sget. rewrite lookup_insert_ne; [done|]. set_solver.
    - by intros b ->%elem_of_singleton.
    - rewrite dom_insert_L, <- (rf_heap _ _ Hr). apply elem_of_dom_2 in Ha. set_solver.
    - pose proof (rf_port _ _ Hr) as [Hp Hn Hb Hd Hne (lf & Hlf & HF) (ld & Hld & HD)]. split; try done; sget.
      + exists lf. split; [done|]. by apply index_other.
      + exists ld. split; [done|]. by apply index_other.
    - intros b g' Hb. destruct (rf_regs _ _ Hr _ _ Hb) as (m & Hm & Em). exists m. split; [|done].
      rewrite lookup_insert_ne; [done|]. intros <-. apply Hna. by apply elem_of_dom_2 in Hb.
    - apply (rf_fresh _ _ Hr). }
  eapply (assign_follows _ s a g _ n1 Hr1); sget.
  - done.
  - apply lookup_insert_eq.
  - done.
  - done.
  - destruct Hs1 as [? ? ? ? ? Hn']. split; try done. sget. intros b Hb. rewrite Hn' by done.
    rewrite lookup_insert_ne; [done|]. set_solver.
  - by rewrite Hn1, !dom_insert_L.
  - exact HP1.
  - rewrite size_union by set_solver. rewrite size_singleton, size_dom.
    assert (E : u64 (u64 (Z.of_nat (size (b_regs s))) + 1) = u64 (Z.of_nat (1 + size (b_regs s)))).
    { unfold wrap. rewrite Zplus_mod_idemp_l. f_equal. lia. }
    rewrite <- E. reflexivity.
  - rewrite Hn1, !fmap_insert. done.
Qed.

(** DEL. *)
Lemma delete_follows w s a g :
  refines w s -> b_regs s !! a = Some g ->
  wp (found <- node_remove_ptr_locked (Some p) (Some a) ;;
      (if found : bool then bump_metadata_generation (Some p) else ret tt))
    (fun _ w' => exists s', (abs_free (Some a) ;; abs_update (delete a)) s = Some (tt, s') /\ refines w' s') w.
Proof.
  intros Hr Ha. destruct (rf_regs _ _ Hr _ _ Ha) as (n & Hn & Hc). pose proof Ha as HaD%elem_of_dom_2.
  eapply wp_seq; [eapply remove_ptr_run; [apply (rf_port _ _ Hr)|exact Hn|done]|].
  intros found w1 (-> & HP1 & Hs1 & Hc1). eapply wp_mono; [by apply bump_run|].
  intros _ w2 (HP2 & Hs2 & Hn2). eexists. split; [reflexivity|].
  eapply (refines_surgery w s _ _ (dom (b_regs s))); [done| | |done|done| | | |]; sget.
  - transitivity w1; (eapply surgery_weaken; [|done]; set_solver).
  - apply (rf_fresh _ _ Hr).
  - by rewrite Hn2, (core_dom _ _ Hc1), dom_delete_L, (rf_heap _ _ Hr).
  - rewrite dom_delete_L. replace (Z.of_nat (size (delete a (b_regs s)))) with (Z.of_nat (size (b_regs s)) - 1).
    + eapply rep_port_field; [exact HP2| |done|done|done|done|done]. rewrite (pr_port _ _ _ _ _ _ _ HP2). f_equal.
      assert (E : u64 (u64 (Z.of_nat (size (b_regs s))) - 1) = u64 (Z.of_nat (size (b_regs s)) - 1)).
      { unfold wrap. by rewrite Zminus_mod_idemp_l. }
      rewrite <- E. reflexivity.
    + rewrite map_size_delete_Some by (by exists g). assert (size (b_regs s) <> 0)%nat; [|lia].
      intros E%map_size_empty_inv. rewrite E in Ha. by rewrite lookup_empty in Ha.
  - intros b g' Hb. apply lookup_delete_Some in Hb as [Hne Hb]. destruct (rf_regs _ _ Hr _ _ Hb) as (m & Hm & Em).
    rewrite Hn2. destruct (core_lookup' _ _ b m Hc1) as (n' & Hn' & En'); [by rewrite lookup_delete_ne|]. exists n'. split; [done|congruence].
  - rewrite dom_delete_L. intros b Hb. apply (rf_fresh _ _ Hr). set_solver.
Qed.

(** A node allocated for this call and not a registration yet. *)
Definition unused_node s (a : ptr) : Prop :=
  match a with Some a => a ∈ b_heap s /\ a ∉ dom (b_regs s) /\ own a | None => True end.

(** The reserved node of a failed MOD is freed. *)
Lemma free_follows w s a :
  refines w s -> unused_node s a ->
  follows (del x_nodes a) (abs_free a) w s.
Proof.
  intros Hr Ha. destruct a as [a|]; [|eexists _, _; split; [reflexivity|]; by exists s].
  destruct Ha as (Hn & Hna & Hfresh). rewrite <- (rf_heap _ _ Hr) in Hn. apply elem_of_dom in Hn as [n Hn]. eapply wp_run; [by eapply del_some|]. eexists. split; [reflexivity|].
  eapply (refines_surgery w s _ _ {[a]}); try done; sget.
  - split; try done. intros b Hb. sget. rewrite lookup_delete_ne; [done|]. set_solver.
  - by intros b ->%elem_of_singleton.
  - by rewrite dom_delete_L, (rf_heap _ _ Hr).
  - apply rep_delete; [apply (rf_port _ _ Hr)|done|done].
  - intros b g Hb. destruct (rf_regs _ _ Hr _ _ Hb) as (m & Hm & Em). exists m. split; [|done].
    rewrite lookup_delete_ne; [done|]. intros <-. apply Hna. by apply elem_of_dom_2 in Hb.
  - apply (rf_fresh _ _ Hr).
Qed.

(** The matches of the search are the candidates. *)
Lemma candidates_dom w s fd identity a :
  refines w s -> a ∈ dom (candidates fd identity (b_regs s)) <-> a ∈ dom (b_regs s) /\ node_matches fd identity (x_nodes w) a.
Proof.
  intros Hr. unfold candidates. rewrite !elem_of_dom. unfold is_Some. setoid_rewrite map_lookup_filter_Some. split.
  - intros (g & Hg & Hfd & Hid). cbn in Hfd, Hid. split; [by exists g|]. destruct (rf_regs _ _ Hr _ _ Hg) as (n & Hn & Hc).
    exists n. split_and!; [done| |].
    + rewrite <- Hfd. exact (f_equal pn_fd Hc).
    + rewrite <- Hid. exact (f_equal pn_identity Hc).
  - intros [(g & Hg) (n & Hn & Hfd & Hid)]. exists g. split; [done|]. destruct (rf_regs _ _ Hr _ _ Hg) as (n' & Hn' & Hc).
    assert (n' = n) as -> by congruence. split; cbn.
    + rewrite <- Hfd. symmetry. exact (f_equal pn_fd Hc).
    + rewrite <- Hid. symmetry. exact (f_equal pn_identity Hc).
Qed.

Lemma candidates_list w s fd identity ML :
  refines w s -> NoDup ML ->
  (forall a, a ∈ ML <-> a ∈ dom (b_regs s) /\ node_matches fd identity (x_nodes w) a) ->
  length ML = size (candidates fd identity (b_regs s)) /\
  ((length ML <= 1)%nat -> match ML with [a] => Some a | _ => NULL end = fst <$> head (map_to_list (candidates fd identity (b_regs s)))).
Proof.
  intros Hr Hnd HM. set (m := candidates fd identity (b_regs s)).
  assert (Hd : forall a, a ∈ ML <-> a ∈ dom m) by (intros a; rewrite HM; symmetry; by apply candidates_dom).
  assert (Hlen : length ML = size m).
  { rewrite <- size_dom, <- (size_list_to_set (C := gset addr) ML Hnd). f_equal. apply set_eq. intros a.
    rewrite elem_of_list_to_set. apply Hd. }
  split; [done|]. intros H1. pose proof (length_map_to_list m) as Hl. rewrite <- Hlen in Hl.
  destruct ML as [|a [|b ML]]; cbn [length] in *; [by apply nil_length_inv in Hl as ->| |lia].
  destruct (map_to_list m) as [|[k g] [|]] eqn:E; try discriminate Hl. cbn. f_equal.
  assert (Hk : k ∈ [a]). { apply Hd, elem_of_dom. exists g. apply elem_of_map_to_list. rewrite E. by left. }
  apply list_elem_of_singleton in Hk. by symmetry.
Qed.

Lemma target_known s fd identity a :
  fst <$> head (map_to_list (candidates fd identity (b_regs s))) = Some a ->
  exists g, b_regs s !! a = Some g /\ g_fd g = fd /\ g_identity g = identity.
Proof.
  intros E. destruct (map_to_list _) as [|[k g] l] eqn:El; [done|]. injection E as ->. exists g.
  assert (Hin : (a, g) ∈ map_to_list (candidates fd identity (b_regs s))) by (rewrite El; by left).
  apply elem_of_map_to_list in Hin. unfold candidates in Hin. apply map_lookup_filter_Some in Hin as [? [? ?]]. done.
Qed.


(** Regroup a sequence. *)
Lemma wp_assoc {S A B C} (m : M S A) (k : A -> M S B) (k' : B -> M S C) Q (w : S) :
  wp (bind (bind m k) k') Q w -> wp (bind m (fun x => bind (k x) k')) Q w.
Proof. intros (c & w' & Hm & HQ). exists c, w'. split; [|done]. by rewrite <- bind_assoc. Qed.

Lemma follows_wp {A B} (m : PM K A) (k : A -> PM K B) (m' : M (abs_state K) unit) (k' : M (abs_state K) B) w s :
  wp m (fun _ w' => exists s', m' s = Some (tt, s') /\ refines w' s') w ->
  (forall a w' s', m' s = Some (tt, s') -> refines w' s' -> follows (k a) k' w' s') ->
  follows (bind m k) (m' ;; k') w s.
Proof.
  intros Hm Hk. eapply wp_seq; [exact Hm|]. intros a w1 (s1 & Hs1 & Hr1).
  eapply wp_mono; [by eapply Hk|]. intros b w2 (s2 & Hs2 & Hr2). exists s2. split; [|done]. by erewrite bind_some.
Qed.

(** A new registration with the node [a]. *)
Lemma new_follows w s a fd identity event user_ctx :
  refines w s -> unused_node s (Some a) ->
  follows (node_link (Some p) (Some a) fd identity (fd_slot POSIX_N_BUCKETS fd) ;; node_assign (Some p) (Some a) event user_ctx ;; ret 0)
    (abs_update (insert a (mk_reg fd identity user_ctx event)) ;; ret 0) w s.
Proof.
  intros Hr (Hn & Hna & Hown). rewrite <- (rf_heap _ _ Hr) in Hn. apply elem_of_dom in Hn as [n Hn]. apply wp_assoc. eapply follows_wp.
  - by apply (add_follows w s a (mk_reg fd identity user_ctx event) n).
  - intros _ w' s' _ Hr'. by apply follows_ret.
Qed.

Lemma alloc_unused w s w1 s1 a n :
  refines w s -> refines w1 s1 -> b_regs s1 = b_regs s ->
  (forall b, Some a = Some b -> x_nodes w !! b = None /\ x_nodes w1 !! b = Some n) -> unused_node s1 (Some a).
Proof.
  intros Hr Hr1 Eregs Hq. destruct (Hq a eq_refl) as [Ha Ha1]. split_and!.
  - rewrite <- (rf_heap _ _ Hr1). by apply elem_of_dom_2 in Ha1.
  - rewrite Eregs. intros Hin. destruct (rf_port _ _ Hr) as [_ _ _ _ _ (l & _ & HF) _]. apply (ix_node _ _ _ _ _ HF) in Hin.
    rewrite Ha in Hin. by destruct Hin.
  - by apply (fresh_own w s).
Qed.

Lemma alloc_new_follows w s fd identity event user_ctx :
  refines w s ->
  follows
    (n <- calloc x_nodes sizeof_posix_sock_node (blank_node 0 zero_identity) ;;
     if bool_decide (n = NULL) then
       control_epfd <- rd x_ports (Some p) pp_control_epfd ;;
       libc (sys_epoll_ctl control_epfd EPOLL_CTL_DEL fd None) ;;
       fail_errno ENOMEM
     else
       node_link (Some p) n fd identity (fd_slot POSIX_N_BUCKETS fd) ;; node_assign (Some p) n event user_ctx ;; ret 0)
    (n <- abs_alloc ;;
     match n with
     | None => abs_libc (sys_epoll_ctl (pp_control_epfd r0) EPOLL_CTL_DEL fd None) ;; abs_fail ENOMEM
     | Some a => abs_update (insert a (mk_reg fd identity user_ctx event)) ;; ret 0
     end) w s.
Proof.
  intros Hr. eapply follows_bind_with; [by apply calloc_follows|]. intros q w1 s1 Hr1 (Eregs & _ & Hq).
  destruct q as [a|].
  - rewrite bool_decide_eq_false_2 by done. apply new_follows; [done|]. by eapply (alloc_unused w s w1).
  - rewrite bool_decide_eq_true_2 by done. apply wp_bind. eapply wp_rd; [apply (pr_port _ _ _ _ _ _ _ (rf_port _ _ Hr1))|]. sget.
    eapply follows_bind; [by apply libc_follows|]. intros b w2 s2 _ Hr2. by apply fail_follows.
Qed.

(** Commit: what follows a successful native call. *)
Lemma commit_follows w s op fd identity event user_ctx target reserved :
  refines w s -> unused_node s reserved -> (op <> EPOLL_CTL_DEL -> is_Some event) ->
  (op = EPOLL_CTL_ADD -> target = NULL) -> (op = EPOLL_CTL_DEL -> reserved = NULL) -> (target <> NULL -> reserved = NULL) ->
  (forall a, target = Some a -> exists g, b_regs s !! a = Some g /\ g_fd g = fd /\ g_identity g = identity) ->
  follows (ctl_commit (Some p) op fd identity event user_ctx target reserved (fd_slot POSIX_N_BUCKETS fd))
    (abs_commit (pp_control_epfd r0) op fd (mk_reg fd identity user_ctx <$> event) target reserved) w s.
Proof.
  intros Hr Hun Hev Hadd Hdel Htr Htg. unfold ctl_commit, abs_commit. destruct (Z.eqb_spec op EPOLL_CTL_DEL) as [E|E].
  - rewrite (Hdel E). destruct target as [a|].
    + rewrite bool_decide_eq_false_2 by done. destruct (Htg a eq_refl) as (g & Hg & _).
      apply wp_assoc. eapply (follows_wp _ _ (abs_free (Some a) ;; abs_update (delete a))); [by eapply delete_follows|].
      intros _ w' s' _ Hr'. eexists _, _. split; [reflexivity|]. by exists s'.
    + rewrite bool_decide_eq_true_2 by done. eexists _, _. split; [reflexivity|]. by exists s.
  - destruct (Hev E) as [ev ->]. cbn [fmap option_fmap option_map]. destruct target as [a|].
    + assert (op =? EPOLL_CTL_ADD = false) as -> by (apply Z.eqb_neq; intros ?; by apply Hadd in H).
      rewrite bool_decide_eq_false_2 by done. cbn [orb]. rewrite Htr by done. destruct (Htg a eq_refl) as (g & Hg & Hfd & Hid).
      eapply follows_wp; [by eapply (modify_follows w s a (mk_reg fd identity user_ctx ev) g)|].
      intros _ w' s' _ Hr'. eexists _, _. split; [reflexivity|]. by exists s'.
    + rewrite (bool_decide_eq_true_2 (NULL = NULL)) by done. rewrite orb_true_r. destruct reserved as [a|].
      * rewrite bool_decide_eq_false_2 by done. apply (new_follows w s a fd identity ev user_ctx Hr Hun).
      * rewrite bool_decide_eq_true_2 by done. by apply alloc_new_follows.
Qed.

(** What the platform answers does not concern the registrations. *)
Lemma abs_libc_keeps call s x s' :
  abs_libc call s = Some (x, s') -> b_regs s' = b_regs s /\ b_heap s' = b_heap s /\ b_generation s' = b_generation s.
Proof. unfold abs_libc. destruct (call _) as [y k]. case_match; intros [= <- <-]; done. Qed.
Lemma abs_capture_keeps fd s x s' :
  abs_capture fd s = Some (x, s') -> b_regs s' = b_regs s /\ b_heap s' = b_heap s /\ b_generation s' = b_generation s.
Proof. unfold abs_capture. destruct (sys_fstat _ _) as [[e|t] k]; intros [= <- <-]; done. Qed.

Lemma native_follows w s op fd identity event user_ctx target reserved :
  refines w s -> unused_node s reserved -> (op <> EPOLL_CTL_DEL -> is_Some event) ->
  (op = EPOLL_CTL_ADD -> target = NULL) -> (op = EPOLL_CTL_DEL -> reserved = NULL) -> (target <> NULL -> reserved = NULL) ->
  (forall a, target = Some a -> exists g, b_regs s !! a = Some g /\ g_fd g = fd /\ g_identity g = identity) ->
  follows (ctl_native (Some p) op fd identity event user_ctx target reserved (fd_slot POSIX_N_BUCKETS fd))
    (abs_native (pp_control_epfd r0) op fd event (mk_reg fd identity user_ctx <$> event) target reserved) w s.
Proof.
  intros Hr Hun Hev Hadd Hdel Htr Htg. unfold ctl_native, abs_native. apply wp_bind.
  eapply wp_rd; [apply (pr_port _ _ _ _ _ _ _ (rf_port _ _ Hr))|]. sget.
  eapply follows_bind; [by apply libc_follows|]. intros x w1 s1 Hs1 Hr1.
  destruct (abs_libc_keeps _ _ _ _ Hs1) as (Eregs & Eheap & _).
  assert (Hun1 : unused_node s1 reserved) by (unfold unused_node in *; by rewrite Eregs, Eheap).
  destruct (x =? 0); cbn [negb].
  - apply commit_follows; try done. by rewrite Eregs.
  - apply wp_bind, wp_get. eapply follows_bind; [by apply free_follows|]. intros [] w2 s2 Hs2 Hr2.
    eexists _, _. split; [reflexivity|]. exists s2. split; [done|].
    assert (E : x_errno w2 = x_errno w1).
    { rewrite (rf_errno _ _ Hr2), (rf_errno _ _ Hr1). destruct reserved; by injection Hs2 as <-. }
    rewrite <- E. destruct w2. exact Hr2.
Qed.

(** The registrations an operation may concern: none for ADD. *)
Definition concerned (op fd : Z) (identity : posix_fd_identity) s : gmap addr reg :=
  if op =? EPOLL_CTL_ADD then ∅ else candidates fd identity (b_regs s).

Lemma find_follows w s op fd identity :
  refines w s -> exists q m,
    (if negb (op =? EPOLL_CTL_ADD) then node_find_identity_locked (Some p) fd identity
     else n_buckets <- rd x_ports (Some p) pp_n_buckets ;; ret (NULL, 0, fd_slot n_buckets fd)) w
    = Some ((q, m, fd_slot POSIX_N_BUCKETS fd), w) /\ m = Z.of_nat (size (concerned op fd identity s)) /\
      ((size (concerned op fd identity s) <= 1)%nat -> q = fst <$> head (map_to_list (concerned op fd identity s))).
Proof.
  intros Hr. unfold concerned. destruct (op =? EPOLL_CTL_ADD); cbn [negb].
  - exists NULL, 0. pose proof (rf_port _ _ Hr) as HP. split_and!; [|by rewrite map_size_empty|by rewrite map_to_list_empty].
    erewrite bind_some by by eapply rd_some, HP. by rewrite (pr_n_buckets _ _ _ _ _ _ _ HP).
  - destruct (node_find_run w _ _ _ _ _ _ fd identity (rf_port _ _ Hr)) as (ML & Hnd & HM & Hrun).
    destruct (candidates_list w s fd identity ML Hr Hnd HM) as [Hlen Htg].
    do 2 eexists. split_and!; [exact Hrun|by rewrite Hlen|]. rewrite <- Hlen. exact Htg.
Qed.

Lemma ctl_follows w s op fd event user_ctx :
  refines w s -> follows (port_ctl_ctx (Some p) op fd event user_ctx) (abs_ctl (pp_control_epfd r0) op fd event user_ctx) w s.
Proof.
  intros Hr. unfold port_ctl_ctx, abs_ctl. destruct (ctl_valid_op op); cbn [negb]; [|by apply fail_follows].
  destruct (negb (op =? EPOLL_CTL_DEL) && bool_decide (event = None)) eqn:Eev; [by apply fail_follows|].
  assert (Hev : op <> EPOLL_CTL_DEL -> is_Some event).
  { intros Hop. apply Z.eqb_neq in Hop. rewrite Hop in Eev. cbn in Eev. apply bool_decide_eq_false in Eev. by apply not_eq_None_Some. }
  eapply follows_bind; [by apply capture_follows|]. intros [identity|] w1 s1 Hs1 Hr1; [|by apply follows_ret].
  set (found := concerned op fd identity s1).
  destruct (find_follows w1 s1 op fd identity Hr1) as (q & m & Hrun & -> & Hq). fold found in Hrun, Hq |- *.
apply wp_bind. eapply wp_run; [exact Hrun|]. cbv beta iota.
  apply wp_mono with (P := fun a w' => exists s', (if 1 <? Z.of_nat (size found) then abs_fail LINUX_EOPNOTSUPP
      else let target := fst <$> head (map_to_list found) in
        if (op =? EPOLL_CTL_MOD) && (0 <=? fd) && bool_decide (target = NULL) then
          reserved <- abs_alloc ;;
          match reserved with
          | None => abs_fail ENOMEM
          | Some _ => abs_native (pp_control_epfd r0) op fd event (mk_reg fd identity user_ctx <$> event) target reserved
          end
        else abs_native (pp_control_epfd r0) op fd event (mk_reg fd identity user_ctx <$> event) target NULL) s1 = Some (a, s') /\ refines w' s');
    [|done].
  destruct (Z.ltb_spec 1 (Z.of_nat (size found))) as [Hgt|Hle]; [by apply fail_follows|]. rewrite Hq by lia. clear q Hq Hrun.
  set (target := fst <$> head (map_to_list found)).
  assert (Htg : forall a, target = Some a -> exists g, b_regs s1 !! a = Some g /\ g_fd g = fd /\ g_identity g = identity).
  { intros a. unfold target, found, concerned. destruct (op =? EPOLL_CTL_ADD); [by rewrite map_to_list_empty|apply target_known]. }
  assert (Hadd : op = EPOLL_CTL_ADD -> target = NULL) by (intros ->; unfold target, found, concerned; by rewrite Z.eqb_refl, map_to_list_empty).
  assert (Hcond : (op =? EPOLL_CTL_MOD) && bool_decide (event <> None) = (op =? EPOLL_CTL_MOD)).
  { destruct (Z.eqb_spec op EPOLL_CTL_MOD) as [->|]; [|done]. destruct Hev as [ev ->]; [done|]. by rewrite bool_decide_eq_true_2. }
  cbv zeta. rewrite Hcond. destruct ((op =? EPOLL_CTL_MOD) && (0 <=? fd) && bool_decide (target = NULL)) eqn:Eres.
  - apply andb_true_iff in Eres as [Eres Htn%bool_decide_eq_true]. apply andb_true_iff in Eres as [Eop _]. apply Z.eqb_eq in Eop.
    eapply follows_bind_with; [by apply calloc_follows|]. intros q w2 s2 Hr2 (Eregs & _ & Hq).
    destruct q as [a|]; [|rewrite bool_decide_eq_true_2 by done; by apply fail_follows].
    rewrite bool_decide_eq_false_2 by done. apply native_follows; try done.
    + by eapply (alloc_unused w1 s1 w2).
    + intros E. by rewrite E in Eop.
    + by rewrite Eregs.
  - by apply native_follows.
Qed.
End Refine.

(** ** Results of the abstract operation *)

Section AbsResults.
Context {K : Type} `{!Linux K} (control : Z).
Implicit Types s : abs_state K.

(** Nothing was registered, removed or leaked. *)
Definition same_regs s s' : Prop :=
  b_regs s' = b_regs s /\ b_heap s' = b_heap s /\ b_generation s' = b_generation s.

Lemma abs_commit_result op fd g target reserved s x s' :
  abs_commit control op fd g target reserved s = Some (x, s') ->
  x = 0 \/ (x = -1 /\ reserved = NULL /\ same_regs s s').
Proof.
  unfold abs_commit. intros H. destruct (op =? EPOLL_CTL_DEL).
  - destruct target as [a|]; left; [|by injection H as <- _]. apply bind_inv in H as (? & ? & _ & H).
    apply bind_inv in H as (? & ? & _ & H). by injection H as <- _.
  - destruct g as [g|]; [|done]. destruct target as [a|].
    + left. apply bind_inv in H as (? & ? & _ & H). by injection H as <- _.
    + apply bind_inv in H as (n & s1 & Hn & H). destruct n as [a|].
      * left. apply bind_inv in H as (? & ? & _ & H). by injection H as <- _.
      * right. destruct reserved as [b|]; [by injection Hn as ? _|]. unfold abs_alloc in Hn. destruct (sys_calloc _ _) as [y k].
        case_match; [|done]. injection Hn as <-. apply bind_inv in H as (z & s2 & Hz & H).
        destruct (abs_libc_keeps _ _ _ _ Hz) as (E1 & E2 & E3). injection H as <- <-. split_and!; done.
Qed.

Lemma abs_native_result op fd event g target reserved s x s' :
  abs_native control op fd event g target reserved s = Some (x, s') ->
  x = 0 \/ (x = -1 /\ b_regs s' = b_regs s /\ b_generation s' = b_generation s /\
            b_heap s' = match reserved with Some a => b_heap s ∖ {[a]} | None => b_heap s end).
Proof.
  intros H. apply bind_inv in H as (y & s1 & Hy & H). destruct (abs_libc_keeps _ _ _ _ Hy) as (E1 & E2 & E3).
  destruct (y =? 0); cbn [negb] in H.
  - apply abs_commit_result in H as [->|(-> & -> & F1 & F2 & F3)]; [by left|right]. split_and!; congruence.
  - right. apply bind_inv in H as (? & s2 & Hf & H). injection H as <- <-.
    destruct reserved as [a|]; injection Hf as <- <-; sget; split_and!; congruence.
Qed.

Lemma abs_ctl_result op fd event user_ctx s x s' :
  abs_ctl control op fd event user_ctx s = Some (x, s') -> x = 0 \/ (x = -1 /\ same_regs s s').
Proof.
  unfold abs_ctl, same_regs. intros H. destruct (negb (ctl_valid_op op)); [right; by injection H as <- <-|].
  destruct (_ && _); [right; by injection H as <- <-|]. apply bind_inv in H as (c & s1 & Hc & H).
  destruct (abs_capture_keeps _ _ _ _ Hc) as (E1 & E2 & E3). destruct c as [identity|]; [|right; by injection H as <- <-].
  apply bind_inv in H as (? & ? & Hg & H). injection Hg as <- <-. cbv zeta in H.
  destruct (1 <? _); [right; by injection H as <- <-|]. destruct (_ && _ && _) eqn:Ec.
  - apply bind_inv in H as (q & s2 & Hq & H). unfold abs_alloc in Hq. destruct (sys_calloc _ _) as [y k].
    destruct (_ || _ || _) eqn:Ey; injection Hq as <- <-; [right; by injection H as <- <-|].
    apply orb_false_iff in Ey as [_ Hy%bool_decide_eq_false]. sget_in Hy.
    apply abs_native_result in H as [->|(-> & F1 & F2 & F3)]; [by left|right]. sget_in F1. sget_in F2. sget_in F3.
    split_and!; [done|congruence| |congruence]. rewrite F3. set_solver.
  - apply abs_native_result in H as [->|(-> & F1 & F2 & F3)]; [by left|right]. split_and!; congruence.
Qed.
End AbsResults.

(** ** The theorem *)

Section CtlTheorem.
Context {K : Type} `{!Linux K} `{!Env K}.

(** A port represents [s]. *)
Definition represents (w : posix_world K) (p ba da : addr) (r : posix_port) (s : abs_state K) : Prop :=
  refines w (dom (b_regs s)) p ba da r w s.

(** A new port has no registrations. *)
Lemma represents_new (w : posix_world K) p ba da r :
  x_ports w !! p = Some r -> pp_n_buckets r = POSIX_N_BUCKETS -> pp_buckets r = Some ba -> pp_data_buckets r = Some da ->
  ba <> da -> x_arrays w !! ba = Some (null_array POSIX_N_BUCKETS) -> x_arrays w !! da = Some (null_array POSIX_N_BUCKETS) ->
  pp_count r = 0 ->
  represents w p ba da r (mk_abs (x_kernel w) (x_errno w) (dom (x_nodes w)) ∅ (pp_metadata_generation r)).
Proof.
  intros Hp Hn Hb Hd Hne Hba Hda Hc.
  assert (Hix : forall f key, index f key (x_nodes w) (null_array POSIX_N_BUCKETS) ∅).
  { intros f key. split; [apply length_replicate|set_solver|]. intros i Hi. exists []. split_and!.
    - cbn. unfold bucket, null_array. destruct (replicate _ _ !! _) as [x|] eqn:E; [|done]. by apply lookup_replicate in E as [-> _].
    - constructor.
    - intros a. set_solver. }
  assert (Hr : r = r <| pp_count := u64 (Z.of_nat (size (∅ : gmap addr reg))) |> <| pp_metadata_generation := pp_metadata_generation r |>).
  { rewrite map_size_empty. change (u64 (Z.of_nat 0)) with 0. rewrite <- Hc. by destruct r. }
  split; cbn [b_kernel b_errno b_heap b_regs b_generation]; try done.
  rewrite <- Hr, dom_empty_L. split; try done; eexists; (split; [eassumption|apply Hix]).
Qed.

(** C4: The control operation of the POSIX backend, with its two hash indexes,
    their intrusive chains and its reserved nodes, is the operation on a finite map
    of registrations: it always returns, with the same result, the same error number
    and the same calls into the platform, and its state represents the abstract one
    afterwards; other ports, their nodes and the registry are untouched.  The result
    is 0 or -1, and after -1 no registration, count, generation or memory changed. *)
Theorem ctl_refines (w : posix_world K) p ba da r s op fd event user_ctx :
  represents w p ba da r s ->
  exists result w' s',
    port_ctl_ctx (Some p) op fd event user_ctx w = Some (result, w') /\
    abs_ctl (pp_control_epfd r) op fd event user_ctx s = Some (result, s') /\
    refines w (dom (b_regs s)) p ba da r w' s' /\
    (result = 0 \/ result = -1 /\ same_regs s s').
Proof.
  intros Hr. destruct (ctl_follows w (dom (b_regs s)) p ba da r w s op fd event user_ctx Hr) as (x & w' & Hrun & s' & Habs & Hr').
  exists x, w', s'. split_and!; [done|done|done|]. by eapply abs_ctl_result.
Qed.
End CtlTheorem.

(** A descriptor is added to a new port. *)
Definition demo_world : posix_world linux_state := exec (port_acquire_or_create 3) boot_world.
Lemma demo_represents : exists r s, represents demo_world 1 2 3 r s.
Proof.
  destruct (x_ports demo_world !! 1%positive) as [r|] eqn:E; [|by vm_compute in E].
  exists r. eexists. assert (Hr := E). vm_compute in Hr. injection Hr as <-. apply represents_new; try done; vm_compute; reflexivity.
Qed.
Lemma ctl_refines_witness :
  exists r s, represents demo_world 1 2 3 r s /\
  exists result w' s',
    port_ctl_ctx (Some 1%positive) EPOLL_CTL_ADD 4 (Some (mk_event EPOLLIN 77)) 1234 demo_world = Some (result, w') /\
    abs_ctl (pp_control_epfd r) EPOLL_CTL_ADD 4 (Some (mk_event EPOLLIN 77)) 1234 s = Some (result, s') /\
    refines demo_world (dom (b_regs s)) 1 2 3 r w' s' /\
    (result = 0 \/ result = -1 /\ same_regs s s').
Proof.
  destruct demo_represents as (r & s & H). exists r, s. split; [exact H|]. apply (ctl_refines demo_world 1 2 3 r s). exact H.
Defined.
