(* ===== verification/PosixTimeouts.v ===== *)
(** * Long waits of the POSIX backend

    A timeout that does not fit the [int] of the millisecond calls is waited for
    in chunks ([src/wepoll_ex_posix.c], 758-851).  The loop of the code makes the
    calls of a list of chunks whose sum is the timeout rounded up to the next
    millisecond, and stops at the first call that does not time out. *)
From S2P Require Import Prelude Codes Errno Timeout PosixTypes PosixPort PosixWait PosixKernel.

Definition NS_PER_MS : Z := 1000000.
Definition ns_of (t : timespec) : Z := tv_sec t * 1000000000 + tv_nsec t.

Lemma timespec_valid_range t : timespec_valid t = true -> 0 <= tv_sec t /\ 0 <= tv_nsec t < 1000000000.
Proof. unfold timespec_valid. intros H%negb_true_iff. apply orb_false_iff in H as [[? ?]%orb_false_iff ?]. lia. Qed.
Lemma valid_timespec t : 0 <= tv_sec t -> 0 <= tv_nsec t < 1000000000 -> timespec_valid t = true.
Proof. intros. unfold timespec_valid. apply negb_true_iff. rewrite !orb_false_iff. lia. Qed.

(** ** One chunk *)

(** A chunk is an [int]; only a full one leaves something to wait for, and the
    last one is the rest rounded up. *)
Lemma millisecond_chunk_spec t ms more :
  timespec_valid t = true -> millisecond_chunk t = (ms, more) ->
  0 <= ms <= INT_MAX /\
  if more then ms = INT_MAX /\ INT_MAX * NS_PER_MS < ns_of t
  else ns_of t <= ms * NS_PER_MS < ns_of t + NS_PER_MS.
Proof.
  intros [Hs Hn]%timespec_valid_range. unfold millisecond_chunk, ns_of, NS_PER_MS.
  change (INT_MAX / 1000) with 2147483. change (INT_MAX mod 1000 * 1000000) with 647000000. change INT_MAX with 2147483647.
  destruct ((2147483 <? tv_sec t) || ((tv_sec t =? 2147483) && (647000000 <? tv_nsec t))) eqn:E.
  - intros [= <- <-]. lia.
  - set (q := Z.quot (tv_nsec t + 999999) 1000000).
    assert (Hq : 0 <= q <= 1000 /\ tv_nsec t <= q * 1000000 < tv_nsec t + 1000000).
    { unfold q. rewrite Z.quot_div_nonneg by lia. pose proof (Z.div_mod (tv_nsec t + 999999) 1000000 ltac:(lia)).
      pose proof (Z.mod_pos_bound (tv_nsec t + 999999) 1000000 ltac:(lia)). lia. }
    intros [= <- <-]. apply orb_false_iff in E as [E1 E2].
    assert (Hm : (if negb (tv_nsec t =? 0) then tv_sec t * 1000 + q else tv_sec t * 1000) = tv_sec t * 1000 + q)
      by (destruct (Z.eqb_spec (tv_nsec t) 0); cbn [negb]; lia).
    rewrite Hm.
    assert (Hi : i32 (tv_sec t * 1000 + q) = tv_sec t * 1000 + q).
    { unfold i32, wrap. rewrite Z.mod_small by lia. destruct (Z.ltb_spec (tv_sec t * 1000 + q) (2 ^ 31)); lia. }
    rewrite Hi. lia.
Qed.

(** Taking a full chunk off leaves a valid timeout. *)
Lemma subtract_chunk_spec t :
  timespec_valid t = true -> INT_MAX * NS_PER_MS < ns_of t ->
  let t' := timeout_subtract_millisecond_chunk t INT_MAX in
  timespec_valid t' = true /\ ns_of t' = ns_of t - INT_MAX * NS_PER_MS.
Proof.
  intros [Hs Hn]%timespec_valid_range Hlt. unfold timeout_subtract_millisecond_chunk, ns_of, NS_PER_MS in *.
  change (Z.quot INT_MAX 1000) with 2147483. change (Z.rem INT_MAX 1000 * 1000000) with 647000000.
  change INT_MAX with 2147483647 in *. destruct (Z.ltb_spec (tv_nsec t) 647000000); cbn [tv_sec tv_nsec]; (split; [apply valid_timespec; cbn; lia|lia]).
Qed.

(** ** The loop *)

Section Loop.
Context {K : Type} `{!Linux K} `{!Env K} (epfd maxevents : Z) (sigmask : option Z).

(** The calls of a list of chunks: stop at the first that does not time out. *)
Fixpoint wait_sequence (l : list Z) : PM K (option (list epoll_event)) :=
  match l with
  | [] => ret (Some [])
  | ms :: l' =>
    result <- posix_millisecond_wait epfd maxevents ms sigmask ;;
    if bool_decide (result <> Some []) || bool_decide (l' = []) then ret result else wait_sequence l'
  end.

(** The chunks of a timeout. *)
Inductive chunks_of : timespec -> list Z -> Prop :=
| chunk_last t ms : millisecond_chunk t = (ms, false) -> chunks_of t [ms]
| chunk_more t ms l :
    millisecond_chunk t = (ms, true) -> chunks_of (timeout_subtract_millisecond_chunk t ms) l -> chunks_of t (ms :: l).

Definition total (l : list Z) : Z := foldr Z.add 0 l.

Lemma chunks_exist : forall n t, timespec_valid t = true -> ns_of t <= Z.of_nat n * (INT_MAX * NS_PER_MS) ->
  exists l, chunks_of t l /\ (length l <= S n)%nat /\ Forall (fun ms => 0 <= ms <= INT_MAX) l /\
    ns_of t <= total l * NS_PER_MS < ns_of t + NS_PER_MS.
Proof.
  induction n as [|n IH]; intros t Hv Hn.
  all: destruct (millisecond_chunk t) as [ms more] eqn:E; pose proof (millisecond_chunk_spec t ms more Hv E) as [Hr Hc].
  - destruct more; [unfold INT_MAX, NS_PER_MS in *; lia|]. exists [ms].
    split_and!; [by constructor|done|by constructor|unfold total; cbn; lia..].
  - destruct more.
    + destruct Hc as [-> Hlt]. destruct (subtract_chunk_spec t Hv Hlt) as [Hv' Hns].
      destruct (IH _ Hv') as (l & Hl & Hlen & Hall & Htot); [rewrite Hns; lia|].
      exists (INT_MAX :: l). split_and!; [by eapply chunk_more|cbn; lia|by constructor|unfold total in *; cbn [foldr]; lia..].
    + exists [ms]. split_and!; [by constructor|cbn; lia|by constructor|unfold total; cbn; lia..].
Qed.

Lemma chunks_nonempty t l : chunks_of t l -> l <> [].
Proof. by intros []. Qed.

Lemma loop_runs_chunks l : forall t fuel w, timespec_valid t = true -> chunks_of t l -> (length l <= fuel)%nat ->
  wait_chunks_loop fuel epfd maxevents t sigmask w = wait_sequence l w.
Proof.
  induction l as [|ms l IH]; intros t fuel w Hv Hc Hf; [inversion Hc|].
  destruct fuel as [|fuel]; [cbn in Hf; lia|]. cbn [wait_chunks_loop wait_sequence].
  unfold timeout_to_millisecond_chunk, validate_timespec_timeout. rewrite Hv. repeat mstep. cbn [Z.eqb negb].
  destruct (millisecond_chunk t) as [ms' more] eqn:E. repeat mstep.
  assert (ms' = ms /\ (more = false -> l = []) /\ (more = true -> chunks_of (timeout_subtract_millisecond_chunk t ms) l)) as (-> & Hl1 & Hl2).
  { inversion Hc; subst; rewrite E in *; simplify_eq; split_and!; done. }
  unfold bind at 1 2. destruct (posix_millisecond_wait epfd maxevents ms sigmask w) as [[result w1]|]; [|done].
  case_bool_decide as Hr; cbn [orb]; [done|]. destruct more; cbn [negb].
  - pose proof (chunks_nonempty _ _ (Hl2 eq_refl)) as Hne. rewrite bool_decide_eq_false_2 by done.
    pose proof (millisecond_chunk_spec t ms true Hv E) as [_ [-> Hlt]]. destruct (subtract_chunk_spec t Hv Hlt) as [Hv' _].
    apply IH; [done|by apply Hl2|cbn in Hf; lia].
  - rewrite bool_decide_eq_true_2 by auto. done.
Qed.
End Loop.

(** C7: A wait of any valid timeout, however long, is split into finitely many
    calls whose timeouts are non-negative [int]s: the loop of the code behaves as
    those calls made one after the other until one of them does not time out.
    Their sum is the timeout rounded up to a millisecond, so that the wait never
    ends early and overshoots by less than one millisecond; the number of rounds
    is bounded by the length of the timeout. *)
Theorem chunked_wait_exact {K : Type} `{!Linux K} `{!Env K} epfd maxevents sigmask t n :
  timespec_valid t = true -> ns_of t <= Z.of_nat n * (INT_MAX * NS_PER_MS) -> (n < chunk_fuel)%nat ->
  exists l, Forall (fun ms => 0 <= ms <= INT_MAX) l /\ (length l <= S n)%nat /\
    ns_of t <= total l * NS_PER_MS < ns_of t + NS_PER_MS /\
    forall w, posix_timespec_wait_chunks (K := K) epfd maxevents t sigmask w = wait_sequence epfd maxevents sigmask l w.
Proof.
  intros Hv Hn Hf. destruct (chunks_exist n t Hv Hn) as (l & Hl & Hlen & Hall & Htot). exists l. split_and!; try done; try lia.
  intros w. apply loop_runs_chunks; [done|done|lia].
Qed.

(** 57 days and a bit are three calls. *)
Lemma chunked_wait_exact_witness :
  exists l, Forall (fun ms => 0 <= ms <= INT_MAX) l /\ (length l <= 4)%nat /\
    ns_of (mk_timespec 5000000 1) <= total l * NS_PER_MS < ns_of (mk_timespec 5000000 1) + NS_PER_MS /\
    forall w, posix_timespec_wait_chunks (K := linux_state) 3 8 (mk_timespec 5000000 1) None w = wait_sequence 3 8 None l w.
Proof.
  apply (chunked_wait_exact 3 8 None (mk_timespec 5000000 1) 3); [reflexivity|vm_compute; discriminate|vm_compute; lia].
Defined.
