(* ===== verification/PosixExpand.v ===== *)
(** * Expansion of native events in place

    The extended wait of the POSIX backend lets the kernel write packed 12-byte
    records into the front of the caller's array of 40-byte records and expands
    them from back to front ([src/wepoll_ex_posix.c], 1019-1063), adding the
    context of the registration that carries the event's data when it is unique. *)
From S2P Require Import Prelude Codes Errno Timeout Links PosixTypes PosixPort PosixWait PosixNodes PosixCtl PosixKernel PosixRefine.

(** ** The context of an event *)

(** The registration with this data, if it is the only one. *)
Definition context_of (regs : gmap addr reg) (data : Z) : option posix_sock_snapshot :=
  match map_to_list (filter (fun x => ev_data (g_event x.2) = data) regs) with
  | [(_, g)] => Some (mk_snapshot (g_user_ctx g) (g_event g))
  | _ => None
  end.

Section Snapshot.
Context {K : Type} `{!Linux K} `{!Env K}.
Implicit Types (w : posix_world K) (s : abs_state K).

Definition carries (data : Z) (h : nodes) (a : addr) : Prop := exists n, h !! a = Some n /\ pn_data_key n = data.
#[local] Instance carries_dec data h a : Decision (carries data h a).
Proof.
  unfold carries. destruct (h !! a) as [n|]; [|right; by intros (? & ? & _)].
  destruct (decide (pn_data_key n = data)); [left; by exists n|right; by intros (? & [= <-] & ?)].
Defined.
Definition node_snapshot (n : posix_sock_node) : posix_sock_snapshot := mk_snapshot (pn_user_ctx n) (pn_event n).

(** The loop stops at the second match; with one match it returns that node's
    snapshot. *)
Lemma snapshot_loop_run w data : forall L fuel q m0 t0,
  chain (link pn_data_next (x_nodes w)) q L -> (length L <= fuel)%nat -> 0 <= m0 <= 2 ->
  exists m t, snapshot_data_loop fuel q data m0 t0 w = Some ((m, t), w) /\
    let ML := filter (carries data (x_nodes w)) L in
    m = Z.min 2 (m0 + Z.of_nat (length ML)) /\
    (m0 = 0 -> m = 1 -> exists a n, ML = [a] /\ x_nodes w !! a = Some n /\ t = node_snapshot n) /\ (m0 = 1 -> m = 1 -> t = t0).
Proof.
  induction L as [|a L IH]; intros fuel q m0 t0 Hc Hf Hm.
  - cbn in Hc. subst q. exists m0, t0. split; [destruct fuel; cbn [snapshot_data_loop]; destruct (m0 <? 2); done|].
    cbn. split_and!; [lia|lia|done].
  - destruct Hc as [-> (q' & Hq & Hc)]. destruct fuel as [|fuel]; [cbn in Hf; lia|]. cbn [snapshot_data_loop].
    destruct (Z.ltb_spec m0 2) as [Hlt|Hge]; cbn [negb].
    2:{ exists m0, t0. split; [done|]. cbv zeta. split_and!; lia. }
    unfold link in Hq. destruct (x_nodes w !! a) as [n|] eqn:Hn; [|done]. injection Hq as <-. repeat mstep. cbn in Hf.
    cbv zeta. rewrite filter_cons. destruct (Z.eqb_spec (pn_data_key n) data) as [E|E].
    + rewrite decide_True by by exists n. repeat mstep.
      destruct (IH fuel _ (m0 + 1) (mk_snapshot (pn_user_ctx n) (pn_event n)) Hc) as (m & t & Hrun & Em & H0 & H1); [lia|lia|].
      exists m, t. split; [exact Hrun|]. cbn [length]. split_and!; [lia| |lia].
      intros -> ->. exists a, n. rewrite H1 by done. split_and!; [|done|done]. f_equal. apply nil_length_inv. lia.
    + rewrite decide_False by (intros (n' & Hn' & ?); congruence). by apply IH; [|lia|].
Qed.

(** The snapshot taken for an event is the context of its data. *)
Lemma snapshot_run w0 R p ba da r0 w s data :
  refines w0 R p ba da r0 w s ->
  node_snapshot_by_data_locked (Some p) data w = Some (context_of (b_regs s) data, w).
Proof.
  intros Hr. pose proof (rf_port _ _ _ _ _ _ _ _ Hr) as [Hp Hn Hb Hd Hne Hfd (l & Hl & HD)].
  destruct (ix_chain _ _ _ _ _ HD (node_data_slot POSIX_N_BUCKETS data)) as (L & HL & Hnd & HM); [by apply slot_range|].
  unfold node_snapshot_by_data_locked. repeat mstep. sget. sget_in Hn. sget_in Hd. rewrite Hn, Hd.
  erewrite bind_some by (eapply array_get_run; [exact Hl|rewrite (ix_length _ _ _ _ _ HD); by apply slot_range]).
  repeat mstep. destruct (snapshot_loop_run w data L (node_fuel w) _ 0 (mk_snapshot 0 zero_event) HL) as (m & x & Hrun & Em & H1 & _);
    [by eapply chain_length|lia|]. erewrite bind_some by exact Hrun. cbv beta iota. unfold ret. do 2 f_equal.
  set (ML := filter (carries data (x_nodes w)) L) in *.
  set (F := filter (fun y => ev_data (g_event y.2) = data) (b_regs s)).
  assert (HF : forall a g, F !! a = Some g <-> b_regs s !! a = Some g /\ ev_data (g_event g) = data)
    by (intros a g; unfold F; by rewrite map_lookup_filter_Some).
  assert (HML : forall a, a ∈ ML <-> a ∈ dom F).
  { intros a. unfold ML. rewrite list_elem_of_filter, HM, (elem_of_dom F). unfold is_Some. setoid_rewrite HF. split.
    - intros [(n & Hna & E) [Ha _]]. apply elem_of_dom in Ha as [g Hg]. exists g. split; [done|].
      destruct (rf_regs _ _ _ _ _ _ _ _ Hr _ _ Hg) as (n' & Hn' & Hc). assert (n' = n) as -> by congruence.
      rewrite <- E. symmetry. exact (f_equal pn_data_key Hc).
    - intros (g & Hg & E). destruct (rf_regs _ _ _ _ _ _ _ _ Hr _ _ Hg) as (n & Hna & Hc).
      assert (pn_data_key n = data) by (rewrite <- E; exact (f_equal pn_data_key Hc)). split; [by exists n|].
      split; [by apply elem_of_dom_2 in Hg|]. exists n. split; [done|]. by f_equal. }
  assert (Hsize : length ML = length (map_to_list F)).
  { rewrite length_map_to_list, <- size_dom, <- (size_list_to_set (C := gset addr) ML) by (by apply NoDup_filter).
    f_equal. apply set_eq. intros a. by rewrite elem_of_list_to_set. }
  unfold context_of. fold F. destruct (Z.eqb_spec m 1) as [E|E].
  - destruct (H1 eq_refl E) as (a & n & EML & Hna & ->). rewrite EML in Hsize. 
    destruct (map_to_list F) as [|[b g] [|]] eqn:EF; try discriminate Hsize.
    assert (HFb : F !! b = Some g) by (apply elem_of_map_to_list; rewrite EF; by left).
    assert (b = a) as -> by (apply list_elem_of_singleton; rewrite <- EML; apply HML; by apply elem_of_dom_2 in HFb).
    apply HF in HFb as [Hg _]. destruct (rf_regs _ _ _ _ _ _ _ _ Hr _ _ Hg) as (n' & Hn' & Hc).
    assert (n' = n) as -> by congruence. unfold node_snapshot. do 2 f_equal; [exact (f_equal pn_user_ctx Hc)|exact (f_equal pn_event Hc)].
  - destruct (map_to_list F) as [|[b g] [|]] eqn:EF; [done| |done]. cbn in Hsize. lia.
Qed.
End Snapshot.

(** ** The loop over the bytes *)

Section Expand.
Context {K : Type} `{!Linux K} `{!Env K}.
Implicit Types (w : posix_world K) (s : abs_state K).

(** The record delivered for a native event. *)
Definition record_for (stable : bool) (regs : gmap addr reg) (now_ns : Z) (e : epoll_event) : epoll_event_ex :=
  expand_event now_ns e (if stable then context_of regs (ev_data e) else None).

Definition native_bytes (evs : list epoll_event) : list Z := concat (encode_event <$> evs).
Definition record_bytes (recs : list epoll_event_ex) : list Z := concat (encode_event_ex <$> recs).

Lemma length_native_bytes evs : length (native_bytes evs) = (length evs * sizeof_event)%nat.
Proof.
  induction evs as [|e evs IH]; [done|]. unfold native_bytes in *. cbn [fmap list_fmap concat].
  rewrite length_app, IH, length_encode_event. done.
Qed.
Lemma native_bytes_snoc evs e : native_bytes (evs ++ [e]) = native_bytes evs ++ encode_event e.
Proof. unfold native_bytes. rewrite fmap_app, concat_app. cbn [fmap list_fmap concat]. by rewrite app_nil_r. Qed.
Lemma record_bytes_snoc recs e : record_bytes (recs ++ [e]) = record_bytes recs ++ encode_event_ex e.
Proof. unfold record_bytes. rewrite fmap_app, concat_app. cbn [fmap list_fmap concat]. by rewrite app_nil_r. Qed.

(** The packed records are read before the wider ones overwrite them. *)
Lemma read_packed evs e buffer :
  take (length (evs ++ [e]) * sizeof_event) buffer = native_bytes (evs ++ [e]) ->
  take sizeof_event (drop (length evs * sizeof_event) buffer) = encode_event e /\
  take (length evs * sizeof_event) buffer = native_bytes evs.
Proof.
  intros Hb. rewrite native_bytes_snoc in Hb. rewrite length_app in Hb. cbn [length] in Hb.
  set (k := (length evs * sizeof_event)%nat) in *. assert (Ek : ((length evs + 1) * sizeof_event = k + sizeof_event)%nat) by (unfold k; lia).
  rewrite Ek in Hb. split.
  - rewrite take_drop_commute, Hb. rewrite drop_app_length' by (by rewrite length_native_bytes). done.
  - apply (f_equal (take k)) in Hb. rewrite take_take in Hb. replace (k `min` (k + sizeof_event))%nat with k in Hb by lia.
    rewrite Hb. by rewrite take_app_length' by (by rewrite length_native_bytes).
Qed.

Lemma expand_loop_run w0 R p ba da r0 w s stable now_ns : refines w0 R p ba da r0 w s ->
  forall evs buffer, Forall event_wf evs -> (length evs * sizeof_event_ex <= length buffer)%nat ->
  take (length evs * sizeof_event) buffer = native_bytes evs ->
  expand_loop (Some p) stable now_ns (length evs) buffer w =
    Some (record_bytes (record_for stable (b_regs s) now_ns <$> evs) ++ drop (length evs * sizeof_event_ex) buffer, w).
Proof.
  intros Hr evs. induction evs as [|e evs IH] using rev_ind; intros buffer Hwf Hlen Hb; [done|].
  destruct (read_packed _ _ _ Hb) as [He Hevs]. apply Forall_app in Hwf as [Hwf [Hwe _]%Forall_cons].
  rewrite length_app in *. cbn [length] in *. rewrite Nat.add_1_r in *. cbn [expand_loop].
  rewrite He, decode_encode_event by done.
  assert (Hsnap : (if stable then node_snapshot_by_data_locked (Some p) (ev_data e) else ret None) w =
                  Some (if stable then context_of (b_regs s) (ev_data e) else None, w)).
  { destruct stable; [by eapply snapshot_run|done]. }
  erewrite bind_some by exact Hsnap. cbv beta. fold (record_for stable (b_regs s) now_ns e).
  set (i := length evs) in *. set (bytes := encode_event_ex _).
  assert (Hlb : length bytes = sizeof_event_ex) by apply length_encode_event_ex.
  set (off := (i * sizeof_event_ex)%nat) in *.
  assert (Hoff : (off + sizeof_event_ex <= length buffer)%nat) by (unfold off, sizeof_event_ex in *; lia).
  assert (Hstore : store off bytes buffer w = Some (take off buffer ++ bytes ++ drop (off + sizeof_event_ex) buffer, w)).
  { unfold store. rewrite Hlb. destruct (Nat.leb_spec (off + sizeof_event_ex) (length buffer)); [done|lia]. }
  erewrite bind_some by exact Hstore. cbv beta.
  assert (Hto : length (take off buffer) = off) by (rewrite length_take; lia).
  rewrite IH; [|done| |].
  - do 2 f_equal. rewrite fmap_app. cbn [fmap list_fmap]. rewrite record_bytes_snoc, <- app_assoc. f_equal.
    rewrite drop_app_length' by done. f_equal. fold bytes. f_equal. unfold off. lia.
  - rewrite !length_app, Hto. fold off. lia.
  - rewrite take_app_le by (rewrite Hto; unfold off, sizeof_event, sizeof_event_ex; lia).
    rewrite take_take. replace ((i * sizeof_event) `min` off)%nat with (i * sizeof_event)%nat by (unfold off, sizeof_event, sizeof_event_ex; lia).
    exact Hevs.
Qed.

(** C6: Expanding the native events in place is correct: although each 40-byte
    record overwrites bytes where packed 12-byte records lie, the caller's array
    holds, for every native event, in order, its events and data with the
    timestamp, and the context and flags of the registration that carries its data
    if that registration is unique and the metadata did not change since before the
    wait; otherwise no context.  The bytes behind the records and the process state
    are untouched. *)
Theorem decorate_exact w0 R p ba da r0 w s generation now_ns evs buffer :
  refines w0 R p ba da r0 w s -> Forall event_wf evs -> (length evs * sizeof_event_ex <= length buffer)%nat ->
  take (length evs * sizeof_event) buffer = native_bytes evs ->
  decorate (Some p) generation now_ns (length evs) buffer w =
    Some (record_bytes (record_for (b_generation s =? generation) (b_regs s) now_ns <$> evs) ++
          drop (length evs * sizeof_event_ex) buffer, w).
Proof.
  intros Hr Hwf Hlen Hb. unfold decorate. pose proof (pr_port _ _ _ _ _ _ _ (rf_port _ _ _ _ _ _ _ _ Hr)) as Hp.
  erewrite bind_some by by eapply rd_some. sget. by eapply expand_loop_run.
Qed.
End Expand.

(** Two events into an array of two records, in a port without registrations. *)
Lemma decorate_exact_witness :
  exists r s, represents demo_world 1 2 3 r s /\
  let evs := [mk_event EPOLLIN 7; mk_event EPOLLOUT 9] in
  let buffer := native_bytes evs ++ replicate 56 0 in
  decorate (Some 1%positive) 1 5 2 buffer demo_world =
    Some (record_bytes (record_for (b_generation s =? 1) (b_regs s) 5 <$> evs) ++ drop 80 buffer, demo_world).
Proof.
  destruct demo_represents as (r & s & H). exists r, s. split; [exact H|]. cbv zeta.
  apply (decorate_exact demo_world (dom (b_regs s)) 1 2 3 r demo_world s 1 5 [mk_event EPOLLIN 7; mk_event EPOLLOUT 9]
           (native_bytes [mk_event EPOLLIN 7; mk_event EPOLLOUT 9] ++ replicate 56 0) H).
  - repeat constructor; vm_compute; congruence.
  - vm_compute. lia.
  - vm_compute. reflexivity.
Defined.
