(* ===== verification/PosixSteps.v ===== *)
(** * References to a POSIX port

    The interleaving of operations, waits, cancellations and closes on one port of
    the POSIX backend ([src/wepoll_ex_posix.c], 115-240, 308-473 and 1415-1484).  A
    step is one critical section under [g_posix_lock], computed by the functions of
    [PosixPort], or the release of memory that follows one. *)
From S2P Require Import Prelude Codes Errno Timeout PosixTypes PosixPort.

Record posix_refs := mk_posix_refs {
  q_port : option posix_port;   (* [None]: freed *)
  q_holders : nat;   (* operations between acquire and release, cancelled waits included *)
  q_closers : nat;   (* threads that took the last alias away and will wait *)
  q_waiting : nat;   (* closers inside the condition wait *)
  q_freers : nat;    (* threads about to call [port_free] *)
  q_frees : nat      (* how often the port was freed *)
}.

(** The port made by [port_create], held by its creator. *)
Definition posix_refs_start (epfd : Z) : posix_refs :=
  mk_posix_refs (Some ((blank_port epfd) <| pp_refs := 1 |> <| pp_aliases := 1 |>)) 1 0 0 0 0.

(** The registry names the port. *)
Definition registered (r : posix_port) : bool := (0 <? pp_aliases r) && negb (pp_closing r).

Definition freer (b : bool) : nat := if b then 1 else 0.

Inductive posix_refs_step : posix_refs -> posix_refs -> Prop :=
| px_acquire r h c v d f :
    registered r = true -> Z.of_nat (S h) < 2 ^ 64 ->
    posix_refs_step (mk_posix_refs (Some r) h c v d f) (mk_posix_refs (Some (acquire_port r)) (S h) c v d f)
| px_alias r h c v d f :
    registered r = true -> pp_aliases r < POSIX_PORT_MAP_SIZE ->
    posix_refs_step (mk_posix_refs (Some r) h c v d f) (mk_posix_refs (Some (add_alias r)) h c v d f)
(** A close or a stale descriptor takes an alias away ... *)
| px_drop r h c v d f :
    registered r = true -> pp_aliases (drop_alias r) <> 0 ->
    posix_refs_step (mk_posix_refs (Some r) h c v d f) (mk_posix_refs (Some (drop_alias r)) h c v d f)
(** ... or the last one. *)
| px_close r h c v d f :
    registered r = true -> pp_aliases (drop_alias r) = 0 ->
    posix_refs_step (mk_posix_refs (Some r) h c v d f)
      (mk_posix_refs (Some ((drop_alias r) <| pp_closing := true |>)) h (S c) v d f)
(** The closer finds the port idle, waits, is woken or cancelled. *)
| px_idle r h c v d f :
    pp_refs r = 0 ->
    posix_refs_step (mk_posix_refs (Some r) h (S c) v d f)
      (mk_posix_refs (Some (wait_end_port (wait_begin_port r))) h c v (S d) f)
| px_wait r h c v d f :
    pp_refs r <> 0 ->
    posix_refs_step (mk_posix_refs (Some r) h (S c) v d f) (mk_posix_refs (Some (wait_begin_port r)) h c (S v) d f)
| px_woken r h c v d f :
    pp_refs r = 0 ->
    posix_refs_step (mk_posix_refs (Some r) h c (S v) d f) (mk_posix_refs (Some (wait_end_port r)) h c v (S d) f)
| px_cancel r h c v d f :
    posix_refs_step (mk_posix_refs (Some r) h c (S v) d f)
      (mk_posix_refs (Some (close_cancel_port r).1) h c v (d + freer (close_cancel_port r).2) f)
| px_release r h c v d f :
    posix_refs_step (mk_posix_refs (Some r) (S h) c v d f)
      (mk_posix_refs (Some (release_port r).1) h c v (d + freer (release_port r).2) f)
| px_free r h c v d f :
    posix_refs_step (mk_posix_refs (Some r) h c v (S d) f) (mk_posix_refs None h c v d (S f)).

Definition posix_refs_reachable (epfd : Z) : posix_refs -> Prop := rtc posix_refs_step (posix_refs_start epfd).

(** ** Invariant *)

(** Open; the last alias is gone; the closer waits; the closer was cancelled and
    the last reference will free the port; a thread is about to free it. *)
Inductive posix_phase := POpen | PClosing | PWaiting | POrphan | PDoomed.

Definition posix_phase_ok (ph : posix_phase) (r : posix_port) (st : posix_refs) : Prop :=
  (match ph with POpen => pp_closing r = false /\ 0 < pp_aliases r | _ => pp_closing r = true /\ pp_aliases r = 0 end) /\
  pp_retired r = (match ph with PWaiting | POrphan => true | _ => false end) /\
  pp_close_waiter r = (match ph with PWaiting => true | _ => false end) /\
  q_closers st = (match ph with PClosing => 1 | _ => 0 end)%nat /\
  q_waiting st = (match ph with PWaiting => 1 | _ => 0 end)%nat /\
  q_freers st = (match ph with PDoomed => 1 | _ => 0 end)%nat /\
  (match ph with POrphan => (0 < q_holders st)%nat | PDoomed => q_holders st = 0%nat | _ => True end).

Definition posix_refs_inv (st : posix_refs) : Prop :=
  match q_port st with
  | Some r => q_frees st = 0%nat /\ pp_refs r = Z.of_nat (q_holders st) /\ Z.of_nat (q_holders st) < 2 ^ 64 /\
              0 <= pp_aliases r <= POSIX_PORT_MAP_SIZE /\ exists ph, posix_phase_ok ph r st
  | None => q_frees st = 1%nat /\ q_holders st = 0%nat /\ q_closers st = 0%nat /\ q_waiting st = 0%nat /\ q_freers st = 0%nat
  end.

Ltac qsimpl := cbn [q_port q_holders q_closers q_waiting q_freers q_frees posix_phase_ok fst snd negb andb freer] in *; sget.
(** The phase of a port that is not closing, or where the counters say so. *)
Ltac phase Hph := unfold posix_phase_ok in Hph; qsimpl; destruct Hph as ([? ?] & Hretired & Hwaiter & ? & ? & ? & ?).
Ltac settle := unfold posix_phase_ok; qsimpl; split_and!; (done || lia || congruence).

Lemma registered_phase r ph st : registered r = true -> posix_phase_ok ph r st -> ph = POpen.
Proof.
  unfold registered. intros [_ Hc%negb_true_iff]%andb_true_iff [Hp _]. destruct ph; [done|..]; destruct Hp; congruence.
Qed.

Lemma drop_alias_eq r : 0 < pp_aliases r <= POSIX_PORT_MAP_SIZE -> drop_alias r = r <| pp_aliases := pp_aliases r - 1 |>.
Proof.
  intros Ha. unfold drop_alias. destruct (Z.eqb_spec (pp_aliases r) 0); [lia|]. cbn [negb].
  rewrite u64_small by (unfold POSIX_PORT_MAP_SIZE in *; lia). done.
Qed.

Lemma posix_refs_step_inv st st' : posix_refs_inv st -> posix_refs_step st st' -> posix_refs_inv st'.
Proof.
  intros Hinv Hstep. destruct Hstep as [r h c v d f Hr Hb|r h c v d f Hr Hb|r h c v d f Hr Hb|r h c v d f Hr Hb|
    r h c v d f Hb|r h c v d f Hb|r h c v d f Hb|r h c v d f|r h c v d f|r h c v d f];
    unfold posix_refs_inv, POSIX_PORT_MAP_SIZE in *; qsimpl; destruct Hinv as (-> & Hrefs & Hh & Hal & ph & Hph);
    try (pose proof (registered_phase _ _ _ Hr Hph) as ->; phase Hph).
  - unfold acquire_port. sget. rewrite u64_small by lia. split_and!; try lia. exists POpen. settle.
  - unfold add_alias. sget. rewrite u64_small by lia. split_and!; try lia. exists POpen. settle.
  - rewrite drop_alias_eq in * by (unfold POSIX_PORT_MAP_SIZE; lia). qsimpl. sget_in Hb. split_and!; try lia. exists POpen. settle.
  - rewrite drop_alias_eq in * by (unfold POSIX_PORT_MAP_SIZE; lia). qsimpl. sget_in Hb. split_and!; try lia. exists PClosing. settle.
  - destruct ph; phase Hph; try lia. unfold wait_end_port, wait_begin_port. sget. split_and!; try lia. exists PDoomed. settle.
  - destruct ph; phase Hph; try lia. unfold wait_begin_port. sget. split_and!; try lia. exists PWaiting. settle.
  - destruct ph; phase Hph; try lia. unfold wait_end_port. sget. split_and!; try lia. exists PDoomed. settle.
  - destruct ph; phase Hph; try lia. unfold close_cancel_port. cbv zeta. sget.
    destruct (Z.eqb_spec (pp_refs r) 0); qsimpl; (split_and!; try lia); [exists PDoomed|exists POrphan]; settle.
  - unfold release_port. cbv zeta. sget. rewrite u64_small by lia.
    destruct (pp_retired r && (pp_aliases r =? 0) && (pp_refs r - 1 =? 0) && negb (pp_close_waiter r)) eqn:E; qsimpl.
    + rewrite !andb_true_iff, negb_true_iff in E. destruct E as [[[E1 E2] E3] E4].
      destruct ph; phase Hph; try congruence. split_and!; try lia. exists PDoomed. settle.
    + split_and!; try lia. destruct ph; phase Hph; try lia; [exists POpen|exists PClosing|exists PWaiting|]; try settle.
      exists POrphan. assert (h <> 0)%nat; [|settle]. intros ->. rewrite Hretired, Hwaiter in E. cbn in E.
      rewrite andb_false_iff, andb_false_iff in E. lia.
  - destruct ph; phase Hph; try lia.
Qed.

Lemma posix_refs_reachable_inv epfd st : posix_refs_reachable epfd st -> posix_refs_inv st.
Proof.
  intros H. unfold posix_refs_reachable in H. remember (posix_refs_start epfd) as st0 eqn:E.
  assert (posix_refs_inv st0) as H0.
  { subst. unfold posix_refs_inv. split_and!; try done. exists POpen. settle. }
  clear E. induction H as [|x y z Hxy _ IH]; [done|]. apply IH. by eapply posix_refs_step_inv.
Qed.

(** C5: However operations, waits, duplicated descriptors, closes and
    cancellations of waits and of closes interleave on one port of the POSIX
    backend: it is freed at most once and never while an operation or a closer
    still uses it; a closer that waits can always go on once no reference is left;
    and once the last descriptor is closed and every operation and closer has
    finished, also by cancellation, the port has been freed or a thread is about to
    free it. *)
Theorem posix_port_freed_once epfd st :
  posix_refs_reachable epfd st ->
  (q_frees st + q_freers st <= 1)%nat /\
  ((0 < q_frees st + q_freers st)%nat -> q_holders st = 0%nat /\ q_closers st = 0%nat /\ q_waiting st = 0%nat) /\
  (forall r, q_port st = Some r -> (0 < q_waiting st)%nat -> q_holders st = 0%nat -> pp_refs r = 0) /\
  (forall r, q_port st = Some r -> pp_closing r = true ->
     q_holders st = 0%nat -> q_closers st = 0%nat -> q_waiting st = 0%nat -> q_freers st = 1%nat).
Proof.
  intros H%posix_refs_reachable_inv. unfold posix_refs_inv in H. destruct (q_port st) as [r|].
  - destruct H as (Hf & Hrefs & _ & _ & ph & Hph). destruct ph; phase Hph; split_and!; try lia; intros r' [= <-]; intros; (lia || intuition congruence).
  - destruct H as (-> & -> & -> & -> & ->). split_and!; (done || lia).
Qed.

(** A wait holds the port; its last descriptor is closed; the closer is
    cancelled; the wait returns and frees the port. *)
Lemma posix_port_freed_once_witness :
  exists st, posix_refs_reachable 3 st /\ q_port st = None /\ (q_frees st + q_freers st <= 1)%nat.
Proof.
  assert (H : posix_refs_reachable 3 (mk_posix_refs None 0 0 0 0 1)).
  { unfold posix_refs_reachable, posix_refs_start.
    eapply rtc_l; [by apply px_close|]. eapply rtc_l; [by apply px_wait|]. eapply rtc_l; [apply px_cancel|].
    eapply rtc_l; [apply px_release|]. eapply rtc_l; [apply px_free|]. apply rtc_refl. }
  eexists. split; [exact H|]. split; [reflexivity|]. apply (posix_port_freed_once 3 _ H).
Defined.
