(* ===== verification/PosixLife.v ===== *)
(** * The life of a POSIX port

    Creation and release of the ports of the POSIX backend
    ([src/wepoll_ex_posix.c], 285-303 and 360-457) do not leak: [LinuxLaws] is what
    the platform promises about descriptors, and the theorems account for memory,
    descriptors and the registry. *)
From S2P Require Import Prelude Codes Errno Timeout Links PosixTypes PosixPort PosixNodes PosixCtl PosixKernel PosixRefine.

(** ** What the platform promises *)

Class LinuxLaws (K : Type) `{!Linux K} := {
  (** The open descriptors of the process. *)
  k_open : K -> gset Z;
  law_close fd k r k' : sys_close fd k = (r, k') -> k_open k' = k_open k ∖ {[fd]};
  law_dup fd k r k' : sys_fcntl_dupfd fd k = (r, k') ->
    (0 <= r /\ r ∉ k_open k /\ k_open k' = {[r]} ∪ k_open k) \/ (r < 0 /\ k_open k' = k_open k);
  law_eventfd k r k' : sys_eventfd k = (r, k') ->
    (0 <= r /\ r ∉ k_open k /\ k_open k' = {[r]} ∪ k_open k) \/ (r < 0 /\ k_open k' = k_open k);
  law_ctl epfd op fd ev k r k' : sys_epoll_ctl epfd op fd ev k = (r, k') -> r <= 0 /\ k_open k' = k_open k;
  law_calloc size k r k' : sys_calloc size k = (r, k') -> k_open k' = k_open k;
  law_mutex k r k' : sys_mutex_init k = (r, k') -> k_open k' = k_open k;
  law_cond k r k' : sys_cond_init k = (r, k') -> k_open k' = k_open k
}.

Section Life.
Context {K : Type} `{!Linux K} `{!Env K} `{!LinuxLaws K}.
Implicit Types (w : posix_world K) (s : abs_state K) (p a : addr).

Definition x_open w : gset Z := k_open (x_kernel w).

(** ** Release *)

Definition without (D : gset addr) (h : nodes) : nodes := filter (fun x => x.1 ∉ D) h.

Lemma without_lookup D h a : without D h !! a = if decide (a ∈ D) then None else h !! a.
Proof.
  unfold without. case_decide as E.
  - apply map_lookup_filter_None. right. intros n _ Hn. by apply Hn.
  - destruct (h !! a) as [n|] eqn:Hn; [by apply map_lookup_filter_Some|]. apply map_lookup_filter_None. by left.
Qed.
Lemma without_delete D h a : without D (delete a h) = without ({[a]} ∪ D) h.
Proof.
  apply map_eq. intros b. rewrite !without_lookup. destruct (decide (b = a)) as [->|Hne].
  - rewrite (decide_True (P := a ∈ {[a]} ∪ D)) by set_solver. case_decide; [done|]. apply lookup_delete_eq.
  - rewrite lookup_delete_ne by done. repeat case_decide; set_solver.
Qed.
Lemma without_without D D' h : without D (without D' h) = without (D' ∪ D) h.
Proof. apply map_eq. intros b. rewrite !without_lookup. repeat case_decide; set_solver. Qed.
Lemma without_empty h : without ∅ h = h.
Proof. apply map_eq. intros b. rewrite without_lookup. by rewrite decide_False by set_solver. Qed.

Lemma free_chain_run : forall L fuel q w,
  chain (link pn_next (x_nodes w)) q L -> NoDup L -> (length L <= fuel)%nat ->
  free_chain fuel q w = Some (tt, w <| x_nodes := without (list_to_set L) (x_nodes w) |>).
Proof.
  induction L as [|a L IH]; intros fuel q w Hc Hnd Hf.
  - cbn in Hc. subst q. rewrite without_empty. by destruct fuel, w.
  - destruct Hc as [-> (q' & Hq & Hc)]. destruct fuel as [|fuel]; [cbn in Hf; lia|]. cbn [free_chain].
    unfold link in Hq. destruct (x_nodes w !! a) as [n|] eqn:Hn; [|done]. injection Hq as <-. repeat mstep.
    apply NoDup_cons in Hnd as [Ha Hnd]. rewrite IH; [|sget|done|cbn in Hf; lia].
    + sget. by rewrite without_delete.
    + eapply chain_ext; [|exact Hc]. intros b Hb. apply link_delete_ne. by intros ->.
Qed.

(** The chains of the buckets from [b] on. *)
Definition tail_index (h : nodes) (l : list ptr) (S : gset addr) (b : Z) : Prop :=
  forall i, b <= i < POSIX_N_BUCKETS -> exists L, chain (link pn_next h) (bucket l i) L /\ NoDup L /\
    forall a, a ∈ L <-> a ∈ S /\ exists n, h !! a = Some n /\ fd_key n = i.

Lemma free_buckets_run ba l : length l = Z.to_nat POSIX_N_BUCKETS -> forall todo b w (S : gset addr),
  x_arrays w !! ba = Some l -> 0 <= b -> b + Z.of_nat todo = POSIX_N_BUCKETS -> tail_index (x_nodes w) l S b ->
  (forall a, a ∈ S -> exists n, x_nodes w !! a = Some n /\ b <= fd_key n) ->
  free_buckets (Some ba) b todo w = Some (tt, w <| x_nodes := without S (x_nodes w) |>).
Proof.
  intros Hlen. induction todo as [|todo IH]; intros b w S Hl Hb Hsum HT HS; cbn [free_buckets].
  - assert (S = ∅) as ->.
    { apply set_eq. intros a. split; [|set_solver]. intros (n & Hn & Hk)%HS. pose proof (lf_range (f := pn_next) (key := fd_key) n). cbn in *. lia. }
    rewrite without_empty. by destruct w.
  - destruct (HT b ltac:(lia)) as (L & HL & Hnd & HM).
    erewrite bind_some by (eapply array_get_run; [exact Hl|rewrite Hlen; unfold POSIX_N_BUCKETS in *; lia]).
    repeat mstep. erewrite bind_some by (apply free_chain_run; [exact HL|done|by eapply chain_length]).
    cbv beta. rewrite (IH (b + 1) _ (S ∖ list_to_set L)); sget; [|done|lia|lia| |].
    + rewrite without_without. assert (list_to_set L ∪ S ∖ list_to_set L = S) as ->; [|done].
      apply set_eq. intros a. rewrite elem_of_union, elem_of_difference, elem_of_list_to_set.
      split; [|intros Ha; destruct (decide (a ∈ L)); tauto]. intros [Ha|[? _]]; [|done]. by apply HM in Ha as [? _].
    + intros i Hi. destruct (HT i ltac:(lia)) as (L' & HL' & Hnd' & HM').
      assert (Hdis : forall a, a ∈ L' -> a ∉ L).
      { intros a (_ & n & Hn & Hk)%HM' (_ & n' & Hn' & Hk')%HM. assert (n' = n) as -> by congruence. lia. }
      exists L'. split_and!; [|done|].
      * eapply chain_ext; [|exact HL']. intros a Ha. unfold link. rewrite without_lookup, decide_False; [done|].
        rewrite elem_of_list_to_set. by apply Hdis.
      * intros a. split.
        -- intros Ha. pose proof (Hdis a Ha) as HaL. apply HM' in Ha as [HaS Hx]. split; [set_solver|].
           by rewrite without_lookup, decide_False by (by rewrite elem_of_list_to_set).
        -- intros [HaS Hx]. apply HM'. split; [set_solver|]. rewrite without_lookup in Hx. case_decide; [by destruct Hx as (? & ? & _)|done].
    + intros a [Ha HaL]%elem_of_difference. destruct (HS a Ha) as (n & Hn & Hk). exists n.
      rewrite without_lookup, decide_False by done. split; [done|].
      assert (fd_key n <> b); [|cbv beta in *; lia]. intros E. apply HaL. rewrite elem_of_list_to_set. apply HM. split; [done|]. by exists n.
Qed.

(** Only the kernel and the error number changed. *)
Definition answered w w' : Prop := exists k e, w' = w <| x_kernel := k |> <| x_errno := e |>.

Lemma ask_run {A} (call : K -> A * K) w r k :
  call (x_kernel w) = (r, k) -> ask call w = Some (r, w <| x_kernel := k |>).
Proof. intros E. unfold ask. by rewrite E. Qed.
Lemma libc_run (call : K -> Z * K) w r k :
  call (x_kernel w) = (r, k) ->
  libc call w = Some (if r <? 0 then -1 else r, w <| x_kernel := k |> <| x_errno := if r <? 0 then - r else x_errno w |>).
Proof. intros E. unfold libc. erewrite bind_some by by apply ask_run. destruct (r <? 0); [done|]. by destruct w. Qed.

Lemma close_quietly_run fd w :
  exists w', close_quietly fd w = Some (tt, w') /\ answered w w' /\ x_open w' = x_open w ∖ {[fd]}.
Proof.
  unfold close_quietly. destruct (sys_close fd (x_kernel w)) as [r k] eqn:E. erewrite bind_some by by apply libc_run.
  eexists. split; [reflexivity|]. split; [by eexists _, _|]. unfold x_open. sget. by eapply law_close.
Qed.

(** A descriptor of the port, if it was opened. *)
Definition opened (fd : Z) : gset Z := if 0 <=? fd then {[fd]} else ∅.

Lemma close_opened_run fd w :
  exists w', (if 0 <=? fd then close_quietly fd else ret tt) w = Some (tt, w') /\ answered w w' /\ x_open w' = x_open w ∖ opened fd.
Proof.
  unfold opened. destruct (0 <=? fd); [apply close_quietly_run|]. exists w. split; [done|]. split.
  - exists (x_kernel w), (x_errno w). by destruct w.
  - set_solver.
Qed.

(** What is left of the process after [p], with the nodes [S], is gone. *)
Record released w w' p (r : posix_port) (ba da : addr) (S : gset addr) : Prop := {
  rl_ports : x_ports w' = delete p (x_ports w);
  rl_nodes : x_nodes w' = without S (x_nodes w);
  rl_arrays : x_arrays w' = delete da (delete ba (x_arrays w));
  rl_map : x_map w' = x_map w /\ x_map_epfd w' = x_map_epfd w;
  rl_open : x_open w' = x_open w ∖ opened (pp_control_epfd r) ∖ opened (pp_identity_fd r)
}.

Lemma port_free_run w p r ba da SF SD :
  port_rep w p r ba da SF SD ->
  exists w', port_free (Some p) w = Some (tt, w') /\ released w w' p r ba da SF.
Proof.
  intros [Hp Hn Hb Hd Hne (l & Hl & HF) (ld & Hld & _)]. unfold port_free. repeat mstep. rewrite Hn, Hb, Hd.
  erewrite bind_some.
  2:{ eapply (free_buckets_run ba l (ix_length _ _ _ _ _ HF) _ 0 w SF); [done|done|done| |].
      - intros i Hi. by apply (ix_chain _ _ _ _ _ HF).
      - intros a Ha. destruct (ix_node _ _ _ _ _ HF a Ha) as [n Hna]. exists n. split; [done|].
        pose proof (lf_range (f := pn_next) (key := fd_key) n). cbv beta in *. lia. }
  cbv beta. set (w1 := set x_nodes _ w).
  assert (Hl1 : x_arrays w1 !! ba = Some l) by done. erewrite bind_some by by eapply del_some. cbv beta.
  set (w2 := set x_arrays _ w1).
  assert (Hl2 : x_arrays w2 !! da = Some ld) by (unfold w2; sget; by rewrite lookup_delete_ne).
  erewrite bind_some by by eapply del_some. cbv beta. set (w3 := set x_arrays _ w2).
  assert (Hp3 : x_ports w3 !! p = Some r) by done. erewrite bind_some by by eapply rd_some. cbv beta.
  destruct (close_opened_run (pp_control_epfd r) w3) as (w4 & Hr4 & (k4 & e4 & ->) & Ho4). erewrite bind_some by exact Hr4. cbv beta.
  erewrite bind_some by (eapply rd_some; exact Hp3). cbv beta.
  match goal with |- context [bind (if 0 <=? pp_identity_fd r then _ else _) _ ?w5] => destruct (close_opened_run (pp_identity_fd r) w5) as (w6 & Hr6 & (k6 & e6 & ->) & Ho6) end.
  erewrite bind_some by exact Hr6. cbv beta. eexists. split; [by eapply del_some|]. split; try done.
  unfold x_open in *. sget. sget_in Ho6. sget_in Ho4. by rewrite Ho6, Ho4.
Qed.

(** C9: Releasing a port of the POSIX backend always succeeds and frees exactly
    what belongs to it: its registrations, the two bucket arrays, the port itself,
    and the control and identity descriptors if they were opened.  No node is used
    after it was freed, the nodes of other ports, the registry and every other
    descriptor are untouched. *)
Theorem port_free_exact w p ba da r s :
  represents w p ba da r s ->
  exists w', port_free (Some p) w = Some (tt, w') /\ released w w' p r ba da (dom (b_regs s)).
Proof.
  intros Hr. destruct (port_free_run _ _ _ _ _ _ _ (rf_port _ _ _ _ _ _ _ _ Hr)) as (w' & Hrun & HR).
  exists w'. split; [exact Hrun|]. by destruct HR.
Qed.

(** ** Creation *)

(** Nothing but the kernel's answers and the error number changed, and no
    descriptor was opened or closed. *)
Definition unchanged w w' : Prop :=
  x_ports w' = x_ports w /\ x_nodes w' = x_nodes w /\ x_arrays w' = x_arrays w /\ x_map w' = x_map w /\
  x_map_epfd w' = x_map_epfd w /\ x_open w' = x_open w.

Lemma calloc_run {R} (H : posix_world K -> gmap addr R) `{!Setter H} size (x : R) w :
  (forall u, H (set x_kernel u w) = H w) ->
  exists k, k_open k = x_open w /\
    (calloc H size x w = Some (NULL, w <| x_kernel := k |>) \/
     exists a, H w !! a = None /\ calloc H size x w = Some (Some a, w <| x_kernel := k |> <| H := <[a := x]> (H w) |>)).
Proof.
  intros HH. unfold calloc. destruct (sys_calloc size (x_kernel w)) as [y k] eqn:E. exists k.
  split; [by eapply law_calloc|]. erewrite bind_some by by apply ask_run. cbv beta.
  destruct (_ || _); [by left|]. rewrite HH. destruct (H w !! Z.to_pos y) eqn:Ey; [by left|right]. by exists (Z.to_pos y).
Qed.

(** The first free slot of the registry. *)
Lemma free_slot_run (act : nat -> PM K unit) w : forall fuel i,
  (i + fuel = length (x_map w))%nat ->
  (exists j, (i <= j < length (x_map w))%nat /\ x_map w !! j = Some NULL /\
    scan (fun i => q <- map_port i ;; if bool_decide (q = NULL) then act i ;; ret (Some tt) else ret None) i fuel w =
      (act j ;; ret (Some tt)) w) \/
  scan (fun i => q <- map_port i ;; if bool_decide (q = NULL) then act i ;; ret (Some tt) else ret None) i fuel w = Some (None, w).
Proof.
  induction fuel as [|fuel IH]; intros i Hi; [by right|]. cbn [scan].
  destruct (lookup_lt_is_Some_2 (x_map w) i ltac:(lia)) as [q Hq]. rewrite bind_assoc. unfold map_port at 1 3.
  erewrite !(bind_some (get _)) by reflexivity. rewrite Hq. cbn [default id]. case_bool_decide as E.
  - subst q. left. exists i. split; [lia|]. split; [done|]. rewrite bind_assoc. unfold bind. by destruct (act i w) as [[[] w1]|].
  - rewrite bind_ret. destruct (IH (S i) ltac:(lia)) as [(j & Hj & Hn & Hr)|Hr]; [left|by right].
    exists j. split; [lia|]. by split.
Qed.

(** A port whose indexes are empty. *)
Definition blank w p r (ba da : addr) : Prop :=
  x_ports w !! p = Some r /\ pp_n_buckets r = POSIX_N_BUCKETS /\ pp_buckets r = Some ba /\ pp_data_buckets r = Some da /\
  ba <> da /\ x_arrays w !! ba = Some (null_array POSIX_N_BUCKETS) /\ x_arrays w !! da = Some (null_array POSIX_N_BUCKETS) /\
  pp_count r = 0.

Lemma blank_represents w p r ba da :
  blank w p r ba da -> exists s, represents w p ba da r s /\ b_regs s = ∅ /\ b_generation s = pp_metadata_generation r.
Proof. intros (? & ? & ? & ? & ? & ? & ? & ?). eexists. split; [by apply represents_new|done]. Qed.

(** The port is registered at slot [i], with its two descriptors. *)
Record attached (epfd : Z) w w' p (r : posix_port) (ba da : addr) (i : nat) : Prop := {
  at_ports : x_ports w' = <[p := r]> (x_ports w);
  at_state : pp_epfd r = epfd /\ pp_refs r = 1 /\ pp_aliases r = 1 /\ pp_closing r = false /\ pp_retired r = false /\ pp_metadata_generation r = 1;
  at_blank : blank w' p r ba da;
  at_nodes : x_nodes w' = x_nodes w;
  at_arrays : x_arrays w' = x_arrays w;
  at_slot : x_map w !! i = Some NULL /\ x_map w' = <[i := Some p]> (x_map w) /\ x_map_epfd w' = <[i := epfd]> (x_map_epfd w);
  at_open : x_open w' = {[pp_identity_fd r]} ∪ ({[pp_control_epfd r]} ∪ x_open w);
  at_fds : pp_control_epfd r ∉ x_open w /\ pp_identity_fd r ∉ x_open w /\ pp_control_epfd r <> pp_identity_fd r
}.

(** The port and its arrays are gone, nothing else changed. *)
Definition undone w w' p (ba da : addr) : Prop :=
  x_ports w' = delete p (x_ports w) /\ x_arrays w' = delete da (delete ba (x_arrays w)) /\ x_nodes w' = x_nodes w /\
  x_map w' = x_map w /\ x_map_epfd w' = x_map_epfd w /\ x_open w' = x_open w.

(** During creation: [wc] is [w] with the port [r] and its open descriptors. *)
Definition building w wc p r (ba da : addr) : Prop :=
  blank wc p r ba da /\ x_ports wc = <[p := r]> (x_ports w) /\ x_nodes wc = x_nodes w /\ x_arrays wc = x_arrays w /\
  x_map wc = x_map w /\ x_map_epfd wc = x_map_epfd w /\ x_open wc ∖ opened (pp_control_epfd r) ∖ opened (pp_identity_fd r) = x_open w.

Lemma free_undone w wc p r ba da :
  building w wc p r ba da -> exists w', port_free (Some p) wc = Some (tt, w') /\ undone w w' p ba da.
Proof.
  intros (Hb & Hp & Hn & Ha & Hm & He & Ho). destruct (blank_represents _ _ _ _ _ Hb) as (s & Hs & Hregs & _).
  destruct (port_free_run _ _ _ _ _ _ _ (rf_port _ _ _ _ _ _ _ _ Hs)) as (w' & Hrun & HR).
  rewrite Hregs, dom_empty_L in HR. exists w'. split; [exact Hrun|]. destruct HR as [R1 R2 R3 [R4 R5] R6]. sget_in R6.
  unfold undone. rewrite R1, R2, R3, R4, R5, R6, Hp, Hn, Ha, Hm, He, without_empty. split_and!; try done. apply delete_insert_eq.
Qed.

Lemma abandon_undone w wc p r ba da :
  building w wc p r ba da -> exists w', abandon_port (Some p) wc = Some (NULL, w') /\ undone w w' p ba da.
Proof.
  intros (w' & Hrun & HU)%free_undone. unfold abandon_port. repeat mstep. erewrite bind_some by exact Hrun. cbv beta.
  eexists. split; [reflexivity|]. exact HU.
Qed.

(** A field of the port is set and the platform answers. *)
Lemma building_step w wc p r ba da r' k e :
  building w wc p r ba da -> pp_n_buckets r' = pp_n_buckets r -> pp_buckets r' = pp_buckets r ->
  pp_data_buckets r' = pp_data_buckets r -> pp_count r' = pp_count r ->
  k_open k ∖ opened (pp_control_epfd r') ∖ opened (pp_identity_fd r') = x_open w ->
  building w (wc <| x_kernel := k |> <| x_errno := e |> <| x_ports := <[p := r']> (x_ports wc) |>) p r' ba da.
Proof.
  intros ((Hp & Hn & Hb & Hd & Hne & Hba & Hda & Hc) & HP & HN & HA & HM & HE & _) E1 E2 E3 E4 Ho.
  unfold building, blank. sget. rewrite HP, insert_insert_eq. split_and!; try congruence; try done; try apply lookup_insert_eq.
Qed.

Lemma set_map_run i q epfd w :
  set_map i q epfd w = Some (tt, w <| x_map := <[i := q]> (x_map w) |> <| x_map_epfd := <[i := epfd]> (x_map_epfd w) |>).
Proof. done. Qed.

(** The registry: a free slot, or all is undone. *)
Lemma register_run w wc p r ba da epfd :
  building w wc p r ba da -> length (x_map w) = Z.to_nat POSIX_PORT_MAP_SIZE ->
  x_open wc = {[pp_identity_fd r]} ∪ ({[pp_control_epfd r]} ∪ x_open w) ->
  pp_control_epfd r ∉ x_open w /\ pp_identity_fd r ∉ x_open w /\ pp_control_epfd r <> pp_identity_fd r ->
  pp_epfd r = epfd /\ pp_refs r = 1 /\ pp_closing r = false /\ pp_retired r = false /\ pp_metadata_generation r = 1 ->
  exists q w',
    (slot <- scan_map (fun i =>
       q <- map_port i ;;
       if bool_decide (q = NULL) then (set_map i (Some p) epfd ;; wr x_ports (Some p) pp_aliases 1) ;; ret (Some tt) else ret None) ;;
     match slot with Some _ => ret (Some p) | None => port_free (Some p) ;; fail_null EMFILE end) wc = Some (q, w') /\
    match q with
    | None => undone w w' p ba da
    | Some q => q = p /\ exists r' i, attached epfd w w' p r' ba da i
    end.
Proof.
  intros HB Hlen Ho Hfds (He & Hrefs & Hcl & Hret & Hgen).
  pose proof HB as ((Hp & Hn & Hb & Hd & Hne & Hba & Hda & Hc) & HP & HN & HA & HM & HE & _).
  unfold scan_map. rewrite <- Hlen, <- HM.
  destruct (free_slot_run (fun i => set_map i (Some p) epfd ;; wr x_ports (Some p) pp_aliases 1) wc (length (x_map wc)) 0 eq_refl)
    as [(j & Hj & Hfree & Hrun)|Hrun].
  - set (wm := wc <| x_map := <[j := Some p]> (x_map wc) |> <| x_map_epfd := <[j := epfd]> (x_map_epfd wc) |>).
    set (r' := r <| pp_aliases := 1 |>). set (w' := wm <| x_ports := <[p := r']> (x_ports wc) |>).
    assert (Hact : ((set_map j (Some p) epfd ;; wr x_ports (Some p) pp_aliases 1) ;; ret (Some tt)) wc = Some (Some tt, w')).
    { rewrite bind_assoc. erewrite bind_some by by apply set_map_run. cbv beta. fold wm.
      assert (Hpm : x_ports wm !! p = Some r) by exact Hp. erewrite bind_some by (eapply wr_some; exact Hpm). done. }
    rewrite Hact in Hrun. erewrite bind_some by exact Hrun. cbv beta iota. exists (Some p), w'. split; [done|]. split; [done|].
    exists r', j. unfold w', r', wm. split; unfold blank, x_open in *; sget; try done.
    + by rewrite HP, insert_insert_eq.
    + split_and!; try done. apply lookup_insert_eq.
    + rewrite <- HM, <- HE. by rewrite Hfree.
  - erewrite bind_some by exact Hrun. cbv beta iota. destruct (free_undone _ _ _ _ _ _ HB) as (w' & Hf & HU).
    erewrite bind_some by exact Hf. cbv beta. eexists _, _. split; [reflexivity|]. exact HU.
Qed.

Lemma opened_pos fd : 0 <= fd -> opened fd = {[fd]}.
Proof. intros H. unfold opened. by rewrite (proj2 (Z.leb_le 0 fd) H). Qed.
Lemma opened_neg : opened (-1) = ∅.
Proof. done. Qed.

(** Opening a descriptor into a field of the port: it is fresh, or all is undone. *)
Lemma open_step (f : posix_port -> Z) `{!Setter f} (call : K -> Z * K) (rest : Z -> PM K ptr) w wc p r ba da :
  building w wc p r ba da ->
  (forall v, pp_n_buckets (r <| f := v |>) = pp_n_buckets r /\ pp_buckets (r <| f := v |>) = pp_buckets r /\
             pp_data_buckets (r <| f := v |>) = pp_data_buckets r /\ pp_count (r <| f := v |>) = pp_count r) ->
  (forall k fd k', call k = (fd, k') ->
     (0 <= fd /\ fd ∉ k_open k /\ k_open k' = {[fd]} ∪ k_open k) \/ (fd < 0 /\ k_open k' = k_open k)) ->
  (forall fd, x_open wc ∖ opened (pp_control_epfd (r <| f := -1 |>)) ∖ opened (pp_identity_fd (r <| f := -1 |>)) = x_open w /\
     (0 <= fd -> fd ∉ x_open wc ->
      ({[fd]} ∪ x_open wc) ∖ opened (pp_control_epfd (r <| f := fd |>)) ∖ opened (pp_identity_fd (r <| f := fd |>)) = x_open w)) ->
  let m := fd <- libc call ;; wr x_ports (Some p) f fd ;; if fd <? 0 then abandon_port (Some p) else rest fd in
  (exists w', m wc = Some (NULL, w') /\ undone w w' p ba da) \/
  (exists fd wc', 0 <= fd /\ fd ∉ x_open wc /\ x_open wc' = {[fd]} ∪ x_open wc /\ m wc = rest fd wc' /\
     building w wc' p (r <| f := fd |>) ba da).
Proof.
  intros HB Hf Hcall Ho m. unfold m. destruct (call (x_kernel wc)) as [fd k] eqn:E. pose proof (Hcall _ _ _ E) as Hk.
  erewrite bind_some by by apply libc_run. cbv beta. assert (Hp : x_ports wc !! p = Some r) by apply HB.
  erewrite bind_some by (eapply wr_some; exact Hp). cbv beta. sget. fold (x_open wc) in Hk.
  destruct Hk as [(Hfd & Hn & Hk)|(Hfd & Hk)].
  - right. assert (fd <? 0 = false) as -> by lia. exists fd. eexists. split_and!; [done|done| |assert (fd <? 0 = false) as -> by lia; reflexivity|].
    + exact Hk.
    + destruct (Hf fd) as (? & ? & ? & ?). eapply building_step; try done. rewrite Hk. by apply (proj2 (Ho fd)).
  - left. assert (fd <? 0 = true) as -> by lia. change (-1 <? 0) with true. cbv iota. eapply abandon_undone.
    destruct (Hf (-1)) as (? & ? & ? & ?). eapply building_step; try done. rewrite Hk. apply (proj1 (Ho 0)).
Qed.

(** The rest of the computation after a descriptor was opened. *)
Ltac after_open tac :=
  lazymatch goal with
  | |- exists q w', bind _ (fun fd => bind _ (fun _ => if _ then _ else @?rest fd)) _ = _ /\ _ => tac rest
  end.

Lemma attach_run w wc p r ba da epfd :
  building w wc p r ba da -> length (x_map w) = Z.to_nat POSIX_PORT_MAP_SIZE ->
  pp_epfd r = epfd -> pp_closing r = false -> pp_retired r = false -> pp_control_epfd r = -1 -> pp_identity_fd r = -1 ->
  exists q w', port_attach (Some p) epfd wc = Some (q, w') /\
    match q with
    | None => undone w w' p ba da
    | Some q => q = p /\ exists r' i, attached epfd w w' p r' ba da i
    end.
Proof.
  intros HB Hlen Hepfd Hclosing Hretired Hc0 Hi0. unfold port_attach.
  assert (Ho : x_open wc = x_open w).
  { destruct HB as (_ & _ & _ & _ & _ & _ & Ho). rewrite Hc0, Hi0, opened_neg in Ho. set_solver. }
  after_open ltac:(fun rest => edestruct (open_step pp_control_epfd (sys_fcntl_dupfd epfd) rest) as [(w' & Hrun & HU)|(c & w1 & Hc & Hnc & Ho1 & Hrun & HB1)]);
    [exact HB|done|apply law_dup| |exists NULL, w'; by split|].
  { intros c. sget. rewrite Hi0, opened_neg. split; [|intros Hc Hn; rewrite opened_pos by done]; set_solver. }
  rewrite Hrun. clear Hrun. set (r1 := r <| pp_control_epfd := c |>) in *. rewrite Ho in *.
  after_open ltac:(fun rest => edestruct (open_step pp_identity_fd sys_eventfd rest) as [(w' & Hrun & HU)|(d & w2 & Hd & Hnd & Ho2 & Hrun & HB2)]);
    [exact HB1|done|apply law_eventfd| |exists NULL, w'; by split|].
  { intros d. unfold r1. sget. rewrite Ho1, (opened_pos c), opened_neg by done.
    split; [|intros Hd Hn; rewrite (opened_pos d) by done]; set_solver. }
  rewrite Hrun. clear Hrun. set (r2 := r1 <| pp_identity_fd := d |>) in *. cbv zeta.
  rewrite Ho1 in *. set (ev := mk_event EPOLLIN POSIX_WAKE_TOKEN).
  assert (Hp2 : x_ports w2 !! p = Some r2) by apply HB2. erewrite bind_some by (eapply wr_some; exact Hp2). cbv beta.
  set (r3 := r2 <| pp_identity_event := ev |>). set (w3 := set x_ports _ w2).
  destruct (sys_epoll_ctl c EPOLL_CTL_ADD d (Some ev) (x_kernel w3)) as [y k] eqn:E.
  destruct (law_ctl _ _ _ _ _ _ _ E) as [Hy Hk]. change (k_open (x_kernel w3)) with (x_open w2) in Hk.
  erewrite bind_some by by apply libc_run. cbv beta. set (e := if y <? 0 then - y else _).
  assert (Hfin : forall r', pp_n_buckets r' = pp_n_buckets r2 -> pp_buckets r' = pp_buckets r2 -> pp_data_buckets r' = pp_data_buckets r2 ->
     pp_count r' = pp_count r2 -> pp_control_epfd r' = c -> pp_identity_fd r' = d ->
     building w (w2 <| x_kernel := k |> <| x_errno := e |> <| x_ports := <[p := r']> (x_ports w2) |>) p r' ba da).
  { intros r' F1 F2 F3 F4 F5 F6. eapply building_step; try done. rewrite F5, F6, Hk, Ho2, (opened_pos c), (opened_pos d) by done. set_solver. }
  destruct (Z.ltb_spec y 0) as [Hy0|Hy0].
  - change (negb (-1 =? 0)) with true. cbv iota. destruct (abandon_undone w _ p r3 ba da (Hfin r3 eq_refl eq_refl eq_refl eq_refl eq_refl eq_refl)) as (w' & Hrun & HU).
    exists NULL, w'. split; [exact Hrun|exact HU].
  - assert (y = 0) as -> by lia. change (negb (0 =? 0)) with false. cbv iota.
    set (r5 := r3 <| pp_refs := 1 |> <| pp_metadata_generation := 1 |>).
    set (w5 := w2 <| x_kernel := k |> <| x_errno := e |> <| x_ports := <[p := r5]> (x_ports w2) |>).
    repeat mstep. match goal with |- exists q w', bind _ _ ?x = _ /\ _ => replace x with w5 end.
    2:{ unfold w5, w3. unfold set. cbn. by rewrite !insert_insert_eq. }
    apply (register_run w w5 p r5 ba da epfd); [by apply Hfin|done| | |done].
    + change (x_open w5) with (k_open k). rewrite Hk, Ho2. done.
    + change (pp_control_epfd r5) with c. change (pp_identity_fd r5) with d. split_and!; [done|set_solver|set_solver].
Qed.

(** A new port [p] of [epfd]: fresh memory, two fresh descriptors, one reference,
    one alias at a free slot, no registrations. *)
Record created (epfd : Z) w w' p (r : posix_port) (ba da : addr) (i : nat) : Prop := {
  cr_fresh : x_ports w !! p = None /\ x_arrays w !! ba = None /\ x_arrays w !! da = None;
  cr_ports : x_ports w' = <[p := r]> (x_ports w);
  cr_state : pp_epfd r = epfd /\ pp_refs r = 1 /\ pp_aliases r = 1 /\ pp_closing r = false /\ pp_retired r = false /\ pp_metadata_generation r = 1;
  cr_empty : exists s, represents w' p ba da r s /\ b_regs s = ∅;
  cr_nodes : x_nodes w' = x_nodes w;
  cr_arrays c : c <> ba -> c <> da -> x_arrays w' !! c = x_arrays w !! c;
  cr_slot : x_map w !! i = Some NULL /\ x_map w' = <[i := Some p]> (x_map w) /\ x_map_epfd w' = <[i := epfd]> (x_map_epfd w);
  cr_open : x_open w' = {[pp_identity_fd r]} ∪ ({[pp_control_epfd r]} ∪ x_open w);
  cr_fds : pp_control_epfd r ∉ x_open w /\ pp_identity_fd r ∉ x_open w /\ pp_control_epfd r <> pp_identity_fd r
}.

(** The arrays exist: what is left is [port_attach]. *)
Lemma create_attach w wc p r ba da epfd :
  length (x_map w) = Z.to_nat POSIX_PORT_MAP_SIZE -> x_ports w !! p = None -> x_arrays w !! ba = None -> x_arrays w !! da = None ->
  ba <> da -> x_ports wc = <[p := r]> (x_ports w) ->
  x_arrays wc = <[da := null_array POSIX_N_BUCKETS]> (<[ba := null_array POSIX_N_BUCKETS]> (x_arrays w)) ->
  x_nodes wc = x_nodes w -> x_map wc = x_map w -> x_map_epfd wc = x_map_epfd w -> x_open wc = x_open w ->
  r = (blank_port epfd) <| pp_n_buckets := POSIX_N_BUCKETS |> <| pp_buckets := Some ba |> <| pp_data_buckets := Some da |> ->
  exists q w', port_attach (Some p) epfd wc = Some (q, w') /\
    match q with None => unchanged w w' | Some q => exists r' ba da i, created epfd w w' q r' ba da i end.
Proof.
  intros Hlen Hp Hba Hda Hne HP HA HN HM HE HO Hr.
  assert (HB : building wc wc p r ba da).
  { unfold building, blank. rewrite HP, HA, Hr. split_and!; try done; try apply lookup_insert_eq.
    - rewrite lookup_insert_ne by done. apply lookup_insert_eq.
    - by rewrite insert_insert_eq.
    - change (x_open wc ∖ opened (-1) ∖ opened (-1) = x_open wc). rewrite opened_neg. set_solver. }
  destruct (attach_run wc wc p r ba da epfd HB) as (q & w' & Hrun & HQ); try (by subst r); [by rewrite HM|].
  exists q, w'. split; [exact Hrun|]. destruct q as [q|].
  - destruct HQ as (-> & r' & i & [A1 A2 A3 A4 A5 A6 A7 A8]). exists r', ba, da, i. rewrite HP, HM, HE, HO, HN, insert_insert_eq in *.
    split; try done.
    + destruct (blank_represents _ _ _ _ _ A3) as (s & ? & ? & _). by exists s.
    + intros c Hc Hd. by rewrite A5, HA, !lookup_insert_ne.
  - destruct HQ as (U1 & U2 & U3 & U4 & U5 & U6). unfold unchanged. rewrite U1, U2, U3, U4, U5, U6, HP, HA, HN, HM, HE, HO.
    split_and!; try done; [by rewrite delete_insert_id|]. rewrite delete_insert_ne by done.
    rewrite !delete_insert_id; [done|done|by rewrite delete_insert_id].
Qed.

(** Freeing a port that has no arrays yet. *)
Definition only_port w wc p r : Prop :=
  x_ports wc = <[p := r]> (x_ports w) /\ x_ports w !! p = None /\ x_nodes wc = x_nodes w /\ x_map wc = x_map w /\
  x_map_epfd wc = x_map_epfd w /\ x_open wc = x_open w.

Lemma drop_port_run (P : addr -> posix_world K -> Prop) w wc p r e :
  only_port w wc p r -> x_arrays wc = x_arrays w ->
  exists q w', (del x_ports (Some p) ;; fail_null e) wc = Some (q, w') /\
    match q with None => unchanged w w' | Some q => P q w' end.
Proof.
  intros (HP & Hp & HN & HM & HE & HO) HA.
  erewrite bind_some by (eapply del_some; rewrite HP; apply lookup_insert_eq). cbv beta.
  eexists _, _. split; [reflexivity|]. unfold unchanged, x_open in *. sget. rewrite HP, delete_insert_id by done. by split_and!.
Qed.

(** The platform answers, or a field of the port is set. *)
Lemma only_port_kernel w wc p r k : only_port w wc p r -> k_open k = x_open wc -> only_port w (wc <| x_kernel := k |>) p r.
Proof. intros (HP & Hp & HN & HM & HE & HO) Hk. unfold only_port, x_open in *. sget. split_and!; congruence || done. Qed.
Lemma only_port_field w wc p r r' : only_port w wc p r -> only_port w (wc <| x_ports := <[p := r']> (x_ports wc) |>) p r'.
Proof. intros (HP & Hp & HN & HM & HE & HO). unfold only_port, x_open in *. sget. rewrite HP, insert_insert_eq. by split_and!. Qed.
Lemma only_port_arrays w wc p r A : only_port w wc p r -> only_port w (wc <| x_arrays := A |>) p r.
Proof. done. Qed.
Lemma only_port_lookup w wc p r : only_port w wc p r -> x_ports wc !! p = Some r.
Proof. intros (-> & _). apply lookup_insert_eq. Qed.

(** The arrays. *)
Lemma create_arrays_run w wc p epfd :
  only_port w wc p ((blank_port epfd) <| pp_n_buckets := POSIX_N_BUCKETS |>) -> x_arrays wc = x_arrays w ->
  length (x_map w) = Z.to_nat POSIX_PORT_MAP_SIZE ->
  exists q w',
    (buckets <- calloc x_arrays (8 * POSIX_N_BUCKETS) (null_array POSIX_N_BUCKETS) ;;
     wr x_ports (Some p) pp_buckets buckets ;;
     if bool_decide (buckets = NULL) then del x_ports (Some p) ;; fail_null ENOMEM
     else
       data_buckets <- calloc x_arrays (8 * POSIX_N_BUCKETS) (null_array POSIX_N_BUCKETS) ;;
       wr x_ports (Some p) pp_data_buckets data_buckets ;;
       if bool_decide (data_buckets = NULL) then
         del x_arrays buckets ;; del x_ports (Some p) ;; fail_null ENOMEM
       else port_attach (Some p) epfd) wc = Some (q, w') /\
    match q with None => unchanged w w' | Some p => exists r ba da i, created epfd w w' p r ba da i end.
Proof.
  intros H1 HA Hlen.
  destruct (calloc_run x_arrays (8 * POSIX_N_BUCKETS) (null_array POSIX_N_BUCKETS) wc) as (k4 & Hk4 & Hr4); [done|].
  apply (only_port_kernel _ _ _ _ k4) in H1; [|done]. destruct Hr4 as [Hr4|(ba & Hba & Hr4)]; erewrite bind_some by exact Hr4; cbv beta.
  - erewrite bind_some by (eapply wr_some, only_port_lookup, H1). cbv beta. rewrite bool_decide_eq_true_2 by done.
    eapply only_port_field in H1. by eapply (drop_port_run (fun p w' => exists r ba da i, created epfd w w' p r ba da i)).
  - apply (only_port_arrays _ _ _ _ (<[ba := null_array POSIX_N_BUCKETS]> (x_arrays wc))) in H1.
    erewrite bind_some by (eapply wr_some, only_port_lookup, H1). cbv beta. rewrite bool_decide_eq_false_2 by done.
    eapply only_port_field in H1. set (w5 := set x_ports _ _) in H1 |- *.
    destruct (calloc_run x_arrays (8 * POSIX_N_BUCKETS) (null_array POSIX_N_BUCKETS) w5) as (k6 & Hk6 & Hr6); [done|].
    apply (only_port_kernel _ _ _ _ k6) in H1; [|done]. destruct Hr6 as [Hr6|(da & Hda & Hr6)]; erewrite bind_some by exact Hr6; cbv beta.
    + erewrite bind_some by (eapply wr_some, only_port_lookup, H1). cbv beta. rewrite bool_decide_eq_true_2 by done.
      eapply only_port_field in H1. erewrite bind_some by (eapply del_some; unfold w5; sget; apply lookup_insert_eq). cbv beta.
      eapply only_port_arrays in H1. eapply (drop_port_run (fun p w' => exists r ba da i, created epfd w w' p r ba da i)); [exact H1|].
      unfold w5. sget. by rewrite delete_insert_id, HA.
    + change (x_arrays w5) with (<[ba := null_array POSIX_N_BUCKETS]> (x_arrays wc)) in *.
      apply lookup_insert_None in Hda as [Hda Hne]. rewrite HA in *.
      apply (only_port_arrays _ _ _ _ (<[da := null_array POSIX_N_BUCKETS]> (<[ba := null_array POSIX_N_BUCKETS]> (x_arrays w)))) in H1.
      erewrite bind_some by (eapply wr_some, only_port_lookup, H1). cbv beta. rewrite bool_decide_eq_false_2 by done.
      eapply only_port_field in H1. destruct H1 as (HP & Hp & HN & HM & HE & HO).
      eapply (create_attach w _ p _ ba da epfd); try exact HP; done.
Qed.

(** C8: Creating a port of the POSIX backend is all or nothing, whichever of its
    steps fails (memory for the port or an array, the mutex, the condition variable,
    the duplicate, the eventfd, its registration, the registry): it returns NULL
    with every heap, the registry and the set of open descriptors as before, or a
    port in fresh memory with one reference and one alias at a slot that was free,
    no registrations, and exactly two new descriptors. *)
Theorem posix_create_all_or_nothing w epfd :
  length (x_map w) = Z.to_nat POSIX_PORT_MAP_SIZE ->
  exists q w', port_create epfd w = Some (q, w') /\
    match q with None => unchanged w w' | Some p => exists r ba da i, created epfd w w' p r ba da i end.
Proof.
  intros Hlen. unfold port_create.
  destruct (calloc_run x_ports sizeof_posix_port (blank_port epfd) w) as (k1 & Hk1 & [Hr1|(p & Hp & Hr1)]); [done| |];
    erewrite bind_some by exact Hr1; cbv beta; [rewrite bool_decide_eq_true_2 by done; by eexists _, _|].
  rewrite bool_decide_eq_false_2 by done. set (w1 := set x_ports _ _).
  assert (H1 : only_port w w1 p (blank_port epfd)) by (unfold only_port, w1, x_open; sget; by split_and!).
  destruct (sys_mutex_init (x_kernel w1)) as [me k2] eqn:E2. erewrite bind_some by by apply ask_run. cbv beta.
  apply (only_port_kernel _ _ _ _ k2) in H1; [|by eapply law_mutex]. set (w2 := set x_kernel _ w1) in *.
  destruct (negb (me =? 0)); [by eapply (drop_port_run (fun p w' => exists r ba da i, created epfd w w' p r ba da i))|].
  destruct (sys_cond_init (x_kernel w2)) as [ce k3] eqn:E3. erewrite bind_some by by apply ask_run. cbv beta.
  apply (only_port_kernel _ _ _ _ k3) in H1; [|by eapply law_cond]. set (w3 := set x_kernel _ w2) in *.
  destruct (negb (ce =? 0)); [by eapply (drop_port_run (fun p w' => exists r ba da i, created epfd w w' p r ba da i))|].
  erewrite bind_some by (eapply wr_some, only_port_lookup, H1). cbv beta.
  apply (only_port_field _ _ _ _ ((blank_port epfd) <| pp_n_buckets := POSIX_N_BUCKETS |>)) in H1. set (w4 := set x_ports _ w3) in *.
  by apply create_arrays_run.
Qed.
End Life.

(** ** The small Linux keeps the promises *)

Lemma lowest_fresh m : 0 <= lowest m /\ m !! lowest m = None.
Proof.
  unfold lowest. set (l := Z.of_nat <$> seq 3 (S (size m))).
  destruct (filter (fun fd => m !! fd = None) l) as [|fd l'] eqn:E.
  - exfalso. assert (Hall : forall fd, fd ∈ l -> fd ∈ dom m).
    { intros fd Hfd. apply elem_of_dom. destruct (m !! fd) as [d|] eqn:Hd; [by eexists|].
      assert (fd ∈ filter (fun fd => m !! fd = None) l) by (by apply list_elem_of_filter). rewrite E in H. by apply elem_of_nil in H. }
    assert (Hnd : NoDup l) by (apply NoDup_fmap_2; [apply _|apply NoDup_seq]).
    assert (size (list_to_set (C := gset Z) l) <= size (dom m))%nat by (apply subseteq_size; intros fd ?%elem_of_list_to_set; auto).
    rewrite size_list_to_set, size_dom in H by done. unfold l in H. rewrite length_fmap, length_seq in H. lia.
  - assert (Hin : fd ∈ filter (fun fd => m !! fd = None) l) by (rewrite E; by left).
    apply list_elem_of_filter in Hin as [Hn Hl]. cbn. split; [|done]. apply list_elem_of_fmap in Hl as (k & -> & _). lia.
Qed.

Lemma open_file_open f s fd s' :
  open_file f s = (fd, s') -> 0 <= fd /\ fd ∉ dom (k_fds s) /\ dom (k_fds s') = {[fd]} ∪ dom (k_fds s).
Proof.
  unfold open_file. intros [= <- <-]. destruct (lowest_fresh (k_fds s)) as [H1 H2]. sget.
  split_and!; [done|by apply not_elem_of_dom|by rewrite dom_insert_L].
Qed.

#[export] Instance small_linux_laws : LinuxLaws linux_state.
Proof.
  unshelve eapply (Build_LinuxLaws linux_state small_linux (fun s => dom (k_fds s))).
  - intros fd k r k'. cbn. unfold close_file. destruct (k_fds k !! fd) as [d|] eqn:E.
    + case_decide; intros [= <- <-]; sget; by rewrite dom_delete_L.
    + intros [= <- <-]. apply not_elem_of_dom in E. set_solver.
  - intros fd k r k'. cbn. destruct (k_fds k !! fd) as [d|]; intros [= <- <-]; [left|by right].
    destruct (lowest_fresh (k_fds k)) as [H1 H2]. sget. split_and!; [done|by apply not_elem_of_dom|by rewrite dom_insert_L].
  - intros k r k'. cbn. intros H%open_file_open. by left.
  - intros epfd op fd ev k r k'. cbn. unfold ctl_file. repeat case_match; intros [= <- <-]; done.
  - by intros size k r k' [= <- <-].
  - by intros k r k' [= <- <-].
  - by intros k r k' [= <- <-].
Defined.

Lemma port_free_exact_witness :
  exists r s w', represents demo_world 1 2 3 r s /\ port_free (Some 1%positive) demo_world = Some (tt, w') /\
    released demo_world w' 1 r 2 3 (dom (b_regs s)).
Proof.
  destruct demo_represents as (r & s & H). exists r, s.
  destruct (port_free_exact demo_world 1 2 3 r s H) as (w' & Hrun & HR). exists w'. split; [exact H|]. split; [exact Hrun|exact HR].
Defined.

Lemma posix_create_all_or_nothing_witness :
  length (x_map boot_world) = Z.to_nat POSIX_PORT_MAP_SIZE /\
  exists q w', port_create 3 boot_world = Some (q, w') /\
    match q with None => unchanged boot_world w' | Some p => exists r ba da i, created 3 boot_world w' p r ba da i end.
Proof. split; [reflexivity|]. apply (posix_create_all_or_nothing boot_world 3). reflexivity. Defined.

(** A whole session: register, wait, close; nothing is left. *)
Example posix_session :
  let add := port_acquire_or_create 3 ;; port_ctl_ctx (Some 1%positive) EPOLL_CTL_ADD 4 (Some (mk_event EPOLLIN 77)) 1234 in
  let w := exec (add ;; port_release (Some 1%positive) ;; port_free (Some 1%positive)) boot_world in
  (bool_decide (x_ports w = ∅), bool_decide (x_nodes w = ∅), bool_decide (x_arrays w = ∅),
   bool_decide (dom (k_fds (x_kernel w)) = dom (k_fds boot_kernel))) = (true, true, true, true).
Proof. vm_compute. reflexivity. Qed.
