(* ===== verification/NgxTypes.v ===== *)
(** * Data of the nginx event module

    The structures and globals of [nginx/ngx_wepoll_module.c], the parts of
    nginx's connections and events the module uses, and two interfaces: the event
    port it is written against ([EventPort]) and nginx itself ([Nginx]), whose
    sources are not part of the repository. *)
From Stdlib Require Import String.
From S2P Require Import Prelude Codes Errno PosixTypes Lifecycle.

(** ** Constants *)

Definition NGX_OK : Z := 0.
Definition NGX_ERROR : Z := -1.
Definition NGX_TIMER_INFINITE : Z := UINT64_MAX.
Definition NGX_CONF_UNSET : Z := -1.
Definition NGX_CONF_UNSET_UINT : Z := UINT64_MAX.
Definition EINTR : Z := 4.
Definition WEPOLL_EX_REARM_READ : Z := Z.shiftl 1 0.
Definition WEPOLL_EX_REARM_WRITE : Z := Z.shiftl 1 1.
Definition WEPOLL_EX_REARM_TERMINAL : Z := Z.shiftl 1 2.
Definition WEPOLL_EX_REARM_ALL : Z := Z.lor WEPOLL_EX_REARM_READ (Z.lor WEPOLL_EX_REARM_WRITE WEPOLL_EX_REARM_TERMINAL).
Definition NGX_WEPOLL_EDGE_EVENTS : Z := Z.lor EPOLLIN (Z.lor EPOLLOUT (Z.lor EPOLLRDHUP EPOLLET)).
Definition sizeof_connection_state : Z := 40.
Definition sizeof_pending_slot : Z := 8.
Definition sizeof_ready_record : Z := 40.

(** ** Structures *)

Record ngx_wepoll_conf_t := mk_ngx_conf {
  cf_events : Z;
  cf_edge : Z;
  cf_edge_post_events : Z;
  cf_close_audit : Z
}.
#[export] Instance eta_ngx_wepoll_conf_t : Eta ngx_wepoll_conf_t := fun r =>
  mk_ngx_conf (cf_events r) (cf_edge r) (cf_edge_post_events r) (cf_close_audit r).
#[export] Instance set_cf_events : Setter cf_events := ltac:(derive_setter).
#[export] Instance set_cf_edge : Setter cf_edge := ltac:(derive_setter).
#[export] Instance set_cf_edge_post_events : Setter cf_edge_post_events := ltac:(derive_setter).
#[export] Instance set_cf_close_audit : Setter cf_close_audit := ltac:(derive_setter).

(** The adapter state of one connection. *)
Record ngx_wepoll_connection_state_t := mk_ngx_state {
  ns_connection : ptr;
  ns_fd : Z;
  ns_instance : Z;
  ns_interests : Z;
  ns_disarmed : Z;
  ns_pending : Z;
  ns_registered : bool;
  ns_queued : bool
}.
#[export] Instance eta_ngx_wepoll_connection_state_t : Eta ngx_wepoll_connection_state_t := fun r =>
  mk_ngx_state (ns_connection r) (ns_fd r) (ns_instance r) (ns_interests r) (ns_disarmed r) (ns_pending r) (ns_registered r) (ns_queued r).
#[export] Instance set_ns_connection : Setter ns_connection := ltac:(derive_setter).
#[export] Instance set_ns_fd : Setter ns_fd := ltac:(derive_setter).
#[export] Instance set_ns_instance : Setter ns_instance := ltac:(derive_setter).
#[export] Instance set_ns_interests : Setter ns_interests := ltac:(derive_setter).
#[export] Instance set_ns_disarmed : Setter ns_disarmed := ltac:(derive_setter).
#[export] Instance set_ns_pending : Setter ns_pending := ltac:(derive_setter).
#[export] Instance set_ns_registered : Setter ns_registered := ltac:(derive_setter).
#[export] Instance set_ns_queued : Setter ns_queued := ltac:(derive_setter).

(** [ngx_event_t] and [ngx_connection_t], as far as the module uses them;
    [ne_handler]: the handler is not NULL. *)
Record ngx_event_t := mk_ngx_event {
  ne_data : ptr;
  ne_instance : bool;
  ne_active : bool;
  ne_ready : bool;
  ne_posted : bool;
  ne_closed : bool;
  ne_accept : bool;
  ne_pending_eof : bool;
  ne_complete : bool;
  ne_available : Z;
  ne_handler : bool
}.
#[export] Instance eta_ngx_event_t : Eta ngx_event_t := fun r =>
  mk_ngx_event (ne_data r) (ne_instance r) (ne_active r) (ne_ready r) (ne_posted r) (ne_closed r) (ne_accept r) (ne_pending_eof r) (ne_complete r) (ne_available r) (ne_handler r).
#[export] Instance set_ne_data : Setter ne_data := ltac:(derive_setter).
#[export] Instance set_ne_instance : Setter ne_instance := ltac:(derive_setter).
#[export] Instance set_ne_active : Setter ne_active := ltac:(derive_setter).
#[export] Instance set_ne_ready : Setter ne_ready := ltac:(derive_setter).
#[export] Instance set_ne_posted : Setter ne_posted := ltac:(derive_setter).
#[export] Instance set_ne_closed : Setter ne_closed := ltac:(derive_setter).
#[export] Instance set_ne_accept : Setter ne_accept := ltac:(derive_setter).
#[export] Instance set_ne_pending_eof : Setter ne_pending_eof := ltac:(derive_setter).
#[export] Instance set_ne_complete : Setter ne_complete := ltac:(derive_setter).
#[export] Instance set_ne_available : Setter ne_available := ltac:(derive_setter).
#[export] Instance set_ne_handler : Setter ne_handler := ltac:(derive_setter).
Record ngx_connection_t := mk_ngx_connection {
  nc_fd : Z;
  nc_read : ptr;
  nc_write : ptr
}.
#[export] Instance eta_ngx_connection_t : Eta ngx_connection_t := fun r =>
  mk_ngx_connection (nc_fd r) (nc_read r) (nc_write r).
#[export] Instance set_nc_fd : Setter nc_fd := ltac:(derive_setter).
#[export] Instance set_nc_read : Setter nc_read := ltac:(derive_setter).
#[export] Instance set_nc_write : Setter nc_write := ltac:(derive_setter).

(** [ngx_cycle_t]; its configuration of this module. *)
Record ngx_cycle_t := mk_ngx_cycle { cy_connections : ptr; cy_connection_n : Z; cy_conf : option ngx_wepoll_conf_t }.

(** The functions of an action table. *)
Inductive ngx_action :=
| ActAddEvent | ActDelEvent | ActAddConnection | ActDelConnection | ActProcessEvents | ActInit | ActDone.
Record ngx_event_actions_t := mk_ngx_actions {
  act_add : option ngx_action; act_del : option ngx_action; act_enable : option ngx_action; act_disable : option ngx_action;
  act_add_conn : option ngx_action; act_del_conn : option ngx_action; act_notify : option ngx_action;
  act_process_events : option ngx_action; act_init : option ngx_action; act_done : option ngx_action }.

(** ** The process

    The globals of the module, the memory it shares with nginx, and the state of
    the event port. *)
Record ngx_world (K : Type) := mk_ngx_world {
  ngx_wepoll_epfd : Z;
  ngx_wepoll_events : ptr;
  ngx_wepoll_nevents : Z;
  ngx_wepoll_cycle : option ngx_cycle_t;
  ngx_wepoll_states : ptr;
  ngx_wepoll_pending_states : ptr;
  ngx_wepoll_state_count : Z;
  ngx_wepoll_pending_count : Z;
  ngx_wepoll_edge_enabled : bool;
  ngx_wepoll_edge_post_events : bool;
  ngx_wepoll_close_audit : bool;
  ngx_wepoll_port_edge : bool;
  ngx_wepoll_missing_edge_flag_logged : bool;
  ngx_wepoll_edge_read_deliveries : Z;
  ngx_wepoll_edge_write_deliveries : Z;
  ngx_wepoll_edge_terminal_deliveries : Z;
  ngx_wepoll_edge_read_rearms : Z;
  ngx_wepoll_edge_write_rearms : Z;
  n_blocks : gmap addr Z;  (* what ngx_alloc returned and its size *)
  n_states : gmap addr ngx_wepoll_connection_state_t;
  n_pending : gmap addr (list ptr);  (* the arrays of pending states *)
  n_connections : gmap addr ngx_connection_t;
  n_events : gmap addr ngx_event_t;
  n_log : list (Z * string * list Z);  (* newest first: level, text, numbers *)
  n_os_io : bool;  (* ngx_io is a copy of ngx_os_io *)
  n_event_flags : Z;
  n_actions : option ngx_event_actions_t;
  n_timer_alarm : bool;
  n_exiting : bool;
  n_terminate : bool;
  n_port : K  (* the event port *)
}.
Arguments mk_ngx_world {K}.
Arguments ngx_wepoll_epfd {K}.
Arguments ngx_wepoll_events {K}.
Arguments ngx_wepoll_nevents {K}.
Arguments ngx_wepoll_cycle {K}.
Arguments ngx_wepoll_states {K}.
Arguments ngx_wepoll_pending_states {K}.
Arguments ngx_wepoll_state_count {K}.
Arguments ngx_wepoll_pending_count {K}.
Arguments ngx_wepoll_edge_enabled {K}.
Arguments ngx_wepoll_edge_post_events {K}.
Arguments ngx_wepoll_close_audit {K}.
Arguments ngx_wepoll_port_edge {K}.
Arguments ngx_wepoll_missing_edge_flag_logged {K}.
Arguments ngx_wepoll_edge_read_deliveries {K}.
Arguments ngx_wepoll_edge_write_deliveries {K}.
Arguments ngx_wepoll_edge_terminal_deliveries {K}.
Arguments ngx_wepoll_edge_read_rearms {K}.
Arguments ngx_wepoll_edge_write_rearms {K}.
Arguments n_blocks {K}.
Arguments n_states {K}.
Arguments n_pending {K}.
Arguments n_connections {K}.
Arguments n_events {K}.
Arguments n_log {K}.
Arguments n_os_io {K}.
Arguments n_event_flags {K}.
Arguments n_actions {K}.
Arguments n_timer_alarm {K}.
Arguments n_exiting {K}.
Arguments n_terminate {K}.
Arguments n_port {K}.
#[export] Instance eta_ngx_world {K : Type} : Eta (ngx_world K) := fun r =>
  mk_ngx_world (ngx_wepoll_epfd r) (ngx_wepoll_events r) (ngx_wepoll_nevents r) (ngx_wepoll_cycle r) (ngx_wepoll_states r) (ngx_wepoll_pending_states r) (ngx_wepoll_state_count r) (ngx_wepoll_pending_count r) (ngx_wepoll_edge_enabled r) (ngx_wepoll_edge_post_events r) (ngx_wepoll_close_audit r) (ngx_wepoll_port_edge r) (ngx_wepoll_missing_edge_flag_logged r) (ngx_wepoll_edge_read_deliveries r) (ngx_wepoll_edge_write_deliveries r) (ngx_wepoll_edge_terminal_deliveries r) (ngx_wepoll_edge_read_rearms r) (ngx_wepoll_edge_write_rearms r) (n_blocks r) (n_states r) (n_pending r) (n_connections r) (n_events r) (n_log r) (n_os_io r) (n_event_flags r) (n_actions r) (n_timer_alarm r) (n_exiting r) (n_terminate r) (n_port r).
#[export] Instance set_ngx_wepoll_epfd {K : Type} : Setter (@ngx_wepoll_epfd K) := ltac:(derive_setter).
#[export] Instance set_ngx_wepoll_events {K : Type} : Setter (@ngx_wepoll_events K) := ltac:(derive_setter).
#[export] Instance set_ngx_wepoll_nevents {K : Type} : Setter (@ngx_wepoll_nevents K) := ltac:(derive_setter).
#[export] Instance set_ngx_wepoll_cycle {K : Type} : Setter (@ngx_wepoll_cycle K) := ltac:(derive_setter).
#[export] Instance set_ngx_wepoll_states {K : Type} : Setter (@ngx_wepoll_states K) := ltac:(derive_setter).
#[export] Instance set_ngx_wepoll_pending_states {K : Type} : Setter (@ngx_wepoll_pending_states K) := ltac:(derive_setter).
#[export] Instance set_ngx_wepoll_state_count {K : Type} : Setter (@ngx_wepoll_state_count K) := ltac:(derive_setter).
#[export] Instance set_ngx_wepoll_pending_count {K : Type} : Setter (@ngx_wepoll_pending_count K) := ltac:(derive_setter).
#[export] Instance set_ngx_wepoll_edge_enabled {K : Type} : Setter (@ngx_wepoll_edge_enabled K) := ltac:(derive_setter).
#[export] Instance set_ngx_wepoll_edge_post_events {K : Type} : Setter (@ngx_wepoll_edge_post_events K) := ltac:(derive_setter).
#[export] Instance set_ngx_wepoll_close_audit {K : Type} : Setter (@ngx_wepoll_close_audit K) := ltac:(derive_setter).
#[export] Instance set_ngx_wepoll_port_edge {K : Type} : Setter (@ngx_wepoll_port_edge K) := ltac:(derive_setter).
#[export] Instance set_ngx_wepoll_missing_edge_flag_logged {K : Type} : Setter (@ngx_wepoll_missing_edge_flag_logged K) := ltac:(derive_setter).
#[export] Instance set_ngx_wepoll_edge_read_deliveries {K : Type} : Setter (@ngx_wepoll_edge_read_deliveries K) := ltac:(derive_setter).
#[export] Instance set_ngx_wepoll_edge_write_deliveries {K : Type} : Setter (@ngx_wepoll_edge_write_deliveries K) := ltac:(derive_setter).
#[export] Instance set_ngx_wepoll_edge_terminal_deliveries {K : Type} : Setter (@ngx_wepoll_edge_terminal_deliveries K) := ltac:(derive_setter).
#[export] Instance set_ngx_wepoll_edge_read_rearms {K : Type} : Setter (@ngx_wepoll_edge_read_rearms K) := ltac:(derive_setter).
#[export] Instance set_ngx_wepoll_edge_write_rearms {K : Type} : Setter (@ngx_wepoll_edge_write_rearms K) := ltac:(derive_setter).
#[export] Instance set_n_blocks {K : Type} : Setter (@n_blocks K) := ltac:(derive_setter).
#[export] Instance set_n_states {K : Type} : Setter (@n_states K) := ltac:(derive_setter).
#[export] Instance set_n_pending {K : Type} : Setter (@n_pending K) := ltac:(derive_setter).
#[export] Instance set_n_connections {K : Type} : Setter (@n_connections K) := ltac:(derive_setter).
#[export] Instance set_n_events {K : Type} : Setter (@n_events K) := ltac:(derive_setter).
#[export] Instance set_n_log {K : Type} : Setter (@n_log K) := ltac:(derive_setter).
#[export] Instance set_n_os_io {K : Type} : Setter (@n_os_io K) := ltac:(derive_setter).
#[export] Instance set_n_event_flags {K : Type} : Setter (@n_event_flags K) := ltac:(derive_setter).
#[export] Instance set_n_actions {K : Type} : Setter (@n_actions K) := ltac:(derive_setter).
#[export] Instance set_n_timer_alarm {K : Type} : Setter (@n_timer_alarm K) := ltac:(derive_setter).
#[export] Instance set_n_exiting {K : Type} : Setter (@n_exiting K) := ltac:(derive_setter).
#[export] Instance set_n_terminate {K : Type} : Setter (@n_terminate K) := ltac:(derive_setter).
#[export] Instance set_n_port {K : Type} : Setter (@n_port K) := ltac:(derive_setter).

Abbreviation NM K := (M (ngx_world K)).

(** ** Interfaces *)

(** The functions of [wepoll_ex.h] the module calls, over the state [K] of the
    library.  [ep_wait_ex] returns the number of records and the records. *)
Class EventPort (K : Type) := {
  ep_errno : K -> Z;
  ep_create_ex : Z -> Z -> M K Z;
  ep_ctl_ctx : Z -> Z -> Z -> option (Z * Z) -> Z -> M K Z;
  ep_rearm : Z -> Z -> Z -> M K Z;
  ep_wait_ex : Z -> Z -> Z -> M K (Z * list epoll_event_ex);
  ep_get_stats : Z -> M K (option wepoll_ex_stats);
  ep_global_stats : M K (option wepoll_ex_global_stats);
  ep_close : Z -> M K Z
}.

(** nginx: constants of its headers that differ between builds, the address its
    allocator proposes (0 is NULL), and the functions the module calls back. *)
Class Nginx (K : Type) := {
  NGX_READ_EVENT : Z; NGX_WRITE_EVENT : Z; NGX_CLOSE_EVENT : Z;
  NGX_UPDATE_TIME : Z; NGX_POST_EVENTS : Z;
  NGX_LOG_EMERG : Z; NGX_LOG_ALERT : Z; NGX_LOG_NOTICE : Z;
  NGX_USE_CLEAR_EVENT : Z; NGX_USE_GREEDY_EVENT : Z; NGX_USE_LEVEL_EVENT : Z;
  NGX_THREADS : bool;
  sizeof_connection : Z;
  nx_alloc : Z -> ngx_world K -> Z;
  nx_handler : addr -> NM K unit;   (* [ev->handler(ev)] *)
  nx_post_event : addr -> bool -> NM K unit;   (* to the accept queue or the other *)
  nx_time_update : NM K unit
}.

Section Calls.
Context {K : Type} `{!EventPort K} `{!Nginx K}.

(** A call into the library. *)
Definition call {A} (m : M K A) : NM K A := fun w =>
  match m (n_port w) with Some (a, k) => Some (a, w <| n_port := k |>) | None => None end.
Definition errno_of (w : ngx_world K) : Z := ep_errno (n_port w).

Definition ngx_log_error (level : Z) (text : string) (numbers : list Z) : NM K unit := fun w =>
  Some (tt, w <| n_log ::= cons (level, text, numbers) |>).

(** Pointers as numbers. *)
Definition uintptr (p : ptr) : Z := match p with Some a => Zpos a | None => 0 end.
Definition to_ptr (z : Z) : ptr := match z with Zpos a => Some a | _ => None end.

(** An allocator never returns a block in use. *)
Definition ngx_alloc (size : Z) : NM K ptr := fun w =>
  match to_ptr (nx_alloc size w) with
  | None => Some (NULL, w)
  | Some a =>
    match n_blocks w !! a with
    | Some _ => Some (NULL, w)
    | None => Some (Some a, w <| n_blocks := <[a := size]> (n_blocks w) |>)
    end
  end.
(** The contents of a block go with it. *)
Definition ngx_free (p : ptr) : NM K unit := fun w =>
  match p with
  | None => Some (tt, w)
  | Some a =>
    match n_blocks w !! a with
    | None => None
    | Some size =>
      Some (tt, w <| n_blocks := delete a (n_blocks w) |>
                  <| n_pending := delete a (n_pending w) |>
                  <| n_states := filter (fun x => ~ (Zpos a <= Zpos x.1 < Zpos a + size)) (n_states w) |>)
    end
  end.
End Calls.

Lemma to_uintptr p : to_ptr (uintptr p) = p.
Proof. by destruct p. Qed.
Lemma uintptr_to z : 0 < z -> uintptr (to_ptr z) = z.
Proof. by destruct z. Qed.
