(* ===== verification/Nginx.v ===== *)
(** * The nginx event module

    [nginx/ngx_wepoll_module.c]: the level-triggered adapter, the
    explicit-rearm edge adapter with its queue of pending states, the delivery
    loop, and the life of the module.  The operations run in the single worker
    thread; handlers called back from the delivery loop may call them again.  Log
    lines are kept without their common prefix. *)
From Stdlib Require Import String.
From S2P Require Import Prelude Codes Errno PosixTypes Lifecycle NgxTypes.

Section Ngx.
Context {K : Type} `{!EventPort K} `{!Nginx K}.

Definition ngx_wepoll_log_errno (operation : string) (fd : Z) : NM K unit :=
  e <- get errno_of ;;
  ngx_log_error NGX_LOG_ALERT operation [fd; e].

Definition ngx_wepoll_mask_for_event (event : Z) : Z :=
  if event =? NGX_READ_EVENT then Z.lor EPOLLIN EPOLLRDHUP else EPOLLOUT.
Definition ngx_wepoll_class_for_event (event : Z) : Z :=
  if event =? NGX_READ_EVENT then WEPOLL_EX_REARM_READ else WEPOLL_EX_REARM_WRITE.

Definition ngx_wepoll_event_data (c : ptr) : NM K Z :=
  read <- rd n_connections c nc_read ;;
  instance <- rd n_events read ne_instance ;;
  ret (Z.lor (uintptr c) (Z.b2z instance)).

(** ** Connection states *)

(** [&ngx_wepoll_states[index]]. *)
Definition state_at (states : addr) (index : Z) : ptr := to_ptr (Zpos states + index * sizeof_connection_state).
Definition state_of (w : ngx_world K) (c : ptr) : ptr :=
  match c, ngx_wepoll_cycle w, ngx_wepoll_states w with
  | Some c, Some cycle, Some states =>
    match cy_connections cycle with
    | None => NULL
    | Some base =>
      if Zpos c <? Zpos base then NULL
      else
        let offset := Zpos c - Zpos base in
        if negb (offset mod sizeof_connection =? 0) then NULL
        else
          let index := offset / sizeof_connection in
          if ngx_wepoll_state_count w <=? index then NULL else state_at states index
    end
  | _, _, _ => NULL
  end.
Definition ngx_wepoll_state_for_connection (c : ptr) : NM K ptr := get (fun w => state_of w c).

Definition zero_state : ngx_wepoll_connection_state_t := mk_ngx_state NULL 0 0 0 0 0 false false.

Definition ngx_wepoll_reset_state (state c : ptr) : NM K unit :=
  queued <- rd n_states state ns_queued ;;
  fd <- rd n_connections c nc_fd ;;
  read <- rd n_connections c nc_read ;;
  instance <- rd n_events read ne_instance ;;
  st n_states state (zero_state <| ns_queued := queued |> <| ns_connection := c |> <| ns_fd := fd |>
                                <| ns_instance := Z.b2z instance |>).

Definition ngx_wepoll_prepare_state (c : ptr) : NM K ptr :=
  state <- ngx_wepoll_state_for_connection c ;;
  if bool_decide (state = NULL) then
    rd n_connections c nc_fd ;;
    ngx_log_error NGX_LOG_ALERT "connection is outside the current cycle" [] ;; ret NULL
  else
    s <- rd n_states state id ;;
    if ns_registered s then
      fd <- rd n_connections c nc_fd ;;
      read <- rd n_connections c nc_read ;;
      instance <- rd n_events read ne_instance ;;
      if bool_decide (ns_connection s <> c) || negb (ns_fd s =? fd) || negb (ns_instance s =? Z.b2z instance) then
        ngx_log_error NGX_LOG_ALERT "registered connection identity changed without DEL" [fd] ;; ret NULL
      else ret state
    else ngx_wepoll_reset_state state c ;; ret state.

Definition ngx_wepoll_state_is_current (state : ptr) : NM K bool :=
  match state with
  | None => ret false
  | Some _ =>
    s <- rd n_states state id ;;
    if negb (ns_registered s) then ret false
    else match ns_connection s with
    | None => ret false
    | Some _ as c =>
      k <- rd n_connections c id ;;
      match nc_read k, nc_write k with
      | Some _ as read, Some _ =>
        if (nc_fd k =? INVALID_SOCKET) || negb (nc_fd k =? ns_fd s) then ret false
        else
          instance <- rd n_events read ne_instance ;;
          if negb (Z.b2z instance =? ns_instance s) then ret false
          else
            own <- ngx_wepoll_state_for_connection c ;;
            ret (bool_decide (own = state))
      | _, _ => ret false
      end
    end
  end.

Definition ngx_wepoll_unbind_state (state : ptr) : NM K unit :=
  match state with
  | None => ret tt
  | Some _ =>
    queued <- rd n_states state ns_queued ;;
    st n_states state (zero_state <| ns_queued := queued |> <| ns_fd := INVALID_SOCKET |>)
  end.

Definition ngx_wepoll_register_edge_connection (state c : ptr) : NM K Z :=
  data <- ngx_wepoll_event_data c ;;
  epfd <- get ngx_wepoll_epfd ;;
  fd <- rd n_connections c nc_fd ;;
  r <- call (ep_ctl_ctx epfd EPOLL_CTL_ADD fd (Some (NGX_WEPOLL_EDGE_EVENTS, data)) (uintptr state)) ;;
  if r =? -1 then ngx_wepoll_log_errno "epoll_ctl_ctx(ADD edge)" fd ;; ret NGX_ERROR
  else
    wr n_states state ns_registered true ;;
    wr n_states state ns_disarmed 0 ;;
    wr n_states state ns_pending 0 ;;
    ret NGX_OK.

(** ** Pending states *)

Definition pending_get (i : Z) : NM K ptr :=
  array <- get ngx_wepoll_pending_states ;;
  l <- rd n_pending array id ;;
  match l !! Z.to_nat i with Some p => ret p | None => stuck end.
Definition pending_set (i : Z) (p : ptr) : NM K unit :=
  array <- get ngx_wepoll_pending_states ;;
  l <- rd n_pending array id ;;
  if (i <? 0) || (Z.of_nat (length l) <=? i) then stuck else st n_pending array (<[Z.to_nat i := p]> l).

Definition ngx_wepoll_queue_pending_state (state : ptr) : NM K unit :=
  s <- rd n_states state id ;;
  if (ns_pending s =? 0) || ns_queued s then ret tt
  else
    count <- get ngx_wepoll_pending_count ;;
    size <- get ngx_wepoll_state_count ;;
    if size <=? count then
      rd n_connections (ns_connection s) nc_fd ;;
      ngx_log_error NGX_LOG_ALERT "pending edge-state queue overflow" []
    else
      put ngx_wepoll_pending_count (count + 1) ;;
      pending_set count state ;;
      wr n_states state ns_queued true.

(** One class was rearmed: count it; a wanted event is active again. *)
Definition count_rearm (rearms : ngx_world K -> Z) `{!Setter rearms} (side : ngx_connection_t -> ptr)
    (state c : ptr) (class classes : Z) : NM K unit :=
  if has classes class then
    n <- get rearms ;;
    put rearms (u64 (n + 1)) ;;
    interests <- rd n_states state ns_interests ;;
    if has interests class then
      ev <- rd n_connections c side ;;
      wr n_events ev ne_active true
    else ret tt
  else ret tt.

Definition ngx_wepoll_rearm_classes (state : ptr) (classes : Z) : NM K Z :=
  if classes =? 0 then ret NGX_OK
  else
    c <- rd n_states state ns_connection ;;
    epfd <- get ngx_wepoll_epfd ;;
    fd <- rd n_states state ns_fd ;;
    r <- call (ep_rearm epfd fd classes) ;;
    if r =? -1 then ngx_wepoll_log_errno "epoll_rearm_classes" fd ;; ret NGX_ERROR
    else
      disarmed <- rd n_states state ns_disarmed ;;
      wr n_states state ns_disarmed (Z.ldiff disarmed classes) ;;
      pending <- rd n_states state ns_pending ;;
      wr n_states state ns_pending (Z.ldiff pending classes) ;;
      count_rearm ngx_wepoll_edge_read_rearms nc_read state c WEPOLL_EX_REARM_READ classes ;;
      count_rearm ngx_wepoll_edge_write_rearms nc_write state c WEPOLL_EX_REARM_WRITE classes ;;
      ret NGX_OK.

(** A pending class of one side: dropped if it is not wanted any more, added to
    the classes to rearm if nginx is done with its event. *)
Definition rearm_side (state ev : ptr) (class classes : Z) : NM K Z :=
  s <- rd n_states state id ;;
  if has (ns_pending s) class then
    e <- rd n_events ev id ;;
    if negb (has (ns_interests s) class) || ne_closed e then
      wr n_states state ns_pending (Z.ldiff (ns_pending s) class) ;; ret classes
    else ret (if negb (ne_posted e) && negb (ne_ready e) then Z.lor classes class else classes)
  else ret classes.

Definition ngx_wepoll_rearm_ready_state (state : ptr) : NM K Z :=
  current <- ngx_wepoll_state_is_current state ;;
  if negb current then wr n_states state ns_pending 0 ;; ret NGX_OK
  else
    c <- rd n_states state ns_connection ;;
    rev <- rd n_connections c nc_read ;;
    wev <- rd n_connections c nc_write ;;
    classes <- rearm_side state rev WEPOLL_EX_REARM_READ 0 ;;
    classes <- rearm_side state wev WEPOLL_EX_REARM_WRITE classes ;;
    ngx_wepoll_rearm_classes state classes.

(** The loop over the queue, from slot [i]; [retained] slots are kept. *)
Fixpoint sweep_loop (todo : nat) (i retained result : Z) : NM K (Z * Z) :=
  match todo with
  | O => ret (retained, result)
  | S todo =>
    state <- pending_get i ;;
    r <- ngx_wepoll_rearm_ready_state state ;;
    let result := if negb (r =? NGX_OK) then NGX_ERROR else result in
    pending <- rd n_states state ns_pending ;;
    current <- (if negb (pending =? 0) then ngx_wepoll_state_is_current state else ret false) ;;
    if current : bool then pending_set retained state ;; sweep_loop todo (i + 1) (retained + 1) result
    else wr n_states state ns_queued false ;; sweep_loop todo (i + 1) retained result
  end.
Definition ngx_wepoll_sweep_pending_states : NM K Z :=
  count <- get ngx_wepoll_pending_count ;;
  r <- sweep_loop (Z.to_nat count) 0 0 NGX_OK ;;
  let '(retained, result) := r in
  put ngx_wepoll_pending_count retained ;;
  ret result.

(** ** Edge mode *)

(** The registration is already gone. *)
Definition gone (e : Z) : bool := (e =? EBADF) || (e =? ENOENT) || (e =? ENOTSOCK).

Definition set_active (ev : ptr) (active : bool) : NM K unit := wr n_events ev ne_active active.

Definition ngx_wepoll_del_connection (c : ptr) (flags : Z) : NM K Z :=
  state <- ngx_wepoll_state_for_connection c ;;
  bound <- (match state with
            | None => ret false
            | Some _ =>
              s <- rd n_states state id ;;
              epfd <- get ngx_wepoll_epfd ;;
              fd <- rd n_connections c nc_fd ;;
              ret (ns_registered s && bool_decide (ns_connection s = c) && negb (epfd =? -1) && negb (fd =? INVALID_SOCKET))
            end) ;;
  result <-
    (if bound : bool then
       epfd <- get ngx_wepoll_epfd ;;
       fd <- rd n_connections c nc_fd ;;
       r <- call (ep_ctl_ctx epfd EPOLL_CTL_DEL fd None 0) ;;
       e <- get errno_of ;;
       if (r =? -1) && negb (gone e) then
         ngx_wepoll_log_errno "epoll_ctl(DEL connection)" fd ;; ret NGX_ERROR
       else ret NGX_OK
     else ret NGX_OK) ;;
  read <- rd n_connections c nc_read ;;
  set_active read false ;;
  write <- rd n_connections c nc_write ;;
  set_active write false ;;
  ngx_wepoll_unbind_state state ;;
  ret result.

Definition ngx_wepoll_edge_add_event (ev : ptr) (event : Z) : NM K Z :=
  c <- rd n_events ev ne_data ;;
  match c with
  | None => ret NGX_ERROR
  | Some _ =>
    k <- rd n_connections c id ;;
    if bool_decide (nc_read k = NULL) || bool_decide (nc_write k = NULL) || (nc_fd k =? INVALID_SOCKET) then ret NGX_ERROR
    else
      state <- ngx_wepoll_prepare_state c ;;
      if bool_decide (state = NULL) then ret NGX_ERROR
      else
        registered <- rd n_states state ns_registered ;;
        r <- (if negb registered then ngx_wepoll_register_edge_connection state c else ret NGX_OK) ;;
        if negb (r =? NGX_OK) then ret NGX_ERROR
        else
          let class_mask := ngx_wepoll_class_for_event event in
          previous_interests <- rd n_states state ns_interests ;;
          wr n_states state ns_interests (Z.lor previous_interests class_mask) ;;
          disarmed <- rd n_states state ns_disarmed ;;
          r <- (if has disarmed class_mask then ngx_wepoll_rearm_classes state class_mask else ret NGX_OK) ;;
          if negb (r =? NGX_OK) then
            wr n_states state ns_interests previous_interests ;; ret NGX_ERROR
          else
            pending <- rd n_states state ns_pending ;;
            wr n_states state ns_pending (Z.ldiff pending class_mask) ;;
            set_active ev true ;;
            ret NGX_OK
  end.

Definition ngx_wepoll_edge_del_event (ev : ptr) (event flags : Z) : NM K Z :=
  c <- rd n_events ev ne_data ;;
  match c with
  | None => set_active ev false ;; ret NGX_OK
  | Some _ =>
    if has flags NGX_CLOSE_EVENT then ngx_wepoll_del_connection c flags
    else
      state <- ngx_wepoll_state_for_connection c ;;
      let class_mask := ngx_wepoll_class_for_event event in
      (match state with
       | None => ret tt
       | Some _ =>
         s <- rd n_states state id ;;
         if ns_registered s && bool_decide (ns_connection s = c) then
           wr n_states state ns_interests (Z.ldiff (ns_interests s) class_mask) ;;
           wr n_states state ns_pending (Z.ldiff (ns_pending s) class_mask)
         else ret tt
       end) ;;
      set_active ev false ;;
      ret NGX_OK
  end.

Definition ngx_wepoll_add_connection (c : ptr) : NM K Z :=
  edge <- get ngx_wepoll_edge_enabled ;;
  if negb edge then ret NGX_ERROR
  else
    state <- ngx_wepoll_prepare_state c ;;
    if bool_decide (state = NULL) then ret NGX_ERROR
    else
      registered <- rd n_states state ns_registered ;;
      r <- (if negb registered then ngx_wepoll_register_edge_connection state c else ret NGX_OK) ;;
      if negb (r =? NGX_OK) then ret NGX_ERROR
      else
        interests <- rd n_states state ns_interests ;;
        wr n_states state ns_interests (Z.lor interests (Z.lor WEPOLL_EX_REARM_READ WEPOLL_EX_REARM_WRITE)) ;;
        disarmed <- rd n_states state ns_disarmed ;;
        let classes := Z.land disarmed (Z.lor WEPOLL_EX_REARM_READ WEPOLL_EX_REARM_WRITE) in
        r <- ngx_wepoll_rearm_classes state classes ;;
        if negb (r =? NGX_OK) then ret NGX_ERROR
        else
          read <- rd n_connections c nc_read ;;
          set_active read true ;;
          write <- rd n_connections c nc_write ;;
          set_active write true ;;
          ret NGX_OK.

(** ** Level mode *)

Definition other_event (event : Z) : Z := if event =? NGX_READ_EVENT then NGX_WRITE_EVENT else NGX_READ_EVENT.
(** [other] and whether it is active. *)
Definition other_side (c : ptr) (event : Z) : NM K (ptr * bool) :=
  k <- rd n_connections c id ;;
  let other := if event =? NGX_READ_EVENT then nc_write k else nc_read k in
  match other with
  | None => ret (NULL, false)
  | Some _ => active <- rd n_events other ne_active ;; ret (other, active)
  end.

Definition ngx_wepoll_level_add_event (ev : ptr) (event flags : Z) : NM K Z :=
  c <- rd n_events ev ne_data ;;
  match c with
  | None => ret NGX_ERROR
  | Some _ =>
    fd <- rd n_connections c nc_fd ;;
    if fd =? INVALID_SOCKET then ret NGX_ERROR
    else
      other <- other_side c event ;;
      let mask := ngx_wepoll_mask_for_event event in
      let '(mask, op) :=
        if other.2 : bool then (Z.lor mask (ngx_wepoll_mask_for_event (other_event event)), EPOLL_CTL_MOD)
        else (mask, EPOLL_CTL_ADD) in
      data <- ngx_wepoll_event_data c ;;
      epfd <- get ngx_wepoll_epfd ;;
      r <- call (ep_ctl_ctx epfd op fd (Some (mask, data)) 0) ;;
      if r =? -1 then ngx_wepoll_log_errno "epoll_ctl(ADD/MOD)" fd ;; ret NGX_ERROR
      else set_active ev true ;; ret NGX_OK
  end.

Definition deactivate (ev other : ptr) : NM K unit :=
  set_active ev false ;;
  match other with None => ret tt | Some _ => set_active other false end.

(** The close path: the registration goes whatever the other side wants. *)
Definition level_close (c ev other : ptr) : NM K Z :=
  epfd <- get ngx_wepoll_epfd ;;
  fd <- rd n_connections c nc_fd ;;
  close_result <-
    (if negb (epfd =? -1) && negb (fd =? INVALID_SOCKET) then
       r <- call (ep_ctl_ctx epfd EPOLL_CTL_DEL fd None 0) ;;
       e <- get errno_of ;;
       if (r =? -1) && negb (gone e) then
         ngx_wepoll_log_errno "epoll_ctl(DEL close)" fd ;; ret NGX_ERROR
       else ret NGX_OK
     else ret NGX_OK) ;;
  deactivate ev other ;;
  ret close_result.

Definition ngx_wepoll_level_del_event (ev : ptr) (event flags : Z) : NM K Z :=
  c <- rd n_events ev ne_data ;;
  match c with
  | None => set_active ev false ;; ret NGX_OK
  | Some _ =>
    other <- other_side c event ;;
    if has flags NGX_CLOSE_EVENT then level_close c ev other.1
    else
      data <- (if other.2 : bool then ngx_wepoll_event_data c else ret 0) ;;
      let '(op, argument) :=
        if other.2 : bool then (EPOLL_CTL_MOD, Some (ngx_wepoll_mask_for_event (other_event event), data))
        else (EPOLL_CTL_DEL, None) in
      epfd <- get ngx_wepoll_epfd ;;
      fd <- rd n_connections c nc_fd ;;
      r <- call (ep_ctl_ctx epfd op fd argument 0) ;;
      if r =? -1 then
        e <- get errno_of ;;
        if gone e then deactivate ev other.1 ;; ret NGX_OK
        else ngx_wepoll_log_errno "epoll_ctl(MOD/DEL)" fd ;; ret NGX_ERROR
      else set_active ev false ;; ret NGX_OK
  end.

Definition ngx_wepoll_add_event (ev : ptr) (event flags : Z) : NM K Z :=
  edge <- get ngx_wepoll_edge_enabled ;;
  if edge : bool then ngx_wepoll_edge_add_event ev event else ngx_wepoll_level_add_event ev event flags.
Definition ngx_wepoll_del_event (ev : ptr) (event flags : Z) : NM K Z :=
  edge <- get ngx_wepoll_edge_enabled ;;
  if edge : bool then ngx_wepoll_edge_del_event ev event flags else ngx_wepoll_level_del_event ev event flags.

(** ** Delivery *)

Definition wait_timeout (timer : Z) : Z :=
  if timer =? NGX_TIMER_INFINITE then -1 else if INT_MAX <? timer then INT_MAX else timer.

Definition READ_READY : Z := Z.lor EPOLLIN (Z.lor EPOLLPRI (Z.lor EPOLLRDNORM (Z.lor EPOLLRDBAND EPOLLRDHUP))).
Definition WRITE_READY : Z := Z.lor EPOLLOUT (Z.lor EPOLLWRNORM EPOLLWRBAND).
Definition is_terminal (revents : Z) : bool := has revents (Z.lor EPOLLERR EPOLLHUP).
Definition is_read_ready (revents : Z) : bool := is_terminal revents || has revents READ_READY.
Definition is_write_ready (revents : Z) : bool := is_terminal revents || has revents WRITE_READY.

(** Whether a record is for the connection that is registered now. *)
Definition is_for_connection (e : epoll_event_ex) (c : ptr) (instance : Z) : NM K bool :=
  edge <- get ngx_wepoll_edge_enabled ;;
  if edge : bool then
    let state := to_ptr (ex_user_ctx e) in
    current <- ngx_wepoll_state_is_current state ;;
    if negb current then ret false
    else
      s <- rd n_states state id ;;
      if bool_decide (ns_connection s <> c) || negb (ns_instance s =? instance) then ret false
      else
        logged <- get ngx_wepoll_missing_edge_flag_logged ;;
        (if negb (has (ex_flags e) WEPOLL_FLAG_ET_DELIVERED) && negb logged then
           put ngx_wepoll_missing_edge_flag_logged true ;;
           ngx_log_error NGX_LOG_ALERT "explicit edge event missing WEPOLL_FLAG_ET_DELIVERED" []
         else ret tt) ;;
        ret true
  else match c with
  | None => ret false
  | Some _ =>
    k <- rd n_connections c id ;;
    if nc_fd k =? INVALID_SOCKET then ret false
    else match nc_read k with
    | None => ret false
    | Some _ as read =>
      own <- rd n_events read ne_instance ;;
      ret (Z.b2z own =? instance)
    end
  end.

Definition bump (f : ngx_world K -> Z) `{!Setter f} : NM K unit := n <- get f ;; put f (u64 (n + 1)).

Definition delivered_classes (revents : Z) : Z :=
  if is_terminal revents then WEPOLL_EX_REARM_ALL
  else
    let d := if has revents READ_READY then WEPOLL_EX_REARM_READ else 0 in
    if has revents WRITE_READY then Z.lor d WEPOLL_EX_REARM_WRITE else d.

Definition deactivate_read (rev : ptr) : NM K unit :=
  accept <- rd n_events rev ne_accept ;;
  if negb accept then set_active rev false else ret tt.
(** Edge mode: the returned classes now belong to nginx.  The two results say
    which events to dispatch. *)
Definition edge_deliver (state : ptr) (revents : Z) (rev wev : ptr) : NM K (bool * bool) :=
  (if is_terminal revents then bump ngx_wepoll_edge_terminal_deliveries else ret tt) ;;
  disarmed <- rd n_states state ns_disarmed ;;
  wr n_states state ns_disarmed (Z.lor disarmed (delivered_classes revents)) ;;
  interests <- rd n_states state ns_interests ;;
  let read_dispatch := is_read_ready revents && has interests WEPOLL_EX_REARM_READ in
  let write_dispatch := is_write_ready revents && has interests WEPOLL_EX_REARM_WRITE in
  (if read_dispatch then
     pending <- rd n_states state ns_pending ;;
     wr n_states state ns_pending (Z.lor pending WEPOLL_EX_REARM_READ) ;;
     deactivate_read rev ;;
     bump ngx_wepoll_edge_read_deliveries
   else ret tt) ;;
  (if write_dispatch then
     pending <- rd n_states state ns_pending ;;
     wr n_states state ns_pending (Z.lor pending WEPOLL_EX_REARM_WRITE) ;;
     set_active wev false ;;
     bump ngx_wepoll_edge_write_deliveries
   else ret tt) ;;
  ngx_wepoll_queue_pending_state state ;;
  ret (read_dispatch, write_dispatch).
Definition level_deliver (revents : Z) (rev wev : ptr) : NM K (bool * bool) :=
  read_dispatch <- (if is_read_ready revents then rd n_events rev ne_active else ret false) ;;
  write_dispatch <- (if is_write_ready revents && bool_decide (wev <> NULL) then rd n_events wev ne_active else ret false) ;;
  ret (read_dispatch, write_dispatch).

(** Hand an event to nginx: posted, or its handler called. *)
Definition hand_over (ev : ptr) (post_events accept : bool) : NM K unit :=
  match ev with
  | None => stuck
  | Some a =>
    if post_events then nx_post_event a accept
    else
      handler <- rd n_events ev ne_handler ;;
      if handler : bool then nx_handler a else ret tt
  end.
Definition dispatch_read (rev : ptr) (revents : Z) (post_events : bool) : NM K unit :=
  wr n_events rev ne_ready true ;;
  wr n_events rev ne_available (-1) ;;
  (if has revents EPOLLRDHUP then wr n_events rev ne_pending_eof true else ret tt) ;;
  accept <- rd n_events rev ne_accept ;;
  hand_over rev post_events accept.

(** The read handler may have closed the connection or lost interest. *)
Definition write_wanted (state c wev : ptr) (instance : Z) : NM K bool :=
  edge <- get ngx_wepoll_edge_enabled ;;
  if edge : bool then
    current <- ngx_wepoll_state_is_current state ;;
    if negb current then ret false
    else interests <- rd n_states state ns_interests ;; ret (has interests WEPOLL_EX_REARM_WRITE)
  else
    fd <- rd n_connections c nc_fd ;;
    if fd =? INVALID_SOCKET then ret false
    else own <- rd n_events wev ne_instance ;; ret (Z.b2z own =? instance).
Definition dispatch_write (state c wev : ptr) (instance : Z) (post_events : bool) : NM K unit :=
  wanted <- write_wanted state c wev instance ;;
  if wanted : bool then
    wr n_events wev ne_ready true ;;
    (if NGX_THREADS then wr n_events wev ne_complete true else ret tt) ;;
    hand_over wev post_events false
  else ret tt.

(** The end of an iteration: the classes nginx is done with are rearmed. *)
Definition rearm_after (state : ptr) : NM K Z :=
  edge <- get ngx_wepoll_edge_enabled ;;
  current <- (if edge : bool then ngx_wepoll_state_is_current state else ret false) ;;
  if current : bool then ngx_wepoll_rearm_ready_state state else ret NGX_OK.

(** One record; [NGX_ERROR] when a rearm failed. *)
Definition process_event (post_events : bool) (e : epoll_event_ex) : NM K Z :=
  let instance := Z.land (ex_data e) 1 in
  let c := to_ptr (Z.ldiff (ex_data e) 1) in
  edge <- get ngx_wepoll_edge_enabled ;;
  let state := if edge : bool then to_ptr (ex_user_ctx e) else NULL in
  mine <- is_for_connection e c instance ;;
  if negb mine then ret NGX_OK
  else
    rev <- rd n_connections c nc_read ;;
    wev <- rd n_connections c nc_write ;;
    dispatch <- (if edge : bool then edge_deliver state (ex_events e) rev wev else level_deliver (ex_events e) rev wev) ;;
    (if dispatch.1 : bool then dispatch_read rev (ex_events e) post_events else ret tt) ;;
    (if dispatch.2 : bool then dispatch_write state c wev instance post_events else ret tt) ;;
    rearm_after state.
Fixpoint process_loop (post_events : bool) (l : list epoll_event_ex) (result : Z) : NM K Z :=
  match l with
  | [] => ret result
  | e :: l =>
    r <- process_event post_events e ;;
    process_loop post_events l (if negb (r =? NGX_OK) then NGX_ERROR else result)
  end.

Definition update_time (flags : Z) : NM K unit :=
  alarm <- get n_timer_alarm ;;
  if has flags NGX_UPDATE_TIME || alarm then nx_time_update else ret tt.

(** After the wait; [l] is the array the wait filled. *)
Definition process_ready (flags events err : Z) (l : list epoll_event_ex) (result : Z) : NM K Z :=
  if negb (err =? 0) then
    if err =? EINTR then
      alarm <- get n_timer_alarm ;;
      (if alarm : bool then put n_timer_alarm false else ret tt) ;;
      ret result
    else ngx_log_error NGX_LOG_ALERT "epoll_wait_ex() failed" [err] ;; ret NGX_ERROR
  else if events =? 0 then ret result
  else
    edge <- get ngx_wepoll_edge_enabled ;;
    post <- get ngx_wepoll_edge_post_events ;;
    if Z.of_nat (length l) <? events then stuck
    else process_loop (has flags NGX_POST_EVENTS || (edge && post)) (take (Z.to_nat events) l) result.

Definition ngx_wepoll_process_events (timer flags : Z) : NM K Z :=
  edge <- get ngx_wepoll_edge_enabled ;;
  r <- (if edge : bool then ngx_wepoll_sweep_pending_states else ret NGX_OK) ;;
  let result := if negb (r =? NGX_OK) then NGX_ERROR else NGX_OK in
  epfd <- get ngx_wepoll_epfd ;;
  nevents <- get ngx_wepoll_nevents ;;
  waited <- call (ep_wait_ex epfd (i32 nevents) (wait_timeout timer)) ;;
  let '(events, l) := waited in
  e <- get errno_of ;;
  update_time flags ;;
  process_ready flags events (if events =? -1 then e else 0) l result.

(** ** Life of the module *)

Definition ngx_wepoll_actions : ngx_event_actions_t :=
  mk_ngx_actions (Some ActAddEvent) (Some ActDelEvent) (Some ActAddEvent) (Some ActDelEvent)
    (Some ActAddConnection) (Some ActDelConnection) None (Some ActProcessEvents) (Some ActInit) (Some ActDone).

Definition init_port (cycle : ngx_cycle_t) : NM K bool :=
  epfd <- get ngx_wepoll_epfd ;;
  if negb (epfd =? -1) then ret true
  else
    edge <- get ngx_wepoll_edge_enabled ;;
    let size_hint := if INT_MAX <? cy_connection_n cycle then INT_MAX else cy_connection_n cycle in
    let create_flags := if edge : bool then Z.lor EPOLL_CLOEXEC WEPOLL_EX_CREATE_EXPLICIT_REARM else EPOLL_CLOEXEC in
    epfd <- call (ep_create_ex size_hint create_flags) ;;
    put ngx_wepoll_epfd epfd ;;
    if epfd =? -1 then ngx_wepoll_log_errno "epoll_create_ex" (-1) ;; ret false
    else put ngx_wepoll_port_edge edge ;; ret true.

(** The array of the wait grows, never shrinks. *)
Definition init_events (events : Z) : NM K bool :=
  nevents <- get ngx_wepoll_nevents ;;
  grown <-
    (if nevents <? events then
       events_array <- ngx_alloc (u64 (sizeof_ready_record * events)) ;;
       match events_array with
       | None => ret false
       | Some _ =>
         old <- get ngx_wepoll_events ;;
         ngx_free old ;;
         put ngx_wepoll_events events_array ;;
         ret true
       end
     else ret true) ;;
  if negb grown then ret false
  else put ngx_wepoll_nevents events ;; ret true.

(** [ngx_memzero] of the two arrays. *)
Definition zero_states (states : addr) (n : nat) (h : gmap addr ngx_wepoll_connection_state_t) :=
  foldr (fun i h => match state_at states (Z.of_nat i) with Some a => <[a := zero_state]> h | None => h end) h (seq 0 n).

Definition init_states (cycle : ngx_cycle_t) : NM K bool :=
  let n := cy_connection_n cycle in
  if (n =? 0) || (SIZE_MAX / sizeof_connection_state <? n) || (SIZE_MAX / sizeof_pending_slot <? n) then
    ngx_log_error NGX_LOG_EMERG "worker_connections exceeds edge state limits" [] ;; ret false
  else
    states <- ngx_alloc (u64 (sizeof_connection_state * n)) ;;
    put ngx_wepoll_states states ;;
    pending <- ngx_alloc (u64 (sizeof_pending_slot * n)) ;;
    put ngx_wepoll_pending_states pending ;;
    match states, pending with
    | Some a, Some b =>
      h <- get n_states ;;
      put n_states (zero_states a (Z.to_nat n) h) ;;
      l <- get n_pending ;;
      put n_pending (<[b := replicate (Z.to_nat n) NULL]> l) ;;
      put ngx_wepoll_state_count n ;;
      put ngx_wepoll_pending_count 0 ;;
      ret true
    | _, _ =>
      ngx_free states ;;
      put ngx_wepoll_states NULL ;;
      ngx_free pending ;;
      put ngx_wepoll_pending_states NULL ;;
      ret false
    end.

Definition init_finish (cycle : ngx_cycle_t) : NM K Z :=
  put ngx_wepoll_cycle (Some cycle) ;;
  put n_os_io true ;;
  put n_actions (Some ngx_wepoll_actions) ;;
  edge <- get ngx_wepoll_edge_enabled ;;
  if edge : bool then
    put n_event_flags (Z.lor NGX_USE_CLEAR_EVENT NGX_USE_GREEDY_EVENT) ;;
    post <- get ngx_wepoll_edge_post_events ;;
    ngx_log_error NGX_LOG_NOTICE
      (if post then "explicit-rearm edge mode enabled with forced posted dispatch" else "explicit-rearm edge mode enabled") [] ;;
    ret NGX_OK
  else
    put n_actions (Some (mk_ngx_actions (Some ActAddEvent) (Some ActDelEvent) (Some ActAddEvent) (Some ActDelEvent)
                           None None None (Some ActProcessEvents) (Some ActInit) (Some ActDone))) ;;
    put n_event_flags NGX_USE_LEVEL_EVENT ;;
    ret NGX_OK.

Definition ngx_wepoll_init (cycle : ngx_cycle_t) : NM K Z :=
  match cy_conf cycle with
  | None => ret NGX_ERROR
  | Some wcf =>
    if (cf_events wcf =? 0) || (INT_MAX <? cf_events wcf) || (SIZE_MAX / sizeof_ready_record <? cf_events wcf) then
      ngx_log_error NGX_LOG_EMERG "wepoll_events must fit an epoll_wait() event array" [] ;; ret NGX_ERROR
    else
      let edge := negb (cf_edge wcf =? 0) in
      let post := negb (cf_edge_post_events wcf =? 0) in
      put ngx_wepoll_edge_enabled edge ;;
      put ngx_wepoll_edge_post_events post ;;
      put ngx_wepoll_close_audit (negb (cf_close_audit wcf =? 0)) ;;
      epfd <- get ngx_wepoll_epfd ;;
      port_edge <- get ngx_wepoll_port_edge ;;
      if post && negb edge then
        ngx_log_error NGX_LOG_EMERG "wepoll_edge_post_events requires wepoll_edge on" [] ;; ret NGX_ERROR
      else if negb (epfd =? -1) && negb (Bool.eqb port_edge edge) then
        ngx_log_error NGX_LOG_EMERG "wepoll_edge cannot change while the event port exists" [] ;; ret NGX_ERROR
      else
        ok <- init_port cycle ;;
        if negb ok then ret NGX_ERROR
        else
          ok <- init_events (cf_events wcf) ;;
          if negb ok then ret NGX_ERROR
          else
            ok <- (if edge then init_states cycle else ret true) ;;
            if negb ok then ret NGX_ERROR else init_finish cycle
  end.

(** What the close audits look at. *)
Definition audit_dirty (s : wepoll_ex_stats) : bool :=
  negb (st_active_registrations s =? 0) || negb (st_rearm_queue_depth s =? 0) ||
  negb (st_oneshot_probe_queue_depth s =? 0) || negb (st_ready_queue_depth s =? 0).
Definition audit_level (failed : bool) : NM K Z :=
  exiting <- get n_exiting ;;
  terminate <- get n_terminate ;;
  ret (if exiting && negb terminate && failed then NGX_LOG_ALERT else NGX_LOG_NOTICE).

Definition audit_port : NM K unit :=
  epfd <- get ngx_wepoll_epfd ;;
  audit <- get ngx_wepoll_close_audit ;;
  if negb (epfd =? -1) && audit then
    stats <- call (ep_get_stats epfd) ;;
    match stats with
    | None => ngx_wepoll_log_errno "wepoll_ex_get_stats" (-1)
    | Some s =>
      level <- audit_level (audit_dirty s) ;;
      ngx_log_error level (if audit_dirty s then "close audit dirty" else "close audit clean")
        [st_socket_lifetime_policy s; st_active_registrations s; st_pending_polls s; st_rearm_queue_depth s;
         st_oneshot_probe_queue_depth s; st_ready_queue_depth s; st_stale_events_dropped s; st_identity_failures s;
         st_asynchronous_errors s; st_wake_requests s; st_wake_coalesced s; st_wake_returns s;
         st_tcp_current_level_probes s; st_tcp_current_level_fallbacks s]
    end
  else ret tt.
Definition audit_process : NM K unit :=
  audit <- get ngx_wepoll_close_audit ;;
  if audit : bool then
    stats <- call ep_global_stats ;;
    match stats with
    | None => ngx_wepoll_log_errno "wepoll_ex_get_global_stats" (-1)
    | Some g =>
      level <- audit_level (negb (gs_active_quarantines g =? 0)) ;;
      ngx_log_error level "lifecycle audit"
        [gs_quarantined_ports g; gs_reaped_ports g; gs_irrecoverable_ports g; gs_api_close_timeouts g; gs_active_quarantines g]
    end
  else ret tt.
Definition edge_summary : NM K unit :=
  edge <- get ngx_wepoll_edge_enabled ;;
  if edge : bool then
    a <- get ngx_wepoll_edge_read_deliveries ;;
    b <- get ngx_wepoll_edge_write_deliveries ;;
    c <- get ngx_wepoll_edge_terminal_deliveries ;;
    d <- get ngx_wepoll_edge_read_rearms ;;
    e <- get ngx_wepoll_edge_write_rearms ;;
    ngx_log_error NGX_LOG_NOTICE "edge summary" [a; b; c; d; e]
  else ret tt.

Definition done_close : NM K unit :=
  epfd <- get ngx_wepoll_epfd ;;
  if negb (epfd =? -1) then
    r <- call (ep_close epfd) ;;
    (if r =? -1 then ngx_wepoll_log_errno "wepoll_close" (-1) else ret tt) ;;
    put ngx_wepoll_epfd (-1)
  else ret tt.
(** [if (p != NULL) { ngx_free(p); p = NULL; }] *)
Definition release (f : ngx_world K -> ptr) `{!Setter f} : NM K unit :=
  p <- get f ;; ngx_free p ;; put f NULL.
Definition reset_globals (w : ngx_world K) : ngx_world K :=
  w <| ngx_wepoll_nevents := 0 |> <| ngx_wepoll_cycle := None |> <| ngx_wepoll_state_count := 0 |>
    <| ngx_wepoll_pending_count := 0 |> <| ngx_wepoll_edge_enabled := false |> <| ngx_wepoll_edge_post_events := false |>
    <| ngx_wepoll_close_audit := false |> <| ngx_wepoll_port_edge := false |> <| ngx_wepoll_missing_edge_flag_logged := false |>
    <| ngx_wepoll_edge_read_deliveries := 0 |> <| ngx_wepoll_edge_write_deliveries := 0 |>
    <| ngx_wepoll_edge_terminal_deliveries := 0 |> <| ngx_wepoll_edge_read_rearms := 0 |> <| ngx_wepoll_edge_write_rearms := 0 |>.
Definition ngx_wepoll_done : NM K unit :=
  audit_port ;;
  edge_summary ;;
  done_close ;;
  audit_process ;;
  release ngx_wepoll_events ;;
  release ngx_wepoll_states ;;
  release ngx_wepoll_pending_states ;;
  fun w => Some (tt, reset_globals w).
Definition ngx_wepoll_exit_process : NM K unit := ngx_wepoll_done.

(** ** Configuration *)

(** [wcf] is what nginx's pool returned for the structure. *)
Definition ngx_wepoll_create_conf (wcf : ptr) : option ngx_wepoll_conf_t :=
  match wcf with
  | None => None
  | Some _ => Some (mk_ngx_conf NGX_CONF_UNSET_UINT NGX_CONF_UNSET NGX_CONF_UNSET NGX_CONF_UNSET)
  end.
Definition init_value (unset v default : Z) : Z := if v =? unset then default else v.
Definition ngx_wepoll_init_conf (c : ngx_wepoll_conf_t) : ngx_wepoll_conf_t :=
  mk_ngx_conf (init_value NGX_CONF_UNSET_UINT (cf_events c) 512) (init_value NGX_CONF_UNSET (cf_edge c) 0)
    (init_value NGX_CONF_UNSET (cf_edge_post_events c) 0) (init_value NGX_CONF_UNSET (cf_close_audit c) 1).
End Ngx.
