(* ===== verification/NgxEdge.v ===== *)
(** * Edge mode of the nginx module: the bookkeeping

    The invariant of the connection states and of the queue of pending states,
    and how the operations on one state move it.  [books] holds the table as a
    whole; a proof takes one state out of it ([held]), follows its fields through
    the code and puts it back. *)
From Stdlib Require Import String.
From S2P Require Import Prelude Codes Errno PosixTypes Lifecycle NgxTypes Nginx.

(** What the module relies on of the event port: calls return; a record carries
    a context that was registered, or none; the invalid socket is refused. *)
Class PortLaws (K : Type) `{!EventPort K} := {
  ep_ctxs : K -> gset Z;
  law_create size flags k : exists r k', ep_create_ex size flags k = Some (r, k') /\ ep_ctxs k' ⊆ ep_ctxs k;
  law_stats epfd k : exists r k', ep_get_stats epfd k = Some (r, k');
  law_global k : exists r k', ep_global_stats k = Some (r, k');
  law_close_port epfd k : exists r k', ep_close epfd k = Some (r, k');
  law_ctl epfd op fd ev ctx k : exists r k', ep_ctl_ctx epfd op fd ev ctx k = Some (r, k') /\
    ep_ctxs k' ⊆ {[ctx]} ∪ ep_ctxs k /\ (op = EPOLL_CTL_ADD -> fd = INVALID_SOCKET -> r = -1);
  law_rearm epfd fd classes k : exists r k', ep_rearm epfd fd classes k = Some (r, k') /\ ep_ctxs k' ⊆ ep_ctxs k;
  law_wait epfd maxevents timeout k : exists n l k', ep_wait_ex epfd maxevents timeout k = Some ((n, l), k') /\
    ep_ctxs k' ⊆ ep_ctxs k /\ (n = -1 \/ n = Z.of_nat (List.length l)) /\
    Forall (fun e => ex_user_ctx e = 0 \/ ex_user_ctx e ∈ ep_ctxs k) l
}.

(** The arrays of a cycle: how many connections, where the connections, the
    states and the queue are, and the events that exist; [g_lost] are the
    connections nginx may go on using after an [add_conn] that failed. *)
Class geometry := mk_geometry {
  g_cycle : ngx_cycle_t; g_base : addr; g_states : addr; g_array : addr; g_n : nat; g_events : gset addr; g_lost : gset addr }.

(** Pending classes [p] are delivered and not rearmed ([d]) and wanted ([i]);
    when the words are [exact], they are all such classes. *)
Definition agree (exact : Prop) (p d i : Z) : Prop := Z.land p (Z.land d i) = p /\ (exact -> p = Z.land d i).

Section Books.
Context {K : Type} `{!EventPort K} `{!Nginx K} `{!PortLaws K}.
Context {G : geometry}.
Implicit Types (w : ngx_world K) (i : nat) (s : ngx_wepoll_connection_state_t).

Definition sp i : addr := Z.to_pos (Zpos g_states + Z.of_nat i * sizeof_connection_state).
Definition cp i : addr := Z.to_pos (Zpos g_base + Z.of_nat i * sizeof_connection).

Record globals w : Prop := {
  gl_cycle : ngx_wepoll_cycle w = Some g_cycle;
  gl_base : cy_connections g_cycle = Some g_base;
  gl_states : ngx_wepoll_states w = Some g_states;
  gl_count : ngx_wepoll_state_count w = Z.of_nat g_n;
  gl_array : ngx_wepoll_pending_states w = Some g_array;
  gl_edge : ngx_wepoll_edge_enabled w = true;
  gl_size : 0 < sizeof_connection;
  gl_events : g_events ⊆ dom (n_events w)
}.

(** Connection [c] has descriptor [fd] and instance [inst], and its events are
    open. *)
Record live w (c : addr) (fd inst : Z) (k : ngx_connection_t) (r e : addr) (rev wev : ngx_event_t) : Prop := {
  lv_conn : n_connections w !! c = Some k;
  lv_fd : nc_fd k = fd;
  lv_valid : fd <> INVALID_SOCKET;
  lv_read : nc_read k = Some r;
  lv_write : nc_write k = Some e;
  lv_rev : n_events w !! r = Some rev;
  lv_wev : n_events w !! e = Some wev;
  lv_instance : Z.b2z (ne_instance rev) = inst;
  lv_open : ne_closed rev = false /\ ne_closed wev = false;
  lv_known : r ∈ g_events /\ e ∈ g_events
}.
Definition alive w c fd inst : Prop := exists k r e rev wev, live w c fd inst k r e rev wev.

(** A registered state belongs to its connection as it is now; a class is
    pending only if it was delivered, has not been rearmed and is wanted, and
    exactly then unless a failed [add_conn] was left in place; a state with
    pending classes is queued. *)
Record st_ok w i s : Prop := {
  so_bound : ns_registered s = true -> ns_connection s = Some (cp i) /\ alive w (cp i) (ns_fd s) (ns_instance s);
  so_interests : 0 <= ns_interests s < 4;
  so_disarmed : 0 <= ns_disarmed s < 8;
  so_pending : agree (cp i ∉ g_lost) (ns_pending s) (ns_disarmed s) (ns_interests s);
  so_free : ns_registered s = false -> ns_interests s = 0 /\ ns_disarmed s = 0;
  so_queued : ns_pending s <> 0 -> ns_queued s = true
}.

(** [l] is the queue array, [cnt] its count, [Q] the queued states. *)
Record books (P : nat -> ngx_wepoll_connection_state_t -> Prop) (Q l : list ptr) (cnt : Z) w : Prop := {
  bk_globals : globals w;
  bk_states i : (i < g_n)%nat -> exists s, n_states w !! sp i = Some s /\ P i s /\ (ns_queued s = true <-> Some (sp i) ∈ Q);
  bk_array : n_pending w !! g_array = Some l;
  bk_length : length l = g_n;
  bk_count : ngx_wepoll_pending_count w = cnt;
  bk_nodup : NoDup Q;
  bk_queue p : p ∈ Q -> exists i, (i < g_n)%nat /\ p = Some (sp i);
  bk_ctxs z : z ∈ ep_ctxs (n_port w) -> z = 0 \/ exists i, (i < g_n)%nat /\ z = Zpos (sp i)
}.

(** The invariant. *)
Definition edge_inv w : Prop :=
  exists l cnt, 0 <= cnt <= Z.of_nat g_n /\ books (st_ok w) (take (Z.to_nat cnt) l) l cnt w.

(** The table but for state [i], which is [s]. *)
Definition but (w : ngx_world K) (i : nat) (s : ngx_wepoll_connection_state_t) : nat -> ngx_wepoll_connection_state_t -> Prop :=
  fun j s' => if decide (j = i) then s' = s else st_ok w j s'.

(** ** Addresses *)

Lemma sp_value i : Zpos (sp i) = Zpos g_states + Z.of_nat i * sizeof_connection_state.
Proof. unfold sp, sizeof_connection_state. rewrite Z2Pos.id; lia. Qed.
Lemma sp_inj i j : sp i = sp j -> i = j.
Proof. intros H. pose proof (sp_value i). pose proof (sp_value j). rewrite H in *. unfold sizeof_connection_state in *. lia. Qed.
Lemma state_at_sp i : state_at g_states (Z.of_nat i) = Some (sp i).
Proof. unfold state_at, to_ptr. pose proof (sp_value i) as H. by rewrite <- H. Qed.
Lemma cp_value i : 0 < sizeof_connection -> Zpos (cp i) = Zpos g_base + Z.of_nat i * sizeof_connection.
Proof. intros H. unfold cp. rewrite Z2Pos.id; nia. Qed.

Lemma state_of_cp w i : globals w -> (i < g_n)%nat -> state_of w (Some (cp i)) = Some (sp i).
Proof.
  intros [Hcy Hb Hs Hc _ _ Hz _] Hi. unfold state_of. rewrite Hcy, Hs, Hb, Hc, cp_value by done.
  rewrite (proj2 (Z.ltb_ge _ _)) by nia.
  replace (_ + _ - _) with (Z.of_nat i * sizeof_connection) by lia. rewrite Z.mod_mul, Z.div_mul by lia. cbn [Z.eqb negb].
  rewrite (proj2 (Z.leb_gt _ _)) by lia. apply state_at_sp.
Qed.
Lemma state_of_inv w c a : globals w -> state_of w c = Some a -> exists i, (i < g_n)%nat /\ a = sp i /\ c = Some (cp i).
Proof.
  intros [Hcy Hb Hs Hc _ _ Hz _]. unfold state_of. rewrite Hcy, Hs. destruct c as [c|]; [|done]. rewrite Hb, Hc.
  destruct (Z.ltb_spec (Zpos c) (Zpos g_base)) as [|Hle]; [done|].
  destruct (Z.eqb_spec ((Zpos c - Zpos g_base) mod sizeof_connection) 0) as [Hm|]; [|done]. cbn [negb].
  destruct (Z.leb_spec (Z.of_nat g_n) ((Zpos c - Zpos g_base) / sizeof_connection)) as [|Hlt]; [done|].
  set (d := (Zpos c - Zpos g_base) / sizeof_connection) in *.
  assert (Hd : Zpos c - Zpos g_base = sizeof_connection * d) by (by apply Z_div_exact_full_2; [lia|]).
  assert (0 <= d) by (apply Z.div_pos; lia). intros Ha. exists (Z.to_nat d).
  split; [lia|]. rewrite <- (Z2Nat.id d) in Ha by done. rewrite state_at_sp in Ha. split; [congruence|].
  f_equal. apply Pos2Z.inj. rewrite cp_value, Z2Nat.id by done. lia.
Qed.

(** ** Steps that leave the table alone *)

(** What the bookkeeping looks at in an event; the second also what decides
    about a rearm. *)
Definition identity_of (e : ngx_event_t) : bool * bool := (ne_instance e, ne_closed e).
Definition core_of (e : ngx_event_t) : bool * bool * bool * bool := (ne_instance e, ne_closed e, ne_posted e, ne_ready e).

Definition events_keep {T} (f : ngx_event_t -> T) w w' : Prop :=
  n_connections w' = n_connections w /\ forall a, f <$> n_events w' !! a = f <$> n_events w !! a.

Record calm {T} (f : ngx_event_t -> T) w w' : Prop := {
  cm_globals : globals w -> globals w';
  cm_states : n_states w' = n_states w;
  cm_array : n_pending w' = n_pending w;
  cm_count : ngx_wepoll_pending_count w' = ngx_wepoll_pending_count w;
  cm_ctxs : ep_ctxs (n_port w') ⊆ ep_ctxs (n_port w);
  cm_events : events_keep f w w'
}.

Lemma events_keep_refl {T} (f : ngx_event_t -> T) w : events_keep f w w.
Proof. done. Qed.
Lemma events_keep_trans {T} (f : ngx_event_t -> T) w w' w'' : events_keep f w w' -> events_keep f w' w'' -> events_keep f w w''.
Proof. intros [H1 H2] [H3 H4]. split; [congruence|]. intros a. by rewrite H4. Qed.
Lemma events_keep_identity w w' : events_keep core_of w w' -> events_keep identity_of w w'.
Proof.
  intros [H1 H2]. split; [done|]. intros a. specialize (H2 a).
  destruct (n_events w' !! a) as [x|], (n_events w !! a) as [y|]; cbn in *; try done. unfold core_of, identity_of in *. congruence.
Qed.
Lemma calm_trans {T} (f : ngx_event_t -> T) w w' w'' : calm f w w' -> calm f w' w'' -> calm f w w''.
Proof.
  intros [? ? ? ? ? ?] [? ? ? ? ? ?]. split; try congruence; [auto|set_solver|by eapply events_keep_trans].
Qed.
Lemma calm_identity w w' : calm core_of w w' -> calm identity_of w w'.
Proof. intros [? ? ? ? ? ?]. split; try done. by apply events_keep_identity. Qed.

Lemma alive_keep w w' c fd inst : events_keep identity_of w w' -> alive w c fd inst -> alive w' c fd inst.
Proof.
  intros [Hc He] (k & r & e & rev & wev & [Hk Hfd Hv Hr He' Hrev Hwev Hi [Ho1 Ho2] Hkn]).
  pose proof (He r) as Hr'. pose proof (He e) as He''. rewrite Hrev in Hr'. rewrite Hwev in He''.
  destruct (n_events w' !! r) as [rev'|] eqn:E1; [|done]. destruct (n_events w' !! e) as [wev'|] eqn:E2; [|done].
  injection Hr' as Ha Hb. injection He'' as Ha' Hb'. exists k, r, e, rev', wev'. split; try done; [congruence|congruence|split; congruence].
Qed.
Lemma st_ok_keep w w' i s : events_keep identity_of w w' -> st_ok w i s -> st_ok w' i s.
Proof. intros He [Hb ? ? ? ? ?]. split; try done. intros Hr. destruct (Hb Hr) as [H1 H2]. split; [done|]. by eapply alive_keep. Qed.
Lemma but_keep w w' i s j s' : events_keep identity_of w w' -> but w i s j s' -> but w' i s j s'.
Proof. intros He. unfold but. case_decide; [done|]. by apply st_ok_keep. Qed.

Lemma books_calm P P' Q l cnt w w' :
  calm identity_of w w' -> (forall j s, P j s -> P' j s) -> books P Q l cnt w -> books P' Q l cnt w'.
Proof.
  intros [Hg Hs Ha Hc Hx _] HP [? Hst ? ? ? ? ? Hz]. split; try done; [auto| |by rewrite Ha|congruence|auto].
  intros i Hi. destruct (Hst i Hi) as (s & H1 & H2 & H3). exists s. rewrite Hs. auto.
Qed.
Lemma held_calm Q l cnt w w' i s : calm identity_of w w' -> books (but w i s) Q l cnt w -> books (but w' i s) Q l cnt w'.
Proof. intros Hc. apply books_calm; [done|]. intros j s'. by apply but_keep, cm_events. Qed.
Lemma ok_calm Q l cnt w w' : calm identity_of w w' -> books (st_ok w) Q l cnt w -> books (st_ok w') Q l cnt w'.
Proof. intros Hc. apply books_calm; [done|]. intros j s. by apply st_ok_keep, cm_events. Qed.

(** ** One state out of the table and back *)

Lemma books_open Q l cnt w i :
  books (st_ok w) Q l cnt w -> (i < g_n)%nat -> exists s, books (but w i s) Q l cnt w /\ st_ok w i s.
Proof.
  intros [? Hst ? ? ? ? ? ?] Hi. destruct (Hst i Hi) as (s & H1 & H2 & H3). exists s. split; [|done]. split; try done.
  intros j Hj. unfold but. case_decide as E; [subst; eauto|]. destruct (Hst j Hj) as (s' & ? & ? & ?). eauto.
Qed.
Lemma books_close Q l cnt w i s : books (but w i s) Q l cnt w -> st_ok w i s -> books (st_ok w) Q l cnt w.
Proof.
  intros [? Hst ? ? ? ? ? ?] Hs. split; try done. intros j Hj. destruct (Hst j Hj) as (s' & H1 & H2 & H3). exists s'.
  split; [done|]. split; [|done]. unfold but in H2. case_decide; [by subst|done].
Qed.
Lemma held_lookup Q l cnt w i s : books (but w i s) Q l cnt w -> (i < g_n)%nat -> n_states w !! sp i = Some s.
Proof. intros H Hi. destruct (bk_states _ _ _ _ _ H i Hi) as (s' & H1 & H2 & _). unfold but in H2. rewrite decide_True in H2 by done. congruence. Qed.
Lemma held_queued Q l cnt w i s : books (but w i s) Q l cnt w -> (i < g_n)%nat -> ns_queued s = true <-> Some (sp i) ∈ Q.
Proof. intros H Hi. destruct (bk_states _ _ _ _ _ H i Hi) as (s' & H1 & H2 & H3). unfold but in H2. rewrite decide_True in H2 by done. by subst. Qed.

(** The state, the queue, the array and the count may change together. *)
Lemma held_write Q Q' l l' cnt cnt' w w' i s s' :
  books (but w i s) Q l cnt w -> (i < g_n)%nat ->
  (globals w -> globals w') -> n_states w' = <[sp i := s']> (n_states w) -> n_pending w' !! g_array = Some l' ->
  ngx_wepoll_pending_count w' = cnt' -> ep_ctxs (n_port w') ⊆ {[Zpos (sp i)]} ∪ ({[0]} ∪ ep_ctxs (n_port w)) -> events_keep identity_of w w' ->
  length l' = length l -> NoDup Q' -> (forall p, p ∈ Q' <-> (p ∈ Q /\ p <> Some (sp i)) \/ (p = Some (sp i) /\ ns_queued s' = true)) ->
  books (but w' i s') Q' l' cnt' w'.
Proof.
  intros [Hg Hst Ha Hl Hc Hn Hq Hx] Hi Hg' Hs' Ha' Hc' Hx' He Hl' Hn' HQ. split; try done; [auto| |congruence| |].
  - intros j Hj. rewrite Hs'. destruct (Hst j Hj) as (sj & H1 & H2 & H3). unfold but in *. destruct (decide (j = i)) as [->|Hne].
    + exists s'. rewrite lookup_insert_eq. split_and!; try done. rewrite HQ. intuition.
    + exists sj. assert (sp i <> sp j) by (intros ?%sp_inj; congruence). rewrite lookup_insert_ne by done.
      split_and!; [done|by eapply st_ok_keep|]. rewrite HQ, H3. naive_solver.
  - intros p Hp%HQ. destruct Hp as [[Hp _]|[-> _]]; [auto|by exists i].
  - intros z Hz%Hx'. rewrite !elem_of_union, !elem_of_singleton in Hz. naive_solver.
Qed.
Lemma held_set Q l cnt w w' i s s' :
  books (but w i s) Q l cnt w -> (i < g_n)%nat -> w' = w <| n_states := <[sp i := s']> (n_states w) |> ->
  ns_queued s' = ns_queued s -> books (but w' i s') Q l cnt w'.
Proof.
  intros H Hi -> Hq. pose proof (held_queued _ _ _ _ _ _ H Hi) as Hqq. pose proof H as [Hg ? ? ? ? ? ? ?].
  eapply held_write; sget; try done; [intros [? ? ? ? ? ? ? ?]; by split|set_solver|].
  intros p. rewrite Hq, Hqq. destruct (decide (p = Some (sp i))); naive_solver.
Qed.
End Books.
