(* ===== verification/NgxLedger.v ===== *)
(** * The calls of the nginx module into the event port

    A port that records what it was asked and what it answered.  It behaves as
    the port it wraps, so theorems about it say which calls the module makes
    whatever the library does with them. *)
From S2P Require Import Prelude Codes Errno PosixTypes Lifecycle NgxTypes Nginx NgxEdge.

(** A call and the port's answer. *)
Inductive port_call :=
| CallCreate (size flags answer : Z)
| CallClose (epfd answer : Z)
| CallCtl (epfd op fd : Z) (ev : option (Z * Z)) (answer : Z).

(** The calls, latest first. *)
Record recorded (K : Type) := mk_recorded { rc_port : K; rc_calls : list port_call }.
Arguments mk_recorded {K}.
Arguments rc_port {K}.
Arguments rc_calls {K}.

Section Recorder.
Context {K : Type} `{!EventPort K}.

Definition noting {A} (m : M K A) (f : A -> list port_call) : M (recorded K) A := fun k =>
  match m (rc_port k) with Some (a, p) => Some (a, mk_recorded p (f a ++ rc_calls k)) | None => None end.
Lemma noting_some {A} (m : M K A) f k a p :
  m (rc_port k) = Some (a, p) -> noting m f k = Some (a, mk_recorded p (f a ++ rc_calls k)).
Proof. intros H. unfold noting. by rewrite H. Qed.
Lemma noting_inv {A} (m : M K A) f k a k' : noting m f k = Some (a, k') -> rc_calls k' = f a ++ rc_calls k.
Proof. unfold noting. destruct (m (rc_port k)) as [[b p]|]; [|done]. by intros [= <- <-]. Qed.

#[export] Instance recorded_port : EventPort (recorded K) := {|
  ep_errno k := ep_errno (rc_port k);
  ep_create_ex size flags := noting (ep_create_ex size flags) (fun r => [CallCreate size flags r]);
  ep_ctl_ctx epfd op fd ev ctx := noting (ep_ctl_ctx epfd op fd ev ctx) (fun r => [CallCtl epfd op fd ev r]);
  ep_rearm epfd fd classes := noting (ep_rearm epfd fd classes) (fun _ => []);
  ep_wait_ex epfd maxevents timeout := noting (ep_wait_ex epfd maxevents timeout) (fun _ => []);
  ep_get_stats epfd := noting (ep_get_stats epfd) (fun _ => []);
  ep_global_stats := noting ep_global_stats (fun _ => []);
  ep_close epfd := noting (ep_close epfd) (fun r => [CallClose epfd r])
|}.

(** Recording changes nothing the module relies on. *)
#[export] Instance recorded_laws `{!PortLaws K} : PortLaws (recorded K).
Proof.
  unshelve eapply (Build_PortLaws (recorded K) recorded_port (fun k => ep_ctxs (rc_port k))); intros; cbn.
  - destruct (law_create size flags (rc_port k)) as (r & p & H & Hx). eexists _, _. by split; [apply noting_some|].
  - destruct (law_stats epfd (rc_port k)) as (r & p & H). eexists _, _. by apply noting_some.
  - destruct (law_global (rc_port k)) as (r & p & H). eexists _, _. by apply noting_some.
  - destruct (law_close_port epfd (rc_port k)) as (r & p & H). eexists _, _. by apply noting_some.
  - destruct (law_ctl epfd op fd ev ctx (rc_port k)) as (r & p & H & Hx). eexists _, _. by split; [apply noting_some|].
  - destruct (law_rearm epfd fd classes (rc_port k)) as (r & p & H & Hx). eexists _, _. by split; [apply noting_some|].
  - destruct (law_wait epfd maxevents timeout (rc_port k)) as (n & l & p & H & Hx). eexists _, _, _. by split; [apply (noting_some (ep_wait_ex _ _ _))|].
Defined.
End Recorder.

(** A port whose calls can be told from its state. *)
Class PortCalls (K : Type) `{!EventPort K} := {
  pc_calls : K -> list port_call;
  calls_create size flags k r k' : ep_create_ex size flags k = Some (r, k') -> pc_calls k' = CallCreate size flags r :: pc_calls k;
  calls_close epfd k r k' : ep_close epfd k = Some (r, k') -> pc_calls k' = CallClose epfd r :: pc_calls k;
  calls_stats epfd k r k' : ep_get_stats epfd k = Some (r, k') -> pc_calls k' = pc_calls k;
  calls_global k r k' : ep_global_stats k = Some (r, k') -> pc_calls k' = pc_calls k
}.
#[export] Instance recorded_calls {K : Type} `{!EventPort K} : PortCalls (recorded K).
Proof.
  unshelve eapply (Build_PortCalls (recorded K) recorded_port rc_calls); intros * H; exact (noting_inv _ _ _ _ _ H).
Defined.
