(* ===== verification/NgxRearm.v ===== *)
(** * Edge mode of the nginx module: rearming

    The test whether a state is current, the rearm of classes, and the sweep of
    the queue of pending states. *)
From Stdlib Require Import String.
From S2P Require Import Prelude Codes Errno PosixTypes Lifecycle NgxTypes Nginx NgxEdge.

Section Rearm.
Context {K : Type} `{!EventPort K} `{!Nginx K} `{!PortLaws K} {G : geometry}.
Implicit Types (w : ngx_world K) (i : nat) (s : ngx_wepoll_connection_state_t).

(** ** Primitive steps *)

Lemma held_core Q l cnt w w' i s : calm core_of w w' -> books (but w i s) Q l cnt w -> books (but w' i s) Q l cnt w'.
Proof. intros Hc. by apply held_calm, calm_identity. Qed.

Lemma calm_refl {T} (f : ngx_event_t -> T) w : calm f w w.
Proof. by split. Qed.
Lemma calm_same {T} (f : ngx_event_t -> T) w w' :
  ngx_wepoll_cycle w' = ngx_wepoll_cycle w -> ngx_wepoll_states w' = ngx_wepoll_states w ->
  ngx_wepoll_state_count w' = ngx_wepoll_state_count w -> ngx_wepoll_pending_states w' = ngx_wepoll_pending_states w ->
  ngx_wepoll_edge_enabled w' = ngx_wepoll_edge_enabled w -> n_states w' = n_states w -> n_pending w' = n_pending w ->
  ngx_wepoll_pending_count w' = ngx_wepoll_pending_count w -> ep_ctxs (n_port w') ⊆ ep_ctxs (n_port w) ->
  n_connections w' = n_connections w -> (forall a, f <$> n_events w' !! a = f <$> n_events w !! a) -> calm f w w'.
Proof.
  intros H1 H2 H3 H4 H5 H6 H7 H8 H9 H10 H11. split; try done. intros [? ? ? ? ? ? ? Hd].
  split; try congruence. intros a Ha. apply Hd, elem_of_dom in Ha as [e Ha]. specialize (H11 a). rewrite Ha in H11.
  apply elem_of_dom. by destruct (n_events w' !! a).
Qed.

Lemma wp_log {T} (f : ngx_event_t -> T) level text numbers w : wp (ngx_log_error level text numbers) (fun _ w' => calm f w w') w.
Proof. eexists _, _. split; [done|]. by apply calm_same. Qed.
Lemma wp_log_errno {T} (f : ngx_event_t -> T) text fd w : wp (ngx_wepoll_log_errno text fd) (fun _ w' => calm f w w') w.
Proof. apply wp_bind, wp_get, wp_log. Qed.
Lemma wp_call_rearm {T} (f : ngx_event_t -> T) epfd fd classes w :
  wp (call (ep_rearm epfd fd classes)) (fun _ w' => calm f w w') w.
Proof.
  destruct (law_rearm epfd fd classes (n_port w)) as (r & k & Hr & Hk). exists r, (w <| n_port := k |>).
  split; [unfold call; by rewrite Hr|]. by apply calm_same.
Qed.
Lemma calm_event {T} (f : ngx_event_t -> T) a e e' w :
  n_events w !! a = Some e -> f e' = f e -> calm f w (w <| n_events := <[a := e']> (n_events w) |>).
Proof.
  intros He Hf. apply calm_same; try done. intros b. sget. destruct (decide (b = a)) as [->|Hne].
  - rewrite lookup_insert_eq, He. cbn. congruence.
  - by rewrite lookup_insert_ne.
Qed.
Lemma wp_event {T U} (f : ngx_event_t -> T) (h : ngx_event_t -> U) `{!Setter h} a e v w :
  n_events w !! a = Some e -> f (e <| h := v |>) = f e -> wp (wr n_events (Some a) h v) (fun _ w' => calm f w w') w.
Proof. intros He Hf. eapply wp_wr; [done|]. by eapply calm_event. Qed.

(** ** Current states *)

Definition bound w i s : Prop := ns_registered s = true -> ns_connection s = Some (cp i) /\ alive w (cp i) (ns_fd s) (ns_instance s).
Lemma bound_keep w w' i s : events_keep identity_of w w' -> bound w i s -> bound w' i s.
Proof. intros He Hb Hr. destruct (Hb Hr) as [H1 H2]. split; [done|]. by eapply alive_keep. Qed.

Lemma is_current_run Q l cnt w i s :
  books (but w i s) Q l cnt w -> (i < g_n)%nat -> bound w i s ->
  ngx_wepoll_state_is_current (Some (sp i)) w = Some (ns_registered s, w).
Proof.
  intros H Hi Hb. unfold ngx_wepoll_state_is_current.
  erewrite bind_some by (by eapply rd_some, held_lookup). cbn [id].
  destruct (ns_registered s) eqn:Er; [|done]. cbn [negb]. destruct (Hb Er) as [-> (k & r & e & rev & wev & Hv)].
  erewrite bind_some by (by eapply rd_some, lv_conn). cbn [id]. rewrite (lv_read _ _ _ _ _ _ _ _ _ Hv), (lv_write _ _ _ _ _ _ _ _ _ Hv).
  rewrite (lv_fd _ _ _ _ _ _ _ _ _ Hv), (proj2 (Z.eqb_neq _ _) (lv_valid _ _ _ _ _ _ _ _ _ Hv)), Z.eqb_refl. cbn [orb negb].
  erewrite bind_some by (by eapply rd_some, lv_rev). rewrite (lv_instance _ _ _ _ _ _ _ _ _ Hv), Z.eqb_refl. cbn [negb].
  unfold ngx_wepoll_state_for_connection. rewrite bind_some with (a := Some (sp i)) (w' := w); [by rewrite bool_decide_eq_true_2|].
  unfold get. by rewrite (state_of_cp w i (bk_globals _ _ _ _ _ H) Hi).
Qed.

(** ** Rearming classes *)

Lemma count_rearm_wp rearms `{!Setter rearms} side Q l cnt w i s c class classes :
  (forall w v, calm core_of w (w <| rearms := v |>)) ->
  (forall w', events_keep identity_of w w' -> exists a e, (side <$> n_connections w' !! c) = Some (Some a) /\ n_events w' !! a = Some e) ->
  books (but w i s) Q l cnt w -> (i < g_n)%nat ->
  wp (count_rearm rearms side (Some (sp i)) (Some c) class classes) (fun _ w' => calm core_of w w') w.
Proof.
  intros Hput Hside H Hi. unfold count_rearm. destruct (has classes class); [|by apply wp_ret, calm_refl].
  apply wp_bind, wp_get. apply wp_bind, wp_put. set (w1 := w <| rearms := _ |>). assert (Hc : calm core_of w w1) by apply Hput.
  pose proof (held_calm _ _ _ _ _ _ _ (calm_identity _ _ Hc) H) as H1.
  apply wp_bind. eapply wp_rd; [by eapply held_lookup|]. destruct (has (ns_interests s) class); [|by apply wp_ret].
  destruct (Hside w1 (cm_events _ _ _ (calm_identity _ _ Hc))) as (a & e & Hk & He).
  destruct (n_connections w1 !! c) as [k|] eqn:Ek; [|done]. injection Hk as Hk. apply wp_bind. eapply wp_rd; [done|]. rewrite Hk.
  eapply wp_mono; [by eapply (wp_event core_of)|]. intros [] w' Hw'. by eapply calm_trans.
Qed.

Lemma alive_side w c fd inst (side : ngx_connection_t -> ptr) : side = nc_read \/ side = nc_write -> alive w c fd inst ->
  forall w', events_keep identity_of w w' -> exists a e, (side <$> n_connections w' !! c) = Some (Some a) /\ n_events w' !! a = Some e.
Proof.
  intros Hs Ha w' He. destruct (alive_keep _ _ _ _ _ He Ha) as (k & r & e & rev & wev & [Hk _ _ Hr Hw Hrev Hwev _ _ _]).
  rewrite Hk. destruct Hs as [-> | ->]; [exists r, rev|exists e, wev]; cbn; by rewrite ?Hr, ?Hw.
Qed.

Definition rearmed (classes : Z) s : ngx_wepoll_connection_state_t :=
  s <| ns_disarmed := Z.ldiff (ns_disarmed s) classes |> <| ns_pending := Z.ldiff (ns_pending s) classes |>.

(** Only state [i] changed, to [s']. *)
Definition moved w w' i s' : Prop := events_keep core_of w w' /\ n_states w' = <[sp i := s']> (n_states w).

Lemma rearm_classes_wp Q l cnt w i s classes :
  books (but w i s) Q l cnt w -> (i < g_n)%nat -> bound w i s -> ns_registered s = true ->
  wp (ngx_wepoll_rearm_classes (Some (sp i)) classes) (fun r w' => exists s',
    moved w w' i s' /\ books (but w' i s') Q l cnt w' /\ (r = NGX_ERROR /\ s' = s \/ r = NGX_OK /\ s' = rearmed classes s)) w.
Proof.
  intros H Hi Hb Hr. unfold ngx_wepoll_rearm_classes. destruct (Z.eqb_spec classes 0) as [->|Hne].
  { apply wp_ret. exists s. split; [split; [done|]; symmetry; by eapply insert_id, held_lookup|]. split; [done|right]. split; [done|].
    unfold rearmed. rewrite !Z.ldiff_0_r. by destruct s. }
  apply wp_bind. eapply wp_rd; [by eapply held_lookup|]. apply wp_bind, wp_get. apply wp_bind. eapply wp_rd; [by eapply held_lookup|].
  destruct (Hb Hr) as [-> Ha]. eapply wp_seq; [apply (wp_call_rearm core_of)|]. intros r w1 Hc1.
  assert (H1 : books (but w1 i s) Q l cnt w1) by exact (held_core _ _ _ _ _ _ _ Hc1 H).
  destruct (r =? -1).
  { eapply wp_seq; [apply (wp_log_errno core_of)|]. intros [] w2 Hc2. apply wp_ret. pose proof (calm_trans _ _ _ _ Hc1 Hc2) as Hc.
    exists s. split; [split; [apply Hc|]|split; [exact (held_core _ _ _ _ _ _ _ Hc2 H1)|by left]].
    rewrite (cm_states _ _ _ Hc). symmetry. by eapply insert_id, held_lookup. }
  apply wp_bind. eapply wp_rd; [by eapply held_lookup|]. apply wp_bind. eapply wp_wr; [by eapply held_lookup|].
  set (w2 := w1 <| n_states := _ |>). eapply (held_set _ _ _ _ w2) in H1; [|done..].
  apply wp_bind. eapply wp_rd; [by eapply held_lookup|]. apply wp_bind. eapply wp_wr; [by eapply held_lookup|].
  set (w3 := w2 <| n_states := _ |>). eapply (held_set _ _ _ _ w3) in H1; [|done..].
  change (books (but w3 i (rearmed classes s)) Q l cnt w3) in H1.
  assert (He3 : events_keep core_of w w3) by exact (cm_events _ _ _ Hc1).
  assert (Ha3 : alive w3 (cp i) (ns_fd s) (ns_instance s)) by (eapply alive_keep; [by apply events_keep_identity|done]).
  eapply wp_seq; [eapply count_rearm_wp; [| |done|done]|].
  { intros w' v. by apply calm_same. } { eapply alive_side; [by left|done]. }
  intros [] w4 Hc4. pose proof (held_core _ _ _ _ _ _ _ Hc4 H1) as H4.
  eapply wp_seq; [eapply count_rearm_wp; [| |done|done]|].
  { intros w' v. by apply calm_same. } { eapply alive_side; [by right|]. eapply alive_keep; [by apply (calm_identity _ _ Hc4)|done]. }
  intros [] w5 Hc5. apply wp_ret. exists (rearmed classes s). split; [split|].
  - eapply events_keep_trans; [done|]. eapply events_keep_trans; [apply Hc4|apply Hc5].
  - rewrite (cm_states _ _ _ Hc5), (cm_states _ _ _ Hc4). unfold w3, w2. sget. by rewrite insert_insert_eq, (cm_states _ _ _ Hc1).
  - split; [exact (held_core _ _ _ _ _ _ _ Hc5 H4)|by right].
Qed.

(** ** Class bits *)

Lemma below4 z : 0 <= z < 4 -> z = 0 \/ z = 1 \/ z = 2 \/ z = 3.
Proof. lia. Qed.
Lemma below8 z : 0 <= z < 8 -> 0 <= z < 4 \/ exists y, 0 <= y < 4 /\ z = 4 + y.
Proof. intros H. destruct (decide (z < 4)); [left; lia|]. right. exists (z - 4). lia. Qed.

Lemma has_land (d i c : Z) : has (Z.land d i) c = true -> has i c = true.
Proof. unfold has. rewrite !negb_true_iff, !Z.eqb_neq. intros H Hz. apply H. by rewrite <- Z.land_assoc, Hz, Z.land_0_r. Qed.
Lemma ldiff_land (d i c : Z) : Z.ldiff (Z.land d i) c = Z.land (Z.ldiff d c) i.
Proof. apply Z.bits_inj'. intros n Hn. rewrite !Z.ldiff_spec, !Z.land_spec, Z.ldiff_spec. by destruct (Z.testbit d n), (Z.testbit i n), (Z.testbit c n). Qed.
Lemma ldiff_below8 d c : 0 <= d < 8 -> 0 <= c < 4 -> 0 <= Z.ldiff d c < 8.
Proof. intros [Hd|(y & Hd & ->)]%below8 Hc%below4; apply below4 in Hd; repeat destruct Hd as [->|Hd]; try subst; repeat destruct Hc as [->|Hc]; try subst; vm_compute; split; congruence. Qed.
Lemma pending_below4 (d i : Z) : 0 <= d < 8 -> 0 <= i < 4 -> 0 <= Z.land d i < 4.
Proof.
  intros Hd Hi. split; [apply Z.land_nonneg; lia|]. apply Z.log2_lt_cancel. change (Z.log2 4) with 2.
  assert (Hl : Z.log2 (Z.land d i) <= Z.min (Z.log2 d) (Z.log2 i)) by (apply Z.log2_land; lia).
  assert (Z.log2 i <= Z.log2 3) by (apply Z.log2_le_mono; lia). change (Z.log2 3) with 1 in *. lia.
Qed.

(** How the class words move together. *)
Lemma agree_below4 E (p d i : Z) : 0 <= d < 8 -> 0 <= i < 4 -> agree E p d i -> 0 <= p < 4.
Proof.
  intros Hd Hi [Hp _]. assert (Hq : Z.land (Z.land d i) 3 = Z.land d i) by (by destruct (below4 _ (pending_below4 _ _ Hd Hi)) as [->|[->|[->| ->]]]).
  assert (H3 : Z.land p (Z.ones 2) = p) by (change (Z.ones 2) with 3; by rewrite <- Hp, <- Z.land_assoc, Hq at 1).
  rewrite Z.land_ones in H3 by done. pose proof (Z.mod_pos_bound p (2 ^ 2)). lia.
Qed.
Lemma agree_has E (p d i c : Z) : agree E p d i -> has p c = true -> has i c = true.
Proof. intros [<- _]. rewrite Z.land_assoc. apply has_land. Qed.
Lemma agree_idle E (p i : Z) : agree E p 0 i -> p = 0.
Proof. intros [<- _]. by rewrite Z.land_0_l, Z.land_0_r. Qed.
Lemma agree_zero E (i : Z) : agree E 0 0 i.
Proof. done. Qed.
Lemma agree_ldiff E (p d i c : Z) : agree E p d i -> agree E (Z.ldiff p c) (Z.ldiff d c) i.
Proof.
  intros [Hp He]. split; [|intros H; by rewrite (He H), ldiff_land].
  apply Z.bits_inj'. intros n Hn. pose proof (f_equal (fun z => Z.testbit z n) Hp) as Hb. cbv beta in Hb.
  rewrite !Z.land_spec, !Z.ldiff_spec in *. by destruct (Z.testbit p n), (Z.testbit d n), (Z.testbit i n), (Z.testbit c n).
Qed.
Lemma agree_widen E (p d i m : Z) : agree E p d i -> agree False p d (Z.lor i m).
Proof.
  intros [Hp _]. split; [|done]. apply Z.bits_inj'. intros n Hn. pose proof (f_equal (fun z => Z.testbit z n) Hp) as Hb.
  cbv beta in Hb. rewrite !Z.land_spec in *. rewrite Z.lor_spec. by destruct (Z.testbit p n), (Z.testbit d n), (Z.testbit i n), (Z.testbit m n).
Qed.

(** The classes to rearm for two idle flags. *)
Definition idle_classes (p : Z) (a b : bool) : Z :=
  let classes := if has p WEPOLL_EX_REARM_READ && a then Z.lor 0 WEPOLL_EX_REARM_READ else 0 in
  if has p WEPOLL_EX_REARM_WRITE && b then Z.lor classes WEPOLL_EX_REARM_WRITE else classes.
Lemma idle_classes_spec p a b : 0 <= p < 4 ->
  0 <= idle_classes p a b < 4 /\
  (has (Z.ldiff p (idle_classes p a b)) WEPOLL_EX_REARM_READ = true -> a = false) /\
  (has (Z.ldiff p (idle_classes p a b)) WEPOLL_EX_REARM_WRITE = true -> b = false).
Proof. intros Hp%below4. destruct a, b; repeat destruct Hp as [->|Hp]; try subst; vm_compute; repeat split; congruence. Qed.

(** ** Rearming a state *)

(** The event of a side is posted or not drained yet. *)
Definition busy w (c : addr) (side : ngx_connection_t -> ptr) : Prop :=
  exists k a e, n_connections w !! c = Some k /\ side k = Some a /\ n_events w !! a = Some e /\ ne_posted e || ne_ready e = true.
(** Whatever is still pending waits for nginx. *)
Definition settled w i s : Prop :=
  (has (ns_pending s) WEPOLL_EX_REARM_READ = true -> busy w (cp i) nc_read) /\
  (has (ns_pending s) WEPOLL_EX_REARM_WRITE = true -> busy w (cp i) nc_write).

Lemma busy_keep w w' c side : events_keep core_of w w' -> busy w c side -> busy w' c side.
Proof.
  intros [Hc He] (k & a & e & H1 & H2 & H3 & H4). specialize (He a). rewrite H3 in He.
  destruct (n_events w' !! a) as [e'|] eqn:E; [|done]. injection He as Ha Hb Hp Hr. exists k, a, e'. rewrite Hc. split_and!; try done. congruence.
Qed.
Lemma settled_keep w w' i s : events_keep core_of w w' -> settled w i s -> settled w' i s.
Proof. intros He [H1 H2]. split; intros H; (eapply busy_keep; [done|auto]). Qed.

Lemma rearmed_ok w i s classes : st_ok w i s -> 0 <= classes < 4 -> st_ok w i (rearmed classes s).
Proof.
  intros [Hb Hi Hd Hp Hf Hq] Hc. unfold rearmed. split; sget; [done|done|by apply ldiff_below8|by apply agree_ldiff| |].
  - intros Hr. destruct (Hf Hr) as [H1 H2]. rewrite H2, Z.ldiff_0_l. auto.
  - intros Hne. apply Hq. intros Hz. apply Hne. by rewrite Hz, Z.ldiff_0_l.
Qed.

Lemma rearm_side_run Q l cnt w i s a e class classes :
  books (but w i s) Q l cnt w -> (i < g_n)%nat -> st_ok w i s -> n_events w !! a = Some e -> ne_closed e = false ->
  rearm_side (Some (sp i)) (Some a) class classes w =
    Some (if has (ns_pending s) class && (negb (ne_posted e) && negb (ne_ready e)) then Z.lor classes class else classes, w).
Proof.
  intros H Hi Hok He Hcl. unfold rearm_side. erewrite bind_some by (by eapply rd_some, held_lookup). cbn [id].
  destruct (has (ns_pending s) class) eqn:Ep; [|done]. erewrite bind_some by (by apply rd_some). cbn [id andb].
  rewrite (agree_has _ _ _ _ _ (so_pending _ _ _ Hok) Ep), Hcl. done.
Qed.

Lemma rearm_ready_wp Q l cnt w i s :
  books (but w i s) Q l cnt w -> (i < g_n)%nat -> st_ok w i s ->
  wp (ngx_wepoll_rearm_ready_state (Some (sp i))) (fun r w' => exists s',
    moved w w' i s' /\ books (but w' i s') Q l cnt w' /\ st_ok w' i s' /\ (r = NGX_OK -> settled w' i s')) w.
Proof.
  intros H Hi Hok. unfold ngx_wepoll_rearm_ready_state. pose proof (so_bound _ _ _ Hok) as Hb.
  apply wp_bind. eapply wp_run; [by eapply is_current_run|].
  destruct (ns_registered s) eqn:Er; cbn [negb].
  - destruct (Hb eq_refl) as [Hc (k & r & e & rev & wev & Hv)].
    apply wp_bind. eapply wp_rd; [by eapply held_lookup|]. rewrite Hc.
    apply wp_bind. eapply wp_rd; [by eapply lv_conn|]. rewrite (lv_read _ _ _ _ _ _ _ _ _ Hv).
    apply wp_bind. eapply wp_rd; [by eapply lv_conn|]. rewrite (lv_write _ _ _ _ _ _ _ _ _ Hv).
    apply wp_bind. eapply wp_run; [eapply rearm_side_run; [done|done|done|by eapply lv_rev|apply Hv]|].
    apply wp_bind. eapply wp_run; [eapply rearm_side_run; [done|done|done|by eapply lv_wev|apply Hv]|].
    fold (idle_classes (ns_pending s) (negb (ne_posted rev) && negb (ne_ready rev)) (negb (ne_posted wev) && negb (ne_ready wev))).
    destruct (idle_classes_spec (ns_pending s) (negb (ne_posted rev) && negb (ne_ready rev)) (negb (ne_posted wev) && negb (ne_ready wev)))
      as (Hlt & HR & HW); [eapply agree_below4; apply Hok|].
    set (classes := idle_classes _ _ _) in *. eapply wp_mono; [eapply rearm_classes_wp; [done|done|exact (so_bound _ _ _ Hok)|done]|]. cbv beta.
    intros x w' (s' & [He' Hs'] & H' & Hx). pose proof (st_ok_keep _ _ _ _ (events_keep_identity _ _ He') Hok) as Hok'.
    exists s'. split; [by split|]. split; [done|]. destruct Hx as [[-> ->]|[-> ->]]; [split; [done|intros [=]]|].
    + split; [by apply rearmed_ok|]. intros _. eapply settled_keep; [done|].
      split; sget; intros Hh; [apply HR in Hh|apply HW in Hh]; (eexists k, _, _; split; [by eapply lv_conn|]; split; [apply Hv|]; split; [apply Hv|]);
      rewrite <- negb_orb, negb_false_iff in Hh; exact Hh.
  - apply wp_bind. eapply wp_wr; [by eapply held_lookup|]. apply wp_ret. exists (s <| ns_pending := 0 |>). split; [done|].
    split; [by eapply held_set|]. destruct (so_free _ _ _ Hok Er) as [H1 H2]. split; [|by intros _].
    apply (st_ok_keep w); [done|]. split; sget; try apply Hok; [|done]. rewrite H2. apply agree_zero.
Qed.

(** ** The sweep *)

Lemma pending_get_run Q l cnt w P i p : books P Q l cnt w -> l !! i = Some p -> pending_get (Z.of_nat i) w = Some (p, w).
Proof.
  intros H Hp. unfold pending_get. rewrite bind_some with (a := Some g_array) (w' := w); [|unfold get; by rewrite (gl_array _ (bk_globals _ _ _ _ _ H))].
  erewrite bind_some by (eapply rd_some, bk_array, H). cbn [id]. by rewrite Nat2Z.id, Hp.
Qed.
Lemma pending_set_run Q l cnt w P i p : books P Q l cnt w -> (i < g_n)%nat ->
  pending_set (Z.of_nat i) p w = Some (tt, w <| n_pending := <[g_array := <[i := p]> l]> (n_pending w) |>).
Proof.
  intros H Hi. unfold pending_set. rewrite bind_some with (a := Some g_array) (w' := w); [|unfold get; by rewrite (gl_array _ (bk_globals _ _ _ _ _ H))].
  erewrite bind_some by (eapply rd_some, bk_array, H). cbn [id]. rewrite (bk_length _ _ _ _ _ H).
  rewrite (proj2 (Z.ltb_ge _ _)), (proj2 (Z.leb_gt _ _)) by lia. cbn [orb]. rewrite Nat2Z.id. eapply st_some, bk_array, H.
Qed.

(** Every state in [Q] that is still pending waits for nginx. *)
Definition all_settled w (Q : list ptr) : Prop :=
  forall j s, (j < g_n)%nat -> Some (sp j) ∈ Q -> n_states w !! sp j = Some s -> settled w j s.
Lemma all_settled_moved w w' i s' Q : moved w w' i s' -> Some (sp i) ∉ Q -> all_settled w Q -> all_settled w' Q.
Proof.
  intros [He Hs] Hn H j s Hj HQ Hl. rewrite Hs in Hl. destruct (decide (j = i)) as [->|Hne]; [done|].
  rewrite lookup_insert_ne in Hl by (intros ?%sp_inj; congruence). eapply settled_keep; [done|by eapply H].
Qed.

Lemma keep_queue (l : list ptr) (r i cnt : nat) p :
  (r <= i)%nat -> (i < cnt)%nat -> l !! i = Some p ->
  take r l ++ drop i (take cnt l) = take (S r) (<[r := p]> l) ++ drop (S i) (take cnt (<[r := p]> l)).
Proof.
  intros Hr Hi Hp. assert (Hlen : (i < length l)%nat) by (by eapply lookup_lt_Some).
  rewrite (drop_S (take cnt l) p i) by (by rewrite lookup_take_lt).
  rewrite (take_S_r (<[r := p]> l) r p) by (apply list_lookup_insert_eq; lia). rewrite take_insert_ge by lia.
  rewrite <- app_assoc. cbn [app]. do 2 f_equal. rewrite take_insert_lt by lia. by rewrite drop_insert_lt by lia.
Qed.

(** One iteration. *)
Lemma sweep_step (ok : Prop) (r i : nat) l cnt w p :
  let Q := take r l ++ drop i (take (Z.to_nat cnt) l) in
  books (st_ok w) Q l cnt w -> 0 <= cnt <= Z.of_nat g_n -> (r <= i)%nat -> (i < Z.to_nat cnt)%nat -> l !! i = Some p -> (ok -> all_settled w (take r l)) ->
  forall k : Z -> bool -> NM K (Z * Z), forall Φ,
  (forall res w', events_keep core_of w w' ->
     (books (st_ok w') (take (S r) (<[r := p]> l) ++ drop (S i) (take (Z.to_nat cnt) (<[r := p]> l))) (<[r := p]> l) cnt w' /\
      (ok -> res = NGX_OK -> all_settled w' (take (S r) (<[r := p]> l))) -> wp (k res true) Φ w') /\
     (books (st_ok w') (take r l ++ drop (S i) (take (Z.to_nat cnt) l)) l cnt w' /\ (ok -> all_settled w' (take r l)) -> wp (k res false) Φ w')) ->
  wp (r1 <- ngx_wepoll_rearm_ready_state p ;;
      pending <- rd n_states p ns_pending ;;
      current <- (if negb (pending =? 0) then ngx_wepoll_state_is_current p else ret false) ;;
      if current : bool then pending_set (Z.of_nat r) p ;; k r1 true
      else wr n_states p ns_queued false ;; k r1 false) Φ w.
Proof.
  intros Q HB Hcnt Hri Hi Hp Hset k Φ Hk.
  assert (HQ : Q = take r l ++ p :: drop (S i) (take (Z.to_nat cnt) l)) by (unfold Q; by rewrite (drop_S _ p i) by (by rewrite lookup_take_lt)).
  assert (HpQ : p ∈ Q) by (rewrite HQ; set_solver). destruct (bk_queue _ _ _ _ _ HB p HpQ) as (j & Hj & ->).
  pose proof (bk_nodup _ _ _ _ _ HB) as Hnd. rewrite HQ in Hnd. apply NoDup_app in Hnd as (Hn1 & Hn2 & [Hn4 Hn3]%NoDup_cons).
  assert (Hjr : Some (sp j) ∉ take r l) by (intros Hx; by apply (Hn2 _ Hx); left).
  destruct (books_open _ _ _ _ _ HB Hj) as (s & HB1 & Hok). eapply wp_seq; [by eapply rearm_ready_wp|].
  intros res w1 (s1 & Hm & HB2 & Hok1 & Hs1). pose proof (fun H => all_settled_moved _ _ _ _ _ Hm Hjr (Hset H)) as Hset1.
  apply wp_bind. eapply wp_rd; [by eapply held_lookup|]. destruct (Z.eqb_spec (ns_pending s1) 0) as [Hz|Hz]; cbn [negb].
  - apply wp_bind, wp_ret. apply wp_bind. eapply wp_wr; [by eapply held_lookup|]. set (w2 := w1 <| n_states := _ |>).
    destruct (Hk res w2 (proj1 Hm)) as [_ Hk2]. apply Hk2. split.
    + eapply (books_close _ _ _ _ j (s1 <| ns_queued := false |>)).
      * eapply held_write; [exact HB2|done|..]; unfold w2; sget; try done; [intros [? ? ? ? ? ? ? ?]; by split|apply HB2|apply HB2|set_solver| |].
        { apply NoDup_app. split_and!; [done| |done]. intros x Hx Hx'. apply (Hn2 x Hx). by right. }
        intros x. rewrite HQ, !elem_of_app, elem_of_cons. split; [|naive_solver].
        intros [Hx|Hx]; left; (split; [naive_solver|congruence]).
      * apply (st_ok_keep w1); [done|]. split; sget; try apply Hok1. done.
    + intros Hgo j' s' Hj' Hin Hl. eapply Hset1; [done|done|done|]. unfold w2 in Hl. sget_in Hl.
      rewrite lookup_insert_ne in Hl; [done|]. intros ?%sp_inj. congruence.
  - apply wp_bind. eapply wp_run; [eapply is_current_run; [done|done|exact (so_bound _ _ _ Hok1)]|].
    destruct (ns_registered s1) eqn:Er; [|destruct (so_free _ _ _ Hok1 Er) as [_ Hd]; pose proof (so_pending _ _ _ Hok1) as Hp1; rewrite Hd in Hp1; by apply agree_idle in Hp1].
    apply wp_bind. eapply wp_run; [eapply pending_set_run; [done|lia]|]. set (w2 := w1 <| n_pending := _ |>).
    destruct (Hk res w2 (proj1 Hm)) as [Hk1 _]. apply Hk1. pose proof (books_close _ _ _ _ _ _ HB2 Hok1) as HB3. split.
    + rewrite <- keep_queue by done. fold Q. destruct HB3 as [Hg3 Hst3 ? Hlen ? ? ? ?]. split; unfold w2; sget; try done.
      * destruct Hg3. by split.
      * intros i' Hi'. destruct (Hst3 i' Hi') as (s' & ? & ? & ?). exists s'. split; [done|]. split; [|done]. by apply (st_ok_keep w1).
      * by rewrite lookup_insert_eq.
      * by rewrite length_insert.
    + intros Hgo Hres j' s' Hj' Hin Hl. assert (Hlr : (r < length l)%nat) by (apply lookup_lt_Some in Hp; lia).
      rewrite (take_S_r _ r (Some (sp j))) in Hin by (by apply list_lookup_insert_eq). rewrite take_insert_ge in Hin by done.
      change (n_states w2) with (n_states w1) in Hl. apply elem_of_app in Hin as [Hin|[= ->%sp_inj]%list_elem_of_singleton].
      * exact (Hset1 Hgo j' s' Hj' Hin Hl).
      * rewrite (held_lookup _ _ _ _ _ _ HB2 Hj) in Hl. injection Hl as <-. exact (Hs1 Hres).
Qed.

Lemma sweep_loop_wp n : forall (i r : nat) l cnt result w,
  books (st_ok w) (take r l ++ drop i (take (Z.to_nat cnt) l)) l cnt w -> 0 <= cnt <= Z.of_nat g_n ->
  (r <= i)%nat -> (i + n = Z.to_nat cnt)%nat -> (result = NGX_OK -> all_settled w (take r l)) ->
  wp (sweep_loop n (Z.of_nat i) (Z.of_nat r) result) (fun x w' => exists l' r', x.1 = Z.of_nat r' /\ (r' <= Z.to_nat cnt)%nat /\
    books (st_ok w') (take r' l') l' cnt w' /\ (x.2 = NGX_OK -> all_settled w' (take r' l'))) w.
Proof.
  induction n as [|n IH]; intros i r l cnt result w HB Hcnt Hri Hn Hset.
  { apply wp_ret. exists l, r. cbn [fst snd]. rewrite drop_ge, app_nil_r in HB by (rewrite length_take; lia).
    split_and!; [done|lia|done|done]. }
  assert (Hlen : length l = g_n) by apply HB.
  destruct (lookup_lt_is_Some_2 l i) as [p Hp]; [lia|]. cbn [sweep_loop]. apply wp_bind.
  eapply wp_run; [by eapply pending_get_run|].
  refine (sweep_step (result = NGX_OK) r i l cnt w p HB Hcnt Hri _ Hp Hset
            (fun r1 b => sweep_loop n (Z.of_nat i + 1) (if b then Z.of_nat r + 1 else Z.of_nat r) (if negb (r1 =? NGX_OK) then NGX_ERROR else result)) _ _); [lia|].
  intros res w' _. replace (Z.of_nat i + 1) with (Z.of_nat (S i)) by lia. replace (Z.of_nat r + 1) with (Z.of_nat (S r)) by lia.
  assert (Hres : forall P : Prop, (result = NGX_OK -> res = NGX_OK -> P) -> (if negb (res =? NGX_OK) then NGX_ERROR else result) = NGX_OK -> P)
    by (intros P HP; destruct (Z.eqb_spec res NGX_OK); cbn [negb]; [by auto|done]).
  split; intros [HB' Hs']; (eapply IH; [exact HB'|done|lia|lia|by apply Hres; auto]).
Qed.

(** The sweep keeps the table; if it succeeds every class that is still pending
    waits for nginx. *)
Lemma sweep_wp w : edge_inv w ->
  wp ngx_wepoll_sweep_pending_states (fun r w' => edge_inv w' /\ (r = NGX_OK -> forall i s, (i < g_n)%nat -> n_states w' !! sp i = Some s -> settled w' i s)) w.
Proof.
  intros (l & cnt & Hcnt & HB). unfold ngx_wepoll_sweep_pending_states. apply wp_bind, wp_get. rewrite (bk_count _ _ _ _ _ HB).
  eapply wp_seq; [apply (sweep_loop_wp _ 0 0 l cnt NGX_OK); [by rewrite take_0, drop_0|done|lia|lia|]|].
  { intros _ j s _ Hin. by apply elem_of_nil in Hin. }
  intros [retained result] w' (l' & r' & Hr & Hle & HB' & Hs'). cbn [fst snd] in *. subst retained. apply wp_bind, wp_put, wp_ret.
  set (w2 := w' <| ngx_wepoll_pending_count := _ |>). split.
  - exists l', (Z.of_nat r'). split; [lia|]. rewrite Nat2Z.id. destruct HB' as [Hg Hst ? ? ? ? ? ?]. split; try done; [destruct Hg; by split|].
    intros i Hi. destruct (Hst i Hi) as (s & ? & ? & ?). exists s. split; [done|]. split; [|done]. by apply (st_ok_keep w').
  - intros Hres i s Hi Hl. change (n_states w' !! sp i = Some s) in Hl. destruct (bk_states _ _ _ _ _ HB' i Hi) as (s' & Hl' & Hok & Hq).
    assert (s' = s) as -> by congruence. destruct (decide (ns_pending s = 0)) as [Hz|Hz].
    { split; rewrite Hz; intros [=]. }
    apply (settled_keep w'); [done|]. apply (Hs' Hres); [done| |done]. apply Hq. by apply (so_queued _ _ _ Hok).
Qed.
End Rearm.

(** Statements over all class words, by cases. *)
Ltac by_classes Hi Hd Hp :=
  apply below4 in Hi; apply below8 in Hd; apply below4 in Hp;
  destruct Hd as [Hd|(? & Hd & ->)]; apply below4 in Hd;
  repeat destruct Hi as [->|Hi]; try subst; repeat destruct Hd as [->|Hd]; try subst; repeat destruct Hp as [->|Hp]; try subst;
  vm_compute; intros; repeat match goal with |- _ /\ _ => split | |- _ -> _ => intro end;
  first [reflexivity | discriminate | exfalso; match goal with H : ?E -> _ = _, H' : ?E |- _ => discriminate (H H') end].
