(* ===== verification/NgxOps.v ===== *)
(** * Edge mode of the nginx module: registration and removal

    Adding and removing events and connections keep the bookkeeping. *)
From Stdlib Require Import String.
From S2P Require Import Prelude Codes Errno PosixTypes Lifecycle NgxTypes Nginx NgxEdge NgxRearm.

Section Ops.
Context {K : Type} `{!EventPort K} `{!Nginx K} `{!PortLaws K} {G : geometry}.
Implicit Types (w : ngx_world K) (i : nat) (s : ngx_wepoll_connection_state_t).

(** A connection with both events; open if neither event is closed. *)
Definition present w (c : addr) : Prop :=
  exists k r e, n_connections w !! c = Some k /\ nc_read k = Some r /\ nc_write k = Some e /\
    is_Some (n_events w !! r) /\ is_Some (n_events w !! e).
Definition opened w (c : addr) : Prop :=
  exists k r e rev wev, n_connections w !! c = Some k /\ nc_read k = Some r /\ nc_write k = Some e /\
    n_events w !! r = Some rev /\ n_events w !! e = Some wev /\ ne_closed rev = false /\ ne_closed wev = false /\
    r ∈ g_events /\ e ∈ g_events.

Lemma opened_present w c : opened w c -> present w c.
Proof. intros (k & r & e & rev & wev & ? & ? & ? & ? & ? & _). exists k, r, e. eauto 10. Qed.
Lemma keep_is_Some {T} (f : ngx_event_t -> T) w w' a : events_keep f w w' -> is_Some (n_events w !! a) -> is_Some (n_events w' !! a).
Proof. intros [_ He] Ha. specialize (He a). destruct (n_events w !! a), (n_events w' !! a); cbn in He; try done. Qed.
Lemma present_keep {T} (f : ngx_event_t -> T) w w' c : events_keep f w w' -> present w c -> present w' c.
Proof.
  intros He (k & r & e & H1 & H2 & H3 & H4 & H5). exists k, r, e. rewrite (proj1 He).
  split_and!; try done; by eapply keep_is_Some.
Qed.
Lemma opened_keep w w' c : events_keep identity_of w w' -> opened w c -> opened w' c.
Proof.
  intros [Hc He] (k & r & e & rev & wev & H1 & H2 & H3 & H4 & H5 & H6 & H7 & H8).
  pose proof (He r) as Hr. pose proof (He e) as Hw. rewrite H4 in Hr. rewrite H5 in Hw.
  destruct (n_events w' !! r) as [rev'|] eqn:E1; [|done]. destruct (n_events w' !! e) as [wev'|] eqn:E2; [|done].
  injection Hr as Ha Hb. injection Hw as Ha' Hb'. exists k, r, e, rev', wev'. rewrite Hc. split_and!; try done; congruence || apply H8.
Qed.

(** ** Parts of the operations *)

Lemma wp_active w a b : is_Some (n_events w !! a) -> wp (set_active (Some a) b) (fun _ w' => calm core_of w w') w.
Proof. intros [e He]. by eapply (wp_event core_of). Qed.
(** [c->read->active = b; c->write->active = b]. *)
Lemma wp_both {A} w c b (k : NM K A) Φ :
  present w c -> (forall w', calm core_of w w' -> wp k Φ w') ->
  wp (read <- rd n_connections (Some c) nc_read ;; set_active read b ;;
      write <- rd n_connections (Some c) nc_write ;; set_active write b ;; k) Φ w.
Proof.
  intros (x & r & e & H1 & H2 & H3 & H4 & H5) Hk. apply wp_bind. eapply wp_rd; [done|]. rewrite H2.
  eapply wp_seq; [by apply wp_active|]. intros [] w1 Hc1. apply wp_bind.
  eapply wp_rd; [by rewrite (proj1 (cm_events _ _ _ Hc1))|]. rewrite H3.
  eapply wp_seq; [apply wp_active; eapply keep_is_Some; [apply Hc1|done]|]. intros [] w2 Hc2. apply Hk. by eapply calm_trans.
Qed.

Lemma wp_ctl Q l cnt w i s epfd op fd ev ctx :
  books (but w i s) Q l cnt w -> (i < g_n)%nat -> ctx = Zpos (sp i) \/ ctx = 0 ->
  wp (call (ep_ctl_ctx epfd op fd ev ctx)) (fun r w' => books (but w' i s) Q l cnt w' /\ events_keep core_of w w' /\
    (op = EPOLL_CTL_ADD -> fd = INVALID_SOCKET -> r = -1)) w.
Proof.
  intros H Hi Hctx. destruct (law_ctl epfd op fd ev ctx (n_port w)) as (r & k & Hr & Hk & Hv). exists r, (w <| n_port := k |>).
  split; [unfold call; by rewrite Hr|]. split_and!; [|done|done]. pose proof H as [Hg ? Ha ? Hc Hn ? ?].
  eapply held_write; [exact H|done|..]; sget; try done; [intros [? ? ? ? ? ? ? ?]; by split| | |].
  - symmetry. by eapply insert_id, held_lookup.
  - etrans; [exact Hk|]. destruct Hctx as [-> | ->]; set_solver.
  - intros p. rewrite (held_queued _ _ _ _ _ _ H Hi). destruct (decide (p = Some (sp i))); naive_solver.
Qed.

Lemma event_data_run w c : present w c -> exists d, ngx_wepoll_event_data (Some c) w = Some (d, w).
Proof.
  intros (k & r & e & H1 & H2 & _ & [rev H4] & _). eexists. unfold ngx_wepoll_event_data.
  erewrite bind_some by by apply rd_some. rewrite H2. by erewrite bind_some by by apply rd_some.
Qed.

(** The state is bound to the connection as it is. *)
Definition ready_to_register w i s : Prop :=
  ns_connection s = Some (cp i) /\
  exists k r e rev wev, n_connections w !! cp i = Some k /\ nc_read k = Some r /\ nc_write k = Some e /\
    n_events w !! r = Some rev /\ n_events w !! e = Some wev /\ ne_closed rev = false /\ ne_closed wev = false /\
    r ∈ g_events /\ e ∈ g_events /\ ns_fd s = nc_fd k /\ ns_instance s = Z.b2z (ne_instance rev).

Lemma register_wp Q l cnt w i s :
  books (but w i s) Q l cnt w -> (i < g_n)%nat -> st_ok w i s -> ns_registered s = false -> ready_to_register w i s ->
  wp (ngx_wepoll_register_edge_connection (Some (sp i)) (Some (cp i))) (fun r w' => exists s',
    events_keep core_of w w' /\ books (but w' i s') Q l cnt w' /\ st_ok w' i s' /\ (r = NGX_OK -> ns_registered s' = true)) w.
Proof.
  intros H Hi Hok Hr (Hcn & k & r & e & rev & wev & H1 & H2 & H3 & H4 & H5 & H6 & H7 & H8 & H9 & H10 & H11).
  unfold ngx_wepoll_register_edge_connection.
  destruct (event_data_run w (cp i)) as [d Hd]; [exists k, r, e; eauto 10|]. apply wp_bind. eapply wp_run; [exact Hd|].
  apply wp_bind, wp_get. apply wp_bind. eapply wp_rd; [done|].
  eapply wp_seq; [eapply wp_ctl; [done|done|by left]|]. intros x w1 (HB1 & He1 & Hv1).
  destruct (Z.eqb_spec x (-1)) as [->|Hx].
  { eapply wp_seq; [apply (wp_log_errno core_of)|]. intros [] w2 Hc2. apply wp_ret. exists s.
    split; [by eapply events_keep_trans; [|apply Hc2]|]. split; [exact (held_core _ _ _ _ _ _ _ Hc2 HB1)|]. split; [|intros [=]].
    apply (st_ok_keep w); [|done]. apply events_keep_identity. by eapply events_keep_trans; [|apply Hc2]. }
  do 3 (apply wp_bind; eapply wp_wr; [by eapply held_lookup|];
        match goal with |- wp _ _ ?w' => eapply (held_set _ _ _ _ w') in HB1; [|done..] end).
  apply wp_ret. eexists. split; [exact He1|]. split; [exact HB1|]. split; [|done].
  match goal with |- st_ok ?w' _ _ => apply (st_ok_keep w); [by apply events_keep_identity|] end.
  destruct (so_free _ _ _ Hok Hr) as [Hi0 Hd0]. split; sget; try done; [|apply Hok].
  intros _. split; [done|]. exists k, r, e, rev, wev. split; try done. rewrite H10. intros Hinv. apply Hx. auto.
Qed.

(** A new or returning connection finds its state, fresh or already registered. *)
Lemma prepare_wp Q l cnt w c :
  books (st_ok w) Q l cnt w -> opened w c ->
  wp (ngx_wepoll_prepare_state (Some c)) (fun p w' => events_keep core_of w w' /\
    ((p = None /\ books (st_ok w') Q l cnt w') \/
     exists i s, (i < g_n)%nat /\ c = cp i /\ p = Some (sp i) /\ books (but w' i s) Q l cnt w' /\ st_ok w' i s /\ ready_to_register w' i s)) w.
Proof.
  intros HB (k & r & e & rev & wev & H1 & H2 & H3 & H4 & H5 & H6 & H7 & H8 & H9). unfold ngx_wepoll_prepare_state.
  assert (Hlog : forall t n, wp (ngx_log_error NGX_LOG_ALERT t n ;; ret NULL) (fun p w' => events_keep core_of w w' /\
    ((p = None /\ books (st_ok w') Q l cnt w') \/
     exists i s, (i < g_n)%nat /\ c = cp i /\ p = Some (sp i) /\ books (but w' i s) Q l cnt w' /\ st_ok w' i s /\ ready_to_register w' i s)) w).
  { intros t n. eapply wp_seq; [apply (wp_log core_of)|]. intros [] w1 Hc. apply wp_ret. split; [apply Hc|left]. split; [done|].
    eapply ok_calm; [by apply calm_identity|done]. }
  apply wp_bind, wp_get. destruct (state_of w (Some c)) as [a|] eqn:Ea; [|apply wp_bind; eapply wp_rd; [done|]; apply Hlog].
  destruct (state_of_inv _ _ _ (bk_globals _ _ _ _ _ HB) Ea) as (i & Hi & -> & [= ->]). rewrite bool_decide_eq_false_2 by done.
  destruct (books_open _ _ _ _ _ HB Hi) as (s & HB1 & Hok). apply wp_bind. eapply wp_rd; [by eapply held_lookup|]. cbn [id].
  destruct (ns_registered s) eqn:Er.
  - apply wp_bind. eapply wp_rd; [done|]. apply wp_bind. eapply wp_rd; [done|]. rewrite H2. apply wp_bind. eapply wp_rd; [done|].
    case_bool_decide as Hc1; cbn [orb]; [apply Hlog|].
    destruct (Z.eqb_spec (ns_fd s) (nc_fd k)) as [Hf|]; cbn [orb negb]; [|apply Hlog].
    destruct (Z.eqb_spec (ns_instance s) (Z.b2z (ne_instance rev))) as [Hin|]; cbn [orb negb]; [|apply Hlog].
    apply wp_ret. split; [done|right]. exists i, s. refine (conj Hi (conj eq_refl (conj eq_refl (conj HB1 (conj Hok (conj Hc1 _)))))).
    exists k, r, e, rev, wev. split_and!; done.
  - destruct (so_free _ _ _ Hok Er) as [Hi0 Hd0].
    unfold ngx_wepoll_reset_state. apply wp_bind. apply wp_bind. eapply wp_rd; [by eapply held_lookup|]. apply wp_bind. eapply wp_rd; [done|].
    apply wp_bind. eapply wp_rd; [done|]. rewrite H2. apply wp_bind. eapply wp_rd; [done|].
    eapply wp_run; [by eapply st_some, held_lookup|]. apply wp_ret. set (s' := zero_state <| ns_queued := _ |> <| ns_connection := _ |> <| ns_fd := _ |> <| ns_instance := _ |>).
    set (w' := w <| n_states := _ |>). split; [done|right]. exists i, s'. refine (conj Hi (conj eq_refl (conj eq_refl (conj _ (conj _ _))))); [by eapply held_set| |].
    + apply (st_ok_keep w); [done|]. unfold s'. split; sget; done.
    + split; [done|]. exists k, r, e, rev, wev. split_and!; done.
Qed.

(** ** Adding *)

(** The common start of both ways to add: the state is prepared and registered,
    or the operation fails. *)
Lemma attach_wp Q l cnt w c (k : ptr -> NM K Z) Φ :
  books (st_ok w) Q l cnt w -> opened w c ->
  (forall w', events_keep core_of w w' -> books (st_ok w') Q l cnt w' -> Φ NGX_ERROR w') ->
  (forall i s w', (i < g_n)%nat -> c = cp i -> events_keep core_of w w' -> books (but w' i s) Q l cnt w' -> st_ok w' i s ->
     ns_registered s = true -> wp (k (Some (sp i))) Φ w') ->
  wp (state <- ngx_wepoll_prepare_state (Some c) ;;
      if bool_decide (state = NULL) then ret NGX_ERROR
      else
        registered <- rd n_states state ns_registered ;;
        r <- (if negb registered then ngx_wepoll_register_edge_connection state (Some c) else ret NGX_OK) ;;
        if negb (r =? NGX_OK) then ret NGX_ERROR else k state) Φ w.
Proof.
  intros HB Hop Herr Hk. eapply wp_seq; [by eapply prepare_wp|]. intros p w1 [He1 [[-> HB1]|(i & s & Hi & -> & -> & HB1 & Hok & Hrd)]].
  { rewrite bool_decide_eq_true_2 by done. by apply wp_ret, Herr. }
  rewrite bool_decide_eq_false_2 by done. apply wp_bind. eapply wp_rd; [by eapply held_lookup|].
  destruct (ns_registered s) eqn:Er; cbn [negb].
  { apply wp_bind, wp_ret. by eapply Hk. }
  eapply wp_seq; [by eapply register_wp|]. intros r w2 (s2 & He2 & HB2 & Hok2 & Hr2).
  destruct (Z.eqb_spec r NGX_OK) as [Hr|Hr]; cbn [negb].
  - eapply Hk; [done|done| |done|done|by apply Hr2]. by eapply events_keep_trans.
  - apply wp_ret, Herr; [by eapply events_keep_trans|by eapply books_close].
Qed.

Definition class_of (event : Z) : Z := ngx_wepoll_class_for_event event.
Lemma class_cases event : class_of event = 1 \/ class_of event = 2.
Proof. unfold class_of, ngx_wepoll_class_for_event. destruct (event =? _); auto. Qed.

(** A class enters the interests; if it was delivered before it is armed again. *)
Definition wanting (m : Z) s : ngx_wepoll_connection_state_t := s <| ns_interests := Z.lor (ns_interests s) m |>.
Lemma add_class_bits E (p d i m : Z) : 0 <= i < 4 -> 0 <= d < 8 -> m = 1 \/ m = 2 -> agree E p d i ->
  0 <= Z.lor i m < 4 /\
  (has d m = true -> agree E (Z.ldiff (Z.ldiff p m) m) (Z.ldiff d m) (Z.lor i m)) /\
  (has d m = false -> agree E (Z.ldiff p m) d (Z.lor i m)).
Proof.
  intros Hi Hd Hm Ha. pose proof (agree_below4 _ _ _ _ Hd Hi Ha) as Hp. destruct Ha as [H1 H2]. unfold agree. revert H1 H2.
  destruct Hm as [->| ->]; by_classes Hi Hd Hp.
Qed.

Lemma set_ok w i s s' :
  st_ok w i s -> ns_registered s = true -> ns_connection s' = ns_connection s -> ns_fd s' = ns_fd s -> ns_instance s' = ns_instance s ->
  ns_registered s' = true -> 0 <= ns_interests s' < 4 -> 0 <= ns_disarmed s' < 8 ->
  agree (cp i ∉ g_lost) (ns_pending s') (ns_disarmed s') (ns_interests s') -> (ns_pending s' <> 0 -> ns_queued s' = true) -> st_ok w i s'.
Proof.
  intros [Hb _ _ _ _ _] Hr Hc Hf Hin Hr' Hi Hd Hp Hq. split; try done; [|by rewrite Hr'].
  intros _. rewrite Hc, Hf, Hin. auto.
Qed.

(** The end of an addition. *)
Lemma finish_add_wp Q l cnt w i s ev m (Φ : Z -> ngx_world K -> Prop) :
  books (but w i s) Q l cnt w -> (i < g_n)%nat -> st_ok w i (s <| ns_pending := Z.ldiff (ns_pending s) m |>) -> is_Some (n_events w !! ev) ->
  (forall w', books (st_ok w') Q l cnt w' -> Φ NGX_OK w') ->
  wp (pending <- rd n_states (Some (sp i)) ns_pending ;; wr n_states (Some (sp i)) ns_pending (Z.ldiff pending m) ;;
      set_active (Some ev) true ;; ret NGX_OK) Φ w.
Proof.
  intros HB Hi Hok Hev HΦ. apply wp_bind. eapply wp_rd; [by eapply held_lookup|]. apply wp_bind. eapply wp_wr; [by eapply held_lookup|].
  set (w1 := w <| n_states := _ |>). pose proof (held_set _ _ _ _ w1 _ _ _ HB Hi eq_refl eq_refl) as HB1.
  eapply wp_seq; [by apply wp_active|]. intros [] w2 Hc. apply wp_ret, HΦ.
  eapply ok_calm; [apply calm_identity; exact Hc|]. eapply books_close; [exact HB1|]. by apply (st_ok_keep w).
Qed.

Lemma edge_add_wp w ev e event :
  edge_inv w -> n_events w !! ev = Some e -> (forall c, ne_data e = Some c -> opened w c) ->
  wp (ngx_wepoll_edge_add_event (Some ev) event) (fun _ w' => edge_inv w') w.
Proof.
  intros (l & cnt & Hcnt & HB) He Hop. unfold ngx_wepoll_edge_add_event. apply wp_bind. eapply wp_rd; [done|].
  assert (Hinv : forall w', books (st_ok w') (take (Z.to_nat cnt) l) l cnt w' -> edge_inv w') by (intros w' H; by exists l, cnt).
  destruct (ne_data e) as [c|] eqn:Ed; [|by apply wp_ret, Hinv]. specialize (Hop c eq_refl).
  pose proof Hop as (k & r & x & rev & wev & Hk & Hr & Hx & _). apply wp_bind. eapply wp_rd; [done|]. cbn [id].
  destruct (_ || _); [by apply wp_ret, Hinv|].
  apply (attach_wp _ _ _ _ _ _ _ HB Hop); [by auto|]. intros i s w1 Hi -> He1 HB1 Hok Hreg. cbv zeta. fold (class_of event).
  pose proof (class_cases event) as Hm. set (m := class_of event) in *.
  destruct (add_class_bits _ _ _ _ m (so_interests _ _ _ Hok) (so_disarmed _ _ _ Hok) Hm (so_pending _ _ _ Hok)) as (Hlt & Hb1 & Hb2).
  apply wp_bind. eapply wp_rd; [by eapply held_lookup|]. apply wp_bind. eapply wp_wr; [by eapply held_lookup|].
  set (w2 := w1 <| n_states := _ |>). pose proof (held_set _ _ _ _ w2 _ _ (wanting m s) HB1 Hi eq_refl eq_refl) as HB2.
  apply wp_bind. eapply wp_rd; [by eapply held_lookup|]. change (ns_disarmed (wanting m s)) with (ns_disarmed s).
  assert (Hev : forall w3, events_keep core_of w2 w3 -> is_Some (n_events w3 !! ev)).
  { intros w3 H3. eapply keep_is_Some; [exact H3|]. eapply (keep_is_Some core_of w); [exact He1|by eexists]. }
  destruct (has (ns_disarmed s) m) eqn:Eh.
  - eapply wp_seq; [eapply rearm_classes_wp; [exact HB2|done|by apply (bound_keep w1); [|exact (so_bound _ _ _ Hok)]|done]|].
    intros r3 w3 (s3 & [He3 _] & HB3 & Hs3).
    assert (Hok3 : st_ok w3 i s) by (eapply st_ok_keep; [apply events_keep_identity; exact He3|]; by apply (st_ok_keep w1)).
    destruct Hs3 as [[-> ->]|[-> ->]]; cbn [Z.eqb NGX_OK NGX_ERROR negb].
    + apply wp_bind. eapply wp_wr; [by eapply held_lookup|]. apply wp_ret, Hinv. set (w4 := w3 <| n_states := _ |>).
      eapply (books_close _ _ _ _ i s); [|by apply (st_ok_keep w3)]. eapply held_set; [exact HB3|done| |done]. unfold w4, wanting. do 3 f_equal. by destruct s.
    + apply (finish_add_wp _ _ _ _ _ _ _ _ _ HB3 Hi); [|by apply Hev|done]. eapply set_ok; [exact Hok3|done..|done| | | ]; unfold rearmed, wanting; sget.
      * apply ldiff_below8; [apply Hok|]. destruct Hm as [->| ->]; lia.
      * auto.
      * intros Hne. apply (so_queued _ _ _ Hok). intros Hz. apply Hne. by rewrite Hz, !Z.ldiff_0_l.
  - apply wp_bind, wp_ret. cbn [Z.eqb NGX_OK negb]. apply (finish_add_wp _ _ _ _ _ _ _ _ _ HB2 Hi); [|by apply Hev|done].
    apply (st_ok_keep w1); [done|]. eapply set_ok; [exact Hok|done..|done|apply Hok| | ]; unfold wanting; sget.
    + auto.
    + intros Hne. apply (so_queued _ _ _ Hok). intros Hz. apply Hne. by rewrite Hz, !Z.ldiff_0_l.
Qed.

(** ** Removing *)

Lemma unbind_wp Q l cnt w i s :
  books (but w i s) Q l cnt w -> (i < g_n)%nat ->
  wp (ngx_wepoll_unbind_state (Some (sp i))) (fun _ w' => books (st_ok w') Q l cnt w') w.
Proof.
  intros HB Hi. unfold ngx_wepoll_unbind_state. apply wp_bind. eapply wp_rd; [by eapply held_lookup|].
  eapply wp_run; [by eapply st_some, held_lookup|]. set (s' := zero_state <| ns_queued := _ |> <| ns_fd := _ |>).
  eapply (books_close _ _ _ _ i s'); [by eapply held_set|]. unfold s'. split; sget; done.
Qed.

(** The state goes whatever it was. *)
Lemma del_held_wp Q l cnt w i s flags :
  books (but w i s) Q l cnt w -> (i < g_n)%nat -> present w (cp i) ->
  wp (ngx_wepoll_del_connection (Some (cp i)) flags) (fun _ w' => books (st_ok w') Q l cnt w') w.
Proof.
  intros HB Hi Hp. unfold ngx_wepoll_del_connection. apply wp_bind, wp_get.
  rewrite (state_of_cp _ _ (bk_globals _ _ _ _ _ HB) Hi). pose proof Hp as (k & r & e & Hk & _).
  apply wp_bind. apply wp_bind. eapply wp_rd; [by eapply held_lookup|]. apply wp_bind, wp_get. apply wp_bind. eapply wp_rd; [done|]. apply wp_ret.
  assert (Hend : forall w' (x : Z), events_keep core_of w w' -> books (but w' i s) Q l cnt w' ->
    wp (read <- rd n_connections (Some (cp i)) nc_read ;; set_active read false ;;
        write <- rd n_connections (Some (cp i)) nc_write ;; set_active write false ;;
        ngx_wepoll_unbind_state (Some (sp i)) ;; ret x) (fun _ w' => books (st_ok w') Q l cnt w') w').
  { intros w' x He HB'. apply wp_both; [by eapply present_keep|]. intros w2 Hc2.
    eapply wp_seq; [by eapply unbind_wp; [exact (held_core _ _ _ _ _ _ _ Hc2 HB')|]|]. intros [] w3 HB3. by apply wp_ret. }
  destruct (_ && _ && _ && _); [|by apply wp_bind, wp_ret, Hend].
  apply wp_bind. apply wp_bind, wp_get. apply wp_bind. eapply wp_rd; [done|].
  eapply wp_seq; [eapply wp_ctl; [exact HB|done|by right]|]. intros x w1 (HB1 & He1 & _). apply wp_bind, wp_get.
  destruct (_ && _); [|by apply wp_ret, Hend]. eapply wp_seq; [apply (wp_log_errno core_of)|]. intros [] w2 Hc2.
  apply wp_ret, Hend; [by eapply events_keep_trans; [|apply Hc2]|exact (held_core _ _ _ _ _ _ _ Hc2 HB1)].
Qed.
Lemma del_wp Q l cnt w c flags :
  books (st_ok w) Q l cnt w -> present w c -> wp (ngx_wepoll_del_connection (Some c) flags) (fun _ w' => books (st_ok w') Q l cnt w') w.
Proof.
  intros HB Hp. destruct (state_of w (Some c)) as [a|] eqn:Ea.
  - destruct (state_of_inv _ _ _ (bk_globals _ _ _ _ _ HB) Ea) as (i & Hi & -> & [= ->]).
    destruct (books_open _ _ _ _ _ HB Hi) as (s & HB1 & _). by eapply del_held_wp.
  - unfold ngx_wepoll_del_connection. apply wp_bind, wp_get. rewrite Ea. apply wp_bind, wp_ret. apply wp_bind, wp_ret.
    apply wp_both; [done|]. intros w2 Hc2. apply wp_bind, wp_ret, wp_ret. eapply ok_calm; [by apply calm_identity|done].
Qed.

Lemma del_class_bits E (p d i m : Z) : 0 <= i < 4 -> 0 <= d < 8 -> m = 1 \/ m = 2 -> agree E p d i ->
  0 <= Z.ldiff i m < 4 /\ agree E (Z.ldiff p m) d (Z.ldiff i m).
Proof.
  intros Hi Hd Hm Ha. pose proof (agree_below4 _ _ _ _ Hd Hi Ha) as Hp. destruct Ha as [H1 H2]. unfold agree. revert H1 H2.
  destruct Hm as [->| ->]; by_classes Hi Hd Hp.
Qed.

Lemma edge_del_wp w ev e event flags :
  edge_inv w -> n_events w !! ev = Some e -> (forall c, ne_data e = Some c -> present w c) ->
  wp (ngx_wepoll_edge_del_event (Some ev) event flags) (fun _ w' => edge_inv w') w.
Proof.
  intros (l & cnt & Hcnt & HB) He Hp. unfold ngx_wepoll_edge_del_event. apply wp_bind. eapply wp_rd; [done|].
  assert (Hend : forall w', events_keep core_of w w' -> books (st_ok w') (take (Z.to_nat cnt) l) l cnt w' ->
    wp (set_active (Some ev) false ;; ret NGX_OK) (fun _ w' => edge_inv w') w').
  { intros w' He' HB'. eapply wp_seq; [apply wp_active; eapply keep_is_Some; [exact He'|by eexists]|]. intros [] w2 Hc2.
    apply wp_ret. exists l, cnt. split; [done|]. eapply ok_calm; [by apply calm_identity|done]. }
  destruct (ne_data e) as [c|] eqn:Ed; [|by apply Hend].
  destruct (has flags NGX_CLOSE_EVENT).
  { eapply wp_mono; [by eapply del_wp; [|apply Hp]|]. intros x w' HB'. by exists l, cnt. }
  apply wp_bind, wp_get. destruct (state_of w (Some c)) as [a|] eqn:Ea; [|by apply wp_bind, wp_ret, Hend].
  destruct (state_of_inv _ _ _ (bk_globals _ _ _ _ _ HB) Ea) as (i & Hi & -> & [= ->]).
  destruct (books_open _ _ _ _ _ HB Hi) as (s & HB1 & Hok). cbv zeta. fold (class_of event). apply wp_bind. apply wp_bind.
  eapply wp_rd; [by eapply held_lookup|]. cbn [id]. destruct (_ && _) eqn:Eb; [|by apply wp_ret, Hend].
  apply andb_true_iff in Eb as [Hreg _].
  do 2 (try apply wp_bind; eapply wp_wr; [by eapply held_lookup|]; match goal with |- wp _ _ ?w' => eapply (held_set _ _ _ _ w') in HB1; [|done..] end).
  apply Hend; [done|]. eapply books_close; [exact HB1|]. apply (st_ok_keep w); [done|].
  destruct (del_class_bits _ _ _ _ _ (so_interests _ _ _ Hok) (so_disarmed _ _ _ Hok) (class_cases event) (so_pending _ _ _ Hok)) as [Hlt Hbits].
  eapply set_ok; [exact Hok|done..|done|apply Hok|done|]; sget.
  intros Hne. apply (so_queued _ _ _ Hok). intros Hz. apply Hne. by rewrite Hz, Z.ldiff_0_l.
Qed.

(** ** Adding a connection *)

Lemma add_both_bits E (p d i : Z) : 0 <= i < 4 -> 0 <= d < 8 -> agree E p d i ->
  0 <= Z.lor i 3 < 4 /\ 0 <= Z.land d 3 < 4 /\ agree E (Z.ldiff p (Z.land d 3)) (Z.ldiff d (Z.land d 3)) (Z.lor i 3).
Proof.
  intros Hi Hd Ha. pose proof (agree_below4 _ _ _ _ Hd Hi Ha) as Hp. destruct Ha as [H1 H2]. unfold agree. revert H1 H2.
  by_classes Hi Hd Hp.
Qed.

(** Success keeps the table.  After a failure the state of this connection may
    be out of it until the connection is removed; the table holds as it is if
    the connection is one that may stay. *)
Lemma add_connection_wp w c :
  edge_inv w -> opened w c ->
  wp (ngx_wepoll_add_connection (Some c)) (fun r w' => events_keep core_of w w' /\ (edge_inv w' \/
    (r = NGX_ERROR /\ exists i s l cnt, (i < g_n)%nat /\ c = cp i /\ 0 <= cnt <= Z.of_nat g_n /\
       books (but w' i s) (take (Z.to_nat cnt) l) l cnt w' /\ (c ∈ g_lost -> st_ok w' i s)))) w.
Proof.
  intros (l & cnt & Hcnt & HB) Hop. unfold ngx_wepoll_add_connection. apply wp_bind, wp_get.
  rewrite (gl_edge _ (bk_globals _ _ _ _ _ HB)). cbn [negb].
  assert (Hinv : forall w', books (st_ok w') (take (Z.to_nat cnt) l) l cnt w' -> edge_inv w') by (intros w' H; by exists l, cnt).
  apply (attach_wp _ _ _ _ _ _ _ HB Hop); [by intros w' ? ?; split; [|left; apply Hinv]|]. intros i s w1 Hi -> He1 HB1 Hok Hreg.
  change (Z.lor WEPOLL_EX_REARM_READ WEPOLL_EX_REARM_WRITE) with 3.
  destruct (add_both_bits _ _ _ _ (so_interests _ _ _ Hok) (so_disarmed _ _ _ Hok) (so_pending _ _ _ Hok)) as (Hlt & Hcl & Hbits).
  apply wp_bind. eapply wp_rd; [by eapply held_lookup|]. apply wp_bind. eapply wp_wr; [by eapply held_lookup|].
  set (w2 := w1 <| n_states := _ |>). pose proof (held_set _ _ _ _ w2 _ _ (wanting 3 s) HB1 Hi eq_refl eq_refl) as HB2.
  apply wp_bind. eapply wp_rd; [by eapply held_lookup|]. cbv zeta. change (ns_disarmed (wanting 3 s)) with (ns_disarmed s).
  eapply wp_seq; [eapply rearm_classes_wp; [exact HB2|done|by apply (bound_keep w1); [|exact (so_bound _ _ _ Hok)]|done]|].
  intros r3 w3 (s3 & [He3 _] & HB3 & Hs3). assert (He : events_keep core_of w w3) by (eapply events_keep_trans; [exact He1|exact He3]).
  destruct Hs3 as [[-> ->]|[-> ->]]; cbn [Z.eqb NGX_OK NGX_ERROR negb].
  { apply wp_ret. split; [done|right]. split; [done|]. exists i, (wanting 3 s), l, cnt. split_and!; try done; try lia. intros Hlost.
    apply (st_ok_keep w1); [by apply events_keep_identity|]. eapply set_ok; [exact Hok|done..|done|apply Hok| |apply Hok].
    destruct (agree_widen _ _ _ _ 3 (so_pending _ _ _ Hok)) as [Hw _]. by split. }
  apply wp_both; [eapply present_keep; [exact He|by apply opened_present]|]. intros w4 Hc4. apply wp_ret. split; [eapply events_keep_trans; [exact He|apply Hc4]|left]. apply Hinv.
  eapply ok_calm; [by apply calm_identity|]. eapply books_close; [exact HB3|].
  assert (Hok3 : st_ok w3 i s) by (eapply (st_ok_keep w1); [by apply events_keep_identity|done]).
  eapply set_ok; [exact Hok3|done..|done| | |]; unfold rearmed, wanting; sget; [by apply ldiff_below8; [apply Hok|]|done|].
  intros Hne. apply (so_queued _ _ _ Hok). intros Hz. apply Hne. by rewrite Hz, Z.ldiff_0_l.
Qed.
End Ops.
