(* ===== verification/NgxWorker.v ===== *)
(** * Edge mode of the nginx module: a worker's run

    What nginx may do between and inside the calls of the module, and that the
    bookkeeping survives it. *)
From Stdlib Require Import String.
From S2P Require Import Prelude Codes Errno PosixTypes Lifecycle NgxTypes Nginx NgxEdge NgxRearm NgxOps.

Section Steps.
Context {K : Type} `{!EventPort K} `{!Nginx K} `{!PortLaws K} {G : geometry}.
Implicit Types (w : ngx_world K) (i : nat) (s : ngx_wepoll_connection_state_t).

(** nginx changes its own data: events stay allocated, and a connection that is
    registered keeps its descriptor, its events, their instance and their being
    open (nginx closes and reuses a connection only after [del_conn]). *)
Definition own_move w w' : Prop :=
  exists C E L alarm,
    w' = w <| n_connections := C |> <| n_events := E |> <| n_log := L |> <| n_timer_alarm := alarm |> /\
    dom (n_events w) ⊆ dom E /\
    forall a s c, n_states w !! a = Some s -> ns_registered s = true -> ns_connection s = Some c ->
      C !! c = n_connections w !! c /\
      forall k ev, n_connections w !! c = Some k -> nc_read k = Some ev \/ nc_write k = Some ev ->
        identity_of <$> E !! ev = identity_of <$> n_events w !! ev.

(** A step of nginx: a call of the module's table or a change of its own data.
    Any [add_conn] may fail; nginx then removes the connection, unless it is
    one of [g_lost], which may stay as the failed call left them. *)
Inductive nginx_step : ngx_world K -> ngx_world K -> Prop :=
| nginx_add w ev e event flags r w' :
    n_events w !! ev = Some e -> (forall c, ne_data e = Some c -> opened w c) ->
    ngx_wepoll_add_event (Some ev) event flags w = Some (r, w') -> nginx_step w w'
| nginx_del w ev e event flags r w' :
    n_events w !! ev = Some e -> (forall c, ne_data e = Some c -> present w c) ->
    ngx_wepoll_del_event (Some ev) event flags w = Some (r, w') -> nginx_step w w'
| nginx_add_conn w c w' :
    opened w c -> ngx_wepoll_add_connection (Some c) w = Some (NGX_OK, w') -> nginx_step w w'
| nginx_add_conn_failed w c w' flags r w'' :
    opened w c -> ngx_wepoll_add_connection (Some c) w = Some (NGX_ERROR, w') ->
    ngx_wepoll_del_connection (Some c) flags w' = Some (r, w'') -> nginx_step w w''
| nginx_add_conn_left w c w' :
    opened w c -> c ∈ g_lost -> ngx_wepoll_add_connection (Some c) w = Some (NGX_ERROR, w') -> nginx_step w w'
| nginx_del_conn w c flags r w' :
    present w c -> ngx_wepoll_del_connection (Some c) flags w = Some (r, w') -> nginx_step w w'
| nginx_own w w' : own_move w w' -> nginx_step w w'.

(** Handlers, posting and the clock return, and are sequences of such steps. *)
Class NginxLaws := {
  law_handler ev w : is_Some (n_events w !! ev) -> exists w', nx_handler ev w = Some (tt, w') /\ rtc nginx_step w w';
  law_post ev accept w : is_Some (n_events w !! ev) -> exists w', nx_post_event ev accept w = Some (tt, w') /\ rtc nginx_step w w';
  law_time w : exists w', nx_time_update w = Some (tt, w') /\ rtc nginx_step w w'
}.

Lemma wp_det {A} (m : NM K A) Φ w a w' : wp m Φ w -> m w = Some (a, w') -> Φ a w'.
Proof. intros (b & w1 & H1 & H2) H. rewrite H in H1. by injection H1 as -> ->. Qed.

Lemma own_move_inv w w' : edge_inv w -> own_move w w' -> edge_inv w'.
Proof.
  intros (l & cnt & Hcnt & [Hg Hst Ha Hl Hc Hn Hq Hx]) (C & E & L & al & -> & Hdom & Hkeep).
  exists l, cnt. split; [done|]. split; try done.
  - destruct Hg as [? ? ? ? ? ? ? Hd]. split; try done. sget. by etrans.
  - intros i Hi. destruct (Hst i Hi) as (s & Hs & Hok & Hqs). exists s. split; [done|]. split; [|done].
    destruct Hok as [Hb ? ? ? ? ?]. split; try done. intros Hr. destruct (Hb Hr) as [Hcn (k & r & e & rev & wev & Hv)].
    split; [done|]. destruct (Hkeep _ _ _ Hs Hr Hcn) as [HC HE]. destruct Hv as [Hk Hfd Hv Hrd Hwr Hrev Hwev Hin [Ho1 Ho2] Hkn].
    pose proof (HE k r Hk (or_introl Hrd)) as H1. pose proof (HE k e Hk (or_intror Hwr)) as H2. rewrite Hrev in H1. rewrite Hwev in H2.
    destruct (E !! r) as [rev'|] eqn:E1; [|done]. destruct (E !! e) as [wev'|] eqn:E2; [|done].
    injection H1 as Ha1 Hb1. injection H2 as Ha2 Hb2. exists k, r, e, rev', wev'. split; sget; try done; [congruence|congruence|split; congruence].
Qed.

Lemma nginx_step_inv w w' : nginx_step w w' -> edge_inv w -> edge_inv w'.
Proof.
  assert (Hed : forall w, edge_inv w -> ngx_wepoll_edge_enabled w = true) by (intros x (l & cnt & _ & HB); apply (bk_globals _ _ _ _ _ HB)).
  intros [? ? ? ? ? ? ? He Hop Hrun|? ? ? ? ? ? ? He Hop Hrun|? ? ? Hop Hrun|? c w1 ? ? ? Hop Hrun Hrun'|? c ? Hop Hlost Hrun|? ? ? ? ? Hop Hrun|? ? Hm] Hinv.
  - unfold ngx_wepoll_add_event in Hrun. rewrite bind_some with (a := true) (w' := w0) in Hrun by (unfold get; by rewrite Hed).
    exact (wp_det _ _ _ _ _ (edge_add_wp _ _ _ _ Hinv He Hop) Hrun).
  - unfold ngx_wepoll_del_event in Hrun. rewrite bind_some with (a := true) (w' := w0) in Hrun by (unfold get; by rewrite Hed).
    exact (wp_det _ _ _ _ _ (edge_del_wp _ _ _ _ _ Hinv He Hop) Hrun).
  - by destruct (wp_det _ _ _ _ _ (add_connection_wp _ _ Hinv Hop) Hrun) as [_ [H|[H _]]].
  - pose proof (opened_present _ _ Hop) as Hp. destruct (wp_det _ _ _ _ _ (add_connection_wp _ _ Hinv Hop) Hrun) as [He [(l & cnt & Hcnt & HB)|(_ & i & s & l & cnt & Hi & -> & Hcnt & HB & _)]];
    pose proof (present_keep _ _ _ _ He Hp) as Hp1.
    + exists l, cnt. split; [done|]. exact (wp_det _ _ _ _ _ (del_wp _ _ _ _ _ _ HB Hp1) Hrun').
    + exists l, cnt. split; [done|]. eapply (wp_det _ _ _ _ _ (del_held_wp _ _ _ _ _ _ _ HB Hi Hp1) Hrun').
  - destruct (wp_det _ _ _ _ _ (add_connection_wp _ _ Hinv Hop) Hrun) as [_ [H|(_ & i & s & l & cnt & Hi & -> & Hcnt & HB & Hok)]]; [done|].
    exists l, cnt. split; [done|]. eapply books_close; [exact HB|by apply Hok].
  - destruct Hinv as (l & cnt & Hcnt & HB). exists l, cnt. split; [done|]. exact (wp_det _ _ _ _ _ (del_wp _ _ _ _ _ _ HB Hop) Hrun).
  - by eapply own_move_inv.
Qed.
End Steps.
