(* ===== verification/NgxDemo.v ===== *)
(** * A small event port and a small nginx

    Executable instances of the interfaces of the nginx module, with their laws:
    the examples run the module against them. *)
From Stdlib Require Import String.
From S2P Require Import Prelude Codes Errno PosixTypes Lifecycle NgxTypes Nginx NgxEdge NgxLedger NgxRearm NgxOps NgxWorker.

(** ** The port: a set of registered contexts and the records to return next *)

Record small_core := mk_small_core {
  sm_ctxs : gset Z; sm_interest : gmap Z (Z * Z); sm_ready : list epoll_event_ex; sm_errno : Z }.

Definition small_fail (e : Z) (k : small_core) : option (Z * small_core) :=
  Some (-1, mk_small_core (sm_ctxs k) (sm_interest k) (sm_ready k) e).
(** A new registration is ready at once; the invalid socket is refused. *)
Definition small_ctl (epfd op fd : Z) (ev : option (Z * Z)) (ctx : Z) : M small_core Z := fun k =>
  match sm_interest k !! fd with
  | None =>
    match ev with
    | Some (events, data) =>
      if negb (op =? EPOLL_CTL_ADD) then small_fail ENOENT k
      else if fd =? INVALID_SOCKET then small_fail EBADF k
      else
        Some (0, mk_small_core ({[ctx]} ∪ sm_ctxs k) (<[fd := (events, data)]> (sm_interest k))
                   (sm_ready k ++ [mk_event_ex (Z.lor EPOLLIN EPOLLOUT) data WEPOLL_FLAG_ET_DELIVERED 0 ctx]) (sm_errno k))
    | None => small_fail (if op =? EPOLL_CTL_DEL then ENOENT else EFAULT) k
    end
  | Some _ =>
    if op =? EPOLL_CTL_DEL then Some (0, mk_small_core (sm_ctxs k) (delete fd (sm_interest k)) (sm_ready k) (sm_errno k))
    else match ev with
    | Some x =>
      if op =? EPOLL_CTL_MOD then Some (0, mk_small_core (sm_ctxs k) (<[fd := x]> (sm_interest k)) (sm_ready k) (sm_errno k))
      else small_fail EEXIST k
    | None => small_fail EFAULT k
    end
  end.
Definition small_wait (epfd maxevents timeout : Z) : M small_core (Z * list epoll_event_ex) := fun k =>
  let l := filter (fun e => ex_user_ctx e ∈ sm_ctxs k) (sm_ready k) in
  Some ((Z.of_nat (length l), l), mk_small_core (sm_ctxs k) (sm_interest k) [] (sm_errno k)).
#[export] Instance small_event_port : EventPort small_core := {|
  ep_errno := sm_errno;
  ep_create_ex _ _ := ret 5;
  ep_ctl_ctx := small_ctl;
  ep_rearm _ fd _ := fun k => if decide (is_Some (sm_interest k !! fd)) then Some (0, k) else small_fail ENOENT k;
  ep_wait_ex := small_wait;
  ep_get_stats _ := ret None;
  ep_global_stats := ret (Some (mk_global_stats 1 0 0 0 0 0));
  ep_close _ := ret 0
|}.
#[export] Instance small_port_laws : PortLaws small_core.
Proof.
  unshelve eapply (Build_PortLaws small_core small_event_port sm_ctxs).
  - intros. by eexists _, _.
  - intros. by eexists _, _.
  - intros. by eexists _, _.
  - intros. by eexists _, _.
  - intros epfd op fd ev ctx k. cbn. unfold small_ctl, small_fail.
    repeat case_match; eexists _, _; (split; [reflexivity|]; split; [set_solver|]); intros -> ->; done.
  - intros epfd fd classes k. cbn. unfold small_fail. case_decide; by eexists _, _.
  - intros epfd maxevents timeout k. eexists _, _, _. split; [done|]. split; [done|]. split; [by right|].
    apply Forall_forall. intros e [He _]%list_elem_of_filter. by right.
Defined.

(** The examples run against this port with its calls recorded. *)
Abbreviation small_port := (recorded small_core).

(** ** nginx: a handler drains its event, posting marks it *)

#[export] Instance small_nginx : Nginx small_port := {|
  NGX_READ_EVENT := 1; NGX_WRITE_EVENT := 2; NGX_CLOSE_EVENT := 0x1000;
  NGX_UPDATE_TIME := 1; NGX_POST_EVENTS := 2;
  NGX_LOG_EMERG := 1; NGX_LOG_ALERT := 2; NGX_LOG_NOTICE := 6;
  NGX_USE_CLEAR_EVENT := 4; NGX_USE_GREEDY_EVENT := 0x20; NGX_USE_LEVEL_EVENT := 1;
  NGX_THREADS := false;
  sizeof_connection := 200;
  nx_alloc _ w := 100000 * Z.of_nat (S (size (n_blocks w)));
  nx_handler ev := wr n_events (Some ev) ne_ready false;
  nx_post_event ev _ := wr n_events (Some ev) ne_posted true;
  nx_time_update := ret tt
|}.

Lemma event_move {G : geometry} w ev e e' :
  n_events w !! ev = Some e -> identity_of e' = identity_of e -> nginx_step w (w <| n_events := <[ev := e']> (n_events w) |>).
Proof.
  intros He Hi. apply nginx_own. exists (n_connections w), (<[ev := e']> (n_events w)), (n_log w), (n_timer_alarm w).
  split; [by destruct w|]. split; [rewrite dom_insert_L; set_solver|]. intros a s c _ _ _. split; [done|]. intros k ev' _ _.
  destruct (decide (ev' = ev)) as [->|Hne]; [by rewrite lookup_insert_eq, He; cbn; rewrite Hi|by rewrite lookup_insert_ne].
Qed.
#[export] Instance small_nginx_laws {G : geometry} : NginxLaws.
Proof.
  split.
  - intros ev w [e He]. eexists. split; [by eapply wr_some|]. apply rtc_once. by eapply event_move.
  - intros ev accept w [e He]. eexists. split; [by eapply wr_some|]. apply rtc_once. by eapply event_move.
  - intros w. eexists. split; [done|]. apply rtc_refl.
Qed.

(** ** A worker with two connections *)

Definition small_event (c : addr) : ngx_event_t := mk_ngx_event (Some c) false false false false false false false false 0 true.
Definition small_cycle (edge : Z) : ngx_cycle_t := mk_ngx_cycle (Some 1000%positive) 2 (Some (mk_ngx_conf 512 edge 0 1)).
Definition small_world : ngx_world small_port :=
  mk_ngx_world (-1) NULL 0 None NULL NULL 0 0 false false false false false 0 0 0 0 0 ∅ ∅ ∅
    (<[1000%positive := mk_ngx_connection 40 (Some 1%positive) (Some 2%positive)]>
       (<[1200%positive := mk_ngx_connection 41 (Some 3%positive) (Some 4%positive)]> ∅))
    (<[1%positive := small_event 1000]> (<[2%positive := small_event 1000]>
       (<[3%positive := small_event 1200]> (<[4%positive := small_event 1200]> ∅))))
    [] false 0 None false false false (mk_recorded (mk_small_core ∅ ∅ [] 0) []).
Definition small_events : gset addr := {[1%positive; 2%positive; 3%positive; 4%positive]}.

(** Initialised in edge mode; a connection is added; its events are delivered,
    drained and rearmed. *)
Definition small_init : ngx_world small_port := exec (ngx_wepoll_init (small_cycle 1)) small_world.
Definition small_added : ngx_world small_port := exec (ngx_wepoll_add_connection (Some 1000%positive)) small_init.
Example small_round :
  let w := exec (ngx_wepoll_process_events 0 0) small_added in
  ((fun s => (ns_registered s, ns_disarmed s, ns_pending s, ns_queued s)) <$> n_states w !! 200000%positive,
   ngx_wepoll_edge_read_deliveries w, ngx_wepoll_edge_write_rearms w, ngx_wepoll_pending_count w) =
  (Some (true, 0, 0, true), 1, 1, 1).
Proof. vm_compute. reflexivity. Qed.
