(* ===== verification/NgxLife.v ===== *)
(** * Life of the nginx module

    Initialisation and shutdown: what they allocate and free, and that edge mode
    starts with its invariant. *)
From Stdlib Require Import String.
From S2P Require Import Prelude Codes Errno PosixTypes Lifecycle NgxTypes Nginx NgxEdge NgxLedger NgxRearm NgxOps NgxWorker NgxDemo.

(** ** Blocks *)

(** The map [m] is [B] and the blocks [L]. *)
Record blocks_are (B : gmap addr Z) (L : list addr) (m : gmap addr Z) : Prop := {
  ba_nodup : NoDup L;
  ba_mine a : a ∈ L -> is_Some (m !! a) /\ B !! a = None;
  ba_rest a : a ∉ L -> m !! a = B !! a
}.
Lemma blocks_start B : blocks_are B [] B.
Proof. split; [constructor| |done]. by intros a ?%elem_of_nil. Qed.
Lemma blocks_alloc B L m a size : blocks_are B L m -> m !! a = None -> blocks_are B (a :: L) (<[a := size]> m).
Proof.
  intros [Hn Hm Hr] Ha. assert (a ∉ L) by (intros Hin; destruct (Hm a Hin) as [[x Hx] _]; congruence). split.
  - by apply NoDup_cons.
  - intros b [->|Hb]%elem_of_cons; [rewrite lookup_insert_eq, <- (Hr a) by done; by split|].
    rewrite lookup_insert_ne by (by intros ->). by apply Hm.
  - intros b Hb. rewrite lookup_insert_ne by set_solver. apply Hr. set_solver.
Qed.
Lemma blocks_free B L L' m a : blocks_are B L m -> L ≡ₚ a :: L' -> blocks_are B L' (delete a m).
Proof.
  intros [Hn Hm Hr] HL. rewrite HL in Hn. apply NoDup_cons in Hn as [Ha Hn]. split; [done| |].
  - intros b Hb. rewrite lookup_delete_ne by (by intros ->). apply Hm. rewrite HL. by right.
  - intros b Hb. destruct (decide (b = a)) as [->|Hne].
    + rewrite lookup_delete_eq. symmetry. apply Hm. rewrite HL. by left.
    + rewrite lookup_delete_ne by done. apply Hr. rewrite HL. set_solver.
Qed.
Lemma blocks_perm B L L' m : blocks_are B L m -> L ≡ₚ L' -> blocks_are B L' m.
Proof. intros [Hn Hm Hr] HL. split; [by rewrite <- HL|intros a; rewrite <- HL; apply Hm|intros a; rewrite <- HL; apply Hr]. Qed.
Lemma blocks_end B m : blocks_are B [] m -> m = B.
Proof. intros [_ _ Hr]. apply map_eq. intros a. apply Hr. by intros ?%elem_of_nil. Qed.

Section Life.
Context {K : Type} `{!EventPort K} `{!Nginx K} `{!PortLaws K} `{!PortCalls K}.
Implicit Types (w : ngx_world K).

(** The blocks the module owns. *)
Definition owns B w : Prop :=
  blocks_are B (omap id [ngx_wepoll_events w; ngx_wepoll_states w; ngx_wepoll_pending_states w]) (n_blocks w).

Lemma alloc_wp B L w size :
  blocks_are B L (n_blocks w) ->
  wp (ngx_alloc size) (fun p w' => match p with
    | None => w' = w
    | Some a => w' = w <| n_blocks := <[a := size]> (n_blocks w) |> /\ blocks_are B (a :: L) (n_blocks w') end) w.
Proof.
  intros HB. unfold ngx_alloc. destruct (to_ptr (nx_alloc size w)) as [a|] eqn:Ea.
  - destruct (n_blocks w !! a) as [x|] eqn:Hx.
    + exists NULL, w. rewrite Ea, Hx. done.
    + eexists (Some a), _. rewrite Ea, Hx. split; [done|]. split; [done|]. by apply blocks_alloc.
  - exists NULL, w. by rewrite Ea.
Qed.

Definition freed (a : addr) w : ngx_world K :=
  w <| n_blocks := delete a (n_blocks w) |> <| n_pending := delete a (n_pending w) |>
    <| n_states := filter (fun x => ~ (Zpos a <= Zpos x.1 < Zpos a + default 0 (n_blocks w !! a))) (n_states w) |>.
Lemma free_run w a size : n_blocks w !! a = Some size -> ngx_free (Some a) w = Some (tt, freed a w).
Proof. intros Ha. unfold ngx_free, freed. by rewrite Ha. Qed.

(** [if (p != NULL) { ngx_free(p); p = NULL; }] *)
Lemma release_wp f `{!Setter f} B L w :
  (forall w', n_blocks (w' <| f := NULL |>) = n_blocks w') -> blocks_are B (omap id (f w :: L)) (n_blocks w) ->
  wp (release f) (fun _ w' => (w' = w <| f := NULL |> \/ (exists a, f w = Some a /\ w' = (freed a w) <| f := NULL |>)) /\
    blocks_are B (omap id L) (n_blocks w')) w.
Proof.
  intros Hf HB. unfold release. apply wp_bind, wp_get. destruct (f w) as [a|] eqn:Ea; cbn in HB.
  - destruct (ba_mine _ _ _ HB a) as [[size Hs] _]; [by left|]. apply wp_bind. eapply wp_run; [by eapply free_run|]. apply wp_put.
    split; [right; by exists a|]. rewrite Hf. by eapply blocks_free.
  - apply wp_bind. eapply wp_run; [done|]. apply wp_put. split; [by left|]. by rewrite Hf.
Qed.

(** ** Shutdown *)

(** The module's variables as their declarations initialise them. *)
Record pristine w : Prop := {
  pr_epfd : ngx_wepoll_epfd w = -1;
  pr_events : ngx_wepoll_events w = NULL;
  pr_nevents : ngx_wepoll_nevents w = 0;
  pr_cycle : ngx_wepoll_cycle w = None;
  pr_states : ngx_wepoll_states w = NULL;
  pr_pending_states : ngx_wepoll_pending_states w = NULL;
  pr_state_count : ngx_wepoll_state_count w = 0;
  pr_pending_count : ngx_wepoll_pending_count w = 0;
  pr_edge_enabled : ngx_wepoll_edge_enabled w = false;
  pr_edge_post_events : ngx_wepoll_edge_post_events w = false;
  pr_close_audit : ngx_wepoll_close_audit w = false;
  pr_port_edge : ngx_wepoll_port_edge w = false;
  pr_missing_edge_flag_logged : ngx_wepoll_missing_edge_flag_logged w = false;
  pr_edge_read_deliveries : ngx_wepoll_edge_read_deliveries w = 0;
  pr_edge_write_deliveries : ngx_wepoll_edge_write_deliveries w = 0;
  pr_edge_terminal_deliveries : ngx_wepoll_edge_terminal_deliveries w = 0;
  pr_edge_read_rearms : ngx_wepoll_edge_read_rearms w = 0;
  pr_edge_write_rearms : ngx_wepoll_edge_write_rearms w = 0
}.

Record kept w w' : Prop := {
  kp_blocks : n_blocks w' = n_blocks w;
  kp_events : ngx_wepoll_events w' = ngx_wepoll_events w;
  kp_states : ngx_wepoll_states w' = ngx_wepoll_states w;
  kp_pending : ngx_wepoll_pending_states w' = ngx_wepoll_pending_states w
}.
Definition same_port w w' : Prop := ngx_wepoll_epfd w' = ngx_wepoll_epfd w /\ pc_calls (n_port w') = pc_calls (n_port w).
Lemma same_port_trans w w' w'' : same_port w w' -> same_port w' w'' -> same_port w w''.
Proof. intros [? ?] [? ?]. split; congruence. Qed.
Lemma kept_trans w w' w'' : kept w w' -> kept w' w'' -> kept w w''.
Proof. intros [? ? ? ?] [? ? ? ?]. split; congruence. Qed.

Definition keeps {A} (m : NM K A) : Prop := forall w, wp m (fun _ w' => kept w w' /\ same_port w w') w.
Lemma keeps_seq {A B} (m : NM K A) (k : A -> NM K B) : keeps m -> (forall a, keeps (k a)) -> keeps (bind m k).
Proof.
  intros Hm Hk w. eapply wp_seq; [apply Hm|]. intros a w1 [? ?]. eapply wp_mono; [apply Hk|].
  intros b w2 [? ?]. split; [by eapply kept_trans|by eapply same_port_trans].
Qed.
Lemma keeps_ret {A} (a : A) : keeps (ret a).
Proof. intros w. by apply wp_ret. Qed.
Lemma keeps_get {T} (f : ngx_world K -> T) : keeps (get f).
Proof. intros w. by apply wp_get. Qed.
Lemma keeps_log level text numbers : keeps (ngx_log_error level text numbers).
Proof. intros w. by eexists _, _. Qed.
Lemma keeps_call {A} (m : M K A) :
  (forall k, exists r k', m k = Some (r, k')) -> (forall k r k', m k = Some (r, k') -> pc_calls k' = pc_calls k) -> keeps (call m).
Proof.
  intros Hm Hc w. destruct (Hm (n_port w)) as (r & k & Hr). exists r, (w <| n_port := k |>). split; [unfold call; by rewrite Hr|].
  split; [done|]. split; [done|]. by eapply Hc.
Qed.
Lemma keeps_log_errno text fd : keeps (ngx_wepoll_log_errno text fd).
Proof. apply keeps_seq; [apply keeps_get|]. intros e. apply keeps_log. Qed.
Lemma keeps_audit_level b : keeps (audit_level b).
Proof. unfold audit_level. repeat (apply keeps_seq; [apply keeps_get|intros]). apply keeps_ret. Qed.

Create HintDb keeps.
#[local] Hint Resolve keeps_ret keeps_get keeps_log keeps_log_errno keeps_audit_level : keeps.
Ltac go_keeps :=
  repeat first [ progress intros
               | match goal with
                 | |- keeps (bind _ _) => apply keeps_seq
                 | |- keeps (if ?b then _ else _) => destruct b
                 | |- keeps (match ?o with Some _ => _ | None => _ end) => destruct o
                 end
               | solve [eauto with keeps] ].
Lemma keeps_audit_port : keeps audit_port.
Proof. unfold audit_port. go_keeps. apply keeps_call; [apply law_stats|apply calls_stats]. Qed.
Lemma keeps_edge_summary : keeps edge_summary.
Proof. unfold edge_summary. go_keeps. Qed.
Lemma keeps_audit_process : keeps audit_process.
Proof. unfold audit_process. go_keeps. apply keeps_call; [apply law_global|apply calls_global]. Qed.

(** The calls of a shutdown with descriptor [epfd]. *)
Definition closing (epfd : Z) (l l' : list port_call) : Prop :=
  if epfd =? -1 then l' = l else exists r, l' = CallClose epfd r :: l.

Lemma done_close_wp w :
  wp done_close (fun _ w' => kept w w' /\ ngx_wepoll_epfd w' = -1 /\
    closing (ngx_wepoll_epfd w) (pc_calls (n_port w)) (pc_calls (n_port w'))) w.
Proof.
  unfold done_close, closing. apply wp_bind, wp_get. destruct (Z.eqb_spec (ngx_wepoll_epfd w) (-1)) as [He|He]; cbn [negb]; [by apply wp_ret|].
  destruct (law_close_port (ngx_wepoll_epfd w) (n_port w)) as (r & k & Hr). apply wp_bind.
  exists r, (w <| n_port := k |>). split; [unfold call; by rewrite Hr|]. apply calls_close in Hr.
  eapply (wp_seq _ _ (fun _ w' => kept (w <| n_port := k |>) w' /\ same_port (w <| n_port := k |>) w')).
  - destruct (r =? -1); [apply keeps_log_errno|by apply wp_ret].
  - intros [] w2 [[? ? ? ?] [_ Hc]]. apply wp_put. sget_in Hc. split_and!; [split; by sget|done|]. exists r. sget. congruence.
Qed.

Lemma kept_owns B w w' : kept w w' -> owns B w -> owns B w'.
Proof. intros [H1 H2 H3 H4]. unfold owns. by rewrite H1, H2, H3, H4. Qed.

Ltac release_fields H := destruct H as [->|(? & _ & ->)]; unfold freed; sget; done.

(** The module's blocks go; the descriptor and the port stay. *)
Lemma releases_wp {A} B w (k : NM K A) Φ :
  owns B w ->
  (forall w', n_blocks w' = B -> ngx_wepoll_epfd w' = ngx_wepoll_epfd w -> n_port w' = n_port w ->
     ngx_wepoll_events w' = NULL -> ngx_wepoll_states w' = NULL -> ngx_wepoll_pending_states w' = NULL -> wp k Φ w') ->
  wp (release ngx_wepoll_events ;; release ngx_wepoll_states ;; release ngx_wepoll_pending_states ;; k) Φ w.
Proof.
  intros HB Hk. unfold owns in HB.
  eapply wp_seq; [by apply release_wp|]. intros [] w5 [H5 HB5]. assert (He5 : ngx_wepoll_epfd w5 = ngx_wepoll_epfd w /\ n_port w5 = n_port w /\ ngx_wepoll_events w5 = NULL /\
    ngx_wepoll_states w = ngx_wepoll_states w5 /\ ngx_wepoll_pending_states w = ngx_wepoll_pending_states w5) by release_fields H5.
  destruct He5 as (He5 & Hn5 & Hev5 & Hs5 & Hp5). rewrite Hs5, Hp5 in HB5. clear H5.
  eapply wp_seq; [by apply release_wp|]. intros [] w6 [H6 HB6]. assert (He6 : ngx_wepoll_epfd w6 = ngx_wepoll_epfd w5 /\ n_port w6 = n_port w5 /\
    ngx_wepoll_events w6 = ngx_wepoll_events w5 /\ ngx_wepoll_states w6 = NULL /\ ngx_wepoll_pending_states w5 = ngx_wepoll_pending_states w6) by release_fields H6.
  destruct He6 as (He6 & Hn6 & Hev6 & Hs6 & Hp6). rewrite Hp6 in HB6. clear H6.
  eapply wp_seq; [by apply release_wp|]. intros [] w7 [H7 HB7]. assert (He7 : ngx_wepoll_epfd w7 = ngx_wepoll_epfd w6 /\ n_port w7 = n_port w6 /\
    ngx_wepoll_events w7 = ngx_wepoll_events w6 /\ ngx_wepoll_states w7 = ngx_wepoll_states w6 /\ ngx_wepoll_pending_states w7 = NULL) by release_fields H7.
  destruct He7 as (He7 & Hn7 & Hev7 & Hs7 & Hp7). apply Hk; try congruence. exact (blocks_end _ _ HB7).
Qed.

Lemma reset_pristine w : ngx_wepoll_epfd w = -1 -> ngx_wepoll_events w = NULL -> ngx_wepoll_states w = NULL ->
  ngx_wepoll_pending_states w = NULL -> pristine (reset_globals w).
Proof. destruct w. cbn. intros. by split. Qed.

(** Shutdown frees exactly the module's blocks, closes the port if there is one,
    and resets every variable. *)
Lemma done_wp B w : owns B w ->
  wp ngx_wepoll_done (fun _ w' => pristine w' /\ n_blocks w' = B /\ closing (ngx_wepoll_epfd w) (pc_calls (n_port w)) (pc_calls (n_port w'))) w.
Proof.
  intros HB. unfold ngx_wepoll_done.
  eapply wp_seq; [apply keeps_audit_port|]. intros [] w1 [K1 [E1 C1]]. eapply wp_seq; [apply keeps_edge_summary|]. intros [] w2 [K2 [E2 C2]].
  eapply wp_seq; [apply done_close_wp|]. intros [] w3 (K3 & E3 & C3). eapply wp_seq; [apply keeps_audit_process|]. intros [] w4 [K4 [E4 C4]].
  rewrite E2, E1, C2, C1 in C3. rewrite <- C4 in C3. rewrite E3 in E4.
  assert (HB4 : owns B w4) by (eapply kept_owns; [|exact HB]; eapply kept_trans; [exact K1|]; eapply kept_trans; [exact K2|]; by eapply kept_trans).
  apply (releases_wp _ _ _ _ HB4). intros w5 H1 H2 H3 H5 H6 H7. eexists tt, _. split; [done|].
  split; [apply reset_pristine; congruence|]. split; [exact H1|]. change (n_port (reset_globals w5)) with (n_port w5). by rewrite H3.
Qed.

(** ** Initialisation *)

(** What the stages leave alone. *)
Record stage w w' : Prop := {
  sg_states : ngx_wepoll_states w' = ngx_wepoll_states w;
  sg_pending : ngx_wepoll_pending_states w' = ngx_wepoll_pending_states w;
  sg_edge : ngx_wepoll_edge_enabled w' = ngx_wepoll_edge_enabled w;
  sg_events : n_events w' = n_events w;
  sg_ctxs : ep_ctxs (n_port w') ⊆ ep_ctxs (n_port w)
}.
Lemma stage_trans w w' w'' : stage w w' -> stage w' w'' -> stage w w''.
Proof. intros [? ? ? ? ?] [? ? ? ? ?]. split; try congruence. set_solver. Qed.

Lemma log_wp level text numbers w : wp (ngx_log_error level text numbers) (fun _ w' => kept w w' /\ stage w w' /\ same_port w w') w.
Proof. by eexists _, _. Qed.
Lemma log_errno_wp text fd w : wp (ngx_wepoll_log_errno text fd) (fun _ w' => kept w w' /\ stage w w' /\ same_port w w') w.
Proof. apply wp_bind, wp_get, log_wp. Qed.

(** A port was asked for, and its descriptor is kept. *)
Definition creating (l : list port_call) w (ok : bool) : Prop :=
  exists size flags, pc_calls (n_port w) = CallCreate size flags (ngx_wepoll_epfd w) :: l /\ ok = negb (ngx_wepoll_epfd w =? -1).
Lemma creating_same l w w' ok : same_port w w' -> creating l w ok -> creating l w' ok.
Proof. intros [H1 H2]. unfold creating. by rewrite H1, H2. Qed.

Lemma init_port_wp cycle w : ngx_wepoll_epfd w = -1 ->
  wp (init_port cycle) (fun ok w' => kept w w' /\ stage w w' /\ creating (pc_calls (n_port w)) w' ok) w.
Proof.
  intros He. unfold init_port. apply wp_bind, wp_get. rewrite He. cbn [Z.eqb negb].
  apply wp_bind, wp_get. cbv zeta. match goal with |- wp (bind (call (ep_create_ex ?size ?flags)) _) _ _ =>
    destruct (law_create size flags (n_port w)) as (r & k & Hr & Hk) end.
  apply wp_bind. exists r, (w <| n_port := k |>). split; [unfold call; by rewrite Hr|]. apply wp_bind, wp_put.
  set (w1 := _ <| ngx_wepoll_epfd := _ |>). assert (H1 : kept w w1 /\ stage w w1 /\ creating (pc_calls (n_port w)) w1 (negb (r =? -1))).
  { split_and!; [done|done|]. eexists _, _. split; [by apply calls_create|done]. }
  clearbody w1. destruct (r =? -1); cbn [negb] in *.
  - eapply wp_seq; [apply log_errno_wp|]. intros [] w2 (Hk2 & H2 & Hp2). apply wp_ret. destruct H1 as (Hk1 & H1 & Hc1).
    split_and!; [by eapply kept_trans|by eapply stage_trans|by eapply creating_same].
  - apply wp_bind, wp_put, wp_ret. destruct H1 as ([? ? ? ?] & [? ? ? ? ?] & Hc). split_and!; [by split|by split|exact Hc].
Qed.

Lemma init_events_wp B events w : owns B w -> wp (init_events events) (fun _ w' => owns B w' /\ stage w w' /\ same_port w w') w.
Proof.
  intros HB. unfold init_events. apply wp_bind, wp_get. apply wp_bind.
  assert (Hfin : forall w1 (grown : bool), owns B w1 /\ stage w w1 /\ same_port w w1 ->
    wp (if negb grown then ret false else put ngx_wepoll_nevents events ;; ret true) (fun _ w' => owns B w' /\ stage w w' /\ same_port w w') w1).
  { intros w1 grown H1. destruct grown; cbn [negb]; [|by apply wp_ret]. apply wp_bind, wp_put, wp_ret. destruct H1 as (? & [? ? ? ? ?] & ?). split_and!; [done|by split|done]. }
  destruct (ngx_wepoll_nevents w <? events); [|by apply wp_ret, Hfin].
  eapply wp_seq; [by apply (alloc_wp B)|]. intros [a|] w1 Hw1; [|subst w1; by apply wp_ret, Hfin]. destruct Hw1 as [-> HB1].
  apply wp_bind, wp_get. sget. destruct (ngx_wepoll_events w) as [b|] eqn:Eb.
  - destruct (ba_mine _ _ _ HB1 b) as [[size Hs] _]; [right; cbn; rewrite ?Eb; by left|].
    apply wp_bind. eapply wp_run; [by eapply free_run|]. apply wp_bind, wp_put, wp_ret, Hfin. unfold freed. split_and!; [unfold owns; sget|split; by sget|done].
    eapply (blocks_free _ _ _ _ b); [sget_in HB1; exact HB1|]. cbn. rewrite ?Eb. apply Permutation_swap.
  - apply wp_bind. eapply wp_run; [done|]. apply wp_bind, wp_put, wp_ret, Hfin. split_and!; [unfold owns; sget|split; by sget|done].
    sget_in HB1. cbn in HB1. rewrite ?Eb in HB1. exact HB1.
Qed.

(** The two arrays of edge mode, zeroed. *)
Definition arrays w w' (n : Z) : Prop :=
  exists a b, ngx_wepoll_states w' = Some a /\ ngx_wepoll_pending_states w' = Some b /\
    n_states w' = zero_states a (Z.to_nat n) (n_states w) /\ n_pending w' !! b = Some (replicate (Z.to_nat n) NULL) /\
    ngx_wepoll_state_count w' = n /\ ngx_wepoll_pending_count w' = 0.
(** Between the allocation and the zeroing. *)
Record fresh_arrays w w' (sp pp : ptr) : Prop := {
  fa_states : ngx_wepoll_states w' = sp;
  fa_pending : ngx_wepoll_pending_states w' = pp;
  fa_array : ngx_wepoll_events w' = ngx_wepoll_events w;
  fa_edge : ngx_wepoll_edge_enabled w' = ngx_wepoll_edge_enabled w;
  fa_events : n_events w' = n_events w;
  fa_port : n_port w' = n_port w;
  fa_epfd : ngx_wepoll_epfd w' = ngx_wepoll_epfd w;
  fa_heap : n_states w' = n_states w;
  fa_slots : n_pending w' = n_pending w
}.
Definition init_post B w (n : Z) (ok : bool) w' : Prop :=
  owns B w' /\ ngx_wepoll_edge_enabled w' = ngx_wepoll_edge_enabled w /\ n_events w' = n_events w /\
  ep_ctxs (n_port w') ⊆ ep_ctxs (n_port w) /\ same_port w w' /\ (ok = true -> arrays w w' n).

Lemma drop_arrays_wp B w w1 sp pp n :
  fresh_arrays w w1 sp pp -> blocks_are B (omap id [pp; sp; ngx_wepoll_events w]) (n_blocks w1) -> sp = NULL \/ pp = NULL ->
  wp (ngx_free sp ;; put ngx_wepoll_states NULL ;; ngx_free pp ;; put ngx_wepoll_pending_states NULL ;; ret false) (init_post B w n) w1.
Proof.
  intros [Hs Hp Hev Hed Hne Hpt Hepfd _ _] HB Hnull.
  assert (Hend : forall w', blocks_are B (omap id [ngx_wepoll_events w]) (n_blocks w') -> ngx_wepoll_events w' = ngx_wepoll_events w ->
    ngx_wepoll_states w' = NULL -> ngx_wepoll_pending_states w' = NULL -> ngx_wepoll_edge_enabled w' = ngx_wepoll_edge_enabled w ->
    n_events w' = n_events w -> n_port w' = n_port w -> ngx_wepoll_epfd w' = ngx_wepoll_epfd w -> init_post B w n false w').
  { intros w' H1 H2 H3 H4 H5 H6 H7 H8. split; [unfold owns; rewrite H2, H3, H4; exact H1|]. split_and!; try done; [by rewrite H7|]. split; [done|by rewrite H7]. }
  destruct sp as [a|], pp as [b|]; [by destruct Hnull| | |].
  - destruct (ba_mine _ _ _ HB a) as [[size Ha] _]; [by left|]. apply wp_bind. eapply wp_run; [by eapply free_run|].
    apply wp_bind, wp_put. apply wp_bind. eapply wp_run; [done|]. apply wp_bind, wp_put, wp_ret. unfold freed.
    apply Hend; sget; try done. by eapply blocks_free.
  - apply wp_bind. eapply wp_run; [done|]. apply wp_bind, wp_put. destruct (ba_mine _ _ _ HB b) as [[size Hb] _]; [by left|].
    apply wp_bind. eapply wp_run; [by eapply free_run|]. apply wp_bind, wp_put, wp_ret. unfold freed. apply Hend; sget; try done. by eapply blocks_free.
  - apply wp_bind. eapply wp_run; [done|]. apply wp_bind, wp_put. apply wp_bind. eapply wp_run; [done|]. apply wp_bind, wp_put, wp_ret. apply Hend; by sget.
Qed.

Lemma init_arrays_wp B w w1 sp pp n :
  fresh_arrays w w1 sp pp -> blocks_are B (omap id [pp; sp; ngx_wepoll_events w]) (n_blocks w1) ->
  wp (match sp, pp with
      | Some a, Some b =>
        h <- get n_states ;;
        put n_states (zero_states a (Z.to_nat n) h) ;;
        l <- get n_pending ;;
        put n_pending (<[b := replicate (Z.to_nat n) NULL]> l) ;;
        put ngx_wepoll_state_count n ;;
        put ngx_wepoll_pending_count 0 ;;
        ret true
      | _, _ => ngx_free sp ;; put ngx_wepoll_states NULL ;; ngx_free pp ;; put ngx_wepoll_pending_states NULL ;; ret false
      end) (init_post B w n) w1.
Proof.
  intros H HB. destruct sp as [a|], pp as [b|]; try by (eapply drop_arrays_wp; eauto).
  destruct H as [Hs Hp Hev Hed Hne Hpt Hepfd Hh Hsl]. apply wp_bind, wp_get. apply wp_bind, wp_put. apply wp_bind, wp_get.
  do 3 (apply wp_bind, wp_put). apply wp_ret. unfold init_post, owns, arrays. sget. split_and!; try done; [|by rewrite Hpt|split; sget; by rewrite ?Hpt|].
  - rewrite Hs, Hp, Hev. cbn. eapply (blocks_perm _ _ _ _ HB). cbn. destruct (ngx_wepoll_events w); cbn; solve_Permutation.
  - intros _. exists a, b. sget. rewrite Hh, lookup_insert_eq. done.
Qed.

Lemma init_states_wp B cycle w :
  owns B w -> ngx_wepoll_states w = NULL -> ngx_wepoll_pending_states w = NULL -> 0 <= cy_connection_n cycle ->
  wp (init_states cycle) (init_post B w (cy_connection_n cycle)) w.
Proof.
  intros HB Hs Hp Hn. unfold owns in HB. rewrite Hs, Hp in HB. unfold init_states. cbv zeta.
  destruct (_ || _ || _).
  { eapply wp_seq; [apply log_wp|]. intros [] w1 (Hk & [? ? ? ? ?] & ?). apply wp_ret. split; [eapply kept_owns; [exact Hk|]|done].
    unfold owns. by rewrite Hs, Hp. }
  eapply wp_seq; [by apply (alloc_wp B)|]. intros sp' w1 H1. apply wp_bind, wp_put.
  set (w2 := w1 <| ngx_wepoll_states := _ |>).
  assert (HB2 : blocks_are B (omap id [sp'; ngx_wepoll_events w]) (n_blocks w2)) by (destruct sp' as [a|]; [exact (proj2 H1)|subst w1; exact HB]).
  assert (E2 : w2 = w <| n_blocks := n_blocks w2 |> <| ngx_wepoll_states := sp' |>) by (destruct sp' as [a|]; [destruct H1 as [-> _]; done|subst w1; by destruct w]).
  eapply wp_seq; [by apply (alloc_wp B)|]. intros pp' w3 H3. apply wp_bind, wp_put.
  set (w4 := w3 <| ngx_wepoll_pending_states := _ |>).
  assert (HB4 : blocks_are B (omap id [pp'; sp'; ngx_wepoll_events w]) (n_blocks w4)) by (destruct pp' as [b|]; [exact (proj2 H3)|subst w3; exact HB2]).
  assert (E4 : w4 = w2 <| n_blocks := n_blocks w4 |> <| ngx_wepoll_pending_states := pp' |>) by (destruct pp' as [b|]; [destruct H3 as [-> _]; done|subst w3; by destruct w2]).
  rewrite E2 in E4. clearbody w4. clear H1 H3 HB2.
  assert (H4 : fresh_arrays w w4 sp' pp') by (clearbody w2; rewrite E4; split; by sget). clear E4 E2.
  by apply init_arrays_wp.
Qed.

(** ** The whole initialisation *)

Lemma init_finish_wp cycle w :
  wp (init_finish cycle) (fun _ w' => kept w w' /\ stage w w' /\ same_port w w' /\ ngx_wepoll_cycle w' = Some cycle /\
    forall w0 n, arrays w0 w n -> arrays w0 w' n) w.
Proof.
  destruct w as [? ? ? ? ? ? ? ? [] ? ? ? ? ? ? ? ? ? ? ? ? ? ? ? ? ? ? ? ? ? ?]; unfold wp; eexists _, _; (split; [reflexivity|]);
    (split; [by split|split; [by split|split; [done|split; [done|intros w0 n Ha; exact Ha]]]]).
Qed.

(** What an initialisation from [w] with answer [r] leaves: its blocks are the
    module's; a port was created before it can succeed, and its descriptor kept;
    in edge mode the arrays are there. *)
Record initialised cycle w (r : Z) w' : Prop := {
  in_owns : owns (n_blocks w) w';
  in_calls : r <> NGX_OK /\ ngx_wepoll_epfd w' = -1 /\ pc_calls (n_port w') = pc_calls (n_port w) \/
    exists ok, creating (pc_calls (n_port w)) w' ok /\ (r = NGX_OK -> ok = true);
  in_edge : r = NGX_OK -> ngx_wepoll_edge_enabled w' = true ->
    exists w1, arrays w1 w' (cy_connection_n cycle) /\ ngx_wepoll_cycle w' = Some cycle /\ n_events w' = n_events w /\
      ep_ctxs (n_port w') ⊆ ep_ctxs (n_port w)
}.
(** Failures before and after the port is asked for. *)
Lemma initialised_early cycle w w' : owns (n_blocks w) w' -> ngx_wepoll_epfd w' = -1 -> pc_calls (n_port w') = pc_calls (n_port w) ->
  initialised cycle w NGX_ERROR w'.
Proof. intros H1 H2 H3. split; [done|by left|intros [=]]. Qed.
Lemma initialised_late cycle w w' ok : owns (n_blocks w) w' -> creating (pc_calls (n_port w)) w' ok -> initialised cycle w NGX_ERROR w'.
Proof. intros H1 H2. split; [done|right; exists ok; split; [done|intros [=]]|intros [=]]. Qed.

Lemma init_wp cycle w : pristine w -> 0 <= cy_connection_n cycle -> wp (ngx_wepoll_init cycle) (initialised cycle w) w.
Proof.
  intros Hpr Hn. unfold ngx_wepoll_init. pose proof (pr_states _ Hpr) as Hs. pose proof (pr_pending_states _ Hpr) as Hp. pose proof (pr_epfd _ Hpr) as Hfd.
  assert (HB : owns (n_blocks w) w) by (unfold owns; rewrite Hs, Hp, (pr_events _ Hpr); apply blocks_start).
  destruct (cy_conf cycle) as [wcf|]; [|by apply wp_ret, initialised_early].
  assert (Hlog : forall w1 level text, kept w w1 -> same_port w w1 -> wp (ngx_log_error level text [] ;; ret NGX_ERROR) (initialised cycle w) w1).
  { intros w1 level text Hk1 Hs1. eapply wp_seq; [apply log_wp|]. intros [] w2 (Hk2 & _ & Hs2). destruct (same_port_trans _ _ _ Hs1 Hs2) as [He Hc].
    apply wp_ret, initialised_early; [|congruence|done]. eapply kept_owns; [|exact HB]. by eapply kept_trans. }
  destruct (_ || _ || _); [by apply Hlog|].
  cbv zeta. do 3 (apply wp_bind, wp_put). set (w1 := _ <| ngx_wepoll_close_audit := _ |>).
  assert (Hk1 : kept w w1 /\ same_port w w1) by (unfold w1; split; split; by sget). destruct Hk1 as [Hk1 Hsp1].
  assert (Hg1 : n_events w1 = n_events w /\ n_port w1 = n_port w /\ ngx_wepoll_edge_enabled w1 = negb (cf_edge wcf =? 0)) by (unfold w1; sget; done).
  clearbody w1. do 2 (apply wp_bind, wp_get). pose proof (kept_owns _ _ _ Hk1 HB) as HB1.
  destruct (_ && _); [by apply Hlog|]. destruct (_ && _); [by apply Hlog|]. clear Hlog.
  eapply wp_seq; [apply init_port_wp; destruct Hsp1; congruence|]. intros ok w2 (Hk2 & Hg2 & Hc2). rewrite (proj2 Hsp1) in Hc2.
  pose proof (kept_owns _ _ _ Hk2 HB1) as HB2. destruct ok; cbn [negb]; [|by eapply wp_ret, initialised_late].
  eapply wp_seq; [by apply (init_events_wp (n_blocks w))|]. intros ok w3 (HB3 & Hg3 & Hsp3).
  pose proof (creating_same _ _ _ _ Hsp3 Hc2) as Hc3. pose proof (stage_trans _ _ _ Hg2 Hg3) as [Hs3 Hp3 Hed3 Hev3 Hx3].
  destruct ok; cbn [negb]; [|by eapply wp_ret, initialised_late].
  rewrite (kp_states _ _ Hk1), Hs in Hs3. rewrite (kp_pending _ _ Hk1), Hp in Hp3. destruct Hg1 as (Hev1 & Hpt1 & Hed1). rewrite Hed1 in Hed3. rewrite Hpt1 in Hx3.
  destruct (negb (cf_edge wcf =? 0)).
  - eapply wp_seq; [by apply (init_states_wp (n_blocks w))|]. intros ok w4 (HB4 & Hed4 & Hev4 & Hx4 & Hsp4 & Ha4).
    pose proof (creating_same _ _ _ _ Hsp4 Hc3) as Hc4. destruct ok; cbn [negb]; [|by eapply wp_ret, initialised_late]. eapply wp_mono; [apply init_finish_wp|].
    intros r w5 (Hk5 & [? ? ? Hev5 Hx5] & Hsp5 & Hcy5 & Ha5). split; [by eapply kept_owns|right; exists true; split; [by eapply creating_same|done]|].
    intros _ _. exists w3. split_and!; [by apply Ha5, Ha4|done|congruence|set_solver].
  - apply wp_bind, wp_ret. cbn [negb]. eapply wp_mono; [apply init_finish_wp|].
    intros r w5 (Hk5 & [? ? Hed5 ? ?] & Hsp5 & _). split; [by eapply kept_owns|right; exists true; split; [by eapply creating_same|done]|]. by rewrite Hed5, Hed3.
Qed.

(** Initialisation and shutdown, with the calls into the port between [l] and [l']. *)
Definition port_closed (r : Z) (l l' : list port_call) : Prop :=
  r <> NGX_OK /\ l' = l \/
  r <> NGX_OK /\ (exists size flags, l' = CallCreate size flags (-1) :: l) \/
  exists size flags epfd answer, epfd <> -1 /\ l' = CallClose epfd answer :: CallCreate size flags epfd :: l.

Lemma init_done_wp w cycle :
  pristine w -> 0 <= cy_connection_n cycle ->
  exists r w1 w2, ngx_wepoll_init cycle w = Some (r, w1) /\ ngx_wepoll_done w1 = Some (tt, w2) /\ pristine w2 /\ n_blocks w2 = n_blocks w /\
    port_closed r (pc_calls (n_port w)) (pc_calls (n_port w2)).
Proof.
  intros Hp Hn. destruct (init_wp cycle w Hp Hn) as (r & w1 & Hr & [HB Hc _]). destruct (done_wp _ _ HB) as ([] & w2 & Hd & H1 & H2 & H3).
  exists r, w1, w2. split_and!; try done. unfold closing in H3. destruct Hc as [(Hr1 & He & Hc)|(ok & (size & flags & Hc & ->) & Hok)].
  - rewrite He, Hc in H3. by left.
  - rewrite Hc in H3. right. destruct (Z.eqb_spec (ngx_wepoll_epfd w1) (-1)) as [He|He].
    + left. rewrite He in H3. split; [intros HO; by specialize (Hok HO)|by exists size, flags].
    + right. destruct H3 as [x H3]. by exists size, flags, (ngx_wepoll_epfd w1), x.
Qed.

Lemma zero_states_lookup {G : geometry} n h i : (i < n)%nat -> zero_states g_states n h !! sp i = Some zero_state.
Proof.
  intros Hi. assert (Hin : i ∈ seq 0 n) by (apply elem_of_seq; lia). unfold zero_states. induction (seq 0 n) as [|j l IH]; [by apply elem_of_nil in Hin|].
  cbn [foldr]. rewrite state_at_sp. destruct (decide (j = i)) as [->|Hne]; [by rewrite lookup_insert_eq|].
  rewrite lookup_insert_ne by (by intros ?%sp_inj). apply IH. by apply elem_of_cons in Hin as [->|Hin].
Qed.

(** A successful initialisation in edge mode establishes the invariant of the
    edge bookkeeping: one unregistered state per connection of the cycle and an
    empty queue with room for every state. *)
Lemma init_edge_inv w cycle base (E lost : gset addr) w' :
  pristine w -> ep_ctxs (n_port w) = ∅ -> 0 < sizeof_connection -> 0 <= cy_connection_n cycle -> cy_connections cycle = Some base ->
  E ⊆ dom (n_events w) -> ngx_wepoll_init cycle w = Some (NGX_OK, w') -> ngx_wepoll_edge_enabled w' = true ->
  exists states array, edge_inv (G := mk_geometry cycle base states array (Z.to_nat (cy_connection_n cycle)) E lost) w'.
Proof.
  intros Hp Hx Hz Hn Hb HE Hrun Hedge. destruct (init_wp cycle w Hp Hn) as (r & w1 & Hr & [_ _ H]). rewrite Hrun in Hr. injection Hr as <- <-.
  destruct (H eq_refl Hedge) as (w0 & (a & b & Hs & Ha & Hh & Hl & Hc & Hpc) & Hcy & Hev & Hctx). rewrite Hx in Hctx. exists a, b.
  set (G := mk_geometry _ _ _ _ _ _ _). exists (replicate (Z.to_nat (cy_connection_n cycle)) NULL), 0. split; [cbn; lia|]. rewrite take_0. split; try done.
  - split; try done; cbn; [by rewrite Z2Nat.id|by rewrite Hev].
  - intros i Hi. exists zero_state. rewrite Hh. split; [by apply (zero_states_lookup (G := G))|]. split; [by split|]. by split; [|intros ?%elem_of_nil].
  - cbn. by rewrite length_replicate.
  - constructor.
  - by intros p ?%elem_of_nil.
  - set_solver.
Qed.
End Life.

(** C11: Over any event port with the laws [PortLaws]: initialising the module always
    returns, and shutting it down afterwards, whether the initialisation
    succeeded or failed at any of its steps, returns, frees exactly the blocks that
    were allocated, and leaves every global variable of the module at its initial
    value.  The port the initialisation created, if it got one, is closed exactly
    once, by the descriptor the library returned; an initialisation that succeeds
    has created one; nothing else is created or closed. *)
Theorem init_done_roundtrip {K : Type} `{!EventPort K} `{!PortLaws K} `{!Nginx (recorded K)} (w : ngx_world (recorded K)) cycle :
  pristine w -> 0 <= cy_connection_n cycle ->
  exists r w1 w2, ngx_wepoll_init cycle w = Some (r, w1) /\ ngx_wepoll_done w1 = Some (tt, w2) /\ pristine w2 /\ n_blocks w2 = n_blocks w /\
    port_closed r (rc_calls (n_port w)) (rc_calls (n_port w2)).
Proof. exact (init_done_wp w cycle). Qed.

Lemma small_pristine : pristine small_world.
Proof. by split. Qed.
Lemma init_done_roundtrip_witness :
  pristine small_world /\ 0 <= cy_connection_n (small_cycle 1) /\
  exists r w1 w2, ngx_wepoll_init (small_cycle 1) small_world = Some (r, w1) /\ ngx_wepoll_done w1 = Some (tt, w2) /\ pristine w2 /\ n_blocks w2 = n_blocks small_world /\
    port_closed r (rc_calls (n_port small_world)) (rc_calls (n_port w2)).
Proof.
  split; [exact small_pristine|]. split; [vm_compute; discriminate|].
  apply (init_done_roundtrip small_world (small_cycle 1)); [exact small_pristine|vm_compute; discriminate].
Defined.

Lemma small_init_runs : result (ngx_wepoll_init (small_cycle 1)) small_world = Some NGX_OK.
Proof. vm_compute. reflexivity. Qed.
Lemma small_init_inv lost : exists states array,
  edge_inv (G := mk_geometry (small_cycle 1) 1000 states array 2 small_events lost) small_init.
Proof.
  apply (init_edge_inv small_world (small_cycle 1) 1000 small_events lost); [exact small_pristine|reflexivity|reflexivity|vm_compute; discriminate|reflexivity| | |reflexivity].
  - by vm_compute.
  - exact (run_exec _ _ _ small_init_runs).
Qed.
