(* ===== verification/NgxDeliver.v ===== *)
(** * Edge mode of the nginx module: delivery

    The delivery of a record hands classes over to nginx and queues the state;
    handlers run in between.  The invariant holds in every state a worker reaches. *)
From Stdlib Require Import String.
From S2P Require Import Prelude Codes Errno PosixTypes Lifecycle NgxTypes Nginx NgxEdge NgxLedger NgxRearm NgxOps NgxWorker NgxDemo NgxLife.

Section Deliver.
Context {K : Type} `{!EventPort K} `{!Nginx K} `{!PortLaws K} {G : geometry}.
Implicit Types (w : ngx_world K) (i : nat) (s : ngx_wepoll_connection_state_t).

(** ** The queue has room *)

Lemma queue_room (Q : list ptr) i :
  NoDup Q -> (forall p, p ∈ Q -> exists j, (j < g_n)%nat /\ p = Some (sp j)) -> Some (sp i) ∉ Q -> (i < g_n)%nat ->
  (length Q < g_n)%nat.
Proof.
  intros Hn Hq Hi Hlt. assert (Hsub : Some (sp i) :: Q ⊆+ (fun j => Some (sp j)) <$> seq 0 g_n).
  { apply NoDup_submseteq; [by apply NoDup_cons|]. intros p [->|Hp]%elem_of_cons.
    - apply list_elem_of_fmap. exists i. split; [done|]. apply elem_of_seq. lia.
    - destruct (Hq p Hp) as (j & Hj & ->). apply list_elem_of_fmap. exists j. split; [done|]. apply elem_of_seq. lia. }
  apply submseteq_length in Hsub. rewrite length_fmap, length_seq in Hsub. cbn in Hsub. lia.
Qed.

(** The state is queued if something is pending; the overflow branch is dead. *)
Lemma queue_wp l cnt w i s :
  books (but w i s) (take (Z.to_nat cnt) l) l cnt w -> 0 <= cnt <= Z.of_nat g_n -> (i < g_n)%nat ->
  wp (ngx_wepoll_queue_pending_state (Some (sp i))) (fun _ w' => exists l' cnt' s',
    0 <= cnt' <= Z.of_nat g_n /\ books (but w' i s') (take (Z.to_nat cnt') l') l' cnt' w' /\ events_keep core_of w w' /\
    s' = s <| ns_queued := ns_queued s' |> /\ (ns_pending s <> 0 -> ns_queued s' = true)) w.
Proof.
  intros HB Hcnt Hi. unfold ngx_wepoll_queue_pending_state. apply wp_bind. eapply wp_rd; [by eapply held_lookup|]. cbn [id].
  assert (Hsame : (ns_pending s <> 0 -> ns_queued s = true) -> wp (ret tt) (fun _ w' => exists l' cnt' s',
    0 <= cnt' <= Z.of_nat g_n /\ books (but w' i s') (take (Z.to_nat cnt') l') l' cnt' w' /\ events_keep core_of w w' /\
    s' = s <| ns_queued := ns_queued s' |> /\ (ns_pending s <> 0 -> ns_queued s' = true)) w).
  { intros Hq. apply wp_ret. exists l, cnt, s. split_and!; try done; try lia. by destruct s. }
  destruct (Z.eqb_spec (ns_pending s) 0) as [Hz|Hz]; cbn [orb]; [by apply Hsame|].
  destruct (ns_queued s) eqn:Eq; [by apply Hsame|]. clear Hsame.
  assert (Hlen : length l = g_n) by apply HB.
  assert (Hnot : Some (sp i) ∉ take (Z.to_nat cnt) l) by (rewrite <- (held_queued _ _ _ _ _ _ HB Hi); congruence).
  pose proof (queue_room _ i (bk_nodup _ _ _ _ _ HB) (bk_queue _ _ _ _ _ HB) Hnot Hi) as Hroom. rewrite length_take in Hroom.
  apply wp_bind, wp_get. apply wp_bind, wp_get. rewrite (bk_count _ _ _ _ _ HB), (gl_count _ (bk_globals _ _ _ _ _ HB)).
  rewrite (proj2 (Z.leb_gt _ _)) by lia. apply wp_bind, wp_put. set (w1 := w <| ngx_wepoll_pending_count := _ |>).
  apply wp_bind. eapply wp_run.
  { unfold pending_set. rewrite bind_some with (a := Some g_array) (w' := w1); [|unfold get; by rewrite <- (gl_array _ (bk_globals _ _ _ _ _ HB))].
    erewrite bind_some by (apply rd_some; exact (bk_array _ _ _ _ _ HB)). cbn [id].
    rewrite (proj2 (Z.ltb_ge _ _)), (proj2 (Z.leb_gt _ _)) by lia. apply st_some with (r := l). exact (bk_array _ _ _ _ _ HB). }
  set (w2 := w1 <| n_pending := _ |>). eapply wp_wr; [exact (held_lookup _ _ _ _ _ _ HB Hi)|]. set (w3 := w2 <| n_states := _ |>).
  exists (<[Z.to_nat cnt := Some (sp i)]> l), (cnt + 1), (s <| ns_queued := true |>). split; [lia|]. split; [|done].
  replace (Z.to_nat (cnt + 1)) with (S (Z.to_nat cnt)) by lia.
  rewrite (take_S_r _ _ (Some (sp i))) by (apply list_lookup_insert_eq; lia). rewrite take_insert_ge by done.
  eapply held_write; [exact HB|done|..]; unfold w3, w2, w1; sget; try done.
  - intros [? ? ? ? ? ? ? ?]; by split.
  - by rewrite lookup_insert_eq.
  - set_solver.
  - by rewrite length_insert.
  - apply NoDup_app. split_and!; [apply HB| |apply NoDup_singleton]. intros p Hp ->%list_elem_of_singleton. done.
  - intros p. rewrite elem_of_app, list_elem_of_singleton. destruct (decide (p = Some (sp i))); naive_solver.
Qed.

(** ** Handing classes over *)

(** The pending classes after a delivery. *)
Definition new_pending (revents p interests : Z) : Z :=
  let p := if is_read_ready revents && has interests WEPOLL_EX_REARM_READ then Z.lor p WEPOLL_EX_REARM_READ else p in
  if is_write_ready revents && has interests WEPOLL_EX_REARM_WRITE then Z.lor p WEPOLL_EX_REARM_WRITE else p.
Lemma deliver_bits E revents (p d i : Z) : 0 <= i < 4 -> 0 <= d < 8 -> agree E p d i ->
  0 <= Z.lor d (delivered_classes revents) < 8 /\
  agree E (new_pending revents p i) (Z.lor d (delivered_classes revents)) i.
Proof.
  unfold new_pending, delivered_classes, is_read_ready, is_write_ready.
  intros Hi Hd Ha. pose proof (agree_below4 _ _ _ _ Hd Hi Ha) as Hp. destruct Ha as [H1 H2]. unfold agree. revert H1 H2.
  destruct (is_terminal revents), (has revents READ_READY), (has revents WRITE_READY); cbn [orb andb]; by_classes Hi Hd Hp.
Qed.

Lemma wp_bump f `{!Setter f} w : (forall w v, calm core_of w (w <| f := v |>)) -> wp (bump f) (fun _ w' => calm core_of w w') w.
Proof. intros Hf. apply wp_bind, wp_get, wp_put, Hf. Qed.

(** One side of a delivery: a wanted class becomes pending and its event inactive. *)
Lemma side_wp Q l cnt w i s a f `{!Setter f} (b : bool) class (m : NM K unit) :
  (forall w v, calm core_of w (w <| f := v |>)) ->
  books (but w i s) Q l cnt w -> (i < g_n)%nat -> is_Some (n_events w !! a) ->
  (forall w', events_keep core_of w w' -> wp m (fun _ w'' => calm core_of w' w'') w') ->
  wp (if b then
        pending <- rd n_states (Some (sp i)) ns_pending ;;
        wr n_states (Some (sp i)) ns_pending (Z.lor pending class) ;;
        m ;; bump f
      else ret tt) (fun _ w' => events_keep core_of w w' /\
        books (but w' i (s <| ns_pending := if b then Z.lor (ns_pending s) class else ns_pending s |>)) Q l cnt w') w.
Proof.
  intros Hf HB Hi Ha Hm. destruct b; [|apply wp_ret; split; [done|by destruct s]].
  apply wp_bind. eapply wp_rd; [by eapply held_lookup|]. apply wp_bind. eapply wp_wr; [by eapply held_lookup|].
  set (w1 := w <| n_states := _ |>). pose proof (held_set _ _ _ _ w1 _ _ _ HB Hi eq_refl eq_refl) as HB1.
  eapply wp_seq; [by apply Hm|]. intros [] w2 Hc2. eapply wp_mono; [by apply wp_bump|]. intros [] w3 Hc3. pose proof (calm_trans _ _ _ _ Hc2 Hc3) as Hc.
  split; [exact (cm_events _ _ _ Hc)|]. exact (held_core _ _ _ _ _ _ _ Hc HB1).
Qed.

Lemma edge_deliver_wp l cnt w i s revents k r e rev wev :
  books (but w i s) (take (Z.to_nat cnt) l) l cnt w -> 0 <= cnt <= Z.of_nat g_n -> (i < g_n)%nat -> st_ok w i s -> ns_registered s = true ->
  live w (cp i) (ns_fd s) (ns_instance s) k r e rev wev ->
  wp (edge_deliver (Some (sp i)) revents (Some r) (Some e)) (fun _ w' => edge_inv w') w.
Proof.
  intros HB Hcnt Hi Hok Hreg Hv. unfold edge_deliver.
  assert (Hr : is_Some (n_events w !! r)) by (eexists; apply Hv). assert (Hw : is_Some (n_events w !! e)) by (eexists; apply Hv).
  eapply (wp_seq _ _ (fun _ w' => calm core_of w w')).
  { destruct (is_terminal revents); [|by apply wp_ret, calm_refl]. apply wp_bump. intros w' v. by apply calm_same. }
  intros [] w1 Hc1. pose proof (held_core _ _ _ _ _ _ _ Hc1 HB) as HB1.
  apply wp_bind. eapply wp_rd; [by eapply held_lookup|]. apply wp_bind. eapply wp_wr; [by eapply held_lookup|].
  set (d' := Z.lor (ns_disarmed s) (delivered_classes revents)). set (w2 := w1 <| n_states := _ |>).
  pose proof (held_set _ _ _ _ w2 _ _ _ HB1 Hi eq_refl eq_refl) as HB2. assert (He2 : events_keep core_of w w2) by exact (cm_events _ _ _ Hc1).
  apply wp_bind. eapply wp_rd; [by eapply held_lookup|]. cbv zeta. sget.
  eapply wp_seq; [eapply (side_wp _ _ _ _ _ _ r ngx_wepoll_edge_read_deliveries _ _ (deactivate_read (Some r))); [|exact HB2|done| |]|].
  { intros w' v. by apply calm_same. } { by eapply keep_is_Some. }
  { intros w' He'. destruct (keep_is_Some _ _ _ r (events_keep_trans _ _ _ _ He2 He') Hr) as [x Hx]. apply wp_bind. eapply wp_rd; [done|].
    destruct (negb (ne_accept x)); [by apply wp_active|by apply wp_ret, calm_refl]. }
  intros [] w3 [He3 HB3]. pose proof (events_keep_trans _ _ _ _ He2 He3) as He3'.
  eapply wp_seq; [eapply (side_wp _ _ _ _ _ _ e ngx_wepoll_edge_write_deliveries _ _ (set_active (Some e) false)); [|exact HB3|done| |]|].
  { intros w' v. by apply calm_same. } { by eapply keep_is_Some. }
  { intros w' He'. apply wp_active. by eapply keep_is_Some, Hw; eapply events_keep_trans. }
  intros [] w4 [He4 HB4]. pose proof (events_keep_trans _ _ _ _ He3' He4) as He4'. sget_in HB4.
  eapply wp_seq; [by eapply queue_wp|]. intros [] w5 (l5 & cnt5 & s5 & Hcnt5 & HB5 & He5 & Hs5 & Hq5). apply wp_ret.
  exists l5, cnt5. split; [done|]. eapply books_close; [exact HB5|].
  destruct (deliver_bits _ revents _ _ _ (so_interests _ _ _ Hok) (so_disarmed _ _ _ Hok) (so_pending _ _ _ Hok)) as [Hlt Hbits].
  assert (Hp5 : ns_pending s5 = new_pending revents (ns_pending s) (ns_interests s)) by (rewrite Hs5; reflexivity).
  eapply (st_ok_keep w); [apply events_keep_identity; by eapply events_keep_trans|]. rewrite Hs5.
  eapply set_ok; [exact Hok|done..|apply Hok|exact Hlt| |]; sget.
  - exact Hbits.
  - exact Hq5.
Qed.

(** ** Dispatch *)

Context `{!NginxLaws}.

Lemma inv_calm w w' : calm identity_of w w' -> edge_inv w -> edge_inv w'.
Proof. intros Hc (l & cnt & Hcnt & HB). exists l, cnt. split; [done|]. by eapply ok_calm. Qed.
Lemma nginx_run_inv w w' : rtc nginx_step w w' -> edge_inv w -> edge_inv w'.
Proof. induction 1; [done|]. intros Hinv. by eauto using nginx_step_inv. Qed.
Lemma event_exists w a : edge_inv w -> a ∈ g_events -> is_Some (n_events w !! a).
Proof. intros (l & cnt & _ & HB) Ha. by apply elem_of_dom, (gl_events _ (bk_globals _ _ _ _ _ HB)). Qed.

(** A step that keeps the invariant. *)
Definition steady {A} (m : NM K A) : Prop := forall w, edge_inv w -> wp m (fun _ w' => edge_inv w') w.

Lemma steady_event {U} (h : ngx_event_t -> U) `{!Setter h} a v :
  a ∈ g_events -> (forall e, identity_of (e <| h := v |>) = identity_of e) -> steady (wr n_events (Some a) h v).
Proof.
  intros Ha Hh w Hinv. destruct (event_exists w a Hinv Ha) as [e He]. eapply wp_mono; [by eapply (wp_event identity_of)|].
  intros [] w' Hc. by eapply inv_calm.
Qed.
Lemma steady_hand_over a post accept : a ∈ g_events -> steady (hand_over (Some a) post accept).
Proof.
  intros Ha w Hinv. pose proof (event_exists w a Hinv Ha) as He. unfold hand_over. destruct post.
  - destruct (law_post a accept w He) as (w' & Hrun & Hs). eapply wp_run; [done|]. by eapply nginx_run_inv.
  - destruct He as [x Hx]. apply wp_bind. eapply wp_rd; [done|]. destruct (ne_handler x); [|by apply wp_ret].
    destruct (law_handler a w) as (w' & Hrun & Hs); [by eexists|]. eapply wp_run; [done|]. by eapply nginx_run_inv.
Qed.
Lemma steady_seq {A B} (m : NM K A) (k : A -> NM K B) : steady m -> (forall a, steady (k a)) -> steady (bind m k).
Proof. intros Hm Hk w Hinv. eapply wp_seq; [by apply Hm|]. intros a w' Hw'. by apply Hk. Qed.
Lemma steady_ret {A} (a : A) : steady (ret a).
Proof. intros w Hinv. by apply wp_ret. Qed.
Lemma steady_get {T} (f : ngx_world K -> T) : steady (get f).
Proof. intros w Hinv. by apply wp_get. Qed.
Lemma steady_log level text numbers : steady (ngx_log_error level text numbers).
Proof. intros w Hinv. eapply wp_mono; [apply (wp_log identity_of)|]. intros [] w' Hc. by eapply inv_calm. Qed.
Lemma steady_rd_event {U} (h : ngx_event_t -> U) a : a ∈ g_events -> steady (rd n_events (Some a) h).
Proof. intros Ha w Hinv. destruct (event_exists w a Hinv Ha) as [e He]. by eapply wp_rd. Qed.
Lemma steady_state {A} i (m : NM K A) : (i < g_n)%nat ->
  (forall l cnt w s, 0 <= cnt <= Z.of_nat g_n -> books (but w i s) (take (Z.to_nat cnt) l) l cnt w -> st_ok w i s -> wp m (fun _ w' => edge_inv w') w) -> steady m.
Proof. intros Hi Hm w (l & cnt & Hcnt & HB). destruct (books_open _ _ _ _ _ HB Hi) as (s & HB1 & Hok). by eapply Hm. Qed.
Lemma steady_rd_state {U} (h : ngx_wepoll_connection_state_t -> U) i : (i < g_n)%nat -> steady (rd n_states (Some (sp i)) h).
Proof.
  intros Hi. apply (steady_state i); [done|]. intros l cnt w s Hcnt HB Hok. eapply wp_rd; [by eapply held_lookup|].
  exists l, cnt. split; [done|]. by eapply books_close.
Qed.
Lemma steady_current i : (i < g_n)%nat -> steady (ngx_wepoll_state_is_current (Some (sp i))).
Proof.
  intros Hi. apply (steady_state i); [done|]. intros l cnt w s Hcnt HB Hok.
  eapply wp_run; [eapply is_current_run; [done|done|exact (so_bound _ _ _ Hok)]|]. exists l, cnt. split; [done|]. by eapply books_close.
Qed.
Lemma steady_rearm_ready i : (i < g_n)%nat -> steady (ngx_wepoll_rearm_ready_state (Some (sp i))).
Proof.
  intros Hi. apply (steady_state i); [done|]. intros l cnt w s Hcnt HB Hok. eapply wp_mono; [by eapply rearm_ready_wp|].
  intros r w' (s' & _ & HB' & Hok' & _). exists l, cnt. split; [done|]. by eapply books_close.
Qed.

Create HintDb steady.
#[local] Hint Resolve steady_ret steady_get steady_log steady_hand_over steady_rd_event steady_rd_state steady_current steady_rearm_ready : steady.
Ltac go_steady :=
  repeat first [ assumption
               | progress intros
               | match goal with
                 | |- steady (bind _ _) => apply steady_seq
                 | |- steady (wr n_events _ _ _) => apply steady_event; [assumption|intros; reflexivity]
                 | |- steady (if ?b then _ else _) => destruct b
                 end
               | solve [eauto with steady] ].

Lemma steady_dispatch_read r revents post : r ∈ g_events -> steady (dispatch_read (Some r) revents post).
Proof. intros Hr. unfold dispatch_read. go_steady. Qed.
Lemma steady_rearm_after i : (i < g_n)%nat -> steady (rearm_after (Some (sp i))).
Proof. intros Hi. unfold rearm_after. go_steady. Qed.
Lemma steady_dispatch_write i c e instance post : (i < g_n)%nat -> e ∈ g_events -> steady (dispatch_write (Some (sp i)) c (Some e) instance post).
Proof.
  intros Hi He. unfold dispatch_write. apply steady_seq; [|go_steady]. intros w Hinv. unfold write_wanted.
  apply wp_bind, wp_get. pose proof Hinv as (l & cnt & _ & HB). rewrite (gl_edge _ (bk_globals _ _ _ _ _ HB)). cbv iota.
  revert w Hinv l cnt HB. assert (Hs : steady (current <- ngx_wepoll_state_is_current (Some (sp i)) ;; if negb current then ret false
    else interests <- rd n_states (Some (sp i)) ns_interests ;; ret (has interests WEPOLL_EX_REARM_WRITE))) by go_steady.
  intros w Hinv _ _ _. by apply Hs.
Qed.

(** ** The delivery loop *)

Definition ctx_ok (e : epoll_event_ex) : Prop := ex_user_ctx e = 0 \/ exists i, (i < g_n)%nat /\ ex_user_ctx e = Zpos (sp i).

Lemma edge_on w : edge_inv w -> ngx_wepoll_edge_enabled w = true.
Proof. intros (l & cnt & _ & HB). apply (bk_globals _ _ _ _ _ HB). Qed.

(** Only a record of the connection that is registered now is dispatched. *)
Lemma admit_wp Q l cnt w i s e c instance :
  books (but w i s) Q l cnt w -> (i < g_n)%nat -> st_ok w i s -> ex_user_ctx e = Zpos (sp i) ->
  wp (is_for_connection e c instance) (fun b w' => calm core_of w w' /\
    (b = true -> ns_registered s = true /\ c = Some (cp i) /\ ns_instance s = instance)) w.
Proof.
  intros HB Hi Hok Hctx. unfold is_for_connection. apply wp_bind, wp_get. rewrite (gl_edge _ (bk_globals _ _ _ _ _ HB)), Hctx. cbn [to_ptr]. cbv zeta.
  apply wp_bind. eapply wp_run; [eapply is_current_run; [done|done|exact (so_bound _ _ _ Hok)]|].
  destruct (ns_registered s) eqn:Er; cbn [negb]; [|by apply wp_ret; split; [apply calm_refl|]].
  apply wp_bind. eapply wp_rd; [by eapply held_lookup|]. cbn [id]. destruct (so_bound _ _ _ Hok Er) as [Hcn _].
  case_bool_decide as Hc; cbn [orb]; [by apply wp_ret; split; [apply calm_refl|]|].
  destruct (Z.eqb_spec (ns_instance s) instance) as [Hin|]; cbn [negb]; [|by apply wp_ret; split; [apply calm_refl|]].
  apply wp_bind, wp_get. eapply (wp_seq _ _ (fun _ w' => calm core_of w w')).
  - destruct (_ && _); [|by apply wp_ret, calm_refl]. apply wp_bind, wp_put. set (w1 := w <| ngx_wepoll_missing_edge_flag_logged := _ |>).
    eapply wp_mono; [apply (wp_log core_of)|]. intros [] w2 Hc2. eapply calm_trans; [by apply (calm_same core_of w w1)|done].
  - intros [] w' Hc'. apply wp_ret. split; [done|]. intros _. split; [done|]. split; [|done]. congruence.
Qed.

Lemma steady_process_event post e : ctx_ok e -> steady (process_event post e).
Proof.
  intros He w Hinv. unfold process_event. cbv zeta. apply wp_bind, wp_get. rewrite (edge_on w Hinv). cbv iota.
  destruct He as [He|(i & Hi & He)].
  { unfold is_for_connection. apply wp_bind, wp_bind, wp_get. rewrite (edge_on w Hinv), He. cbn [to_ptr]. cbv zeta.
    apply wp_bind, wp_ret. cbn [negb]. by apply wp_ret, wp_ret. }
  rewrite He. cbn [to_ptr]. destruct Hinv as (l & cnt & Hcnt & HB). destruct (books_open _ _ _ _ _ HB Hi) as (s & HB1 & Hok).
  eapply wp_seq; [by eapply admit_wp|]. intros b w1 [Hc1 Hb]. pose proof (held_core _ _ _ _ _ _ _ Hc1 HB1) as HB2.
  pose proof (st_ok_keep _ _ _ _ (cm_events _ _ _ (calm_identity _ _ Hc1)) Hok) as Hok2.
  destruct b; cbn [negb]; [|apply wp_ret; exists l, cnt; split; [done|]; by eapply books_close].
  destruct (Hb eq_refl) as (Hreg & -> & Hin). destruct (so_bound _ _ _ Hok2 Hreg) as [_ (k & r & x & rev & wev & Hv)].
  apply wp_bind. eapply wp_rd; [apply Hv|]. apply wp_bind. eapply wp_rd; [apply Hv|].
  rewrite (lv_read _ _ _ _ _ _ _ _ _ Hv), (lv_write _ _ _ _ _ _ _ _ _ Hv). destruct (lv_known _ _ _ _ _ _ _ _ _ Hv) as [Hkr Hkw].
  eapply wp_seq; [by eapply edge_deliver_wp|]. intros d w2 Hinv2.
  match goal with |- wp ?m _ _ => assert (Hs : steady m); [|by apply Hs] end.
  apply steady_seq; [destruct d.1; [by apply steady_dispatch_read|apply steady_ret]|intros _].
  apply steady_seq; [destruct d.2; [by apply steady_dispatch_write|apply steady_ret]|intros _]. by apply steady_rearm_after.
Qed.
Lemma steady_process_loop post l result : Forall ctx_ok l -> steady (process_loop post l result).
Proof.
  intros Hl. revert result. induction Hl as [|e l He _ IH]; intros result; cbn [process_loop]; [apply steady_ret|].
  apply steady_seq; [by apply steady_process_event|]. intros r. apply IH.
Qed.

Lemma steady_wait epfd maxevents timeout w : edge_inv w ->
  wp (call (ep_wait_ex epfd maxevents timeout)) (fun x w' => edge_inv w' /\ Forall ctx_ok x.2 /\ (x.1 = -1 \/ x.1 = Z.of_nat (length x.2))) w.
Proof.
  intros Hinv. destruct (law_wait epfd maxevents timeout (n_port w)) as (n & l & k & Hw & Hk & Hn & Hl).
  exists (n, l), (w <| n_port := k |>). split; [unfold call; by rewrite Hw|]. split_and!; [|cbn|done].
  - eapply inv_calm; [|exact Hinv]. by apply calm_same.
  - destruct Hinv as (la & cnt & _ & HB). eapply Forall_impl; [exact Hl|]. intros e [He|He]; [by left|].
    exact (bk_ctxs _ _ _ _ _ HB _ He).
Qed.

Lemma steady_process_events timer flags : steady (ngx_wepoll_process_events timer flags).
Proof.
  intros w Hinv. unfold ngx_wepoll_process_events. apply wp_bind, wp_get. rewrite (edge_on w Hinv). cbv iota.
  eapply wp_seq; [by apply sweep_wp|]. intros r w1 [Hinv1 _]. cbv zeta. apply wp_bind, wp_get. apply wp_bind, wp_get.
  eapply wp_seq; [by apply steady_wait|]. intros [n l] w2 (Hinv2 & Hl & Hn). cbn [fst snd] in *. apply wp_bind, wp_get.
  set (err := if n =? -1 then errno_of w2 else 0). match goal with |- wp ?m _ _ => assert (Hs : steady m); [|by apply Hs] end.
  apply steady_seq.
  - unfold update_time. apply steady_seq; [apply steady_get|]. intros alarm. destruct (_ || _); [|apply steady_ret].
    intros w3 Hinv3. destruct (law_time w3) as (w4 & Hrun & Hst). eapply wp_run; [done|]. by eapply nginx_run_inv.
  - intros _. unfold process_ready. destruct (negb (err =? 0)).
    + destruct (err =? EINTR); [|apply steady_seq; [apply steady_log|intros; apply steady_ret]].
      apply steady_seq; [apply steady_get|]. intros alarm. apply steady_seq; [|intros; apply steady_ret].
      destruct alarm; [|apply steady_ret]. intros w3 Hinv3. apply wp_put. eapply inv_calm; [|exact Hinv3]. by apply calm_same.
    + destruct (n =? 0); [apply steady_ret|]. apply steady_seq; [apply steady_get|]. intros edge. apply steady_seq; [apply steady_get|]. intros post.
      destruct Hn as [->| ->].
      * rewrite (proj2 (Z.ltb_ge _ _)) by lia. by apply steady_process_loop, Forall_take.
      * rewrite Z.ltb_irrefl. by apply steady_process_loop, Forall_take.
Qed.

(** ** A worker *)

(** What happens in a worker: a step of nginx, or a round of event processing. *)
Inductive worker_step : ngx_world K -> ngx_world K -> Prop :=
| worker_nginx w w' : nginx_step w w' -> worker_step w w'
| worker_process w timer flags r w' : ngx_wepoll_process_events timer flags w = Some (r, w') -> worker_step w w'.

(** C10: In edge mode, while nginx keeps to its contract (it closes or reuses a
    registered connection, and frees its events, only after [del_conn]), and
    whatever else it and its handlers do between and inside the calls of the
    module, every round of event processing returns, and in every state a worker
    reaches: a registered state belongs to the connection as it is now; a
    readiness class is pending only if it was delivered, not yet rearmed, and is
    wanted, and for every connection outside the set [g_lost] exactly if so, so
    that no edge is lost; a state with pending classes is in the queue, which
    holds every state at most once and never overflows.  [g_lost] is any set of
    connections: for those in it nginx may go on after an [add_conn] that failed,
    which can leave a class wanted and not armed but not pending; any other
    connection whose [add_conn] fails is removed next. *)
Theorem edge_worker_invariant w w' :
  edge_inv w -> rtc worker_step w w' ->
  edge_inv w' /\ forall timer flags, exists r w'', ngx_wepoll_process_events timer flags w' = Some (r, w'') /\ edge_inv w''.
Proof.
  intros Hinv Hrun. assert (Hw' : edge_inv w').
  { induction Hrun as [|w w1 w' Hstep _ IH]; [done|]. apply IH. destruct Hstep as [? ? Hs|? ? ? ? ? Hs]; [by eapply nginx_step_inv|].
    exact (wp_det _ _ _ _ _ (steady_process_events _ _ _ Hinv) Hs). }
  split; [done|]. intros timer flags. destruct (steady_process_events timer flags w' Hw') as (r & w'' & H1 & H2). by exists r, w''.
Qed.
End Deliver.

(** A worker adds a connection and processes its events. *)
Definition small_processed : ngx_world small_port := exec (ngx_wepoll_process_events 0 0) small_added.
Lemma small_added_run : ngx_wepoll_add_connection (Some 1000%positive) small_init = Some (NGX_OK, small_added).
Proof. unfold small_added. apply run_exec. vm_compute. reflexivity. Qed.
Lemma small_processed_run : ngx_wepoll_process_events 0 0 small_added = Some (NGX_OK, small_processed).
Proof. unfold small_processed. apply run_exec. vm_compute. reflexivity. Qed.
Lemma small_opened cycle base states array n lost :
  opened (G := mk_geometry cycle base states array n small_events lost) small_init 1000.
Proof.
  exists (mk_ngx_connection 40 (Some 1%positive) (Some 2%positive)), 1%positive, 2%positive, (small_event 1000), (small_event 1000).
  split_and!; try (vm_compute; reflexivity); cbn; unfold small_events; set_solver.
Qed.

Lemma edge_worker_invariant_witness : exists G : geometry,
  edge_inv (G := G) small_init /\ rtc (worker_step (G := G)) small_init small_processed /\
  edge_inv (G := G) small_processed /\
  forall timer flags, exists r w'', ngx_wepoll_process_events timer flags small_processed = Some (r, w'') /\ edge_inv (G := G) w''.
Proof.
  destruct (small_init_inv ∅) as (states & array & Hinv). eexists. split; [exact Hinv|].
  assert (Hrun : rtc (worker_step (G := mk_geometry (small_cycle 1) 1000 states array 2 small_events ∅)) small_init small_processed).
  { apply (rtc_l _ _ small_added); [|apply rtc_once].
    - apply worker_nginx. apply (nginx_add_conn small_init 1000 small_added); [apply small_opened|exact small_added_run].
    - exact (worker_process small_added 0 0 NGX_OK small_processed small_processed_run). }
  split; [exact Hrun|]. apply (edge_worker_invariant (G := mk_geometry (small_cycle 1) 1000 states array 2 small_events ∅) small_init small_processed); [exact Hinv|exact Hrun].
Defined.
