(* ===== verification/NgxSweep.v ===== *)
(** * Edge mode of the nginx module: no drained edge stays disarmed

    What the sweep before every wait achieves. *)
From Stdlib Require Import String.
From S2P Require Import Prelude Codes Errno PosixTypes Lifecycle NgxTypes Nginx NgxEdge NgxLedger NgxRearm NgxOps NgxWorker NgxDemo NgxLife NgxDeliver.

Section Sweep.
Context {K : Type} `{!EventPort K} `{!Nginx K} `{!PortLaws K} {G : geometry}.

(** A disarmed class that [word] holds belongs to an event that nginx has posted
    or not drained yet. *)
Definition held_by_nginx (w : ngx_world K) i (s : ngx_wepoll_connection_state_t) (word : Z) : Prop :=
  (has (ns_disarmed s) WEPOLL_EX_REARM_READ = true -> has word WEPOLL_EX_REARM_READ = true -> busy w (cp i) nc_read) /\
  (has (ns_disarmed s) WEPOLL_EX_REARM_WRITE = true -> has word WEPOLL_EX_REARM_WRITE = true -> busy w (cp i) nc_write).
(** So are all classes that are wanted and not armed; for the connections nginx
    kept after a failed [add_conn], those that are pending. *)
Definition waiting (w : ngx_world K) : Prop := forall i s, (i < g_n)%nat -> n_states w !! sp i = Some s ->
  held_by_nginx w i s (ns_pending s) /\ (cp i ∉ g_lost -> held_by_nginx w i s (ns_interests s)).

Lemma has_both (d i c : Z) : c = 1 \/ c = 2 -> 0 <= d < 8 -> 0 <= i < 4 -> has d c = true -> has i c = true -> has (Z.land d i) c = true.
Proof.
  intros Hc [Hd|(y & Hd & ->)]%below8 Hi%below4; apply below4 in Hd;
  repeat destruct Hi as [->|Hi]; try subst; repeat destruct Hd as [->|Hd]; try subst; destruct Hc as [->| ->]; vm_compute; congruence.
Qed.

(** C12: The sweep before a wait always returns and keeps the bookkeeping, and when
    it reports success every readiness class that nginx wants and that is not armed
    belongs to an event nginx has posted or not drained yet: no wait is entered
    with a drained event left disarmed.  For a connection nginx kept after an
    [add_conn] that failed ([g_lost]) this holds of its pending classes. *)
Theorem sweep_rearms_drained w : edge_inv w ->
  exists r w', ngx_wepoll_sweep_pending_states w = Some (r, w') /\ edge_inv w' /\ (r = NGX_OK -> waiting w').
Proof.
  intros Hinv. destruct (sweep_wp w Hinv) as (r & w' & Hrun & Hinv' & Hs). exists r, w'. split_and!; [done|done|].
  intros Hr i s Hi Hl. destruct (Hs Hr i s Hi Hl) as [H1 H2]. destruct Hinv' as (l & cnt & _ & HB).
  destruct (bk_states _ _ _ _ _ HB i Hi) as (s' & Hl' & Hok & _). assert (s' = s) as -> by congruence. split; [split; auto|].
  intros Hx. rewrite (proj2 (so_pending _ _ _ Hok) Hx) in H1, H2.
  split; intros Ha Hb; [apply H1|apply H2]; apply has_both; try done; try apply Hok; first [by left|by right].
Qed.
End Sweep.

(** The events of the connection were posted; nginx has not run them yet. *)
Definition small_posted : ngx_world small_port := exec (ngx_wepoll_process_events 0 2) small_added.
Lemma small_posted_run : result (ngx_wepoll_process_events 0 2) small_added = Some NGX_OK.
Proof. vm_compute. reflexivity. Qed.
Lemma small_posted_inv : exists G : geometry, edge_inv (G := G) small_posted.
Proof.
  destruct (small_init_inv ∅) as (states & array & Hinv). eexists.
  assert (Ha : edge_inv (G := mk_geometry (small_cycle 1) 1000 states array 2 small_events ∅) small_added).
  { apply (nginx_step_inv small_init); [|exact Hinv]. apply (nginx_add_conn small_init 1000 small_added); [apply small_opened|exact small_added_run]. }
  exact (wp_det _ _ _ _ _ (steady_process_events 0 2 _ Ha) (run_exec _ _ _ small_posted_run)).
Qed.
Lemma sweep_rearms_drained_witness : exists G : geometry, edge_inv (G := G) small_posted /\
  exists r w', ngx_wepoll_sweep_pending_states small_posted = Some (r, w') /\ edge_inv (G := G) w' /\ (r = NGX_OK -> waiting (G := G) w').
Proof.
  destruct small_posted_inv as [G Hinv]. exists G. split; [exact Hinv|]. apply (sweep_rearms_drained (G := G) small_posted). exact Hinv.
Defined.

(** The two ways to add treat a failed rearm differently.  The read event was
    removed while its class was delivered, and the port no longer knows the socket:
    adding the event again restores the interests; adding the connection leaves the
    class wanted and not armed, but not pending.  A connection that nginx does not
    remove then has to be one of [g_lost]. *)
Definition small_forgotten : ngx_world small_port :=
  (exec (ngx_wepoll_edge_del_event (Some 1%positive) 1 0) small_posted) <| n_port ::= (fun k => mk_recorded (mk_small_core (sm_ctxs (rc_port k)) ∅ (sm_ready (rc_port k)) (sm_errno (rc_port k))) (rc_calls k)) |>.
Definition class_words (w : ngx_world small_port) : option (Z * Z * Z) :=
  (fun s => (ns_interests s, ns_disarmed s, ns_pending s)) <$> n_states w !! 200000%positive.
Example failed_add_event :
  (result (ngx_wepoll_edge_add_event (Some 1%positive) 1) small_forgotten,
   class_words (exec (ngx_wepoll_edge_add_event (Some 1%positive) 1) small_forgotten)) = (Some NGX_ERROR, Some (2, 3, 2)).
Proof. vm_compute. reflexivity. Qed.
Example failed_add_connection :
  (result (ngx_wepoll_add_connection (Some 1000%positive)) small_forgotten,
   class_words (exec (ngx_wepoll_add_connection (Some 1000%positive)) small_forgotten)) = (Some NGX_ERROR, Some (3, 3, 2)).
Proof. vm_compute. reflexivity. Qed.
