(* ===== verification/NgxLevel.v ===== *)
(** * Level mode of the nginx module

    The two events of a connection share one registration: the port is asked for
    the union of what the active events need.  The theorem is about the requests
    the module makes and the answers it gets, over any port. *)
From Stdlib Require Import String.
From S2P Require Import Prelude Codes Errno PosixTypes Lifecycle NgxTypes Nginx NgxEdge NgxLedger NgxRearm NgxDemo.

(** The last request for every descriptor that port [epfd] accepted: an accepted
    ADD or MOD asks for its argument, an accepted DEL for nothing; a refused
    request does not count; closing the port ends them all. *)
Fixpoint accepted (epfd : Z) (l : list port_call) : gmap Z (Z * Z) :=
  match l with
  | [] => ∅
  | CallCtl epfd' op fd ev answer :: l =>
    if negb (epfd' =? epfd) || (answer =? -1) then accepted epfd l
    else if op =? EPOLL_CTL_DEL then delete fd (accepted epfd l)
    else match ev with Some x => <[fd := x]> (accepted epfd l) | None => accepted epfd l end
  | CallClose epfd' _ :: l => if epfd' =? epfd then ∅ else accepted epfd l
  | CallCreate _ _ _ :: l => accepted epfd l
  end.

Section Level.
Context {K : Type} `{!EventPort K} `{!PortLaws K} `{!Nginx (recorded K)}.
Implicit Types (w : ngx_world (recorded K)).

Definition asked w : gmap Z (Z * Z) := accepted (ngx_wepoll_epfd w) (rc_calls (n_port w)).

(** What two activity flags ask for. *)
Definition wanted (data : Z) (read write : bool) : option (Z * Z) :=
  match read, write with
  | false, false => None
  | true, false => Some (ngx_wepoll_mask_for_event NGX_READ_EVENT, data)
  | false, true => Some (ngx_wepoll_mask_for_event NGX_WRITE_EVENT, data)
  | true, true => Some (Z.lor (ngx_wepoll_mask_for_event NGX_READ_EVENT) (ngx_wepoll_mask_for_event NGX_WRITE_EVENT), data)
  end.

(** Connection [c]: its two events are [rev] and [wev] at [r] and [e]. *)
Record conn w (c r e : addr) (k : ngx_connection_t) (rev wev : ngx_event_t) : Prop := {
  cn_conn : n_connections w !! c = Some k;
  cn_read : nc_read k = Some r;
  cn_write : nc_write k = Some e;
  cn_ne : r <> e;
  cn_rev : n_events w !! r = Some rev;
  cn_wev : n_events w !! e = Some wev
}.
(** The last accepted request for the descriptor is what the active events of
    [c] want. *)
Definition synced w (c : addr) : Prop :=
  exists k r e rev wev, conn w c r e k rev wev /\ nc_fd k <> INVALID_SOCKET /\ ne_data rev = Some c /\ ne_data wev = Some c /\
    asked w !! nc_fd k = wanted (Z.lor (Zpos c) (Z.b2z (ne_instance rev))) (ne_active rev) (ne_active wev).
(** Neither event of [c] is active. *)
Definition idle w (c : addr) : Prop :=
  exists k r e rev wev, conn w c r e k rev wev /\ ne_active rev = false /\ ne_active wev = false.
Definition active_is w (ev : addr) (b : bool) : Prop := exists x, n_events w !! ev = Some x /\ ne_active x = b.
(** The module made one request, for [fd], and the port answered [a]. *)
Definition one_request w w' (fd a : Z) : Prop :=
  exists op ev, rc_calls (n_port w') = CallCtl (ngx_wepoll_epfd w) op fd ev a :: rc_calls (n_port w).

(** A side of a connection: [true] is reading. *)
Definition kind_of (b : bool) : Z := if b then NGX_READ_EVENT else NGX_WRITE_EVENT.
Definition want (data : Z) (b mine other : bool) : option (Z * Z) := if b then wanted data mine other else wanted data other mine.

(** [synced] seen from one side. *)
Record side_view w (b : bool) (c ev other : addr) (x y : ngx_event_t) (fd data : Z) : Prop := {
  sv_conn : exists k, n_connections w !! c = Some k /\ nc_fd k = fd /\ nc_read k = Some (if b then ev else other) /\ nc_write k = Some (if b then other else ev);
  sv_ne : ev <> other;
  sv_ev : n_events w !! ev = Some x;
  sv_other : n_events w !! other = Some y;
  sv_valid : fd <> INVALID_SOCKET;
  sv_data : ne_data x = Some c /\ ne_data y = Some c;
  sv_key : data = Z.lor (Zpos c) (Z.b2z (ne_instance (if b then x else y)))
}.
Definition view_synced w b (fd data : Z) (x y : ngx_event_t) : Prop := asked w !! fd = want data b (ne_active x) (ne_active y).

Lemma synced_view w c b : synced w c -> exists ev other x y fd data, side_view w b c ev other x y fd data /\ view_synced w b fd data x y.
Proof.
  intros (k & r & e & rev & wev & [H1 H2 H3 H4 H5 H6] & H7 & H8 & H9 & H10). destruct b.
  - exists r, e, rev, wev, (nc_fd k), (Z.lor (Zpos c) (Z.b2z (ne_instance rev))). split; [|exact H10]. split; try done. by exists k.
  - exists e, r, wev, rev, (nc_fd k), (Z.lor (Zpos c) (Z.b2z (ne_instance rev))). split; [|exact H10]. split; try done. by exists k.
Qed.
Lemma view_synced_synced w c b ev other x y fd data : side_view w b c ev other x y fd data -> view_synced w b fd data x y -> synced w c.
Proof.
  intros [(k & Hk & Hfd & Hr & Hw) Hne Hx Hy Hv [Hd1 Hd2] ->] Hs. destruct b.
  - exists k, ev, other, x, y. rewrite Hfd. split_and!; try done.
  - exists k, other, ev, y, x. rewrite Hfd. split_and!; try done.
Qed.

(** ** Steps *)

Lemma side_view_ext w w' b c ev other x y fd data :
  n_connections w' = n_connections w -> n_events w' = n_events w -> side_view w b c ev other x y fd data -> side_view w' b c ev other x y fd data.
Proof. intros Hc He [H1 H2 H3 H4 H5 H6 H7]. split; try done; by rewrite ?Hc, ?He. Qed.
Lemma side_view_active w b c ev other x y fd data v :
  side_view w b c ev other x y fd data ->
  side_view (w <| n_events := <[ev := x <| ne_active := v |>]> (n_events w) |>) b c ev other (x <| ne_active := v |>) y fd data.
Proof.
  intros [H1 H2 H3 H4 H5 H6 H7]. split; sget; try done; [by rewrite lookup_insert_eq|by rewrite lookup_insert_ne|].
  by destruct b.
Qed.
Lemma side_view_swap w b c ev other x y fd data : side_view w b c ev other x y fd data -> side_view w (negb b) c other ev y x fd data.
Proof. intros [H1 H2 H3 H4 H5 H6 H7]. split; try done; [by destruct b|by destruct H6|by destruct b]. Qed.

Lemma other_side_run w b c ev other x y fd data : NGX_READ_EVENT <> NGX_WRITE_EVENT -> side_view w b c ev other x y fd data ->
  other_side (Some c) (kind_of b) w = Some ((Some other, ne_active y), w).
Proof.
  intros Hne [(k & Hk & Hfd & Hr & Hw) _ _ Hy _ _ _]. unfold other_side. erewrite bind_some by by apply rd_some. cbn [id].
  assert (Ho : (if kind_of b =? NGX_READ_EVENT then nc_write k else nc_read k) = Some other).
  { destruct b; cbn; [by rewrite Z.eqb_refl|]. by rewrite (proj2 (Z.eqb_neq _ _)) by congruence. }
  rewrite Ho. by erewrite bind_some by by apply rd_some.
Qed.
Lemma data_run w b c ev other x y fd data : side_view w b c ev other x y fd data -> ngx_wepoll_event_data (Some c) w = Some (data, w).
Proof.
  intros [(k & Hk & Hfd & Hr & Hw) _ Hx Hy _ _ ->]. unfold ngx_wepoll_event_data. erewrite bind_some by by apply rd_some. rewrite Hr.
  destruct b; by erewrite bind_some by by apply rd_some.
Qed.

(** A request and its answer. *)
Record answered w (op fd : Z) (ev : option (Z * Z)) (a : Z) w' : Prop := {
  an_connections : n_connections w' = n_connections w;
  an_events : n_events w' = n_events w;
  an_epfd : ngx_wepoll_epfd w' = ngx_wepoll_epfd w;
  an_calls : rc_calls (n_port w') = CallCtl (ngx_wepoll_epfd w) op fd ev a :: rc_calls (n_port w)
}.
Lemma ctl_wp w op fd ev Φ :
  (forall a w', answered w op fd ev a w' -> Φ a w') -> wp (call (ep_ctl_ctx (ngx_wepoll_epfd w) op fd ev 0)) Φ w.
Proof.
  intros H. destruct (law_ctl (ngx_wepoll_epfd w) op fd ev 0 (rc_port (n_port w))) as (r & k & Hr & _).
  eexists r, _. split; [unfold call; cbn; by rewrite (noting_some _ _ _ _ _ Hr)|]. by apply H.
Qed.
Lemma answered_request w op fd ev a w' : answered w op fd ev a w' -> one_request w w' fd a.
Proof. intros [_ _ _ H]. by exists op, ev. Qed.
Lemma asked_refused w op fd ev w' : answered w op fd ev (-1) w' -> asked w' = asked w.
Proof. intros [_ _ He Hc]. unfold asked. rewrite He, Hc. cbn. by rewrite orb_true_r. Qed.
Lemma asked_accepted w op fd ev a w' : answered w op fd ev a w' -> a <> -1 ->
  asked w' !! fd = if op =? EPOLL_CTL_DEL then None else match ev with Some x => Some x | None => asked w !! fd end.
Proof.
  intros [_ _ He Hc] Ha. unfold asked. rewrite He, Hc. cbn. rewrite Z.eqb_refl, (proj2 (Z.eqb_neq _ _) Ha). cbn [negb orb].
  destruct (op =? EPOLL_CTL_DEL); [by rewrite lookup_delete_eq|]. destruct ev; [by rewrite lookup_insert_eq|done].
Qed.
Lemma side_view_answered w op fd' ev' a w' b c ev other x y fd data :
  answered w op fd' ev' a w' -> side_view w b c ev other x y fd data -> side_view w' b c ev other x y fd data.
Proof. intros [H1 H2 _ _]. by apply side_view_ext. Qed.

(** What a log line leaves alone. *)
Definition logged w w' : Prop :=
  n_connections w' = n_connections w /\ n_events w' = n_events w /\ ngx_wepoll_epfd w' = ngx_wepoll_epfd w /\ n_port w' = n_port w.
Lemma wp_quiet_log text fd w (Φ : Z -> ngx_world (recorded K) -> Prop) r :
  (forall w', logged w w' -> Φ r w') -> wp (ngx_wepoll_log_errno text fd ;; ret r) Φ w.
Proof. intros H. apply wp_bind, wp_bind, wp_get. eexists _, _. split; [done|]. apply wp_ret. by apply H. Qed.
Lemma answered_logged w op fd ev a w' w'' : answered w op fd ev a w' -> logged w' w'' -> answered w op fd ev a w''.
Proof. intros [? ? ? ?] (? & ? & ? & Hp). split; rewrite ?Hp; congruence. Qed.

Lemma mask_union b data : NGX_READ_EVENT <> NGX_WRITE_EVENT ->
  other_event (kind_of b) = kind_of (negb b) /\
  want data b true true = Some (Z.lor (ngx_wepoll_mask_for_event (kind_of b)) (ngx_wepoll_mask_for_event (kind_of (negb b))), data) /\
  want data b true false = Some (ngx_wepoll_mask_for_event (kind_of b), data) /\
  want data b false true = Some (ngx_wepoll_mask_for_event (kind_of (negb b)), data).
Proof.
  intros Hne. unfold other_event. destruct b; cbn; [by rewrite Z.eqb_refl|]. rewrite (proj2 (Z.eqb_neq _ _)) by congruence.
  split_and!; try done. by rewrite Z.lor_comm.
Qed.

(** A refused request that the module gives up on. *)
Lemma refused_synced w b c ev other x y fd data op arg w' :
  side_view w b c ev other x y fd data -> view_synced w b fd data x y -> answered w op fd arg (-1) w' -> synced w' c.
Proof.
  intros Hv Hs Ha. eapply view_synced_synced; [by eapply side_view_answered|]. unfold view_synced. by rewrite (asked_refused _ _ _ _ _ Ha).
Qed.

(** What adding the event [ev] may do. *)
Definition add_outcome w c ev (fd r : Z) w' : Prop :=
  synced w' c /\
  (r = NGX_OK /\ (exists a, one_request w w' fd a /\ a <> -1) /\ active_is w' ev true \/
   r = NGX_ERROR /\ one_request w w' fd (-1) /\ n_events w' = n_events w).

Lemma level_add_wp w b c ev other x y fd data flags :
  NGX_READ_EVENT <> NGX_WRITE_EVENT -> side_view w b c ev other x y fd data -> view_synced w b fd data x y ->
  wp (ngx_wepoll_level_add_event (Some ev) (kind_of b) flags) (add_outcome w c ev fd) w.
Proof.
  intros Hne Hv Hs. destruct (mask_union b data Hne) as (Hoe & Hboth & Hone & _). unfold ngx_wepoll_level_add_event.
  apply wp_bind. eapply wp_rd; [apply Hv|]. rewrite (proj1 (sv_data _ _ _ _ _ _ _ _ _ Hv)). destruct (sv_conn _ _ _ _ _ _ _ _ _ Hv) as (k & Hk & Hfd & _).
  apply wp_bind. eapply wp_rd; [done|]. rewrite Hfd, (proj2 (Z.eqb_neq _ _) (sv_valid _ _ _ _ _ _ _ _ _ Hv)).
  apply wp_bind. eapply wp_run; [by eapply other_side_run|]. cbv zeta. rewrite Hoe. cbn [snd].
  set (mask := if ne_active y then Z.lor (ngx_wepoll_mask_for_event (kind_of b)) (ngx_wepoll_mask_for_event (kind_of (negb b))) else ngx_wepoll_mask_for_event (kind_of b)).
  set (op := if ne_active y then EPOLL_CTL_MOD else EPOLL_CTL_ADD).
  assert (Hm : want data b true (ne_active y) = Some (mask, data)) by (unfold mask; by destruct (ne_active y)).
  match goal with |- wp (let '(_, _) := ?p in _) _ _ => replace p with (mask, op) by (unfold mask, op; by destruct (ne_active y)) end.
  apply wp_bind. eapply wp_run; [by eapply data_run|]. apply wp_bind, wp_get. apply wp_bind, ctl_wp. intros a w1 Ha.
  pose proof (answered_request _ _ _ _ _ _ Ha) as Hreq. destruct (Z.eqb_spec a (-1)) as [->|Hna].
  - apply wp_quiet_log. intros w2 Hl. pose proof (answered_logged _ _ _ _ _ _ _ Ha Hl) as Ha2. split; [by eapply refused_synced|right].
    split_and!; [done|by eapply answered_request|apply Ha2].
  - pose proof (side_view_active _ _ _ _ _ _ _ _ _ true (side_view_answered _ _ _ _ _ _ _ _ _ _ _ _ _ _ Ha Hv)) as Hv2.
    apply wp_bind. eapply wp_wr; [rewrite (an_events _ _ _ _ _ _ Ha); apply Hv|]. apply wp_ret. split.
    + eapply view_synced_synced; [exact Hv2|]. unfold view_synced. change (asked _) with (asked w1) at 1. rewrite (asked_accepted _ _ _ _ _ _ Ha Hna). sget. rewrite Hm.
      unfold op. by destruct (ne_active y).
    + left. split_and!; [done|by exists a|]. eexists. split; [apply Hv2|done].
Qed.

(** ** Removal *)

Lemma want_none data b : want data b false false = None.
Proof. by destruct b. Qed.
Lemma deactivate_wp w b c ev other x y fd data (r : Z) Φ :
  side_view w b c ev other x y fd data ->
  (forall w', idle w' c -> active_is w' ev false -> (asked w !! fd = None -> synced w' c) -> ngx_wepoll_epfd w' = ngx_wepoll_epfd w -> n_port w' = n_port w -> Φ r w') ->
  wp (deactivate (Some ev) (Some other) ;; ret r) Φ w.
Proof.
  intros Hv HΦ. apply wp_bind. unfold deactivate. apply wp_bind. eapply wp_wr; [apply Hv|].
  pose proof (side_view_swap _ _ _ _ _ _ _ _ _ (side_view_active _ _ _ _ _ _ _ _ _ false Hv)) as Hv1.
  eapply wp_wr; [exact (sv_ev _ _ _ _ _ _ _ _ _ Hv1)|]. pose proof (side_view_active _ _ _ _ _ _ _ _ _ false Hv1) as Hv2.
  apply wp_ret, HΦ; try done.
  - destruct Hv2 as [(k & Hk & _ & Hr & Hw) Hn Hx Hy _ _ _]. destruct b; cbn in Hr, Hw; eexists k, _, _, _, _; (split; [by split|by split_and!]).
  - eexists. split; [exact (sv_other _ _ _ _ _ _ _ _ _ Hv2)|done].
  - intros Hnone. eapply view_synced_synced; [exact Hv2|]. unfold view_synced. change (asked _) with (asked w) at 1. rewrite Hnone. sget. by rewrite want_none.
Qed.

(** What removing the event [ev] may do: the port accepts; or it answers that it
    does not know the descriptor and both events become inactive; or it refuses
    and nothing changes, but that a connection that is closed becomes idle. *)
Definition del_outcome w c ev (fd : Z) (closing : bool) (r : Z) w' : Prop :=
  r = NGX_OK /\ (exists a, one_request w w' fd a /\ a <> -1) /\ synced w' c /\ active_is w' ev false /\ (closing = true -> idle w' c /\ asked w' !! fd = None) \/
  r = NGX_OK /\ one_request w w' fd (-1) /\ gone (errno_of w') = true /\ asked w' = asked w /\ idle w' c \/
  r = NGX_ERROR /\ one_request w w' fd (-1) /\ gone (errno_of w') = false /\ asked w' = asked w /\
    (if closing then idle w' c else n_events w' = n_events w /\ synced w' c).

(** Both events are put to rest after an answer. *)
Lemma level_rest_wp w b c ev other x y fd data op arg a w1 (r : Z) Φ :
  side_view w b c ev other x y fd data -> answered w op fd arg a w1 ->
  (forall w', idle w' c -> active_is w' ev false -> (asked w1 !! fd = None -> synced w' c) -> one_request w w' fd a -> asked w' = asked w1 -> errno_of w' = errno_of w1 -> Φ r w') ->
  wp (deactivate (Some ev) (Some other) ;; ret r) Φ w1.
Proof.
  intros Hv Ha HΦ. eapply deactivate_wp; [by eapply side_view_answered|]. intros w' Hi Hact Hs He Hp. apply HΦ; try done.
  - destruct (answered_request _ _ _ _ _ _ Ha) as (op' & ev' & Hc). exists op', ev'. by rewrite Hp.
  - unfold asked. by rewrite He, Hp.
  - unfold errno_of. by rewrite Hp.
Qed.

Lemma level_close_wp w b c ev other x y fd data :
  side_view w b c ev other x y fd data -> ngx_wepoll_epfd w <> -1 ->
  wp (level_close (Some c) (Some ev) (Some other)) (del_outcome w c ev fd true) w.
Proof.
  intros Hv He. unfold level_close. destruct (sv_conn _ _ _ _ _ _ _ _ _ Hv) as (k & Hk & Hfd & _). apply wp_bind, wp_get.
  apply wp_bind. eapply wp_rd; [done|]. rewrite Hfd, (proj2 (Z.eqb_neq _ _) He), (proj2 (Z.eqb_neq _ _) (sv_valid _ _ _ _ _ _ _ _ _ Hv)). cbn [andb negb].
  apply wp_bind, wp_bind, ctl_wp. intros a w1 Ha. apply wp_bind, wp_get. destruct (Z.eqb_spec a (-1)) as [->|Hna]; cbn [andb].
  - pose proof (asked_refused _ _ _ _ _ Ha) as Hask. destruct (gone (errno_of w1)) eqn:Eg; cbn [negb].
    + apply wp_ret. eapply level_rest_wp; [exact Hv|exact Ha|]. intros w2 Hi _ _ Hreq Has Her. right; left. rewrite Her, Has. by split_and!.
    + apply wp_quiet_log. intros w2 Hl. assert (Her1 : errno_of w2 = errno_of w1) by (unfold errno_of; by rewrite (proj2 (proj2 (proj2 Hl)))).
      pose proof (answered_logged _ _ _ _ _ _ _ Ha Hl) as Ha2. pose proof (asked_refused _ _ _ _ _ Ha2) as Hask2.
      eapply level_rest_wp; [exact Hv|exact Ha2|]. intros w3 Hi _ _ Hreq Has Her. right; right. rewrite Her, Her1, Has. by split_and!.
  - apply wp_ret. pose proof (asked_accepted _ _ _ _ _ _ Ha Hna) as Hask. cbn in Hask. eapply level_rest_wp; [exact Hv|exact Ha|].
    intros w2 Hi Hact Hs Hreq Has Her. left. rewrite Has. split_and!; try done; [by exists a|by apply Hs].
Qed.

Lemma level_del_wp w b c ev other x y fd data flags :
  NGX_READ_EVENT <> NGX_WRITE_EVENT -> side_view w b c ev other x y fd data -> view_synced w b fd data x y -> ngx_wepoll_epfd w <> -1 ->
  wp (ngx_wepoll_level_del_event (Some ev) (kind_of b) flags) (del_outcome w c ev fd (has flags NGX_CLOSE_EVENT)) w.
Proof.
  intros Hne Hv Hs Hep. destruct (mask_union b data Hne) as (Hoe & _ & _ & Hone). unfold ngx_wepoll_level_del_event.
  apply wp_bind. eapply wp_rd; [apply Hv|]. rewrite (proj1 (sv_data _ _ _ _ _ _ _ _ _ Hv)). destruct (sv_conn _ _ _ _ _ _ _ _ _ Hv) as (k & Hk & Hfd & _).
  apply wp_bind. eapply wp_run; [by eapply other_side_run|]. cbn [fst snd]. destruct (has flags NGX_CLOSE_EVENT) eqn:Ef; [by eapply level_close_wp|].
  set (arg := if ne_active y then Some (ngx_wepoll_mask_for_event (kind_of (negb b)), data) else None).
  set (op := if ne_active y then EPOLL_CTL_MOD else EPOLL_CTL_DEL).
  assert (Hm : want data b false (ne_active y) = arg) by (unfold arg; destruct (ne_active y); [done|apply want_none]).
  apply wp_bind. exists (if ne_active y then data else 0), w. split; [destruct (ne_active y); [by eapply data_run|done]|]. rewrite Hoe.
  match goal with |- wp (let '(_, _) := ?p in _) _ _ => replace p with (op, arg) by (unfold arg, op; by destruct (ne_active y)) end.
  apply wp_bind, wp_get. apply wp_bind. eapply wp_rd; [done|]. rewrite Hfd. apply wp_bind, ctl_wp. intros a w1 Ha.
  pose proof (answered_request _ _ _ _ _ _ Ha) as Hreq. destruct (Z.eqb_spec a (-1)) as [->|Hna].
  - pose proof (asked_refused _ _ _ _ _ Ha) as Hask. apply wp_bind, wp_get. destruct (gone (errno_of w1)) eqn:Eg.
    + eapply level_rest_wp; [exact Hv|exact Ha|]. intros w2 Hi _ _ Hreq2 Has Her. right; left. rewrite Her, Has. by split_and!.
    + apply wp_quiet_log. intros w2 Hl. pose proof (answered_logged _ _ _ _ _ _ _ Ha Hl) as Ha2. right; right.
      assert (Her1 : errno_of w2 = errno_of w1) by (unfold errno_of; by rewrite (proj2 (proj2 (proj2 Hl)))). rewrite Her1.
      split_and!; [done|by eapply answered_request|done|by eapply asked_refused|apply Ha2|by eapply refused_synced].
  - apply wp_bind. eapply wp_wr; [rewrite (an_events _ _ _ _ _ _ Ha); apply Hv|]. apply wp_ret. left.
    pose proof (side_view_active _ _ _ _ _ _ _ _ _ false (side_view_answered _ _ _ _ _ _ _ _ _ _ _ _ _ _ Ha Hv)) as Hv2.
    split_and!; [done|by exists a| |eexists; split; [apply Hv2|done]|done].
    eapply view_synced_synced; [exact Hv2|]. unfold view_synced. change (asked _) with (asked w1) at 1. rewrite (asked_accepted _ _ _ _ _ _ Ha Hna). sget. rewrite Hm.
    unfold op, arg. by destruct (ne_active y).
Qed.

(** C13: In level mode the two events of a connection share one registration.  Over
    any event port with the laws [PortLaws], from a state in which the last request for the descriptor that
    the port accepted is exactly what the active events need (nothing when neither
    is active), adding or removing either event always returns and makes exactly
    one request, for that descriptor.  An addition keeps this: it succeeds exactly
    if the port accepts, with the event active, and otherwise changes no event.  A
    removal that the port accepts keeps it too, with the event inactive, and after
    an accepted closing removal nothing is asked for and both events are inactive.
    If the port answers that it does not know the descriptor (EBADF, ENOENT,
    ENOTSOCK), the removal succeeds with both events inactive.  If it refuses
    otherwise, the removal fails, and changes no event unless it closes the
    connection, when both become inactive. *)
Theorem level_mode_synced w c k (b : bool) ev flags :
  NGX_READ_EVENT <> NGX_WRITE_EVENT -> synced w c -> ngx_wepoll_epfd w <> -1 ->
  n_connections w !! c = Some k -> (if b then nc_read k else nc_write k) = Some ev ->
  (exists r w', ngx_wepoll_level_add_event (Some ev) (kind_of b) flags w = Some (r, w') /\ add_outcome w c ev (nc_fd k) r w') /\
  (exists r w', ngx_wepoll_level_del_event (Some ev) (kind_of b) flags w = Some (r, w') /\
     del_outcome w c ev (nc_fd k) (has flags NGX_CLOSE_EVENT) r w').
Proof.
  intros Hne Hs He Hk Hev. destruct (synced_view w c b Hs) as (ev' & other & x & y & fd & data & Hv & Hvs).
  destruct (sv_conn _ _ _ _ _ _ _ _ _ Hv) as (k' & Hk' & Hfd & Hr & Hw). assert (k' = k) as -> by congruence. subst fd.
  assert (ev' = ev) as -> by (destruct b; congruence).
  split; [exact (level_add_wp _ _ _ _ _ _ _ _ _ _ Hne Hv Hvs)|exact (level_del_wp _ _ _ _ _ _ _ _ _ _ Hne Hv Hvs He)].
Qed.
End Level.

(** A connection of the small port, with its read event added. *)
Definition small_level : ngx_world small_port :=
  exec (ngx_wepoll_level_add_event (Some 1%positive) 1 0) (exec (ngx_wepoll_init (small_cycle 0)) small_world).
Lemma small_synced : synced small_level 1000.
Proof.
  exists (mk_ngx_connection 40 (Some 1%positive) (Some 2%positive)), 1%positive, 2%positive, ((small_event 1000) <| ne_active := true |>), (small_event 1000).
  split; [split; (vm_compute; congruence)|]. split_and!; vm_compute; congruence.
Qed.
Lemma level_mode_synced_witness :
  synced small_level 1000 /\
  (exists r w', ngx_wepoll_level_add_event (Some 2%positive) (kind_of false) 0 small_level = Some (r, w') /\ add_outcome small_level 1000 2 40 r w') /\
  (exists r w', ngx_wepoll_level_del_event (Some 2%positive) (kind_of false) 0 small_level = Some (r, w') /\
     del_outcome small_level 1000 2 40 (has 0 NGX_CLOSE_EVENT) r w').
Proof.
  split; [exact small_synced|].
  apply (level_mode_synced small_level 1000 (mk_ngx_connection 40 (Some 1%positive) (Some 2%positive)) false 2 0);
    [discriminate|exact small_synced|vm_compute; discriminate|vm_compute; reflexivity|reflexivity].
Defined.
