(* ===== verification/NgxPort.v ===== *)
(** * The Windows library behind the nginx module

    The public functions of the Windows implementation, as modelled by [Api], are
    an event port for the nginx module: the module runs on the model of the
    library it is linked with. *)
From S2P Require Import Prelude Codes Types Errno PosixTypes Readiness Control Wait Lifecycle Api NgxTypes Nginx NgxEdge NgxRearm.

Definition ready_record (o : out_event) : epoll_event_ex :=
  match o with
  | OutBasic events data => mk_event_ex events data 0 0 0
  | OutExtended events data flags timestamp user_ctx => mk_event_ex events data flags timestamp user_ctx
  end.

Section Port.
(** What other threads do at a point without a lock, and the rounds of the loops
    that wait for them. *)
Context (others : MW unit) (fuel : nat).

Definition windows_event_port : EventPort world := {|
  ep_errno := w_errno;
  ep_create_ex := epoll_create_ex others fuel;
  ep_ctl_ctx := epoll_ctl_ctx others fuel;
  ep_rearm := epoll_rearm_classes others fuel;
  ep_wait_ex epfd maxevents timeout :=
    r <- epoll_wait_ex others fuel epfd true maxevents timeout ;; ret (r.1, ready_record <$> r.2);
  ep_get_stats epfd := r <- wepoll_ex_get_stats others fuel epfd true 168 ;; ret (fst <$> r);
  ep_global_stats := r <- wepoll_ex_get_global_stats true 48 ;; ret (fst <$> r);
  ep_close := wepoll_close others fuel
|}.

End Port.

(** ** The module's requests are in the library's domain *)

(** The classes it rearms are a class word the library accepts. *)
Lemma module_classes_valid p a b : 0 <= p < 4 -> idle_classes p a b <> 0 -> valid_classes (idle_classes p a b) = true.
Proof. intros Hp%below4. destruct a, b; repeat destruct Hp as [->|Hp]; try subst; vm_compute; congruence. Qed.
Lemma module_class_valid `{!Nginx K} event : valid_classes (ngx_wepoll_class_for_event event) = true.
Proof. unfold ngx_wepoll_class_for_event. by destruct (event =? _). Qed.
(** ** Both sides agree on what a record disarms *)

Definition BAND_EVENTS : Z := Z.lor EPOLLRDBAND EPOLLWRBAND.
Lemma land_orwhen c m x b : Z.land m b = 0 -> Z.land x b = 0 -> Z.land (orwhen c m x) b = 0.
Proof. intros Hm Hx. unfold orwhen. destruct c; [|done]. by rewrite Z.land_lor_distr_l, Hm, Hx. Qed.
(** AFD reports no band data. *)
Lemma afd_no_band afd_events afd_status protocol : Z.land (ep_afd_to_epoll_events afd_events afd_status protocol) BAND_EVENTS = 0.
Proof. unfold ep_afd_to_epoll_events. repeat (apply land_orwhen; [first [reflexivity|unfold orwhen; by destruct (negb _)]|]). done. Qed.
(** The events of a record: what AFD reported, as far as it was asked for. *)
Definition record_events (afd_events afd_status : Z) (protocol : ep_socket_protocol) (mask : Z) : Z :=
  Z.land (ep_afd_to_epoll_events afd_events afd_status protocol) mask.

(** C14: For every record made from an AFD result, whatever part of it was asked
    for, the classes the nginx module takes over are exactly the classes the
    library disarms with the record: the module's disarmed word mirrors the
    library's. *)
Theorem delivered_classes_agree afd_events afd_status protocol mask :
  delivered_classes (record_events afd_events afd_status protocol mask) = ep_explicit_delivery_classes (record_events afd_events afd_status protocol mask).
Proof.
  set (revents := record_events _ _ _ _). assert (Hb : has revents EPOLLRDBAND = false /\ has revents EPOLLWRBAND = false).
  { apply orb_false_iff. rewrite <- has_lor. unfold has, revents, record_events. rewrite <- Z.land_assoc, (Z.land_comm mask), Z.land_assoc.
    fold BAND_EVENTS. by rewrite afd_no_band. }
  clearbody revents. destruct Hb as [Hr Hw]. unfold delivered_classes, ep_explicit_delivery_classes, ep_readiness_classes, is_terminal.
  assert (HR : has revents READ_READY = has revents READ_EVENTS).
  { change READ_READY with (Z.lor READ_EVENTS EPOLLRDBAND). by rewrite has_lor, Hr, orb_false_r. }
  assert (HW : has revents WRITE_READY = has revents WRITE_EVENTS).
  { change WRITE_READY with (Z.lor WRITE_EVENTS EPOLLWRBAND). by rewrite has_lor, Hw, orb_false_r. }
  rewrite HR, HW. change (Z.lor EPOLLERR EPOLLHUP) with TERMINAL_EVENTS.
  by destruct (has revents READ_EVENTS), (has revents WRITE_EVENTS), (has revents TERMINAL_EVENTS).
Qed.
